(* ===== verification/_CoqProject ===== *)
-Q . S2P
Prelude.v
CLayout.v
Records.v
GoLang.v
GoStd.v
Protocol.v
ProtocolProofs.v
Lru.v
Collector.v
Pairing.v
Reassembly.v
Symbolizer.v
SymbolCache.v
SymbolLookup.v
Symbolize.v
Client.v
ClientProofs.v
ClientSpec.v
AppWire.v
AppProofs.v
AppSpec.v
CollectorTypes.v
SymbolNames.v
AppBuffer.v
AppPairer.v
AppParcel.v
AppTokens.v
AppReply.v
AppReplySpec.v
AppEvents.v
AppCodec.v
AppStore.v
AppStoreSpec.v
AppQuery.v
AppRepository.v
AppRepositorySpec.v
AppClassLoaders.v
AppSignatures.v
AppSignaturesSpec.v
AppResolver.v
AppResolverSpec.v
AppArguments.v
AppArgumentsSpec.v
AppExport.v
AppExportSpec.v
AppTyped.v
BpfEndian.v
BpfBitfield.v
BpfHelpers.v
BpfHelperDefs.v
BpfRuntime.v
Vmlinux.v
BpfCoreQuery.v
CommonHeaders.v
SimKernel.v
BpfCoreRead.v
BpfCoreMacros.v
BpfPrograms.v
BpfTracing.v
BpfRecords.v
BpfProofs.v
BpfMain.v
BpfChain.v
EndToEnd.v
Pipeline.v
AppTrace.v
PidFile.v
Daemon.v
Session.v
AppDaemon.v
AppTransport.v
AppTransportSpec.v
