(* ===== verification/Prelude.v ===== *)
(** * BinderTracer: a verification library

    BinderTracer records the Binder transactions of an Android device.  Three
    BPF programs in the kernel submit records, a Go daemon (src/daemon) makes
    events of them and streams these over a socket, and an Android app
    (src/app) collects, decodes, stores and shows them.

    ** The program

    - kprobe/binder_transaction (binder_transaction.byte.c), the main program,
      runs when a thread starts a transaction.  It filters by what it calls
      the uid (of a request, the group id of the sender), numbers the
      transaction with a timestamp, remembers the number for the thread in
      tid_to_txid_map, and submits one stack record and up to 16 main records
      of 0x400 parcel bytes each to the ring buffer.
    - kprobe/binder_transaction_cookie_path
      (cookie_kprobe_binder_transaction.byte.c) runs after it on the same
      function.  It makes a cookie from the clock and the processor, submits
      a cookie record that ties the cookie to the number, and leaves the
      cookie in pending_map for the thread.
    - raw_tracepoint/binder_transaction
      (raw_tp_binder_transaction.byte.c) runs once the kernel knows the
      receiver.  It takes the cookie out of pending_map and submits a sideband
      record: cookie, receiver pid and uid, the kernel's debug id.
    - The collector (event_collector.go) attaches the programs, dispatches the
      records by kind, reassembles the chunks of a transaction, pairs the
      result with its sideband through the cookie, and calls onEvent once per
      transaction; a sweeper gives up on what stays unpaired for too long.
    - The symbolizer (symbolizer.go) names the addresses of a captured stack
      from /proc/kallsyms, /proc/<pid>/maps and ELF symbol tables.
    - The socket client (socket_server.go) connects to the app, pushes the
      events from a bounded channel, answers commands, and reconnects; the
      protocol (protocol.go) frames both.
    - The daemon (daemon.go) holds a pid file, starts the others in order and
      undoes what it did when a step fails or the process ends.
    - The app reads frames (SocketClient.kt), checks the daemon's session
      token and decodes events (BinderEvent.kt, StackTraceCodec.kt).  A chain of
      decoders (parser/decoders, ParcelParser.kt) names the interface of each
      from its parcel; a reply is matched with its request
      (TransactionPairer.kt) and its exception or value read (ReplyParser.kt).
    - The resolver (MethodResolver.kt) names the method of a call and the types
      of its arguments by reflection, on the framework or on the APKs of the
      candidate packages (AppClassLoaderRegistry.kt); what it finds is cached
      in memory (SignatureCache.kt) and on disk
      (PersistentSignatureCache.kt).  With the types, the values of the
      arguments are read (ParcelArgumentDecoder.kt).
    - The repository (EventRepository.kt) counts an event (CoverageStats.kt),
      puts it into the window of the latest (BoundedEventBuffer.kt) and offers
      it to the store of all events (ColdEventStore.kt), which writes in
      batches, exports and searches; a timer publishes the filtered list.  An
      export is written as one JSON document (TraceJsonWriter.kt).
    - A controller (MonitoringSessionController.kt) starts, pauses, reconnects
      and stops a session, over a transport (RealSessionTransport.kt) that opens
      the server socket (SocketClient.kt), runs the event loop, and installs,
      starts and stops the daemon with root commands (BTraceManager.kt,
      RootManager.kt).

    ** The files

    Foundations.
    - Prelude: machine integers as [Z] with explicit wrap-around, byte
      strings, shared lemmas, the hint database [btrace].
    - CLayout: C object layout; Records: the four ring-buffer structs, the
      maps' constants, and the class [Bpf2Go] for the generated Go readers.
    - GoLang: bounds-checked slices, encoding/binary, io.ReadFull.  GoStd:
      sort, strings, strconv and bufio.Scanner as far as the daemon uses them.

    Kernel side.
    - BpfRuntime: the classes [BpfKernel] (helper operations) and
      [CoreTarget] (relocated offsets), with their laws; SimKernel: an
      executable instance; Vmlinux: the kernel structs of headers/vmlinux.h
      and the [CoreTarget] they give.
    - BpfCoreRead, BpfCoreMacros, BpfBitfield, BpfCoreQuery
      (headers/bpf_core_read.h; the class [CoreBuiltins] for its queries),
      BpfEndian (bpf_endian.h), BpfHelpers (bpf_helpers.h), BpfHelperDefs
      (bpf_helper_defs.h), BpfTracing (bpf_tracing.h), CommonHeaders
      (common.h, binder_transaction_data.h): the macro layer the programs are
      written in.
    - BpfPrograms: the three programs, each a function from [bpf_state] (the
      five maps, the ring, the clock) and a [probe_ctx] to a [bpf_state].
    - BpfRecords, BpfProofs, BpfMain, BpfChain: their theorems.

    Daemon side.
    - Protocol, ProtocolProofs: protocol.go.
    - Lru, Collector: the collector's tables and handlers.  [sm_state] holds
      the fields under stateMu, [collector] all of EventCollector's tables.
      Pairing, Reassembly: their theorems.  CollectorTypes: every event the
      collector can emit fits its wire format, given that the symbolizer's
      names are bounded (the class [SymbolizerLaws]).
    - Symbolizer: symbolizer.go over the class [OS] (clock, files, debug/elf)
      as the instance [proc_symbolizer] of the collector's [SymbolizerI].
      SymbolCache, SymbolLookup, Symbolize: theorems on the cache, on parsing
      and searching, and on whole lookups.  SymbolNames: the bound on names,
      from bounds on what the operating system gives (the class [OSLaws]).
    - Client: socket_server.go; [sys] is the client with its goroutines and
      connections, [step_of] one step of one of them.  ClientProofs,
      ClientSpec: the invariants and what follows from them.
    - PidFile: acquireSingleton and releasePidFile, whole and split at their
      system calls.  Daemon: Start, Stop and SetTargetUid of the collector, Run
      and shutdown of the daemon, over the class [EbpfLib].
    - EndToEnd: the kernel programs and the collector together.  Pipeline:
      [node], the collector with the socket client as the daemon connects
      them, and the app at the other end of the connection.

    App side.
    - AppWire: frames, decoding, handshake and event loop, in Kotlin's signed
      arithmetic.  AppProofs, AppSpec: agreement with the daemon.
    - AppBuffer, AppPairer: the event buffer and the pairing of replies.
    - AppParcel: the decoders of requests; AppReply: replies, and the chain of
      all decoders.  AppTokens, AppReplySpec: that they invert what the
      framework writes.
    - AppEvents: [app_event], an event with what was found out about it,
      coverage, filters.  AppCodec: the rows of the store, over the class
      [OrgJson]; AppStore: [ColdEventStore], its queue, writer and export;
      AppQuery: searches, over the class [KtStrings].  AppStoreSpec: theorems.
    - AppRepository: [EventRepository] and its operations, each split where it
      leaves the lock; what the package manager, the interface index and the
      method resolver answer is the argument [services].  AppRepositorySpec:
      theorems.  AppTrace: the repository behind the connection of Pipeline.
    - AppClassLoaders: [AppClassLoaderRegistry]; what the package manager says
      and how far a build comes are arguments, a class is a record of its
      fields and methods.  AppSignatures: [SignatureCache], and
      [PersistentSignatureCache] with its queue, its coroutine and the text on
      disk, over [OrgJson] and the class [HashIteration].  AppResolver:
      [MethodResolver] on top of them.  AppSignaturesSpec, AppResolverSpec:
      theorems.
    - AppArguments: ParcelArgumentDecoder over the class [AndroidParcel];
      AppArgumentsSpec: theorems, with the class [ParcelLaws].
    - AppExport: TraceJsonWriter and exportJson over the class [Formatter];
      AppExportSpec: JSON as a relation between texts and values, theorems.
    - AppTyped: the ranges of the fields, from the frame to the store.
    - Session: the session controller and the watchdog; an operation is a
      [job], run to its end or interleaved with others, over any [Transport].
      AppDaemon: BTraceManager and RootManager over the class [Device], with the
      text of every command.  AppTransport: [phone], the socket, the event loops
      and the managers, over the class [Network]; its [perform_real] is a
      [Transport].  AppTransportSpec: that it keeps [TransportLaws], theorems.

    ** What the theorems show

    - End to end (C1, C3, C4, C5, C6, C26): a traced request, or the reply to
      one, comes out of the collector as exactly one event, with the
      sender's parcel byte for byte, the captured stack and the receiver the
      tracepoint saw; every record any program can submit reaches the
      handler of its own type; what the collector emits, whatever the ring
      holds, is what the app decodes, in order, counts, and finds in its
      store; and a traced request reaches the app.
    - The app's repository (C2, C9): a call is shown with interface, method
      and what was returned or thrown, and each half leads to the other;
      counters, window and store agree under every interleaving.
    - Names and arguments (C10, C11, C22): while the installed packages stay as
      they are, the resolver with its caches, which may start from what an
      earlier process has left on disk, answers as the classes and tables do
      without them, for the candidates that have not failed within the last
      minute; arguments are shown as the caller wrote them, up to the
      first type that is not supported; signatures survive a restart.
    - The app's store (C12, C13, C14, C19, C20): nothing that was offered
      is missing unless its write failed, an export is complete or fails and
      its file is a JSON document from which every event can be read back,
      paging through a search gives what the list's filter would, and rows
      decode to what was encoded ([received_event_typed] in AppTyped: what the
      app receives has the types that this takes).
    - The app's decoders (C17, C18, C35): the three layouts of interface tokens
      and replies in the layout that ReplyParser documents are read as they were
      written, and every event gets a name.
    - Daemon and app (C15, C16, C25): both decoders agree on every payload
      that declares a possible size; decoding inverts encoding; the handshake
      tells daemons apart.
    - BPF programs (C23, C24, C27): for every kernel that meets the helper
      documentation, the parcel is captured whole, the three programs hand a
      request of any size over to each other, and a cookie is announced before
      it is used, whatever the interleaving of invocations.
    - Collector (C7, C8, C39): reassembly is independent of interleaving and
      order, no event is lost or duplicated by the pairing state machine, and
      the handlers do not panic below a stated size.
    - Symbolizer (C28, C36): a code address of a file that the loader mapped
      where its symbols are gets a symbol that covers it, the cache implements
      an LRU map; a mapping is used for 100 ms or read again
      ([maps_fresh_or_reread] in Symbolize).
    - Socket client (C21, C30, C31): a pause stops events, reconnecting ends,
      there is one connection or one reconnect loop; every command is answered
      ([every_command_answered] in ClientSpec).
    - Daemon (C29, C32, C37, C38): a failed start and a shutdown leave
      nothing behind, SetTarget changes what the probe filters, and daemons
      that start one after the other exclude each other.
    - The app's session (C33, C34): with requests that do not overlap, on every
      device and network that meet their laws, a session that shows itself
      connected has an open socket, a running event loop and the
      acknowledgement of its daemon; a start that fails and a stop close the
      socket, and leave no daemon when stopping daemons succeeds, unless it is
      the launch itself that failed ([stop_during_start] in Session is about
      requests that overlap, [slow_start_leaves_daemon] and
      [failed_reconnect_leaves_daemon] in AppTransportSpec about what is left).
    - Behaviour that differs from what the surrounding comments say (C40):
      declared sizes near the limits of the integers.  Further such theorems:
      [declared_size_throws] in AppSpec, [request_filter_compares_gid] in
      BpfMain, [shifted_segment_misnamed] in Symbolize,
      [aligned_message_shifts_code] and [older_arguments_not_found] in
      AppReplySpec, [escaped_text_not_found] in AppQuery, [clear_overtaken] in
      AppRepositorySpec, [unknown_code_hides_interface] and
      [old_signatures_relabelled] in AppResolverSpec.
    - Theorems on record layouts, helper numbers, bit-fields, pointer chasing,
      queries, byte order, registers and printing are in the Bpf files.

    ** Modelling choices and bounds

    Code outside the repository (kernel helpers, CO-RE relocation, the
    generated bpf2go readers, the eBPF library, the operating system,
    debug/elf, sort.Slice on equal keys, UTF-8 decoding, org.json, Android's
    package manager, reflection, Parcel and text formatting, the root shell,
    the network) is a class or an argument whose laws are its documentation;
    each theorem that uses one has a witness on a concrete instance.  The
    order in which a hash map is iterated is a class too.  A Go panic and a
    Kotlin exception are [None].  The chunk loop of the main program has the
    source's own bound of 16 iterations; the eviction loop is given as many
    rounds as its list has elements, which [evict_rounds_spec] shows is
    enough; printing a number has one round per bit; the app's loops over a
    stream have one round per byte of it, and a frame takes six; an export and
    a search have one round per row and one more, as every page but the last
    has a row; every other recursion is structural.  Time is an argument: the
    clock of the state for BPF, [now] for Go, the outcome of a deadline for
    the app.  One program invocation, one collector handler and one sweeper
    tick, with the onEvent calls it makes, are atomic steps, and so is one
    critical section or one write of the socket client, and one access to a
    field or one transport call of the session controller; their interleavings
    are sequences of steps.  So are a synchronized block of the repository and
    what it publishes afterwards, and one round of the store's writer.  Rounds
    of the app's event loops and of its heartbeat come between transport
    calls.  A table is the list of its rows by key, and a failed
    statement an argument of the round.  Names of symbols and files are taken
    to be shorter than 16000 bytes where an event must fit its frame.

    ** What is not modelled

    bpf_printk output, log lines and the counters that are only logged; the
    log file, flags and signals of main.go and daemon.go; TCP timeouts and
    keep-alive.  A sweeper tick between two critical sections of one handler
    is not an interleaving of the model.  Of the app: the interface index, the
    service catalogue and the package lookups, whose answers are arguments,
    and the scanning of APKs that fills them; preferences and export files
    that cannot be written; waiting times; notifications, overlay and the user
    interface.

    ** Open ends

    - The collector at the grain of its critical sections, and
      interleavings of many transactions end to end.
    - Reconnection as seen by the app: eventFlow over a sequence of
      connections. *)

From Stdlib Require Export ZArith Lia.
From stdpp Require Export base list gmap strings numbers.

#[global] Open Scope Z_scope.

(** ** Machine integers *)

Definition wrap (w z : Z) : Z := z mod 2 ^ w.
Definition u8 (z : Z) : Z := wrap 8 z.
Definition u16 (z : Z) : Z := wrap 16 z.
Definition u32 (z : Z) : Z := wrap 32 z.
Definition u64 (z : Z) : Z := wrap 64 z.
(** Two's-complement reading of the low [w] bits. *)
Definition signed (w z : Z) : Z :=
  let r := wrap w z in if r <? 2 ^ (w - 1) then r else r - 2 ^ w.
Definition s16 (z : Z) : Z := signed 16 z.
Definition s32 (z : Z) : Z := signed 32 z.
Definition s64 (z : Z) : Z := signed 64 z.

Definition fits (w z : Z) : Prop := 0 <= z < 2 ^ w.

#[global] Instance fits_dec w z : Decision (fits w z).
Proof. unfold fits. apply _. Defined.

(** ** Byte strings

    A byte is a [Z] in [0, 256); [le_bytes] and [be_bytes] are the
    little-endian and big-endian encodings of the low [8 * n] bits. *)

Fixpoint le_bytes (n : nat) (z : Z) : list Z :=
  match n with
  | O => []
  | S n => z mod 256 :: le_bytes n (z / 256)
  end.

Fixpoint le_val (bs : list Z) : Z :=
  match bs with
  | [] => 0
  | b :: bs => b + 256 * le_val bs
  end.

Definition be_bytes (n : nat) (z : Z) : list Z := rev (le_bytes n z).
Definition be_val (bs : list Z) : Z := le_val (rev bs).

Definition is_bytes (bs : list Z) : Prop := Forall (fits 8) bs.

(** [slice off n bs] is [bs[off : off+n]]; [splice off new bs] overwrites
    [length new] bytes of [bs] at [off]: a store into a buffer. *)
Definition slice (off n : nat) (bs : list Z) : list Z := take n (drop off bs).
Definition splice (off : nat) (new bs : list Z) : list Z :=
  take off bs ++ new ++ drop (off + length new) bs.

(** ** Automation *)

Create HintDb btrace.

Ltac bdestr :=
  match goal with
  | |- context [Z.eqb ?a ?b] => destruct (Z.eqb_spec a b)
  | |- context [Z.ltb ?a ?b] => destruct (Z.ltb_spec a b)
  | |- context [Z.leb ?a ?b] => destruct (Z.leb_spec a b)
  | H : context [Z.eqb ?a ?b] |- _ => destruct (Z.eqb_spec a b)
  | H : context [Z.ltb ?a ?b] |- _ => destruct (Z.ltb_spec a b)
  | H : context [Z.leb ?a ?b] |- _ => destruct (Z.leb_spec a b)
  end.

Lemma wrap_small w z : fits w z -> wrap w z = z.
Proof. intros H. apply Z.mod_small, H. Qed.

Lemma wrap_fits w z : 0 <= w -> fits w (wrap w z).
Proof. intros H. apply Z.mod_pos_bound. lia. Qed.

Lemma wrap_idemp w z : 0 <= w -> wrap w (wrap w z) = wrap w z.
Proof. intros. by apply wrap_small, wrap_fits. Qed.

Lemma fits_0 w : 0 <= w -> fits w 0.
Proof. intros. split; [done|]. by apply Z.pow_pos_nonneg. Qed.

Lemma fits_1 w : 0 < w -> fits w 1.
Proof. intros. split; [done|]. by apply Z.pow_gt_1. Qed.

Lemma fits_mono w w' z : 0 <= w <= w' -> fits w z -> fits w' z.
Proof.
  intros Hw [? Hz]. split; [done|].
  pose proof (Z.pow_le_mono_r 2 w w'). lia.
Qed.

Lemma length_le_bytes n z : length (le_bytes n z) = n.
Proof. revert z; induction n as [|n IH]; intros z; simpl; [done|]. by rewrite IH. Qed.

Lemma length_be_bytes n z : length (be_bytes n z) = n.
Proof. unfold be_bytes. by rewrite length_rev, length_le_bytes. Qed.

Lemma pow256_succ n : 2 ^ (8 * Z.of_nat (S n)) = 256 * 2 ^ (8 * Z.of_nat n).
Proof.
  replace (8 * Z.of_nat (S n)) with (8 + 8 * Z.of_nat n) by lia.
  rewrite Z.pow_add_r by lia. done.
Qed.

(** Decoding what was encoded gives back the value modulo its width. *)
Lemma le_val_bytes n z : le_val (le_bytes n z) = wrap (8 * Z.of_nat n) z.
Proof.
  unfold wrap. revert z; induction n as [|n IH]; intros z.
  { simpl. by rewrite Z.mod_1_r. }
  cbn [le_bytes le_val]. rewrite IH, pow256_succ, Z.rem_mul_r by lia. done.
Qed.

Lemma be_val_bytes n z : be_val (be_bytes n z) = wrap (8 * Z.of_nat n) z.
Proof. unfold be_val, be_bytes. by rewrite rev_involutive, le_val_bytes. Qed.

Lemma le_val_bytes_fits n z : fits (8 * Z.of_nat n) z -> le_val (le_bytes n z) = z.
Proof. intros. rewrite le_val_bytes. by apply wrap_small. Qed.

Lemma be_val_bytes_fits n z : fits (8 * Z.of_nat n) z -> be_val (be_bytes n z) = z.
Proof. intros. rewrite be_val_bytes. by apply wrap_small. Qed.

Lemma le_bytes_is_bytes n z : is_bytes (le_bytes n z).
Proof.
  revert z; induction n as [|n IH]; intros z; cbn; constructor; [|apply IH].
  apply Z.mod_pos_bound. done.
Qed.

Lemma be_bytes_is_bytes n z : is_bytes (be_bytes n z).
Proof. apply Forall_rev, le_bytes_is_bytes. Qed.

Lemma le_val_fits bs : is_bytes bs -> fits (8 * Z.of_nat (length bs)) (le_val bs).
Proof.
  induction 1 as [|b bs Hb Hbs IH]; [done|]. cbn [length le_val].
  unfold fits in *. rewrite pow256_succ. lia.
Qed.

(** Encoding what was decoded gives back the bytes. *)
Lemma le_bytes_val bs : is_bytes bs -> le_bytes (length bs) (le_val bs) = bs.
Proof.
  induction 1 as [|b bs Hb Hbs IH]; [done|]. cbn [length le_val le_bytes].
  unfold fits in Hb. f_equal.
  - rewrite Z.mul_comm, Z.mod_add by lia. apply Z.mod_small. lia.
  - rewrite Z.mul_comm, Z.div_add, Z.div_small by lia. apply IH.
Qed.

#[export] Hint Resolve wrap_fits fits_0 fits_1 le_bytes_is_bytes be_bytes_is_bytes : btrace.
#[export] Hint Extern 1 (_ <= _) => lia : btrace.
#[export] Hint Extern 1 (_ < _) => lia : btrace.

(** ** Slices and stores *)

Lemma length_slice off n bs : (off + n <= length bs)%nat -> length (slice off n bs) = n.
Proof. intros. unfold slice. rewrite length_take, length_drop. lia. Qed.

Lemma length_splice off new bs :
  (off + length new <= length bs)%nat -> length (splice off new bs) = length bs.
Proof.
  intros. unfold splice. rewrite !length_app, length_take, length_drop. lia.
Qed.

Lemma slice_splice_same off new bs :
  (off <= length bs)%nat -> slice off (length new) (splice off new bs) = new.
Proof.
  intros. unfold slice, splice.
  rewrite drop_app_length' by (rewrite length_take; lia).
  by rewrite take_app_length.
Qed.

Lemma slice_splice_before off n o new bs :
  (off + n <= o)%nat -> (o <= length bs)%nat ->
  slice off n (splice o new bs) = slice off n bs.
Proof.
  intros. unfold slice, splice.
  rewrite drop_app_le by (rewrite length_take; lia).
  rewrite take_app_le by (rewrite length_drop, length_take; lia).
  rewrite skipn_firstn_comm, take_take. f_equal. lia.
Qed.

Lemma slice_splice_after off n o new bs :
  (o + length new <= off)%nat -> (o <= length bs)%nat ->
  slice off n (splice o new bs) = slice off n bs.
Proof.
  intros. unfold slice, splice.
  rewrite drop_app_ge by (rewrite length_take; lia).
  rewrite drop_app_ge by (rewrite length_take; lia).
  rewrite drop_drop, length_take. do 2 f_equal. lia.
Qed.

(** ** Bit packing *)

Lemma lor_shiftl_add h l n : 0 <= n -> fits n l -> Z.lor (Z.shiftl h n) l = h * 2 ^ n + l.
Proof.
  intros Hn Hl. rewrite <- Z.shiftl_mul_pow2 by done. symmetry. apply Z.add_nocarry_lor.
  apply Z.bits_inj'. intros i Hi. rewrite Z.land_spec, Z.shiftl_spec, Z.bits_0 by done.
  destruct (Z.lt_ge_cases i n) as [Hlt|Hge].
  - by rewrite Z.testbit_neg_r by lia.
  - rewrite <- (Z.mod_small l (2 ^ n)) by apply Hl.
    rewrite Z.mod_pow2_bits_high by lia. apply andb_false_r.
Qed.

Lemma pack_hi h l n : 0 <= n -> fits n l -> Z.shiftr (Z.lor (Z.shiftl h n) l) n = h.
Proof.
  intros Hn Hl. rewrite lor_shiftl_add, Z.shiftr_div_pow2 by done.
  rewrite Z.div_add_l, Z.div_small by (apply Hl || lia). lia.
Qed.

Lemma pack_lo h l n : 0 <= n -> fits n l -> wrap n (Z.lor (Z.shiftl h n) l) = l.
Proof.
  intros Hn Hl. rewrite lor_shiftl_add by done. unfold wrap.
  rewrite Z.add_comm, Z.mod_add by lia. apply Z.mod_small, Hl.
Qed.

Lemma land_ones_wrap z n : 0 <= n -> Z.land z (Z.ones n) = wrap n z.
Proof. intros. by apply Z.land_ones. Qed.

Lemma signed_wrap w z : 0 < w -> - 2 ^ (w - 1) <= z < 2 ^ (w - 1) -> signed w (wrap w z) = z.
Proof.
  intros Hw Hz. unfold signed. rewrite wrap_idemp by lia. unfold wrap.
  assert (2 ^ w = 2 * 2 ^ (w - 1)) by (rewrite <- Z.pow_succ_r; [f_equal|]; lia).
  destruct (Z.lt_ge_cases z 0).
  - replace (z mod 2 ^ w) with (z + 2 ^ w); [bdestr; lia|].
    rewrite <- (Z.mod_add z 1 (2 ^ w)) by lia. rewrite Z.mod_small; lia.
  - rewrite Z.mod_small by lia. bdestr; lia.
Qed.

(** ** Address ranges *)

(** The bytes a memory [m] holds at [a, a + n). *)
Definition mem_bytes (m : Z -> Z) (a : Z) (n : nat) : list Z :=
  (λ j, m (a + Z.of_nat j)) <$> seq 0 n.

Lemma length_mem_bytes m a n : length (mem_bytes m a n) = n.
Proof. unfold mem_bytes. by rewrite length_fmap, length_seq. Qed.

Lemma mem_bytes_app m a n k :
  mem_bytes m a (n + k) = mem_bytes m a n ++ mem_bytes m (a + Z.of_nat n) k.
Proof.
  unfold mem_bytes. rewrite seq_app, fmap_app. f_equal. rewrite Nat.add_0_l.
  rewrite <- (Nat.add_0_r n) at 1. rewrite <- fmap_add_seq, <- list_fmap_compose.
  apply list_fmap_ext. intros ? j _. cbn. f_equal. lia.
Qed.

(** ** Reassembling fixed-size chunks

    Chunks of [n] bytes whose leading bytes are the consecutive pieces of
    [m] at [a, a + size): cutting their concatenation at [size] gives the
    memory back, whatever follows the data in the last chunk. *)
Lemma take_concat_chunks (m : Z -> Z) (n : nat) (cs : list (list Z)) (a : Z) (size : nat) :
  (0 < n)%nat ->
  (size <= n * length cs)%nat -> (n * length cs < size + n)%nat ->
  (forall j c, cs !! j = Some c ->
     length c = n /\
     take (size - n * j) c = mem_bytes m (a + Z.of_nat (n * j)) (Nat.min n (size - n * j))) ->
  take size (concat cs) = mem_bytes m a size.
Proof.
  intros Hn. revert a size. induction cs as [|c cs IH]; intros a size Hle Hlt Hcs.
  { cbn in *. assert (size = 0)%nat as -> by lia. done. }
  destruct (Hcs 0%nat c eq_refl) as [Hlen Hc]. rewrite Nat.mul_0_r, Nat.sub_0_r, Z.add_0_r in Hc.
  cbn [concat length] in *. destruct (Nat.le_gt_cases size n) as [Hs|Hs].
  - rewrite take_app_le by lia. rewrite Hc. f_equal. lia.
  - rewrite take_app_ge by lia. rewrite Hlen, (IH (a + Z.of_nat n) (size - n)%nat); [|lia|lia|].
    + assert (c = mem_bytes m a n) as ->.
      { rewrite take_ge, Nat.min_l in Hc by lia. done. }
      rewrite <- mem_bytes_app. f_equal. lia.
    + intros j c' Hj. destruct (Hcs (S j) c' Hj) as [Hlen' Hc']. split; [done|].
      replace (size - n - n * j)%nat with (size - n * S j)%nat by lia.
      rewrite Hc'. f_equal. lia.
Qed.
