(* ===== verification/CLayout.v ===== *)
(** * C object layout

    Sizes, alignments and member offsets of C types as the LP64
    little-endian targets of this repository (bpfel, arm64) lay them out:
    scalars aligned to their size, members placed in order at the next
    aligned position, bit-fields packed into units of their declared type,
    aggregates padded to their alignment.  Positions inside an aggregate are
    counted in bits.  The ring-buffer records of
    daemon/binder_transaction.byte.c and the kernel structs of
    daemon/headers/vmlinux.h are values of [ctype]; [offset_of] computes the
    offsets the compiler records for them. *)

From S2P Require Import Prelude.

(** ** Types *)

#[local] Set Warnings "-register-all".

(** [CInt b s]: integer of [b] bytes, signed when [s].  A member is its name
    (empty for an anonymous member or unnamed padding), its type and, for a
    bit-field, its width. *)
Inductive ctype :=
| CInt (bytes : Z) (sgn : bool)
| CPtr
| CArray (elt : ctype) (n : Z)
| CStruct (members : list (string * ctype * option Z))
| CUnion (members : list (string * ctype * option Z)).

Abbreviation cmember := (string * ctype * option Z)%type.

Definition fld (n : string) (t : ctype) : cmember := (n, t, None).
Definition bits (n : string) (t : ctype) (w : Z) : cmember := (n, t, Some w).
Definition pad_bits (t : ctype) (w : Z) : cmember := (EmptyString, t, Some w).
Definition anon (t : ctype) : cmember := (EmptyString, t, None).

Definition c_u8 := CInt 1 false.
Definition c_s8 := CInt 1 true.
Definition c_u16 := CInt 2 false.
Definition c_s16 := CInt 2 true.
Definition c_u32 := CInt 4 false.
Definition c_s32 := CInt 4 true.
Definition c_u64 := CInt 8 false.
Definition c_s64 := CInt 8 true.
Definition c_u128 := CInt 16 false.

Definition member_name (m : cmember) : string := m.1.1.
Definition member_type (m : cmember) : ctype := m.1.2.
Definition member_width (m : cmember) : option Z := m.2.

(** ** Layout *)

Definition align_up (p a : Z) : Z := (p + a - 1) / a * a.

Fixpoint calign (t : ctype) : Z :=
  match t with
  | CInt b _ => b
  | CPtr => 8
  | CArray t _ => calign t
  | CStruct ms | CUnion ms =>
      (fix go (ms : list cmember) : Z :=
         match ms with
         | [] => 1
         | (_, t, _) :: ms => Z.max (calign t) (go ms)
         end) ms
  end.

(** Where a member of alignment [a] and size [s] (bytes) goes when the
    aggregate is filled up to bit [pos]: its first bit and the bit after its
    last one. *)
Definition place (pos a s : Z) (w : option Z) : Z * Z :=
  match w with
  | None => let p := align_up pos (8 * a) in (p, p + 8 * s)
  | Some w =>
      if w =? 0 then let p := align_up pos (8 * s) in (p, p)
      else
        let p := if pos mod (8 * s) + w <=? 8 * s then pos
                 else align_up pos (8 * s) in
        (p, p + w)
  end.

Fixpoint csize (t : ctype) : Z :=
  match t with
  | CInt b _ => b
  | CPtr => 8
  | CArray t n => n * csize t
  | CStruct ms =>
      align_up
        ((fix go (pos : Z) (ms : list cmember) : Z :=
            match ms with
            | [] => pos
            | (_, t, w) :: ms => go (place pos (calign t) (csize t) w).2 ms
            end) 0 ms)
        (8 * calign t) / 8
  | CUnion ms =>
      align_up
        ((fix go (ms : list cmember) : Z :=
            match ms with
            | [] => 0
            | (_, t, w) :: ms => Z.max (place 0 (calign t) (csize t) w).2 (go ms)
            end) ms)
        (8 * calign t) / 8
  end.

(** The bit ranges of the members of a struct, in order. *)
Fixpoint places (pos : Z) (ms : list cmember) : list (Z * Z) :=
  match ms with
  | [] => []
  | (_, t, w) :: ms =>
      let r := place pos (calign t) (csize t) w in r :: places r.2 ms
  end.

Definition layout_end (pos : Z) (ms : list cmember) : Z :=
  foldl (λ pos m, (place pos (calign (member_type m)) (csize (member_type m))
                     (member_width m)).2) pos ms.

(** Bit position and member found for [name], looking through anonymous
    members. *)
Fixpoint find_member (t : ctype) (name : string) : option (Z * ctype * option Z) :=
  match t with
  | CStruct ms =>
      (fix go (pos : Z) (ms : list cmember) : option (Z * ctype * option Z) :=
         match ms with
         | [] => None
         | (n, t, w) :: ms =>
             let r := place pos (calign t) (csize t) w in
             if String.eqb n name then Some (r.1, t, w)
             else match (if String.eqb n EmptyString then find_member t name else None) with
                  | Some (o, t', w') => Some (r.1 + o, t', w')
                  | None => go r.2 ms
                  end
         end) 0 ms
  | CUnion ms =>
      (fix go (ms : list cmember) : option (Z * ctype * option Z) :=
         match ms with
         | [] => None
         | (n, t, w) :: ms =>
             if String.eqb n name then Some ((place 0 (calign t) (csize t) w).1, t, w)
             else match (if String.eqb n EmptyString then find_member t name else None) with
                  | Some (o, t', w') => Some (o, t', w')
                  | None => go ms
                  end
         end) ms
  | _ => None
  end.

(** [offset_of t path]: byte offset and type of [t.a.b...]; only for
    byte-addressable members. *)
Fixpoint offset_of (t : ctype) (path : list string) : option (Z * ctype) :=
  match path with
  | [] => Some (0, t)
  | n :: path =>
      match find_member t n with
      | Some (o, t', None) =>
          match offset_of t' path with
          | Some (o', t'') => Some (o / 8 + o', t'')
          | None => None
          end
      | _ => None
      end
  end.

Definition offset (t : ctype) (path : list string) : Z :=
  match offset_of t path with Some (o, _) => o | None => 0 end.

(** ** Well-formed types *)

Definition member_wf (t : ctype) (w : option Z) : bool :=
  match w with
  | None => true
  | Some w => match t with CInt b _ => (0 <=? w) && (w <=? 8 * b) | _ => false end
  end.

Fixpoint cwf (t : ctype) : bool :=
  match t with
  | CInt b _ => existsb (Z.eqb b) [1; 2; 4; 8; 16]
  | CPtr => true
  | CArray t n => (0 <=? n) && cwf t
  | CStruct ms | CUnion ms =>
      (fix go (ms : list cmember) : bool :=
         match ms with
         | [] => true
         | (_, t, w) :: ms => cwf t && member_wf t w && go ms
         end) ms
  end.

(** ** Induction over nested members *)

Lemma ctype_members_ind (P : ctype -> Prop) :
  (forall b s, P (CInt b s)) -> P CPtr ->
  (forall t n, P t -> P (CArray t n)) ->
  (forall ms, Forall (λ m, P (member_type m)) ms -> P (CStruct ms)) ->
  (forall ms, Forall (λ m, P (member_type m)) ms -> P (CUnion ms)) ->
  forall t, P t.
Proof.
  intros Hi Hp Ha Hs Hu. fix IH 1. intros [b s| |t n|ms|ms].
  - apply Hi.
  - apply Hp.
  - apply Ha, IH.
  - apply Hs. induction ms as [|[[n t] w] ms IHms]; constructor; [apply IH|apply IHms].
  - apply Hu. induction ms as [|[[n t] w] ms IHms]; constructor; [apply IH|apply IHms].
Qed.

Lemma calign_struct ms :
  calign (CStruct ms) = foldr (λ m, Z.max (calign (member_type m))) 1 ms.
Proof. induction ms as [|[[n t] w] ms IH]; cbn in *; [done|by rewrite IH]. Qed.

Lemma calign_union ms : calign (CUnion ms) = calign (CStruct ms).
Proof. done. Qed.

Lemma csize_struct ms :
  csize (CStruct ms) = align_up (layout_end 0 ms) (8 * calign (CStruct ms)) / 8.
Proof.
  cbn [csize]. do 2 f_equal. unfold layout_end. generalize 0.
  induction ms as [|[[n t] w] ms IH]; intros pos; cbn; [done|apply IH].
Qed.

Lemma csize_union ms :
  csize (CUnion ms) =
  align_up (foldr (λ m, Z.max (place 0 (calign (member_type m)) (csize (member_type m))
                                 (member_width m)).2) 0 ms)
           (8 * calign (CUnion ms)) / 8.
Proof.
  cbn [csize]. do 2 f_equal.
  induction ms as [|[[n t] w] ms IH]; cbn in *; [done|by rewrite IH].
Qed.

Lemma cwf_struct ms :
  cwf (CStruct ms) = true <->
  Forall (λ m, cwf (member_type m) = true /\
               member_wf (member_type m) (member_width m) = true) ms.
Proof.
  induction ms as [|[[n t] w] ms IH]; cbn in *; [by split; constructor|].
  rewrite Forall_cons_iff, <- IH, !Bool.andb_true_iff. done.
Qed.

(** ** Alignment arithmetic *)

Lemma align_up_div p a : 0 < a -> (a | align_up p a).
Proof. intros. apply Z.divide_factor_r. Qed.

Lemma align_up_bounds p a : 0 < a -> p <= align_up p a < p + a.
Proof.
  intros Ha. unfold align_up.
  pose proof (Z.div_mod (p + a - 1) a). pose proof (Z.mod_pos_bound (p + a - 1) a). nia.
Qed.

Lemma align_up_id p a : 0 < a -> (a | p) -> align_up p a = p.
Proof.
  intros Ha [k ->]. pose proof (align_up_bounds (k * a) a Ha) as Hb.
  destruct (align_up_div (k * a) a Ha) as [j Hj]. rewrite Hj in *.
  assert (k <= j) by nia. assert (j < k + 1) by nia. f_equal. lia.
Qed.

(** [pow2_align a]: the alignments that occur are 1, 2, 4, 8 and 16, so the
    larger of two is a multiple of the other. *)
Definition pow2_align (a : Z) : Prop := a = 1 \/ a = 2 \/ a = 4 \/ a = 8 \/ a = 16.

Lemma pow2_align_pos a : pow2_align a -> 0 < a.
Proof. unfold pow2_align. lia. Qed.

Lemma pow2_align_max a b :
  pow2_align a -> pow2_align b -> pow2_align (Z.max a b) /\ (a | Z.max a b).
Proof.
  intros Ha Hb. unfold pow2_align in *. split; [lia|].
  destruct Ha as [->|[->|[->|[->| ->]]]], Hb as [->|[->|[->|[->| ->]]]]; cbn;
    apply Z.mod_divide; done.
Qed.

Lemma cwf_align t : cwf t = true -> pow2_align (calign t).
Proof.
  assert (Hms : forall ms,
    Forall (λ m, cwf (member_type m) = true -> pow2_align (calign (member_type m))) ms ->
    cwf (CStruct ms) = true -> pow2_align (calign (CStruct ms))).
  { intros ms Hms Hwf%cwf_struct. rewrite calign_struct.
    induction Hms as [|m ms Hm Hms IH]; cbn; [by left|].
    apply Forall_cons_iff in Hwf as [[Hm' _] Hwf].
    apply pow2_align_max; auto. }
  induction t as [b s| |t n IH|ms IH|ms IH] using ctype_members_ind; intros Hwf.
  - cbn in *. unfold pow2_align. repeat bdestr; lia || done.
  - cbn. unfold pow2_align. lia.
  - cbn in *. apply andb_prop in Hwf as [_ Hwf]. auto.
  - auto.
  - rewrite calign_union. by apply Hms.
Qed.

Lemma cwf_align_pos t : cwf t = true -> 0 < calign t.
Proof. intros. by apply pow2_align_pos, cwf_align. Qed.

Lemma place_mono pos a s w :
  0 < a -> 0 <= s -> (forall w', w = Some w' -> 0 < s /\ 0 <= w' <= 8 * s) ->
  pos <= (place pos a s w).1 <= (place pos a s w).2.
Proof.
  intros Ha Hs Hw. destruct w as [w|]; cbn.
  - destruct (Hw w eq_refl) as [Hs' Hw']. clear Hw.
    pose proof (align_up_bounds pos (8 * s)). repeat bdestr; cbn; lia.
  - pose proof (align_up_bounds pos (8 * a)). lia.
Qed.

Lemma member_wf_width t w :
  cwf t = true -> member_wf t w = true ->
  forall w', w = Some w' -> 0 < csize t /\ 0 <= w' <= 8 * csize t.
Proof.
  intros Hwf Hm w' ->. destruct t as [b s| | | |]; cbn in *; try done.
  repeat bdestr; cbn in *; try done; lia.
Qed.

Lemma foldr_max_nonneg {A} (f : A -> Z) l : 0 <= foldr (λ x, Z.max (f x)) 0 l.
Proof. induction l; cbn; lia. Qed.

Lemma layout_end_mono ms pos :
  Forall (λ m, cwf (member_type m) = true /\
               member_wf (member_type m) (member_width m) = true) ms ->
  Forall (λ m, 0 <= csize (member_type m)) ms ->
  pos <= layout_end pos ms.
Proof.
  intros Hwf Hsz. revert pos. induction Hwf as [|m ms [Hm1 Hm2] Hwf IH]; intros pos; cbn.
  { lia. }
  apply Forall_cons_iff in Hsz as [Hs Hsz]. etransitivity; [|by apply IH].
  pose proof (place_mono pos (calign (member_type m)) (csize (member_type m)) (member_width m)
    (cwf_align_pos _ Hm1) Hs (member_wf_width _ _ Hm1 Hm2)). lia.
Qed.

Lemma cwf_size_nonneg t : cwf t = true -> 0 <= csize t.
Proof.
  induction t as [b s| |t n IH|ms IH|ms IH] using ctype_members_ind; intros Hwf.
  - cbn in *. repeat bdestr; lia || done.
  - done.
  - cbn in *. apply andb_prop in Hwf as [Hn Hwf]. specialize (IH Hwf). repeat bdestr; nia || done.
  - pose proof (cwf_align_pos _ Hwf). rewrite csize_struct. apply cwf_struct in Hwf.
    apply Z.div_pos; [|lia].
    pose proof (align_up_bounds (layout_end 0 ms) (8 * calign (CStruct ms))).
    enough (0 <= layout_end 0 ms) by lia. apply layout_end_mono; [done|].
    clear H0. apply Forall_forall. intros m Hin.
    destruct (proj1 (Forall_forall _ _) Hwf m Hin) as [Hm _].
    by apply (proj1 (Forall_forall _ _) IH m Hin).
  - pose proof (cwf_align_pos _ Hwf). rewrite csize_union.
    apply Z.div_pos; [|lia].
    match goal with |- 0 <= align_up ?e ?a => pose proof (align_up_bounds e a);
      enough (0 <= e) by lia end. apply foldr_max_nonneg.
Qed.

(** A size is a multiple of the alignment, so array elements stay aligned. *)
Lemma cwf_size_align t : cwf t = true -> (calign t | csize t).
Proof.
  assert (Hup : forall e a, 0 < a -> (a | align_up e (8 * a) / 8)).
  { intros e a Ha. unfold align_up. exists ((e + 8 * a - 1) / (8 * a)).
    rewrite (Z.mul_comm 8 a), Z.mul_assoc, Z.div_mul by lia. done. }
  induction t as [b s| |t n IH|ms IH|ms IH] using ctype_members_ind; intros Hwf.
  - done.
  - done.
  - cbn in *. apply andb_prop in Hwf as [_ Hwf]. by apply Z.divide_mul_r, IH.
  - rewrite csize_struct. by apply Hup, cwf_align_pos.
  - rewrite csize_union. by apply Hup, cwf_align_pos.
Qed.

(** ** Members do not overlap *)

(** The member ranges [rs], in order, start at or after [lo], follow one
    another without overlap and end at or before [hi]. *)
Fixpoint disjoint_from (lo : Z) (rs : list (Z * Z)) (hi : Z) : Prop :=
  match rs with
  | [] => lo <= hi
  | (b, e) :: rs => lo <= b /\ b <= e /\ disjoint_from e rs hi
  end.

Lemma disjoint_from_weaken lo rs hi hi' :
  disjoint_from lo rs hi -> hi <= hi' -> disjoint_from lo rs hi'.
Proof.
  revert lo. induction rs as [|[b e] rs IH]; cbn; intros lo Hd Hh; [lia|].
  destruct Hd as (?&?&?). eauto.
Qed.

(** Each plain member is aligned; each bit-field lies inside one storage
    unit of its declared type. *)
Definition member_aligned (m : cmember) (r : Z * Z) : Prop :=
  match member_width m with
  | None => (8 * calign (member_type m) | r.1) /\ r.2 = r.1 + 8 * csize (member_type m)
  | Some w => r.2 = r.1 + w /\ r.1 mod (8 * csize (member_type m)) + w <= 8 * csize (member_type m)
  end.

Lemma place_aligned t pos w :
  cwf t = true -> member_wf t w = true ->
  member_aligned (EmptyString, t, w) (place pos (calign t) (csize t) w).
Proof.
  intros Hwf Hm. pose proof (cwf_align_pos t Hwf). unfold member_aligned.
  destruct w as [w|]; cbn.
  - destruct (member_wf_width t _ Hwf Hm w eq_refl) as [Hs Hw].
    assert (Hal : forall p, align_up p (8 * csize t) mod (8 * csize t) = 0).
    { intros p. apply Z.mod_divide; [lia|]. apply align_up_div. lia. }
    pose proof (Z.mod_pos_bound pos (8 * csize t)).
    repeat bdestr; cbn; rewrite ?Hal; lia.
  - split; [apply align_up_div; lia|done].
Qed.

Lemma places_layout ms pos :
  Forall (λ m, cwf (member_type m) = true /\
               member_wf (member_type m) (member_width m) = true) ms ->
  disjoint_from pos (places pos ms) (layout_end pos ms) /\
  Forall2 member_aligned ms (places pos ms).
Proof.
  intros Hwf. revert pos. induction Hwf as [|[[n t] w] ms [Hm1 Hm2] Hwf IH]; intros pos.
  { cbn. split; [lia|constructor]. }
  cbn [places layout_end foldl].
  destruct (IH (place pos (calign t) (csize t) w).2) as [Hd Ha].
  pose proof (place_mono pos (calign t) (csize t) w (cwf_align_pos _ Hm1)
    (cwf_size_nonneg _ Hm1) (member_wf_width _ _ Hm1 Hm2)) as Hp.
  split.
  - cbn [disjoint_from]. destruct (place pos (calign t) (csize t) w) as [b e] eqn:E.
    cbn in *. split_and!; [lia|lia|]. by rewrite E.
  - constructor; [|done]. by apply (place_aligned t pos w).
Qed.

Lemma layout_end_size ms :
  cwf (CStruct ms) = true -> layout_end 0 ms <= 8 * csize (CStruct ms).
Proof.
  intros Hwf. pose proof (cwf_align_pos _ Hwf). rewrite csize_struct.
  set (a := calign (CStruct ms)) in *. set (e := layout_end 0 ms).
  pose proof (align_up_bounds e (8 * a)).
  assert (8 * (align_up e (8 * a) / 8) = align_up e (8 * a)); [|lia].
  symmetry. apply Z.div_exact; [done|]. apply Z.mod_divide; [done|].
  apply Z.divide_trans with (8 * a); [by exists a; lia|]. apply align_up_div. lia.
Qed.

(** The layout of every well-formed struct is sound: members are aligned,
    lie in order without overlap, and end inside the struct. *)
Theorem struct_layout_sound ms :
  cwf (CStruct ms) = true ->
  disjoint_from 0 (places 0 ms) (8 * csize (CStruct ms)) /\
  Forall2 member_aligned ms (places 0 ms) /\
  (calign (CStruct ms) | csize (CStruct ms)).
Proof.
  intros Hwf. pose proof (proj1 (cwf_struct ms) Hwf) as Hms.
  destruct (places_layout ms 0 Hms) as [Hd Ha].
  split; [|split; [done|by apply cwf_size_align]].
  by eapply disjoint_from_weaken, layout_end_size.
Qed.

(** ** Objects in memory

    An object of type [t] is a buffer of [csize t] bytes; [get_bytes] and
    [set_bytes] read and overwrite the bytes of one member, [get_field] and
    [set_field] its little-endian integer value.  [stores] is a sequence of
    member assignments [o->n = v]. *)

Definition member_range (t : ctype) (n : string) : option (nat * nat) :=
  match offset_of t [n] with
  | Some (o, ft) => Some (Z.to_nat o, Z.to_nat (csize ft))
  | None => None
  end.

Definition get_bytes (t : ctype) (n : string) (buf : list Z) : list Z :=
  match member_range t n with Some (o, k) => slice o k buf | None => [] end.

Definition set_bytes (t : ctype) (n : string) (bs buf : list Z) : list Z :=
  match member_range t n with Some (o, k) => splice o bs buf | None => buf end.

Definition get_field (t : ctype) (n : string) (buf : list Z) : Z := le_val (get_bytes t n buf).

Definition member_size (t : ctype) (n : string) : nat :=
  match member_range t n with Some (_, k) => k | None => O end.

Definition set_field (t : ctype) (n : string) (v : Z) (buf : list Z) : list Z :=
  set_bytes t n (le_bytes (member_size t n) v) buf.

Definition stores (t : ctype) (l : list (string * Z)) (buf : list Z) : list Z :=
  foldl (λ b nv, set_field t nv.1 nv.2 b) buf l.

Lemma stores_cons t n v l buf : stores t ((n, v) :: l) buf = stores t l (set_field t n v buf).
Proof. done. Qed.

(** The members [ns] exist, lie inside the object, and do not overlap. *)
Definition members_ok (t : ctype) (ns : list string) : bool :=
  forallb (λ n, match member_range t n with
                | Some (o, k) => (o + k <=? Z.to_nat (csize t))%nat
                | None => false
                end) ns &&
  forallb (λ n, forallb (λ n',
    String.eqb n n' ||
    match member_range t n, member_range t n' with
    | Some (o, k), Some (o', k') => (o + k <=? o')%nat || (o' + k' <=? o)%nat
    | _, _ => false
    end) ns) ns.

Section Objects.
Context (t : ctype) (ns : list string) (Hok : members_ok t ns = true).

Lemma members_ok_range n :
  n ∈ ns -> exists o k, member_range t n = Some (o, k) /\ (o + k <= Z.to_nat (csize t))%nat.
Proof.
  intros Hn. apply andb_prop in Hok as [H _]. rewrite forallb_forall in H.
  specialize (H n (proj1 (list_elem_of_In _ _) Hn)).
  destruct (member_range t n) as [[o k]|]; [|done]. exists o, k. split; [done|].
  by apply Nat.leb_le.
Qed.

Lemma members_ok_disjoint n n' o k o' k' :
  n ∈ ns -> n' ∈ ns -> n <> n' ->
  member_range t n = Some (o, k) -> member_range t n' = Some (o', k') ->
  (o + k <= o' \/ o' + k' <= o)%nat.
Proof.
  intros Hn Hn' Hne E E'. apply andb_prop in Hok as [_ H]. rewrite forallb_forall in H.
  specialize (H n (proj1 (list_elem_of_In _ _) Hn)). rewrite forallb_forall in H.
  specialize (H n' (proj1 (list_elem_of_In _ _) Hn')). rewrite E, E' in H.
  apply orb_prop in H as [H|H]; [by apply String.eqb_eq in H|].
  apply orb_prop in H as [H%Nat.leb_le|H%Nat.leb_le]; auto.
Qed.

Lemma length_set_bytes n bs buf :
  n ∈ ns -> length bs = member_size t n -> length buf = Z.to_nat (csize t) ->
  length (set_bytes t n bs buf) = length buf.
Proof.
  intros Hn Hbs Hbuf. unfold set_bytes, member_size in *.
  destruct (members_ok_range n Hn) as (o & k & E & Hle). rewrite E in *.
  apply length_splice. lia.
Qed.

Lemma get_set_bytes_same n bs buf :
  n ∈ ns -> length bs = member_size t n -> length buf = Z.to_nat (csize t) ->
  get_bytes t n (set_bytes t n bs buf) = bs.
Proof.
  intros Hn Hbs Hbuf. unfold get_bytes, set_bytes, member_size in *.
  destruct (members_ok_range n Hn) as (o & k & E & Hle). rewrite E in *.
  rewrite <- Hbs. apply slice_splice_same. lia.
Qed.

Lemma get_set_bytes_other n n' bs buf :
  n ∈ ns -> n' ∈ ns -> n <> n' -> length bs = member_size t n' ->
  length buf = Z.to_nat (csize t) ->
  get_bytes t n (set_bytes t n' bs buf) = get_bytes t n buf.
Proof.
  intros Hn Hn' Hne Hbs Hbuf. unfold get_bytes, set_bytes, member_size in *.
  destruct (members_ok_range n Hn) as (o & k & E & Hle).
  destruct (members_ok_range n' Hn') as (o' & k' & E' & Hle'). rewrite E, E' in *.
  destruct (members_ok_disjoint n n' o k o' k') as [?|?]; auto.
  - apply slice_splice_before; lia.
  - apply slice_splice_after; lia.
Qed.

Lemma length_set_field n v buf :
  n ∈ ns -> length buf = Z.to_nat (csize t) -> length (set_field t n v buf) = length buf.
Proof. intros. apply length_set_bytes; [done|apply length_le_bytes|done]. Qed.

Lemma length_stores l buf :
  Forall (λ nv, nv.1 ∈ ns) l -> length buf = Z.to_nat (csize t) ->
  length (stores t l buf) = length buf.
Proof.
  intros Hl. revert buf. induction Hl as [|[n v] l Hn Hl IH]; intros buf Hbuf; [done|].
  rewrite stores_cons, IH; rewrite length_set_field; auto.
Qed.

Lemma get_bytes_stores_other n l buf :
  n ∈ ns -> Forall (λ nv, nv.1 ∈ ns) l -> n ∉ l.*1 -> length buf = Z.to_nat (csize t) ->
  get_bytes t n (stores t l buf) = get_bytes t n buf.
Proof.
  intros Hn Hl. revert buf. induction Hl as [|[n' v] l Hn' Hl IH]; intros buf Hnl Hbuf; [done|].
  rewrite stores_cons. rewrite fmap_cons in Hnl. cbn in Hn', Hnl. apply not_elem_of_cons in Hnl as [Hne Hnl].
  rewrite IH; [|done|by rewrite length_set_field].
  apply get_set_bytes_other; auto. apply length_le_bytes.
Qed.

(** A member assigned once reads back as the value, truncated to its
    width. *)
Lemma get_field_stores n v l buf :
  Forall (λ nv, nv.1 ∈ ns) l -> NoDup l.*1 -> (n, v) ∈ l ->
  length buf = Z.to_nat (csize t) ->
  get_field t n (stores t l buf) = wrap (8 * Z.of_nat (member_size t n)) v.
Proof.
  intros Hl. revert buf. induction Hl as [|[n' v'] l Hn' Hl IH]; intros buf Hnd Hin Hbuf.
  { by apply not_elem_of_nil in Hin. }
  rewrite stores_cons. rewrite fmap_cons in Hnd. cbn in Hn', Hnd.
  apply list.NoDup_cons in Hnd as [Hnl Hnd].
  apply elem_of_cons in Hin as [[= -> ->]|Hin].
  - unfold get_field. rewrite get_bytes_stores_other; auto; [|by rewrite length_set_field].
    unfold set_field. rewrite get_set_bytes_same; auto; [apply le_val_bytes|apply length_le_bytes].
  - apply IH; auto. by rewrite length_set_field.
Qed.
End Objects.
