(* ===== verification/Records.v ===== *)
(** * The ring-buffer records

    The four record types that the BPF programs submit to trace_event_map
    (daemon/binder_transaction.byte.c), their constants, and the typed view
    of a record: what each member holds at its C offset.  The daemon reads
    records through Go structs that bpf2go generates from the same
    declarations; the generated file is not part of the repository, so the
    readers are the operations of the class [Bpf2Go] and [Bpf2GoLaws] states
    what bpf2go documents about them. *)

From S2P Require Import Prelude CLayout.

(** ** Constants (binder_transaction.byte.c:19-84) *)

Definition CHUNK_SIZE : Z := 0x400.
Definition MAX_CHUNKS : Z := 16.

Abbreviation BINDER_DEV_UNKNOWN := 0%Z (only parsing).
Abbreviation BINDER_DEV_BINDER := 1%Z (only parsing).
Abbreviation BINDER_DEV_HWBINDER := 2%Z (only parsing).
Abbreviation BINDER_DEV_VNDBINDER := 3%Z (only parsing).
Abbreviation TARGET_KIND_UNKNOWN := 0%Z (only parsing).

Abbreviation EVT_KIND_MAIN := 1%Z (only parsing).
Abbreviation EVT_KIND_SIDEBAND := 2%Z (only parsing).
Abbreviation EVT_KIND_COOKIE := 3%Z (only parsing).

Abbreviation RB_OVF_SLOT_MAIN := 0%Z (only parsing).
Abbreviation RB_OVF_SLOT_SIDEBAND := 1%Z (only parsing).
Abbreviation RB_OVF_SLOT_COUNT := 2%Z (only parsing).

Abbreviation KSTACK_MAX_DEPTH := 32%Z (only parsing).
Abbreviation USTACK_MAX_DEPTH := 32%Z (only parsing).
Abbreviation STACK_RECORD_MAGIC := 0xDEADBEEFDEADBEEF%Z (only parsing).

(** ** Record types *)

Definition binder_trace_event : ctype := CStruct [
  fld "kind" c_u8; fld "is_reply" c_u8; fld "binder_dev" c_u8; fld "target_kind" c_u8;
  fld "pid" c_u32; fld "uid" c_u32; fld "code" c_u32; fld "flags" c_u32;
  fld "data_size" c_u64; fld "transaction_id" c_u64; fld "chunk_index" c_u64;
  fld "cookie" c_u64;
  fld "to_pid" c_u32; fld "to_uid" c_u32; fld "reserved2" c_u32;
  fld "target_ref" c_u64; fld "pair_id" c_u64;
  fld "chunk_data" (CArray c_u8 CHUNK_SIZE) ].

Definition binder_sideband_event : ctype := CStruct [
  fld "kind" c_u8; fld "to_uid_unsupported" c_u8; fld "reserved0" c_u8; fld "reserved1" c_u8;
  fld "reserved2" c_u32; fld "cookie" c_u64; fld "kernel_debug_id" c_u64;
  fld "to_pid" c_u32; fld "to_uid" c_u32 ].

Definition binder_cookie_sideband : ctype := CStruct [
  fld "kind" c_u8; fld "reserved0" c_u8; fld "reserved1" c_u8; fld "reserved2" c_u8;
  fld "reserved3" c_u32; fld "cookie" c_u64; fld "transaction_id_hint" c_u64;
  fld "tid" c_u32; fld "reserved4" c_u32 ].

Definition stack_trace_event : ctype := CStruct [
  fld "magic" c_u64; fld "transaction_id" c_u64; fld "pid" c_u32; fld "tid" c_u32;
  fld "kstack_depth" c_s16; fld "ustack_depth" c_s16; fld "reserved" c_u32;
  fld "kstack" (CArray c_u64 KSTACK_MAX_DEPTH);
  fld "ustack" (CArray c_u64 USTACK_MAX_DEPTH) ].

Abbreviation trace_config := (CStruct [ fld "uid" c_u32 ]) (only parsing).

(** Member names, for the layout side conditions. *)
Definition names_of (t : ctype) : list string :=
  match t with CStruct ms => member_name <$> ms | _ => [] end.

(** ** Maps (binder_transaction.byte.c:144-205) *)

Inductive bpf_map_kind := MAP_HASH | MAP_LRU_HASH | MAP_PERCPU_ARRAY | MAP_RINGBUF.

(** Ring buffers have no keys: [map_key_size] and [map_value_size] are 0. *)
Record bpf_map_decl := BpfMapDecl {
  map_kind : bpf_map_kind; map_key_size : Z; map_value_size : Z; map_max_entries : Z }.

Abbreviation trace_event_map_decl := (BpfMapDecl MAP_RINGBUF 0 0 (Z.shiftl 1 24)) (only parsing).
(** The maps with keys, by name *)
Definition keyed_map_decls : list (string * bpf_map_decl) :=
  [("trace_config_map"%string, BpfMapDecl MAP_HASH (csize c_u32) (csize trace_config) 1);
   ("pending_map"%string, BpfMapDecl MAP_LRU_HASH (csize c_u32) (csize c_u64) 4096);
   ("ringbuf_overflow_map"%string, BpfMapDecl MAP_PERCPU_ARRAY (csize c_u32) (csize c_u64) RB_OVF_SLOT_COUNT);
   ("tid_to_txid_map"%string, BpfMapDecl MAP_LRU_HASH (csize c_u32) (csize c_u64) 4096)].

(** ** Typed views of a record *)

Record main_event := MainEvent {
  ev_kind : Z; ev_is_reply : Z; ev_binder_dev : Z; ev_target_kind : Z;
  ev_pid : Z; ev_uid : Z; ev_code : Z; ev_flags : Z;
  ev_data_size : Z; ev_transaction_id : Z; ev_chunk_index : Z; ev_cookie : Z;
  ev_to_pid : Z; ev_to_uid : Z; ev_target_ref : Z; ev_pair_id : Z;
  ev_chunk_data : list Z }.

Record sideband_event := SidebandEvent {
  sb_to_uid_unsupported : Z; sb_cookie : Z; sb_kernel_debug_id : Z;
  sb_to_pid : Z; sb_to_uid : Z }.

Record cookie_sideband := CookieSideband {
  cs_cookie : Z; cs_transaction_id_hint : Z; cs_tid : Z }.

Record stack_event := StackEvent {
  st_transaction_id : Z; st_pid : Z; st_tid : Z;
  st_kstack_depth : Z; st_ustack_depth : Z;
  st_kstack : list Z; st_ustack : list Z }.

Definition view_main (raw : list Z) : main_event :=
  let g n := get_field binder_trace_event n raw in
  MainEvent (g "kind") (g "is_reply") (g "binder_dev") (g "target_kind")
    (g "pid") (g "uid") (g "code") (g "flags")
    (g "data_size") (g "transaction_id") (g "chunk_index") (g "cookie")
    (g "to_pid") (g "to_uid") (g "target_ref") (g "pair_id")
    (get_bytes binder_trace_event "chunk_data" raw).

Definition view_sideband (raw : list Z) : sideband_event :=
  let g n := get_field binder_sideband_event n raw in
  SidebandEvent (g "to_uid_unsupported") (g "cookie") (g "kernel_debug_id")
    (g "to_pid") (g "to_uid").

Definition view_cookie (raw : list Z) : cookie_sideband :=
  let g n := get_field binder_cookie_sideband n raw in
  CookieSideband (g "cookie") (g "transaction_id_hint") (g "tid").

(** [words n bs]: the first [n] little-endian u64 of [bs]. *)
Fixpoint words (n : nat) (bs : list Z) : list Z :=
  match n with
  | O => []
  | S n => le_val (take 8 bs) :: words n (drop 8 bs)
  end.

Definition view_stack (raw : list Z) : stack_event :=
  let g n := get_field stack_trace_event n raw in
  StackEvent (g "transaction_id") (g "pid") (g "tid")
    (s16 (g "kstack_depth")) (s16 (g "ustack_depth"))
    (words 32 (get_bytes stack_trace_event "kstack" raw))
    (words 32 (get_bytes stack_trace_event "ustack" raw)).

(** ** The generated readers *)

Class Bpf2Go := {
  read_main : list Z -> option main_event;
  read_sideband : list Z -> option sideband_event;
  read_cookie : list Z -> option cookie_sideband;
  read_stack : list Z -> option stack_event;
  sizeof_stack_event : Z
}.

(** bpf2go emits a Go struct with the members of the C struct in order and
    explicit padding, so that encoding/binary reads each member at its C
    offset; a record shorter than the struct is an error. *)
Definition reads_as {A} (t : ctype) (view : list Z -> A) (read : list Z -> option A) : Prop :=
  forall raw, read raw = if Z.of_nat (length raw) <? csize t then None else Some (view raw).

Class Bpf2GoLaws `{Bpf2Go} : Prop := {
  read_main_layout : reads_as binder_trace_event view_main read_main;
  read_sideband_layout : reads_as binder_sideband_event view_sideband read_sideband;
  read_cookie_layout : reads_as binder_cookie_sideband view_cookie read_cookie;
  read_stack_layout : reads_as stack_trace_event view_stack read_stack;
  sizeof_stack_event_c : sizeof_stack_event = csize stack_trace_event
}.

(** ** Layout facts *)

Lemma binder_trace_event_size : csize binder_trace_event = 1112.
Proof. done. Qed.

Lemma binder_trace_event_ok : members_ok binder_trace_event (names_of binder_trace_event) = true.
Proof. vm_compute. done. Qed.

Lemma binder_sideband_event_ok :
  members_ok binder_sideband_event (names_of binder_sideband_event) = true.
Proof. vm_compute. done. Qed.

Lemma binder_cookie_sideband_ok :
  members_ok binder_cookie_sideband (names_of binder_cookie_sideband) = true.
Proof. vm_compute. done. Qed.

Lemma stack_trace_event_ok : members_ok stack_trace_event (names_of stack_trace_event) = true.
Proof. vm_compute. done. Qed.

(** The records have the layout their readers assume: in each of the four
    types the members are aligned, lie in order without overlap and end inside
    the struct, whose sizes are 1112, 32, 32 and 544 bytes. In a main record
    the members after flags and after reserved2 start four bytes later than
    the previous one ends: two holes that no member names. *)
Theorem record_layouts :
  (forall t, t ∈ [binder_trace_event; binder_sideband_event; binder_cookie_sideband; stack_trace_event] ->
     exists ms, t = CStruct ms /\ disjoint_from 0 (places 0 ms) (8 * csize t) /\
       Forall2 member_aligned ms (places 0 ms) /\ (calign t | csize t)) /\
  csize <$> [binder_trace_event; binder_sideband_event; binder_cookie_sideband; stack_trace_event] =
    [1112; 32; 32; 544] /\
  (λ n, offset binder_trace_event [n]) <$> names_of binder_trace_event =
    [0; 1; 2; 3; 4; 8; 12; 16; 24; 32; 40; 48; 56; 60; 64; 72; 80; 88] /\
  (λ n, offset binder_sideband_event [n]) <$> names_of binder_sideband_event =
    [0; 1; 2; 3; 4; 8; 16; 24; 28] /\
  (λ n, offset binder_cookie_sideband [n]) <$> names_of binder_cookie_sideband =
    [0; 1; 2; 3; 4; 8; 16; 24; 28] /\
  (λ n, offset stack_trace_event [n]) <$> names_of stack_trace_event =
    [0; 8; 16; 20; 24; 26; 28; 32; 288].
Proof.
  split; [|vm_compute; done]. intros t Ht. rewrite !elem_of_cons, elem_of_nil in Ht.
  destruct Ht as [-> |[-> |[-> |[-> |[]]]]]; eexists; (split; [reflexivity|]);
    apply struct_layout_sound; vm_compute; reflexivity.
Qed.
