(* ===== verification/GoLang.v ===== *)
(** * What the daemon uses of Go

    Byte slices with the run-time's bounds checks ([None] is a panic), the
    fixed-width reads and writes of encoding/binary, and the two ends of a
    byte stream: io.ReadFull on what is left to read, and an io.Writer that
    can fail. *)

From S2P Require Import Prelude.

(** A Go string or []byte: its bytes. *)
Abbreviation bytes := (list Z).

Definition len (data : bytes) : Z := Z.of_nat (length data).

(** [data[i]] *)
Definition index (data : bytes) (i : Z) : option Z :=
  if (0 <=? i) && (i <? len data) then data !! Z.to_nat i else None.

(** [data[lo:hi]] *)
Definition subslice (data : bytes) (lo hi : Z) : option bytes :=
  if (0 <=? lo) && (lo <=? hi) && (hi <=? len data)
  then Some (slice (Z.to_nat lo) (Z.to_nat (hi - lo)) data) else None.

(** [binary.BigEndian.UintN(data[off:])] for [n] bytes *)
Definition be_uint (n : nat) (data : bytes) (off : Z) : option Z :=
  if (0 <=? off) && (off + Z.of_nat n <=? len data)
  then Some (be_val (slice (Z.to_nat off) n data)) else None.

(** [binary.BigEndian.PutUintN(buf[off:], v)] and [copy(buf[off:], src)],
    for offsets and lengths that are in range *)
Definition put_be (n : nat) (off : nat) (v : Z) (buf : bytes) : bytes := splice off (be_bytes n v) buf.
Definition put_bytes (off : nat) (src : bytes) (buf : bytes) : bytes := splice off src buf.

(** io.ReadFull *)
Inductive io_error := EOF | ErrUnexpectedEOF.

Definition ReadFull (n : nat) (stream : bytes) : (io_error + bytes) * bytes :=
  if (n <=? length stream)%nat then (inr (take n stream), drop n stream)
  else if (length stream =? 0)%nat then (inl EOF, []) else (inl ErrUnexpectedEOF, []).

(** io.Writer: [write w bs] is whether the call succeeded, and the writer
    afterwards. *)
Class Writer (W : Type) := { write : W -> bytes -> bool * W }.

(** A writer that accepts everything: the bytes written so far. *)
#[export] Instance buffer_writer : Writer bytes := { write w bs := (true, w ++ bs) }.

(** ** Lemmas *)

Lemma be_uint_in_range n data off :
  0 <= off -> off + Z.of_nat n <= len data -> exists v, be_uint n data off = Some v.
Proof.
  intros. unfold be_uint. destruct (Z.leb_spec 0 off); [|lia].
  destruct (Z.leb_spec (off + Z.of_nat n) (len data)); [|lia]. cbn. eauto.
Qed.

Lemma index_in_range data i : 0 <= i < len data -> exists b, index data i = Some b.
Proof.
  intros Hi. unfold index. destruct (Z.leb_spec 0 i); [|lia].
  destruct (Z.ltb_spec i (len data)); [|lia]. cbn.
  destruct (lookup_lt_is_Some_2 data (Z.to_nat i)) as [b Hb]; [unfold len in *; lia|]. eauto.
Qed.

Lemma subslice_in_range data lo hi :
  0 <= lo <= hi -> hi <= len data -> exists bs, subslice data lo hi = Some bs /\ len bs = hi - lo.
Proof.
  intros Hlo Hhi. unfold subslice. destruct (Z.leb_spec 0 lo); [|lia].
  destruct (Z.leb_spec lo hi); [|lia]. destruct (Z.leb_spec hi (len data)); [|lia]. cbn.
  eexists. split; [done|]. unfold len in *. rewrite length_slice by lia. lia.
Qed.

Lemma len_nonneg data : 0 <= len data.
Proof. unfold len. lia. Qed.

Lemma len_app a b : len (a ++ b) = len a + len b.
Proof. unfold len. rewrite length_app. lia. Qed.

Lemma len_be_bytes n v : len (be_bytes n v) = Z.of_nat n.
Proof. unfold len. by rewrite length_be_bytes. Qed.

(** Reads of a concatenation: inside the part that starts at the offset. *)
Lemma be_uint_app n pre v post off :
  off = len pre -> fits (8 * Z.of_nat n) v ->
  be_uint n (pre ++ be_bytes n v ++ post) off = Some v.
Proof.
  intros -> Hv. unfold be_uint. rewrite !len_app, len_be_bytes.
  pose proof (len_nonneg pre). pose proof (len_nonneg post).
  destruct (Z.leb_spec 0 (len pre)); [|lia].
  destruct (Z.leb_spec (len pre + Z.of_nat n) (len pre + (Z.of_nat n + len post))); [|lia].
  cbn. f_equal. unfold slice, len. rewrite Nat2Z.id, drop_app_length.
  rewrite take_app_le by (by rewrite length_be_bytes).
  rewrite take_ge by (by rewrite length_be_bytes). by apply be_val_bytes_fits.
Qed.

Lemma index_app pre b post off : off = len pre -> index (pre ++ b :: post) off = Some b.
Proof.
  intros ->. unfold index. rewrite len_app. pose proof (len_nonneg pre).
  assert (0 < len (b :: post)) by (unfold len; cbn [length]; lia).
  destruct (Z.leb_spec 0 (len pre)); [|lia].
  destruct (Z.ltb_spec (len pre) (len pre + len (b :: post))); [|lia].
  cbn. unfold len. rewrite Nat2Z.id, lookup_app_r, Nat.sub_diag by done. done.
Qed.

Lemma subslice_app pre mid post lo hi :
  lo = len pre -> hi = len pre + len mid -> subslice (pre ++ mid ++ post) lo hi = Some mid.
Proof.
  intros -> ->. unfold subslice. rewrite !len_app.
  pose proof (len_nonneg pre). pose proof (len_nonneg mid). pose proof (len_nonneg post).
  destruct (Z.leb_spec 0 (len pre)); [|lia].
  destruct (Z.leb_spec (len pre) (len pre + len mid)); [|lia].
  destruct (Z.leb_spec (len pre + len mid) (len pre + (len mid + len post))); [|lia].
  cbn. f_equal. unfold slice. replace (len pre + len mid - len pre) with (len mid) by lia.
  unfold len. rewrite !Nat2Z.id, drop_app_length. by rewrite take_app_length.
Qed.

Lemma ReadFull_app n a b : length a = n -> ReadFull n (a ++ b) = (inr a, b).
Proof.
  intros <-. unfold ReadFull. rewrite length_app.
  destruct (Nat.leb_spec (length a) (length a + length b)); [|lia].
  by rewrite take_app_length, drop_app_length.
Qed.
