(* ===== verification/GoStd.v ===== *)
(** * What the daemon uses of Go's strings, strconv, sort and bufio

    Strings are byte lists.  White space is Unicode white space, recognised
    in its UTF-8 encoding: a lead byte never occurs inside another rune, so a
    scan that looks at every position sees the runes the library sees, also in
    strings that are not valid UTF-8.  sort.Slice leaves the order of equal
    elements open; it is the class [GoSort], and [GoSortLaws] is its
    documentation. *)

From S2P Require Import Prelude GoLang.
From Equations Require Import Equations.
From stdpp Require Import sorting.

#[local] Open Scope Z_scope.

(** The bytes of a string literal *)
Definition str (s : string) : bytes :=
  (λ a, Z.of_nat (Ascii.nat_of_ascii a)) <$> String.list_ascii_of_string s.

(** ** sort.Search

    The loop on [i, j): the least index that satisfies [f], when [f] is
    monotone. *)
Equations? search_loop (f : nat -> bool) (i j : nat) : nat by wf (j - i)%nat lt :=
  search_loop f i j with decide (i < j)%nat => {
    | right _ := i;
    | left Hij with f ((i + j) / 2)%nat => {
        | true := search_loop f i ((i + j) / 2)%nat;
        | false := search_loop f (S ((i + j) / 2)) j } }.
Proof.
  all: pose proof (Nat.div_mod_eq (i + j) 2) as E;
    pose proof (Nat.mod_upper_bound (i + j) 2) as B; clear - E B Hij; lia.
Qed.

Definition Search (n : nat) (f : nat -> bool) : nat := search_loop f 0 n.

(** ** sort.Slice *)

Class GoSort := { sort_slice : forall {A}, (A -> A -> bool) -> list A -> list A }.

(** [less] orders [l] as sort.Slice asks for: a strict weak ordering *)
Record weak_order {A} (less : A -> A -> bool) : Prop := {
  wo_irrefl : forall x, less x x = false;
  wo_trans : forall x y z, less x y = true -> less y z = true -> less x z = true;
  wo_incomparable : forall x y z, less x y = true -> less x z = true \/ less z y = true }.

(** No element comes after a greater one. *)
Definition ordered {A} (less : A -> A -> bool) (l : list A) : Prop :=
  forall i j x y, (i < j)%nat -> l !! i = Some x -> l !! j = Some y -> less y x = false.

Class GoSortLaws `{GoSort} : Prop := {
  sort_perm : forall A (less : A -> A -> bool) l, sort_slice less l ≡ₚ l;
  sort_ordered : forall A (less : A -> A -> bool) l, weak_order less -> ordered less (sort_slice less l) }.

(** ** strings *)

(** The length of the white-space rune at the front, 0 when there is none *)
Definition space_width (s : bytes) : nat :=
  match s with
  | b :: s =>
      if (9 <=? b) && (b <=? 13) || (b =? 32) then 1%nat
      else
        match s with
        | b1 :: s =>
            if (b =? 0xC2) && ((b1 =? 0x85) || (b1 =? 0xA0)) then 2%nat
            else
              match s with
              | b2 :: _ =>
                  if (b =? 0xE1) && (b1 =? 0x9A) && (b2 =? 0x80)
                     || (b =? 0xE2) && (b1 =? 0x80) && ((0x80 <=? b2) && (b2 <=? 0x8A)
                          || (b2 =? 0xA8) || (b2 =? 0xA9) || (b2 =? 0xAF))
                     || (b =? 0xE2) && (b1 =? 0x81) && (b2 =? 0x9F)
                     || (b =? 0xE3) && (b1 =? 0x80) && (b2 =? 0x80)
                  then 3%nat else O
              | [] => O
              end
        | [] => O
        end
  | [] => O
  end.

(** strings.Fields: [skip] bytes of a white-space rune are left, [cur] is the
    field being read. *)
Fixpoint fields_from (skip : nat) (cur s : bytes) : list bytes :=
  let flush rest := match cur with [] => rest | _ => cur :: rest end in
  match s with
  | [] => flush []
  | b :: s' =>
      match skip with
      | S k => fields_from k cur s'
      | O =>
          match space_width s with
          | O => fields_from 0 (cur ++ [b]) s'
          | S k => flush (fields_from k [] s')
          end
      end
  end.

Definition Fields (s : bytes) : list bytes := fields_from 0 [] s.

(** strings.Index of one byte, and strings.LastIndex of one byte *)
Fixpoint IndexByte (c : Z) (s : bytes) : option nat :=
  match s with
  | [] => None
  | b :: s => if b =? c then Some O else S <$> IndexByte c s
  end.

Fixpoint LastIndexByte (c : Z) (s : bytes) : option nat :=
  match s with
  | [] => None
  | b :: s =>
      match LastIndexByte c s with
      | Some i => Some (S i)
      | None => if b =? c then Some O else None
      end
  end.

(** strings.SplitN(s, sep, 2) for a separator of one byte *)
Definition SplitN2 (s : bytes) (sep : Z) : list bytes :=
  match IndexByte sep s with
  | Some i => [take i s; drop (S i) s]
  | None => [s]
  end.

(** strings.Join *)
Fixpoint Join (sep : bytes) (l : list bytes) : bytes :=
  match l with
  | [] => []
  | [s] => s
  | s :: l => s ++ sep ++ Join sep l
  end.

Fixpoint HasPrefix (s prefix : bytes) : bool :=
  match prefix, s with
  | [], _ => true
  | p :: prefix, b :: s => (b =? p) && HasPrefix s prefix
  | _ :: _, [] => false
  end.

(** strings.TrimSpace; the last rune is white space exactly when the string
    ends in the encoding of one. *)
Fixpoint trim_left (skip : nat) (s : bytes) : bytes :=
  match s with
  | [] => []
  | b :: s' =>
      match skip with
      | S k => trim_left k s'
      | O => match space_width s with O => s | S k => trim_left k s' end
      end
  end.

(** [Some] prefix before a trailing run of white space *)
Fixpoint only_space (skip : nat) (s : bytes) : bool :=
  match s with
  | [] => true
  | _ :: s' =>
      match skip with
      | S k => only_space k s'
      | O => match space_width s with O => false | S k => only_space k s' end
      end
  end.

Fixpoint trim_right (s : bytes) : bytes :=
  if only_space 0 s then []
  else match s with [] => [] | b :: s => b :: trim_right s end.

Definition TrimSpace (s : bytes) : bytes := trim_right (trim_left 0 s).

(** ** strconv *)

Definition digit_val (c : Z) : option Z :=
  if (48 <=? c) && (c <=? 57) then Some (c - 48)
  else if (97 <=? c) && (c <=? 122) then Some (c - 97 + 10)
  else if (65 <=? c) && (c <=? 90) then Some (c - 65 + 10)
  else None.

(** The value of a string of digits, most significant first, after [acc] *)
Fixpoint digits_val (base acc : Z) (s : bytes) : option Z :=
  match s with
  | [] => Some acc
  | c :: s =>
      d ← digit_val c;
      if d <? base then digits_val base (acc * base + d) s else None
  end.

(** strconv.ParseUint(s, base, 64); [None] is any error: the empty string, a
    character that is no digit, a value of 2^64 or more. *)
Definition ParseUint (s : bytes) (base : Z) : option Z :=
  match s with
  | [] => None
  | _ => n ← digits_val base 0 s; if n <? 2 ^ 64 then Some n else None
  end.

(** strconv.Atoi *)
Definition Atoi (s : bytes) : option Z :=
  let '(neg, ds) :=
    match s with
    | c :: rest => if c =? 45 then (true, rest) else if c =? 43 then (false, rest) else (false, s)
    | [] => (false, [])
    end in
  n ← ParseUint ds 10;
  if neg then if n <=? 2 ^ 63 then Some (- n) else None
  else if n <? 2 ^ 63 then Some n else None.

Definition digit_char (d : Z) : Z := if d <? 10 then 48 + d else 97 + (d - 10).

(** The digits of [n] in front of [acc]; each step divides by the base, so
    log2 n + 1 steps reach 0. *)
Fixpoint format_digits (fuel : nat) (base n : Z) (acc : bytes) : bytes :=
  match fuel with
  | O => acc
  | S fuel =>
      let acc := digit_char (n mod base) :: acc in
      if n / base =? 0 then acc else format_digits fuel base (n / base) acc
  end.

(** strconv.FormatUint, and strconv.Itoa *)
Definition FormatUint (n base : Z) : bytes :=
  format_digits (S (Z.to_nat (Z.log2 n))) base n [].

Definition Itoa (z : Z) : bytes := if z <? 0 then 45 :: FormatUint (- z) 10 else FormatUint z 10.

(** ** bufio.Scanner on lines *)

(** The pieces between newlines; nothing follows a final newline. *)
Fixpoint split_lines (cur s : bytes) : list bytes :=
  match s with
  | [] => match cur with [] => [] | _ => [cur] end
  | b :: s => if b =? 10 then cur :: split_lines [] s else split_lines (cur ++ [b]) s
  end.

Definition dropCR (line : bytes) : bytes :=
  match list.last line with
  | Some b => if b =? 13 then take (length line - 1) line else line
  | None => line
  end.

(** Scan over a buffer of [max] bytes that may not grow: [None] is
    bufio.ErrTooLong, which a line that fills the buffer causes. *)
Definition scan_lines (max : Z) (data : bytes) : option (list bytes) :=
  let lines := split_lines [] data in
  if forallb (λ l, len l <? max) lines then Some (dropCR <$> lines) else None.

(** ** Lemmas *)

Lemma midpoint i j : (i < j)%nat -> (i <= (i + j) / 2 < j)%nat.
Proof.
  intros. split; [apply Nat.div_le_lower_bound|apply Nat.Div0.div_lt_upper_bound]; lia.
Qed.

Lemma search_loop_bounds f i j : (i <= j)%nat -> (i <= search_loop f i j <= j)%nat.
Proof.
  funelim (search_loop f i j); intros Hij'; [lia|..];
    pose proof (midpoint i j Hij); match goal with IH : _ -> (_ <= _ <= _)%nat |- _ => specialize (IH ltac:(lia)) end; lia.
Qed.

(** Below the result [f] is false, at it [f] is true unless it is [j]. *)
Lemma search_loop_spec f i j :
  (forall a b, (a <= b < j)%nat -> f a = true -> f b = true) -> (i <= j)%nat ->
  (forall k, (i <= k < search_loop f i j)%nat -> f k = false) /\
  ((search_loop f i j < j)%nat -> f (search_loop f i j) = true).
Proof.
  funelim (search_loop f i j); intros Hmono Hij'; [split; lia|..]; pose proof (midpoint i j Hij).
  - destruct H as [Hlt Hge]; [intros a b Hab; apply Hmono; lia|lia|].
    split; [exact Hlt|]. intros _.
    pose proof (search_loop_bounds f i ((i + j) / 2) ltac:(lia)).
    destruct (decide (search_loop f i ((i + j) / 2) = (i + j) / 2)%nat) as [->|]; [done|].
    apply Hge. lia.
  - destruct H as [Hlt Hge]; [exact Hmono|lia|]. split; [|exact Hge].
    intros k Hk. destruct (decide (k <= (i + j) / 2)%nat) as [Hle|]; [|apply Hlt; lia].
    destruct (f k) eqn:E; [|done]. rewrite (Hmono k ((i + j) / 2)%nat ltac:(lia) E) in Heq. done.
Qed.

Lemma Search_le n f : (Search n f <= n)%nat.
Proof. apply search_loop_bounds. lia. Qed.

Lemma Search_spec n f :
  (forall a b, (a <= b < n)%nat -> f a = true -> f b = true) ->
  (Search n f <= n)%nat /\ (forall k, (k < Search n f)%nat -> f k = false) /\
  ((Search n f < n)%nat -> f (Search n f) = true).
Proof.
  intros Hm. destruct (search_loop_spec f 0 n Hm ltac:(lia)) as [Hlt Hge].
  pose proof (search_loop_bounds f 0 n ltac:(lia)). unfold Search.
  split; [lia|]. split; [|exact Hge]. intros k Hk. apply Hlt. lia.
Qed.

(** A sorting function that meets the laws *)
Definition not_after {A} (less : A -> A -> bool) (x y : A) : Prop := less y x = false.

#[export] Instance not_after_dec {A} (less : A -> A -> bool) : RelDecision (not_after less).
Proof. intros x y. unfold not_after. apply _. Defined.

Definition merge_sorting : GoSort := {| sort_slice A less := merge_sort (not_after less) |}.

Lemma merge_sorting_laws : @GoSortLaws merge_sorting.
Proof.
  split; intros A less l; [apply merge_sort_Permutation|]. intros [Hi Ht Hc].
  assert (Transitive (not_after less)) as HT.
  { intros x y z Hxy Hyz. unfold not_after in *. destruct (less z x) eqn:E; [|done].
    destruct (Hc z x y E); congruence. }
  assert (Total (not_after less)) as HO.
  { intros x y. unfold not_after. destruct (less y x) eqn:E; [|by left].
    destruct (less x y) eqn:E'; [|by right]. rewrite <- (Hi x). left. by rewrite (Ht x y x). }
  pose proof (StronglySorted_merge_sort (not_after less) l) as HS. cbn [sort_slice merge_sorting].
  intros i j x y Hij Hx Hy. revert i j Hij Hx Hy.
  induction HS as [|a l' _ IH Hall]; intros i j Hij Hx Hy; [done|].
  destruct j as [|j]; [lia|]. destruct i as [|i]; [|apply (IH i j); [lia|done|done]].
  cbn in Hx, Hy. simplify_eq. exact (proj1 (list.Forall_lookup _ _) Hall _ _ Hy).
Qed.

(** *** Numbers *)

Lemma digit_val_char d : 0 <= d < 36 -> digit_val (digit_char d) = Some d.
Proof.
  intros Hd. unfold digit_char, digit_val. destruct (Z.ltb_spec d 10).
  - destruct (Z.leb_spec 48 (48 + d)); [|lia]. destruct (Z.leb_spec (48 + d) 57); [|lia].
    cbn. f_equal. lia.
  - destruct (Z.leb_spec (97 + (d - 10)) 57); [lia|]. rewrite andb_false_r.
    destruct (Z.leb_spec 97 (97 + (d - 10))); [|lia].
    destruct (Z.leb_spec (97 + (d - 10)) 122); [|lia]. cbn. f_equal. lia.
Qed.

Lemma digits_val_cons base acc d s :
  0 <= d < base -> base <= 36 ->
  digits_val base acc (digit_char d :: s) = digits_val base (acc * base + d) s.
Proof.
  intros Hd Hb. cbn [digits_val]. rewrite digit_val_char by lia. cbn.
  destruct (Z.ltb_spec d base); [done|lia].
Qed.

(** The digits of [n] in front of [s] read as [n] followed by [s]. *)
Lemma digits_val_format fuel base n s :
  2 <= base <= 36 -> 0 <= n < 2 ^ Z.of_nat fuel ->
  digits_val base 0 (format_digits fuel base n s) = digits_val base n s.
Proof.
  intros Hb. revert n s. induction fuel as [|fuel IH]; intros n s Hn.
  { cbn in Hn. assert (n = 0) as -> by lia. done. }
  cbn [format_digits]. pose proof (Z.mod_pos_bound n base ltac:(lia)).
  pose proof (Z.div_mod n base ltac:(lia)) as E.
  destruct (Z.eqb_spec (n / base) 0) as [Hz|Hz].
  - rewrite digits_val_cons by lia. f_equal. lia.
  - rewrite Nat2Z.inj_succ, Z.pow_succ_r in Hn by lia.
    assert (0 <= n / base < 2 ^ Z.of_nat fuel).
    { split; [apply Z.div_pos; lia|]. apply Z.div_lt_upper_bound; nia. }
    rewrite IH, digits_val_cons by lia. f_equal. lia.
Qed.

Lemma format_digits_nonempty fuel base n s : s <> [] -> format_digits fuel base n s <> [].
Proof.
  revert n s. induction fuel as [|fuel IH]; intros n s Hs; [done|]. cbn.
  destruct (_ =? 0); [done|]. by apply IH.
Qed.

Lemma FormatUint_nonempty n base : FormatUint n base <> [].
Proof.
  unfold FormatUint. cbn [format_digits]. destruct (_ =? 0); [done|].
  by apply format_digits_nonempty.
Qed.

Lemma ParseUint_FormatUint n base :
  2 <= base <= 36 -> fits 64 n -> ParseUint (FormatUint n base) base = Some n.
Proof.
  intros Hb Hn. unfold fits in Hn. unfold ParseUint.
  destruct (FormatUint n base) as [|c s] eqn:E; [by apply FormatUint_nonempty in E|].
  rewrite <- E. unfold FormatUint. rewrite digits_val_format; [|done|].
  - cbn. destruct (Z.ltb_spec n (2 ^ 64)); [done|lia].
  - rewrite Nat2Z.inj_succ, Z2Nat.id by apply Z.log2_nonneg.
    destruct (decide (n = 0)) as [->|]; [done|]. split; [lia|]. apply Z.log2_spec. lia.
Qed.

(** Digits and lower-case letters *)
Definition alnum (c : Z) : Prop := 48 <= c <= 57 \/ 97 <= c <= 122.

Lemma format_digits_alnum fuel base n s :
  2 <= base <= 36 -> 0 <= n -> Forall alnum s -> Forall alnum (format_digits fuel base n s).
Proof.
  intros Hb. revert n s. induction fuel as [|fuel IH]; intros n s Hn Hs; [done|]. cbn.
  assert (Forall alnum (digit_char (n mod base) :: s)).
  { constructor; [|done]. pose proof (Z.mod_pos_bound n base ltac:(lia)).
    unfold alnum, digit_char. destruct (Z.ltb_spec (n mod base) 10); lia. }
  destruct (_ =? 0); [done|]. apply IH; [apply Z.div_pos; lia|done].
Qed.

Lemma format_digits_length fuel base n s :
  (length (format_digits fuel base n s) <= fuel + length s)%nat.
Proof.
  revert n s. induction fuel as [|fuel IH]; intros n s; [done|]. cbn [format_digits].
  destruct (_ =? 0); [cbn; lia|]. etransitivity; [apply IH|]. cbn. lia.
Qed.

Lemma FormatUint_len w n base : 1 <= w -> fits w n -> len (FormatUint n base) <= w.
Proof.
  unfold fits, FormatUint, len. intros Hw Hn. pose proof (format_digits_length (S (Z.to_nat (Z.log2 n))) base n []).
  cbn [length] in *. assert (Z.log2 n < w); [|lia].
  destruct (decide (n = 0)) as [->|]; [change (Z.log2 0) with 0; lia|]. apply Z.log2_lt_pow2; lia.
Qed.

Lemma FormatUint_alnum n base : 2 <= base <= 36 -> 0 <= n -> Forall alnum (FormatUint n base).
Proof. intros. apply format_digits_alnum; [done|done|constructor]. Qed.

Lemma HasPrefix_app s p : HasPrefix (p ++ s) p = true.
Proof. induction p as [|b p IH]; [by destruct s|]. cbn. by rewrite Z.eqb_refl. Qed.

Lemma HasPrefix_spec s p : HasPrefix s p = true -> exists r, s = p ++ r.
Proof.
  revert s. induction p as [|b p IH]; intros s; [by exists s|]. destruct s as [|c s]; [done|]. cbn.
  intros [->%Z.eqb_eq H]%andb_prop. destruct (IH s H) as [r ->]. by exists r.
Qed.

Lemma Itoa_Atoi n : fits 63 n -> Atoi (Itoa n) = Some n.
Proof.
  unfold fits. intros H. unfold Itoa. destruct (Z.ltb_spec n 0); [lia|]. unfold Atoi.
  pose proof (FormatUint_alnum n 10 ltac:(lia) ltac:(lia)) as Ha.
  pose proof (ParseUint_FormatUint n 10 ltac:(lia) ltac:(unfold fits; lia)) as Hp.
  destruct (FormatUint n 10) as [|c ds]; [done|]. apply list.Forall_cons in Ha as [Hc _]. unfold alnum in Hc.
  destruct (Z.eqb_spec c 45); [lia|]. destruct (Z.eqb_spec c 43); [lia|]. rewrite Hp. cbn [mbind option_bind].
  destruct (Z.ltb_spec n (2 ^ 63)); [done|lia].
Qed.

Lemma Itoa_inj a b : fits 63 a -> fits 63 b -> Itoa a = Itoa b -> a = b.
Proof. intros Ha Hb E. apply (f_equal Atoi) in E. rewrite !Itoa_Atoi in E by done. congruence. Qed.

(** *** Fields *)

(** A field: not empty, and no white space starts inside it. *)
Definition word (s : bytes) : Prop := s <> [] /\ forall i, space_width (drop i s) = O.

(** What follows a field cannot complete a white-space rune. *)
Definition ascii_head (s : bytes) : Prop := match s with [] => True | b :: _ => b < 128 end.

Lemma space_width_app s rest :
  s <> [] -> space_width s = O -> ascii_head rest -> space_width (s ++ rest) = O.
Proof.
  intros Hne Hs Hr. destruct s as [|b [|b1 [|b2 s]]]; [done|..|exact Hs].
  - cbn [app space_width] in *. destruct (_ || _); [done|].
    destruct rest as [|r rest]; [done|]. cbn in Hr.
    replace ((b =? 194) && ((r =? 133) || (r =? 160))) with false
      by (destruct (Z.eqb_spec r 133), (Z.eqb_spec r 160), (b =? 194); lia || done).
    destruct rest as [|r2 rest]; [done|].
    destruct (Z.eqb_spec r 154), (Z.eqb_spec r 128), (Z.eqb_spec r 129); try lia.
    by rewrite !andb_false_r.
  - cbn [app space_width] in *. destruct (_ || _); [done|]. destruct (_ && _); [done|].
    destruct rest as [|r rest]; [done|]. cbn in Hr.
    destruct (Z.eqb_spec r 128), (Z.leb_spec 128 r), (Z.eqb_spec r 168), (Z.eqb_spec r 169),
      (Z.eqb_spec r 175), (Z.eqb_spec r 159); try lia.
    cbn [andb orb]. by rewrite !andb_false_r.
Qed.

Lemma fields_from_word cur w rest :
  (forall i, space_width (drop i w) = O) -> ascii_head rest ->
  fields_from 0 cur (w ++ rest) = fields_from 0 (cur ++ w) rest.
Proof.
  revert cur. induction w as [|b w IH]; intros cur Hw Hr; [by rewrite app_nil_r|].
  cbn [app fields_from].
  pose proof (space_width_app (b :: w) rest ltac:(done) (Hw O) Hr) as E. cbn [app] in E. rewrite E.
  rewrite IH; [|intros i; exact (Hw (S i))|done]. by rewrite <- app_assoc.
Qed.

Lemma Fields_word w : word w -> Fields w = [w].
Proof.
  intros [Hne Hw]. unfold Fields. rewrite <- (app_nil_r w) at 1.
  rewrite fields_from_word by done. cbn. by destruct w.
Qed.

Lemma Fields_cons w s : word w -> Fields (w ++ 32 :: s) = w :: Fields s.
Proof.
  intros [Hne Hw]. unfold Fields. rewrite fields_from_word by done. cbn. by destruct w.
Qed.

Lemma Fields_spaces k s : Fields (replicate k 32 ++ s) = Fields s.
Proof. induction k as [|k IH]; [done|exact IH]. Qed.

Lemma Fields_Join fs : Forall word fs -> Fields (Join [32] fs) = fs.
Proof.
  induction 1 as [|w fs Hw _ IH]; [done|]. destruct fs as [|f fs]; [by apply Fields_word|].
  change (Join [32] (w :: f :: fs)) with (w ++ 32 :: Join [32] (f :: fs)).
  by rewrite Fields_cons, IH.
Qed.

(** Printable ASCII without a blank is a field. *)
Lemma ascii_no_space b t : 33 <= b < 128 -> space_width (b :: t) = O.
Proof.
  intros Hb. unfold space_width.
  destruct (Z.leb_spec b 13), (Z.eqb_spec b 32); try lia. rewrite andb_false_r. cbn [orb].
  destruct t as [|b1 t]; [done|]. destruct (Z.eqb_spec b 194); [lia|]. cbn [andb].
  destruct t as [|b2 t]; [done|].
  destruct (Z.eqb_spec b 225), (Z.eqb_spec b 226), (Z.eqb_spec b 227); lia || done.
Qed.

Lemma alnum_no_space b t : alnum b -> space_width (b :: t) = O.
Proof. unfold alnum. intros H. apply ascii_no_space. lia. Qed.

Lemma ascii_word s : s <> [] -> Forall (λ b, 33 <= b < 128) s -> word s.
Proof.
  intros Hne Hs. split; [done|]. intros i. apply (list.Forall_drop _ i) in Hs.
  destruct (drop i s) as [|b t]; [done|]. apply list.Forall_cons in Hs as [Hb _]. by apply ascii_no_space.
Qed.

Lemma FormatUint_word n base : 2 <= base <= 36 -> 0 <= n -> word (FormatUint n base).
Proof.
  intros Hb Hn. apply ascii_word; [apply FormatUint_nonempty|].
  eapply list.Forall_impl; [by apply FormatUint_alnum|]. unfold alnum. intros x; cbn. lia.
Qed.
