(* ===== verification/Protocol.v ===== *)
(** * The socket protocol (daemon/protocol.go)

    Frames, event payloads, stack-trace TLVs and command payloads: encoders
    as the writes into the buffer the code allocates, decoders with the
    run-time's bounds checks ([None] is a panic), so that "never panics" is a
    statement about them. *)

From S2P Require Import Prelude GoLang.

(** ** Constants *)

Abbreviation FrameMagic := 0xBD%Z (only parsing).
Abbreviation FrameHeaderLen := 6%nat (only parsing).
Definition MaxPayloadLen : Z := Z.shiftl 1 20.

Abbreviation MsgTypeSetTarget := 0x01%Z (only parsing).
Abbreviation MsgTypePause := 0x02%Z (only parsing).
Abbreviation MsgTypeResume := 0x03%Z (only parsing).
Abbreviation MsgTypeShutdown := 0x04%Z (only parsing).
Abbreviation MsgTypePing := 0x05%Z (only parsing).
Abbreviation MsgTypeBinderEvent := 0x10%Z (only parsing).
Abbreviation MsgTypeAck := 0x11%Z (only parsing).
Abbreviation MsgTypeError := 0x12%Z (only parsing).
Abbreviation MsgTypePong := 0x13%Z (only parsing).

Inductive proto_error :=
| ErrInvalidMagic | ErrPayloadTooLong | ErrInvalidFrame
| ErrUnsupportedEventVersion | ErrTLVGuardFailOpen
| ErrWriteHeader | ErrWritePayload | ErrRead (e : io_error).

(** ** Frames *)

Record Frame := MkFrame { frame_type : Z; frame_payload : bytes }.

Definition frame_header (msgType : Z) (payload : bytes) : bytes :=
  put_be 4 2 (u32 (len payload))
    (put_bytes 1 [msgType] (put_bytes 0 [FrameMagic] (replicate FrameHeaderLen 0))).

(** WriteFrame *)
Definition WriteFrame `{Writer W} (w : W) (msgType : Z) (payload : bytes)
    : (proto_error + unit) * W :=
  if MaxPayloadLen <? len payload then (inl ErrPayloadTooLong, w)
  else
    let '(ok, w) := write w (frame_header msgType payload) in
    if negb ok then (inl ErrWriteHeader, w)
    else if 0 <? len payload then
      let '(ok, w) := write w payload in
      if negb ok then (inl ErrWritePayload, w) else (inr tt, w)
    else (inr tt, w).

(** ReadFrame; the second component is what is left of the stream. *)
Definition ReadFrame (r : bytes) : option ((proto_error + Frame) * bytes) :=
  match ReadFull FrameHeaderLen r with
  | (inl e, r) => Some (inl (ErrRead e), r)
  | (inr header, r) =>
      m ← index header 0;
      if negb (m =? FrameMagic) then Some (inl ErrInvalidMagic, r)
      else
        msgType ← index header 1;
        payloadLen ← be_uint 4 header 2;
        if MaxPayloadLen <? payloadLen then Some (inl ErrPayloadTooLong, r)
        else if 0 <? payloadLen then
          match ReadFull (Z.to_nat payloadLen) r with
          | (inl e, r) => Some (inl (ErrRead e), r)
          | (inr payload, r) => Some (inr (MkFrame msgType payload), r)
          end
        else Some (inr (MkFrame msgType []), r)
  end.

(** ** Stack traces *)

Record StackFrame := MkStackFrame { PC : Z; Module_ : bytes; Symbol : bytes; Offset : Z }.

Record StackTrace := MkStackTrace {
  Quality : Z; Truncated : Z; KFrames : list StackFrame; UFrames : list StackFrame;
  FailureReason : bytes }.

Abbreviation StackQualityFull := 0%Z (only parsing).
Abbreviation StackQualityFpOnly := 1%Z (only parsing).
Abbreviation StackQualityDegraded := 2%Z (only parsing).
Abbreviation StackQualityFailed := 3%Z (only parsing).

(** encodeFrame: hdr[20] and the two strings *)
Definition encodeFrame (fr : StackFrame) : bytes :=
  let hdr := put_be 8 12 (Offset fr)
    (put_be 2 10 (u16 (len (Symbol fr)))
      (put_be 2 8 (u16 (len (Module_ fr))) (put_be 8 0 (PC fr) (replicate 20 0)))) in
  hdr ++ Module_ fr ++ Symbol fr.

Definition EncodeStackTraceTLV (st : StackTrace) : bytes :=
  let header := put_be 2 6 (u16 (Z.of_nat (length (UFrames st))))
    (put_be 2 4 (u16 (Z.of_nat (length (KFrames st))))
      (put_bytes 1 [Truncated st] (put_bytes 0 [Quality st] (replicate 8 0)))) in
  header ++ concat (encodeFrame <$> KFrames st) ++ concat (encodeFrame <$> UFrames st) ++
  be_bytes 2 (u16 (len (FailureReason st))) ++ FailureReason st.

(** parseFrames: [Some None] when a frame does not fit; otherwise the frames
    and the new offset. *)
Fixpoint parseFrames (data : bytes) (count : nat) (off : Z)
    : option (option (list StackFrame * Z)) :=
  match count with
  | O => Some (Some ([], off))
  | S count =>
      if len data <? off + 20 then Some None
      else
        pc ← be_uint 8 data off;
        mLen ← be_uint 2 data (off + 8);
        sLen ← be_uint 2 data (off + 10);
        fOff ← be_uint 8 data (off + 12);
        let off := off + 20 in
        if len data <? off + mLen + sLen then Some None
        else
          module ← subslice data off (off + mLen);
          let off := off + mLen in
          symbol ← subslice data off (off + sLen);
          let off := off + sLen in
          rest ← parseFrames data count off;
          match rest with
          | None => Some None
          | Some (out, off) => Some (Some (MkStackFrame pc module symbol fOff :: out, off))
          end
  end.

Definition DecodeStackTraceTLV (data : bytes) : option (option StackTrace) :=
  if len data <? 8 then Some None
  else
    quality ← index data 0;
    truncated ← index data 1;
    kCount ← be_uint 2 data 4;
    uCount ← be_uint 2 data 6;
    k ← parseFrames data (Z.to_nat kCount) 8;
    match k with
    | None => Some None
    | Some (kf, off) =>
        u ← parseFrames data (Z.to_nat uCount) off;
        match u with
        | None => Some None
        | Some (uf, off) =>
            if off + 2 <=? len data then
              rl ← be_uint 2 data off;
              let off := off + 2 in
              if (0 <? rl) && (off + rl <=? len data) then
                reason ← subslice data off (off + rl);
                Some (Some (MkStackTrace quality truncated kf uf reason))
              else Some (Some (MkStackTrace quality truncated kf uf []))
            else Some (Some (MkStackTrace quality truncated kf uf []))
        end
    end.

(** ** Events *)

Record BinderEventPayload := MkEvent {
  Timestamp : Z; Pid : Z; Uid : Z; Code : Z; Flags : Z; DataSize : Z;
  IsReply : Z; BinderDev : Z; TargetKind : Z; ToPid : Z; ToUid : Z;
  TargetRef : Z; PairId : Z; ParcelData : bytes; StackTrace_ : option StackTrace }.

Abbreviation BinderEventVersionV2 := 2%Z (only parsing).
Abbreviation BinderEventHeaderLen := 60%nat (only parsing).
Abbreviation ExtFlagHasStackTLV := 0x01%Z (only parsing).
Abbreviation TLVTypeStackTrace := 0x01%Z (only parsing).
Abbreviation tlvHeaderLen := 5%nat (only parsing).

Definition event_header (extFlags : Z) (e : BinderEventPayload) (buf : bytes) : bytes :=
  let buf := put_bytes 0 [BinderEventVersionV2] buf in
  let buf := put_bytes 1 [extFlags] buf in
  let buf := put_be 8 4 (u64 (Timestamp e)) buf in
  let buf := put_be 4 12 (Pid e) buf in
  let buf := put_be 4 16 (Uid e) buf in
  let buf := put_be 4 20 (Code e) buf in
  let buf := put_be 4 24 (Flags e) buf in
  let buf := put_be 4 28 (u32 (len (ParcelData e))) buf in
  let buf := put_bytes 32 [IsReply e] buf in
  let buf := put_bytes 33 [BinderDev e] buf in
  let buf := put_bytes 34 [TargetKind e] buf in
  let buf := put_bytes 35 [0] buf in
  let buf := put_be 4 36 (ToPid e) buf in
  let buf := put_be 4 40 (ToUid e) buf in
  let buf := put_be 8 44 (TargetRef e) buf in
  put_be 8 52 (PairId e) buf.

(** Encode *)
Definition Encode (e : BinderEventPayload) : bytes :=
  let '(stackTLV, extFlags) :=
    match StackTrace_ e with
    | Some st => (EncodeStackTraceTLV st, Z.lor 0 ExtFlagHasStackTLV)
    | None => ([], 0)
    end in
  let baseLen := (BinderEventHeaderLen + length (ParcelData e))%nat in
  let totalLen := if 0 <? len stackTLV then (baseLen + (tlvHeaderLen + length stackTLV))%nat
                  else baseLen in
  let buf := event_header extFlags e (replicate totalLen 0) in
  let buf := put_bytes BinderEventHeaderLen (ParcelData e) buf in
  if 0 <? len stackTLV then
    let buf := put_bytes baseLen [TLVTypeStackTrace] buf in
    let buf := put_be 4 (baseLen + 1) (u32 (len stackTLV)) buf in
    put_bytes (baseLen + tlvHeaderLen) stackTLV buf
  else buf.

(** The silent guard counters of DecodeBinderEvent *)
Record TLVGuardCounters := MkGuards {
  G1BaseHeaderTooShort : Z; G2ParcelTruncated : Z; G4TLVHeaderTruncated : Z;
  G5TLVPayloadOverflow : Z }.

Definition g1_add (g : TLVGuardCounters) := MkGuards (u64 (G1BaseHeaderTooShort g + 1))
  (G2ParcelTruncated g) (G4TLVHeaderTruncated g) (G5TLVPayloadOverflow g).
Definition g2_add (g : TLVGuardCounters) := MkGuards (G1BaseHeaderTooShort g)
  (u64 (G2ParcelTruncated g + 1)) (G4TLVHeaderTruncated g) (G5TLVPayloadOverflow g).
Definition g4_add (g : TLVGuardCounters) := MkGuards (G1BaseHeaderTooShort g)
  (G2ParcelTruncated g) (u64 (G4TLVHeaderTruncated g + 1)) (G5TLVPayloadOverflow g).
Definition g5_add (g : TLVGuardCounters) := MkGuards (G1BaseHeaderTooShort g)
  (G2ParcelTruncated g) (G4TLVHeaderTruncated g) (u64 (G5TLVPayloadOverflow g + 1)).

Definition with_stack (e : BinderEventPayload) (st : option StackTrace) : BinderEventPayload :=
  MkEvent (Timestamp e) (Pid e) (Uid e) (Code e) (Flags e) (DataSize e) (IsReply e)
    (BinderDev e) (TargetKind e) (ToPid e) (ToUid e) (TargetRef e) (PairId e) (ParcelData e) st.

(** The event without its stack, read from the header and the parcel bytes
    up to [baseEnd]. *)
Definition decode_base (data : bytes) (dataSize baseEnd : Z) : option BinderEventPayload :=
  ts ← be_uint 8 data 4; pid ← be_uint 4 data 12; uid ← be_uint 4 data 16;
  code ← be_uint 4 data 20; flags ← be_uint 4 data 24;
  isReply ← index data 32; binderDev ← index data 33; targetKind ← index data 34;
  toPid ← be_uint 4 data 36; toUid ← be_uint 4 data 40;
  targetRef ← be_uint 8 data 44; pairId ← be_uint 8 data 52;
  parcel ← subslice data (Z.of_nat BinderEventHeaderLen) baseEnd;
  Some (MkEvent (s64 ts) pid uid code flags dataSize isReply binderDev targetKind
          toPid toUid targetRef pairId parcel None).

(** Guards 4 and 5: the TLV that starts at [baseEnd], when it is a stack
    trace that fits; the event without a stack otherwise. *)
Definition decode_tlv (data : bytes) (baseEnd : Z) (ev : BinderEventPayload) (g : TLVGuardCounters)
    : option ((proto_error + BinderEventPayload) * TLVGuardCounters) :=
  let payloadLen := len data in
  if payloadLen <? baseEnd + Z.of_nat tlvHeaderLen then Some (inr ev, g4_add g)
  else
    tlvType ← index data baseEnd;
    tlvLength ← be_uint 4 data (baseEnd + 1);
    if negb (tlvType =? TLVTypeStackTrace) then Some (inr ev, g)
    else
      let maxTlvLen := payloadLen - baseEnd - Z.of_nat tlvHeaderLen in
      if maxTlvLen <? tlvLength then Some (inr ev, g5_add g)
      else
        let tlvStart := baseEnd + Z.of_nat tlvHeaderLen in
        tlv ← subslice data tlvStart (tlvStart + tlvLength);
        st ← DecodeStackTraceTLV tlv;
        Some (inr (with_stack ev st), g).

Definition DecodeBinderEvent (data : bytes) (g : TLVGuardCounters)
    : option ((proto_error + BinderEventPayload) * TLVGuardCounters) :=
  let payloadLen := len data in
  if payloadLen <? Z.of_nat BinderEventHeaderLen then Some (inl ErrTLVGuardFailOpen, g1_add g)
  else
    version ← index data 0;
    if negb (version =? BinderEventVersionV2) then Some (inl ErrUnsupportedEventVersion, g)
    else
      extFlags ← index data 1;
      dataSize ← be_uint 4 data 28;
      let baseEnd := Z.of_nat BinderEventHeaderLen + dataSize in
      if payloadLen <? baseEnd then Some (inl ErrTLVGuardFailOpen, g2_add g)
      else
        ev ← decode_base data dataSize baseEnd;
        if Z.land extFlags ExtFlagHasStackTLV =? 0 then Some (inr ev, g)
        else decode_tlv data baseEnd ev g.

(** ** Commands and responses *)

Definition EncodeSetTarget (uid : Z) : bytes := put_be 4 0 uid (replicate 4 0).

Definition DecodeSetTarget (data : bytes) : option (proto_error + Z) :=
  if len data <? 4 then Some (inl ErrInvalidFrame)
  else uid ← be_uint 4 data 0; Some (inr uid).

Record AckPayload := MkAck { ack_success : bool; ack_message : bytes }.

Definition EncodeAck (p : AckPayload) : bytes :=
  let buf := replicate (1 + 4 + length (ack_message p)) 0 in
  let buf := put_bytes 0 [if ack_success p then 1 else 0] buf in
  let buf := put_be 4 1 (u32 (len (ack_message p))) buf in
  put_bytes 5 (ack_message p) buf.

(** The slice bound [5 + msgLen] is computed in uint32. *)
Definition DecodeAck (data : bytes) : option (proto_error + AckPayload) :=
  if len data <? 5 then Some (inl ErrInvalidFrame)
  else
    b ← index data 0;
    msgLen ← be_uint 4 data 1;
    if len data <? 5 + msgLen then Some (inl ErrInvalidFrame)
    else
      msg ← subslice data 5 (u32 (5 + msgLen));
      Some (inr (MkAck (b =? 1) msg)).

Record ErrorPayload := MkError { error_code : Z; error_message : bytes }.

Definition EncodeError (p : ErrorPayload) : bytes :=
  let buf := replicate (4 + 4 + length (error_message p)) 0 in
  let buf := put_be 4 0 (error_code p) buf in
  let buf := put_be 4 4 (u32 (len (error_message p))) buf in
  put_bytes 8 (error_message p) buf.

Definition DecodeError (data : bytes) : option (proto_error + ErrorPayload) :=
  if len data <? 8 then Some (inl ErrInvalidFrame)
  else
    code ← be_uint 4 data 0;
    msgLen ← be_uint 4 data 4;
    if len data <? 8 + msgLen then Some (inl ErrInvalidFrame)
    else
      msg ← subslice data 8 (u32 (8 + msgLen));
      Some (inr (MkError code msg)).
