(* ===== verification/ProtocolProofs.v ===== *)
(** * Correctness of the socket protocol

    Round trips of frames, events, stack traces and command payloads, and
    the safety of the decoders on arbitrary input. *)

From S2P Require Import Prelude GoLang Protocol.

(** ** Buffers as concatenations *)

Lemma splice_app_l off new h t :
  (off + length new <= length h)%nat -> splice off new (h ++ t) = splice off new h ++ t.
Proof.
  intros H. unfold splice. rewrite take_app_le, drop_app_le by lia. by rewrite <- !app_assoc.
Qed.

Lemma splice_app_mid h new old t :
  length old = length new -> splice (length h) new (h ++ old ++ t) = h ++ new ++ t.
Proof.
  intros H. unfold splice. rewrite take_app_length. f_equal. f_equal.
  rewrite app_assoc, <- H, <- length_app. by rewrite drop_app_length.
Qed.

(** Reads in a prefix whose bytes are known. *)
Lemma be_uint_cells n data off v :
  0 <= off -> off + Z.of_nat n <= len data -> fits (8 * Z.of_nat n) v ->
  slice (Z.to_nat off) n data = be_bytes n v -> be_uint n data off = Some v.
Proof.
  intros Ho Hl Hv Hs. unfold be_uint. rewrite Hs, be_val_bytes_fits by done.
  destruct (Z.leb_spec 0 off); [|lia]. by destruct (Z.leb_spec (off + Z.of_nat n) (len data)); [|lia].
Qed.

Lemma index_cells data i b :
  0 <= i < len data -> data !! Z.to_nat i = Some b -> index data i = Some b.
Proof.
  intros Hi Hb. unfold index. destruct (Z.leb_spec 0 i); [|lia].
  by destruct (Z.ltb_spec i (len data)); [|lia].
Qed.

Lemma be_uint_fits n data off v :
  is_bytes data -> be_uint n data off = Some v -> fits (8 * Z.of_nat n) v.
Proof.
  intros Hb. unfold be_uint. destruct (Z.leb_spec 0 off); [|done].
  destruct (Z.leb_spec (off + Z.of_nat n) (len data)); [|done]. cbn. intros [= <-].
  unfold be_val. assert (length (slice (Z.to_nat off) n data) = n) as Hl
    by (apply length_slice; unfold len in *; lia).
  pose proof (le_val_fits (rev (slice (Z.to_nat off) n data))) as H'.
  rewrite length_rev, Hl in H'. apply H'. apply Forall_rev.
  unfold slice. by apply Forall_take, Forall_drop.
Qed.

(** ** Frames *)

Lemma frame_header_bytes msgType payload :
  frame_header msgType payload = [FrameMagic; msgType] ++ be_bytes 4 (u32 (len payload)).
Proof. reflexivity. Qed.

Lemma len_u32 payload : len payload <= MaxPayloadLen -> u32 (len payload) = len payload.
Proof.
  intros H. apply wrap_small. pose proof (len_nonneg payload). split; [done|].
  change MaxPayloadLen with 1048576 in H. lia.
Qed.

Lemma ReadFrame_frame msgType payload rest :
  len payload <= MaxPayloadLen ->
  ReadFrame (frame_header msgType payload ++ payload ++ rest) =
  Some (inr (MkFrame msgType payload), rest).
Proof.
  intros Hp. unfold ReadFrame.
  rewrite (ReadFull_app FrameHeaderLen) by done. rewrite frame_header_bytes, len_u32 by done.
  pose proof (len_nonneg payload). cbn [app].
  rewrite (index_cells _ 0 FrameMagic), (index_cells _ 1 msgType) by done. cbn [mbind option_bind].
  change (negb (FrameMagic =? FrameMagic)) with false. cbv iota.
  rewrite (be_uint_cells 4 _ 2 (len payload)); [|done|done| |done].
  2: { change MaxPayloadLen with 1048576 in Hp. unfold fits. cbn. lia. }
  cbn [mbind option_bind]. destruct (Z.ltb_spec MaxPayloadLen (len payload)); [lia|].
  destruct (Z.ltb_spec 0 (len payload)).
  - by rewrite (ReadFull_app _ payload rest) by (unfold len; lia).
  - destruct payload; [done|]. unfold len in *. cbn [length] in *. lia.
Qed.

(** A stream of frames, written one after another. *)
Fixpoint write_all (w : bytes) (l : list Frame) : (proto_error + unit) * bytes :=
  match l with
  | [] => (inr tt, w)
  | f :: l =>
      match WriteFrame w (frame_type f) (frame_payload f) with
      | (inr _, w) => write_all w l
      | (inl e, w) => (inl e, w)
      end
  end.

(** Up to [n] frames, read one after another. *)
Fixpoint read_all (n : nat) (r : bytes) : option ((proto_error + list Frame) * bytes) :=
  match n with
  | O => Some (inr [], r)
  | S n =>
      match ReadFrame r with
      | Some (inr f, r) =>
          match read_all n r with
          | Some (inr l, r) => Some (inr (f :: l), r)
          | x => x
          end
      | Some (inl e, r) => Some (inl e, r)
      | None => None
      end
  end.

Lemma WriteFrame_buffer w msgType payload :
  len payload <= MaxPayloadLen ->
  WriteFrame w msgType payload = (inr tt, w ++ frame_header msgType payload ++ payload).
Proof.
  intros Hp. unfold WriteFrame. destruct (Z.ltb_spec MaxPayloadLen (len payload)); [lia|].
  cbn [write buffer_writer negb]. destruct (Z.ltb_spec 0 (len payload)) as [|Hz].
  - cbn. by rewrite <- app_assoc.
  - destruct payload; [by rewrite app_nil_r|]. unfold len in Hz. cbn [length] in Hz. lia.
Qed.

Lemma write_all_buffer w l :
  Forall (λ f, len (frame_payload f) <= MaxPayloadLen) l ->
  write_all w l =
  (inr tt, w ++ concat ((λ f, frame_header (frame_type f) (frame_payload f) ++ frame_payload f) <$> l)).
Proof.
  revert w. induction l as [|f l IH]; intros w Hl; cbn [write_all].
  - cbn. by rewrite app_nil_r.
  - apply Forall_cons_iff in Hl as [Hf Hl]. rewrite WriteFrame_buffer, IH by done.
    rewrite fmap_cons. cbn [concat]. by rewrite <- app_assoc.
Qed.

(** ** Stack traces *)

Record frame_ok (fr : StackFrame) : Prop := FrameOk {
  fo_pc : fits 64 (PC fr); fo_off : fits 64 (Offset fr);
  fo_module : len (Module_ fr) < 2 ^ 16; fo_symbol : len (Symbol fr) < 2 ^ 16 }.

Record trace_ok (st : StackTrace) : Prop := TraceOk {
  to_k : Z.of_nat (length (KFrames st)) < 2 ^ 16; to_u : Z.of_nat (length (UFrames st)) < 2 ^ 16;
  to_kf : Forall frame_ok (KFrames st); to_uf : Forall frame_ok (UFrames st);
  to_reason : len (FailureReason st) < 2 ^ 16 }.

Lemma len_u16 s : len s < 2 ^ 16 -> u16 (len s) = len s.
Proof. intros H. apply wrap_small. split; [apply len_nonneg|done]. Qed.

Lemma encodeFrame_bytes fr :
  frame_ok fr ->
  encodeFrame fr = (be_bytes 8 (PC fr) ++ be_bytes 2 (len (Module_ fr)) ++
    be_bytes 2 (len (Symbol fr)) ++ be_bytes 8 (Offset fr)) ++ Module_ fr ++ Symbol fr.
Proof. intros [_ _ ? ?]. unfold encodeFrame. rewrite !len_u16 by done. reflexivity. Qed.

(** Reads beyond a prefix. *)
Lemma be_uint_shift n pre d k : 0 <= k -> be_uint n (pre ++ d) (len pre + k) = be_uint n d k.
Proof.
  intros Hk. unfold be_uint. rewrite len_app. pose proof (len_nonneg pre).
  destruct (Z.leb_spec 0 (len pre + k)), (Z.leb_spec 0 k); try lia.
  destruct (Z.leb_spec (len pre + k + Z.of_nat n) (len pre + len d)),
    (Z.leb_spec (k + Z.of_nat n) (len d)); try lia; cbn; [|done].
  do 2 f_equal. unfold slice. f_equal. rewrite drop_app_ge by (unfold len; lia).
  f_equal. unfold len. lia.
Qed.

Definition frame_hdr (fr : StackFrame) : bytes :=
  be_bytes 8 (PC fr) ++ be_bytes 2 (len (Module_ fr)) ++ be_bytes 2 (len (Symbol fr)) ++
  be_bytes 8 (Offset fr).

(** The fixed part of a frame, read at the offset where it starts. *)
Lemma frame_hdr_reads fr pre rest :
  frame_ok fr ->
  let data := pre ++ frame_hdr fr ++ rest in
  be_uint 8 data (len pre) = Some (PC fr) /\
  be_uint 2 data (len pre + 8) = Some (len (Module_ fr)) /\
  be_uint 2 data (len pre + 10) = Some (len (Symbol fr)) /\
  be_uint 8 data (len pre + 12) = Some (Offset fr).
Proof.
  intros [Hpc Hof Hm Hs] data. unfold data.
  pose proof (len_nonneg (Module_ fr)). pose proof (len_nonneg (Symbol fr)).
  pose proof (len_nonneg rest). rewrite <- (Z.add_0_r (len pre)) at 1.
  rewrite !be_uint_shift by lia.
  assert (Hl : len (frame_hdr fr ++ rest) = 20 + len rest) by (rewrite len_app; done).
  split_and!; (apply be_uint_cells; [lia|rewrite Hl; lia|try done; by split|reflexivity]).
Qed.

Lemma parseFrames_concat frs pre post :
  Forall frame_ok frs ->
  parseFrames (pre ++ concat (encodeFrame <$> frs) ++ post) (length frs) (len pre) =
  Some (Some (frs, len pre + len (concat (encodeFrame <$> frs)))).
Proof.
  revert pre. induction frs as [|fr frs IH]; intros pre Hok.
  { cbn. by rewrite Z.add_0_r. }
  apply Forall_cons_iff in Hok as [Hfr Hok]. rewrite fmap_cons. cbn [concat length parseFrames].
  rewrite (encodeFrame_bytes fr Hfr). fold (frame_hdr fr). set (tl := concat (encodeFrame <$> frs)) in *.
  pose proof (frame_hdr_reads fr pre ((Module_ fr ++ Symbol fr) ++ tl ++ post) Hfr) as (R1 & R2 & R3 & R4).
  rewrite <- !app_assoc in *. set (m := Module_ fr) in *. set (sy := Symbol fr) in *.
  set (data := pre ++ frame_hdr fr ++ m ++ sy ++ tl ++ post) in *. set (hd := pre ++ frame_hdr fr).
  pose proof (len_nonneg m). pose proof (len_nonneg sy). pose proof (len_nonneg tl).
  pose proof (len_nonneg post). assert (Hh : len hd = len pre + 20) by (unfold hd; by rewrite len_app).
  assert (E : data = hd ++ m ++ sy ++ tl ++ post) by (unfold hd; by rewrite <- app_assoc).
  assert (Hd : len data = len pre + 20 + len m + len sy + len tl + len post)
    by (rewrite E, !len_app; lia).
  destruct (Z.ltb_spec (len data) (len pre + 20)); [lia|]. rewrite R1, R2, R3, R4.
  cbn [mbind option_bind]. destruct (Z.ltb_spec (len data) (len pre + 20 + len m + len sy)); [lia|].
  rewrite E. rewrite (subslice_app hd m _ (len pre + 20) (len pre + 20 + len m)) by lia.
  cbn [mbind option_bind]. rewrite (app_assoc hd m), (subslice_app (hd ++ m) sy (tl ++ post)
    (len pre + 20 + len m) (len pre + 20 + len m + len sy)) by (rewrite ?len_app; lia).
  cbn [mbind option_bind]. rewrite (app_assoc (hd ++ m) sy).
  replace (len pre + 20 + len m + len sy) with (len ((hd ++ m) ++ sy)) by (rewrite !len_app; lia).
  rewrite IH by done. cbn [mbind option_bind]. replace (MkStackFrame (PC fr) m sy (Offset fr)) with fr
    by (by destruct fr). do 3 f_equal. rewrite !len_app, Hh.
  change (len (frame_hdr fr)) with 20. lia.
Qed.

Definition trace_hdr (st : StackTrace) : bytes :=
  [Quality st; Truncated st; 0; 0] ++ be_bytes 2 (Z.of_nat (length (KFrames st))) ++
  be_bytes 2 (Z.of_nat (length (UFrames st))).

Lemma EncodeStackTraceTLV_bytes st :
  trace_ok st ->
  EncodeStackTraceTLV st = trace_hdr st ++ concat (encodeFrame <$> KFrames st) ++
    concat (encodeFrame <$> UFrames st) ++ be_bytes 2 (len (FailureReason st)) ++ FailureReason st.
Proof.
  intros [Hk Hu _ _ Hr]. unfold EncodeStackTraceTLV. rewrite len_u16 by done.
  unfold u16. rewrite !wrap_small by (split; lia). reflexivity.
Qed.

Lemma DecodeStackTraceTLV_encode st :
  trace_ok st -> DecodeStackTraceTLV (EncodeStackTraceTLV st) = Some (Some st).
Proof.
  intros Hok. rewrite (EncodeStackTraceTLV_bytes st Hok). destruct Hok as [Hk Hu Hkf Huf Hr].
  set (kb := concat (encodeFrame <$> KFrames st)). set (ub := concat (encodeFrame <$> UFrames st)).
  set (rb := be_bytes 2 (len (FailureReason st)) ++ FailureReason st).
  set (data := trace_hdr st ++ kb ++ ub ++ rb). unfold DecodeStackTraceTLV.
  pose proof (len_nonneg kb). pose proof (len_nonneg ub). pose proof (len_nonneg (FailureReason st)).
  assert (Hrb : len rb = 2 + len (FailureReason st)) by (unfold rb; by rewrite len_app, len_be_bytes).
  assert (Hd : len data = 8 + len kb + len ub + len rb) by (unfold data; rewrite !len_app;
    change (len (trace_hdr st)) with 8; lia).
  destruct (Z.ltb_spec (len data) 8); [lia|].
  rewrite (index_cells data 0 (Quality st)), (index_cells data 1 (Truncated st)) by (done || lia).
  cbn [mbind option_bind].
  rewrite (be_uint_cells 2 data 4 (Z.of_nat (length (KFrames st)))) by first [lia | reflexivity | split; lia].
  rewrite (be_uint_cells 2 data 6 (Z.of_nat (length (UFrames st)))) by first [lia | reflexivity | split; lia].
  cbn [mbind option_bind]. rewrite !Nat2Z.id.
  rewrite (parseFrames_concat (KFrames st) (trace_hdr st) (ub ++ rb) Hkf : parseFrames data _ 8 = _).
  cbn [mbind option_bind]. fold kb. rewrite <- len_app.
  assert (data = (trace_hdr st ++ kb) ++ ub ++ rb) as E by (unfold data; by rewrite <- app_assoc).
  rewrite E at 1. rewrite (parseFrames_concat (UFrames st) _ rb Huf). cbn [mbind option_bind].
  fold ub. rewrite <- len_app. set (pre := (trace_hdr st ++ kb) ++ ub).
  assert (data = pre ++ be_bytes 2 (len (FailureReason st)) ++ FailureReason st ++ []) as E'
    by (rewrite E; unfold pre, rb; by rewrite app_nil_r, <- !app_assoc).
  assert (Hp : len pre = 8 + len kb + len ub) by (unfold pre; rewrite !len_app;
    change (len (trace_hdr st)) with 8; lia).
  destruct (Z.leb_spec (len pre + 2) (len data)); [|lia]. rewrite E' at 1.
  rewrite be_uint_app by first [lia | done | split; lia]. cbn [mbind option_bind].
  destruct (Z.ltb_spec 0 (len (FailureReason st))) as [|Hz]; cbn [andb].
  - destruct (Z.leb_spec (len pre + 2 + len (FailureReason st)) (len data)); [|lia].
    rewrite E', app_assoc, subslice_app by (rewrite len_app, len_be_bytes; lia).
    cbn [mbind option_bind]. by destruct st.
  - destruct st as [? ? ? ? [|]]; [done|]. unfold len in Hz. cbn [length FailureReason] in Hz. lia.
Qed.

(** ** Events *)

Definition header_bytes (extFlags : Z) (e : BinderEventPayload) : bytes :=
  [BinderEventVersionV2; extFlags; 0; 0] ++ be_bytes 8 (u64 (Timestamp e)) ++
  be_bytes 4 (Pid e) ++ be_bytes 4 (Uid e) ++ be_bytes 4 (Code e) ++ be_bytes 4 (Flags e) ++
  be_bytes 4 (u32 (len (ParcelData e))) ++ [IsReply e; BinderDev e; TargetKind e; 0] ++
  be_bytes 4 (ToPid e) ++ be_bytes 4 (ToUid e) ++ be_bytes 8 (TargetRef e) ++ be_bytes 8 (PairId e).

(** The header writes stay in the first 60 bytes. *)
Lemma event_header_bytes f e t : event_header f e (replicate 60 0 ++ t) = header_bytes f e ++ t.
Proof. reflexivity. Qed.

(** The TLV segment that follows the parcel. *)
Definition tlv_bytes (st : option StackTrace) : bytes :=
  match st with
  | Some st => TLVTypeStackTrace :: be_bytes 4 (u32 (len (EncodeStackTraceTLV st))) ++
                 EncodeStackTraceTLV st
  | None => []
  end.

Definition ext_flags (st : option StackTrace) : Z :=
  match st with Some _ => ExtFlagHasStackTLV | None => 0 end.

Lemma EncodeStackTraceTLV_len st : 10 <= len (EncodeStackTraceTLV st).
Proof.
  unfold EncodeStackTraceTLV. rewrite !len_app, len_be_bytes.
  pose proof (len_nonneg (concat (encodeFrame <$> KFrames st))).
  pose proof (len_nonneg (concat (encodeFrame <$> UFrames st))).
  pose proof (len_nonneg (FailureReason st)).
  match goal with |- 10 <= len ?h + _ => change (len h) with 8 end. lia.
Qed.

Lemma splice_shift h k new t : splice (length h + k) new (h ++ t) = h ++ splice k new t.
Proof.
  unfold splice. rewrite take_app_add, <- app_assoc. do 3 f_equal.
  rewrite <- Nat.add_assoc, drop_app_add. done.
Qed.

Lemma tlv_writes h tlv :
  put_bytes (length h + tlvHeaderLen) tlv
    (put_be 4 (length h + 1) (u32 (len tlv))
       (put_bytes (length h) [TLVTypeStackTrace]
          (h ++ replicate (tlvHeaderLen + length tlv) 0))) =
  h ++ TLVTypeStackTrace :: be_bytes 4 (u32 (len tlv)) ++ tlv.
Proof.
  unfold put_bytes, put_be. rewrite <- (Nat.add_0_r (length h)) at 3.
  rewrite !splice_shift. f_equal. rewrite replicate_add.
  set (v := u32 (len tlv)). set (r := replicate (length tlv) 0).
  change (splice 1 (be_bytes 4 v) (splice 0 [TLVTypeStackTrace] (replicate tlvHeaderLen 0 ++ r)))
    with ((TLVTypeStackTrace :: be_bytes 4 v) ++ r).
  rewrite <- (app_nil_r r).
  pose proof (splice_app_mid (TLVTypeStackTrace :: be_bytes 4 v) tlv r []) as H.
  rewrite !app_nil_r in *. apply H, length_replicate.
Qed.

Lemma Encode_bytes e :
  Encode e = header_bytes (ext_flags (StackTrace_ e)) e ++ ParcelData e ++ tlv_bytes (StackTrace_ e).
Proof.
  unfold Encode. set (n := length (ParcelData e)).
  assert (Hp : forall f t, put_bytes BinderEventHeaderLen (ParcelData e)
    (event_header f e (replicate 60 0 ++ replicate n 0 ++ t)) = header_bytes f e ++ ParcelData e ++ t).
  { intros f t. rewrite event_header_bytes. apply (splice_app_mid (header_bytes f e)).
    by rewrite length_replicate. }
  destruct (StackTrace_ e) as [st|]; cbn [ext_flags tlv_bytes].
  - pose proof (EncodeStackTraceTLV_len st). set (tlv := EncodeStackTraceTLV st) in *.
    destruct (Z.ltb_spec 0 (len tlv)); [|lia]. change (Z.lor 0 ExtFlagHasStackTLV) with ExtFlagHasStackTLV.
    rewrite <- (Nat.add_assoc BinderEventHeaderLen n (tlvHeaderLen + length tlv)), !replicate_add, Hp. rewrite <- replicate_add.
    set (h := header_bytes ExtFlagHasStackTLV e ++ ParcelData e).
    assert (Hh : length h = (BinderEventHeaderLen + n)%nat) by (unfold h; by rewrite length_app).
    rewrite (app_assoc _ (ParcelData e)). fold h. rewrite <- Hh, tlv_writes. unfold h.
    by rewrite <- !app_assoc.
  - cbn [len length]. change (0 <? len []) with false. cbv iota.
    rewrite replicate_add, <- (app_nil_r (replicate n 0)), Hp. done.
Qed.

(** Field values within the widths of the Go struct, DataSize that of the
    parcel. *)
Record event_ok (e : BinderEventPayload) : Prop := EventOk {
  eo_ts : - 2 ^ 63 <= Timestamp e < 2 ^ 63;
  eo_pid : fits 32 (Pid e); eo_uid : fits 32 (Uid e);
  eo_code : fits 32 (Code e); eo_flags : fits 32 (Flags e);
  eo_topid : fits 32 (ToPid e); eo_touid : fits 32 (ToUid e);
  eo_target : fits 64 (TargetRef e); eo_pair : fits 64 (PairId e);
  eo_size : DataSize e = len (ParcelData e); eo_parcel : len (ParcelData e) < 2 ^ 32;
  eo_stack : match StackTrace_ e with
             | Some st => trace_ok st /\ len (EncodeStackTraceTLV st) < 2 ^ 32
             | None => True
             end }.

Lemma decode_base_header f e rest :
  event_ok e ->
  decode_base (header_bytes f e ++ ParcelData e ++ rest) (DataSize e) (60 + DataSize e) =
  Some (with_stack e None).
Proof.
  intros [Hts ? ? ? ? ? ? ? ? Hsz ? _]. pose proof (len_nonneg (ParcelData e)).
  pose proof (len_nonneg rest). unfold decode_base.
  set (data := header_bytes f e ++ ParcelData e ++ rest).
  assert (Hd : len data = 60 + len (ParcelData e) + len rest)
    by (unfold data; rewrite !len_app; change (len (header_bytes f e)) with 60; lia).
  assert (fits 64 (u64 (Timestamp e))) by (unfold u64; auto with btrace).
  rewrite (be_uint_cells 8 data 4 (u64 (Timestamp e))) by first [lia | reflexivity | done].
  rewrite (be_uint_cells 4 data 12 (Pid e)) by first [lia | reflexivity | done].
  rewrite (be_uint_cells 4 data 16 (Uid e)) by first [lia | reflexivity | done].
  rewrite (be_uint_cells 4 data 20 (Code e)) by first [lia | reflexivity | done].
  rewrite (be_uint_cells 4 data 24 (Flags e)) by first [lia | reflexivity | done].
  rewrite (index_cells data 32 (IsReply e)) by first [lia | reflexivity].
  rewrite (index_cells data 33 (BinderDev e)) by first [lia | reflexivity].
  rewrite (index_cells data 34 (TargetKind e)) by first [lia | reflexivity].
  rewrite (be_uint_cells 4 data 36 (ToPid e)) by first [lia | reflexivity | done].
  rewrite (be_uint_cells 4 data 40 (ToUid e)) by first [lia | reflexivity | done].
  rewrite (be_uint_cells 8 data 44 (TargetRef e)) by first [lia | reflexivity | done].
  rewrite (be_uint_cells 8 data 52 (PairId e)) by first [lia | reflexivity | done].
  cbn [mbind option_bind]. unfold data.
  rewrite (subslice_app (header_bytes f e) (ParcelData e) rest) by (done || by rewrite Hsz).
  cbn [mbind option_bind]. unfold with_stack. do 2 f_equal.
  unfold s64, u64. apply signed_wrap; [done|exact Hts].
Qed.

Lemma decode_tlv_trace pre st ev g :
  trace_ok st -> len (EncodeStackTraceTLV st) < 2 ^ 32 ->
  decode_tlv (pre ++ tlv_bytes (Some st)) (len pre) ev g = Some (inr (with_stack ev (Some st)), g).
Proof.
  intros Hst Hlen. unfold decode_tlv, tlv_bytes. set (tlv := EncodeStackTraceTLV st) in *.
  pose proof (len_nonneg tlv). pose proof (len_nonneg pre).
  unfold u32. rewrite wrap_small by (by split). set (hd := TLVTypeStackTrace :: be_bytes 4 (len tlv)).
  change (TLVTypeStackTrace :: be_bytes 4 (len tlv) ++ tlv) with (hd ++ tlv).
  set (data := pre ++ hd ++ tlv). change (Z.of_nat tlvHeaderLen) with 5.
  assert (Hd : len data = len pre + 5 + len tlv)
    by (unfold data; rewrite !len_app; change (len hd) with 5; lia).
  destruct (Z.ltb_spec (len data) (len pre + 5)); [lia|].
  rewrite (index_app pre TLVTypeStackTrace (be_bytes 4 (len tlv) ++ tlv) (len pre) eq_refl
    : index data (len pre) = _).
  assert (be_uint 4 data (len pre + 1) = Some (len tlv)) as ->.
  { unfold data. rewrite be_uint_shift by lia. apply be_uint_cells; [lia| |by split|reflexivity].
    rewrite len_app. change (len hd) with 5. lia. }
  cbn [mbind option_bind negb Z.eqb Pos.eqb].
  destruct (Z.ltb_spec (len data - len pre - 5) (len tlv)); [lia|].
  assert (data = (pre ++ hd) ++ tlv ++ []) as -> by (by rewrite app_nil_r, <- app_assoc).
  rewrite subslice_app by (rewrite len_app; change (len hd) with 5; lia).
  cbn [mbind option_bind]. unfold tlv. by rewrite DecodeStackTraceTLV_encode.
Qed.

Lemma DecodeBinderEvent_Encode e g :
  event_ok e -> DecodeBinderEvent (Encode e) g = Some (inr e, g).
Proof.
  intros Hok. rewrite Encode_bytes. pose proof Hok as [_ _ _ _ _ _ _ _ _ Hsz Hp Hst].
  set (f := ext_flags (StackTrace_ e)). set (t := tlv_bytes (StackTrace_ e)).
  set (data := header_bytes f e ++ ParcelData e ++ t). unfold DecodeBinderEvent. cbv zeta.
  pose proof (len_nonneg (ParcelData e)). pose proof (len_nonneg t).
  assert (Hd : len data = 60 + len (ParcelData e) + len t)
    by (unfold data; rewrite !len_app; change (len (header_bytes f e)) with 60; lia).
  change (Z.of_nat BinderEventHeaderLen) with 60.
  destruct (Z.ltb_spec (len data) 60); [lia|].
  rewrite (index_cells data 0 BinderEventVersionV2), (index_cells data 1 f) by first [lia | reflexivity].
  cbn [mbind option_bind Z.eqb Pos.eqb negb].
  rewrite (be_uint_cells 4 data 28 (len (ParcelData e))); [|lia|lia|by split|].
  2: { unfold data, header_bytes. unfold u32. rewrite wrap_small by (by split). reflexivity. }
  cbn [mbind option_bind]. destruct (Z.ltb_spec (len data) (60 + len (ParcelData e))); [lia|].
  pose proof (decode_base_header f e t Hok) as Hb. fold data in Hb. rewrite Hsz in Hb. rewrite Hb.
  cbn [mbind option_bind]. unfold f, t in *.
  destruct (StackTrace_ e) as [st|] eqn:Es; cbn [ext_flags] in *.
  - change (Z.land ExtFlagHasStackTLV ExtFlagHasStackTLV =? 0) with false. cbv iota.
    unfold data. rewrite app_assoc. replace (60 + len (ParcelData e)) with
      (len (header_bytes ExtFlagHasStackTLV e ++ ParcelData e)) by (by rewrite len_app).
    destruct Hst as [Hst Hl]. rewrite decode_tlv_trace by done. do 3 f_equal.
    unfold with_stack. destruct e; cbn in *. by subst.
  - do 3 f_equal. unfold with_stack. destruct e; cbn in *. by subst.
Qed.

(** ** Decoders on arbitrary bytes *)

(** Reads in range do not panic. *)
Ltac in_range :=
  repeat (match goal with
  | |- context [be_uint ?n ?d ?o] =>
      let v := fresh "v" in let E := fresh "E" in
      destruct (be_uint_in_range n d o) as [v E]; [lia|lia|rewrite E];
      match goal with Hb : is_bytes d |- _ => pose proof (be_uint_fits n d o v Hb E) as [? _] end
  | |- context [index ?d ?i] =>
      let b := fresh "b" in let E := fresh "E" in
      destruct (index_in_range d i) as [b E]; [lia|rewrite E]
  end; cbn [mbind option_bind]).

Lemma parseFrames_total data count off :
  is_bytes data -> 0 <= off ->
  exists r, parseFrames data count off = Some r /\
    match r with Some (_, off') => 0 <= off' | None => True end.
Proof.
  intros Hb. revert off. induction count as [|count IH]; intros off Ho; cbn [parseFrames]; [by eexists|].
  destruct (Z.ltb_spec (len data) (off + 20)); [by exists None|]. in_range.
  destruct (Z.ltb_spec (len data) (off + 20 + v1 + v0)); [by exists None|].
  destruct (subslice_in_range data (off + 20) (off + 20 + v1)) as (m & -> & _); [lia|lia|].
  cbn [mbind option_bind].
  destruct (subslice_in_range data (off + 20 + v1) (off + 20 + v1 + v0)) as (sy & -> & _); [lia|lia|].
  cbn [mbind option_bind].
  destruct (IH (off + 20 + v1 + v0)) as (r & -> & Hr); [lia|]. cbn [mbind option_bind].
  destruct r as [[out off']|]; [by eexists|by exists None].
Qed.

Lemma DecodeStackTraceTLV_total data :
  is_bytes data -> exists r, DecodeStackTraceTLV data = Some r.
Proof.
  intros Hb. unfold DecodeStackTraceTLV. destruct (Z.ltb_spec (len data) 8); [eauto|]. in_range.
  destruct (parseFrames_total data (Z.to_nat v0) 8 Hb) as ([[kf off]|] & -> & Hk); [lia| |eauto].
  cbn [mbind option_bind].
  destruct (parseFrames_total data (Z.to_nat v) off Hb Hk) as ([[uf off']|] & -> & Hu); [|eauto].
  cbn [mbind option_bind].
  destruct (Z.leb_spec (off' + 2) (len data)); [|eauto]. in_range.
  destruct (Z.ltb_spec 0 v1); cbn [andb]; [|eauto].
  destruct (Z.leb_spec (off' + 2 + v1) (len data)); [|eauto].
  destruct (subslice_in_range data (off' + 2) (off' + 2 + v1)) as (bs & -> & _); [lia|lia|].
  cbn. eauto.
Qed.

Lemma is_bytes_subslice data lo hi bs :
  is_bytes data -> subslice data lo hi = Some bs -> is_bytes bs.
Proof.
  intros Hb. unfold subslice. case_match; [|done]. intros [= <-].
  unfold slice. by apply Forall_take, Forall_drop.
Qed.

Lemma decode_base_total data dataSize baseEnd :
  is_bytes data -> 60 <= baseEnd <= len data -> exists ev, decode_base data dataSize baseEnd = Some ev.
Proof.
  intros Hb Hl. unfold decode_base. in_range.
  change (Z.of_nat BinderEventHeaderLen) with 60.
  destruct (subslice_in_range data 60 baseEnd) as (bs & -> & _); [lia|lia|]. cbn. eauto.
Qed.

Lemma decode_tlv_total data baseEnd ev g :
  is_bytes data -> 0 <= baseEnd -> exists r, decode_tlv data baseEnd ev g = Some r.
Proof.
  intros Hb Hl. unfold decode_tlv. change (Z.of_nat tlvHeaderLen) with 5.
  destruct (Z.ltb_spec (len data) (baseEnd + 5)); [eauto|]. in_range.
  destruct (b =? TLVTypeStackTrace); cbn [negb]; [|eauto].
  destruct (Z.ltb_spec (len data - baseEnd - 5) v); [eauto|].
  destruct (subslice_in_range data (baseEnd + 5) (baseEnd + 5 + v)) as (bs & Es & _); [lia|lia|].
  rewrite Es. cbn [mbind option_bind].
  destruct (DecodeStackTraceTLV_total bs) as [r ->]; [by eapply is_bytes_subslice|]. cbn. eauto.
Qed.

(** ** Command payloads *)

Lemma EncodeAck_bytes p :
  EncodeAck p = (if ack_success p then 1 else 0) :: be_bytes 4 (u32 (len (ack_message p))) ++
                ack_message p.
Proof.
  unfold EncodeAck, put_bytes, put_be. set (n := length (ack_message p)).
  set (v := u32 (len (ack_message p))). set (b := if ack_success p then 1 else 0).
  change (splice 1 (be_bytes 4 v) (splice 0 [b] (replicate (1 + 4 + n) 0)))
    with ((b :: be_bytes 4 v) ++ replicate n 0).
  rewrite <- (app_nil_r (replicate n 0)).
  pose proof (splice_app_mid (b :: be_bytes 4 v) (ack_message p) (replicate n 0) []) as H.
  rewrite !app_nil_r in *. apply H, length_replicate.
Qed.

Lemma EncodeError_bytes p :
  EncodeError p = be_bytes 4 (error_code p) ++ be_bytes 4 (u32 (len (error_message p))) ++
                  error_message p.
Proof.
  unfold EncodeError, put_bytes, put_be. set (n := length (error_message p)).
  set (v := u32 (len (error_message p))). set (c := error_code p).
  change (splice 4 (be_bytes 4 v) (splice 0 (be_bytes 4 c) (replicate (4 + 4 + n) 0)))
    with ((be_bytes 4 c ++ be_bytes 4 v) ++ replicate n 0).
  rewrite <- (app_nil_r (replicate n 0)), app_assoc.
  pose proof (splice_app_mid (be_bytes 4 c ++ be_bytes 4 v) (error_message p) (replicate n 0) []) as H.
  rewrite !app_nil_r in *. apply H, length_replicate.
Qed.

(** Sizes of encoded traces and events. *)
Lemma encodeFrame_len fr : len (encodeFrame fr) = 20 + len (Module_ fr) + len (Symbol fr).
Proof.
  unfold encodeFrame. rewrite !len_app.
  match goal with |- len ?h + _ = _ => change (len h) with 20 end. lia.
Qed.

Lemma encodeFrames_len k frs :
  Forall (λ fr, len (Module_ fr) + len (Symbol fr) <= k) frs ->
  len (concat (encodeFrame <$> frs)) <= Z.of_nat (length frs) * (20 + k).
Proof.
  induction 1 as [|fr frs Hfr _ IH]; [done|]. rewrite fmap_cons. cbn [concat length].
  rewrite len_app, encodeFrame_len. lia.
Qed.

Lemma EncodeStackTraceTLV_bound k st :
  0 <= k -> Forall (λ fr, len (Module_ fr) + len (Symbol fr) <= k) (KFrames st ++ UFrames st) ->
  len (EncodeStackTraceTLV st) <=
  10 + Z.of_nat (length (KFrames st ++ UFrames st)) * (20 + k) + len (FailureReason st).
Proof.
  intros Hk [HK HU]%Forall_app. apply encodeFrames_len in HK, HU.
  unfold EncodeStackTraceTLV. rewrite !len_app, len_be_bytes, length_app.
  match goal with |- len ?h + _ <= _ => change (len h) with 8 end. lia.
Qed.

Lemma Encode_len e :
  len (Encode e) = 60 + len (ParcelData e) +
    match StackTrace_ e with Some st => 5 + len (EncodeStackTraceTLV st) | None => 0 end.
Proof.
  rewrite Encode_bytes, !len_app. change (len (header_bytes _ e)) with 60.
  destruct (StackTrace_ e) as [st|]; cbn [tlv_bytes]; [|change (len []) with 0; lia].
  change (TLVTypeStackTrace :: be_bytes 4 (u32 (len (EncodeStackTraceTLV st))) ++ EncodeStackTraceTLV st)
    with ((TLVTypeStackTrace :: be_bytes 4 (u32 (len (EncodeStackTraceTLV st)))) ++
          EncodeStackTraceTLV st).
  rewrite len_app. change (len (_ :: be_bytes 4 _)) with 5. lia.
Qed.

Lemma DecodeAck_Encode ack :
  len (ack_message ack) < 2 ^ 32 - 8 -> DecodeAck (EncodeAck ack) = Some (inr ack).
Proof.
  intros Ha. pose proof (len_nonneg (ack_message ack)).
  rewrite EncodeAck_bytes. unfold u32. rewrite wrap_small by (split; lia).
  set (b := if ack_success ack then 1 else 0). set (h := b :: be_bytes 4 (len (ack_message ack))).
  change (b :: _ ++ ack_message ack) with (h ++ ack_message ack). unfold DecodeAck.
  assert (Hd : len (h ++ ack_message ack) = 5 + len (ack_message ack)) by (rewrite len_app; done).
  destruct (Z.ltb_spec (len (h ++ ack_message ack)) 5); [lia|].
  rewrite (index_cells _ 0 b) by first [lia | reflexivity]. cbn [mbind option_bind].
  rewrite (be_uint_cells 4 _ 1 (len (ack_message ack))) by first [lia | reflexivity | split; lia].
  cbn [mbind option_bind].
  destruct (Z.ltb_spec (len (h ++ ack_message ack)) (5 + len (ack_message ack))); [lia|].
  unfold u32. rewrite wrap_small by (split; lia).
  rewrite <- (app_nil_r (ack_message ack)) at 1. rewrite (subslice_app h) by done.
  cbn. destruct ack as [[] ?]; done.
Qed.

Lemma DecodeError_Encode err :
  len (error_message err) < 2 ^ 32 - 8 -> fits 32 (error_code err) ->
  DecodeError (EncodeError err) = Some (inr err).
Proof.
  intros He Hc. pose proof (len_nonneg (error_message err)).
  rewrite EncodeError_bytes. unfold u32. rewrite wrap_small by (split; lia).
  set (h := be_bytes 4 (error_code err) ++ be_bytes 4 (len (error_message err))).
  rewrite app_assoc. fold h. unfold DecodeError.
  assert (Hd : len (h ++ error_message err) = 8 + len (error_message err)) by (rewrite len_app; done).
  destruct (Z.ltb_spec (len (h ++ error_message err)) 8); [lia|].
  rewrite (be_uint_cells 4 _ 0 (error_code err)) by first [lia | reflexivity | done].
  cbn [mbind option_bind].
  rewrite (be_uint_cells 4 _ 4 (len (error_message err))) by first [lia | reflexivity | split; lia].
  cbn [mbind option_bind].
  destruct (Z.ltb_spec (len (h ++ error_message err)) (8 + len (error_message err))); [lia|].
  unfold u32. rewrite wrap_small by (split; lia).
  rewrite <- (app_nil_r (error_message err)) at 1. rewrite (subslice_app h) by done.
  cbn. by destruct err.
Qed.

Lemma DecodeSetTarget_Encode uid : fits 32 uid -> DecodeSetTarget (EncodeSetTarget uid) = Some (inr uid).
Proof.
  intros Hu.
  unfold DecodeSetTarget. change (EncodeSetTarget uid) with (be_bytes 4 uid).
  rewrite len_be_bytes. cbn [Z.ltb Z.compare Z.of_nat]. rewrite (be_uint_cells 4 _ 0 uid); done.
Qed.

(** A frame on the wire *)
Definition frame_bytes (f : Frame) : bytes :=
  frame_header (frame_type f) (frame_payload f) ++ frame_payload f.

Lemma read_all_frames l rest :
  Forall (λ f, len (frame_payload f) <= MaxPayloadLen) l ->
  read_all (length l) (concat (frame_bytes <$> l) ++ rest) = Some (inr l, rest).
Proof.
  induction 1 as [|f l Hf Hl IH]; [done|]. rewrite fmap_cons. cbn [concat length read_all]. unfold frame_bytes at 1.
  rewrite <- !app_assoc, ReadFrame_frame by done. rewrite IH. by destruct f.
Qed.

(** ** Properties *)

(** Any sequence of frames with payloads of at most 1 MiB written to a
    stream one after another is read back as the same sequence, leaving what
    follows it on the stream unread. *)
Theorem frames_round_trip l rest :
  Forall (λ f, len (frame_payload f) <= MaxPayloadLen) l ->
  exists stream, write_all [] l = (inr tt, stream) /\
    read_all (length l) (stream ++ rest) = Some (inr l, rest).
Proof.
  intros Hl. rewrite write_all_buffer by done. eexists. split; [done|]. by apply read_all_frames.
Qed.

Lemma frames_round_trip_witness :
  exists stream, write_all [] [MkFrame MsgTypePing []; MkFrame MsgTypeSetTarget [0; 0; 39; 139]]
                 = (inr tt, stream) /\
    read_all 2 (stream ++ [0xBD]) =
    Some (inr [MkFrame MsgTypePing []; MkFrame MsgTypeSetTarget [0; 0; 39; 139]], [0xBD]).
Proof.
  apply (frames_round_trip [MkFrame MsgTypePing []; MkFrame MsgTypeSetTarget [0; 0; 39; 139]] [0xBD]).
  repeat (apply Forall_cons; [vm_compute; congruence|]). apply Forall_nil.
Defined.

(** Reading a frame from any byte stream never panics, and a frame that
    is read has a payload of at most 1 MiB. *)
Theorem ReadFrame_safe r :
  is_bytes r ->
  exists res rest, ReadFrame r = Some (res, rest) /\
    match res with inr f => len (frame_payload f) <= MaxPayloadLen | inl _ => True end.
Proof.
  intros Hr. unfold ReadFrame, ReadFull.
  destruct (Nat.leb_spec FrameHeaderLen (length r)) as [Hl|]; 
    [|destruct (length r =? 0)%nat; by eexists _, _].
  set (h := take FrameHeaderLen r).
  assert (Hh : len h = 6) by (unfold len, h; rewrite length_take;
    change FrameHeaderLen with 6%nat in *; lia).
  assert (Hb : is_bytes h) by (by apply Forall_take).
  destruct (index_in_range h 0) as [m ->]; [lia|]. cbn [mbind option_bind].
  destruct (m =? FrameMagic); cbn [negb]; [|by eexists _, _].
  destruct (index_in_range h 1) as [ty ->]; [lia|]. cbn [mbind option_bind].
  destruct (be_uint_in_range 4 h 2) as [pl Epl]; [lia|lia|]. rewrite Epl. cbn [mbind option_bind].
  destruct (Z.ltb_spec MaxPayloadLen pl); [by eexists _, _|].
  destruct (Z.ltb_spec 0 pl); [|eexists _, _; split; [done|vm_compute; congruence]].
  destruct (Nat.leb_spec (Z.to_nat pl) (length (drop FrameHeaderLen r))).
  - eexists _, _. split; [done|]. cbn. unfold len. rewrite length_take. lia.
  - destruct (length (drop FrameHeaderLen r) =? 0)%nat; by eexists _, _.
Qed.

Lemma ReadFrame_safe_witness :
  exists res rest, ReadFrame [0xBD; 5; 255; 255; 255; 255] = Some (res, rest) /\
    match res with inr f => len (frame_payload f) <= MaxPayloadLen | inl _ => True end.
Proof.
  apply (ReadFrame_safe [0xBD; 5; 255; 255; 255; 255]).
  repeat (apply Forall_cons; [split; vm_compute; congruence|]). apply Forall_nil.
Defined.

(** C16: An event whose fields are within their widths, whose DataSize is the
    size of its parcel and whose stack trace fits the TLV, is decoded from
    its encoding exactly, stack trace included, and no guard counter moves. *)
Theorem event_round_trip e g :
  event_ok e -> DecodeBinderEvent (Encode e) g = Some (inr e, g).
Proof. apply DecodeBinderEvent_Encode. Qed.

(** A request with a two-frame stack. *)
Definition sample_event : BinderEventPayload :=
  MkEvent 1700000000000000000 1200 10123 7 0x10 5 0 1 0 1500 1000 1 77 [1; 2; 3; 4; 5]
    (Some (MkStackTrace 1 0 [] [MkStackFrame 0x7000010000 [108; 105; 98] [102] 16;
                                MkStackFrame 0x7000020000 [108; 105; 98] [] 0] [])).

Lemma sample_event_ok : event_ok sample_event.
Proof.
  split; try (vm_compute; intuition congruence). cbn [StackTrace_ sample_event].
  split; [|vm_compute; congruence].
  split; try (vm_compute; congruence); repeat (apply Forall_cons; [split; vm_compute; intuition congruence|]);
    apply Forall_nil.
Qed.

Lemma event_round_trip_witness :
  DecodeBinderEvent (Encode sample_event) (MkGuards 0 0 0 0) = Some (inr sample_event, MkGuards 0 0 0 0).
Proof. apply (event_round_trip sample_event (MkGuards 0 0 0 0)), sample_event_ok. Defined.

(** Decoding an event from arbitrary bytes never panics: every read is in
    range whatever the header, the declared sizes and the TLV claim. *)
Theorem DecodeBinderEvent_never_panics data g :
  is_bytes data -> exists r, DecodeBinderEvent data g = Some r.
Proof.
  intros Hb. unfold DecodeBinderEvent. change (Z.of_nat BinderEventHeaderLen) with 60.
  destruct (Z.ltb_spec (len data) 60); [eauto|].
  destruct (index_in_range data 0) as [ver ->]; [lia|]. cbn [mbind option_bind].
  destruct (ver =? BinderEventVersionV2); cbn [negb]; [|eauto]. in_range.
  destruct (Z.ltb_spec (len data) (60 + v)); [eauto|].
  destruct (decode_base_total data v (60 + v)) as [ev ->]; [done|lia|]. cbn [mbind option_bind].
  case_match; [eauto|]. apply decode_tlv_total; [done|lia].
Qed.

Lemma DecodeBinderEvent_never_panics_witness :
  exists r, DecodeBinderEvent (2 :: 1 :: replicate 60 255) (MkGuards 0 0 0 0) = Some r.
Proof.
  apply DecodeBinderEvent_never_panics.
  apply Forall_cons; [split; vm_compute; congruence|].
  apply Forall_cons; [split; vm_compute; congruence|].
  repeat (apply Forall_cons; [split; vm_compute; congruence|]). apply Forall_nil.
Defined.

(** Acknowledgement and error responses with messages below 4 GiB, and
    set-target commands, are decoded from their encodings exactly. *)
Theorem command_payloads_round_trip ack err uid :
  len (ack_message ack) < 2 ^ 32 - 8 -> len (error_message err) < 2 ^ 32 - 8 ->
  fits 32 (error_code err) -> fits 32 uid ->
  DecodeAck (EncodeAck ack) = Some (inr ack) /\
  DecodeError (EncodeError err) = Some (inr err) /\
  DecodeSetTarget (EncodeSetTarget uid) = Some (inr uid).
Proof.
  intros Ha He Hc Hu. split_and!.
  - by apply DecodeAck_Encode.
  - by apply DecodeError_Encode.
  - by apply DecodeSetTarget_Encode.
Qed.

Lemma command_payloads_round_trip_witness :
  DecodeAck (EncodeAck (MkAck true [111; 107])) = Some (inr (MkAck true [111; 107])) /\
  DecodeError (EncodeError (MkError 3 [])) = Some (inr (MkError 3 [])) /\
  DecodeSetTarget (EncodeSetTarget 10123) = Some (inr 10123).
Proof.
  apply (command_payloads_round_trip (MkAck true [111; 107]) (MkError 3 []) 10123);
    try (vm_compute; congruence); split; vm_compute; congruence.
Defined.

(** The frame of an event with a parcel of at most 16 KiB and a stack of
    at most 64 frames, with at most 8 KiB of names per frame and a reason of
    at most 1 KiB, is never refused as too long. *)
Theorem event_frame_accepted w e :
  len (ParcelData e) <= 16384 ->
  match StackTrace_ e with
  | Some st => (length (KFrames st ++ UFrames st) <= 64)%nat /\
      Forall (λ fr, len (Module_ fr) + len (Symbol fr) <= 8192) (KFrames st ++ UFrames st) /\
      len (FailureReason st) <= 1024
  | None => True
  end ->
  (WriteFrame w MsgTypeBinderEvent (Encode e)).1 = inr tt.
Proof.
  intros Hp Hst. rewrite WriteFrame_buffer; [done|]. rewrite Encode_len.
  change MaxPayloadLen with 1048576. destruct (StackTrace_ e) as [st|]; [|lia].
  destruct Hst as (Hn & Hf & Hr). pose proof (EncodeStackTraceTLV_bound 8192 st ltac:(lia) Hf). lia.
Qed.

Lemma event_frame_accepted_witness :
  (WriteFrame [] MsgTypeBinderEvent (Encode sample_event)).1 = inr tt.
Proof.
  apply (event_frame_accepted [] sample_event); [vm_compute; congruence|].
  cbn [StackTrace_ sample_event]. split; [vm_compute; lia|]. split; [|vm_compute; congruence].
  repeat (apply Forall_cons; [vm_compute; congruence|]). apply Forall_nil.
Defined.
