(* ===== verification/Lru.v ===== *)
(** * Keyed tables with an LRU list

    The pattern the collector (daemon/event_collector.go) uses for
    pendingMain, pendingMainByTxid, pendingOneway, recentOneway and
    pendingCookieByTxid: a map from uint64 keys to entries, each of which
    points to its element of a container/list that holds the keys, most
    recently pushed first.  Elements are identified by the number of the
    PushFront that created them, so that a map entry and a list element can
    get out of step the way they can in the code.  [lru_wf] says they are in
    step; the operations keep it, except that a push must not be made on a
    key that is in use. *)

From S2P Require Import Prelude.

(** [entries]: key -> (value, its element); [order]: (element, key). *)
Record lru_table (V : Type) := LruTable {
  entries : gmap Z (V * Z);
  order : list (Z * Z);
  fresh : Z
}.
Arguments LruTable {V}.
Arguments entries {V}.
Arguments order {V}.
Arguments fresh {V}.

Definition lru_empty {V} : lru_table V := LruTable ∅ [] 0.

Section Operations.
Context {V : Type}.
Implicit Types t : lru_table V.

(** list.Remove(e): no effect when [e] is not in the list. *)
Definition list_remove (e : Z) (l : list (Z * Z)) : list (Z * Z) :=
  List.filter (λ x, negb (x.1 =? e)) l.

Definition lru_lookup (k : Z) t : option V := fst <$> entries t !! k.

(** pe.listElem = l.PushFront(k); m[k] = pe *)
Definition lru_push (k : Z) (v : V) t : lru_table V :=
  LruTable (<[k := (v, fresh t)]> (entries t)) ((fresh t, k) :: order t) (fresh t + 1).

(** l.Remove(m[k].listElem); delete(m, k), for a key found in the map *)
Definition lru_remove (k : Z) t : lru_table V :=
  match entries t !! k with
  | Some (_, e) => LruTable (delete k (entries t)) (list_remove e (order t)) (fresh t)
  | None => t
  end.

(** l.MoveToFront(m[k].listElem) and an update of the entry in place *)
Definition lru_touch (k : Z) (v : V) t : lru_table V :=
  match entries t !! k with
  | Some (_, e) =>
      LruTable (<[k := (v, e)]> (entries t))
        (match find (λ x, x.1 =? e) (order t) with
         | Some x => x :: list_remove e (order t)
         | None => order t
         end) (fresh t)
  | None => t
  end.

(** evictLRUIfFullCollect: while the list is longer than [cap], take its last
    element out and delete the key it holds from the map; the values of the
    deleted entries, in the order of deletion.  Each round shortens the
    list, so [length (order t)] rounds are enough. *)
Fixpoint evict_rounds (fuel cap : nat) t : list V * lru_table V :=
  match fuel with
  | O => ([], t)
  | S fuel =>
      if (length (order t) <=? cap)%nat then ([], t)
      else
        match list.last (order t) with
        | None => ([], t)
        | Some (e, k) =>
            let t1 := LruTable (delete k (entries t)) (list_remove e (order t)) (fresh t) in
            let '(vs, t2) := evict_rounds fuel cap t1 in
            (match entries t !! k with Some (v, _) => v :: vs | None => vs end, t2)
        end
  end.

Definition evict_if_full (cap : nat) t : list V * lru_table V :=
  evict_rounds (length (order t)) cap t.

(** Removal of every entry that satisfies [old]; the iteration order of a Go
    map is unspecified, here it is that of [map_to_list]. *)
Definition lru_expire (old : V -> bool) t : list V * lru_table V :=
  let gone := filter (λ kv, old kv.2.1 = true) (map_to_list (entries t)) in
  ((λ kv, kv.2.1) <$> gone,
   LruTable (filter (λ kv, ¬ (old kv.2.1 = true)) (entries t))
     (foldr (λ kv, list_remove kv.2.2) (order t) gone) (fresh t)).

Definition lru_values t : list V := (λ kv, kv.2.1) <$> map_to_list (entries t).

(** Map and list are in step. *)
Record lru_wf t : Prop := LruWf {
  wf_nodup : NoDup (order t).*1;
  wf_fresh e k : (e, k) ∈ order t -> e < fresh t;
  wf_map k v e : entries t !! k = Some (v, e) -> (e, k) ∈ order t;
  wf_list e k : (e, k) ∈ order t -> exists v, entries t !! k = Some (v, e)
}.

End Operations.

(** ** The list *)

Lemma elem_list_remove e x l : x ∈ list_remove e l <-> x ∈ l /\ x.1 <> e.
Proof.
  unfold list_remove. rewrite !list_elem_of_In, filter_In, Bool.negb_true_iff, Z.eqb_neq. done.
Qed.

Lemma list_remove_nodup e l : NoDup l.*1 -> NoDup (list_remove e l).*1.
Proof.
  induction l as [|x l IH]; cbn; [done|]. intros [Hx Hl]%list.NoDup_cons.
  destruct (x.1 =? e); cbn; [auto|]. apply list.NoDup_cons. split; [|auto].
  intros (y & Hy & [Hin _]%elem_list_remove)%list_elem_of_fmap. apply Hx. rewrite Hy.
  by apply list_elem_of_fmap_2.
Qed.

Section Lemmas.
Context {V : Type}.
Implicit Types t : lru_table V.

Lemma lru_wf_empty : lru_wf (lru_empty (V := V)).
Proof. split; cbn; [constructor|..]; intros *; [inversion 1|by rewrite lookup_empty|inversion 1]. Qed.

Lemma lru_lookup_empty k : lru_lookup k (lru_empty (V := V)) = None.
Proof. unfold lru_lookup. cbn. by rewrite lookup_empty. Qed.

(** Distinct elements of a table in step hold distinct keys. *)
Lemma order_keys t e e' k : lru_wf t -> (e, k) ∈ order t -> (e', k) ∈ order t -> e = e'.
Proof.
  intros Hw [v Hv]%(wf_list t Hw) [v' Hv']%(wf_list t Hw). congruence.
Qed.

Lemma order_elem t e k k' : lru_wf t -> (e, k) ∈ order t -> (e, k') ∈ order t -> k = k'.
Proof.
  intros [Hnd _ _ _] H H'. apply list_elem_of_lookup in H as [i Hi].
  apply list_elem_of_lookup in H' as [j Hj].
  assert (i = j) as ->; [|congruence].
  eapply NoDup_lookup; [exact Hnd|..]; rewrite list_lookup_fmap; [by rewrite Hi|by rewrite Hj].
Qed.

Lemma lru_wf_push k v t : lru_wf t -> entries t !! k = None -> lru_wf (lru_push k v t).
Proof.
  intros Hw Hk. destruct Hw as [Hnd Hf Hm Hl]. split; cbn.
  - apply list.NoDup_cons. split; [|done]. intros ([e k'] & He & Hin)%list_elem_of_fmap.
    apply Hf in Hin. cbn in He. lia.
  - intros e k' [[= -> ->]|Hin]%elem_of_cons; [lia|]. apply Hf in Hin. lia.
  - intros k' v' e. destruct (decide (k = k')) as [<-|Hne].
    + rewrite lookup_insert_eq. intros [= -> ->]. by left.
    + rewrite lookup_insert_ne by done. intros H. right. eauto.
  - intros e k' [[= -> ->]|Hin]%elem_of_cons.
    + exists v. by rewrite lookup_insert_eq.
    + destruct (Hl _ _ Hin) as [v' Hv']. exists v'. rewrite lookup_insert_ne; [done|congruence].
Qed.

(** Taking an element out of the list and its key out of the map. *)
Lemma lru_wf_cut t e k :
  lru_wf t -> (e, k) ∈ order t ->
  lru_wf (LruTable (delete k (entries t)) (list_remove e (order t)) (fresh t)).
Proof.
  intros Hw Hin. split; cbn.
  - by apply list_remove_nodup, Hw.
  - intros e' k' [H _]%elem_list_remove. eapply wf_fresh; eauto.
  - intros k' v' e' [Hne H]%lookup_delete_Some. apply elem_list_remove. cbn.
    apply (wf_map t Hw) in H. split; [done|]. intros ->. apply Hne. by eapply order_elem.
  - intros e' k' [H Hne]%elem_list_remove. cbn in Hne.
    destruct (wf_list t Hw _ _ H) as [v' Hv']. exists v'.
    rewrite lookup_delete_ne; [done|]. intros <-. apply Hne. by eapply order_keys.
Qed.

Lemma lru_wf_remove k t : lru_wf t -> lru_wf (lru_remove k t).
Proof.
  intros Hw. unfold lru_remove. destruct (entries t !! k) as [[v e]|] eqn:E; [|done].
  apply lru_wf_cut; [done|]. by eapply wf_map.
Qed.

Lemma find_elem e (l : list (Z * Z)) k :
  NoDup l.*1 -> (e, k) ∈ l -> find (λ x, x.1 =? e) l = Some (e, k).
Proof.
  induction l as [|[a b] l IH]; cbn; [inversion 2|]. intros [Ha Hl]%list.NoDup_cons Hin.
  destruct (Z.eqb_spec a e) as [->|Hne].
  - apply elem_of_cons in Hin as [Heq|Hin]; [by f_equal|].
    destruct Ha. apply (list_elem_of_fmap_2 fst _ _ Hin).
  - apply elem_of_cons in Hin as [[= <- <-]|Hin]; [done|auto].
Qed.

Lemma lru_wf_touch k v t : lru_wf t -> lru_wf (lru_touch k v t).
Proof.
  intros Hw. unfold lru_touch. destruct (entries t !! k) as [[v0 e]|] eqn:E; [|done].
  pose proof (wf_map t Hw _ _ _ E) as Hin.
  rewrite (find_elem e (order t) k) by (done || apply Hw).
  assert (Hiff : forall x, x ∈ (e, k) :: list_remove e (order t) <-> x ∈ order t).
  { intros [e' k']. rewrite elem_of_cons, elem_list_remove. cbn. split.
    - intros [[= -> ->]|[? _]]; done.
    - intros H. destruct (decide (e' = e)) as [->|]; [left|by right].
      f_equal. by eapply order_elem. }
  split; cbn.
  - apply list.NoDup_cons. split; [|by apply list_remove_nodup, Hw].
    intros ([e' k'] & He & [_ Hne]%elem_list_remove)%list_elem_of_fmap. cbn in *. congruence.
  - intros e' k' H%Hiff. by eapply wf_fresh.
  - intros k' v' e' H. apply Hiff. destruct (decide (k = k')) as [<-|Hne].
    + rewrite lookup_insert_eq in H. congruence.
    + rewrite lookup_insert_ne in H by done. by eapply wf_map.
  - intros e' k' H%Hiff. destruct (decide (k = k')) as [<-|Hne].
    + exists v. rewrite lookup_insert_eq. do 2 f_equal. by eapply order_keys.
    + rewrite lookup_insert_ne by done. by eapply wf_list.
Qed.

(** ** Eviction *)

Lemma list_remove_none e (l : list (Z * Z)) : e ∉ l.*1 -> list_remove e l = l.
Proof.
  induction l as [|x l IH]; cbn; [done|]. intros [Hx Hl]%not_elem_of_cons.
  destruct (Z.eqb_spec x.1 e); [congruence|]. cbn. f_equal. by apply IH.
Qed.

Lemma list_remove_last e k (l : list (Z * Z)) :
  NoDup (l ++ [(e, k)]).*1 -> list_remove e (l ++ [(e, k)]) = l.
Proof.
  rewrite fmap_app. intros (_ & Hd & _)%list.NoDup_app.
  unfold list_remove. rewrite List.filter_app. cbn. rewrite Z.eqb_refl. cbn. rewrite app_nil_r.
  apply list_remove_none. intros H. apply (Hd _ H). by left.
Qed.

Lemma evict_rounds_spec fuel cap t :
  lru_wf t -> (length (order t) <= fuel)%nat ->
  let '(vs, t') := evict_rounds fuel cap t in
  lru_wf t' /\ order t' = take cap (order t) /\
  vs ++ lru_values t' ≡ₚ lru_values t /\
  (forall e k, (e, k) ∈ order t' -> entries t' !! k = entries t !! k) /\
  (forall k, entries t !! k = None -> entries t' !! k = None).
Proof.
  revert t. induction fuel as [|fuel IH]; intros t Hw Hf; cbn [evict_rounds].
  { destruct (order t) eqn:E; cbn in Hf; [|lia]. by rewrite take_nil. }
  destruct (Nat.leb_spec (length (order t)) cap) as [Hle|Hgt].
  { by rewrite take_ge by done. }
  destruct (list.last (order t)) as [[e k]|] eqn:El.
  2: { apply last_None in El. rewrite El in Hgt. cbn in Hgt. lia. }
  apply last_Some in El as [l El].
  assert ((e, k) ∈ order t) as Hin by (rewrite El; apply elem_of_app; right; by left).
  destruct (wf_list t Hw e k Hin) as [v Hv]. rewrite Hv.
  assert (list_remove e (order t) = l) as Hr.
  { pose proof (wf_nodup t Hw) as Hnd. rewrite El in Hnd |- *. by apply list_remove_last in Hnd. }
  pose proof (lru_wf_cut t e k Hw Hin) as Hw1. rewrite El, length_app in Hf, Hgt. cbn in Hf, Hgt.
  specialize (IH _ Hw1). cbn [order] in IH. rewrite Hr in *.
  destruct (evict_rounds fuel cap _) as [vs t'].
  destruct IH as (Hwf' & Ho & Hv' & Hk & Hn); [lia|]. split_and!; [done| | | |].
  - rewrite Ho, El, take_app_le by lia. done.
  - cbn [app]. rewrite Hv'. unfold lru_values. cbn [entries].
    by rewrite <- (map_to_list_delete (entries t) k (v, e) Hv).
  - intros e' k' H'. rewrite (Hk e' k' H'). cbn. apply lookup_delete_ne. intros ->.
    rewrite Ho in H'. apply elem_of_take in H' as (i & Hi & _).
    pose proof (wf_nodup t Hw) as Hnd. rewrite El, fmap_app in Hnd.
    apply list.NoDup_app in Hnd as (_ & Hd & _). apply list_elem_of_lookup_2 in Hi.
    assert (e' = e) as -> by (apply (order_keys t e' e k' Hw); [|exact Hin];
      rewrite El; apply elem_of_app; by left).
    apply (Hd e); [apply (list_elem_of_fmap_2 fst _ _ Hi)|by left].
  - intros k' Hk'. apply Hn. cbn. destruct (decide (k = k')) as [<-|]; [congruence|].
    by rewrite lookup_delete_ne.
Qed.

Lemma evict_spec cap t :
  lru_wf t ->
  let '(vs, t') := evict_if_full cap t in
  lru_wf t' /\ (length (order t') <= cap)%nat /\ vs ++ lru_values t' ≡ₚ lru_values t.
Proof.
  intros Hw. unfold evict_if_full.
  pose proof (evict_rounds_spec (length (order t)) cap t Hw (le_n _)) as H.
  destruct (evict_rounds _ cap t) as [vs t']. destruct H as (? & -> & ? & _).
  split_and!; [done|rewrite length_take; lia|done].
Qed.

(** The front entry survives when the capacity is positive; an absent key
    stays absent. *)
Lemma evict_front cap t e k l :
  lru_wf t -> (0 < cap)%nat -> order t = (e, k) :: l ->
  entries (evict_if_full cap t).2 !! k = entries t !! k.
Proof.
  intros Hw Hc Ho. unfold evict_if_full.
  pose proof (evict_rounds_spec (length (order t)) cap t Hw (le_n _)) as H.
  destruct (evict_rounds _ cap t) as [vs t']. destruct H as (_ & Ho' & _ & Hk & _). cbn.
  apply (Hk e). rewrite Ho', Ho. destruct cap; [lia|]. cbn. by left.
Qed.

Lemma evict_absent cap t k :
  lru_wf t -> entries t !! k = None -> entries (evict_if_full cap t).2 !! k = None.
Proof.
  intros Hw Hk. unfold evict_if_full.
  pose proof (evict_rounds_spec (length (order t)) cap t Hw (le_n _)) as H.
  destruct (evict_rounds _ cap t) as [vs t']. destruct H as (_ & _ & _ & _ & Hn). cbn. auto.
Qed.

(** Nothing is evicted below capacity. *)
Lemma evict_noop cap t : (length (order t) <= cap)%nat -> evict_if_full cap t = ([], t).
Proof.
  intros Hl. unfold evict_if_full. destruct (length (order t)) eqn:E; [done|]. cbn.
  rewrite E. by destruct (Nat.leb_spec (S n) cap); [|lia].
Qed.

(** ** Expiry *)

Lemma elem_foldr_remove (gone : list (Z * (V * Z))) l x :
  x ∈ foldr (λ kv, list_remove kv.2.2) l gone <-> x ∈ l /\ forall kv, kv ∈ gone -> x.1 <> kv.2.2.
Proof.
  induction gone as [|g gone IH]; cbn.
  - split; [|by intros [? _]]. intros H. split; [done|]. inversion 1.
  - rewrite elem_list_remove, IH. split.
    + intros [[? H] ?]. split; [done|]. intros kv [->|]%elem_of_cons; auto.
    + intros [? H]. split_and!; [done| |]; intros; apply H; [by right|by left].
Qed.

Lemma foldr_remove_nodup (gone : list (Z * (V * Z))) l :
  NoDup l.*1 -> NoDup (foldr (λ kv, list_remove kv.2.2) l gone).*1.
Proof. induction gone; cbn; [done|]. intros. by apply list_remove_nodup, IHgone. Qed.

Lemma elem_gone old t k v e :
  (k, (v, e)) ∈ filter (λ kv : Z * (V * Z), old kv.2.1 = true) (map_to_list (entries t)) <->
  entries t !! k = Some (v, e) /\ old v = true.
Proof. rewrite list_elem_of_filter, elem_of_map_to_list. cbn. tauto. Qed.

Lemma expire_spec old t :
  lru_wf t ->
  let '(vs, t') := lru_expire old t in
  lru_wf t' /\ vs ++ lru_values t' ≡ₚ lru_values t /\ Forall (λ v, old v = true) vs /\
  (forall k, lru_lookup k t' =
     match lru_lookup k t with Some v => if old v then None else Some v | None => None end).
Proof.
  intros Hw. unfold lru_expire. split_and!.
  - split; cbn.
    + by apply foldr_remove_nodup, Hw.
    + intros e k [H _]%elem_foldr_remove. by eapply wf_fresh.
    + intros k v e [H Ho]%map_lookup_filter_Some. apply elem_foldr_remove.
      pose proof (wf_map t Hw _ _ _ H) as Hin. split; [done|].
      intros [k' [v' e']] [Hg Hold]%elem_gone. cbn. intros <-.
      pose proof (wf_map t Hw _ _ _ Hg) as Hin'.
      assert (k' = k) as -> by (by eapply order_elem). cbn in Ho. congruence.
    + intros e k [Hin Hg]%elem_foldr_remove. destruct (wf_list t Hw _ _ Hin) as [v Hv].
      exists v. apply map_lookup_filter_Some. split; [done|]. cbn. intros Ho.
      by apply (Hg (k, (v, e))); [apply elem_gone|].
  - unfold lru_values. cbn [entries]. rewrite <- fmap_app. apply fmap_Permutation.
    rewrite map_filter_alt, map_to_list_to_map.
    + apply filter_app_complement.
    + apply NoDup_fmap_fst; [|apply list.NoDup_filter, NoDup_map_to_list].
      intros k v v'. rewrite !list_elem_of_filter, !elem_of_map_to_list. intros [_ ?] [_ ?]. congruence.
  - apply list.Forall_fmap, list.Forall_forall. intros [k [v e]] [_ Ho]%elem_gone. done.
  - intros k. unfold lru_lookup. cbn. rewrite map_lookup_filter.
    destruct (entries t !! k) as [[v e]|]; cbn; [|done].
    destruct (old v) eqn:Ho; [by rewrite option_guard_False by auto|].
    rewrite option_guard_True; [done|]. congruence.
Qed.

(** What is expired was old, what is kept was not. *)
Lemma expire_kept old t v :
  (v ∈ (lru_expire old t).1 -> old v = true) /\
  (v ∈ lru_values (lru_expire old t).2 -> old v = false).
Proof.
  unfold lru_expire, lru_values. cbn. split.
  - intros ([k [v' e]] & -> & [_ Ho]%elem_gone)%list_elem_of_fmap. done.
  - intros ([k [v' e]] & -> & Hin)%list_elem_of_fmap. apply elem_of_map_to_list in Hin.
    apply map_lookup_filter_Some in Hin as [_ Ho]. cbn in *. by destruct (old v').
Qed.

(** ** Contents *)

Lemma expire_gone old t k v :
  lru_lookup k t = Some v -> old v = true -> v ∈ (lru_expire old t).1.
Proof.
  unfold lru_lookup. destruct (entries t !! k) as [[v' e]|] eqn:E; [|done]. intros [= ->] Ho.
  apply list_elem_of_fmap. exists (k, (v, e)). split; [done|]. by apply elem_gone.
Qed.

Lemma values_push k v t :
  entries t !! k = None -> lru_values (lru_push k v t) ≡ₚ v :: lru_values t.
Proof. intros Hk. unfold lru_values, lru_push. cbn. by rewrite map_to_list_insert. Qed.

Lemma values_remove k v t :
  lru_lookup k t = Some v -> v :: lru_values (lru_remove k t) ≡ₚ lru_values t.
Proof.
  unfold lru_lookup, lru_remove, lru_values. destruct (entries t !! k) as [[v0 e]|] eqn:E; [|done].
  intros [= <-]. cbn. by rewrite <- (map_to_list_delete (entries t) k (v0, e) E).
Qed.

Lemma lookup_none k t : lru_lookup k t = None <-> entries t !! k = None.
Proof. unfold lru_lookup. by destruct (entries t !! k). Qed.

Lemma lookup_push k v t k' :
  lru_lookup k' (lru_push k v t) = if decide (k = k') then Some v else lru_lookup k' t.
Proof.
  unfold lru_lookup, lru_push. cbn. case_decide as H.
  - subst. by rewrite lookup_insert_eq.
  - by rewrite lookup_insert_ne.
Qed.

Lemma lookup_remove k t k' :
  lru_lookup k' (lru_remove k t) = if decide (k = k') then None else lru_lookup k' t.
Proof.
  unfold lru_lookup, lru_remove. destruct (entries t !! k) as [[v e]|] eqn:E; cbn.
  - case_decide; [subst; by rewrite lookup_delete_eq|by rewrite lookup_delete_ne].
  - case_decide; [subst; by rewrite E|done].
Qed.

End Lemmas.
