(* ===== verification/Collector.v ===== *)
(** * The event collector (daemon/event_collector.go)

    The daemon's consumer of the ring buffer: record dispatch (readLoop),
    reassembly of chunks (handleEvent), the pairing state machine
    (routeMainEvent, handleSideband, handleCookieSideband) and the sweeper.
    The fields one mutex protects are one record.  A handler, and a tick of
    the sweeper, is one step; the code also allows a tick between two critical
    sections of one handler, which the model does not have.  [None] is a
    run-time panic.  Calls of onEvent are collected in [emitted].  [now i] is the [i]-th reading of nowFn during a
    call, in nanoseconds.  The iteration order of a Go map is that of
    [map_to_list]; no theorem depends on it. *)

From S2P Require Import Prelude GoLang Records Lru Protocol.

(** ** Constants *)

Definition ChunkSize : Z := 0x400.
Definition MaxChunks : Z := 16.
Abbreviation StackRecordMagic := 0xDEADBEEFDEADBEEF%Z (only parsing).
Abbreviation evtKindMain := 1%Z (only parsing).
Abbreviation evtKindSideband := 2%Z (only parsing).
Abbreviation evtKindCookie := 3%Z (only parsing).
Abbreviation txFlagOneWay := 0x01%Z (only parsing).

Definition Second : Z := 1000000000.
Definition staleBufferTTL : Z := 5 * Second.
Abbreviation cleanupEveryNEvts := 256%Z (only parsing).
Abbreviation pendingStackTTL := (staleBufferTTL)%Z (only parsing).
Abbreviation pendingMainTTL := (5 * Second)%Z (only parsing).
Abbreviation pendingMainCapacity := (Z.to_nat 16384) (only parsing).
Abbreviation pendingOnewayTTL := (1 * Second)%Z (only parsing).
Abbreviation pendingOnewayCapacity := (Z.to_nat 4096) (only parsing).
Abbreviation recentOnewayEmitTTL := (1 * Second)%Z (only parsing).
Abbreviation recentOnewayCapacity := (Z.to_nat 4096) (only parsing).
Abbreviation recentCookieRingSize := (Z.to_nat 4096) (only parsing).
Abbreviation pendingCookieTTL := (staleBufferTTL)%Z (only parsing).
Abbreviation pendingCookieCapacity := (Z.to_nat 16384) (only parsing).

(** ** Data *)

Record txMeta := TxMeta {
  m_pid : Z; m_uid : Z; m_code : Z; m_flags : Z; m_dataSize : Z; m_isReply : Z;
  m_binderDev : Z; m_targetKind : Z; m_toPid : Z; m_toUid : Z; m_targetRef : Z;
  m_pairId : Z; m_cookie : Z }.

(** A chunk that has not arrived is nil. *)
Record txBuffer := TxBuffer { firstSeenNs : Z; chunks : list (option bytes); meta : txMeta }.

Record pendingStackEntry := PendingStack { ps_stack : stack_event; ps_receivedNs : Z }.
Record pendingMainEntry := PendingMain {
  pm_enqueuedNs : Z; pm_event : BinderEventPayload; pm_cookie : Z }.
Record pendingOnewayEntry := PendingOneway {
  po_enqueuedNs : Z; po_kernelDebugId : Z; po_toPid : Z; po_toUid : Z; po_toUidUnsupported : Z }.
Record recentOnewayEntry := RecentOneway { ro_enqueuedNs : Z }.
Record pendingCookieEntry := PendingCookie { pc_cookie : Z; pc_receivedNs : Z }.

(** pairFailureCounters *)
Record failures := Failures {
  entryEarlyReturn : Z; sidebandOrphan : Z; ringbufOverflowMain : Z;
  ringbufOverflowSideband : Z; cookieMonotonicViolation : Z; onewaySidebandLate : Z }.

(** The cookie duplicate check *)
Record cookie_window := CookieWindow {
  recentCookieSet : gset Z; recentCookieRing : list Z; recentCookieHead : nat }.

(** What stateMu protects *)
Record sm_state := SmState {
  pendingMain : lru_table pendingMainEntry;
  pendingMainByTxid : lru_table pendingMainEntry;
  pendingOneway : lru_table pendingOnewayEntry;
  recentOneway : lru_table recentOnewayEntry;
  window : cookie_window;
  fails : failures;
  legacyCookieZeroSyncEmit : bool }.

(** The symbolizer the collector calls; its caches are its own. *)
Record SymbolFrame := MkSymbolFrame {
  sf_PC : Z; sf_Module : bytes; sf_Symbol : bytes; sf_Offset : Z; sf_Quality : Z }.

Class SymbolizerI := {
  sym_state : Type;
  SymbolizeKernel : sym_state -> Z -> SymbolFrame * sym_state;
  SymbolizeUser : sym_state -> Z -> Z -> SymbolFrame * sym_state
}.

Record collector `{SymbolizerI} := Collector {
  transactionBuffers : gmap Z txBuffer;
  eventCounter : Z;
  pendingStack : gmap Z pendingStackEntry;
  pendingCookieByTxid : lru_table pendingCookieEntry;
  sm : sm_state;
  stackRecordOrphanCount : Z;
  baseRecordNoStackCount : Z;
  symbolizer : option sym_state;
  emitted : list BinderEventPayload
}.

(** ** Updates *)

Definition set_pendingMain t s := SmState t (pendingMainByTxid s) (pendingOneway s)
  (recentOneway s) (window s) (fails s) (legacyCookieZeroSyncEmit s).
Definition set_pendingMainByTxid t s := SmState (pendingMain s) t (pendingOneway s)
  (recentOneway s) (window s) (fails s) (legacyCookieZeroSyncEmit s).
Definition set_pendingOneway t s := SmState (pendingMain s) (pendingMainByTxid s) t
  (recentOneway s) (window s) (fails s) (legacyCookieZeroSyncEmit s).
Definition set_recentOneway t s := SmState (pendingMain s) (pendingMainByTxid s)
  (pendingOneway s) t (window s) (fails s) (legacyCookieZeroSyncEmit s).
Definition set_window w s := SmState (pendingMain s) (pendingMainByTxid s)
  (pendingOneway s) (recentOneway s) w (fails s) (legacyCookieZeroSyncEmit s).
Definition set_fails f s := SmState (pendingMain s) (pendingMainByTxid s)
  (pendingOneway s) (recentOneway s) (window s) f (legacyCookieZeroSyncEmit s).

(** [n] calls of Add(1) on the counter. *)
Definition add_entryEarlyReturn (n : nat) (s : sm_state) : sm_state :=
  let f := fails s in
  set_fails (Failures (u64 (entryEarlyReturn f + Z.of_nat n)) (sidebandOrphan f)
    (ringbufOverflowMain f) (ringbufOverflowSideband f) (cookieMonotonicViolation f)
    (onewaySidebandLate f)) s.
Definition add_sidebandOrphan (n : nat) (s : sm_state) : sm_state :=
  let f := fails s in
  set_fails (Failures (entryEarlyReturn f) (u64 (sidebandOrphan f + Z.of_nat n))
    (ringbufOverflowMain f) (ringbufOverflowSideband f) (cookieMonotonicViolation f)
    (onewaySidebandLate f)) s.
Definition add_cookieMonotonicViolation (s : sm_state) : sm_state :=
  let f := fails s in
  set_fails (Failures (entryEarlyReturn f) (sidebandOrphan f) (ringbufOverflowMain f)
    (ringbufOverflowSideband f) (u64 (cookieMonotonicViolation f + 1)) (onewaySidebandLate f)) s.
Definition add_onewaySidebandLate (s : sm_state) : sm_state :=
  let f := fails s in
  set_fails (Failures (entryEarlyReturn f) (sidebandOrphan f) (ringbufOverflowMain f)
    (ringbufOverflowSideband f) (cookieMonotonicViolation f) (u64 (onewaySidebandLate f + 1))) s.

(** ** The pairing state machine *)

(** applySideband: only fields that are still 0 are filled in. *)
Definition applySideband (ev : BinderEventPayload) (debugID toPid toUid toUidUnsupported : Z)
    : BinderEventPayload :=
  let pairId := if (PairId ev =? 0) && negb (debugID =? 0) then debugID else PairId ev in
  let toPid' := if (ToPid ev =? 0) && negb (toPid =? 0) then toPid else ToPid ev in
  let toUid' := if (toUidUnsupported =? 0) && negb (toUid =? 0) && (ToUid ev =? 0)
                then toUid else ToUid ev in
  MkEvent (Timestamp ev) (Pid ev) (Uid ev) (Code ev) (Flags ev) (DataSize ev) (IsReply ev)
    (BinderDev ev) (TargetKind ev) toPid' toUid' (TargetRef ev) pairId (ParcelData ev)
    (StackTrace_ ev).

Definition checkCookieDuplicate (cookie : Z) (s : sm_state) : sm_state :=
  let w := window s in
  if bool_decide (cookie ∈ recentCookieSet w) then add_cookieMonotonicViolation s
  else
    let old := default 0 (recentCookieRing w !! recentCookieHead w) in
    let set1 := if old =? 0 then recentCookieSet w else recentCookieSet w ∖ {[old]} in
    set_window (CookieWindow (set1 ∪ {[cookie]})
      (<[recentCookieHead w := cookie]> (recentCookieRing w))
      ((recentCookieHead w + 1) mod length (recentCookieRing w))%nat) s.

Definition recordRecentOnewayEmit (cookie nowNs : Z) (s : sm_state) : sm_state :=
  match lru_lookup cookie (recentOneway s) with
  | Some _ => set_recentOneway (lru_touch cookie (RecentOneway nowNs) (recentOneway s)) s
  | None =>
      set_recentOneway
        (evict_if_full recentOnewayCapacity
           (lru_push cookie (RecentOneway nowNs) (recentOneway s))).2 s
  end.

(** pe.listElem = pendingMainLRU.PushFront(cookie); pendingMain[cookie] = pe;
    then evictLRUIfFullCollect with evictPendingMainBackCollect *)
Definition push_pendingMain (cookie : Z) (pe : pendingMainEntry) (s : sm_state)
    : list BinderEventPayload * sm_state :=
  let '(evicted, t) := evict_if_full pendingMainCapacity (lru_push cookie pe (pendingMain s)) in
  (pm_event <$> evicted, add_entryEarlyReturn (length evicted) (set_pendingMain t s)).

(** The same for pendingMainByTxid, with evictPendingMainTxidBackCollect *)
Definition push_pendingMainByTxid (txid : Z) (pe : pendingMainEntry) (s : sm_state)
    : list BinderEventPayload * sm_state :=
  let '(evicted, t) :=
    evict_if_full pendingMainCapacity (lru_push txid pe (pendingMainByTxid s)) in
  (pm_event <$> evicted, add_entryEarlyReturn (length evicted) (set_pendingMainByTxid t s)).

Abbreviation isOneway ev := (negb (Z.land (Flags ev) txFlagOneWay =? 0)) (only parsing).

(** routeMainEvent: the events to emit, in order, and the new state. *)
Definition routeMainEvent (ev : BinderEventPayload) (cookie transactionId nowNs : Z) (s : sm_state)
    : list BinderEventPayload * sm_state :=
  if negb (IsReply ev =? 0) then ([ev], s)
  else if cookie =? 0 then
    if isOneway ev || (transactionId =? 0) || legacyCookieZeroSyncEmit s then ([ev], s)
    else
      let '(toEmit, s) :=
        match lru_lookup transactionId (pendingMainByTxid s) with
        | Some old =>
            ([pm_event old], add_entryEarlyReturn 1
               (set_pendingMainByTxid (lru_remove transactionId (pendingMainByTxid s)) s))
        | None => ([], s)
        end in
      let '(evicted, s) := push_pendingMainByTxid transactionId (PendingMain nowNs ev 0) s in
      (toEmit ++ evicted, s)
  else
    let s := checkCookieDuplicate cookie s in
    if isOneway ev then
      let '(ev, s) :=
        match lru_lookup cookie (pendingOneway s) with
        | Some pe =>
            (applySideband ev (po_kernelDebugId pe) (po_toPid pe) (po_toUid pe)
               (po_toUidUnsupported pe),
             set_pendingOneway (lru_remove cookie (pendingOneway s)) s)
        | None => (ev, s)
        end in
      ([ev], recordRecentOnewayEmit cookie nowNs s)
    else push_pendingMain cookie (PendingMain nowNs ev 0) s.

(** handleSideband under stateMu *)
Definition route_sideband (sb : sideband_event) (nowNs : Z) (s : sm_state)
    : list BinderEventPayload * sm_state :=
  let cookie := sb_cookie sb in
  match lru_lookup cookie (pendingMain s) with
  | Some pm =>
      ([applySideband (pm_event pm) (sb_kernel_debug_id sb) (sb_to_pid sb) (sb_to_uid sb)
          (sb_to_uid_unsupported sb)],
       set_pendingMain (lru_remove cookie (pendingMain s)) s)
  | None =>
      match lru_lookup cookie (pendingOneway s) with
      | Some _ => ([], add_sidebandOrphan 1
                         (set_pendingOneway (lru_remove cookie (pendingOneway s)) s))
      | None =>
          match lru_lookup cookie (recentOneway s) with
          | Some _ => ([], add_onewaySidebandLate s)
          | None =>
              let pe := PendingOneway nowNs (sb_kernel_debug_id sb) (sb_to_pid sb)
                          (sb_to_uid sb) (sb_to_uid_unsupported sb) in
              let '(evicted, t) :=
                evict_if_full pendingOnewayCapacity (lru_push cookie pe (pendingOneway s)) in
              ([], add_sidebandOrphan (length evicted) (set_pendingOneway t s))
          end
      end
  end.

(** The reactivation step of handleCookieSideband under stateMu, for a main
    event [pe] found in pendingMainByTxid *)
Definition reactivate (transactionId cookie : Z) (pe : pendingMainEntry) (s : sm_state)
    : list BinderEventPayload * sm_state :=
  let s := set_pendingMainByTxid (lru_remove transactionId (pendingMainByTxid s)) s in
  let '(toEmit, s) :=
    match lru_lookup cookie (pendingMain s) with
    | Some oldPe =>
        ([pm_event oldPe],
         add_entryEarlyReturn 1 (set_pendingMain (lru_remove cookie (pendingMain s)) s))
    | None => ([], s)
    end in
  let '(evicted, s) :=
    push_pendingMain cookie (PendingMain (pm_enqueuedNs pe) (pm_event pe) cookie) s in
  (toEmit ++ evicted, s).

(** runSweep *)
Definition runSweep (now : Z) (s : sm_state) : list BinderEventPayload * sm_state :=
  let '(m, t1) := lru_expire (λ pm, pm_enqueuedNs pm <? now - pendingMainTTL) (pendingMain s) in
  let '(x, t2) := lru_expire (λ pm, pm_enqueuedNs pm <? now - pendingMainTTL) (pendingMainByTxid s) in
  let '(o, t3) := lru_expire (λ pe, po_enqueuedNs pe <? now - pendingOnewayTTL) (pendingOneway s) in
  let '(_, t4) := lru_expire (λ re, ro_enqueuedNs re <? now - recentOnewayEmitTTL) (recentOneway s) in
  (pm_event <$> m ++ x,
   add_sidebandOrphan (length o) (add_entryEarlyReturn (length m + length x)
     (SmState t1 t2 t3 t4 (window s) (fails s) (legacyCookieZeroSyncEmit s)))).

(** syncRingbufOverflowFrom: [reader slot] is the per-CPU values of a slot,
    or an error, in which case the counter keeps its value. *)
Abbreviation percpu_total perCPU := (foldl (λ total v, u64 (total + v)) 0 perCPU) (only parsing).

Definition syncRingbufOverflowFrom (reader : Z -> option (list Z)) (s : sm_state) : sm_state :=
  let f := fails s in
  let m := match reader 0 with Some p => percpu_total p | None => ringbufOverflowMain f end in
  let b := match reader 1 with Some p => percpu_total p | None => ringbufOverflowSideband f end in
  set_fails (Failures (entryEarlyReturn f) (sidebandOrphan f) m b (cookieMonotonicViolation f)
    (onewaySidebandLate f)) s.

(** ** Stack records *)

Abbreviation bothFailedReason := ((λ a, Z.of_nat (Ascii.nat_of_ascii a)) <$>
  String.list_ascii_of_string "bpf_get_stack returned -1 for both kernel and user") (only parsing).

Abbreviation mergeChunks cs := (concat (default [] <$> cs)) (only parsing).

Abbreviation set_cookie m cookie := (TxMeta (m_pid m) (m_uid m) (m_code m) (m_flags m) (m_dataSize m) (m_isReply m)
    (m_binderDev m) (m_targetKind m) (m_toPid m) (m_toUid m) (m_targetRef m) (m_pairId m) cookie) (only parsing).

Abbreviation is_complete cs := (forallb (λ ch, match ch with Some _ => true | None => false end) cs) (only parsing).

Abbreviation main_payload nowNs m parcelData := (MkEvent nowNs (m_pid m) (m_uid m) (m_code m) (m_flags m) (u32 (len parcelData)) (m_isReply m)
    (m_binderDev m) (m_targetKind m) (m_toPid m) (m_toUid m) (m_targetRef m) (m_pairId m)
    parcelData None) (only parsing).

Section Handlers.
Context `{SI : SymbolizerI}.

Definition set_buffers b (c : collector) := Collector _ b (eventCounter c) (pendingStack c)
  (pendingCookieByTxid c) (sm c) (stackRecordOrphanCount c) (baseRecordNoStackCount c)
  (symbolizer c) (emitted c).
Definition set_eventCounter n (c : collector) := Collector _ (transactionBuffers c) n
  (pendingStack c) (pendingCookieByTxid c) (sm c) (stackRecordOrphanCount c)
  (baseRecordNoStackCount c) (symbolizer c) (emitted c).
Definition set_pendingStack p n (c : collector) := Collector _ (transactionBuffers c)
  (eventCounter c) p (pendingCookieByTxid c) (sm c) n (baseRecordNoStackCount c)
  (symbolizer c) (emitted c).
Definition set_pendingCookies t (c : collector) := Collector _ (transactionBuffers c)
  (eventCounter c) (pendingStack c) t (sm c) (stackRecordOrphanCount c)
  (baseRecordNoStackCount c) (symbolizer c) (emitted c).
Definition set_noStack n (c : collector) := Collector _ (transactionBuffers c) (eventCounter c)
  (pendingStack c) (pendingCookieByTxid c) (sm c) (stackRecordOrphanCount c) n
  (symbolizer c) (emitted c).
Definition set_symbolizer y (c : collector) := Collector _ (transactionBuffers c)
  (eventCounter c) (pendingStack c) (pendingCookieByTxid c) (sm c) (stackRecordOrphanCount c)
  (baseRecordNoStackCount c) y (emitted c).

(** A critical section of stateMu, and the calls of onEvent after it. *)
Definition with_sm (r : list BinderEventPayload * sm_state) (c : collector) : collector :=
  Collector _ (transactionBuffers c) (eventCounter c) (pendingStack c) (pendingCookieByTxid c)
    r.2 (stackRecordOrphanCount c) (baseRecordNoStackCount c) (symbolizer c) (emitted c ++ r.1).

(** evictStalePendingStack *)
Definition evictStalePendingStack (now : Z) (c : collector) : collector :=
  let stale (kv : Z * pendingStackEntry) := ps_receivedNs kv.2 < now - pendingStackTTL in
  set_pendingStack (filter (λ kv, ¬ stale kv) (pendingStack c))
    (u64 (stackRecordOrphanCount c + Z.of_nat (size (filter stale (pendingStack c))))) c.

Definition handleStackRecord (now : nat -> Z) (st : stack_event) (c : collector) : collector :=
  evictStalePendingStack (now 1%nat)
    (set_pendingStack (<[st_transaction_id st := PendingStack st (now 0%nat)]> (pendingStack c))
       (stackRecordOrphanCount c) c).

(** takePendingStack *)
Definition takePendingStack (txid : Z) (c : collector) : option stack_event * collector :=
  match pendingStack c !! txid with
  | Some p => (Some (ps_stack p),
               set_pendingStack (delete txid (pendingStack c)) (stackRecordOrphanCount c) c)
  | None => (None, c)
  end.

(** The loop over the first [depth] program counters; zero entries are
    skipped. *)
Fixpoint symbolize_pcs (sym : sym_state -> Z -> SymbolFrame * sym_state) (y : option sym_state)
    (pcs : list Z) : list StackFrame * option sym_state :=
  match pcs with
  | [] => ([], y)
  | pc :: pcs =>
      if pc =? 0 then symbolize_pcs sym y pcs
      else
        let '(frame, y) :=
          match y with
          | Some s => let '(f, s) := sym s pc in (f, Some s)
          | None => (MkSymbolFrame pc [] [] 0 StackQualityFailed, None)
          end in
        let '(out, y) := symbolize_pcs sym y pcs in
        (MkStackFrame (sf_PC frame) (sf_Module frame) (sf_Symbol frame) (sf_Offset frame) :: out, y)
  end.

Definition aggregateQuality (kf uf : list StackFrame) (s : option sym_state) : Z :=
  match s with
  | None => StackQualityDegraded
  | Some _ =>
      match kf ++ uf with
      | [] => StackQualityFailed
      | frames =>
          if existsb (λ f, (len (Module_ f) =? 0)) frames then StackQualityDegraded
          else if existsb (λ f, (len (Symbol f) =? 0) && negb (len (Module_ f) =? 0)) frames
          then StackQualityFpOnly else StackQualityFull
      end
  end.

(** "bpf_get_stack returned -1 for both kernel and user" *)

Definition symbolizeStackEvent (st : stack_event) (y : option sym_state)
    : StackTrace * option sym_state :=
  if (st_kstack_depth st <? 0) && (st_ustack_depth st <? 0)
  then (MkStackTrace StackQualityFailed 0 [] [] bothFailedReason, y)
  else
    let '(kf, tr, y) :=
      if 0 <=? st_kstack_depth st then
        let '(f, y) := symbolize_pcs SymbolizeKernel y
                         (take (Z.to_nat (st_kstack_depth st)) (st_kstack st)) in
        (f, if 32 <=? st_kstack_depth st then Z.lor 0 0x01 else 0, y)
      else ([], 0, y) in
    let '(uf, tr, y) :=
      if 0 <=? st_ustack_depth st then
        let '(f, y) := symbolize_pcs (λ s pc, SymbolizeUser s (st_pid st) pc) y
                         (take (Z.to_nat (st_ustack_depth st)) (st_ustack st)) in
        (f, if 32 <=? st_ustack_depth st then Z.lor tr 0x02 else tr, y)
      else ([], tr, y) in
    (MkStackTrace (aggregateQuality kf uf y) tr kf uf [], y).

(** ** Main events *)

(** make([][]byte, n): 24 bytes an element; the run-time panics beyond its
    maximal allocation of 2^48 bytes. *)
Definition make_chunks (n : Z) : option (list (option bytes)) :=
  if n * 24 <=? 2 ^ 48 then Some (replicate (Z.to_nat n) None) else None.

Definition totalChunks (dataSize : Z) : Z := u64 (u64 (dataSize + ChunkSize) - 1) / ChunkSize.

Definition meta_of (event : main_event) : txMeta :=
  TxMeta (ev_pid event) (ev_uid event) (ev_code event) (ev_flags event) (ev_data_size event)
    (ev_is_reply event) (ev_binder_dev event) (ev_target_kind event) (ev_to_pid event)
    (ev_to_uid event) (ev_target_ref event) (ev_pair_id event) (ev_cookie event).


(** The buffer of the event's transaction, created with the first chunk; a
    pending cookie is injected then. *)
Definition open_buffer (nowNs : Z) (event : main_event) (c : collector)
    : option (txBuffer * collector) :=
  let transactionId := ev_transaction_id event in
  match transactionBuffers c !! transactionId with
  | Some buf => Some (buf, c)
  | None =>
      cs ← make_chunks (totalChunks (ev_data_size event));
      let m := meta_of event in
      if m_cookie m =? 0 then
        match lru_lookup transactionId (pendingCookieByTxid c) with
        | Some pe =>
            Some (TxBuffer nowNs cs (set_cookie m (pc_cookie pe)),
                  set_pendingCookies (lru_remove transactionId (pendingCookieByTxid c)) c)
        | None => Some (TxBuffer nowNs cs m, c)
        end
      else Some (TxBuffer nowNs cs m, c)
  end.

(** chunks[event.ChunkIndex] = data, guarded by int(ChunkIndex) < len. *)
Definition store_chunk (event : main_event) (cs : list (option bytes))
    : option (list (option bytes)) :=
  let i := ev_chunk_index event in
  if s64 i <? Z.of_nat (length cs) then
    if i <? Z.of_nat (length cs) then Some (<[Z.to_nat i := Some (ev_chunk_data event)]> cs)
    else None
  else Some cs.




(** The pending stack of the transaction is symbolized and attached. *)
Definition attach_stack (transactionId : Z) (ev : BinderEventPayload) (c : collector)
    : BinderEventPayload * collector :=
  match takePendingStack transactionId c with
  | (Some st, c) =>
      let '(trace, y) := symbolizeStackEvent st (symbolizer c) in
      (with_stack ev (Some trace), set_symbolizer y c)
  | (None, c) => (ev, set_noStack (u64 (baseRecordNoStackCount c + 1)) c)
  end.

(** evictStalePendingCookies *)
Definition evictStalePendingCookies (now : Z) (c : collector) : collector :=
  set_pendingCookies
    (lru_expire (λ p, pc_receivedNs p <? now - pendingCookieTTL) (pendingCookieByTxid c)).2 c.

(** maybeCleanup *)
Definition maybeCleanup (now : nat -> Z) (c : collector) : collector :=
  let c := set_eventCounter (u32 (eventCounter c + 1)) c in
  if negb (eventCounter c mod cleanupEveryNEvts =? 0) then c
  else
    let c := set_buffers
      (filter (λ kv, ¬ (firstSeenNs kv.2 < now 0%nat - staleBufferTTL)) (transactionBuffers c)) c in
    evictStalePendingCookies (now 2%nat) (evictStalePendingStack (now 1%nat) c).

(** What happens to the merged data of a complete transaction. *)
Definition finish_transaction (now : nat -> Z) (transactionId : Z) (buf : txBuffer) (c : collector)
    : option collector :=
  let completeData := mergeChunks (chunks buf) in
  let m := meta buf in
  let c := set_buffers (delete transactionId (transactionBuffers c)) c in
  if (len completeData <=? 16) || (ChunkSize * MaxChunks <? len completeData)
  then Some (maybeCleanup now c)
  else if (m_dataSize m =? 0) || (len completeData <? s64 (m_dataSize m))
  then Some (maybeCleanup now c)
  else
    parcelData ← subslice completeData 0 (m_dataSize m);
    let '(ev, c) := attach_stack transactionId (main_payload (now 0%nat) m parcelData) c in
    Some (maybeCleanup now
            (with_sm (routeMainEvent ev (m_cookie m) transactionId (now 0%nat) (sm c)) c)).

Definition handleEvent (now : nat -> Z) (event : main_event) (c : collector) : option collector :=
  let transactionId := ev_transaction_id event in
  '(buf, c) ← open_buffer (now 0%nat) event c;
  cs ← store_chunk event (chunks buf);
  let buf := TxBuffer (firstSeenNs buf) cs (meta buf) in
  let c := set_buffers (<[transactionId := buf]> (transactionBuffers c)) c in
  if is_complete cs then finish_transaction now transactionId buf c
  else Some (maybeCleanup now c).

(** ** Sidebands *)

Definition handleSideband (now : nat -> Z) (sb : sideband_event) (c : collector) : collector :=
  with_sm (route_sideband sb (now 0%nat) (sm c)) c.

(** Case b of handleCookieSideband: the cookie waits for its main event. *)
Definition store_cookie (now : nat -> Z) (transactionId cookie : Z) (c : collector) : collector :=
  let t := pendingCookieByTxid c in
  let pe := PendingCookie cookie (now 0%nat) in
  let t := match lru_lookup transactionId t with
           | Some _ => lru_touch transactionId pe t
           | None => lru_push transactionId pe t
           end in
  evictStalePendingCookies (now 1%nat)
    (set_pendingCookies (evict_if_full pendingCookieCapacity t).2 c).

Definition handleCookieSideband (now : nat -> Z) (cs : cookie_sideband) (c : collector) : collector :=
  let transactionId := cs_transaction_id_hint cs in
  let cookie := cs_cookie cs in
  if (transactionId =? 0) || (cookie =? 0) then c
  else
    let inject :=
      match transactionBuffers c !! transactionId with
      | Some buf => if m_cookie (meta buf) =? 0 then Some buf else None
      | None => None
      end in
    match inject with
    | Some buf =>
        set_buffers (<[transactionId := TxBuffer (firstSeenNs buf) (chunks buf)
                         (set_cookie (meta buf) cookie)]> (transactionBuffers c)) c
    | None =>
        match lru_lookup transactionId (pendingMainByTxid (sm c)) with
        | Some pe => with_sm (reactivate transactionId cookie pe (sm c)) c
        | None => store_cookie now transactionId cookie c
        end
    end.

(** ** The loops *)

(** One tick of sweepLoop; syncRingbufOverflow reads [reader]. *)
Definition sweep_tick (now : nat -> Z) (reader : Z -> option (list Z)) (c : collector) : collector :=
  let c := with_sm (runSweep (now 0%nat) (sm c)) c in
  let c := with_sm ([], syncRingbufOverflowFrom reader (sm c)) c in
  evictStalePendingCookies (now 2%nat) (evictStalePendingStack (now 1%nat) c).

(** One record in readLoop: stack records by their magic, the others by
    their first byte; a record that cannot be parsed is logged and skipped. *)
Definition handleRecord `{B : Bpf2Go} (now : nat -> Z) (raw : bytes) (c : collector)
    : option collector :=
  if len raw <? 1 then Some c
  else if (8 <=? len raw) && (le_val (take 8 raw) =? StackRecordMagic) then
    if len raw <? sizeof_stack_event then Some c
    else match read_stack raw with
         | Some st => Some (handleStackRecord now st c)
         | None => Some c
         end
  else
    kind ← index raw 0;
    if kind =? evtKindMain then
      match read_main raw with Some event => handleEvent now event c | None => Some c end
    else if kind =? evtKindSideband then
      match read_sideband raw with Some sb => Some (handleSideband now sb c) | None => Some c end
    else if kind =? evtKindCookie then
      match read_cookie raw with
      | Some cs => Some (handleCookieSideband now cs c)
      | None => Some c
      end
    else Some c.

(** NewEventCollector *)
Definition NewEventCollector (y : option sym_state) : collector :=
  Collector _ ∅ 0 ∅ lru_empty
    (SmState lru_empty lru_empty lru_empty lru_empty
       (CookieWindow ∅ (replicate recentCookieRingSize 0) 0) (Failures 0 0 0 0 0 0) false)
    0 0 y [].

End Handlers.
