(* ===== verification/Pairing.v ===== *)
(** * The pairing state machine: invariants

    The tables of the state machine stay in step with their LRU lists and
    within capacity, and no event is lost or duplicated: what is emitted and
    what is held is, up to the fields the sideband fills in, what came in. *)

From S2P Require Import Prelude GoLang Records Lru Protocol Collector.

(** ** Invariants *)

Record sm_wf (s : sm_state) : Prop := SmWf {
  wf_pendingMain : lru_wf (pendingMain s);
  wf_pendingMainByTxid : lru_wf (pendingMainByTxid s);
  wf_pendingOneway : lru_wf (pendingOneway s);
  wf_recentOneway : lru_wf (recentOneway s);
  cap_pendingMain : (length (order (pendingMain s)) <= pendingMainCapacity)%nat;
  cap_pendingMainByTxid : (length (order (pendingMainByTxid s)) <= pendingMainCapacity)%nat;
  cap_pendingOneway : (length (order (pendingOneway s)) <= pendingOnewayCapacity)%nat;
  cap_recentOneway : (length (order (recentOneway s)) <= recentOnewayCapacity)%nat }.

(** An event without the fields that applySideband fills in. *)
Definition origin (ev : BinderEventPayload) : BinderEventPayload :=
  MkEvent (Timestamp ev) (Pid ev) (Uid ev) (Code ev) (Flags ev) (DataSize ev) (IsReply ev)
    (BinderDev ev) (TargetKind ev) 0 0 (TargetRef ev) 0 (ParcelData ev) (StackTrace_ ev).

(** The events the state machine holds back. *)
Definition held (s : sm_state) : list BinderEventPayload :=
  pm_event <$> (lru_values (pendingMain s) ++ lru_values (pendingMainByTxid s)).

(** A transition that takes in the events [inn]: nothing is lost. *)
Definition conserves (inn : list BinderEventPayload) (s : sm_state)
    (r : list BinderEventPayload * sm_state) : Prop :=
  origin <$> (r.1 ++ held r.2) ≡ₚ origin <$> (inn ++ held s).

Lemma origin_applySideband ev a b c d : origin (applySideband ev a b c d) = origin ev.
Proof. done. Qed.

(** A table operation that removes one entry does not lengthen the list. *)
Lemma length_list_remove e l : (length (list_remove e l) <= length l)%nat.
Proof. unfold list_remove. induction l as [|x l IH]; cbn; [lia|]. destruct (x.1 =? e); cbn; lia. Qed.

Lemma length_remove {V} k (t : lru_table V) : (length (order (lru_remove k t)) <= length (order t))%nat.
Proof.
  unfold lru_remove. destruct (entries t !! k) as [[v e]|]; [|lia]. apply length_list_remove.
Qed.

Lemma length_expire {V} old (t : lru_table V) :
  (length (order (lru_expire old t).2) <= length (order t))%nat.
Proof.
  unfold lru_expire. cbn [snd order].
  induction (filter _ _) as [|g gs IH]; cbn [foldr]; [lia|].
  etrans; [apply length_list_remove|done].
Qed.

Lemma length_touch {V} k v (t : lru_table V) :
  lru_wf t -> (length (order (lru_touch k v t)) <= length (order t))%nat.
Proof.
  intros Hw. unfold lru_touch. destruct (entries t !! k) as [[v0 e]|] eqn:E; [|lia].
  pose proof (wf_map t Hw _ _ _ E) as Hin. cbn [order].
  rewrite (find_elem e (order t) k) by (done || apply Hw). cbn [length].
  pose proof (wf_nodup t Hw) as Hnd. clear E Hw. revert Hin Hnd.
  induction (order t) as [|[a b] l IH]; [inversion 1|]. cbn. intros Hin [Ha Hnd]%list.NoDup_cons.
  destruct (Z.eqb_spec a e) as [->|Hne]; cbn.
  - pose proof (length_list_remove e l). unfold list_remove in *. lia.
  - apply elem_of_cons in Hin as [[= -> ->]|Hin]; [done|]. specialize (IH Hin Hnd).
    unfold list_remove in *. lia.
Qed.

(** ** Building blocks *)

Lemma push_main_wf cookie pe s :
  sm_wf s -> entries (pendingMain s) !! cookie = None -> sm_wf (push_pendingMain cookie pe s).2.
Proof.
  intros Hs Hn. unfold push_pendingMain.
  pose proof (evict_spec pendingMainCapacity _ (lru_wf_push cookie pe _ (wf_pendingMain s Hs) Hn)) as H.
  destruct (evict_if_full _ _) as [vs t]. destruct H as (? & ? & _). destruct Hs. by split.
Qed.

Lemma push_main_conserves cookie pe s :
  sm_wf s -> entries (pendingMain s) !! cookie = None ->
  conserves [pm_event pe] s (push_pendingMain cookie pe s).
Proof.
  intros Hs Hn. unfold push_pendingMain, conserves, held.
  pose proof (evict_spec pendingMainCapacity _ (lru_wf_push cookie pe _ (wf_pendingMain s Hs) Hn)) as H.
  destruct (evict_if_full _ _) as [vs t]. destruct H as (_ & _ & Hv). cbn.
  rewrite <- !fmap_app, !app_assoc, Hv, values_push by done. done.
Qed.

Lemma push_txid_wf txid pe s :
  sm_wf s -> entries (pendingMainByTxid s) !! txid = None ->
  sm_wf (push_pendingMainByTxid txid pe s).2.
Proof.
  intros Hs Hn. unfold push_pendingMainByTxid.
  pose proof (evict_spec pendingMainCapacity _
    (lru_wf_push txid pe _ (wf_pendingMainByTxid s Hs) Hn)) as H.
  destruct (evict_if_full _ _) as [vs t]. destruct H as (? & ? & _). destruct Hs. by split.
Qed.

Lemma push_txid_conserves txid pe s :
  sm_wf s -> entries (pendingMainByTxid s) !! txid = None ->
  conserves [pm_event pe] s (push_pendingMainByTxid txid pe s).
Proof.
  intros Hs Hn. unfold push_pendingMainByTxid, conserves, held.
  pose proof (evict_spec pendingMainCapacity _
    (lru_wf_push txid pe _ (wf_pendingMainByTxid s Hs) Hn)) as H.
  destruct (evict_if_full _ _) as [vs t]. destruct H as (_ & _ & Hv). cbn.
  rewrite <- !fmap_app, (Permutation_app_swap_app vs), Hv, values_push by done.
  by rewrite <- Permutation_middle.
Qed.

Lemma remove_main_wf k s : sm_wf s -> sm_wf (set_pendingMain (lru_remove k (pendingMain s)) s).
Proof.
  intros []. split; cbn; try done; [by apply lru_wf_remove|]. etrans; [apply length_remove|done].
Qed.

Lemma remove_txid_wf k s :
  sm_wf s -> sm_wf (set_pendingMainByTxid (lru_remove k (pendingMainByTxid s)) s).
Proof.
  intros []. split; cbn; try done; [by apply lru_wf_remove|]. etrans; [apply length_remove|done].
Qed.

Lemma remove_oneway_wf k s : sm_wf s -> sm_wf (set_pendingOneway (lru_remove k (pendingOneway s)) s).
Proof.
  intros []. split; cbn; try done; [by apply lru_wf_remove|]. etrans; [apply length_remove|done].
Qed.

Lemma fails_wf f s : sm_wf s -> sm_wf (set_fails f s).
Proof. intros []. by split. Qed.

Lemma window_wf w s : sm_wf s -> sm_wf (set_window w s).
Proof. intros []. by split. Qed.

Lemma check_wf cookie s : sm_wf s -> sm_wf (checkCookieDuplicate cookie s).
Proof.
  intros. unfold checkCookieDuplicate, add_cookieMonotonicViolation.
  case_match; auto using fails_wf, window_wf.
Qed.

Lemma check_tables cookie s :
  let s' := checkCookieDuplicate cookie s in
  pendingMain s' = pendingMain s /\ pendingMainByTxid s' = pendingMainByTxid s /\
  pendingOneway s' = pendingOneway s /\ recentOneway s' = recentOneway s.
Proof. unfold checkCookieDuplicate. by case_match. Qed.

Lemma record_wf cookie now s : sm_wf s -> sm_wf (recordRecentOnewayEmit cookie now s).
Proof.
  intros []. unfold recordRecentOnewayEmit.
  destruct (lru_lookup cookie (recentOneway s)) eqn:E.
  - split; cbn; try done; [by apply lru_wf_touch|]. etrans; [by apply length_touch|done].
  - apply lookup_none in E.
    pose proof (evict_spec recentOnewayCapacity _ (lru_wf_push cookie (RecentOneway now) _
      wf_recentOneway0 E)) as H.
    destruct (evict_if_full _ _) as [vs t]. destruct H as (? & ? & _). by split.
Qed.

Lemma held_same s s' :
  pendingMain s' = pendingMain s -> pendingMainByTxid s' = pendingMainByTxid s -> held s' = held s.
Proof. unfold held. by intros -> ->. Qed.

Lemma held_remove_main k pm s :
  lru_lookup k (pendingMain s) = Some pm ->
  pm_event pm :: held (set_pendingMain (lru_remove k (pendingMain s)) s) ≡ₚ held s.
Proof. intros H. unfold held. cbn. by rewrite <- (values_remove k pm (pendingMain s) H). Qed.

Lemma held_remove_txid k pm s :
  lru_lookup k (pendingMainByTxid s) = Some pm ->
  pm_event pm :: held (set_pendingMainByTxid (lru_remove k (pendingMainByTxid s)) s) ≡ₚ held s.
Proof.
  intros H. unfold held. cbn. rewrite <- (values_remove k pm (pendingMainByTxid s) H), !fmap_app.
  cbn. by rewrite <- Permutation_middle.
Qed.

(** ** Transitions *)

(** The condition under which a main event can be routed without clobbering
    a table entry: a SYNC request does not reuse a cookie that is held. *)
Definition cookie_free (ev : BinderEventPayload) (cookie : Z) (s : sm_state) : Prop :=
  IsReply ev = 0 -> cookie <> 0 -> isOneway ev = false -> lru_lookup cookie (pendingMain s) = None.

Lemma route_main_cases ev cookie txid now s :
  routeMainEvent ev cookie txid now s = ([ev], s) \/
  (IsReply ev = 0 /\ cookie = 0 /\
   routeMainEvent ev cookie txid now s =
   match lru_lookup txid (pendingMainByTxid s) with
   | Some old =>
       let s1 := add_entryEarlyReturn 1
                   (set_pendingMainByTxid (lru_remove txid (pendingMainByTxid s)) s) in
       let r := push_pendingMainByTxid txid (PendingMain now ev 0) s1 in
       (pm_event old :: r.1, r.2)
   | None => push_pendingMainByTxid txid (PendingMain now ev 0) s
   end) \/
  (IsReply ev = 0 /\ cookie <> 0 /\ isOneway ev = true /\
   exists ev' s', routeMainEvent ev cookie txid now s = ([ev'], recordRecentOnewayEmit cookie now s') /\
     origin ev' = origin ev /\
     (s' = checkCookieDuplicate cookie s \/
      s' = set_pendingOneway (lru_remove cookie (pendingOneway s)) (checkCookieDuplicate cookie s))) \/
  (IsReply ev = 0 /\ cookie <> 0 /\ isOneway ev = false /\
   routeMainEvent ev cookie txid now s =
   push_pendingMain cookie (PendingMain now ev 0) (checkCookieDuplicate cookie s)).
Proof.
  unfold routeMainEvent. destruct (Z.eqb_spec (IsReply ev) 0); cbn [negb]; [|auto].
  destruct (Z.eqb_spec cookie 0) as [->|Hc].
  - case_match; [auto|]. right; left. split_and!; [done..|].
    destruct (lru_lookup txid (pendingMainByTxid s)) as [old|]; cbv zeta;
      by destruct (push_pendingMainByTxid _ _ _).
  - right; right. destruct (isOneway ev) eqn:Ho.
    + left. split_and!; [done..|]. destruct (check_tables cookie s) as (_ & _ & Hpo & _). rewrite Hpo.
      destruct (lru_lookup cookie (pendingOneway s)) as [pe|]; eexists _, _; (split; [done|]); auto.
    + right. auto.
Qed.

Lemma route_main_wf ev cookie txid now s :
  sm_wf s -> cookie_free ev cookie s -> sm_wf (routeMainEvent ev cookie txid now s).2.
Proof.
  intros Hs Hfree. pose proof (check_wf cookie s Hs) as Hck.
  destruct (route_main_cases ev cookie txid now s) as
    [-> |[(_ & _ & ->)|[(_ & _ & _ & ev' & s' & -> & _ & Hs')|(Hr & Hc & Ho & ->)]]].
  - done.
  - destruct (lru_lookup txid (pendingMainByTxid s)) eqn:E; cbn [snd].
    + apply push_txid_wf; [by apply fails_wf, remove_txid_wf|]. cbn.
      apply lookup_none. by rewrite lookup_remove, decide_True.
    + apply push_txid_wf; [done|]. by apply lookup_none.
  - cbn. apply record_wf. destruct Hs' as [-> | ->]; [done|].
    destruct (check_tables cookie s) as (_ & _ & <- & _). by apply remove_oneway_wf.
  - apply push_main_wf; [done|]. destruct (check_tables cookie s) as (-> & _).
    apply lookup_none. auto.
Qed.

Lemma record_tables cookie now s :
  pendingMain (recordRecentOnewayEmit cookie now s) = pendingMain s /\
  pendingMainByTxid (recordRecentOnewayEmit cookie now s) = pendingMainByTxid s.
Proof. unfold recordRecentOnewayEmit. by case_match. Qed.

Lemma route_main_conserves ev cookie txid now s :
  sm_wf s -> cookie_free ev cookie s -> conserves [ev] s (routeMainEvent ev cookie txid now s).
Proof.
  intros Hs Hfree. pose proof (check_wf cookie s Hs) as Hck.
  destruct (check_tables cookie s) as (Hpm & Hpt & _ & _).
  destruct (route_main_cases ev cookie txid now s) as
    [-> |[(_ & _ & ->)|[(_ & _ & _ & ev' & s' & -> & Ho' & Hs')|(Hr & Hc & Ho & ->)]]].
  - unfold conserves. reflexivity.
  - destruct (lru_lookup txid (pendingMainByTxid s)) as [old|] eqn:E; cbn zeta.
    + match goal with |- context [push_pendingMainByTxid txid ?p ?x] =>
        pose proof (push_txid_conserves txid p x) as H end.
      unfold conserves in *. cbn [fst snd app fmap list_fmap] in *. rewrite H; clear H.
      * cbn [app pm_event fmap list_fmap]. rewrite (Permutation_swap (origin ev)).
        constructor. change (held (add_entryEarlyReturn _ ?x)) with (held x).
        by rewrite <- fmap_cons, (held_remove_txid txid old s E).
      * by apply fails_wf, remove_txid_wf.
      * cbn. apply lookup_none. by rewrite lookup_remove, decide_True.
    + apply push_txid_conserves; [done|]. by apply lookup_none.
  - unfold conserves. cbn [fst snd]. destruct (record_tables cookie now s') as [H1 H2].
    rewrite (held_same s (recordRecentOnewayEmit cookie now s')).
    + cbn. by rewrite Ho'.
    + rewrite H1. by destruct Hs' as [-> | ->].
    + rewrite H2. by destruct Hs' as [-> | ->].
  - pose proof (push_main_conserves cookie (PendingMain now ev 0) (checkCookieDuplicate cookie s) Hck) as H.
    unfold conserves in *. rewrite H by (rewrite Hpm; apply lookup_none; auto).
    by rewrite (held_same s (checkCookieDuplicate cookie s)).
Qed.

Lemma route_sideband_wf sb now s : sm_wf s -> sm_wf (route_sideband sb now s).2.
Proof.
  intros Hs. unfold route_sideband. destruct (lru_lookup _ (pendingMain s)); [by apply remove_main_wf|].
  destruct (lru_lookup _ (pendingOneway s)) eqn:E; [by apply fails_wf, remove_oneway_wf|].
  destruct (lru_lookup _ (recentOneway s)); [by apply fails_wf|]. apply lookup_none in E.
  match goal with |- context [lru_push ?k ?v ?t] =>
    pose proof (evict_spec pendingOnewayCapacity _ (lru_wf_push k v t (wf_pendingOneway s Hs) E)) as H end.
  destruct (evict_if_full _ _) as [vs t]. destruct H as (? & ? & _). destruct Hs. by split.
Qed.

Lemma route_sideband_conserves sb now s : sm_wf s -> conserves [] s (route_sideband sb now s).
Proof.
  intros Hs. unfold route_sideband, conserves.
  destruct (lru_lookup _ (pendingMain s)) as [pm|] eqn:E.
  - cbn [fst snd app fmap list_fmap]. rewrite origin_applySideband, <- fmap_cons.
    by rewrite (held_remove_main _ _ _ E).
  - destruct (lru_lookup _ (pendingOneway s)); [done|]. destruct (lru_lookup _ (recentOneway s)); [done|].
    by destruct (evict_if_full _ _).
Qed.

Lemma reactivate_wf txid cookie pe s : sm_wf s -> sm_wf (reactivate txid cookie pe s).2.
Proof.
  intros Hs. unfold reactivate. pose proof (remove_txid_wf txid s Hs) as Hs1.
  destruct (lru_lookup cookie _) eqn:E.
  - match goal with |- context [push_pendingMain ?c ?p ?x] => pose proof (push_main_wf c p x) as H end.
    destruct (push_pendingMain _ _ _). cbn in *. apply H.
    + by apply fails_wf, (remove_main_wf cookie (set_pendingMainByTxid _ s)).
    + apply lookup_none. by rewrite lookup_remove, decide_True.
  - match goal with |- context [push_pendingMain ?c ?p ?x] => pose proof (push_main_wf c p x) as H end.
    destruct (push_pendingMain _ _ _). cbn in *. apply H; [done|]. by apply lookup_none.
Qed.

Lemma reactivate_conserves txid cookie pe s :
  sm_wf s -> lru_lookup txid (pendingMainByTxid s) = Some pe ->
  conserves [] s (reactivate txid cookie pe s).
Proof.
  intros Hs Hpe. unfold reactivate, conserves. pose proof (remove_txid_wf txid s Hs) as Hs1.
  cbn [app]. rewrite <- (held_remove_txid txid pe s Hpe).
  destruct (lru_lookup cookie _) as [old|] eqn:E.
  - match goal with |- context [push_pendingMain ?c ?p ?x] =>
      pose proof (push_main_conserves c p x) as H end.
    unfold conserves in H. destruct (push_pendingMain _ _ _) as [vs s']. cbn [fst snd app] in *.
    rewrite fmap_cons, H; clear H.
    + cbn [pm_event app]. rewrite fmap_cons, (Permutation_swap (origin (pm_event pe))).
      rewrite fmap_cons. constructor. rewrite <- fmap_cons.
      by rewrite <- (held_remove_main cookie old _ E).
    + by apply fails_wf, (remove_main_wf cookie (set_pendingMainByTxid _ s)).
    + apply lookup_none. cbn. by rewrite lookup_remove, decide_True.
  - match goal with |- context [push_pendingMain ?c ?p ?x] =>
      pose proof (push_main_conserves c p x) as H end.
    unfold conserves in H. destruct (push_pendingMain _ _ _) as [vs s']. cbn [fst snd app] in *.
    rewrite H; [done|done|]. by apply lookup_none.
Qed.

Lemma runSweep_wf now s : sm_wf s -> sm_wf (runSweep now s).2.
Proof.
  intros []. unfold runSweep.
  repeat match goal with |- context [let '(_, _) := lru_expire ?f ?t in _] =>
    pose proof (expire_spec f t ltac:(done)); pose proof (length_expire f t);
    destruct (lru_expire f t) end.
  destruct_and!. split; cbn in *; (done || lia).
Qed.

Lemma runSweep_conserves now s : sm_wf s -> conserves [] s (runSweep now s).
Proof.
  intros Hs. unfold runSweep, conserves, held.
  pose proof (expire_spec (λ pm, pm_enqueuedNs pm <? now - pendingMainTTL) _ (wf_pendingMain s Hs)) as H1.
  pose proof (expire_spec (λ pm, pm_enqueuedNs pm <? now - pendingMainTTL) _ (wf_pendingMainByTxid s Hs)) as H2.
  destruct (lru_expire _ (pendingMain s)) as [m t1], (lru_expire _ (pendingMainByTxid s)) as [x t2].
  destruct (lru_expire _ (pendingOneway s)), (lru_expire _ (recentOneway s)).
  destruct H1 as (_ & H1 & _), H2 as (_ & H2 & _). cbn [fst snd pendingMain pendingMainByTxid app
    add_sidebandOrphan add_entryEarlyReturn set_fails].
  rewrite <- !fmap_app, <- H1, <- H2, <- !app_assoc.
  by rewrite (Permutation_app_swap_app x (lru_values t1)).
Qed.

(** ** Runs *)

(** One transition: the main events taken in, the events emitted. *)
Inductive sm_step : sm_state -> list BinderEventPayload -> list BinderEventPayload -> sm_state -> Prop :=
| StepMain s ev cookie txid now :
    cookie_free ev cookie s ->
    sm_step s [ev] (routeMainEvent ev cookie txid now s).1 (routeMainEvent ev cookie txid now s).2
| StepSideband s sb now :
    sm_step s [] (route_sideband sb now s).1 (route_sideband sb now s).2
| StepReactivate s txid cookie pe :
    lru_lookup txid (pendingMainByTxid s) = Some pe ->
    sm_step s [] (reactivate txid cookie pe s).1 (reactivate txid cookie pe s).2
| StepSweep s now :
    sm_step s [] (runSweep now s).1 (runSweep now s).2.

Inductive sm_run : sm_state -> list BinderEventPayload -> list BinderEventPayload -> sm_state -> Prop :=
| RunNil s : sm_run s [] [] s
| RunStep s1 inn out s2 inns outs s3 :
    sm_step s1 inn out s2 -> sm_run s2 inns outs s3 -> sm_run s1 (inn ++ inns) (out ++ outs) s3.

Lemma step_wf s inn out s' : sm_step s inn out s' -> sm_wf s -> sm_wf s'.
Proof.
  intros [] Hs; auto using route_main_wf, route_sideband_wf, reactivate_wf, runSweep_wf.
Qed.

Lemma step_conserves s inn out s' :
  sm_step s inn out s' -> sm_wf s -> origin <$> (out ++ held s') ≡ₚ origin <$> (inn ++ held s).
Proof.
  intros [] Hs; [by apply route_main_conserves|by apply route_sideband_conserves
    |by apply reactivate_conserves|by apply runSweep_conserves].
Qed.

(** ** The cookie window *)

(** The ring, oldest entry first. *)
Definition queue (w : cookie_window) : list Z :=
  drop (recentCookieHead w) (recentCookieRing w) ++ take (recentCookieHead w) (recentCookieRing w).

(** The set holds the non-zero entries of the ring, which are distinct. *)
Record window_ok (w : cookie_window) : Prop := WindowOk {
  wo_head : (recentCookieHead w < length (recentCookieRing w))%nat;
  wo_set x : x ∈ recentCookieSet w <-> x <> 0 /\ x ∈ queue w;
  wo_nodup i j x : queue w !! i = Some x -> queue w !! j = Some x -> x <> 0 -> i = j }.

Lemma queue_cons w :
  (recentCookieHead w < length (recentCookieRing w))%nat ->
  exists rest, queue w = default 0 (recentCookieRing w !! recentCookieHead w) :: rest /\
    forall cookie, queue (CookieWindow (recentCookieSet w)
      (<[recentCookieHead w := cookie]> (recentCookieRing w))
      ((recentCookieHead w + 1) mod length (recentCookieRing w))%nat) = rest ++ [cookie].
Proof.
  destruct w as [set ring h]. unfold queue. cbn. intros Hh.
  destruct (lookup_lt_is_Some_2 ring h Hh) as [x Hx]. rewrite Hx. cbn [default].
  exists (drop (S h) ring ++ take h ring). split; [by rewrite (drop_S ring x h Hx)|].
  intros cookie. destruct (Nat.eq_dec (S h) (length ring)) as [E|E].
  - replace ((h + 1) mod length ring)%nat with 0%nat
      by (replace (h + 1)%nat with (length ring) by lia; by rewrite Nat.Div0.mod_same).
    rewrite drop_0, take_0, app_nil_r, (drop_ge ring) by lia. cbn [app].
    rewrite insert_take_drop by lia. by rewrite (drop_ge ring (S h)) by lia.
  - rewrite Nat.mod_small by lia. replace (h + 1)%nat with (S h) by lia.
    rewrite drop_insert_lt by lia. rewrite <- app_assoc. f_equal.
    rewrite (take_S_r _ _ cookie) by (by rewrite list_lookup_insert_eq).
    by rewrite take_insert_ge by lia.
Qed.

(** checkCookieDuplicate on the window. *)
Lemma check_window cookie s :
  window_ok (window s) -> cookie <> 0 ->
  let s' := checkCookieDuplicate cookie s in
  window_ok (window s') /\
  if bool_decide (cookie ∈ queue (window s))
  then window s' = window s /\
       cookieMonotonicViolation (fails s') = u64 (cookieMonotonicViolation (fails s) + 1)
  else queue (window s') = tail (queue (window s)) ++ [cookie] /\ fails s' = fails s.
Proof.
  intros [Hh Hset Hnd] Hc s'. unfold s', checkCookieDuplicate.
  assert (Hiff : cookie ∈ recentCookieSet (window s) <-> cookie ∈ queue (window s))
    by (rewrite Hset; tauto).
  rewrite (bool_decide_ext _ _ Hiff). case_bool_decide as Hin; [by split|].
  destruct (queue_cons (window s) Hh) as (rest & Hq & Hq').
  set (w := window s) in *. set (old := default 0 (recentCookieRing w !! recentCookieHead w)) in *.
  specialize (Hq' cookie). unfold queue in Hq'. cbn in Hq'. split; [|split; [|done]].
  2: { rewrite Hq. exact Hq'. }
  rewrite Hq in Hin, Hset, Hnd. apply not_elem_of_cons in Hin as [Hco Hcr]. split; cbn.
  - rewrite length_insert. apply Nat.mod_upper_bound. lia.
  - intros x. unfold queue. cbn. rewrite Hq', elem_of_app, list_elem_of_singleton.
    rewrite elem_of_union, elem_of_singleton.
    assert (Hold : x ∈ (if old =? 0 then recentCookieSet w else recentCookieSet w ∖ {[old]}) <->
      x <> 0 /\ x ∈ rest); [|rewrite Hold; clear -Hc; intuition congruence].
    bdestr; [|rewrite elem_of_difference, elem_of_singleton]; rewrite Hset, elem_of_cons; clear Hset Hiff.
    + intuition congruence.
    + split; [intuition congruence|]. intros [Hx Hr]. split; [by auto|]. intros ->.
      apply list_elem_of_lookup in Hr as [i Hi].
      by specialize (Hnd 0%nat (S i) old eq_refl Hi Hx).
  - unfold queue. cbn. rewrite Hq'. intros i j x Hi Hj Hx.
    assert (Hcase : forall k, (rest ++ [cookie]) !! k = Some x ->
      (rest !! k = Some x /\ x <> cookie) \/ (k = length rest /\ x = cookie)).
    { intros k [Hk|[? Hk]]%lookup_app_Some.
      - left. split; [done|]. intros ->. by apply Hcr; eapply list_elem_of_lookup_2.
      - right. apply list_lookup_singleton_Some in Hk as [? ->]. split; [lia|done]. }
    destruct (Hcase i Hi) as [[Hi' Hne]|[-> ->]], (Hcase j Hj) as [[Hj' ?]|[-> ?]]; try done.
    assert (S i = S j) as E; [by apply (Hnd (S i) (S j) x)|lia].
Qed.

(** The specification of the check: a first-in first-out list of at most [n]
    cookies, newest first. *)
Definition fifo_step (n : nat) (q : list Z) (cookie : Z) : list Z :=
  if bool_decide (cookie ∈ q) then q else take n (cookie :: q).

Fixpoint fifo_dups (n : nat) (q : list Z) (cookies : list Z) : nat :=
  match cookies with
  | [] => 0
  | cookie :: cookies =>
      (if bool_decide (cookie ∈ q) then 1 else 0) + fifo_dups n (fifo_step n q cookie) cookies
  end.

(** The window holds [q] in a ring of [n] slots, unused slots first. *)
Definition window_holds (n : nat) (w : cookie_window) (q : list Z) : Prop :=
  window_ok w /\ (length q <= n)%nat /\ Forall (λ x, x <> 0) q /\
  queue w = replicate (n - length q) 0 ++ reverse q.

Lemma window_step n s q cookie :
  (0 < n)%nat -> cookie <> 0 -> window_holds n (window s) q ->
  let s' := checkCookieDuplicate cookie s in
  window_holds n (window s') (fifo_step n q cookie) /\
  cookieMonotonicViolation (fails s') =
    (if bool_decide (cookie ∈ q) then u64 (cookieMonotonicViolation (fails s) + 1)
     else cookieMonotonicViolation (fails s)).
Proof.
  intros Hn Hc (Hok & Hlen & Hnz & Hq) s'.
  destruct (check_window cookie s Hok Hc) as [Hok' Hs']. fold s' in Hok', Hs'.
  assert (Hiff : cookie ∈ queue (window s) <-> cookie ∈ q).
  { rewrite Hq, elem_of_app, elem_of_reverse. split; [|auto].
    intros [[H _]%elem_of_replicate|]; [done|auto]. }
  rewrite (bool_decide_ext _ _ Hiff) in Hs'. unfold fifo_step.
  case_bool_decide as Hin; destruct Hs' as [Hw Hf]; [by rewrite Hw|]. split; [|by rewrite Hf].
  split; [done|]. rewrite length_take. cbn [length]. split; [lia|].
  split; [apply Forall_take; by constructor|]. rewrite Hw, Hq.
  destruct (Nat.eq_dec (length q) n) as [E|E].
  - replace (n - length q)%nat with 0%nat by lia. replace (n - _)%nat with 0%nat by lia. cbn [replicate app].
    destruct q as [|x q0 _] using rev_ind; [cbn in E; lia|].
    rewrite reverse_snoc. cbn [tail]. rewrite length_app in E. cbn in E.
    destruct n as [|n]; [lia|]. cbn [take]. rewrite reverse_cons, take_app_le by lia.
    by rewrite take_ge by lia.
  - replace (n - length q)%nat with (S (n - S (length q))) by lia. cbn [replicate app tail].
    replace (n - Nat.min n (S (length q)))%nat with (n - S (length q))%nat by lia.
    rewrite take_ge by (cbn; lia). by rewrite reverse_cons, <- app_assoc.
Qed.

(** ** Properties *)

Definition sm_init : sm_state :=
  SmState lru_empty lru_empty lru_empty lru_empty
    (CookieWindow ∅ (replicate recentCookieRingSize 0) 0) (Failures 0 0 0 0 0 0) false.

Lemma sm_init_wf : sm_wf sm_init.
Proof. split; cbn; (apply lru_wf_empty || lia). Qed.

(** A SYNC request and a reply with the given timestamp. *)
Definition sample_main (ts isReply : Z) : BinderEventPayload :=
  MkEvent ts 1200 10123 7 0x10 4 isReply 1 0 0 0 1 0 [1; 2; 3; 4] None.

(** C8: In every run of the pairing state machine (main events, sidebands,
    cookie reactivations and sweeps in any order, as long as a SYNC request
    does not reuse a cookie that is still held), the tables stay in step with
    their LRU lists and within capacity, and every main event that came in
    is emitted exactly once or still held, up to the receiver fields a
    sideband fills in. *)
Theorem events_conserved s inns outs s' :
  sm_wf s -> sm_run s inns outs s' ->
  sm_wf s' /\ origin <$> (outs ++ held s') ≡ₚ origin <$> (inns ++ held s).
Proof.
  intros Hs Hrun. revert Hs. induction Hrun as [s|s1 inn out s2 inns outs s3 Hstep _ IH]; intros Hs; [done|].
  destruct (IH (step_wf _ _ _ _ Hstep Hs)) as [Hw Hc]. split; [done|].
  pose proof (step_conserves _ _ _ _ Hstep Hs) as Hc1.
  rewrite <- !app_assoc, fmap_app, Hc, <- fmap_app.
  rewrite (Permutation_app_swap_app out), fmap_app, Hc1, <- fmap_app.
  by rewrite (Permutation_app_swap_app inns).
Qed.

Lemma events_conserved_witness :
  let ev := sample_main 1000 0 in
  let s1 := (routeMainEvent ev 515 42 1000 sm_init).2 in
  let s2 := (route_sideband (SidebandEvent 0 515 77 1500 1000) 2000 s1).2 in
  sm_wf s2 /\
  origin <$> ([applySideband ev 77 1500 1000 0] ++ held s2) ≡ₚ origin <$> ([ev] ++ held sm_init).
Proof.
  intros ev s1 s2.
  apply (events_conserved sm_init [ev] [applySideband ev 77 1500 1000 0] s2).
  - apply sm_init_wf.
  - apply (RunStep sm_init [ev] (routeMainEvent ev 515 42 1000 sm_init).1 s1 []
             [applySideband ev 77 1500 1000 0] s2).
    + apply StepMain. intros _ _ _. reflexivity.
    + apply (RunStep s1 [] (route_sideband (SidebandEvent 0 515 77 1500 1000) 2000 s1).1 s2 [] [] s2);
        [apply StepSideband|apply RunNil].
Defined.

(** A SYNC request that reuses a cookie still held in pendingMain
    overwrites the older event: it is neither emitted nor held any more, and
    the LRU list keeps an element for it. *)
Theorem duplicate_cookie_loses_event :
  let r1 := routeMainEvent (sample_main 1000 0) 515 42 1000 sm_init in
  let r2 := routeMainEvent (sample_main 2000 0) 515 43 2000 r1.2 in
  r1.1 = [] /\ r2.1 = [] /\ held r1.2 = [sample_main 1000 0] /\ held r2.2 = [sample_main 2000 0] /\
  length (order (pendingMain r2.2)) = 2%nat /\ entryEarlyReturn (fails r2.2) = 0.
Proof. vm_compute. done. Qed.

(** A sweep emits every held event that has waited longer than 5 seconds
    and keeps every other one, so that after a sweep nothing held is older
    than the TTL. *)
Theorem sweep_flushes_expired now s pm :
  sm_wf s ->
  pm ∈ lru_values (pendingMain s) ++ lru_values (pendingMainByTxid s) ->
  let r := runSweep now s in
  (pm_enqueuedNs pm < now - pendingMainTTL -> pm_event pm ∈ r.1) /\
  (now - pendingMainTTL <= pm_enqueuedNs pm ->
     pm ∈ lru_values (pendingMain r.2) ++ lru_values (pendingMainByTxid r.2)).
Proof.
  intros Hs Hin r. subst r. unfold runSweep. set (old := λ pm, pm_enqueuedNs pm <? now - pendingMainTTL).
  pose proof (expire_spec old _ (wf_pendingMain s Hs)) as H1.
  pose proof (expire_spec old _ (wf_pendingMainByTxid s Hs)) as H2.
  pose proof (expire_kept old (pendingMain s)) as K1.
  pose proof (expire_kept old (pendingMainByTxid s)) as K2.
  destruct (lru_expire old (pendingMain s)) as [m t1], (lru_expire old (pendingMainByTxid s)) as [x t2].
  destruct (lru_expire _ (pendingOneway s)), (lru_expire _ (recentOneway s)).
  destruct H1 as (_ & H1 & _), H2 as (_ & H2 & _). cbn [fst snd] in *.
  cbn [pendingMain pendingMainByTxid add_sidebandOrphan add_entryEarlyReturn set_fails].
  rewrite <- H1, <- H2, !elem_of_app in Hin. split; intros Ht.
  - apply list_elem_of_fmap. exists pm. split; [done|]. apply elem_of_app.
    assert (old pm = true) by (apply Z.ltb_lt; done).
    destruct Hin as [[?|Hk]|[?|Hk]]; auto; [apply K1 in Hk|apply K2 in Hk]; congruence.
  - apply elem_of_app. assert (old pm = false) by (apply Z.ltb_ge; done).
    destruct Hin as [[Hk|?]|[Hk|?]]; auto; [apply K1 in Hk|apply K2 in Hk]; congruence.
Qed.

Lemma sweep_flushes_expired_witness :
  let s := (routeMainEvent (sample_main 1000 0) 515 42 1000 sm_init).2 in
  let r := runSweep (1001 + pendingMainTTL) s in
  r.1 = [sample_main 1000 0] /\ sample_main 1000 0 ∈ r.1.
Proof.
  intros s r. split; [vm_compute; reflexivity|].
  apply (sweep_flushes_expired (1001 + pendingMainTTL) s (PendingMain 1000 (sample_main 1000 0) 0)).
  - apply route_main_wf; [apply sm_init_wf|]. intros _ _ _. reflexivity.
  - apply elem_of_app. left. vm_compute. left.
  - vm_compute. reflexivity.
Defined.

(** The duplicate check over any sequence of non-zero cookies counts
    exactly the cookies that are among the last 4096 distinct ones: its ring,
    head index and set implement a bounded first-in first-out list. *)
Theorem cookie_window_refines_fifo s q cookies :
  window_holds recentCookieRingSize (window s) q -> Forall (λ x, x <> 0) cookies ->
  let s' := foldl (λ s cookie, checkCookieDuplicate cookie s) s cookies in
  window_holds recentCookieRingSize (window s')
    (foldl (fifo_step recentCookieRingSize) q cookies) /\
  wrap 64 (cookieMonotonicViolation (fails s')) =
    wrap 64 (cookieMonotonicViolation (fails s) +
             Z.of_nat (fifo_dups recentCookieRingSize q cookies)).
Proof.
  intros Hw Hnz. revert s q Hw. induction Hnz as [|cookie cookies Hc _ IH]; intros s q Hw; cbn.
  { by rewrite Z.add_0_r. }
  destruct (window_step recentCookieRingSize s q cookie) as [Hw' Hv]; [vm_compute; lia|done|done|].
  destruct (IH _ _ Hw') as [Hw'' Hv'']. split; [exact Hw''|]. rewrite Hv'', Hv.
  case_bool_decide; [|by rewrite Nat.add_0_l].
  unfold u64, wrap. rewrite Zplus_mod_idemp_l. f_equal. lia.
Qed.

Lemma cookie_window_refines_fifo_witness :
  let s' := foldl (λ s cookie, checkCookieDuplicate cookie s) sm_init [515; 771; 515] in
  cookieMonotonicViolation (fails s') = 1 /\
  wrap 64 (cookieMonotonicViolation (fails s')) = wrap 64 (0 + 1).
Proof.
  intros s'. split; [vm_compute; reflexivity|].
  apply (cookie_window_refines_fifo sm_init [] [515; 771; 515]).
  - split; [split; [vm_compute; lia| |]|].
    + intros x. cbn. rewrite app_nil_r. split; [intros []%elem_of_empty|].
      intros [Hx [H _]%elem_of_replicate]. done.
    + intros i j x. cbn. rewrite app_nil_r. intros [-> _]%lookup_replicate. done.
    + split; [vm_compute; lia|]. split; [apply Forall_nil|]. cbn. rewrite drop_0, app_nil_r.
      change (length []) with 0%nat. rewrite Nat.sub_0_r. reflexivity.
  - repeat (apply Forall_cons; [lia|]). apply Forall_nil.
Defined.
