(* ===== verification/Reassembly.v ===== *)
(** * Reassembly of chunked transactions

    [handle] is one input of the collector, [run] a sequence of them.  The
    buffer of a transaction holds exactly the chunks received so far,
    whatever else the collector handles in between, and the chunk that
    completes it routes an event whose parcel is the chunk data in order, cut
    at the declared size.  The handlers do not panic on records whose
    declared size is below 2^42. *)

From S2P Require Import Prelude GoLang Records Lru Protocol Collector.

Inductive input :=
| IStack (st : stack_event)
| IMain (e : main_event)
| ISideband (sb : sideband_event)
| ICookie (cs : cookie_sideband)
| ISweep (reader : Z -> option (list Z)).

Section Reassembly.
Context `{SI : SymbolizerI}.

Definition handle (now : nat -> Z) (i : input) (c : collector) : option collector :=
  match i with
  | IStack st => Some (handleStackRecord now st c)
  | IMain e => handleEvent now e c
  | ISideband sb => Some (handleSideband now sb c)
  | ICookie cs => Some (handleCookieSideband now cs c)
  | ISweep reader => Some (sweep_tick now reader c)
  end.

Fixpoint run (l : list ((nat -> Z) * input)) (c : collector) : option collector :=
  match l with
  | [] => Some c
  | (now, i) :: l => c ← handle now i c; run l c
  end.

(** All clock readings within 5 seconds of [t0]. *)
Definition in_window (t0 : Z) (now : nat -> Z) : Prop :=
  forall k, t0 <= now k <= t0 + staleBufferTTL.

(** ** Panics *)

Definition sane_event (e : main_event) : Prop :=
  0 <= ev_data_size e < 2 ^ 42 /\ 0 <= ev_chunk_index e < 2 ^ 63.

Definition buffers_sane (b : gmap Z txBuffer) : Prop :=
  forall k buf, b !! k = Some buf -> 0 <= m_dataSize (meta buf) < 2 ^ 63.

Lemma s64_small z : 0 <= z < 2 ^ 63 -> s64 z = z.
Proof.
  intros Hz. unfold s64, signed. rewrite wrap_small by (unfold fits; lia).
  change (2 ^ (64 - 1)) with (2 ^ 63). bdestr; lia.
Qed.

Lemma totalChunks_small ds : 0 <= ds < 2 ^ 42 -> totalChunks ds = (ds + ChunkSize - 1) / ChunkSize.
Proof.
  intros Hd. unfold totalChunks, ChunkSize, u64.
  rewrite (wrap_small 64 (ds + 1024)), (wrap_small 64) by (unfold fits; lia). done.
Qed.

Lemma make_chunks_small ds :
  0 <= ds < 2 ^ 42 ->
  make_chunks (totalChunks ds) = Some (replicate (Z.to_nat ((ds + ChunkSize - 1) / ChunkSize)) None).
Proof.
  intros Hd. rewrite totalChunks_small by done. unfold make_chunks.
  assert ((ds + ChunkSize - 1) / ChunkSize <= 2 ^ 33).
  { unfold ChunkSize. apply Z.div_le_upper_bound; lia. }
  destruct (Z.leb_spec ((ds + ChunkSize - 1) / ChunkSize * 24) (2 ^ 48)); [done|lia].
Qed.

(** The first chunk of a transaction: a buffer with no chunks. *)
Lemma open_buffer_new now e c :
  transactionBuffers c !! ev_transaction_id e = None -> 0 <= ev_data_size e < 2 ^ 42 ->
  exists m c',
    open_buffer now e c = Some (TxBuffer now (replicate (Z.to_nat ((ev_data_size e + ChunkSize - 1)
      / ChunkSize)) None) m, c') /\
    set_cookie m 0 = set_cookie (meta_of e) 0 /\
    transactionBuffers c' = transactionBuffers c /\ sm c' = sm c /\ emitted c' = emitted c /\
    pendingStack c' = pendingStack c /\ symbolizer c' = symbolizer c /\
    (lru_lookup (ev_transaction_id e) (pendingCookieByTxid c) = None ->
     m = meta_of e /\ pendingCookieByTxid c' = pendingCookieByTxid c).
Proof.
  intros Hn Hd. unfold open_buffer. rewrite Hn, make_chunks_small by done. cbn [mbind option_bind].
  destruct (m_cookie (meta_of e) =? 0); [|eexists _, _; by split_and!].
  destruct (lru_lookup _ (pendingCookieByTxid c)); eexists _, _; by split_and!.
Qed.

Lemma store_chunk_small e cs :
  0 <= ev_chunk_index e < 2 ^ 63 ->
  store_chunk e cs = Some (<[Z.to_nat (ev_chunk_index e) := Some (ev_chunk_data e)]> cs).
Proof.
  intros Hi. unfold store_chunk. rewrite s64_small by done. bdestr; [done|].
  rewrite list_insert_ge by lia. done.
Qed.

(** ** Frames *)

(** maybeCleanup keeps the buffers that are younger than the TTL. *)
Lemma cleanup_buffers now c k buf :
  transactionBuffers c !! k = Some buf -> now 0%nat - staleBufferTTL <= firstSeenNs buf ->
  transactionBuffers (maybeCleanup now c) !! k = Some buf.
Proof.
  intros Hk Ht. unfold maybeCleanup. case_match; [done|]. cbn.
  apply map_lookup_filter_Some. split; [done|]. cbn. lia.
Qed.

Lemma cleanup_buffers_sub now c k buf :
  transactionBuffers (maybeCleanup now c) !! k = Some buf -> transactionBuffers c !! k = Some buf.
Proof.
  unfold maybeCleanup. case_match; [done|]. cbn. by intros [? _]%map_lookup_filter_Some.
Qed.

Lemma attach_buffers txid ev c :
  transactionBuffers (attach_stack txid ev c).2 = transactionBuffers c.
Proof.
  unfold attach_stack, takePendingStack. destruct (pendingStack c !! txid); [|done].
  by destruct (symbolizeStackEvent _ _).
Qed.

(** finish_transaction only takes its own buffer out. *)
Lemma finish_buffers now txid buf c c' :
  finish_transaction now txid buf c = Some c' ->
  exists c1, c' = maybeCleanup now c1 /\ transactionBuffers c1 = delete txid (transactionBuffers c).
Proof.
  unfold finish_transaction. case_match; [intros [= <-]; by eexists|].
  case_match; [intros [= <-]; by eexists|].
  destruct (subslice _ _ _) as [p|]; [|done]. cbn [mbind option_bind].
  match goal with |- context [attach_stack ?t ?e ?x] =>
    pose proof (attach_buffers t e x) as Ha; destruct (attach_stack t e x) as [ev c1] end.
  intros [= <-]. eexists. split; [done|]. exact Ha.
Qed.

Lemma finish_total now txid buf c :
  0 <= m_dataSize (meta buf) < 2 ^ 63 -> exists c', finish_transaction now txid buf c = Some c'.
Proof.
  intros Hd. unfold finish_transaction. case_match; [eauto|].
  rewrite s64_small by done. destruct (Z.eqb_spec (m_dataSize (meta buf)) 0); cbn [orb]; [eauto|].
  destruct (Z.ltb_spec (len (mergeChunks (chunks buf))) (m_dataSize (meta buf))); [eauto|].
  destruct (subslice_in_range (mergeChunks (chunks buf)) 0 (m_dataSize (meta buf))) as (p & -> & _);
    [lia|lia|]. cbn [mbind option_bind]. destruct (attach_stack _ _ _). eauto.
Qed.

Lemma open_buffer_buffers now e c buf c1 :
  open_buffer now e c = Some (buf, c1) -> transactionBuffers c1 = transactionBuffers c.
Proof.
  unfold open_buffer. destruct (transactionBuffers c !! _); [by intros [= <- <-]|].
  destruct (make_chunks _); [|done]. cbn [mbind option_bind].
  repeat case_match; by intros [= <- <-].
Qed.

(** handleEvent touches no buffer but its own, except through the cleanup. *)
Lemma handleEvent_other now e c c' txid :
  handleEvent now e c = Some c' -> ev_transaction_id e <> txid ->
  exists c1, c' = maybeCleanup now c1 /\ transactionBuffers c1 !! txid = transactionBuffers c !! txid.
Proof.
  intros H Hne. unfold handleEvent in H.
  destruct (open_buffer _ _ _) as [[buf c1]|] eqn:E; [|done]. cbn [mbind option_bind] in H.
  apply open_buffer_buffers in E. destruct (store_chunk _ _) as [cs|]; [|done].
  cbn [mbind option_bind] in H. destruct (is_complete cs).
  - apply finish_buffers in H as (c2 & -> & Hb). exists c2. split; [done|]. rewrite Hb. cbn.
    by rewrite lookup_delete_ne, lookup_insert_ne, E.
  - injection H as <-. eexists. split; [done|]. cbn. by rewrite lookup_insert_ne, E.
Qed.

(** Two states of a buffer that differ at most in the injected cookie. *)
Definition same_buf (b b' : txBuffer) : Prop :=
  firstSeenNs b' = firstSeenNs b /\ chunks b' = chunks b /\
  set_cookie (meta b') 0 = set_cookie (meta b) 0.

Lemma same_buf_refl b : same_buf b b.
Proof. by split_and!. Qed.

Ltac unchanged b := exists b; split; [done|apply same_buf_refl].

Lemma cookie_frame now cs c txid buf :
  transactionBuffers c !! txid = Some buf ->
  exists buf', transactionBuffers (handleCookieSideband now cs c) !! txid = Some buf' /\
    same_buf buf buf'.
Proof.
  intros Hb. unfold handleCookieSideband.
  destruct ((cs_transaction_id_hint cs =? 0) || (cs_cookie cs =? 0)); [unchanged buf|].
  destruct (transactionBuffers c !! cs_transaction_id_hint cs) as [b|] eqn:Eb;
    [destruct (m_cookie (meta b) =? 0)|].
  - cbn. destruct (decide (cs_transaction_id_hint cs = txid)) as [<-|Hne].
    + rewrite lookup_insert_eq. eexists. split; [done|]. replace buf with b by congruence.
      by split_and!.
    + rewrite lookup_insert_ne by done. unchanged buf.
  - destruct (lru_lookup _ (pendingMainByTxid (sm c))); unchanged buf.
  - destruct (lru_lookup _ (pendingMainByTxid (sm c))); unchanged buf.
Qed.

Lemma handle_frame t0 now i c c' txid buf :
  in_window t0 now -> t0 <= firstSeenNs buf ->
  (forall e, i = IMain e -> ev_transaction_id e <> txid) ->
  handle now i c = Some c' -> transactionBuffers c !! txid = Some buf ->
  exists buf', transactionBuffers c' !! txid = Some buf' /\ same_buf buf buf'.
Proof.
  intros Hw Ht Hne H Hb. destruct i; cbn [handle] in H.
  - injection H as <-. unchanged buf.
  - apply (handleEvent_other now e c c' txid) in H as (c1 & -> & Hc1); [|by apply Hne].
    exists buf. split; [|apply same_buf_refl]. apply cleanup_buffers; [by rewrite Hc1|].
    specialize (Hw 0%nat). lia.
  - injection H as <-. unchanged buf.
  - injection H as <-. by apply cookie_frame.
  - injection H as <-. unchanged buf.
Qed.

(** ** Totality *)

Definition sane_input (i : input) : Prop := match i with IMain e => sane_event e | _ => True end.

Lemma cleanup_sane now c :
  buffers_sane (transactionBuffers c) -> buffers_sane (transactionBuffers (maybeCleanup now c)).
Proof. intros Hs k buf H%cleanup_buffers_sub. eauto. Qed.

Lemma open_buffer_sane now e c :
  sane_event e -> buffers_sane (transactionBuffers c) ->
  exists buf c1, open_buffer now e c = Some (buf, c1) /\ 0 <= m_dataSize (meta buf) < 2 ^ 63.
Proof.
  intros [Hd _] Hs. destruct (transactionBuffers c !! ev_transaction_id e) as [buf|] eqn:E.
  - unfold open_buffer. rewrite E. eexists _, _. split; [done|]. eauto.
  - destruct (open_buffer_new now e c E Hd) as (m & c1 & -> & Hm & _). eexists _, _.
    split; [done|]. cbn. apply (f_equal m_dataSize) in Hm. cbn in Hm. rewrite Hm. lia.
Qed.

Lemma handleEvent_total now e c :
  sane_event e -> buffers_sane (transactionBuffers c) ->
  exists c', handleEvent now e c = Some c' /\ buffers_sane (transactionBuffers c').
Proof.
  intros He Hs. unfold handleEvent.
  destruct (open_buffer_sane (now 0%nat) e c He Hs) as (buf & c1 & E & Hd). rewrite E.
  apply open_buffer_buffers in E. cbn [mbind option_bind].
  rewrite store_chunk_small by apply He. cbn [mbind option_bind].
  set (b1 := TxBuffer _ _ _). assert (Hb1 : 0 <= m_dataSize (meta b1) < 2 ^ 63) by exact Hd.
  assert (Hi : buffers_sane (<[ev_transaction_id e := b1]> (transactionBuffers c1))).
  { intros k b [[<- <-]|[_ Hl]]%lookup_insert_Some; [done|]. rewrite E in Hl. eauto. }
  case_match.
  - destruct (finish_total now (ev_transaction_id e) b1
      (set_buffers (<[ev_transaction_id e := b1]> (transactionBuffers c1)) c1) Hb1) as [c' Hc'].
    exists c'. split; [done|]. apply finish_buffers in Hc' as (c2 & -> & Hc2).
    apply cleanup_sane. rewrite Hc2. intros k b [_ Hl]%lookup_delete_Some. by apply (Hi k).
  - eexists. split; [done|]. by apply cleanup_sane.
Qed.

Lemma handle_total now i c :
  sane_input i -> buffers_sane (transactionBuffers c) ->
  exists c', handle now i c = Some c' /\ buffers_sane (transactionBuffers c').
Proof.
  intros Hi Hs. destruct i; cbn in *; [by eexists|by apply handleEvent_total|by eexists| |by eexists].
  eexists. split; [done|]. intros k buf. unfold handleCookieSideband.
  destruct ((cs_transaction_id_hint cs =? 0) || (cs_cookie cs =? 0)); [apply Hs|].
  destruct (transactionBuffers c !! cs_transaction_id_hint cs) as [b|] eqn:Eb;
    [destruct (m_cookie (meta b) =? 0)|].
  - cbn. intros [[<- <-]|[_ H']]%lookup_insert_Some; [by apply (Hs _ b Eb)|by apply (Hs k)].
  - destruct (lru_lookup _ (pendingMainByTxid (sm c))); apply Hs.
  - destruct (lru_lookup _ (pendingMainByTxid (sm c))); apply Hs.
Qed.

Lemma handle_frame_none now i c c' txid :
  (forall e, i = IMain e -> ev_transaction_id e <> txid) ->
  handle now i c = Some c' -> transactionBuffers c !! txid = None ->
  transactionBuffers c' !! txid = None.
Proof.
  intros Hne H Hb. destruct i; cbn [handle] in H.
  - by injection H as <-.
  - apply (handleEvent_other now e c c' txid) in H as (c1 & -> & Hc1); [|by apply Hne].
    destruct (transactionBuffers (maybeCleanup now c1) !! txid) eqn:E; [|done].
    apply cleanup_buffers_sub in E. congruence.
  - by injection H as <-.
  - injection H as <-. unfold handleCookieSideband.
    destruct ((cs_transaction_id_hint cs =? 0) || (cs_cookie cs =? 0)); [done|].
    destruct (transactionBuffers c !! cs_transaction_id_hint cs) as [b|] eqn:Eb;
      [destruct (m_cookie (meta b) =? 0)|].
    + cbn. rewrite lookup_insert_ne; congruence.
    + by destruct (lru_lookup _ (pendingMainByTxid (sm c))).
    + by destruct (lru_lookup _ (pendingMainByTxid (sm c))).
  - by injection H as <-.
Qed.

(** ** One transaction *)

Section Transaction.
Context (txid ds t0 : Z) (m0 : txMeta) (d : nat -> bytes).
Context (Hds : 0 < ds <= ChunkSize * MaxChunks) (Hm0 : m_dataSize m0 = ds)
  (Hd : forall i, len (d i) = ChunkSize).

Definition n_chunks : nat := Z.to_nat ((ds + ChunkSize - 1) / ChunkSize).

Lemma n_chunks_range : (0 < n_chunks <= 16)%nat /\ ds <= Z.of_nat n_chunks * 1024.
Proof.
  unfold n_chunks. unfold ChunkSize, MaxChunks in *.
  pose proof (Z.div_mod (ds + 1024 - 1) 1024 ltac:(done)).
  pose proof (Z.mod_pos_bound (ds + 1024 - 1) 1024 ltac:(done)). lia.
Qed.

(** [e] is chunk [j] of the transaction. *)
Definition own (e : main_event) (j : nat) : Prop :=
  ev_transaction_id e = txid /\ ev_chunk_index e = Z.of_nat j /\ (j < n_chunks)%nat /\
  ev_chunk_data e = d j /\ set_cookie (meta_of e) 0 = m0.

Definition slots (got : list nat) : list (option bytes) :=
  (λ i, if decide (i ∈ got) then Some (d i) else None) <$> seq 0 n_chunks.

Lemma slots_nil : slots [] = replicate n_chunks None.
Proof.
  unfold slots. generalize 0%nat. induction n_chunks as [|n IH]; intros k; [done|].
  cbn [seq]. rewrite fmap_cons, IH, decide_False by (by inversion 1). done.
Qed.

Lemma slots_insert j got : (j < n_chunks)%nat -> <[j := Some (d j)]> (slots got) = slots (j :: got).
Proof.
  intros Hj. unfold slots. apply list_eq. intros i. rewrite list_lookup_fmap.
  destruct (decide (i = j)) as [->|Hne].
  - rewrite list_lookup_insert_eq by (by rewrite length_fmap, length_seq).
    rewrite lookup_seq_lt by done. cbn. by rewrite decide_True by left.
  - rewrite list_lookup_insert_ne, list_lookup_fmap by done.
    destruct (seq 0 n_chunks !! i) as [k|] eqn:E; [|done]. cbn. apply lookup_seq in E as [-> _].
    do 2 f_equal. apply decide_ext. rewrite elem_of_cons. intuition.
Qed.

Lemma slots_complete got :
  is_complete (slots got) = true <-> forall j, (j < n_chunks)%nat -> j ∈ got.
Proof.
  unfold slots. rewrite forallb_forall. split.
  - intros Hf j Hj. destruct (decide (j ∈ got)) as [|Hn]; [done|].
    exfalso. cut (false = true); [done|]. apply (Hf None). apply list_elem_of_In, list_elem_of_fmap. exists j.
    split; [by rewrite decide_False|]. apply elem_of_seq. lia.
  - intros Hall ch Hin. apply list_elem_of_In, list_elem_of_fmap in Hin as (j & -> & Hj).
    apply elem_of_seq in Hj. rewrite decide_True by (apply Hall; lia). done.
Qed.

Lemma slots_merge got :
  is_complete (slots got) = true -> mergeChunks (slots got) = concat (d <$> seq 0 n_chunks).
Proof.
  intros Hc. f_equal. unfold slots in *. rewrite <- list_fmap_compose.
  apply list_fmap_ext. intros k j Hj. cbn. apply lookup_seq in Hj as [-> Hk].
  rewrite decide_True; [done|]. apply slots_complete; [done|lia].
Qed.

Lemma len_merged (l : list nat) : len (concat (d <$> l)) = Z.of_nat (length l) * ChunkSize.
Proof.
  induction l as [|j l IH]; [done|]. rewrite fmap_cons. cbn [concat length].
  rewrite len_app, IH, Hd. lia.
Qed.

(** The buffer of the transaction holds the chunks [got]. *)
Definition receiving (got : list nat) (c : collector) : Prop :=
  match transactionBuffers c !! txid with
  | Some buf => t0 <= firstSeenNs buf /\ chunks buf = slots got /\ set_cookie (meta buf) 0 = m0
  | None => got = []
  end.

Definition own_input (i : input) : Prop :=
  match i with
  | IMain e => ev_transaction_id e = txid -> exists j, own e j
  | _ => True
  end.

Lemma own_sane e j : own e j -> sane_event e.
Proof.
  intros (_ & Hi & Hj & _ & Hm). apply (f_equal m_dataSize) in Hm. cbn in Hm.
  pose proof n_chunks_range. unfold sane_event. rewrite Hi, Hm, Hm0.
  unfold ChunkSize, MaxChunks in *. lia.
Qed.

(** Nothing but the buffers and the pending cookies differs. *)
Definition same_rest (c c' : collector) : Prop :=
  sm c' = sm c /\ emitted c' = emitted c /\ pendingStack c' = pendingStack c /\
  symbolizer c' = symbolizer c.

(** No cookie has reached the transaction yet. *)
Definition no_cookie (c : collector) : Prop :=
  lru_lookup txid (pendingCookieByTxid c) = None /\
  forall b, transactionBuffers c !! txid = Some b -> m_cookie (meta b) = 0.

(** Opening and storing for an own chunk, without the completion. *)
Lemma own_store now e j got c :
  in_window t0 now -> own e j -> receiving got c ->
  exists buf c1, transactionBuffers c1 = transactionBuffers c /\ same_rest c c1 /\
    t0 <= firstSeenNs buf /\ set_cookie (meta buf) 0 = m0 /\
    (no_cookie c -> ev_cookie e = 0 ->
     m_cookie (meta buf) = 0 /\ pendingCookieByTxid c1 = pendingCookieByTxid c) /\
    handleEvent now e c =
    let b1 := TxBuffer (firstSeenNs buf) (slots (j :: got)) (meta buf) in
    let c2 := set_buffers (<[txid := b1]> (transactionBuffers c)) c1 in
    if is_complete (slots (j :: got)) then finish_transaction now txid b1 c2
    else Some (maybeCleanup now c2).
Proof.
  intros Hw Ho Hr. pose proof (own_sane e j Ho) as [Hsd Hsi]. destruct Ho as (Ht & Hi & Hj & Hdat & Hm).
  unfold handleEvent, receiving, no_cookie in *. rewrite Ht. rewrite <- Ht in Hr.
  destruct (transactionBuffers c !! ev_transaction_id e) as [buf|] eqn:E.
  - destruct Hr as (Hf & Hcs & Hmb). exists buf, c. split_and!; [done..| |].
    { intros [_ Hb] _. split; [|done]. apply Hb. by rewrite <- Ht. }
    unfold open_buffer. rewrite E. cbn [mbind option_bind].
    rewrite store_chunk_small, Hcs, Hi, Nat2Z.id, Hdat, slots_insert by done. done.
  - subst got.
    destruct (open_buffer_new (now 0%nat) e c E Hsd) as (m & c1 & -> & Hmc & Hb & ? & ? & ? & ? & Hpc).
    exists (TxBuffer (now 0%nat) [] m), c1.
    split_and!; [done|by split_and!|apply Hw|by rewrite <- Hm| |].
    { rewrite Ht in Hpc. intros [Hnc _] Hc0. destruct (Hpc Hnc) as [-> ->]. done. }
    cbn [mbind option_bind firstSeenNs meta]. rewrite store_chunk_small by done.
    apply (f_equal m_dataSize) in Hm. cbn in Hm. rewrite Hm, Hm0. fold n_chunks. cbn [chunks].
    rewrite <- slots_nil, Hi, Nat2Z.id, Hdat, slots_insert by done. by rewrite Hb.
Qed.

(** An input keeps what has been received; an own chunk that does not
    complete the transaction adds to it. *)
Lemma receiving_step now i got c :
  in_window t0 now -> sane_input i -> own_input i -> buffers_sane (transactionBuffers c) ->
  receiving got c ->
  let got' := match i with
              | IMain e => if decide (ev_transaction_id e = txid)
                           then Z.to_nat (ev_chunk_index e) :: got else got
              | _ => got
              end in
  (exists j, (j < n_chunks)%nat /\ j ∉ got') ->
  exists c', handle now i c = Some c' /\ receiving got' c' /\
    buffers_sane (transactionBuffers c').
Proof.
  intros Hw Hsi Ho Hs Hr got' Hinc.
  destruct (handle_total now i c Hsi Hs) as (c' & Hc' & Hs'). exists c'. split_and!; [done| |done].
  assert (Hother : (forall e, i = IMain e -> ev_transaction_id e <> txid) -> receiving got c').
  { intros Hne. unfold receiving in *. destruct (transactionBuffers c !! txid) as [buf|] eqn:E.
    - destruct Hr as (Hf & Hcs & Hm).
      destruct (handle_frame t0 now i c c' txid buf Hw Hf Hne Hc' E) as (buf' & -> & -> & -> & ->).
      done.
    - by rewrite (handle_frame_none now i c c' txid Hne Hc' E). }
  unfold got' in *. destruct i as [|e| | |]; try (by apply Hother). cbn [own_input] in Ho.
  destruct (decide (ev_transaction_id e = txid)) as [Ht|Hne]; [|by apply Hother; intros e' [= <-]].
  destruct (Ho Ht) as [j Hj]. pose proof Hj as (_ & Hi & _). rewrite Hi, Nat2Z.id in *.
  destruct (own_store now e j got c Hw Hj Hr) as (buf & c1 & Hb1 & _ & Hf & Hm & _ & Heq).
  cbn [handle] in Hc'. rewrite Heq in Hc'. cbv zeta in Hc'.
  destruct (is_complete (slots (j :: got))) eqn:Ec.
  { destruct Hinc as (k & Hk & Hn). by destruct Hn; apply (proj1 (slots_complete _) Ec). }
  injection Hc' as <-. unfold receiving.
  rewrite (cleanup_buffers now _ txid (TxBuffer (firstSeenNs buf) (slots (j :: got)) (meta buf))).
  - done.
  - cbn. by rewrite lookup_insert_eq.
  - cbn. specialize (Hw 0%nat). lia.
Qed.

(** The indices of the own chunks among the inputs. *)
Definition own_indices (l : list ((nat -> Z) * input)) : list nat :=
  omap (λ x, match x.2 with
             | IMain e => if decide (ev_transaction_id e = txid)
                          then Some (Z.to_nat (ev_chunk_index e)) else None
             | _ => None
             end) l.

Definition fair_input (x : (nat -> Z) * input) : Prop :=
  in_window t0 x.1 /\ sane_input x.2 /\ own_input x.2.

Lemma receiving_run l got c :
  Forall fair_input l -> buffers_sane (transactionBuffers c) -> receiving got c ->
  (exists j, (j < n_chunks)%nat /\ j ∉ own_indices l ++ got) ->
  exists got' c', run l c = Some c' /\ receiving got' c' /\
    (forall j, j ∈ got' <-> j ∈ own_indices l ++ got) /\ buffers_sane (transactionBuffers c').
Proof.
  intros Hl. revert got c. induction Hl as [|[now i] l (Hw & Hsi & Ho) Hl IH]; intros got c Hs Hr Hinc.
  { by exists got, c. }
  set (add := match i with
              | IMain e => if decide (ev_transaction_id e = txid)
                           then [Z.to_nat (ev_chunk_index e)] else []
              | _ => []
              end).
  assert (Eown : own_indices ((now, i) :: l) = add ++ own_indices l).
  { unfold own_indices, add. cbn. destruct i; try done. by case_decide. }
  rewrite Eown in Hinc |- *. cbn [run].
  destruct (receiving_step now i got c Hw Hsi Ho Hs Hr) as (c1 & -> & Hr1 & Hs1).
  { destruct Hinc as (j & Hj & Hn). exists j. split; [done|]. rewrite !elem_of_app in Hn.
    unfold add in Hn. destruct i; try tauto. case_decide; [|tauto].
    rewrite elem_of_cons. rewrite list_elem_of_singleton in Hn. tauto. }
  cbn [mbind option_bind]. destruct (IH _ _ Hs1 Hr1) as (got' & c' & Hrun & Hr' & Hgot & Hs').
  { destruct Hinc as (j & Hj & Hn). exists j. split; [done|]. rewrite !elem_of_app in *.
    unfold add in Hn. destruct i; try tauto. case_decide; [|tauto].
    rewrite elem_of_cons. rewrite list_elem_of_singleton in Hn. tauto. }
  exists got', c'. split_and!; [done|done| |done]. intros j. rewrite Hgot, !elem_of_app.
  unfold add. destruct i; try (rewrite elem_of_nil; tauto). case_decide; [|rewrite elem_of_nil; tauto].
  rewrite elem_of_cons, list_elem_of_singleton. tauto.
Qed.

(** The completing chunk routes the whole parcel. *)
Lemma finish_routes now buf c got :
  chunks buf = slots got -> is_complete (slots got) = true -> set_cookie (meta buf) 0 = m0 ->
  exists c1 ev, finish_transaction now txid buf c =
    Some (maybeCleanup now (with_sm (routeMainEvent ev (m_cookie (meta buf)) txid (now 0%nat) (sm c1)) c1)) /\
    with_stack ev None =
      main_payload (now 0%nat) m0 (take (Z.to_nat ds) (concat (d <$> seq 0 n_chunks))) /\
    attach_stack txid (main_payload (now 0%nat) m0
      (take (Z.to_nat ds) (concat (d <$> seq 0 n_chunks))))
      (set_buffers (delete txid (transactionBuffers c)) c) = (ev, c1).
Proof.
  intros Hcs Hc Hm. unfold finish_transaction. rewrite Hcs, slots_merge by done.
  pose proof n_chunks_range as [Hn Hn']. pose proof (len_merged (seq 0 n_chunks)) as Hl.
  rewrite length_seq in Hl. set (data := concat (d <$> seq 0 n_chunks)) in *.
  assert (Hmd : m_dataSize (meta buf) = ds) by (apply (f_equal m_dataSize) in Hm; cbn in Hm; congruence).
  unfold ChunkSize, MaxChunks in *. rewrite Hmd, s64_small by lia.
  destruct (Z.leb_spec (len data) 16); [lia|]. destruct (Z.ltb_spec (1024 * 16) (len data)); [lia|].
  destruct (Z.eqb_spec ds 0); [lia|]. destruct (Z.ltb_spec (len data) ds); [lia|]. cbn [orb].
  assert (subslice data 0 ds = Some (take (Z.to_nat ds) data)) as ->.
  { unfold subslice. destruct (Z.leb_spec 0 ds); [|lia]. destruct (Z.leb_spec ds (len data)); [|lia].
    cbn. unfold slice. by rewrite Z.sub_0_r, drop_0. }
  cbn [mbind option_bind].
  assert (Hp : forall p, main_payload (now 0%nat) (meta buf) p = main_payload (now 0%nat) m0 p)
    by (intros p; rewrite <- Hm; done).
  rewrite Hp. destruct (attach_stack _ _ _) as [ev c1] eqn:Ea. exists c1, ev. split_and!; [done| |done].
  unfold attach_stack in Ea. destruct (takePendingStack _ _) as [[st|] c2].
  - destruct (symbolizeStackEvent _ _). by injection Ea as <- <-.
  - by injection Ea as <- <-.
Qed.

End Transaction.
End Reassembly.

(** ** Properties *)

(** C7: Whatever the order of a transaction's chunks, and whatever other
    records and sweeps the collector handles between them within 5 seconds,
    the chunk that completes the transaction routes one event that carries
    the transaction's identity and whose parcel is the chunk data in index
    order, cut at the declared size. *)
Theorem reassembly_any_interleaving `{SI : SymbolizerI} txid ds t0 m0 d l now e j c :
  0 < ds <= ChunkSize * MaxChunks -> m_dataSize m0 = ds -> (forall i, len (d i) = ChunkSize) ->
  buffers_sane (transactionBuffers c) -> transactionBuffers c !! txid = None ->
  Forall (fair_input txid ds t0 m0 d) l -> in_window t0 now -> own txid ds m0 d e j ->
  (exists k, (k < n_chunks ds)%nat /\ k ∉ own_indices txid l) ->
  (forall k, (k < n_chunks ds)%nat -> k = j \/ k ∈ own_indices txid l) ->
  exists c1 ev cookie,
    run (l ++ [(now, IMain e)]) c =
    Some (maybeCleanup now (with_sm (routeMainEvent ev cookie txid (now 0%nat) (sm c1)) c1)) /\
    with_stack ev None =
    main_payload (now 0%nat) m0 (take (Z.to_nat ds) (concat (d <$> seq 0 (n_chunks ds)))).
Proof.
  intros Hds Hm0 Hd Hs Hb Hl Hw Ho Hinc Hall.
  destruct (receiving_run txid ds t0 m0 d Hds Hm0 l [] c) as (got & c' & Hrun & Hr & Hgot & _);
    [done|done|unfold receiving; by rewrite Hb|by rewrite app_nil_r|].
  rewrite app_nil_r in Hgot.
  destruct (own_store txid ds t0 m0 d Hds Hm0 now e j got c' Hw Ho Hr) as (buf & c1 & _ & _ & _ & Hm & _ & Heq).
  assert (Hc : is_complete (slots ds d (j :: got)) = true).
  { apply slots_complete. intros k Hk. rewrite elem_of_cons, Hgot. by apply Hall. }
  rewrite Hc in Heq. cbv zeta in Heq.
  destruct (finish_routes txid ds m0 d Hds Hm0 Hd now
    (TxBuffer (firstSeenNs buf) (slots ds d (j :: got)) (meta buf))
    (set_buffers (<[txid := TxBuffer (firstSeenNs buf) (slots ds d (j :: got)) (meta buf)]>
       (transactionBuffers c')) c1) (j :: got)) as (c2 & ev & Hfin & Hev & _); [done..|].
  exists c2, ev, (m_cookie (meta buf)). split; [|done].
  assert (Happ : forall l2, run (l ++ l2) c = c'' ← run l c; run l2 c'').
  { clear. intros l2. revert c. induction l as [|[nw i] l IH]; intros c; [done|]. cbn [app run].
    destruct (handle nw i c); [apply IH|done]. }
  rewrite Happ, Hrun. cbn [mbind option_bind run handle]. rewrite Heq. cbn [meta] in Hfin.
  by rewrite Hfin.
Qed.

(** A symbolizer that knows nothing, for concrete runs. *)
Definition no_symbols : SymbolizerI := {|
  sym_state := unit;
  SymbolizeKernel s pc := (MkSymbolFrame pc [] [] 0 StackQualityFailed, s);
  SymbolizeUser s _ pc := (MkSymbolFrame pc [] [] 0 StackQualityFailed, s)
|}.

#[local] Existing Instance no_symbols.

(** Chunk [i] of a reply of 1500 bytes. *)
Definition sample_chunk (i : nat) : main_event :=
  MainEvent 1 1 1 0 1200 10123 7 0x10 1500 5000 (Z.of_nat i) 0 0 0 1 77
    (replicate (Z.to_nat 1024) (Z.of_nat i + 1)).

Lemma reassembly_any_interleaving_witness :
  let now := λ _ : nat, 1000 in
  let l := [(now, IMain (sample_chunk 1)); (now, ISweep (λ _, None))] in
  exists c1 ev cookie,
    run (l ++ [(now, IMain (sample_chunk 0))]) (NewEventCollector None) =
    Some (maybeCleanup now (with_sm (routeMainEvent ev cookie 5000 1000 (sm c1)) c1)) /\
    with_stack ev None =
    main_payload 1000 (meta_of (sample_chunk 0))
      (replicate (Z.to_nat 1024) 1 ++ replicate (Z.to_nat 476) 2).
Proof.
  intros now l.
  destruct (reassembly_any_interleaving 5000 1500 1000 (meta_of (sample_chunk 0))
    (λ i, replicate (Z.to_nat 1024) (Z.of_nat i + 1)) l now (sample_chunk 0) 0%nat
    (NewEventCollector None)) as (c1 & ev & cookie & Hrun & Hev).
  - vm_compute. intuition congruence.
  - reflexivity.
  - intros i. unfold len. rewrite length_replicate. reflexivity.
  - intros k buf Hk. discriminate Hk.
  - reflexivity.
  - apply Forall_cons; [|apply Forall_cons; [|apply Forall_nil]].
    + split; [|split].
      * intros k. unfold now, staleBufferTTL, Second. cbn. lia.
      * unfold sane_input, sane_event. cbn. lia.
      * intros _. exists 1%nat. split_and!; [reflexivity|reflexivity|vm_compute; lia|reflexivity|reflexivity].
    + split; [|split; exact I]. intros k. unfold now, staleBufferTTL, Second. cbn. lia.
  - intros k. unfold now, staleBufferTTL, Second. cbn. lia.
  - split_and!; [reflexivity|reflexivity|vm_compute; lia|reflexivity|reflexivity].
  - exists 0%nat. split; [vm_compute; lia|]. change (own_indices 5000 l) with [1%nat].
    intros Hin%list_elem_of_singleton. discriminate Hin.
  - intros k Hk. change (own_indices 5000 l) with [1%nat]. change (n_chunks 1500) with 2%nat in Hk.
    destruct k as [|[|k]]; [left; reflexivity|right; apply list_elem_of_singleton; reflexivity|lia].
  - exists c1, ev, cookie. split; [exact Hrun|]. rewrite Hev. vm_compute. reflexivity.
Defined.

(** C39: Handling any sequence of records and sweeps never panics when every
    main record declares less than 4 TiB and has a chunk index below 2^63. *)
Theorem collector_never_panics `{SI : SymbolizerI} l c :
  Forall (λ x, sane_input x.2) l -> buffers_sane (transactionBuffers c) ->
  exists c', run l c = Some c'.
Proof.
  intros Hl. revert c. induction Hl as [|[now i] l Hi _ IH]; intros c Hs; [by eexists|].
  destruct (handle_total now i c Hi Hs) as (c1 & E & Hs1). cbn [run]. rewrite E. by apply IH.
Qed.

Lemma collector_never_panics_witness :
  exists c', run [((λ _, 1000), IMain (sample_chunk 0)); ((λ _, 1001), IMain (sample_chunk 9))]
               (NewEventCollector None) = Some c'.
Proof.
  apply collector_never_panics.
  - apply Forall_cons; [vm_compute; intuition congruence|].
    apply Forall_cons; [vm_compute; intuition congruence|apply Forall_nil].
  - intros k buf Hk. discriminate Hk.
Defined.
