(* ===== verification/Symbolizer.v ===== *)
(** * The symbolizer (daemon/symbolizer.go)

    Kernel addresses are looked up in the sorted /proc/kallsyms, user
    addresses in the cached mappings of the process and the cached symbol
    table of the mapped file.  The operating system (clock, files, ELF
    sections as debug/elf returns them) is the class [OS], whose state every
    reading may change.  An operation is a function on the symbolizer and the
    operating system; an error return is [None].  Log lines are left out, and
    the hooks for tests are nil, as the daemon leaves them. *)

From S2P Require Import Prelude GoLang GoStd Protocol Collector.

(** ** Data *)

Record kallsymsEntry := KallsymsEntry { ks_addr : Z; ks_name : bytes }.

Record elfSymbol := ElfSymbol { es_rva : Z; es_size : Z; es_name : bytes }.

Record elfSymbols := ElfSymbols {
  es_path : bytes; symtabAvailable : bool; es_symbols : list elfSymbol }.

Record procMapsEntry := ProcMapsEntry {
  pe_start : Z; pe_end : Z; pe_perms : bytes; pe_offset : Z; pe_path : bytes }.

Record procMaps := ProcMaps {
  pm_pid : Z; pidStartTime : Z; loadedNs : Z; pm_entries : list procMapsEntry }.

(** ** lruCache

    [order] holds the elements, most recent first; an element is a cell of
    [elems], which items points to by key. *)

Record lruEntry V := LruEntry { le_key : bytes; le_value : V }.
Arguments LruEntry {V} _ _.
Arguments le_key {V} _.
Arguments le_value {V} _.

Record lruCache V := LruCache {
  capacity : nat; order : list nat; elems : gmap nat (lruEntry V);
  items : gmap bytes nat; next_elem : nat }.
Arguments LruCache {V} _ _ _ _ _.
Arguments capacity {V} _.
Arguments order {V} _.
Arguments elems {V} _.
Arguments items {V} _.
Arguments next_elem {V} _.

Abbreviation newLRU capacity := (LruCache capacity [] ∅ ∅ 0) (only parsing).

(** container/list: Remove, MoveToFront *)
Definition list_Remove (e : nat) (l : list nat) : list nat := filter (λ x, x <> e) l.
Definition MoveToFront (e : nat) (l : list nat) : list nat :=
  if decide (e ∈ l) then e :: list_Remove e l else l.

Section LruCache.
Context {V : Type}.
Implicit Types l : lruCache V.

Definition lru_get (key : bytes) l : option V * lruCache V :=
  match items l !! key with
  | Some e =>
      (le_value <$> elems l !! e,
       LruCache (capacity l) (MoveToFront e (order l)) (elems l) (items l) (next_elem l))
  | None => (None, l)
  end.

Definition evict_oldest l : lruCache V :=
  if (capacity l <? length (order l))%nat then
    match list.last (order l) with
    | Some e =>
        LruCache (capacity l) (list_Remove e (order l)) (elems l)
          (match elems l !! e with Some ent => delete (le_key ent) (items l) | None => items l end)
          (next_elem l)
    | None => l
    end
  else l.

Definition lru_put (key : bytes) (value : V) l : lruCache V :=
  match items l !! key with
  | Some e =>
      LruCache (capacity l) (MoveToFront e (order l))
        (alter (λ ent, LruEntry (le_key ent) value) e (elems l)) (items l) (next_elem l)
  | None =>
      let e := next_elem l in
      evict_oldest
        (LruCache (capacity l) (e :: order l) (<[e := LruEntry key value]> (elems l))
           (<[key := e]> (items l)) (S e))
  end.

Definition lru_drop (key : bytes) l : lruCache V :=
  match items l !! key with
  | Some e =>
      LruCache (capacity l) (list_Remove e (order l)) (elems l) (delete key (items l)) (next_elem l)
  | None => l
  end.
End LruCache.

(** ** Lookups *)

(** findContaining *)
Definition findContaining (m : procMaps) (pc : Z) : option procMapsEntry :=
  let es := pm_entries m in
  let idx := Search (length es) (λ i, match es !! i with Some e => pc <? pe_end e | None => true end) in
  e ← es !! idx;
  if (pe_start e <=? pc) && (pc <? pe_end e) then Some e else None.

(** lookupElfSymbol; rva + size is a uint64 sum. *)
Definition lookupElfSymbol (es : elfSymbols) (rva : Z) : option elfSymbol :=
  let syms := es_symbols es in
  let idx := Search (length syms)
               (λ i, match syms !! i with Some s => rva <? es_rva s | None => true end) in
  if (idx =? 0)%nat then None
  else
    cand ← syms !! (idx - 1)%nat;
    if es_size cand =? 0 then Some cand
    else if rva <? u64 (es_rva cand + es_size cand) then Some cand else None.

(** ** Parsers *)

(** parseMapsLine *)
Definition parseMapsLine (line : bytes) : option procMapsEntry :=
  match Fields line with
  | f0 :: f1 :: f2 :: f3 :: f4 :: rest =>
      match SplitN2 f0 45 with
      | [lo; hi] =>
          start ← ParseUint lo 16; end_ ← ParseUint hi 16; off ← ParseUint f2 16;
          Some (ProcMapsEntry start end_ f1 off (Join [32] rest))
      | _ => None
      end
  | _ => None
  end.

(** The body of readProcStarttime after the file has been read *)
Definition parseStarttime (s : bytes) : option Z :=
  match LastIndexByte 41 s with
  | None => None
  | Some rp =>
      if (length s <=? rp + 2)%nat then None
      else
        let fields := Fields (drop (rp + 2) s) in
        if (length fields <? 20)%nat then None else f ← fields !! 19%nat; ParseUint f 10
  end.

(** One line of /proc/kallsyms *)
Definition parseKallsymsLine (line : bytes) : option kallsymsEntry :=
  match Fields line with
  | f0 :: _ :: f2 :: _ =>
      match ParseUint f0 16 with
      | Some addr => if addr =? 0 then None else Some (KallsymsEntry addr f2)
      | None => None
      end
  | _ => None
  end.

Abbreviation scan_max := (1024 * 1024) (only parsing).

(** ** ELF symbols as debug/elf returns them *)

Record elf_Symbol := ElfSym { sym_Name : bytes; sym_Info : Z; sym_Value : Z; sym_Size : Z }.

(** The results of File.Symbols and File.DynamicSymbols; [None] is an error. *)
Record elf_File := ElfFile {
  f_Symbols : option (list elf_Symbol); f_DynamicSymbols : option (list elf_Symbol) }.

Definition keepElfSymbol (sym : elf_Symbol) : option elfSymbol :=
  let stt := Z.land (sym_Info sym) 0xf in
  if negb (stt =? 2) && negb (stt =? 0xa) then None
  else if (sym_Value sym =? 0) || (len (sym_Name sym) =? 0) then None
  else Some (ElfSymbol (sym_Value sym) (sym_Size sym) (sym_Name sym)).

Definition appendElfSymbols (dst : list elfSymbol) (src : list elf_Symbol) : list elfSymbol :=
  dst ++ omap keepElfSymbol src.

Definition elf_less (a b : elfSymbol) : bool :=
  if es_rva a =? es_rva b then es_size b <? es_size a else es_rva a <? es_rva b.

Abbreviation maps_less := (λ a b : procMapsEntry, pe_start a <? pe_start b) (only parsing).
Abbreviation kallsyms_less := (λ a b : kallsymsEntry, ks_addr a <? ks_addr b) (only parsing).

(** ** The operating system *)

Class OS := {
  os_state : Type;
  os_now : os_state -> Z * os_state;
  os_ReadFile : bytes -> os_state -> option bytes * os_state;
  os_OpenElf : bytes -> os_state -> option elf_File * os_state }.

(** ** The Symbolizer *)

Record SymbolizerCounters := Counters {
  KallsymsLoadedCount : Z; SymbolizeFull : Z; SymbolizeFpOnly : Z; SymbolizeDegraded : Z;
  SymbolizeFailed : Z; SymtabUnavailableSo : Z }.

Record Symbolizer := MkSymbolizer {
  kallsyms : list kallsymsEntry;
  procMapsCache : lruCache procMaps;
  elfCache : lruCache elfSymbols;
  counters : SymbolizerCounters }.

Abbreviation procMapsTTL := (100 * 1000000)%Z (only parsing).

Definition NewSymbolizer : Symbolizer :=
  MkSymbolizer [] (newLRU 128) (newLRU 128) (Counters 0 0 0 0 0 0).

Abbreviation executable e := (existsb (Z.eqb 120) (pe_perms e)) (only parsing).

Section Symbolizer.
Context `{OI : OS} `{G : GoSort}.

(** A method: the symbolizer and the operating system before and after. *)
Definition M (A : Type) : Type := Symbolizer * os_state -> A * (Symbolizer * os_state).

Definition ret {A} (a : A) : M A := λ s, (a, s).
Definition bind {A B} (m : M A) (k : A -> M B) : M B := λ s, let '(a, s) := m s in k a s.

#[local] Notation "'let*' x := m 'in' k" := (bind m (λ x, k))
  (at level 10, x name, m at level 100, k at level 200).
#[local] Notation "'do*' m 'in' k" := (bind m (λ _, k))
  (at level 10, m at level 100, k at level 200).

Definition time_Now : M Z := λ '(y, o), let '(t, o) := os_now o in (t, (y, o)).
Definition os_read (path : bytes) : M (option bytes) :=
  λ '(y, o), let '(r, o) := os_ReadFile path o in (r, (y, o)).
Definition elf_Open (path : bytes) : M (option elf_File) :=
  λ '(y, o), let '(r, o) := os_OpenElf path o in (r, (y, o)).

Definition maps_get (key : bytes) : M (option procMaps) := λ '(y, o),
  let '(v, c) := lru_get key (procMapsCache y) in
  (v, (MkSymbolizer (kallsyms y) c (elfCache y) (counters y), o)).
Definition maps_put (key : bytes) (pm : procMaps) : M unit := λ '(y, o),
  (tt, (MkSymbolizer (kallsyms y) (lru_put key pm (procMapsCache y)) (elfCache y) (counters y), o)).
Definition maps_remove (key : bytes) : M unit := λ '(y, o),
  (tt, (MkSymbolizer (kallsyms y) (lru_drop key (procMapsCache y)) (elfCache y) (counters y), o)).
Definition elf_get (key : bytes) : M (option elfSymbols) := λ '(y, o),
  let '(v, c) := lru_get key (elfCache y) in
  (v, (MkSymbolizer (kallsyms y) (procMapsCache y) c (counters y), o)).
Definition elf_put (key : bytes) (es : elfSymbols) : M unit := λ '(y, o),
  (tt, (MkSymbolizer (kallsyms y) (procMapsCache y) (lru_put key es (elfCache y)) (counters y), o)).
Definition get_kallsyms : M (list kallsymsEntry) := λ s, (kallsyms s.1, s).
Definition on_counters (f : SymbolizerCounters -> SymbolizerCounters) : M unit := λ '(y, o),
  (tt, (MkSymbolizer (kallsyms y) (procMapsCache y) (elfCache y) (f (counters y)), o)).

(** The counters are atomic.Uint64. *)
Definition addFull c := Counters (KallsymsLoadedCount c) (u64 (SymbolizeFull c + 1))
  (SymbolizeFpOnly c) (SymbolizeDegraded c) (SymbolizeFailed c) (SymtabUnavailableSo c).
Definition addFpOnly c := Counters (KallsymsLoadedCount c) (SymbolizeFull c)
  (u64 (SymbolizeFpOnly c + 1)) (SymbolizeDegraded c) (SymbolizeFailed c) (SymtabUnavailableSo c).
Definition addDegraded c := Counters (KallsymsLoadedCount c) (SymbolizeFull c) (SymbolizeFpOnly c)
  (u64 (SymbolizeDegraded c + 1)) (SymbolizeFailed c) (SymtabUnavailableSo c).
Definition addFailed c := Counters (KallsymsLoadedCount c) (SymbolizeFull c) (SymbolizeFpOnly c)
  (SymbolizeDegraded c) (u64 (SymbolizeFailed c + 1)) (SymtabUnavailableSo c).
Definition addSymtabUnavailableSo c := Counters (KallsymsLoadedCount c) (SymbolizeFull c)
  (SymbolizeFpOnly c) (SymbolizeDegraded c) (SymbolizeFailed c) (u64 (SymtabUnavailableSo c + 1)).

(** LoadKallsyms; [false] is an error. *)
Definition LoadKallsyms (path : bytes) : M bool :=
  let* f := os_read path in
  match f with
  | None => ret false
  | Some data =>
      match scan_lines scan_max data with
      | None => ret false
      | Some lines =>
          let entries := sort_slice kallsyms_less (omap parseKallsymsLine lines) in
          λ '(y, o), (true, (MkSymbolizer entries (procMapsCache y) (elfCache y)
            (Counters (u64 (Z.of_nat (length entries))) (SymbolizeFull (counters y))
               (SymbolizeFpOnly (counters y)) (SymbolizeDegraded (counters y))
               (SymbolizeFailed (counters y)) (SymtabUnavailableSo (counters y))), o))
      end
  end.

(** readProcStarttime *)
Definition readProcStarttime (pid : Z) : M (option Z) :=
  let* data := os_read (str "/proc/" ++ Itoa pid ++ str "/stat") in
  ret (s ← data; parseStarttime s).

(** readProcMaps: the executable mappings, by start *)

Definition parseMaps (data : bytes) : option (list procMapsEntry) :=
  lines ← scan_lines scan_max data;
  Some (sort_slice maps_less (filter (λ e, executable e = true) (omap parseMapsLine lines))).

Definition readProcMaps (pid : Z) : M (option (list procMapsEntry)) :=
  let* data := os_read (str "/proc/" ++ Itoa pid ++ str "/maps") in
  ret (s ← data; parseMaps s).

(** getOrLoadMaps: the part after a cache miss *)
Definition loadMaps (pid now : Z) : M (option procMaps) :=
  let* st := readProcStarttime pid in
  match st with
  | None => ret None
  | Some st =>
      let* entries := readProcMaps pid in
      match entries with
      | None => ret None
      | Some entries =>
          let pm := ProcMaps pid st now entries in
          do* maps_put (Itoa pid) pm in ret (Some pm)
      end
  end.

Definition getOrLoadMaps (pid : Z) : M (option procMaps) :=
  let* now := time_Now in
  let* v := maps_get (Itoa pid) in
  match v with
  | None => loadMaps pid now
  | Some pm =>
      if s64 (now - loadedNs pm) <? procMapsTTL then ret (Some pm)
      else
        let* st := readProcStarttime pid in
        match st with
        | None => do* maps_remove (Itoa pid) in ret None
        | Some st =>
            if st =? pidStartTime pm then
              let* entries := readProcMaps pid in
              match entries with
              | None => do* maps_remove (Itoa pid) in ret None
              | Some entries =>
                  let refreshed := ProcMaps pid (pidStartTime pm) now entries in
                  do* maps_put (Itoa pid) refreshed in ret (Some refreshed)
              end
            else do* maps_remove (Itoa pid) in loadMaps pid now
        end
  end.

(** loadElfSymbols *)
Definition loadElfSymbols (path : bytes) : M (option elfSymbols) :=
  let* f := elf_Open path in
  match f with
  | None => ret None
  | Some f =>
      let '(avail, syms) :=
        match f_Symbols f with
        | Some (s :: l) => (true, appendElfSymbols [] (s :: l))
        | _ => (false, [])
        end in
      let syms := match f_DynamicSymbols f with
                  | Some (s :: l) => appendElfSymbols syms (s :: l)
                  | _ => syms
                  end in
      match syms with
      | [] => ret None
      | _ => ret (Some (ElfSymbols path avail (sort_slice elf_less syms)))
      end
  end.

(** getOrLoadElf *)
Definition getOrLoadElf (path : bytes) : M (option elfSymbols) :=
  if (len path =? 0) || HasPrefix path [91] then ret None
  else
    let* v := elf_get path in
    match v with
    | Some es => ret (Some es)
    | None =>
        let* es := loadElfSymbols path in
        match es with
        | None => ret None
        | Some es =>
            do* (if symtabAvailable es then ret tt else on_counters addSymtabUnavailableSo) in
            do* elf_put path es in ret (Some es)
        end
    end.

(** SymbolizeKernel *)
Definition kernelModule : bytes := str "kernel".

Definition symbolizeKernel (pc : Z) : M SymbolFrame :=
  let* ks := get_kallsyms in
  if (length ks =? 0)%nat || (pc =? 0) then
    do* on_counters addFailed in ret (MkSymbolFrame pc [] [] 0 StackQualityFailed)
  else
    let idx := Search (length ks)
                 (λ i, match ks !! i with Some e => pc <? ks_addr e | None => true end) in
    match idx with
    | O => do* on_counters addFailed in ret (MkSymbolFrame pc kernelModule [] 0 StackQualityFailed)
    | S i =>
        match ks !! i with
        | Some ent =>
            do* on_counters addFull in
            ret (MkSymbolFrame pc kernelModule (ks_name ent) (u64 (pc - ks_addr ent))
                    StackQualityFull)
        | None => ret (MkSymbolFrame pc [] [] 0 StackQualityFailed)
        end
    end.

(** SymbolizeUser after the mapping has been found *)
Definition symbolizeIn (entry : procMapsEntry) (pc : Z) : M SymbolFrame :=
  let relPC := u64 (pe_offset entry + u64 (pc - pe_start entry)) in
  let* es := getOrLoadElf (pe_path entry) in
  match es with
  | None =>
      do* on_counters addDegraded in
      ret (MkSymbolFrame pc (pe_path entry) [] (u64 (pc - pe_start entry)) StackQualityDegraded)
  | Some es =>
      match lookupElfSymbol es relPC with
      | None =>
          do* on_counters addFpOnly in
          ret (MkSymbolFrame pc (pe_path entry) [] (u64 (pc - pe_start entry)) StackQualityFpOnly)
      | Some sym =>
          do* (if symtabAvailable es then on_counters addFull else on_counters addDegraded) in
          ret (MkSymbolFrame pc (pe_path entry) (es_name sym) (u64 (relPC - es_rva sym))
                  (if symtabAvailable es then StackQualityFull else StackQualityDegraded))
      end
  end.

Definition failedFrame (pc : Z) : M SymbolFrame :=
  do* on_counters addFailed in ret (MkSymbolFrame pc [] [] 0 StackQualityFailed).

(** SymbolizeUser *)
Definition symbolizeUser (pid pc : Z) : M SymbolFrame :=
  if pc =? 0 then failedFrame pc
  else
    let* maps := getOrLoadMaps pid in
    match maps with
    | None => failedFrame pc
    | Some maps =>
        match findContaining maps pc with
        | Some entry => symbolizeIn entry pc
        | None =>
            do* maps_remove (Itoa pid) in
            let* maps2 := getOrLoadMaps pid in
            match maps2 with
            | None => failedFrame pc
            | Some maps2 =>
                match findContaining maps2 pc with
                | Some entry => symbolizeIn entry pc
                | None =>
                    do* on_counters addDegraded in
                    ret (MkSymbolFrame pc [] [] 0 StackQualityDegraded)
                end
            end
        end
    end.

(** What the collector calls *)
#[export] Instance proc_symbolizer : SymbolizerI := {|
  sym_state := Symbolizer * os_state;
  Collector.SymbolizeKernel s pc := symbolizeKernel pc s;
  Collector.SymbolizeUser s pid pc := symbolizeUser pid pc s |}.
End Symbolizer.
