(* ===== verification/SymbolCache.v ===== *)
(** * The symbolizer's caches

    lruCache refines the textbook LRU cache: a list of keys and values, most
    recently used first, cut at the capacity. *)

From S2P Require Import Prelude GoLang GoStd Symbolizer.

(** ** The specification *)

Module LruSpec.
Section Spec.
Context {V : Type}.
Implicit Types q : list (bytes * V).

Definition without (k : bytes) q : list (bytes * V) := filter (λ kv, kv.1 <> k) q.

Fixpoint find (k : bytes) q : option V :=
  match q with
  | [] => None
  | (k', v) :: q => if decide (k' = k) then Some v else find k q
  end.

Definition get (k : bytes) q : option V * list (bytes * V) :=
  match find k q with
  | Some v => (Some v, (k, v) :: without k q)
  | None => (None, q)
  end.

Definition put (cap : nat) (k : bytes) (v : V) q : list (bytes * V) := take cap ((k, v) :: without k q).
End Spec.
End LruSpec.

(** ** The abstraction *)

Section Refinement.
Context {V : Type}.
Implicit Types l : lruCache V.

Definition cell (es : gmap nat (lruEntry V)) (e : nat) : option (bytes * V) :=
  (λ ent, (le_key ent, le_value ent)) <$> es !! e.

Definition contents l : list (bytes * V) := omap (cell (elems l)) (order l).

Record cache_wf l : Prop := {
  cw_nodup : NoDup (order l);
  cw_items : forall k e, items l !! k = Some e <-> e ∈ order l /\ exists v, elems l !! e = Some (LruEntry k v);
  cw_cells : forall e, e ∈ order l -> is_Some (elems l !! e);
  cw_fresh : forall e, e ∈ order l -> (e < next_elem l)%nat;
  cw_cap : (length (order l) <= capacity l)%nat;
  cw_pos : (0 < capacity l)%nat }.

Lemma omap_ext_in {A B} (f g : A -> option B) (o : list A) :
  (forall x, x ∈ o -> f x = g x) -> omap f o = omap g o.
Proof.
  induction o as [|x o IH]; intros H; [done|]. cbn.
  rewrite (H x) by constructor. rewrite IH; [done|]. intros y Hy. apply H. by constructor.
Qed.

Lemma omap_length_some {A B} (f : A -> option B) (o : list A) :
  (forall x, x ∈ o -> is_Some (f x)) -> length (omap f o) = length o.
Proof.
  induction o as [|x o IH]; intros H; [done|]. cbn.
  destruct (H x) as [y ->]; [constructor|]. cbn. f_equal. apply IH. intros z Hz. apply H. by constructor.
Qed.

Lemma cell_some l e : cache_wf l -> e ∈ order l -> is_Some (cell (elems l) e).
Proof. intros W He. unfold cell. destruct (cw_cells _ W e He) as [x ->]. eauto. Qed.

(** The element of a key is the only one in the list with that key. *)
Lemma contents_without (es : gmap nat (lruEntry V)) o k e :
  (forall e', e' ∈ o -> exists ent, es !! e' = Some ent /\ (le_key ent = k <-> e' = e)) ->
  omap (cell es) (list_Remove e o) = LruSpec.without k (omap (cell es) o).
Proof.
  unfold LruSpec.without, list_Remove. induction o as [|x o IH]; intros H; [done|].
  destruct (H x) as (ent & Hx & Hk); [constructor|].
  specialize (IH ltac:(intros y Hy; apply H; by constructor)). cbn [omap list_omap].
  rewrite filter_cons. unfold cell at 2 3. rewrite Hx. cbn [fmap option_fmap option_map].
  rewrite filter_cons. cbn [fst]. destruct (decide (x <> e)); destruct (decide (le_key ent <> k)).
  - cbn [omap list_omap]. unfold cell at 1. rewrite Hx. cbn. by rewrite IH.
  - tauto.
  - tauto.
  - exact IH.
Qed.

Lemma keys_unique l k e :
  cache_wf l -> items l !! k = Some e ->
  forall e', e' ∈ order l -> exists ent, elems l !! e' = Some ent /\ (le_key ent = k <-> e' = e).
Proof.
  intros W Hk e' He'. destruct (cw_cells _ W e' He') as [[k' v'] Hc]. exists (LruEntry k' v').
  split; [done|]. cbn. split.
  - intros ->. assert (items l !! k = Some e') by (apply (cw_items _ W); eauto). congruence.
  - intros ->. apply (cw_items _ W) in Hk as [_ [v Hv]]. congruence.
Qed.

Lemma contents_drop l k e :
  cache_wf l -> items l !! k = Some e ->
  omap (cell (elems l)) (list_Remove e (order l)) = LruSpec.without k (contents l).
Proof. intros W Hk. apply contents_without. by apply keys_unique. Qed.

Lemma find_contents l k :
  cache_wf l -> LruSpec.find k (contents l) = e ← items l !! k; le_value <$> elems l !! e.
Proof.
  intros W. destruct (items l !! k) as [e|] eqn:Hk; cbn [mbind option_bind].
  - pose proof (keys_unique l k e W Hk) as Hu. apply (cw_items _ W) in Hk as [He [v Hv]].
    unfold contents. rewrite Hv. cbn. clear W. induction (order l) as [|x o IH]; [by apply not_elem_of_nil in He|].
    destruct (Hu x) as (ent & Hx & Hiff); [constructor|]. cbn [omap list_omap].
    unfold cell at 1. rewrite Hx. cbn. destruct (decide (le_key ent = k)) as [Ek|Ek].
    + apply Hiff in Ek. subst x. rewrite Hv in Hx. by injection Hx as <-.
    + apply elem_of_cons in He as [->|He]; [tauto|]. apply IH; [done|]. intros y Hy. apply Hu. by constructor.
  - unfold contents. assert (forall x, x ∈ order l -> exists ent, elems l !! x = Some ent /\ le_key ent <> k) as Hn.
    { intros x Hx. destruct (cw_cells _ W x Hx) as [[k' v] Hc]. eexists. split; [done|]. cbn. intros ->.
      assert (items l !! k = Some x) by (apply (cw_items _ W); eauto). congruence. }
    clear W. induction (order l) as [|x o IH]; [done|]. destruct (Hn x) as (ent & Hx & Hne); [constructor|].
    cbn [omap list_omap]. unfold cell at 1. rewrite Hx. cbn.
    destruct (decide _); [done|]. apply IH. intros y Hy. apply Hn. by constructor.
Qed.

Lemma elem_remove e x o : x ∈ list_Remove e o <-> x <> e /\ x ∈ o.
Proof. unfold list_Remove. rewrite list_elem_of_filter. tauto. Qed.

Lemma elem_front e x o : e ∈ o -> x ∈ MoveToFront e o <-> x ∈ o.
Proof.
  intros He. unfold MoveToFront. rewrite decide_True by done.
  rewrite elem_of_cons, elem_remove. destruct (decide (x = e)) as [->|]; tauto.
Qed.

Lemma remove_absent x o : x ∉ o -> list_Remove x o = o.
Proof.
  unfold list_Remove. induction o as [|y o IH]; [done|]. intros [Hne Hx]%not_elem_of_cons.
  rewrite filter_cons, decide_True by congruence. f_equal. by apply IH.
Qed.

Lemma length_list_Remove e o : NoDup o -> e ∈ o -> length o = S (length (list_Remove e o)).
Proof.
  unfold list_Remove. induction 1 as [|x o Hx Hnd IH]; intros He; [by apply not_elem_of_nil in He|].
  rewrite filter_cons. apply elem_of_cons in He as [->|He].
  - rewrite decide_False by tauto. cbn. f_equal. fold (list_Remove x o). by rewrite remove_absent.
  - rewrite decide_True by (intros ->; done). cbn. f_equal. by apply IH.
Qed.

Lemma nodup_front e o : NoDup o -> NoDup (MoveToFront e o).
Proof.
  intros H. unfold MoveToFront. case_decide; [|done]. constructor.
  - rewrite elem_remove. tauto.
  - by apply list.NoDup_filter.
Qed.

Lemma length_front e o : NoDup o -> length (MoveToFront e o) = length o.
Proof.
  intros H. unfold MoveToFront. case_decide; [|done]. cbn. symmetry. by apply length_list_Remove.
Qed.

(** Moving a listed element to the front, with its value changed by [f] *)
Lemma touch_wf l k e f :
  cache_wf l -> items l !! k = Some e -> (forall ent, le_key (f ent) = le_key ent) ->
  let l' := LruCache (capacity l) (MoveToFront e (order l)) (alter f e (elems l)) (items l) (next_elem l) in
  cache_wf l' /\
  contents l' = match elems l !! e with
                | Some ent => (k, le_value (f ent)) :: LruSpec.without k (contents l)
                | None => contents l
                end.
Proof.
  intros W Hk Hf l'. pose proof (contents_drop l k e W Hk) as Hd.
  pose proof Hk as [He [v Hv]]%(cw_items _ W). split.
  - split; cbn; [by apply nodup_front, W| |..].
    + intros k' e'. rewrite (cw_items _ W k' e'), elem_front by done.
      destruct (decide (e = e')) as [<-|Hne]; [|by rewrite lookup_alter_ne].
      rewrite lookup_alter_eq, Hv. cbn. pose proof (Hf (LruEntry k v)) as Hfk. cbn in Hfk.
      destruct (f (LruEntry k v)) as [k2 v2]. cbn in Hfk. subst k2.
      split; intros [H [w Hw]]; injection Hw as <- _; eauto.
    + intros e' H%elem_front; [|done]. apply lookup_alter_is_Some. by apply W.
    + intros e' H%elem_front; [|done]. by apply W.
    + rewrite length_front by apply W. apply W.
    + apply W.
  - rewrite Hv. unfold contents, l', MoveToFront. cbn [order elems]. rewrite decide_True by done.
    cbn [omap list_omap]. unfold cell at 1. rewrite lookup_alter_eq, Hv.
    cbn [fmap option_fmap option_map]. rewrite Hf. cbn [le_key]. f_equal.
    fold (contents l). rewrite <- Hd. apply omap_ext_in. intros x [Hx _]%elem_remove.
    unfold cell. by rewrite lookup_alter_ne.
Qed.

Lemma get_refines k l :
  cache_wf l ->
  let '(v, l') := lru_get k l in
  cache_wf l' /\ LruSpec.get k (contents l) = (v, contents l') /\ capacity l' = capacity l.
Proof.
  intros W. unfold lru_get, LruSpec.get. rewrite find_contents by done.
  destruct (items l !! k) as [e|] eqn:Hk; cbn [mbind option_bind]; [|done].
  destruct (touch_wf l k e id W Hk) as [W' Hc]; [done|].
  pose proof Hk as [He [v Hv]]%(cw_items _ W).
  assert (alter id e (elems l) = elems l) as E.
  { apply map_eq. intros i. destruct (decide (e = i)) as [<-|]; [|by rewrite lookup_alter_ne].
    rewrite lookup_alter_eq, Hv. done. }
  rewrite E in W', Hc. rewrite Hv in Hc |- *. split; [exact W'|]. by rewrite Hc.
Qed.

Lemma without_absent k (q : list (bytes * V)) : LruSpec.find k q = None -> LruSpec.without k q = q.
Proof.
  unfold LruSpec.without. induction q as [|[k' v] q IH]; [done|]. cbn [LruSpec.find].
  destruct (decide (k' = k)); [done|]. intros Hq. rewrite filter_cons, decide_True by done.
  by rewrite IH.
Qed.

Lemma drop_refines k l :
  cache_wf l ->
  cache_wf (lru_drop k l) /\ contents (lru_drop k l) = LruSpec.without k (contents l) /\
  capacity (lru_drop k l) = capacity l.
Proof.
  intros W. unfold lru_drop. destruct (items l !! k) as [e|] eqn:Hk.
  - pose proof Hk as [He [v Hv]]%(cw_items _ W). split; [|exact (conj (contents_drop l k e W Hk) eq_refl)].
    split; cbn.
    + apply list.NoDup_filter, W.
    + intros k' e'. rewrite lookup_delete_Some, elem_remove, (cw_items _ W k' e'). split.
      * intros (Hne & He' & v' & Hv'). split; [|by eauto]. split; [congruence|done].
      * intros ((Hne & He') & v' & Hv'). split; [|by eauto]. intros <-. apply Hne.
        assert (items l !! k = Some e') by (apply (cw_items _ W); eauto). congruence.
    + intros e' [_ H]%elem_remove. by apply W.
    + intros e' [_ H]%elem_remove. by apply W.
    + pose proof (length_list_Remove e (order l) (cw_nodup _ W) He). pose proof (cw_cap _ W). lia.
    + apply W.
  - split; [done|]. split; [|done]. symmetry. apply without_absent.
    by rewrite find_contents, Hk.
Qed.

Lemma remove_last x o : x ∉ o -> list_Remove x (o ++ [x]) = o.
Proof.
  intros Hx. unfold list_Remove. rewrite list.filter_app, filter_cons, decide_False by tauto.
  rewrite filter_nil, app_nil_r. by apply remove_absent.
Qed.

Lemma evict_refines l :
  (length (order l) <= S (capacity l))%nat -> (0 < capacity l)%nat ->
  cache_wf (LruCache (S (capacity l)) (order l) (elems l) (items l) (next_elem l)) ->
  cache_wf (evict_oldest l) /\ contents (evict_oldest l) = take (capacity l) (contents l) /\
  capacity (evict_oldest l) = capacity l.
Proof.
  intros Hlen Hpos [Hn Hi Hc Hf _ _]; cbn in *. unfold evict_oldest.
  assert (length (contents l) = length (order l)) as Hl.
  { apply omap_length_some. intros x Hx. destruct (Hc x Hx) as [ent He]. unfold cell. rewrite He. eauto. }
  destruct (Nat.ltb_spec (capacity l) (length (order l))) as [Hgt|Hle].
  2: { split; [by split|]. split; [|done]. rewrite take_ge by lia. done. }
  destruct (order l) as [|x o _] eqn:Ho using rev_ind; [cbn in Hgt; lia|]. rewrite last_snoc.
  assert (x ∉ o) as Hnx.
  { apply list.NoDup_app in Hn as (_ & Hd & _). intros H. apply (Hd x H). constructor. }
  rewrite remove_last by done. destruct (Hc x) as [[k v] Hx]; [by apply elem_of_app; right; constructor|].
  rewrite length_app in Hlen, Hgt. cbn in Hlen, Hgt. rewrite Hx. cbn [le_key].
  split; [|split; [|done]].
  - split; cbn; [exact (proj1 (proj1 (list.NoDup_app _ _) Hn))| |..|lia|done].
    + intros k' e'. rewrite lookup_delete_Some, Hi, elem_of_app, list_elem_of_singleton. split.
      * intros (Hne & [He'| ->] & v' & Hv'); [by eauto|]. congruence.
      * intros (He' & v' & Hv'). split; [|by eauto]. intros <-.
        assert (items l !! k = Some e') as E1 by (apply Hi; rewrite elem_of_app; eauto).
        assert (items l !! k = Some x) as E2.
        { apply Hi. rewrite elem_of_app, list_elem_of_singleton. eauto. }
        congruence.
    + intros e' He'. apply Hc. apply elem_of_app. by left.
    + intros e' He'. apply Hf. apply elem_of_app. by left.
  - unfold contents. cbn [order elems]. rewrite Ho, omap_app, take_app_le.
    + rewrite take_ge; [done|]. rewrite omap_length_some; [lia|].
      intros e' He'. destruct (Hc e') as [ent E]; [apply elem_of_app; by left|].
      unfold cell. rewrite E. eauto.
    + rewrite omap_length_some; [lia|].
      intros e' He'. destruct (Hc e') as [ent E]; [apply elem_of_app; by left|].
      unfold cell. rewrite E. eauto.
Qed.

Lemma without_short k (q : list (bytes * V)) : (length (LruSpec.without k q) <= length q)%nat.
Proof. apply list.length_filter. Qed.

(** A new element in front, before the capacity is enforced *)
Lemma push_wf l k v :
  cache_wf l -> items l !! k = None ->
  cache_wf (LruCache (S (capacity l)) (next_elem l :: order l)
              (<[next_elem l := LruEntry k v]> (elems l)) (<[k := next_elem l]> (items l))
              (S (next_elem l))).
Proof.
  intros W Hk. pose proof (cw_fresh _ W) as Hf.
  assert (forall x, x ∈ order l -> next_elem l <> x) as Hnew by (intros x Hx; specialize (Hf x Hx); lia).
  split; cbn.
  - constructor; [|apply W]. intros H. by apply (Hnew _ H).
  - intros k' e'. rewrite lookup_insert_Some, elem_of_cons, (cw_items _ W k' e'). split.
    + intros [[<- <-]|(Hne & He & w & Hw)].
      * rewrite lookup_insert_eq. eauto.
      * rewrite lookup_insert_ne by auto. eauto.
    + intros [[->|He] [w Hw]].
      * rewrite lookup_insert_eq in Hw. injection Hw as <- <-. auto.
      * rewrite lookup_insert_ne in Hw by auto. right. split; [|by eauto]. intros <-.
        assert (items l !! k = Some e') by (apply (cw_items _ W); eauto). congruence.
  - intros e' [->|He]%elem_of_cons; [rewrite lookup_insert_eq; eauto|].
    rewrite lookup_insert_ne by auto. by apply W.
  - intros e' [->|He]%elem_of_cons; [lia|]. specialize (Hf e' He). lia.
  - pose proof (cw_cap _ W). lia.
  - lia.
Qed.

Lemma put_refines k v l :
  cache_wf l ->
  cache_wf (lru_put k v l) /\ contents (lru_put k v l) = LruSpec.put (capacity l) k v (contents l) /\
  capacity (lru_put k v l) = capacity l.
Proof.
  intros W. unfold lru_put, LruSpec.put. destruct (items l !! k) as [e|] eqn:Hk.
  - destruct (touch_wf l k e (λ ent, LruEntry (le_key ent) v) W Hk) as [W' Hc]; [done|].
    pose proof Hk as [He [v0 Hv]]%(cw_items _ W). rewrite Hv in Hc. cbn [le_value] in Hc.
    split; [exact W'|]. split; [|done]. rewrite take_ge; [exact Hc|].
    rewrite <- Hc. unfold contents. rewrite omap_length_some by (intros x; by apply cell_some). apply W'.
  - destruct (evict_refines (LruCache (capacity l) (next_elem l :: order l)
      (<[next_elem l := LruEntry k v]> (elems l)) (<[k := next_elem l]> (items l)) (S (next_elem l))))
      as (W' & Hc & Hcap); [cbn; pose proof (cw_cap _ W); lia|apply W|exact (push_wf l k v W Hk)|].
    split; [exact W'|]. split; [|exact Hcap]. rewrite Hc. cbn [capacity]. f_equal.
    unfold contents. cbn [order elems omap list_omap]. unfold cell at 1. rewrite lookup_insert_eq.
    cbn [fmap option_fmap option_map le_key le_value]. f_equal.
    fold (contents l). rewrite without_absent by (by rewrite find_contents, Hk).
    apply omap_ext_in. intros x Hx. unfold cell. rewrite lookup_insert_ne; [done|].
    pose proof (cw_fresh _ W x Hx). lia.
Qed.

Lemma newLRU_wf cap : (0 < cap)%nat -> cache_wf (newLRU cap : lruCache V).
Proof.
  intros H. split; cbn; [constructor| |..|lia|done]; try by intros e He%not_elem_of_nil.
  intros k e. rewrite lookup_empty. split; [done|]. by intros [He%not_elem_of_nil _].
Qed.
End Refinement.

(** ** Sequences of operations *)

Inductive cache_op V := OpGet (k : bytes) | OpPut (k : bytes) (v : V) | OpRemove (k : bytes).
Arguments OpGet {V} _.
Arguments OpPut {V} _ _.
Arguments OpRemove {V} _.

Definition cache_step {V} (op : cache_op V) (l : lruCache V) : option V * lruCache V :=
  match op with
  | OpGet k => lru_get k l
  | OpPut k v => (None, lru_put k v l)
  | OpRemove k => (None, lru_drop k l)
  end.

Definition spec_step {V} (cap : nat) (op : cache_op V) (q : list (bytes * V))
    : option V * list (bytes * V) :=
  match op with
  | OpGet k => LruSpec.get k q
  | OpPut k v => (None, LruSpec.put cap k v q)
  | OpRemove k => (None, LruSpec.without k q)
  end.

Fixpoint run_ops {V S} (step : cache_op V -> S -> option V * S) (ops : list (cache_op V)) (s : S)
    : list (option V) * S :=
  match ops with
  | [] => ([], s)
  | op :: ops =>
      let '(r, s) := step op s in
      let '(rs, s) := run_ops step ops s in (r :: rs, s)
  end.

Lemma step_refines {V} (op : cache_op V) l :
  cache_wf l ->
  cache_wf (cache_step op l).2 /\ capacity (cache_step op l).2 = capacity l /\
  spec_step (capacity l) op (contents l) = ((cache_step op l).1, contents (cache_step op l).2).
Proof.
  intros W. destruct op as [k|k v|k]; cbn.
  - pose proof (get_refines k l W) as H. destruct (lru_get k l). tauto.
  - destruct (put_refines k v l W) as (W' & Hc & Hcap). by rewrite Hc.
  - destruct (drop_refines k l W) as (W' & Hc & Hcap). by rewrite Hc.
Qed.

Lemma run_refines {V} (ops : list (cache_op V)) l :
  cache_wf l ->
  cache_wf (run_ops cache_step ops l).2 /\ capacity (run_ops cache_step ops l).2 = capacity l /\
  run_ops (spec_step (capacity l)) ops (contents l) =
    ((run_ops cache_step ops l).1, contents (run_ops cache_step ops l).2).
Proof.
  revert l. induction ops as [|op ops IH]; intros l W; [done|]. cbn [run_ops].
  destruct (step_refines op l W) as (W1 & Hcap & Hs). rewrite Hs.
  destruct (cache_step op l) as [r l1]. cbn [fst snd] in *.
  destruct (IH l1 W1) as (W2 & Hcap2 & Hr). rewrite Hcap in Hr. rewrite Hr.
  destruct (run_ops cache_step ops l1) as [rs l2]. cbn in *. by rewrite Hcap2.
Qed.

(** C36: Every sequence of get, put and remove on a new cache returns what the
    textbook LRU cache returns, leaves the same entries in the same order of
    use, and never holds more entries than its capacity. *)
Theorem lruCache_refines_lru {V} cap (ops : list (cache_op V)) :
  (0 < cap)%nat ->
  let '(rs, l) := run_ops cache_step ops (newLRU cap) in
  run_ops (spec_step cap) ops [] = (rs, contents l) /\ (length (contents l) <= cap)%nat.
Proof.
  intros Hcap. destruct (run_refines ops (newLRU cap) (newLRU_wf cap Hcap)) as (W & Hc & Hr).
  destruct (run_ops cache_step ops (newLRU cap)) as [rs l]. cbn in *. split; [exact Hr|].
  unfold contents. rewrite omap_length_some by (intros x; by apply cell_some). rewrite <- Hc. apply W.
Qed.

Lemma lruCache_refines_lru_witness :
  (run_ops cache_step
     [OpPut [1] 10; OpPut [2] 20; OpGet [1]; OpPut [3] 30; OpGet [2]; OpGet [1]; OpRemove [3]; OpGet [3]]
     (newLRU 2)).1 = [None; None; Some 10; None; None; Some 10; None; None].
Proof.
  pose proof (lruCache_refines_lru 2
    [OpPut [1] 10; OpPut [2] 20; OpGet [1]; OpPut [3] 30; OpGet [2]; OpGet [1]; OpRemove [3]; OpGet [3]]
    ltac:(lia)) as H.
  destruct (run_ops cache_step _ _) as [rs l]. destruct H as [H _]. vm_compute in H.
  exact (eq_sym (f_equal fst H)).
Defined.
