(* ===== verification/SymbolLookup.v ===== *)
(** * Correctness of the symbolizer's lookups and parsers

    The binary searches against what they are meant to find, and the parsers
    of /proc against the format the kernel prints. *)

From S2P Require Import Prelude GoLang GoStd Protocol Collector Symbolizer.

(** ** Binary search in a sorted slice *)

Definition sorted_by {A} (key : A -> Z) (l : list A) : Prop :=
  forall i j x y, (i < j)%nat -> l !! i = Some x -> l !! j = Some y -> key x <= key y.

Lemma Search_sorted {A} (key : A -> Z) l v :
  sorted_by key l ->
  let idx := Search (length l) (λ i, match l !! i with Some x => v <? key x | None => true end) in
  (idx <= length l)%nat /\
  (forall i x, (i < idx)%nat -> l !! i = Some x -> key x <= v) /\
  (forall i x, (idx <= i)%nat -> l !! i = Some x -> v < key x).
Proof.
  intros Hs. set (f := λ i, match l !! i with Some x => v <? key x | None => true end).
  destruct (Search_spec (length l) f) as (Hle & Hlt & Hge); unfold f in *.
  { intros a b Hab. destruct (decide (a = b)) as [->|Hne]; [done|].
    destruct (lookup_lt_is_Some_2 l a) as [x Hx]; [lia|].
    destruct (lookup_lt_is_Some_2 l b) as [y Hy]; [lia|]. rewrite Hx, Hy.
    specialize (Hs a b x y ltac:(lia) Hx Hy).
    destruct (Z.ltb_spec v (key x)), (Z.ltb_spec v (key y)); lia || done. }
  fold f in Hle, Hlt, Hge |- *. set (idx := Search (length l) f) in *. cbn.
  split; [exact Hle|]. split.
  - intros i x Hi Hx. specialize (Hlt i Hi). unfold f in Hlt. rewrite Hx in Hlt.
    destruct (Z.ltb_spec v (key x)); [done|lia].
  - intros i x Hi Hx. apply lookup_lt_Some in Hx as Hil. specialize (Hge ltac:(lia)). unfold f in Hge.
    destruct (lookup_lt_is_Some_2 l idx) as [y Hy]; [lia|]. rewrite Hy in Hge. apply Z.ltb_lt in Hge.
    destruct (decide (idx = i)) as [E|Hne]; [rewrite E in Hy; congruence|].
    specialize (Hs idx i y x ltac:(lia) Hy Hx). lia.
Qed.

Lemma elem_lookup {A} (l : list A) x : x ∈ l <-> exists i, l !! i = Some x.
Proof. split; [apply list_elem_of_lookup_1|]. intros [i Hi]. by eapply list_elem_of_lookup_2. Qed.

(** The orders the code sorts by *)
Lemma key_weak_order {A} (key : A -> Z) : weak_order (λ a b, key a <? key b).
Proof.
  split.
  - intros x. apply Z.ltb_irrefl.
  - intros x y z H1%Z.ltb_lt H2%Z.ltb_lt. apply Z.ltb_lt. lia.
  - intros x y z H%Z.ltb_lt. destruct (Z.ltb_spec (key x) (key z)); [by left|].
    right. apply Z.ltb_lt. lia.
Qed.

Lemma elf_weak_order : weak_order elf_less.
Proof.
  unfold elf_less. split.
  - intros x. rewrite Z.eqb_refl. apply Z.ltb_irrefl.
  - intros x y z. destruct (Z.eqb_spec (es_rva x) (es_rva y)), (Z.eqb_spec (es_rva y) (es_rva z)),
      (Z.eqb_spec (es_rva x) (es_rva z)); rewrite ?Z.ltb_lt; lia.
  - intros x y z. destruct (Z.eqb_spec (es_rva x) (es_rva y)), (Z.eqb_spec (es_rva x) (es_rva z)),
      (Z.eqb_spec (es_rva z) (es_rva y)); rewrite ?Z.ltb_lt; lia.
Qed.

Section Sorted.
Context {G : GoSort} {GL : GoSortLaws}.

Lemma sort_sorted_by {A} (key : A -> Z) (l : list A) :
  sorted_by key (sort_slice (λ a b, key a <? key b) l).
Proof.
  intros i j x y Hij Hx Hy.
  pose proof (sort_ordered _ _ l (key_weak_order key) i j x y Hij Hx Hy) as H.
  cbn in H.  destruct (Z.ltb_spec (key y) (key x)); [done|lia].
Qed.

Lemma elem_sorted {A} (less : A -> A -> bool) l x : x ∈ sort_slice less l <-> x ∈ l.
Proof. by rewrite (sort_perm _ less l). Qed.

Lemma elf_sorted_by l : sorted_by es_rva (sort_slice elf_less l).
Proof.
  intros i j x y Hij Hx Hy.
  pose proof (sort_ordered _ _ l elf_weak_order i j x y Hij Hx Hy) as H. unfold elf_less in H.
  destruct (Z.eqb_spec (es_rva y) (es_rva x)); [lia|].
  destruct (Z.ltb_spec (es_rva y) (es_rva x)); [done|lia].
Qed.
End Sorted.

(** ** findContaining *)

(** Mappings of one process do not overlap. *)
Definition disjoint_maps (es : list procMapsEntry) : Prop :=
  (forall e, e ∈ es -> pe_start e < pe_end e) /\
  (forall i j e f, es !! i = Some e -> es !! j = Some f -> i <> j ->
     pe_end e <= pe_start f \/ pe_end f <= pe_start e).

Lemma disjoint_maps_perm es es' : es ≡ₚ es' -> disjoint_maps es -> disjoint_maps es'.
Proof.
  intros Hp [Hne Hd]. split.
  - intros e He. apply Hne. by rewrite Hp.
  - apply Permutation_sym, Permutation_inj in Hp as [Hlen (f & Hf & Hlk)].
    intros i j e g He Hg Hij. rewrite Hlk in He, Hg. apply (Hd _ _ _ _ He Hg). intros E. by apply Hf in E.
Qed.

Lemma sorted_ends es : sorted_by pe_start es -> disjoint_maps es -> sorted_by pe_end es.
Proof.
  intros Hs [Hne Hd] i j x y Hij Hx Hy. specialize (Hs i j x y Hij Hx Hy).
  pose proof (Hne x ltac:(by apply elem_lookup; eauto)). pose proof (Hne y ltac:(by apply elem_lookup; eauto)).
  destruct (Hd i j x y Hx Hy ltac:(lia)); lia.
Qed.

Lemma findContaining_spec m pc :
  sorted_by pe_start (pm_entries m) -> disjoint_maps (pm_entries m) ->
  forall e, findContaining m pc = Some e <-> e ∈ pm_entries m /\ pe_start e <= pc < pe_end e.
Proof.
  intros Hs Hd e. destruct (Search_sorted pe_end (pm_entries m) pc (sorted_ends _ Hs Hd)) as (Hle & Hlt & Hge).
  unfold findContaining. set (idx := Search _ _) in *. split.
  - intros H. destruct (pm_entries m !! idx) as [e'|] eqn:E; [|done]. cbn in H.
    destruct (Z.leb_spec (pe_start e') pc), (Z.ltb_spec pc (pe_end e')); try done. cbn in H.
    injection H as <-. split; [apply elem_lookup; eauto|lia].
  - intros [[i Hi]%elem_lookup Hin]. destruct (decide (i < idx)%nat) as [Hl|Hl].
    { specialize (Hlt i e Hl Hi). lia. }
    destruct (lookup_lt_is_Some_2 (pm_entries m) idx) as [e' He']; [apply lookup_lt_Some in Hi; lia|].
    assert (idx = i) as Ei.
    { destruct (decide (idx = i)) as [|Hne]; [done|]. pose proof (Hge idx e' ltac:(lia) He').
      pose proof (Hs idx i e' e ltac:(lia) He' Hi). destruct Hd as [_ Hd].
      destruct (Hd idx i e' e He' Hi Hne); lia. }
    rewrite Ei, Hi. cbn. destruct (Z.leb_spec (pe_start e) pc); [|lia].
    destruct (Z.ltb_spec pc (pe_end e)); [done|lia].
Qed.

(** ** lookupElfSymbol *)

Section Elf.
Variables (es : elfSymbols) (rva : Z).

(** The candidate: the last symbol that starts at or below [rva] *)
Lemma elf_candidate :
  sorted_by es_rva (es_symbols es) ->
  let syms := es_symbols es in
  let idx := Search (length syms) (λ i, match syms !! i with Some s => rva <? es_rva s | None => true end) in
  match idx with
  | O => forall s, s ∈ syms -> rva < es_rva s
  | S i => exists s, syms !! i = Some s /\ es_rva s <= rva /\
             (forall j s', syms !! j = Some s' -> (i < j)%nat -> rva < es_rva s') /\
             (forall s', s' ∈ syms -> es_rva s' <= rva -> es_rva s' <= es_rva s)
  end.
Proof.
  intros Hs syms idx. destruct (Search_sorted es_rva syms rva Hs) as (Hle & Hlt & Hge). fold idx in Hle, Hlt, Hge.
  destruct idx as [|i].
  - intros s [j Hj]%elem_lookup. by apply (Hge j); [lia|].
  - destruct (lookup_lt_is_Some_2 syms i) as [s Hi]; [lia|]. exists s. split; [done|].
    split; [by apply (Hlt i); [lia|]|]. split; [intros j s' Hj Hij; by apply (Hge j); [lia|]|].
    intros s' [j Hj]%elem_lookup Hrva. destruct (decide (j = i)) as [->|]; [by replace s' with s by congruence|].
    destruct (decide (j < i)%nat) as [Hl|Hl]; [exact (Hs j i s' s Hl Hj Hi)|].
    pose proof (Hge j s' ltac:(lia) Hj). lia.
Qed.

Lemma lookupElfSymbol_unfold :
  lookupElfSymbol es rva =
  match Search (length (es_symbols es))
          (λ i, match es_symbols es !! i with Some s => rva <? es_rva s | None => true end) with
  | O => None
  | S i => cand ← es_symbols es !! i;
      if es_size cand =? 0 then Some cand
      else if rva <? u64 (es_rva cand + es_size cand) then Some cand else None
  end.
Proof.
  unfold lookupElfSymbol. destruct (Search _ _) as [|i]; [done|]. cbn.
  by rewrite Nat.sub_0_r.
Qed.
End Elf.

Definition covers (rva : Z) (s : elfSymbol) : Prop :=
  es_rva s <= rva /\ (es_size s = 0 \/ rva < es_rva s + es_size s).

Lemma lookup_elf_sound es rva s :
  sorted_by es_rva (es_symbols es) -> (forall s, s ∈ es_symbols es -> fits 64 (es_rva s + es_size s)) ->
  lookupElfSymbol es rva = Some s ->
  s ∈ es_symbols es /\ covers rva s /\
  (forall s', s' ∈ es_symbols es -> es_rva s' <= rva -> es_rva s' <= es_rva s).
Proof.
  intros Hs Hfit. rewrite lookupElfSymbol_unfold. pose proof (elf_candidate es rva Hs) as Hc.
  cbn in Hc. destruct (Search _ _) as [|i]; [done|]. destruct Hc as (c & Hi & Hle & _ & Hmax). rewrite Hi. cbn.
  assert (c ∈ es_symbols es) as Hin by (apply elem_lookup; eauto).
  unfold covers. destruct (Z.eqb_spec (es_size c) 0); [intros [= <-]; auto|].
  unfold u64. rewrite wrap_small by (by apply Hfit).
  destruct (Z.ltb_spec rva (es_rva c + es_size c)); [intros [= <-]; auto|done].
Qed.

(** Of several symbols at one address, one that covers [rva] is found if they
    all do. *)
Lemma lookup_elf_complete es rva s :
  sorted_by es_rva (es_symbols es) -> (forall s, s ∈ es_symbols es -> fits 64 (es_rva s + es_size s)) ->
  s ∈ es_symbols es -> es_rva s <= rva ->
  (forall s', s' ∈ es_symbols es -> es_rva s' <= rva -> es_rva s' < es_rva s \/ es_rva s' = es_rva s /\ covers rva s') ->
  exists c, c ∈ es_symbols es /\ es_rva c = es_rva s /\ lookupElfSymbol es rva = Some c.
Proof.
  intros Hs Hfit Hin Hle Hu. rewrite lookupElfSymbol_unfold. pose proof (elf_candidate es rva Hs) as Hc.
  cbn in Hc. destruct (Search _ _) as [|i]; [specialize (Hc s Hin); lia|].
  destruct Hc as (c & Hi & Hcle & _ & Hmax). rewrite Hi. cbn.
  assert (c ∈ es_symbols es) as Hc by (apply elem_lookup; eauto). specialize (Hmax s Hin Hle).
  destruct (Hu c Hc Hcle) as [|[E [_ Hcov]]]; [lia|]. exists c. split; [done|]. split; [done|].
  destruct (Z.eqb_spec (es_size c) 0); [done|]. unfold u64. rewrite wrap_small by (by apply Hfit).
  destruct (Z.ltb_spec rva (es_rva c + es_size c)); [done|lia].
Qed.

(** ** SymbolizeKernel *)

Section Kernel.
Context `{OI : OS} {G : GoSort} {GL : GoSortLaws}.

(** What the kernel symbol table says about [pc]: the entry at the greatest
    address that is not above it. *)
Definition nearest (entries : list kallsymsEntry) (pc : Z) (e : kallsymsEntry) : Prop :=
  e ∈ entries /\ ks_addr e <= pc /\
  forall e', e' ∈ entries -> ks_addr e' <= pc -> ks_addr e' <= ks_addr e.

Lemma symbolizeKernel_spec y o pc :
  sorted_by ks_addr (kallsyms y) -> (forall e, e ∈ kallsyms y -> fits 64 (ks_addr e)) ->
  0 < pc < 2 ^ 64 ->
  let f := (symbolizeKernel pc (y, o)).1 in
  (exists e, nearest (kallsyms y) pc e /\
     f = MkSymbolFrame pc kernelModule (ks_name e) (pc - ks_addr e) StackQualityFull) \/
  ((forall e, e ∈ kallsyms y -> pc < ks_addr e) /\ sf_Quality f = StackQualityFailed /\ sf_Symbol f = []).
Proof.
  intros Hs Hfit Hpc. unfold symbolizeKernel, bind, get_kallsyms. cbn [fst].
  destruct (Nat.eqb_spec (length (kallsyms y)) 0) as [E|_].
  { apply nil_length_inv in E. right. rewrite E. split; [|done]. by intros e He%not_elem_of_nil. }
  destruct (Z.eqb_spec pc 0); [lia|]. cbn [orb].
  destruct (Search_sorted ks_addr (kallsyms y) pc Hs) as (Hle & Hlt & Hge).
  destruct (Search _ _) as [|i].
  - right. split; [|done]. intros e [j Hj]%elem_lookup. by apply (Hge j); [lia|].
  - left. destruct (lookup_lt_is_Some_2 (kallsyms y) i) as [e Hi]; [lia|]. rewrite Hi.
    assert (e ∈ kallsyms y) as Hin by (apply elem_lookup; eauto).
    pose proof (Hlt i e ltac:(lia) Hi) as Hep. specialize (Hfit e Hin). unfold fits in Hfit.
    exists e. split.
    + split; [done|]. split; [done|]. intros e' [j Hj]%elem_lookup He'.
      destruct (decide (j = i)) as [->|]; [by replace e' with e by congruence|].
      destruct (decide (j < i)%nat) as [Hl|Hl]; [exact (Hs j i e' e Hl Hj Hi)|].
      pose proof (Hge j e' ltac:(lia) Hj). lia.
    + cbn. unfold u64. by rewrite wrap_small by (unfold fits; lia).
Qed.

Lemma digit_val_nonneg c d : digit_val c = Some d -> 0 <= d.
Proof.
  unfold digit_val. destruct (_ && _) eqn:E1; [intros [= <-]; lia|].
  destruct (_ && _) eqn:E2 in |- *; [intros [= <-]; lia|].
  destruct (_ && _) eqn:E3 in |- *; [intros [= <-]; lia|done].
Qed.

Lemma ParseUint_fits s base n : ParseUint s base = Some n -> 2 <= base -> fits 64 n.
Proof.
  unfold ParseUint. destruct s as [|c s]; [done|].
  assert (forall s acc n, 0 <= acc -> 2 <= base -> digits_val base acc s = Some n -> 0 <= n) as Hnn.
  { clear. induction s as [|c s IH]; intros acc n Ha Hb; [by intros [= <-]|]. cbn.
    destruct (digit_val c) as [d|] eqn:Ed; [|done]. cbn. destruct (d <? base); [|done].
    apply IH; [|done]. apply digit_val_nonneg in Ed. nia. }
  destruct (digits_val base 0 (c :: s)) as [m|] eqn:E; [|done]. cbn.
  destruct (Z.ltb_spec m (2 ^ 64)); [|done]. intros [= <-] Hb. split; [|done].
  by apply (Hnn (c :: s) 0).
Qed.

Lemma parseKallsyms_fits line e : parseKallsymsLine line = Some e -> fits 64 (ks_addr e).
Proof.
  unfold parseKallsymsLine. destruct (Fields line) as [|f0 [|f1 [|f2 fs]]]; try done.
  destruct (ParseUint f0 16) as [a|] eqn:E; [|done]. destruct (a =? 0); [done|]. intros [= <-].
  by apply ParseUint_fits in E.
Qed.
End Kernel.

(** ** The formats of /proc *)

(** %08lx *)
Definition hex8 (n : Z) : bytes :=
  replicate (8 - length (FormatUint n 16)) 48 ++ FormatUint n 16.

(** A line of /proc/<pid>/maps: the path, given by its words, is padded to a
    column. *)
Definition maps_line (e : procMapsEntry) (dev inode : bytes) (pad : nat) : bytes :=
  hex8 (pe_start e) ++ 45 :: hex8 (pe_end e) ++ 32 :: pe_perms e ++ 32 :: hex8 (pe_offset e) ++ 32 ::
  dev ++ 32 :: inode ++ 32 :: replicate pad 32 ++ pe_path e.

(** /proc/<pid>/stat: the command name is free text, [rest] the fields from
    the third on. *)
Definition stat_line (pid : Z) (comm : bytes) (rest : list bytes) : bytes :=
  Itoa pid ++ str " (" ++ comm ++ str ") " ++ Join [32] rest ++ [10].

Lemma digits_val_zeros k base s :
  2 <= base -> digits_val base 0 (replicate k 48 ++ s) = digits_val base 0 s.
Proof.
  intros Hb. induction k as [|k IH]; [done|]. cbn [replicate app digits_val].
  change (digit_val 48) with (Some 0). cbn [mbind option_bind].
  destruct (Z.ltb_spec 0 base); [exact IH|lia].
Qed.

Lemma ParseUint_hex8 n : fits 64 n -> ParseUint (hex8 n) 16 = Some n.
Proof.
  intros Hn. rewrite <- (ParseUint_FormatUint n 16) by done. unfold hex8, ParseUint.
  pose proof (FormatUint_nonempty n 16). rewrite digits_val_zeros by lia.
  destruct (FormatUint n 16) as [|c s]; [done|]. by destruct (replicate _ _).
Qed.

Lemma hex8_chars n : 0 <= n -> hex8 n <> [] /\ Forall alnum (hex8 n).
Proof.
  intros Hn. unfold hex8. split.
  - pose proof (FormatUint_nonempty n 16). destruct (replicate _ _); done.
  - apply list.Forall_app. split; [|by apply FormatUint_alnum].
    apply list.Forall_replicate. left. lia.
Qed.

Lemma hex8_word n : 0 <= n -> word (hex8 n).
Proof.
  intros Hn. destruct (hex8_chars n Hn) as [Hne Ha]. apply ascii_word; [done|].
  eapply list.Forall_impl; [exact Ha|]. unfold alnum. cbn. lia.
Qed.

Lemma IndexByte_app c s rest : Forall (λ b, b <> c) s -> IndexByte c (s ++ c :: rest) = Some (length s).
Proof.
  induction 1 as [|b s Hb _ IH]; cbn [app IndexByte length]; [by rewrite Z.eqb_refl|].
  destruct (Z.eqb_spec b c); [done|]. by rewrite IH.
Qed.

Lemma SplitN2_app c s rest : Forall (λ b, b <> c) s -> SplitN2 (s ++ c :: rest) c = [s; rest].
Proof.
  intros Hs. unfold SplitN2. rewrite IndexByte_app by done.
  rewrite take_app_length, drop_app_ge by lia.
  by replace (S (length s) - length s)%nat with 1%nat by lia.
Qed.

Lemma range_word a b : 0 <= a -> 0 <= b -> word (hex8 a ++ 45 :: hex8 b).
Proof.
  intros Ha Hb. destruct (hex8_chars a Ha) as [Hne Hca], (hex8_chars b Hb) as [_ Hcb].
  apply ascii_word; [by destruct (hex8 a)|]. apply list.Forall_app. split; [|constructor; [lia|]].
  all: eapply list.Forall_impl; [eassumption|]; unfold alnum; cbn; lia.
Qed.

(** A literal without blanks is a field. *)
Ltac literal_word :=
  apply ascii_word;
    [discriminate
    |vm_compute; repeat (apply list.Forall_cons; split; [split; [discriminate|reflexivity]|]);
     apply list.Forall_nil; exact I].

(** A line of /proc/<pid>/maps as the kernel prints it is read back as the
    mapping it describes, whatever the width of the addresses and whether or
    not there is a path, provided the blanks inside a path are single. *)
Theorem maps_line_round_trip e dev inode pad ws :
  fits 64 (pe_start e) -> fits 64 (pe_end e) -> fits 64 (pe_offset e) ->
  word (pe_perms e) -> word dev -> word inode -> Forall word ws -> pe_path e = Join [32] ws ->
  parseMapsLine (maps_line e dev inode pad) = Some e.
Proof.
  intros Hs He Ho Hp Hd Hi Hws Hpath. destruct e as [st en perms off path].
  cbn [pe_start pe_end pe_perms pe_offset pe_path] in *.
  unfold parseMapsLine, maps_line. cbn [pe_start pe_end pe_perms pe_offset pe_path].
  rewrite (app_comm_cons (hex8 en)), app_assoc. unfold fits in Hs, He, Ho.
  rewrite !Fields_cons by (done || apply range_word || apply hex8_word; lia).
  rewrite Fields_spaces, Hpath, Fields_Join by done.
  destruct (hex8_chars st ltac:(lia)) as [_ Hc]. rewrite SplitN2_app.
  - by rewrite !ParseUint_hex8 by (unfold fits; lia).
  - eapply list.Forall_impl; [exact Hc|]. unfold alnum. cbn. lia.
Qed.

Lemma maps_line_round_trip_witness :
  let e := ProcMapsEntry 0x7f8a000000 0x7f8a001000 (str "r-xp") 0x2000 (str "/data/app/lib a.so") in
  maps_line e (str "fc:01") (str "12345") 7 =
    str "7f8a000000-7f8a001000 r-xp 00002000 fc:01 12345        /data/app/lib a.so" /\
  parseMapsLine (maps_line e (str "fc:01") (str "12345") 7) = Some e.
Proof.
  intros e. split; [reflexivity|].
  apply (maps_line_round_trip e (str "fc:01") (str "12345") 7 [str "/data/app/lib"; str "a.so"]);
    [by split; vm_compute..|literal_word|literal_word|literal_word| |reflexivity].
  repeat (constructor; [literal_word|]). constructor.
Defined.

Lemma LastIndexByte_none c s : Forall (λ b, b <> c) s -> LastIndexByte c s = None.
Proof.
  induction 1 as [|b s Hb _ IH]; [done|]. cbn. rewrite IH. by destruct (Z.eqb_spec b c).
Qed.

Lemma LastIndexByte_app c s rest :
  Forall (λ b, b <> c) rest -> LastIndexByte c (s ++ c :: rest) = Some (length s).
Proof.
  intros Hr. induction s as [|b s IH]; cbn [app LastIndexByte length].
  - by rewrite LastIndexByte_none, Z.eqb_refl.
  - by rewrite IH.
Qed.

Lemma Fields_line fs : Forall word fs -> Fields (Join [32] fs ++ [10]) = fs.
Proof.
  induction 1 as [|w fs Hw Hfs IH]; [done|]. destruct fs as [|f fs].
  - destruct Hw as [Hne Hw]. cbn [Join]. unfold Fields. rewrite fields_from_word by done. cbn. by destruct w.
  - change (Join [32] (w :: f :: fs)) with (w ++ 32 :: Join [32] (f :: fs)).
    rewrite <- app_assoc. cbn [app]. by rewrite Fields_cons, IH.
Qed.

Lemma Join_avoids c fs :
  c <> 32 -> Forall (Forall (λ b, b <> c)) fs -> Forall (λ b, b <> c) (Join [32] fs).
Proof.
  intros Hc. induction 1 as [|w fs Hw Hfs IH]; [constructor|]. destruct fs as [|f fs]; [done|].
  change (Join [32] (w :: f :: fs)) with (w ++ 32 :: Join [32] (f :: fs)).
  apply list.Forall_app. split; [done|]. constructor; [lia|done].
Qed.

(** The start time of a process is read from field 22 of its stat line
    whatever its command name contains: blanks, parentheses, or text that
    looks like further fields. *)
Theorem starttime_any_command pid comm rest st :
  Forall word rest -> Forall (Forall (λ b, b <> 41)) rest -> (20 <= length rest)%nat ->
  rest !! 19%nat = Some (FormatUint st 10) -> fits 64 st ->
  parseStarttime (stat_line pid comm rest) = Some st.
Proof.
  intros Hw Hp Hlen H19 Hst. unfold parseStarttime, stat_line.
  change (str " (" ++ comm ++ str ") " ++ Join [32] rest ++ [10])
    with (str " (" ++ comm ++ 41 :: 32 :: Join [32] rest ++ [10]).
  rewrite !app_assoc. set (pre := (Itoa pid ++ str " (") ++ comm). rewrite LastIndexByte_app.
  2: { constructor; [done|]. apply list.Forall_app. split; [by apply Join_avoids|by repeat constructor]. }
  destruct (Nat.leb_spec (length (pre ++ 41 :: 32 :: Join [32] rest ++ [10])) (length pre + 2)) as [Hle|_].
  { rewrite length_app in Hle. cbn [length] in Hle. rewrite length_app in Hle. cbn [length] in Hle. lia. }
  rewrite drop_app_add. change (drop 2 (41 :: 32 :: Join [32] rest ++ [10])) with (Join [32] rest ++ [10]).
  rewrite Fields_line by done.
  destruct (Nat.ltb_spec (length rest) 20); [lia|]. rewrite H19. cbn [mbind option_bind].
  by apply ParseUint_FormatUint.
Qed.

Lemma starttime_any_command_witness :
  let rest := replicate 19 (str "0") ++ [str "98765"; str "4096"] in
  parseStarttime (stat_line 4711 (str "a) R 1 2 (b") rest) = Some 98765.
Proof.
  intros rest. apply (starttime_any_command 4711 (str "a) R 1 2 (b") rest);
    [..|by vm_compute; lia|reflexivity|by split; vm_compute].
  - unfold rest. repeat (apply list.Forall_cons; split; [literal_word|]). apply list.Forall_nil. exact I.
  - vm_compute. repeat constructor; discriminate.
Defined.

(** ** What the loaded tables answer *)

Section Tables.
Context `{OI : OS} {G : GoSort} {GL : GoSortLaws}.

Lemma LoadKallsyms_loads y o o' path data lines :
  os_ReadFile path o = (Some data, o') -> scan_lines scan_max data = Some lines ->
  exists y', LoadKallsyms path (y, o) = (true, (y', o')) /\
    kallsyms y' = sort_slice kallsyms_less (omap parseKallsymsLine lines) /\
    procMapsCache y' = procMapsCache y /\ elfCache y' = elfCache y.
Proof.
  intros Hr Hs. unfold LoadKallsyms, bind, os_read. rewrite Hr, Hs. by eexists.
Qed.

(** After /proc/kallsyms has been loaded, a kernel address is named after
    the symbol of the file at the greatest address that is not above it, with
    its distance; an address below every symbol is reported as failed. *)
Theorem kernel_symbol_nearest y o o' path data lines pc :
  os_ReadFile path o = (Some data, o') -> scan_lines scan_max data = Some lines ->
  0 < pc < 2 ^ 64 ->
  let table := omap parseKallsymsLine lines in
  let '(ok, s) := LoadKallsyms path (y, o) in
  let f := (symbolizeKernel pc s).1 in
  ok = true /\
  ((exists e, nearest table pc e /\
      f = MkSymbolFrame pc kernelModule (ks_name e) (pc - ks_addr e) StackQualityFull) \/
   ((forall e, e ∈ table -> pc < ks_addr e) /\ sf_Quality f = StackQualityFailed /\ sf_Symbol f = [])).
Proof.
  intros Hr Hs Hpc. destruct (LoadKallsyms_loads y o o' path data lines Hr Hs) as (y' & E & Hk & _).
  cbn. rewrite E. split; [done|].
  destruct (symbolizeKernel_spec y' o' pc) as [(e & Hn & Hf)|(Hn & Hf)]; [..|done| |].
  - rewrite Hk. apply (sort_sorted_by ks_addr).
  - intros e. rewrite Hk, elem_sorted. intros (line & _ & Hl)%list_elem_of_omap. by eapply parseKallsyms_fits.
  - left. exists e. split; [|exact Hf]. unfold nearest in *. rewrite Hk in Hn.
    destruct Hn as (Hin & Hle & Hmax). rewrite elem_sorted in Hin.
    split; [done|]. split; [done|]. intros e' He'. apply Hmax. by apply elem_sorted.
  - right. split; [|exact Hf]. intros e He. apply Hn. rewrite Hk. by apply elem_sorted.
Qed.

(** In the mappings read from /proc/<pid>/maps, which never overlap,
    findContaining returns the executable mapping that contains the address
    whenever there is one, and nothing otherwise. *)
Theorem mapping_found data lines entries pid st now pc :
  scan_lines scan_max data = Some lines -> parseMaps data = Some entries ->
  let execs := filter (λ e, executable e = true) (omap parseMapsLine lines) in
  disjoint_maps execs ->
  forall e, findContaining (ProcMaps pid st now entries) pc = Some e <->
            e ∈ execs /\ pe_start e <= pc < pe_end e.
Proof.
  intros Hl Hp execs Hd e. unfold parseMaps in Hp. rewrite Hl in Hp. injection Hp as <-.
  rewrite findContaining_spec; cbn [pm_entries].
  - by rewrite elem_sorted.
  - apply (sort_sorted_by pe_start).
  - eapply disjoint_maps_perm; [|exact Hd]. symmetry. apply sort_perm.
Qed.

(** When two functions of a file start at the same address, the lookup
    never returns the longer one: the candidate of the binary search is the
    last of the group, and the group is sorted with the longest first. *)
Theorem alias_lookup_takes_shortest path avail syms rva s s' :
  lookupElfSymbol (ElfSymbols path avail (sort_slice elf_less syms)) rva = Some s ->
  s' ∈ syms -> es_rva s' = es_rva s -> es_size s <= es_size s'.
Proof.
  intros Hl Hin Hrva. rewrite lookupElfSymbol_unfold in Hl.
  pose proof (elf_candidate (ElfSymbols path avail (sort_slice elf_less syms)) rva (elf_sorted_by syms)) as Hc.
  cbn in Hc, Hl. destruct (Search _ _) as [|i]; [done|]. destruct Hc as (c & Hi & Hle & Hafter & _).
  rewrite Hi in Hl. cbn in Hl. assert (c = s) as -> by (repeat case_match; congruence).
  apply (elem_sorted elf_less), elem_lookup in Hin as [j Hj].
  destruct (decide (j = i)) as [->|]; [by replace s' with s by congruence|].
  destruct (decide (i < j)%nat) as [Hlt|]; [specialize (Hafter j s' Hj Hlt); lia|].
  pose proof (sort_ordered _ _ syms elf_weak_order j i s' s ltac:(lia) Hj Hi) as Ho.
  unfold elf_less in Ho. rewrite Hrva, Z.eqb_refl in Ho. by apply Z.ltb_ge in Ho.
Qed.
End Tables.

(** ** A concrete operating system

    Files that never change, and a clock that stands still unless it is
    moved. *)

Record sim_os := SimOS {
  sim_time : Z; sim_files : list (bytes * bytes); sim_elfs : list (bytes * elf_File) }.

Fixpoint assoc {B} (k : bytes) (l : list (bytes * B)) : option B :=
  match l with
  | [] => None
  | (k', b) :: l => if decide (k = k') then Some b else assoc k l
  end.

Definition SimOSI : OS := {|
  os_state := sim_os;
  os_now o := (sim_time o, o);
  os_ReadFile p o := (assoc p (sim_files o), o);
  os_OpenElf p o := (assoc p (sim_elfs o), o) |}.

#[local] Existing Instance SimOSI.
#[local] Existing Instance merge_sorting.
#[local] Existing Instance merge_sorting_laws.

Definition newline : bytes := [10].

Lemma kernel_symbol_nearest_witness :
  let data := str "ffffffc008002000 t binder_thread_read" ++ newline ++
              str "0000000000000000 A hidden" ++ newline ++
              str "ffffffc008001000 T binder_ioctl" ++ newline in
  let '(ok, s) := LoadKallsyms (str "/proc/kallsyms")
    (NewSymbolizer, SimOS 0 [(str "/proc/kallsyms", data)] []) in
  ok = true /\
  (exists e, (symbolizeKernel 0xffffffc008001010 s).1 =
     MkSymbolFrame 0xffffffc008001010 kernelModule (ks_name e) (0xffffffc008001010 - ks_addr e) StackQualityFull).
Proof.
  intros data. set (o := SimOS 0 [(str "/proc/kallsyms", data)] []).
  pose proof (kernel_symbol_nearest NewSymbolizer o o (str "/proc/kallsyms") data
    [str "ffffffc008002000 t binder_thread_read"; str "0000000000000000 A hidden";
     str "ffffffc008001000 T binder_ioctl"] 0xffffffc008001010
    ltac:(reflexivity) ltac:(vm_compute; reflexivity) ltac:(lia)) as H.
  destruct (LoadKallsyms _ _) as [ok s]. cbn [fst snd] in H. destruct H as [Hok [(e & _ & Hf)|(Hn & _)]].
  - split; [exact Hok|]. exists e. exact Hf.
  - exfalso. specialize (Hn (KallsymsEntry 0xffffffc008001000 (str "binder_ioctl"))).
    apply (Z.lt_irrefl 0xffffffc008001010). etransitivity; [apply Hn|reflexivity].
    vm_compute. right. left.
Defined.

Lemma mapping_found_witness :
  let data := str "00001000-00003000 r-xp 00000000 fc:01 12 /system/lib64/libbinder.so" ++ newline ++
              str "00003000-00004000 rw-p 00002000 fc:01 12 /system/lib64/libbinder.so" ++ newline in
  match parseMaps data with
  | Some entries => pe_path <$> findContaining (ProcMaps 7 0 0 entries) 0x2ffc =
                    Some (str "/system/lib64/libbinder.so")
  | None => False
  end.
Proof.
  intros data.
  pose proof (mapping_found data
    [str "00001000-00003000 r-xp 00000000 fc:01 12 /system/lib64/libbinder.so";
     str "00003000-00004000 rw-p 00002000 fc:01 12 /system/lib64/libbinder.so"]
    [ProcMapsEntry 0x1000 0x3000 (str "r-xp") 0 (str "/system/lib64/libbinder.so")] 7 0 0 0x2ffc
    ltac:(vm_compute; reflexivity) ltac:(vm_compute; reflexivity)) as H.
  specialize (H ltac:(vm_compute; split; [intros e He; apply list_elem_of_singleton in He; subst e; reflexivity|];
    intros [|i] [|j] e f Hi Hj Hij; cbn in Hi, Hj; try discriminate; congruence)
    (ProcMapsEntry 0x1000 0x3000 (str "r-xp") 0 (str "/system/lib64/libbinder.so"))).
  replace (parseMaps data) with (Some [ProcMapsEntry 0x1000 0x3000 (str "r-xp") 0 (str "/system/lib64/libbinder.so")])
    by (vm_compute; reflexivity).
  rewrite (proj2 H); [reflexivity|]. split; [vm_compute; left|cbn; lia].
Defined.

Lemma alias_lookup_takes_shortest_witness :
  let long := ElfSymbol 0x1000 0x100 (str "Parcel_write") in
  let short := ElfSymbol 0x1000 0x10 (str "Parcel_write_alias") in
  let table := ElfSymbols (str "/system/lib64/libbinder.so") true (sort_slice elf_less [long; short]) in
  es_size short <= es_size long /\
  lookupElfSymbol table 0x1008 = Some short /\ lookupElfSymbol table 0x1050 = None.
Proof.
  intros long short table. split.
  - apply (alias_lookup_takes_shortest (str "/system/lib64/libbinder.so") true [long; short] 0x1008 short long);
      [vm_compute; reflexivity|vm_compute; left|reflexivity].
  - split; vm_compute; reflexivity.
Defined.
