(* ===== verification/Symbolize.v ===== *)
(** * Correctness of the symbolizer

    The invariant of its caches, how fresh the mappings it answers from are,
    what it counts, and the name it finds for an address of a running
    process.  A method is described by what it ensures about its result when
    it starts in a well-formed state; [ensures] composes along [bind]. *)

From S2P Require Import Prelude GoLang GoStd Protocol Collector Symbolizer SymbolCache SymbolLookup.

Lemma elem_without {V} k kv (q : list (bytes * V)) : kv ∈ LruSpec.without k q -> kv ∈ q.
Proof. unfold LruSpec.without. rewrite list_elem_of_filter. tauto. Qed.

Lemma elem_take {A} n (l : list A) x : x ∈ take n l -> x ∈ l.
Proof. intros H. rewrite <- (take_drop n l). apply elem_of_app. by left. Qed.

Lemma spec_find_elem {V} k (v : V) q : LruSpec.find k q = Some v -> (k, v) ∈ q.
Proof.
  induction q as [|[k' v'] q IH]; [done|]. cbn. destruct (decide (k' = k)) as [->|].
  - intros [= ->]. left.
  - intros H. right. by apply IH.
Qed.

(** ** Invariants

    What is known of the cached mappings, of the cached symbol tables and of
    the kernel's symbols, and what follows for the frame made for an
    address. *)

Record invariant := Inv {
  inv_maps : bytes -> procMaps -> Prop;
  inv_elfs : bytes -> elfSymbols -> Prop;
  inv_kallsyms : list kallsymsEntry -> Prop;
  inv_frame : Z -> SymbolFrame -> Prop }.

Definition holds {V} (P : bytes -> V -> Prop) (l : lruCache V) : Prop :=
  cache_wf l /\ capacity l = 128%nat /\ forall k v, (k, v) ∈ contents l -> P k v.

Record satisfies (I : invariant) (y : Symbolizer) : Prop := {
  sw_maps : holds (inv_maps I) (procMapsCache y);
  sw_elfs : holds (inv_elfs I) (elfCache y);
  sw_kallsyms : inv_kallsyms I (kallsyms y) }.

Lemma holds_get {V} P k (l : lruCache V) :
  holds P l -> holds P (lru_get k l).2 /\ (lru_get k l).1 = LruSpec.find k (contents l) /\
  forall v, (lru_get k l).1 = Some v -> P k v.
Proof.
  intros (W & C & H). pose proof (get_refines k l W) as Hg. destruct (lru_get k l) as [r l']. cbn [fst snd].
  destruct Hg as (W' & E & C'). unfold LruSpec.get in E.
  destruct (LruSpec.find k (contents l)) as [v|] eqn:F; injection E as <- Hc.
  - apply spec_find_elem in F. split; [|split; [done|intros w [= <-]; by apply H]].
    split; [exact W'|]. split; [congruence|]. rewrite <- Hc.
    intros k' w [[= -> ->]|Hw]%elem_of_cons; [by apply H|]. apply H. by apply elem_without in Hw.
  - split; [|done]. split; [exact W'|]. split; [congruence|]. by rewrite <- Hc.
Qed.

Lemma holds_put {V} (P : bytes -> V -> Prop) k v (l : lruCache V) :
  holds P l -> P k v -> holds P (lru_put k v l).
Proof.
  intros (W & C & H) Hv. destruct (put_refines k v l W) as (W' & Hc & C'). split; [exact W'|].
  split; [congruence|]. rewrite Hc. unfold LruSpec.put. intros k' w Hw%elem_take.
  apply elem_of_cons in Hw as [[= -> ->]|Hw]; [done|]. apply H. by apply elem_without in Hw.
Qed.

Lemma holds_drop {V} (P : bytes -> V -> Prop) k (l : lruCache V) : holds P l -> holds P (lru_drop k l).
Proof.
  intros (W & C & H). destruct (drop_refines k l W) as (W' & Hc & C'). split; [exact W'|].
  split; [congruence|]. rewrite Hc. intros k' w Hw. apply H. by apply elem_without in Hw.
Qed.

Lemma holds_bounded {V} (P : bytes -> V -> Prop) (l : lruCache V) :
  holds P l -> (length (contents l) <= 128)%nat.
Proof.
  intros (W & <- & _). unfold contents. rewrite omap_length_some by (intros x; by apply cell_some). apply W.
Qed.

Lemma holds_new {V} (P : bytes -> V -> Prop) : holds P (newLRU 128).
Proof. split; [apply newLRU_wf; lia|]. split; [done|]. by intros k v H%not_elem_of_nil. Qed.

Lemma NewSymbolizer_satisfies I : inv_kallsyms I [] -> satisfies I NewSymbolizer.
Proof. intros H. split; [apply holds_new|apply holds_new|exact H]. Qed.

(** The symbols of both tables, as loadElfSymbols collects them *)
Definition elf_table (f : elf_File) : list elfSymbol :=
  appendElfSymbols [] (default [] (f_Symbols f) ++ default [] (f_DynamicSymbols f)).

Section Invariant.
Context `{OI : OS} {G : GoSort} {GL : GoSortLaws} (I : invariant).

(** What is read satisfies the invariant, and so do the frames made of it. *)
Record admissible : Prop := {
  ad_maps o pid st now data es :
    (os_ReadFile (str "/proc/" ++ Itoa pid ++ str "/maps") o).1 = Some data -> parseMaps data = Some es ->
    inv_maps I (Itoa pid) (ProcMaps pid st now es);
  ad_elfs o path f avail :
    (os_OpenElf path o).1 = Some f -> elf_table f <> [] ->
    inv_elfs I path (ElfSymbols path avail (sort_slice elf_less (elf_table f)));
  ad_kallsyms o path data lines :
    (os_ReadFile path o).1 = Some data -> scan_lines scan_max data = Some lines ->
    inv_kallsyms I (sort_slice kallsyms_less (omap parseKallsymsLine lines));
  ad_failed pc q : inv_frame I pc (MkSymbolFrame pc [] [] 0 q);
  ad_kernel pc q : inv_frame I pc (MkSymbolFrame pc kernelModule [] 0 q);
  ad_kernel_symbol ks i e pc off q : inv_kallsyms I ks -> ks !! i = Some e ->
    inv_frame I pc (MkSymbolFrame pc kernelModule (ks_name e) (u64 off) q);
  ad_module k pm e pc off q : inv_maps I k pm -> findContaining pm pc = Some e ->
    inv_frame I pc (MkSymbolFrame pc (pe_path e) [] (u64 off) q);
  ad_symbol k pm e k' es rva s pc off q :
    inv_maps I k pm -> findContaining pm pc = Some e -> inv_elfs I k' es -> lookupElfSymbol es rva = Some s ->
    inv_frame I pc (MkSymbolFrame pc (pe_path e) (es_name s) (u64 off) q) }.

(** ** What a method ensures *)

Definition ensures {A} (m : M A) (Q : A -> Prop) : Prop :=
  forall s, satisfies I s.1 -> satisfies I (m s).2.1 /\ Q (m s).1.

Lemma ensures_ret {A} (a : A) (Q : A -> Prop) : Q a -> ensures (ret a) Q.
Proof. by intros HQ s W. Qed.

Lemma ensures_bind {A B} (m : M A) (k : A -> M B) Q R :
  ensures m Q -> (forall a, Q a -> ensures (k a) R) -> ensures (bind m k) R.
Proof.
  intros Hm Hk s W. specialize (Hm s W). unfold bind. destruct (m s) as [a s']. cbn in Hm.
  apply (Hk a); tauto.
Qed.

Lemma ensures_os_read p : ensures (os_read p) (λ r, exists o, r = (os_ReadFile p o).1).
Proof.
  intros [y o] W. unfold os_read. destruct (os_ReadFile p o) as [r o'] eqn:E. split; [done|]. exists o. by rewrite E.
Qed.

Lemma ensures_now : ensures time_Now (λ _, True).
Proof. intros [y o] W. unfold time_Now. by destruct (os_now o). Qed.

Lemma ensures_elf_Open p : ensures (elf_Open p) (λ r, exists o, r = (os_OpenElf p o).1).
Proof.
  intros [y o] W. unfold elf_Open. destruct (os_OpenElf p o) as [r o'] eqn:E. split; [done|]. exists o. by rewrite E.
Qed.

Lemma ensures_counters f : ensures (on_counters f) (λ _, True).
Proof. intros [y o] []. by split; [split|]. Qed.

Lemma ensures_maps_get k : ensures (maps_get k) (λ r, forall pm, r = Some pm -> inv_maps I k pm).
Proof.
  intros [y o] [Hm He Hk]. destruct (holds_get _ k (procMapsCache y) Hm) as (H1 & _ & H2).
  unfold maps_get. destruct (lru_get k (procMapsCache y)) as [r l]. by split; [split|].
Qed.

Lemma ensures_maps_put k pm : inv_maps I k pm -> ensures (maps_put k pm) (λ _, True).
Proof. intros Hp [y o] [Hm He Hk]. split; [|done]. split; cbn; [by apply holds_put|done..]. Qed.

Lemma ensures_maps_remove k : ensures (maps_remove k) (λ _, True).
Proof. intros [y o] [Hm He Hk]. split; [|done]. split; cbn; [by apply holds_drop|done..]. Qed.

Lemma ensures_elf_get k : ensures (elf_get k) (λ r, forall es, r = Some es -> inv_elfs I k es).
Proof.
  intros [y o] [Hm He Hk]. destruct (holds_get _ k (elfCache y) He) as (H1 & _ & H2).
  unfold elf_get. destruct (lru_get k (elfCache y)) as [r l]. by split; [split|].
Qed.

Lemma ensures_elf_put k es : inv_elfs I k es -> ensures (elf_put k es) (λ _, True).
Proof. intros Hp [y o] [Hm He Hk]. split; [|done]. split; cbn; [done|by apply holds_put|done]. Qed.

Lemma ensures_starttime pid : ensures (readProcStarttime pid) (λ _, True).
Proof. eapply ensures_bind; [apply ensures_os_read|]. intros r _. by apply ensures_ret. Qed.

Lemma ensures_readMaps pid :
  admissible ->
  ensures (readProcMaps pid) (λ r, forall es st now, r = Some es -> inv_maps I (Itoa pid) (ProcMaps pid st now es)).
Proof.
  intros A. eapply ensures_bind; [apply ensures_os_read|]. intros r [o Ho]. apply ensures_ret.
  destruct r as [data|]; [|done]. intros es st now E. by eapply ad_maps.
Qed.

Lemma ensures_skip : ensures (ret tt) (λ _, True).
Proof. by apply ensures_ret. Qed.

Lemma ensures_if {A} (b : bool) (m n : M A) Q : ensures m Q -> ensures n Q -> ensures (if b then m else n) Q.
Proof. by destruct b. Qed.

Lemma ensures_kallsyms : ensures get_kallsyms (inv_kallsyms I).
Proof. intros s W. split; [exact W|]. apply W. Qed.
End Invariant.

Create HintDb symb.
#[export] Hint Resolve ensures_os_read ensures_now ensures_elf_Open ensures_counters ensures_maps_get
  ensures_maps_put ensures_maps_remove ensures_elf_get ensures_elf_put ensures_starttime
  ensures_readMaps ensures_skip ensures_if ensures_kallsyms : symb.

(** Follows the code: one [bind], test or match at a time. *)
Ltac ensures_step :=
  first
    [ eapply ensures_bind; [solve [eauto with symb]|intros]
    | apply ensures_ret
    | match goal with |- ensures _ (match ?x with _ => _ end) _ => destruct x eqn:? end
    | match goal with |- ensures _ (if ?x then _ else _) _ => destruct x eqn:? end ].
Ltac ensures_code := repeat (cbv zeta; ensures_step).

Section Methods.
Context `{OI : OS} {G : GoSort} {GL : GoSortLaws} (I : invariant) (A : admissible I).

Definition good_maps (pid : Z) (r : option procMaps) : Prop :=
  forall pm, r = Some pm -> inv_maps I (Itoa pid) pm.

Lemma ensures_loadMaps pid now : ensures I (loadMaps pid now) (good_maps pid).
Proof.
  unfold loadMaps. ensures_code; [|done..]. intros pm [= <-]. eauto with symb.
Qed.
#[local] Hint Resolve ensures_loadMaps : symb.

Lemma ensures_getOrLoadMaps pid : ensures I (getOrLoadMaps pid) (good_maps pid).
Proof.
  unfold getOrLoadMaps. ensures_code; try done.
  all: try (intros pm [= <-]; eauto with symb).
  all: eauto with symb.
Qed.

Lemma elf_table_parts f :
  elf_table f = appendElfSymbols (appendElfSymbols [] (default [] (f_Symbols f))) (default [] (f_DynamicSymbols f)).
Proof. unfold elf_table, appendElfSymbols. by rewrite omap_app. Qed.

Lemma ensures_loadElf path :
  ensures I (loadElfSymbols path) (λ r, forall es, r = Some es -> inv_elfs I path es).
Proof.
  unfold loadElfSymbols. eapply ensures_bind; [eauto with symb|]. intros [f|] [o Ho]; [|by apply ensures_ret].
  pose proof (elf_table_parts f) as E.
  destruct (match f_Symbols f with Some _ => _ | None => _ end) as [avail syms] eqn:E1.
  assert (syms = appendElfSymbols [] (default [] (f_Symbols f))) as Hs
    by (destruct (f_Symbols f) as [[|]|]; by injection E1 as <- <-).
  rewrite <- Hs in E. clear Hs E1. cbv zeta.
  set (tab := match f_DynamicSymbols f with Some _ => _ | None => _ end).
  assert (tab = elf_table f) as ->.
  { subst tab. rewrite E. unfold appendElfSymbols. destruct (f_DynamicSymbols f) as [[|]|]; cbn; by rewrite ?app_nil_r. }
  destruct (elf_table f) as [|x l] eqn:Et; apply ensures_ret; [done|]. intros es [= <-]. rewrite <- Et.
  eapply ad_elfs; [done..|congruence].
Qed.
#[local] Hint Resolve ensures_getOrLoadMaps ensures_loadElf : symb.

Lemma ensures_getOrLoadElf path :
  ensures I (getOrLoadElf path) (λ r, forall es, r = Some es -> inv_elfs I path es).
Proof.
  unfold getOrLoadElf. by ensures_code.
Qed.
#[local] Hint Resolve ensures_getOrLoadElf : symb.

Lemma ensures_failed pc : ensures I (failedFrame pc) (inv_frame I pc).
Proof. unfold failedFrame. ensures_code. by apply ad_failed. Qed.

Lemma ensures_symbolizeIn k pm entry pc :
  inv_maps I k pm -> findContaining pm pc = Some entry -> ensures I (symbolizeIn entry pc) (inv_frame I pc).
Proof.
  intros Hm Hf. unfold symbolizeIn. ensures_code; [eapply ad_symbol|eapply ad_module|eapply ad_module]; eauto.
Qed.
#[local] Hint Resolve ensures_failed ensures_symbolizeIn : symb.

#[local] Opaque symbolizeIn failedFrame.

Lemma ensures_symbolizeUser pid pc : ensures I (symbolizeUser pid pc) (inv_frame I pc).
Proof.
  unfold symbolizeUser. ensures_code; try by apply ensures_failed.
  all: try by apply ad_failed.
  all: match goal with H : good_maps _ (Some ?pm), E : findContaining ?pm _ = _ |- _ =>
         by apply (ensures_symbolizeIn (Itoa pid) pm); [apply H|] end.
Qed.

#[local] Transparent symbolizeIn failedFrame.

Lemma ensures_symbolizeKernel pc : ensures I (symbolizeKernel pc) (inv_frame I pc).
Proof.
  unfold symbolizeKernel. ensures_code; [by apply ad_failed|by apply ad_kernel| |by apply ad_failed].
  by eapply ad_kernel_symbol.
Qed.

Lemma ensures_LoadKallsyms path : ensures I (LoadKallsyms path) (λ _, True).
Proof.
  unfold LoadKallsyms. eapply ensures_bind; [eauto with symb|]. intros [data|] [f Hf]; [|by apply ensures_ret].
  destruct (scan_lines scan_max data) as [lines|] eqn:El; [|by apply ensures_ret].
  intros [y o] [Hm He Hk]. split; [|done]. split; cbn; [done|done|]. by eapply ad_kallsyms.
Qed.
End Methods.

(** ** Well-formed caches *)

Section WellFormed.
Context `{OI : OS} {G : GoSort} {GL : GoSortLaws}.

Definition maps_ok (k : bytes) (pm : procMaps) : Prop :=
  k = Itoa (pm_pid pm) /\ sorted_by pe_start (pm_entries pm).

Definition elf_ok (k : bytes) (es : elfSymbols) : Prop :=
  k = es_path es /\ es_symbols es <> [] /\ sorted_by es_rva (es_symbols es).

Definition well_formed : invariant := Inv maps_ok elf_ok (sorted_by ks_addr) (λ _ _, True).
Definition sym_wf : Symbolizer -> Prop := satisfies well_formed.

Lemma parseMaps_sorted data es : parseMaps data = Some es -> sorted_by pe_start es.
Proof.
  unfold parseMaps. destruct (scan_lines _ _); [|done]. intros [= <-]. apply (sort_sorted_by pe_start).
Qed.

Lemma well_formed_admissible : admissible well_formed.
Proof.
  split; cbn; try done.
  - intros o pid st now data es _ E. split; [done|]. by eapply parseMaps_sorted.
  - intros o path f avail _ Hne. split; [done|]. split; [|apply elf_sorted_by]. cbn. intros E. apply Hne.
    apply Permutation_nil. rewrite <- E. apply sort_perm.
  - intros o path data lines _ _. apply (sort_sorted_by ks_addr).
Qed.

Lemma NewSymbolizer_wf : sym_wf NewSymbolizer.
Proof. apply NewSymbolizer_satisfies. intros i j x y _ Hx. by rewrite lookup_nil in Hx. Qed.
End WellFormed.

(** ** Counters *)

Definition count (q : Z) (c : SymbolizerCounters) : Z :=
  if q =? StackQualityFull then SymbolizeFull c
  else if q =? StackQualityFpOnly then SymbolizeFpOnly c
  else if q =? StackQualityDegraded then SymbolizeDegraded c
  else SymbolizeFailed c.

Section Counters.
Context `{OI : OS} {G : GoSort}.

(** [m] leaves the four result counters alone. *)
Definition quiet {A} (m : M A) : Prop :=
  forall s q, count q (counters (m s).2.1) = count q (counters s.1).

(** [m] adds one to the counter of the quality it returns. *)
Definition counted (m : M SymbolFrame) : Prop :=
  forall s q, 0 <= q <= 3 ->
    count q (counters (m s).2.1) =
    if q =? sf_Quality (m s).1 then u64 (count q (counters s.1) + 1) else count q (counters s.1).

Lemma quiet_ret {A} (a : A) : quiet (ret a).
Proof. done. Qed.

Lemma quiet_bind {A B} (m : M A) (k : A -> M B) : quiet m -> (forall a, quiet (k a)) -> quiet (bind m k).
Proof.
  intros Hm Hk s q. unfold bind. specialize (Hm s q). destruct (m s) as [a s']. by rewrite (Hk a).
Qed.

Lemma counted_bind {A} (m : M A) k : quiet m -> (forall a, counted (k a)) -> counted (bind m k).
Proof.
  intros Hm Hk s q Hq. unfold bind. specialize (Hm s q). destruct (m s) as [a s']. cbn [fst snd] in Hm.
  rewrite (Hk a s' q Hq). by rewrite Hm.
Qed.

Lemma quiet_os_read p : quiet (os_read p).
Proof. intros [y o] q. unfold os_read. by destruct (os_ReadFile p o). Qed.
Lemma quiet_now : quiet time_Now.
Proof. intros [y o] q. unfold time_Now. by destruct (os_now o). Qed.
Lemma quiet_elf_Open p : quiet (elf_Open p).
Proof. intros [y o] q. unfold elf_Open. by destruct (os_OpenElf p o). Qed.
Lemma quiet_maps_get k : quiet (maps_get k).
Proof. intros [y o] q. unfold maps_get. by destruct (lru_get k (procMapsCache y)). Qed.
Lemma quiet_maps_put k pm : quiet (maps_put k pm).
Proof. by intros [y o] q. Qed.
Lemma quiet_maps_remove k : quiet (maps_remove k).
Proof. by intros [y o] q. Qed.
Lemma quiet_elf_get k : quiet (elf_get k).
Proof. intros [y o] q. unfold elf_get. by destruct (lru_get k (elfCache y)). Qed.
Lemma quiet_elf_put k es : quiet (elf_put k es).
Proof. by intros [y o] q. Qed.
Lemma quiet_kallsyms : quiet get_kallsyms.
Proof. done. Qed.
Lemma quiet_symtab : quiet (on_counters addSymtabUnavailableSo).
Proof. by intros [y o] q. Qed.

Lemma counted_result f frame :
  (forall c q, 0 <= q <= 3 ->
     count q (f c) = if q =? sf_Quality frame then u64 (count q c + 1) else count q c) ->
  counted (bind (on_counters f) (λ _, ret frame)).
Proof. intros Hf [y o] q Hq. cbn. by apply Hf. Qed.
End Counters.

#[export] Hint Resolve quiet_ret quiet_os_read quiet_now quiet_elf_Open quiet_maps_get quiet_maps_put
  quiet_maps_remove quiet_elf_get quiet_elf_put quiet_kallsyms quiet_symtab : symb.

Ltac quiet_code :=
  repeat (cbv zeta; first
    [ solve [eauto with symb]
    | apply quiet_bind; [|intros ?]
    | match goal with |- quiet (match ?x with _ => _ end) => destruct x end
    | match goal with |- quiet (if ?x then _ else _) => destruct x end ]).

(** The counter that is increased is that of the frame's quality. *)
Ltac counted_frame :=
  apply counted_result; intros c q Hq;
  assert (q = 0 \/ q = 1 \/ q = 2 \/ q = 3) as [->|[->|[->| ->]]] by lia; reflexivity.

Section Counted.
Context `{OI : OS} {G : GoSort}.

Lemma quiet_getOrLoadMaps pid : quiet (getOrLoadMaps pid).
Proof. unfold getOrLoadMaps, loadMaps, readProcStarttime, readProcMaps. quiet_code. Qed.

Lemma quiet_getOrLoadElf path : quiet (getOrLoadElf path).
Proof. unfold getOrLoadElf, loadElfSymbols. quiet_code. Qed.

Lemma counted_symbolizeIn entry pc : counted (symbolizeIn entry pc).
Proof.
  unfold symbolizeIn. apply counted_bind; [apply quiet_getOrLoadElf|]. intros [es|]; [|counted_frame].
  destruct (lookupElfSymbol _ _); [|counted_frame]. destruct (symtabAvailable es); counted_frame.
Qed.

Lemma counted_symbolizeUser pid pc : counted (symbolizeUser pid pc).
Proof.
  unfold symbolizeUser, failedFrame. destruct (pc =? 0); [counted_frame|].
  apply counted_bind; [apply quiet_getOrLoadMaps|]. intros [m|]; [|counted_frame].
  destruct (findContaining m pc); [apply counted_symbolizeIn|].
  apply counted_bind; [apply quiet_maps_remove|]. intros _.
  apply counted_bind; [apply quiet_getOrLoadMaps|]. intros [m2|]; [|counted_frame].
  destruct (findContaining m2 pc); [apply counted_symbolizeIn|counted_frame].
Qed.

Lemma counted_symbolizeKernel pc : counted (symbolizeKernel pc).
Proof.
  unfold symbolizeKernel. apply counted_bind; [apply quiet_kallsyms|]. intros ks.
  destruct (_ || _); [counted_frame|]. cbv zeta.
  pose proof (Search_le (length ks) (λ i, match ks !! i with Some e => pc <? ks_addr e | None => true end)).
  destruct (Search _ _) as [|i]; [counted_frame|].
  destruct (lookup_lt_is_Some_2 ks i) as [e ->]; [lia|]. counted_frame.
Qed.
End Counted.

(** ** Freshness and resolution *)

Definition stat_path (pid : Z) : bytes := str "/proc/" ++ Itoa pid ++ str "/stat".
Definition maps_path (pid : Z) : bytes := str "/proc/" ++ Itoa pid ++ str "/maps".

Section Fresh.
Context `{OI : OS} {G : GoSort} {GL : GoSortLaws}.

(** [pm] is what /proc says about [pid] in two readings that start in [o] and
    end in [o']. *)
Definition read_from_proc (pid : Z) (pm : procMaps) (o o' : os_state) : Prop :=
  exists stat o1 data,
    os_ReadFile (stat_path pid) o = (Some stat, o1) /\ parseStarttime stat = Some (pidStartTime pm) /\
    os_ReadFile (maps_path pid) o1 = (Some data, o') /\ parseMaps data = Some (pm_entries pm).

Lemma starttime_reads pid y o r s :
  readProcStarttime pid (y, o) = (r, s) ->
  s = (y, (os_ReadFile (stat_path pid) o).2) /\ r = s ← (os_ReadFile (stat_path pid) o).1; parseStarttime s.
Proof.
  unfold readProcStarttime, bind, os_read. fold (stat_path pid).
  destruct (os_ReadFile (stat_path pid) o) as [d o1]. by intros [= <- <-].
Qed.

Lemma maps_reads pid y o r s :
  readProcMaps pid (y, o) = (r, s) ->
  s = (y, (os_ReadFile (maps_path pid) o).2) /\ r = s ← (os_ReadFile (maps_path pid) o).1; parseMaps s.
Proof.
  unfold readProcMaps, bind, os_read. fold (maps_path pid).
  destruct (os_ReadFile (maps_path pid) o) as [d o1]. by intros [= <- <-].
Qed.

Lemma loadMaps_reads pid now y o pm s :
  loadMaps pid now (y, o) = (Some pm, s) ->
  pm_pid pm = pid /\ loadedNs pm = now /\ read_from_proc pid pm o s.2.
Proof.
  unfold loadMaps. unfold bind at 1. destruct (readProcStarttime pid (y, o)) as [st s1] eqn:E1.
  apply starttime_reads in E1 as [-> ->]. unfold read_from_proc.
  destruct (os_ReadFile (stat_path pid) o) as [[d|] o1]; [|done]. cbn [fst snd mbind option_bind].
  destruct (parseStarttime d) as [st|] eqn:Ep; [|done]. unfold bind at 1.
  destruct (readProcMaps pid (y, o1)) as [es s2] eqn:E2. apply maps_reads in E2 as [-> ->].
  destruct (os_ReadFile (maps_path pid) o1) as [[d2|] o2] eqn:Er; [|done]. cbn [fst snd mbind option_bind].
  destruct (parseMaps d2) as [es|] eqn:Em; [|done]. intros [= <- <-]. cbn. eauto 10.
Qed.

(** The mappings used for a process are either a cached snapshot that is
    younger than 100 ms, or what /proc says in the last two readings of this
    very call, together with the start time of the process: a snapshot of an
    earlier process with the same pid is not used beyond the 100 ms. *)
Theorem maps_fresh_or_reread pid y o pm y' o' :
  sym_wf y -> getOrLoadMaps pid (y, o) = (Some pm, (y', o')) ->
  let now := (os_now o).1 in
  (LruSpec.find (Itoa pid) (contents (procMapsCache y)) = Some pm /\
     s64 (now - loadedNs pm) < procMapsTTL) \/
  (pm_pid pm = pid /\ loadedNs pm = now /\ exists o1, read_from_proc pid pm o1 o').
Proof.
  intros W. unfold getOrLoadMaps. unfold bind at 1. unfold time_Now at 1.
  destruct (os_now o) as [t o1]. cbn [fst]. unfold bind at 1.
  destruct (holds_get maps_ok (Itoa pid) (procMapsCache y) (sw_maps _ _ W)) as (_ & Hfind & _).
  unfold maps_get. destruct (lru_get (Itoa pid) (procMapsCache y)) as [r l]. cbn [fst] in Hfind. subst r.
  set (y1 := MkSymbolizer _ _ _ _).
  destruct (LruSpec.find (Itoa pid) (contents (procMapsCache y))) as [old|] eqn:F.
  2: { intros H%loadMaps_reads. right. cbn in H. destruct H as (? & ? & ?). eauto. }
  destruct (Z.ltb_spec (s64 (t - loadedNs old)) procMapsTTL) as [Hy|Hy].
  { intros [= -> _ _]. by left. }
  unfold bind at 1. destruct (readProcStarttime pid (y1, o1)) as [st s1] eqn:E1.
  apply starttime_reads in E1 as [-> Est].
  destruct st as [st|]; [|done]. destruct (Z.eqb_spec st (pidStartTime old)) as [->|Hne].
  - unfold bind at 1. destruct (readProcMaps pid _) as [es s2] eqn:E2. apply maps_reads in E2 as [-> ->].
    destruct (os_ReadFile (stat_path pid) o1) as [d o2] eqn:Er. cbn [fst snd] in *.
    destruct (os_ReadFile (maps_path pid) o2) as [[d2|] o3] eqn:Er2; [|done]. cbn [fst snd mbind option_bind].
    destruct (parseMaps d2) as [es|] eqn:Em; [|done]. intros [= <- <- <-]. right.
    destruct d as [d|]; [|done]. cbn. split; [done|]. split; [done|].
    exists o1, d, o2, d2. cbn. auto.
  - unfold bind at 1. cbn [maps_remove]. intros H%loadMaps_reads. right. cbn in H. destruct H as (? & ? & ?). eauto.
Qed.

(** The age of a snapshot is measured with the wall clock. While the clock
    shows a time before the snapshot was taken, the snapshot is used without
    looking at the process, however old it is. *)
Theorem clock_set_back_keeps_snapshot pid y o pm :
  sym_wf y -> LruSpec.find (Itoa pid) (contents (procMapsCache y)) = Some pm ->
  0 <= (os_now o).1 <= loadedNs pm -> loadedNs pm < 2 ^ 63 ->
  exists y', getOrLoadMaps pid (y, o) = (Some pm, (y', (os_now o).2)).
Proof.
  intros W F Hback Hmax. unfold getOrLoadMaps. unfold bind at 1. unfold time_Now at 1.
  destruct (os_now o) as [t o1]. cbn [fst snd] in *. unfold bind at 1.
  destruct (holds_get maps_ok (Itoa pid) (procMapsCache y) (sw_maps _ _ W)) as (_ & Hfind & _).
  unfold maps_get. destruct (lru_get (Itoa pid) (procMapsCache y)) as [r l]. cbn [fst] in Hfind.
  rewrite Hfind, F.
  assert (s64 (t - loadedNs pm) < procMapsTTL) as Hy; [|apply Z.ltb_lt in Hy; rewrite Hy; by eexists].
  unfold s64, signed, wrap. destruct (decide (t = loadedNs pm)) as [->|].
  - by rewrite Z.sub_diag.
  - replace (t - loadedNs pm) with ((t - loadedNs pm + 2 ^ 64) + (-1) * 2 ^ 64) by lia.
    rewrite Z_mod_plus_full, Z.mod_small by lia.
    destruct (Z.ltb_spec (t - loadedNs pm + 2 ^ 64) (2 ^ (64 - 1))); lia.
Qed.
End Fresh.

Section Resolve.
Context `{OI : OS} {G : GoSort} {GL : GoSortLaws}.

Lemma getOrLoadMaps_miss pid y o t o1 stat o2 data o3 st entries :
  LruSpec.find (Itoa pid) (contents (procMapsCache y)) = None -> sym_wf y ->
  os_now o = (t, o1) ->
  os_ReadFile (stat_path pid) o1 = (Some stat, o2) -> parseStarttime stat = Some st ->
  os_ReadFile (maps_path pid) o2 = (Some data, o3) -> parseMaps data = Some entries ->
  exists y', getOrLoadMaps pid (y, o) = (Some (ProcMaps pid st t entries), (y', o3)) /\
    elfCache y' = elfCache y.
Proof.
  intros F W Hnow Hst Hps Hmp Hpm. unfold getOrLoadMaps. unfold bind at 1. unfold time_Now at 1.
  rewrite Hnow. unfold bind at 1.
  destruct (holds_get maps_ok (Itoa pid) (procMapsCache y) (sw_maps _ _ W)) as (_ & Hfind & _).
  unfold maps_get. destruct (lru_get (Itoa pid) (procMapsCache y)) as [r l]. cbn [fst] in Hfind.
  rewrite Hfind, F. unfold loadMaps, readProcStarttime, readProcMaps, bind, os_read, ret.
  fold (stat_path pid) (maps_path pid). rewrite Hst. cbn [mbind option_bind]. rewrite Hps, Hmp.
  cbn [mbind option_bind]. rewrite Hpm. by eexists.
Qed.

Definition has_symtab (f : elf_File) : bool := match f_Symbols f with Some (_ :: _) => true | _ => false end.

Lemma getOrLoadElf_miss path y o file o' :
  sym_wf y -> LruSpec.find path (contents (elfCache y)) = None ->
  (0 < length path)%nat -> HasPrefix path [91] = false ->
  os_OpenElf path o = (Some file, o') -> elf_table file <> [] ->
  exists s', getOrLoadElf path (y, o) =
    (Some (ElfSymbols path (has_symtab file) (sort_slice elf_less (elf_table file))), s').
Proof.
  intros W F Hlen Hpre Ho Hne. unfold getOrLoadElf.
  destruct (Z.eqb_spec (len path) 0) as [E|_]; [unfold len in E; lia|]. rewrite Hpre. cbn [orb].
  unfold bind at 1. destruct (holds_get elf_ok path (elfCache y) (sw_elfs _ _ W)) as (_ & Hfind & _).
  unfold elf_get. destruct (lru_get path (elfCache y)) as [r l]. cbn [fst] in Hfind. rewrite Hfind, F.
  unfold loadElfSymbols, bind at 1 2, elf_Open. rewrite Ho.
  destruct (match f_Symbols file with Some _ => _ | None => _ end) as [avail syms] eqn:E1.
  assert (avail = has_symtab file /\ syms = appendElfSymbols [] (default [] (f_Symbols file))) as [-> Hs]
    by (unfold has_symtab; destruct (f_Symbols file) as [[|]|]; by injection E1 as <- <-).
  cbv zeta. set (tab := match f_DynamicSymbols file with Some _ => _ | None => _ end).
  assert (tab = elf_table file) as ->.
  { unfold tab. rewrite (elf_table_parts file), <- Hs. unfold appendElfSymbols.
    destruct (f_DynamicSymbols file) as [[|]|]; cbn; by rewrite ?app_nil_r. }
  destruct (elf_table file) as [|x l'] eqn:Et; [done|]. unfold ret, bind. cbn [symtabAvailable].
  destruct (has_symtab file); cbn; by eexists.
Qed.

Lemma user_frame pid pc y o t o1 stat o2 data o3 file o4 st lines e s :
  sym_wf y -> 0 < pc < 2 ^ 64 ->
  LruSpec.find (Itoa pid) (contents (procMapsCache y)) = None -> os_now o = (t, o1) ->
  os_ReadFile (stat_path pid) o1 = (Some stat, o2) -> parseStarttime stat = Some st ->
  os_ReadFile (maps_path pid) o2 = (Some data, o3) -> scan_lines scan_max data = Some lines ->
  let execs := filter (λ e, executable e = true) (omap parseMapsLine lines) in
  disjoint_maps execs -> e ∈ execs -> pe_start e <= pc < pe_end e -> 0 <= pe_start e ->
  (0 < length (pe_path e))%nat -> HasPrefix (pe_path e) [91] = false ->
  LruSpec.find (pe_path e) (contents (elfCache y)) = None ->
  os_OpenElf (pe_path e) o3 = (Some file, o4) ->
  let rva := pe_offset e + (pc - pe_start e) in
  fits 64 rva -> (forall f, f ∈ elf_table file -> fits 64 (es_rva f + es_size f)) ->
  s ∈ elf_table file -> 0 <= es_rva s <= rva ->
  (forall f, f ∈ elf_table file -> es_rva f <= rva -> es_rva f < es_rva s \/ es_rva f = es_rva s /\ covers rva f) ->
  exists f, f ∈ elf_table file /\ es_rva f = es_rva s /\
    (symbolizeUser pid pc (y, o)).1 =
      MkSymbolFrame pc (pe_path e) (es_name f) (rva - es_rva s)
        (if has_symtab file then StackQualityFull else StackQualityDegraded).
Proof.
  intros W Hpc F Hnow Hst Hps Hmp Hsc execs Hdis Hin He He0 Hlen Hpre Fe Hop rva Hrva Hfit Hs Hs0 Hu.
  assert (parseMaps data = Some (sort_slice maps_less execs)) as Hpm by (unfold parseMaps; by rewrite Hsc).
  destruct (getOrLoadMaps_miss pid y o t o1 stat o2 data o3 st _ F W Hnow Hst Hps Hmp Hpm) as (y' & Em & Ee).
  pose proof (ensures_getOrLoadMaps well_formed well_formed_admissible pid (y, o) W) as [W' _]. rewrite Em in W'. cbn in W'.
  assert (findContaining (ProcMaps pid st t (sort_slice maps_less execs)) pc = Some e) as Ef.
  { apply findContaining_spec; cbn [pm_entries].
    - apply (sort_sorted_by pe_start).
    - eapply disjoint_maps_perm; [|exact Hdis]. symmetry. apply sort_perm.
    - by rewrite elem_sorted. }
  assert (elf_table file <> []) as Hne by (intros E; rewrite E in Hs; by apply not_elem_of_nil in Hs).
  destruct (getOrLoadElf_miss (pe_path e) y' o3 file o4 W' ltac:(by rewrite Ee) Hlen Hpre Hop Hne) as [[y2 o5] El].
  destruct (lookup_elf_complete (ElfSymbols (pe_path e) (has_symtab file) (sort_slice elf_less (elf_table file))) rva s)
    as (f & Hf & Efs & Elk); cbn [es_symbols];
    [apply elf_sorted_by|intros f; rewrite elem_sorted; apply Hfit|by rewrite elem_sorted|lia
    |intros f; rewrite elem_sorted; apply Hu|]. cbn [es_symbols] in Hf. rewrite elem_sorted in Hf.
  exists f. split; [exact Hf|]. split; [exact Efs|].
  assert (u64 (pc - pe_start e) = pc - pe_start e) as Epc by (unfold u64; apply wrap_small; unfold fits; lia).
  unfold symbolizeUser. destruct (Z.eqb_spec pc 0); [lia|]. unfold bind at 1. rewrite Em, Ef.
  unfold symbolizeIn, bind at 1. rewrite El. cbv zeta. rewrite Epc. fold rva.
  assert (u64 rva = rva) as -> by (unfold u64; by apply wrap_small). rewrite Elk, Efs.
  assert (u64 (rva - es_rva s) = rva - es_rva s) as Ed by (unfold u64; apply wrap_small; unfold fits in *; lia).
  cbn [symtabAvailable]. destruct (has_symtab file); cbn; by rewrite Ed.
Qed.

(** *** What the loader does

    A segment of a file is loaded at a bias: what the file has at the offset
    [p_offset] is at the address [bias + p_vaddr].  A symbol's value is such a
    virtual address. *)
Record segment := MkSegment { p_offset : Z; p_vaddr : Z }.

(** The mapping [e] shows [seg], loaded at [bias]. *)
Definition loaded (bias : Z) (seg : segment) (e : procMapsEntry) : Prop :=
  pe_start e + (p_offset seg - pe_offset e) = bias + p_vaddr seg.

(** [pc] is in the code of [s]; a size of zero is not known. *)
Definition runs_in (bias pc : Z) (s : elfSymbol) : Prop :=
  bias + es_rva s <= pc /\ (es_size s = 0 \/ pc < bias + es_rva s + es_size s).

(** C28: An address inside a function of a loaded library is reported with the
    path of the library, the name of the function and the distance from its
    start: for a process and a file that are not cached, whose stat, maps and
    ELF files can be read, with mappings that do not overlap, and for a
    segment that is linked at its file offset (p_vaddr = p_offset). The function
    is taken from .symtab or .dynsym, whichever can be read; no other one may
    start between it and the address, and of several that start at the same
    address, which must all reach to the address, one is named. The quality is
    full if the file has a .symtab and degraded otherwise. *)
Theorem user_symbol_resolved pid pc y o t o1 stat o2 data o3 file o4 st lines e bias seg s :
  sym_wf y -> 0 < pc < 2 ^ 64 ->
  LruSpec.find (Itoa pid) (contents (procMapsCache y)) = None -> os_now o = (t, o1) ->
  os_ReadFile (stat_path pid) o1 = (Some stat, o2) -> parseStarttime stat = Some st ->
  os_ReadFile (maps_path pid) o2 = (Some data, o3) -> scan_lines scan_max data = Some lines ->
  let execs := filter (λ e, executable e = true) (omap parseMapsLine lines) in
  disjoint_maps execs -> e ∈ execs -> pe_start e <= pc < pe_end e -> 0 <= pe_start e ->
  (0 < length (pe_path e))%nat -> HasPrefix (pe_path e) [91] = false ->
  LruSpec.find (pe_path e) (contents (elfCache y)) = None ->
  os_OpenElf (pe_path e) o3 = (Some file, o4) ->
  0 <= bias -> loaded bias seg e -> p_vaddr seg = p_offset seg ->
  (forall f, f ∈ elf_table file -> 0 <= es_rva f /\ fits 64 (es_rva f + es_size f)) ->
  s ∈ elf_table file -> runs_in bias pc s ->
  (forall f, f ∈ elf_table file -> bias + es_rva f <= pc ->
     es_rva f < es_rva s \/ es_rva f = es_rva s /\ runs_in bias pc f) ->
  exists f, f ∈ elf_table file /\ es_rva f = es_rva s /\
    (symbolizeUser pid pc (y, o)).1 =
      MkSymbolFrame pc (pe_path e) (es_name f) (pc - (bias + es_rva f))
        (if has_symtab file then StackQualityFull else StackQualityDegraded).
Proof.
  intros W Hpc F Hnow Hst Hps Hmp Hsc execs Hdis Hin He He0 Hlen Hpre Fe Hop Hb Hl Hv Hfit Hs Hrun Hu.
  unfold loaded in Hl. unfold runs_in in *. assert (pe_offset e + (pc - pe_start e) = pc - bias) as E by lia.
  destruct (Hfit s Hs) as [Hs0 _].
  destruct (user_frame pid pc y o t o1 stat o2 data o3 file o4 st lines e s W Hpc F Hnow Hst Hps Hmp Hsc Hdis Hin He He0
    Hlen Hpre Fe Hop) as (f & Hf & Ef & Eq); rewrite ?E.
  - unfold fits. lia.
  - intros f Hf. by apply Hfit.
  - done.
  - lia.
  - intros f Hf Hle. unfold covers. destruct (Hu f Hf) as [|[? ?]]; [lia|by left|right; lia].
  - exists f. split; [done|]. split; [done|]. rewrite Eq, Ef, E. f_equal. lia.
Qed.

(** In a segment that is linked elsewhere, the function is looked up [shift]
    bytes away from where the address is: the name reported is that of the
    function found there, whichever function the address is in. *)
Theorem shifted_segment_misnamed pid pc y o t o1 stat o2 data o3 file o4 st lines e bias seg s :
  let shift := p_vaddr seg - p_offset seg in
  sym_wf y -> 0 < pc < 2 ^ 64 ->
  LruSpec.find (Itoa pid) (contents (procMapsCache y)) = None -> os_now o = (t, o1) ->
  os_ReadFile (stat_path pid) o1 = (Some stat, o2) -> parseStarttime stat = Some st ->
  os_ReadFile (maps_path pid) o2 = (Some data, o3) -> scan_lines scan_max data = Some lines ->
  let execs := filter (λ e, executable e = true) (omap parseMapsLine lines) in
  disjoint_maps execs -> e ∈ execs -> pe_start e <= pc < pe_end e -> 0 <= pe_start e ->
  (0 < length (pe_path e))%nat -> HasPrefix (pe_path e) [91] = false ->
  LruSpec.find (pe_path e) (contents (elfCache y)) = None ->
  os_OpenElf (pe_path e) o3 = (Some file, o4) ->
  0 <= bias + shift -> loaded bias seg e ->
  (forall f, f ∈ elf_table file -> 0 <= es_rva f /\ fits 64 (es_rva f + es_size f)) ->
  s ∈ elf_table file -> runs_in bias (pc - shift) s ->
  (forall f, f ∈ elf_table file -> bias + es_rva f <= pc - shift ->
     es_rva f < es_rva s \/ es_rva f = es_rva s /\ runs_in bias (pc - shift) f) ->
  exists f, f ∈ elf_table file /\ es_rva f = es_rva s /\ sf_Symbol (symbolizeUser pid pc (y, o)).1 = es_name f.
Proof.
  intros shift W Hpc F Hnow Hst Hps Hmp Hsc execs Hdis Hin He He0 Hlen Hpre Fe Hop Hb Hl Hfit Hs Hrun Hu.
  unfold loaded in Hl. unfold runs_in in *. assert (pe_offset e + (pc - pe_start e) = pc - shift - bias) as E by lia.
  destruct (Hfit s Hs) as [Hs0 _].
  destruct (user_frame pid pc y o t o1 stat o2 data o3 file o4 st lines e s W Hpc F Hnow Hst Hps Hmp Hsc Hdis Hin He He0
    Hlen Hpre Fe Hop) as (f & Hf & Ef & Eq); rewrite ?E.
  - unfold fits. lia.
  - intros f Hf. by apply Hfit.
  - done.
  - lia.
  - intros f Hf Hle. unfold covers. destruct (Hu f Hf) as [|[? ?]]; [lia|by left|right; lia].
  - exists f. split; [done|]. split; [done|]. by rewrite Eq.
Qed.
End Resolve.

(** ** Properties *)

Section Calls.
Context `{OI : OS} {G : GoSort} {GL : GoSortLaws}.

Inductive sym_call := CallLoad (path : bytes) | CallKernel (pc : Z) | CallUser (pid pc : Z).

Definition call (c : sym_call) (s : Symbolizer * os_state) : Symbolizer * os_state :=
  match c with
  | CallLoad path => (LoadKallsyms path s).2
  | CallKernel pc => (symbolizeKernel pc s).2
  | CallUser pid pc => (symbolizeUser pid pc s).2
  end.

(** Whatever is asked of the symbolizer and whatever /proc and the files
    contain, both caches stay in step with their lists and within 128 entries,
    a cached mapping table is filed under the pid it was read for and a symbol
    table under its path, and every table is sorted as its binary search
    needs. *)
Theorem symbolizer_wf calls o :
  let y := (foldl (λ s c, call c s) (NewSymbolizer, o) calls).1 in
  sym_wf y /\ (length (contents (procMapsCache y)) <= 128)%nat /\
  (length (contents (elfCache y)) <= 128)%nat.
Proof.
  cbv zeta. assert (sym_wf (foldl (λ s c, call c s) (NewSymbolizer, o) calls).1) as W.
  { pose proof NewSymbolizer_wf as W. change NewSymbolizer with (NewSymbolizer, o).1 in W.
    revert W. generalize (NewSymbolizer, o). induction calls as [|c calls IH]; intros s W; [exact W|].
    apply IH. destruct c; cbn [call].
    - by apply (ensures_LoadKallsyms well_formed well_formed_admissible).
    - by apply (ensures_symbolizeKernel well_formed well_formed_admissible).
    - by apply (ensures_symbolizeUser well_formed well_formed_admissible). }
  split; [exact W|]. destruct W as [Hm He _]. split; by eapply holds_bounded.
Qed.

(** Every call of SymbolizeKernel or SymbolizeUser adds one to the counter
    of the quality of the frame it returns, and to no other. *)
Theorem every_frame_counted pid pc y o q :
  0 <= q <= 3 ->
  let '(fk, (yk, _)) := symbolizeKernel pc (y, o) in
  let '(fu, (yu, _)) := symbolizeUser pid pc (y, o) in
  count q (counters yk) = (if q =? sf_Quality fk then u64 (count q (counters y) + 1) else count q (counters y)) /\
  count q (counters yu) = (if q =? sf_Quality fu then u64 (count q (counters y) + 1) else count q (counters y)).
Proof.
  intros Hq. pose proof (counted_symbolizeKernel pc (y, o) q Hq) as Hk.
  pose proof (counted_symbolizeUser pid pc (y, o) q Hq) as Hu.
  destruct (symbolizeKernel pc (y, o)) as [fk [yk ok]]. destruct (symbolizeUser pid pc (y, o)) as [fu [yu ou]].
  by split.
Qed.
End Calls.

#[local] Existing Instance SimOSI.
#[local] Existing Instance merge_sorting.
#[local] Existing Instance merge_sorting_laws.

(** A process 4711 that maps one library with two functions *)
Definition sample_stat (start : string) : bytes :=
  stat_line 4711 (str "app) R (x") (replicate 19 (str "0") ++ [str start]).
Definition sample_maps : bytes :=
  str "70001000-70003000 r-xp 00001000 fc:01 12 /system/lib64/libbinder.so" ++ newline ++
  str "70003000-70004000 rw-p 00003000 fc:01 12 /system/lib64/libbinder.so" ++ newline.
Definition sample_elf : elf_File :=
  ElfFile (Some [ElfSym (str "transact") 0x12 0x1400 0x80; ElfSym (str "gVersion") 0x11 0x1440 8;
                 ElfSym (str "onTransact") 0x12 0x1800 0x40]) (Some []).
Definition sample_os (t : Z) (start : string) : sim_os :=
  SimOS t [(stat_path 4711, sample_stat start); (maps_path 4711, sample_maps)]
    [(str "/system/lib64/libbinder.so", sample_elf)].

Lemma every_frame_counted_witness :
  let '(f, (y, _)) := symbolizeUser 4711 0x70001410 (NewSymbolizer, sample_os 0 "900") in
  sf_Quality f = StackQualityFull /\ SymbolizeFull (counters y) = 1.
Proof.
  pose proof (every_frame_counted 4711 0x70001410 NewSymbolizer (sample_os 0 "900") 0 ltac:(lia)) as H.
  assert (sf_Quality (symbolizeUser 4711 0x70001410 (NewSymbolizer, sample_os 0 "900")).1 = StackQualityFull) as E
    by (vm_compute; reflexivity).
  destruct (symbolizeKernel _ _) as [fk [yk ok]]. destruct (symbolizeUser _ _ _) as [fu [yu ou]].
  cbn [fst] in E. split; [exact E|]. destruct H as [_ H]. rewrite E in H. exact H.
Defined.

(** The library is loaded at 0x70000000. *)
Lemma user_symbol_resolved_witness :
  (symbolizeUser 4711 0x70001410 (NewSymbolizer, sample_os 0 "900")).1 =
    MkSymbolFrame 0x70001410 (str "/system/lib64/libbinder.so") (str "transact") 0x10 StackQualityFull.
Proof.
  set (o := sample_os 0 "900").
  set (lines := [str "70001000-70003000 r-xp 00001000 fc:01 12 /system/lib64/libbinder.so";
                 str "70003000-70004000 rw-p 00003000 fc:01 12 /system/lib64/libbinder.so"]).
  set (e := ProcMapsEntry 0x70001000 0x70003000 (str "r-xp") 0x1000 (str "/system/lib64/libbinder.so")).
  assert (elf_table sample_elf = [ElfSymbol 0x1400 0x80 (str "transact"); ElfSymbol 0x1800 0x40 (str "onTransact")]) as Et
    by (vm_compute; reflexivity).
  destruct (@user_symbol_resolved SimOSI merge_sorting merge_sorting_laws 4711 0x70001410 NewSymbolizer o 0 o (sample_stat "900") o
    sample_maps o sample_elf o 900 lines e 0x70000000 (MkSegment 0x1000 0x1000) (ElfSymbol 0x1400 0x80 (str "transact")))
    as (f & Hf & Ef & Eq);
    [apply NewSymbolizer_wf|split; reflexivity|reflexivity|reflexivity|vm_compute; reflexivity
    |vm_compute; reflexivity|vm_compute; reflexivity|vm_compute; reflexivity|..|etransitivity; [exact Eq|]].
  - vm_compute. split.
    + intros f Hf. apply list_elem_of_singleton in Hf. subst f. reflexivity.
    + intros [|i] [|j] f g Hi Hj Hij; try discriminate. congruence.
  - vm_compute. left.
  - vm_compute. split; [discriminate|reflexivity].
  - discriminate.
  - vm_compute. lia.
  - reflexivity.
  - reflexivity.
  - reflexivity.
  - discriminate.
  - reflexivity.
  - reflexivity.
  - rewrite Et. intros f Hf. unfold fits. repeat (apply elem_of_cons in Hf as [->|Hf]; [cbn; lia|]).
    by apply not_elem_of_nil in Hf.
  - rewrite Et. left.
  - split; [discriminate|]. right. reflexivity.
  - rewrite Et. intros f Hf. unfold runs_in. apply elem_of_cons in Hf as [->|Hf]; [cbn; lia|].
    apply elem_of_cons in Hf as [->|Hf]; [cbn; lia|by apply not_elem_of_nil in Hf].
  - rewrite Et in Hf. apply elem_of_cons in Hf as [->|Hf]; [reflexivity|].
    apply elem_of_cons in Hf as [->|Hf]; [discriminate Ef|by apply not_elem_of_nil in Hf].
Defined.

(** The snapshot of the process that started at 900, looked up after the pid
    went to a process that started at 1700. *)
Definition sample_snapshot : procMaps :=
  ProcMaps 4711 900 1000000000000 [ProcMapsEntry 0x70001000 0x70003000 (str "r-xp") 0x1000 (str "/system/lib64/libbinder.so")].
Definition sample_cached : Symbolizer :=
  MkSymbolizer [] (lru_put (Itoa 4711) sample_snapshot (newLRU 128)) (newLRU 128) (Counters 0 0 0 0 0 0).

Lemma sample_cached_wf : sym_wf sample_cached.
Proof.
  split; cbn [procMapsCache elfCache kallsyms sample_cached].
  - apply holds_put; [apply holds_new|]. split; [reflexivity|].
    intros [|i] [|j] x y Hij Hx Hy; try discriminate; lia.
  - apply holds_new.
  - intros i j x y _ Hx. cbn in Hx. by rewrite lookup_nil in Hx.
Qed.

Lemma maps_fresh_or_reread_witness :
  let '(r, _) := getOrLoadMaps 4711 (sample_cached, sample_os 1000100000000 "1700") in
  pidStartTime <$> r = Some 1700.
Proof.
  set (s := (sample_cached, sample_os 1000100000000 "1700")).
  assert (is_Some (@getOrLoadMaps SimOSI merge_sorting 4711 s).1) as [pm E] by (vm_compute; eauto).
  destruct (@getOrLoadMaps SimOSI merge_sorting 4711 s) as [r [y' o']] eqn:R. cbn [fst] in E. subst r.
  destruct (@maps_fresh_or_reread SimOSI merge_sorting 4711 _ _ pm y' o' sample_cached_wf R)
    as [[F _]|(_ & _ & o1 & H)].
  - vm_compute in R. injection R as <- _ _. vm_compute in F. discriminate.
  - vm_compute in R. injection R as <- _ _. reflexivity.
Defined.

Lemma clock_set_back_keeps_snapshot_witness :
  pidStartTime <$> (getOrLoadMaps 4711 (sample_cached, sample_os 999000000000 "1700")).1 = Some 900.
Proof.
  destruct (@clock_set_back_keeps_snapshot SimOSI merge_sorting 4711 sample_cached
    (sample_os 999000000000 "1700") sample_snapshot sample_cached_wf) as [y' E];
    [vm_compute; reflexivity|vm_compute; split; discriminate|reflexivity|].
  exact (f_equal (λ p, pidStartTime <$> p.1) E).
Defined.

Lemma symbolizer_wf_witness :
  let y := (foldl (λ s c, call c s) (NewSymbolizer, sample_os 0 "900")
              [CallUser 4711 0x70001410; CallKernel 0xffffff8000001000]).1 in
  length (contents (procMapsCache y)) = 1%nat /\ sym_wf y.
Proof.
  split; [vm_compute; reflexivity|].
  apply (@symbolizer_wf SimOSI merge_sorting merge_sorting_laws
           [CallUser 4711 0x70001410; CallKernel 0xffffff8000001000] (sample_os 0 "900")).
Defined.
