(* ===== verification/Client.v ===== *)
(** * The connection to the app (daemon/socket_server.go)

    SocketClient with its goroutines: a reader per connection, the
    broadcaster, and the reconnect loop.  Every field is read and written
    under a mutex or atomically, so the goroutines interleave at their
    critical sections, channel operations and writes to the connection, which
    writeMu makes whole.  Two longer pieces are one step each: SendEvent's
    three tests with the send to the channel, and the handling of one command
    with its answer; the broadcaster's test of [paused] and reading of the
    connection are one step, its write another.  A TCP connection takes bytes
    until it breaks, and nothing afterwards. *)

From S2P Require Import Prelude GoLang GoStd Protocol.

(** ** Connections *)

(** What was written, and how many more bytes will be taken; [None] is a
    connection that has not been broken or closed. *)
Record tcp := Tcp { sent : bytes; limit : option nat }.

#[export] Instance tcp_writer : Writer tcp := {
  write w bs :=
    match limit w with
    | None => (true, Tcp (sent w ++ bs) None)
    | Some n =>
        if (length bs <=? n)%nat then (true, Tcp (sent w ++ bs) (Some (n - length bs)%nat))
        else (false, Tcp (sent w ++ take n bs) (Some 0%nat))
    end }.

Definition tcp_close (w : tcp) : tcp := Tcp (sent w) (Some 0%nat).

(** ** Data *)

Abbreviation connectRetryCount := 10%nat (only parsing).
Abbreviation reconnectRetryCount := 3%nat (only parsing).
Definition eventChanCap : nat := 1000.

Record SocketClient := MkClient {
  conn : option nat;
  eventChan : list BinderEventPayload;
  sessionToken : bytes;
  running : bool;
  paused : bool;
  reconnecting : bool;
  eventLoopStarted : bool;
  stopCh : bool;
  droppedCount : Z }.

(** NewSocketClient, SetSessionToken *)
Definition NewSocketClient (token : bytes) : SocketClient :=
  MkClient None [] token false false false false false 0.

Definition set_conn c s := MkClient c (eventChan s) (sessionToken s) (running s) (paused s)
  (reconnecting s) (eventLoopStarted s) (stopCh s) (droppedCount s).
Definition set_eventChan q s := MkClient (conn s) q (sessionToken s) (running s) (paused s)
  (reconnecting s) (eventLoopStarted s) (stopCh s) (droppedCount s).
Definition set_running b s := MkClient (conn s) (eventChan s) (sessionToken s) b (paused s)
  (reconnecting s) (eventLoopStarted s) (stopCh s) (droppedCount s).
Definition set_paused b s := MkClient (conn s) (eventChan s) (sessionToken s) (running s) b
  (reconnecting s) (eventLoopStarted s) (stopCh s) (droppedCount s).
Definition set_reconnecting b s := MkClient (conn s) (eventChan s) (sessionToken s) (running s)
  (paused s) b (eventLoopStarted s) (stopCh s) (droppedCount s).
Definition set_eventLoopStarted s := MkClient (conn s) (eventChan s) (sessionToken s) (running s)
  (paused s) (reconnecting s) true (stopCh s) (droppedCount s).
Definition close_stopCh s := MkClient (conn s) (eventChan s) (sessionToken s) (running s) (paused s)
  (reconnecting s) (eventLoopStarted s) true (droppedCount s).
Definition add_dropped s := MkClient (conn s) (eventChan s) (sessionToken s) (running s) (paused s)
  (reconnecting s) (eventLoopStarted s) (stopCh s) (u64 (droppedCount s + 1)).

(** ** Commands *)

(** The callbacks the daemon installs; [Some] is the text of an error. *)
Record Handlers D := MkHandlers {
  onSetTarget : Z -> D -> option bytes * D;
  onPause : D -> option bytes * D;
  onResume : D -> option bytes * D }.
Arguments MkHandlers {D} _ _ _.
Arguments onSetTarget {D} _ _ _.
Arguments onPause {D} _ _.
Arguments onResume {D} _ _.

Abbreviation protoCap := (str "proto=2;cap=is_reply,binder_dev,target_ref") (only parsing).

(** The message of the ACK to SetTarget *)
Definition setTargetMessage (token : bytes) (uid : Z) : bytes :=
  let msg := str "目标UID设置为 " ++ Itoa uid in
  if negb (len token =? 0)
  then str "session=" ++ token ++ str ";" ++ protoCap ++ str ";" ++ msg
  else protoCap ++ str ";" ++ msg.

(** The texts of the protocol's errors *)
Abbreviation proto_error_text e := (match e with
  | ErrInvalidMagic => str "invalid frame magic"
  | ErrPayloadTooLong => str "payload too long"
  | _ => str "invalid frame"
  end) (only parsing).

(** %02x *)
Definition hex2 (n : Z) : bytes := replicate (2 - length (FormatUint n 16)) 48 ++ FormatUint n 16.

Definition unknownCommand (t : Z) : bytes := str "未知命令类型: 0x" ++ hex2 t.

(** What handleCommand answers: a frame, and whether the process shuts down
    after it has been sent *)
Record reply := Reply { reply_frame : Frame; reply_shutdown : bool }.

Abbreviation ack msg := (MkFrame MsgTypeAck (EncodeAck (MkAck true msg))) (only parsing).
Abbreviation error_reply msg := (MkFrame MsgTypeError (EncodeError (MkError 1 msg))) (only parsing).

(** The end of handleCommand: an error, or the acknowledgement *)
Definition respond (err : option bytes) (msg : bytes) : reply :=
  match err with
  | Some e => Reply (error_reply e) false
  | None => Reply (ack msg) false
  end.

Definition handleCommand {D} (h : Handlers D) (frame : Frame) (s : SocketClient) (d : D)
    : option (reply * SocketClient * D) :=
  let t := frame_type frame in
  if t =? MsgTypeSetTarget then
    r ← DecodeSetTarget (frame_payload frame);
    match r with
    | inl e => Some (respond (Some (proto_error_text e)) [], s, d)
    | inr uid =>
        let '(err, d) := onSetTarget h uid d in
        Some (respond err (setTargetMessage (sessionToken s) uid), s, d)
    end
  else if t =? MsgTypePause then
    let s := set_paused true s in
    let '(err, d) := onPause h d in
    Some (respond err (str "事件推送已暂停"), s, d)
  else if t =? MsgTypeResume then
    let s := set_paused false s in
    let '(err, d) := onResume h d in
    Some (respond err (str "事件推送已恢复"), s, d)
  else if t =? MsgTypeShutdown then Some (Reply (ack (str "正在关闭...")) true, s, d)
  else if t =? MsgTypePing then Some (Reply (MkFrame MsgTypePong []) false, s, d)
  else Some (respond (Some (unknownCommand t)) [], s, d).

(** ** Critical sections *)

(** SendEvent *)
Definition SendEvent (ev : BinderEventPayload) (s : SocketClient) : SocketClient :=
  if paused s then s
  else if negb (running s) then s
  else if (length (eventChan s) <? eventChanCap)%nat then set_eventChan (eventChan s ++ [ev]) s
  else add_dropped s.

(** handleConnectionLoss: [true] when a reconnect loop is started and the
    connection closed *)
Definition handleConnectionLoss (failedConn : nat) (s : SocketClient) : bool * SocketClient :=
  if negb (running s) || negb (bool_decide (conn s = Some failedConn)) then (false, s)
  else if reconnecting s then (false, s)
  else (true, set_conn None (set_reconnecting true s)).

(** Stop *)
Definition Stop (s : SocketClient) : SocketClient :=
  close_stopCh (set_conn None (set_reconnecting false (set_running false s))).

(** Connect after the dial has succeeded *)
Definition Connected (c : nat) (s : SocketClient) : SocketClient :=
  set_eventLoopStarted (set_reconnecting false (set_running true (set_conn (Some c) s))).

(** connectWithRetry and the dials of Connect: [dial i] is the outcome of the
    i-th attempt. *)
Fixpoint connectWithRetry (attempts : nat) (dial : nat -> option nat) (i : nat) : option nat :=
  match attempts with
  | O => None
  | S n => match dial i with Some c => Some c | None => connectWithRetry n dial (S i) end
  end.

(** ** The goroutines *)

Inductive broadcaster :=
| NotStarted | Waiting | Sending (c : nat) (ev : BinderEventPayload) | Returned.

(** The reconnect loop: before the check of attempt [i], in its dial, and
    after the last failure *)
Inductive reconnect := Attempt (i : nat) | Dialing (i : nat) | GiveUp.

(** The connections by number, the goroutines, the exit code once the process
    has ended, and two histories: the events put into the channel, and those
    written, with their connection. *)
Record sys D := Sys {
  client : SocketClient;
  daemon : D;
  wires : gmap nat tcp;
  nconn : nat;
  readers : list nat;
  caster : broadcaster;
  loops : list reconnect;
  exited : option Z;
  accepted : list BinderEventPayload;
  delivered : list (nat * BinderEventPayload) }.
Arguments Sys {D} _ _ _ _ _ _ _ _ _ _.
Arguments client {D} _.
Arguments daemon {D} _.
Arguments wires {D} _.
Arguments nconn {D} _.
Arguments readers {D} _.
Arguments caster {D} _.
Arguments loops {D} _.
Arguments exited {D} _.
Arguments accepted {D} _.
Arguments delivered {D} _.

Inductive action :=
| AConnect | AStop
| ASend (ev : BinderEventPayload)
| AFrame (c : nat) (f : Frame) | AReadError (c : nat) | AReaderStop (c : nat)
| ATake | AWrite | ACasterStop
| ACheck (j : nat) | ADial (j : nat) (ok : bool) | AGiveUp (j : nat)
| ABreak (c n : nat).

Section Steps.
Context {D : Type} (h : Handlers D).
Implicit Types s : sys D.

Definition sys_init (token : bytes) (d : D) : sys D :=
  Sys (NewSocketClient token) d ∅ 0 [] NotStarted [] None [] [].

Definition with_client f s := Sys (f (client s)) (daemon s) (wires s) (nconn s) (readers s) (caster s)
  (loops s) (exited s) (accepted s) (delivered s).
Definition with_wires w s := Sys (client s) (daemon s) w (nconn s) (readers s) (caster s) (loops s)
  (exited s) (accepted s) (delivered s).
Definition with_readers r s := Sys (client s) (daemon s) (wires s) (nconn s) r (caster s) (loops s)
  (exited s) (accepted s) (delivered s).
Definition with_caster b s := Sys (client s) (daemon s) (wires s) (nconn s) (readers s) b (loops s)
  (exited s) (accepted s) (delivered s).
Definition with_loops l s := Sys (client s) (daemon s) (wires s) (nconn s) (readers s) (caster s) l
  (exited s) (accepted s) (delivered s).
Definition with_exit n s := Sys (client s) (daemon s) (wires s) (nconn s) (readers s) (caster s)
  (loops s) (Some n) (accepted s) (delivered s).
Definition with_new_conn w s := Sys (client s) (daemon s) (<[nconn s := w]> (wires s)) (S (nconn s))
  (readers s) (caster s) (loops s) (exited s) (accepted s) (delivered s).

(** A frame written to connection [c] under writeMu *)
Definition write_frame (c : nat) (t : Z) (payload : bytes) s : bool * sys D :=
  match wires s !! c with
  | Some w =>
      let '(r, w) := WriteFrame w t payload in
      (match r with inr _ => true | inl _ => false end, with_wires (<[c := w]> (wires s)) s)
  | None => (false, s)
  end.

(** handleConnectionLoss with the closing of the connection and the start of
    the loop *)
Definition lose (c : nat) s : sys D :=
  let '(started, cl) := handleConnectionLoss c (client s) in
  let s := with_client (λ _, cl) s in
  if started then with_loops (loops s ++ [Attempt 1]) (with_wires (alter tcp_close c (wires s)) s) else s.

(** Stop: the connection in use is closed. *)
Definition stop s : sys D :=
  let ws := match conn (client s) with Some c => alter tcp_close c (wires s) | None => wires s end in
  with_client Stop (with_wires ws s).

(** broadcastEvents *)
Definition take_event s : option (sys D) :=
  match caster s, eventChan (client s) with
  | Waiting, ev :: q =>
      let s := with_client (set_eventChan q) s in
      if paused (client s) then Some s
      else match conn (client s) with
           | None => Some s
           | Some c => Some (with_caster (Sending c ev) s)
           end
  | _, _ => None
  end.

Definition write_event s : option (sys D) :=
  match caster s with
  | Sending c ev =>
      let '(ok, s) := write_frame c MsgTypeBinderEvent (Encode ev) (with_caster Waiting s) in
      if ok then Some (Sys (client s) (daemon s) (wires s) (nconn s) (readers s) (caster s) (loops s)
                         (exited s) (accepted s) (delivered s ++ [(c, ev)]))
      else Some (lose c s)
  | _ => None
  end.

(** readLoop on a frame *)
Definition read_command (c : nat) (f : Frame) s : option (sys D) :=
  if bool_decide (c ∈ readers s) then
    '(r, cl, d) ← handleCommand h f (client s) (daemon s);
    let s := Sys cl d (wires s) (nconn s) (readers s) (caster s) (loops s) (exited s) (accepted s)
               (delivered s) in
    let '(_, s) := write_frame c (frame_type (reply_frame r)) (frame_payload (reply_frame r)) s in
    Some (if reply_shutdown r then with_exit 0 (stop s) else s)
  else None.

(** reconnectLoop *)
Definition check_running (j : nat) s : option (sys D) :=
  match loops s !! j with
  | Some (Attempt i) =>
      Some (if running (client s) then with_loops (<[j := Dialing i]> (loops s)) s
            else with_loops (delete j (loops s)) s)
  | _ => None
  end.

Definition dial_result (j : nat) (ok : bool) s : option (sys D) :=
  match loops s !! j with
  | Some (Dialing i) =>
      if ok then
        let s := with_loops (delete j (loops s)) s in
        let c := nconn s in
        if running (client s) then
          Some (with_readers (readers s ++ [c])
                  (with_client (λ cl, set_reconnecting false (set_conn (Some c) cl))
                     (with_new_conn (Tcp [] None) s)))
        else Some (with_new_conn (tcp_close (Tcp [] None)) s)
      else
        Some (with_loops (<[j := if (i <? reconnectRetryCount)%nat then Attempt (S i) else GiveUp]> (loops s)) s)
  | _ => None
  end.

Definition final_failure (j : nat) s : option (sys D) :=
  match loops s !! j with
  | Some GiveUp =>
      let s' := with_loops (delete j (loops s)) (with_client (set_reconnecting false) s) in
      if running (client s) then Some (with_exit 1 (stop (with_client (set_running false) s')))
      else Some s'
  | _ => None
  end.

Definition step_of (a : action) s : option (sys D) :=
  match exited s with
  | Some _ => None
  | None =>
      match a with
      | AConnect =>
          if eventLoopStarted (client s) then None
          else Some (with_caster Waiting (with_readers (readers s ++ [nconn s])
                       (with_client (Connected (nconn s)) (with_new_conn (Tcp [] None) s))))
      | AStop => Some (stop s)
      | ASend ev =>
          let cl := SendEvent ev (client s) in
          let took := if (length (eventChan (client s)) <? length (eventChan cl))%nat then [ev] else [] in
          Some (Sys cl (daemon s) (wires s) (nconn s) (readers s) (caster s) (loops s) (exited s)
                  (accepted s ++ took) (delivered s))
      | AFrame c f => read_command c f s
      | AReadError c =>
          if bool_decide (c ∈ readers s)
          then Some (lose c (with_readers (filter (λ x, x <> c) (readers s)) s)) else None
      | AReaderStop c =>
          if bool_decide (c ∈ readers s) && negb (running (client s))
          then Some (with_readers (filter (λ x, x <> c) (readers s)) s) else None
      | ATake => take_event s
      | AWrite => write_event s
      | ACasterStop =>
          match caster s with
          | Waiting => if stopCh (client s) then Some (with_caster Returned s) else None
          | _ => None
          end
      | ACheck j => check_running j s
      | ADial j ok => dial_result j ok s
      | AGiveUp j => final_failure j s
      | ABreak c n =>
          match wires s !! c with
          | Some (Tcp b None) => Some (with_wires (<[c := Tcp b (Some n)]> (wires s)) s)
          | _ => None
          end
      end
  end.

Fixpoint run_actions (l : list action) s : option (sys D) :=
  match l with
  | [] => Some s
  | a :: l => s ← step_of a s; run_actions l s
  end.

Inductive client_step : sys D -> sys D -> Prop :=
| ClientStep a s s' : step_of a s = Some s' -> client_step s s'.
End Steps.
