(* ===== verification/ClientProofs.v ===== *)
(** * Correctness of the connection to the app

    Invariants of every state the goroutines can reach, in any interleaving
    with the app, the network and the collector: one reader and one reconnect
    loop at most, whole frames on every connection, events in order; then what
    commands are answered with, and that reconnecting ends. *)

From S2P Require Import Prelude GoLang GoStd Protocol ProtocolProofs Client.

(** ** Writes to a connection *)

(** [p] is what a write that breaks leaves of a frame. *)
Definition cut_frame (p : bytes) : Prop :=
  exists f rest, len (frame_payload f) <= MaxPayloadLen /\ frame_bytes f = p ++ rest /\ rest <> [].

Lemma write_tcp w bs :
  let '(ok, w') := write w bs in
  if ok then sent w' = sent w ++ bs /\ (bs <> [] -> limit w <> Some 0%nat)
  else limit w' = Some 0%nat /\ exists p rest, bs = p ++ rest /\ rest <> [] /\ sent w' = sent w ++ p /\
         (limit w = Some 0%nat -> p = []).
Proof.
  destruct w as [b [n|]]; cbn; [|by split]. destruct (Nat.leb_spec (length bs) n) as [Hle|Hgt]; cbn.
  - split; [done|]. intros Hne [= ->]. destruct bs; [done|]. cbn in Hle. lia.
  - split; [done|]. exists (take n bs), (drop n bs). rewrite take_drop. split; [done|]. split.
    { intros E. apply (f_equal length) in E. rewrite length_drop in E. cbn in E. lia. }
    split; [done|]. by intros [= ->].
Qed.

Lemma header_nonempty t p : frame_header t p <> [].
Proof. by rewrite frame_header_bytes. Qed.

(** A frame is written whole, or the connection is dead and has taken a part
    of it, or the frame is refused as too long. *)
Lemma WriteFrame_tcp (w : tcp) t p :
  let '(r, w') := WriteFrame w t p in
  match r with
  | inr _ => len p <= MaxPayloadLen /\ limit w <> Some 0%nat /\ sent w' = sent w ++ frame_bytes (MkFrame t p)
  | inl _ => w' = w \/ limit w' = Some 0%nat /\ exists part, cut_frame part /\ sent w' = sent w ++ part /\
               (limit w = Some 0%nat -> part = [])
  end.
Proof.
  unfold WriteFrame. destruct (Z.ltb_spec MaxPayloadLen (len p)) as [|Hp]; [by left|].
  pose proof (write_tcp w (frame_header t p)) as H1. destruct (write w (frame_header t p)) as [[] w1]; cbn [negb].
  2: { destruct H1 as (Hl & q & rest & E & Hne & Hs & H0). right. split; [done|]. exists q. split; [|done].
       exists (MkFrame t p), (rest ++ p). split; [done|]. unfold frame_bytes. cbn [frame_type frame_payload]. rewrite E, app_assoc.
       split; [done|]. intros [? _]%app_nil. done. }
  destruct H1 as [Hs1 Hl1]. specialize (Hl1 (header_nonempty t p)).
  destruct (Z.ltb_spec 0 (len p)) as [Hpos|Hz].
  - pose proof (write_tcp w1 p) as H2. destruct (write w1 p) as [[] w2]; cbn [negb].
    + destruct H2 as [Hs2 _]. split; [done|]. split; [done|]. unfold frame_bytes. cbn [frame_type frame_payload].
      by rewrite Hs2, Hs1, <- app_assoc.
    + destruct H2 as (Hl & q & rest & E & Hne & Hs & _). right. split; [done|].
      exists (frame_header t p ++ q). split; [|split; [by rewrite Hs, Hs1, <- app_assoc|done]].
      exists (MkFrame t p), rest. unfold frame_bytes. cbn [frame_type frame_payload]. rewrite <- app_assoc, <- E. done.
  - assert (p = []) as -> by (destruct p; [done|]; unfold len in Hz; cbn [length] in Hz; lia).
    split; [done|]. split; [done|]. unfold frame_bytes. cbn [frame_type frame_payload]. by rewrite app_nil_r.
Qed.

(** Reading a frame that was cut ends in an error. *)
Lemma ReadFrame_cut p : cut_frame p -> exists e, ReadFrame p = Some (inl (ErrRead e), []).
Proof.
  intros (f & rest & Hp & E & Hne). unfold ReadFrame, ReadFull.
  destruct (Nat.leb_spec FrameHeaderLen (length p)) as [Hle|Hlt].
  2: { destruct (length p =? 0)%nat; eauto. }
  assert (length (frame_header (frame_type f) (frame_payload f)) = FrameHeaderLen) as Hh
    by (by rewrite frame_header_bytes).
  unfold frame_bytes in E. set (hd := frame_header (frame_type f) (frame_payload f)) in *.
  assert (take FrameHeaderLen p = hd /\ drop FrameHeaderLen p ++ rest = frame_payload f) as [Ht Hd].
  { rewrite <- Hh. split.
    - apply (f_equal (take (length hd))) in E. rewrite take_app_length, take_app_le in E by lia. done.
    - apply (f_equal (drop (length hd))) in E. rewrite drop_app_length, drop_app_le in E by lia. done. }
  rewrite Ht. unfold hd. rewrite frame_header_bytes, len_u32 by done. pose proof (len_nonneg (frame_payload f)).
  rewrite (index_cells _ 0 FrameMagic) by done. cbn [mbind option_bind]. rewrite Z.eqb_refl. cbn [negb].
  rewrite (index_cells _ 1 (frame_type f)) by done. cbn [mbind option_bind].
  change MaxPayloadLen with 1048576 in Hp.
  rewrite (be_uint_cells 4 _ 2 (len (frame_payload f))) by first [done | split; lia].
  cbn [mbind option_bind]. change MaxPayloadLen with 1048576.
  destruct (Z.ltb_spec 1048576 (len (frame_payload f))); [lia|].
  assert (length (drop FrameHeaderLen p) < length (frame_payload f))%nat as Hshort.
  { rewrite <- Hd, length_app. destruct rest; [done|]. cbn. lia. }
  destruct (Z.ltb_spec 0 (len (frame_payload f))); [|unfold len in *; lia].
  unfold len. rewrite Nat2Z.id. destruct (Nat.leb_spec (length (frame_payload f)) (length (drop FrameHeaderLen p))); [lia|].
  destruct (_ =? 0)%nat; eauto.
Qed.

(** ** The connection invariant *)

Section Invariants.
Context {D : Type} (h : Handlers D).
Implicit Types s : sys D.

(** While the client runs it has a connection with its own reader and no
    reconnect loop, or no connection and one reconnect loop. *)
Record conn_inv s : Prop := {
  ci_run : running (client s) = true ->
    (exists c, conn (client s) = Some c /\ reconnecting (client s) = false /\ loops s = [] /\ c ∈ readers s) \/
    (conn (client s) = None /\ reconnecting (client s) = true /\ exists l, loops s = [l]);
  ci_stop : running (client s) = false -> conn (client s) = None /\ (length (loops s) <= 1)%nat;
  ci_new : eventLoopStarted (client s) = false ->
    running (client s) = false /\ loops s = [] /\ readers s = [];
  ci_nodup : NoDup (readers s);
  ci_bound : forall c, c ∈ readers s -> (c < nconn s)%nat;
  ci_wires : forall c, (c < nconn s)%nat <-> is_Some (wires s !! c);
  ci_chan : (length (eventChan (client s)) <= eventChanCap)%nat }.

(** States that agree on what the invariant is about *)
Lemma conn_inv_same s s' :
  conn_inv s -> running (client s') = running (client s) -> conn (client s') = conn (client s) ->
  reconnecting (client s') = reconnecting (client s) -> loops s' = loops s -> readers s' = readers s ->
  eventLoopStarted (client s') = eventLoopStarted (client s) -> nconn s' = nconn s ->
  (forall c, is_Some (wires s' !! c) <-> is_Some (wires s !! c)) ->
  (length (eventChan (client s')) <= eventChanCap)%nat -> conn_inv s'.
Proof.
  intros [] E1 E2 E3 E4 E5 E6 E7 Hw Hc. split; rewrite ?E1, ?E2, ?E3, ?E4, ?E5, ?E6, ?E7; try assumption.
  intros c. by rewrite Hw.
Qed.

Lemma write_frame_same c t p s :
  let s' := (write_frame c t p s).2 in
  client s' = client s /\ daemon s' = daemon s /\ nconn s' = nconn s /\ readers s' = readers s /\
  caster s' = caster s /\ loops s' = loops s /\ exited s' = exited s /\ accepted s' = accepted s /\
  delivered s' = delivered s /\ (forall i, is_Some (wires s' !! i) <-> is_Some (wires s !! i)).
Proof.
  unfold write_frame. destruct (wires s !! c) as [w|] eqn:E; [|done].
  destruct (WriteFrame w t p) as [r w']. cbn. repeat (split; [done|]). intros i.
  destruct (decide (c = i)) as [<-|Hne]; [|by rewrite lookup_insert_ne].
  rewrite lookup_insert_eq, E. split; eauto.
Qed.

Lemma alter_is_Some (f : tcp -> tcp) c (m : gmap nat tcp) i : is_Some (alter f c m !! i) <-> is_Some (m !! i).
Proof. apply lookup_alter_is_Some. Qed.

Lemma lose_inv c s : conn_inv s -> conn_inv (lose c s).
Proof.
  intros I. unfold lose, handleConnectionLoss. destruct (running (client s)) eqn:Hr; cbn [negb orb].
  2: { eapply conn_inv_same; [exact I|done..|apply I]. }
  case_bool_decide as Hc; cbn [negb].
  2: { eapply conn_inv_same; [exact I|done..|apply I]. }
  destruct (reconnecting (client s)) eqn:Hrec.
  { eapply conn_inv_same; [exact I|done..|apply I]. }
  destruct (ci_run _ I Hr) as [(c' & Hc' & _ & Hl & Hin)|(_ & Hrec' & _)]; [|congruence].
  destruct I. split; cbn; try assumption.
  - intros _. right. rewrite Hl. eauto.
  - congruence.
  - intros Hn. destruct (ci_new0 Hn) as (? & ? & ?). congruence.
  - intros i. by rewrite alter_is_Some.
Qed.

Lemma stop_inv s : conn_inv s -> conn_inv (stop s).
Proof.
  intros I. unfold stop. destruct I as [Hrun Hstop Hnew Hnd Hb Hw Hc]. split; cbn; try done.
  - intros _. split; [done|]. destruct (running (client s)).
    + destruct Hrun as [(? & _ & _ & -> & _)|(_ & _ & ? & ->)]; cbn; auto with lia.
    + by apply Hstop.
  - intros E. destruct (Hnew E) as (_ & ? & ?). done.
  - intros i. rewrite Hw. destruct (conn (client s)); by rewrite ?alter_is_Some.
Qed.

(** Readers that leave do so when the client has stopped, or by [lose]. *)
Lemma reader_gone_inv c s :
  conn_inv s -> (running (client s) = true -> conn (client s) <> Some c) ->
  conn_inv (with_readers (filter (λ x, x <> c) (readers s)) s).
Proof.
  intros [Hrun Hstop Hnew Hnd Hb Hw Hc] Hne. split; cbn; try assumption.
  - intros Hr. destruct (Hrun Hr) as [(c' & E & Hrc & Hl & Hin)|?]; [left|by right].
    exists c'. split; [done|]. split; [done|]. split; [done|]. apply list_elem_of_filter.
    split; [|done]. intros ->. by apply Hne.
  - intros Hn. destruct (Hnew Hn) as (? & ? & ->). done.
  - by apply list.NoDup_filter.
  - intros c' [_ Hin]%list_elem_of_filter. by apply Hb.
Qed.

Lemma lose_running c s :
  conn_inv s -> running (client (lose c s)) = true -> conn (client (lose c s)) <> Some c.
Proof.
  intros I. unfold lose, handleConnectionLoss. destruct (running (client s)) eqn:Hr; cbn [negb orb].
  2: { cbn. congruence. }
  case_bool_decide as Hc; cbn [negb]; [|done].
  destruct (reconnecting (client s)) eqn:Hrec; [|done].
  destruct (ci_run _ I Hr) as [(? & _ & Hf & _)|(Hn & _)]; [congruence|]. cbn. congruence.
Qed.

Lemma lose_readers c s r : lose c (with_readers r s) = with_readers r (lose c s).
Proof. unfold lose. cbn. by destruct (handleConnectionLoss c (client s)) as [[] cl]. Qed.

Lemma handleCommand_client f cl d r cl' d' :
  handleCommand h f cl d = Some (r, cl', d') ->
  cl' = cl \/ cl' = set_paused true cl \/ cl' = set_paused false cl.
Proof.
  unfold handleCommand. intros H. repeat case_match; simplify_option_eq; auto.
  all: repeat case_match; simplify_eq; auto.
Qed.

Lemma command_inv c f s s' : conn_inv s -> read_command h c f s = Some s' -> conn_inv s'.
Proof.
  intros I. unfold read_command. case_bool_decide as Hc; [|done].
  destruct (handleCommand h f (client s) (daemon s)) as [[[r cl] d]|] eqn:E; [|done]. cbn [mbind option_bind].
  apply handleCommand_client in E.
  set (s1 := Sys cl d _ _ _ _ _ _ _ _).
  assert (conn_inv s1) as I1.
  { eapply conn_inv_same; [exact I|destruct E as [->|[->| ->]]; done..|].
    destruct E as [->|[->| ->]]; apply I. }
  pose proof (write_frame_same c (frame_type (reply_frame r)) (frame_payload (reply_frame r)) s1) as Hw.
  destruct (write_frame c _ _ s1) as [ok s2]. cbn in Hw. destruct Hw as (E1 & _ & E3 & E4 & _ & E6 & _ & _ & _ & E10).
  assert (conn_inv s2) as I2 by (eapply conn_inv_same; [exact I1|by rewrite ?E1, ?E3, ?E4, ?E6..|rewrite E1; apply I1]).
  intros [= <-]. destruct (reply_shutdown r); [|exact I2].
  eapply conn_inv_same; [exact (stop_inv _ I2)|done..|apply (stop_inv _ I2)].
Qed.

Lemma caster_inv s s' : conn_inv s -> take_event s = Some s' \/ write_event s = Some s' -> conn_inv s'.
Proof.
  intros I [H|H].
  - unfold take_event in H. destruct (caster s); try done. destruct (eventChan (client s)) as [|ev q] eqn:Eq; [done|].
    assert (length q <= eventChanCap)%nat by (pose proof (ci_chan _ I) as Hl; rewrite Eq in Hl; cbn in Hl; lia).
    cbn in H. repeat case_match; simplify_eq; (eapply conn_inv_same; [exact I|done..]).
  - unfold write_event in H. destruct (caster s); try done.
    pose proof (write_frame_same c MsgTypeBinderEvent (Encode ev) (with_caster Waiting s)) as Hw.
    destruct (write_frame c _ _ _) as [ok s2]. cbn in Hw.
    destruct Hw as (E1 & _ & E3 & E4 & _ & E6 & _ & _ & _ & E10).
    assert (conn_inv s2) as I2 by (eapply conn_inv_same; [exact I|by rewrite ?E1, ?E3, ?E4, ?E6..|rewrite E1; apply I]).
    destruct ok; injection H as <-; [|by apply lose_inv].
    eapply conn_inv_same; [exact I2|done..|apply I2].
Qed.

Lemma single_loop s j l : conn_inv s -> loops s !! j = Some l -> j = 0%nat /\ loops s = [l].
Proof.
  intros I Hj. assert (length (loops s) <= 1)%nat as Hlen.
  { destruct (running (client s)) eqn:Hr; [|by apply (ci_stop _ I)].
    destruct (ci_run _ I Hr) as [(? & _ & _ & -> & _)|(_ & _ & ? & ->)]; cbn; lia. }
  destruct (loops s) as [|l0 [|]]; [done| |cbn in Hlen; lia]. destruct j; [|done]. by injection Hj as ->.
Qed.

Lemma new_conn_bound s c : conn_inv s -> c ∈ readers s -> c <> nconn s.
Proof. intros I Hc ->. pose proof (ci_bound _ I _ Hc). lia. Qed.

Lemma new_wires s w :
  conn_inv s -> forall c, (c < S (nconn s))%nat <-> is_Some ((<[nconn s := w]> (wires s)) !! c).
Proof.
  intros I c. destruct (decide (nconn s = c)) as [<-|Hne].
  - rewrite lookup_insert_eq. split; [eauto|lia].
  - rewrite lookup_insert_ne, <- (ci_wires _ I c) by done. lia.
Qed.

(** A connection joins the readers. *)
Lemma join_nodup s : conn_inv s -> NoDup (readers s ++ [nconn s]).
Proof.
  intros I. apply list.NoDup_app. split; [apply I|]. split; [|apply list.NoDup_singleton].
  intros c Hc ->%list_elem_of_singleton. by apply (new_conn_bound s (nconn s) I).
Qed.

Lemma join_bound s c : conn_inv s -> c ∈ readers s ++ [nconn s] -> (c < S (nconn s))%nat.
Proof. intros I [Hc%(ci_bound _ I)| ->%list_elem_of_singleton]%elem_of_app; lia. Qed.

Lemma loop_inv s s' j :
  conn_inv s ->
  (check_running j s = Some s' \/ (exists ok, dial_result j ok s = Some s') \/ final_failure j s = Some s') ->
  conn_inv s'.
Proof.
  intros I H. assert (exists l, loops s !! j = Some l) as [l Hj].
  { unfold check_running, dial_result, final_failure in H. destruct (loops s !! j); [eauto|by destruct H as [?|[[? ?]|?]]]. }
  destruct (single_loop s j l I Hj) as [-> Hl]. pose proof I as [Hrun Hstop Hnew Hnd Hb Hw Hc].
  assert (eventLoopStarted (client s) = false -> False) as Hst by (intros E; destruct (Hnew E) as (_ & ? & _); congruence).
  destruct H as [H|[[ok H]|H]].
  - unfold check_running in H. rewrite Hl in H. cbn in H. destruct l; [|done..]. injection H as <-.
    destruct (running (client s)) eqn:Hr; split; cbn; rewrite ?Hr; try done.
    + destruct (Hrun eq_refl) as [(? & _ & _ & ? & _)|(? & ? & _)]; [congruence|]. right. eauto.
    + intros _. split; [by apply Hstop|lia].
  - unfold dial_result in H. rewrite Hl in H. cbn in H. destruct l; [done| |done]. destruct ok.
    + destruct (running (client s)) eqn:Hr; injection H as <-.
      * split; cbn; rewrite ?Hr; try done; [|by apply join_nodup|intros c; by apply join_bound|by apply new_wires].
        intros _. left. exists (nconn s). split; [done|]. split; [done|]. split; [done|].
        apply elem_of_app. right. left.
      * split; cbn; rewrite ?Hr; try done; [intros _; split; [by apply Hstop|lia]| |by apply new_wires].
        intros c Hin. specialize (Hb c Hin). lia.
    + injection H as <-. split; cbn; try done.
      * intros Hr. destruct (Hrun Hr) as [(? & _ & _ & ? & _)|(? & ? & _)]; [congruence|]. right. eauto.
      * intros Hr. split; [by apply Hstop|done].
  - unfold final_failure in H. rewrite Hl in H. cbn in H. destruct l; [done..|].
    destruct (running (client s)) eqn:Hr; injection H as <-.
    + destruct (Hrun eq_refl) as [(? & _ & _ & ? & _)|(Hn & _)]; [congruence|].
      split; cbn; try done; [|rewrite Hn; apply Hw]. intros _. split; [done|]. lia.
    + split; cbn; rewrite ?Hr; try done. intros _. split; [by apply Hstop|lia].
Qed.

Lemma SendEvent_cases ev cl :
  SendEvent ev cl = cl \/
  (SendEvent ev cl = set_eventChan (eventChan cl ++ [ev]) cl /\ (length (eventChan cl) < eventChanCap)%nat) \/
  SendEvent ev cl = add_dropped cl.
Proof.
  unfold SendEvent. destruct (paused cl); [auto|]. destruct (running cl); [|auto]. cbn [negb].
  destruct (Nat.ltb_spec (length (eventChan cl)) eventChanCap); auto.
Qed.

Lemma step_conn_inv a s s' : conn_inv s -> step_of h a s = Some s' -> conn_inv s'.
Proof.
  intros I. unfold step_of. destruct (exited s); [done|]. destruct a; intros H.
  - destruct (eventLoopStarted (client s)) eqn:E; [done|]. destruct (ci_new _ I E) as (Hr & Hl & Hrd).
    injection H as <-. split; cbn; try done; [|by apply join_nodup|intros c; by apply join_bound|by apply new_wires|apply I].
    intros _. left. exists (nconn s). rewrite Hl, Hrd. repeat (split; [done|]). left.
  - injection H as <-. by apply stop_inv.
  - injection H as <-. destruct (SendEvent_cases ev (client s)) as [->|[[-> Hl]| ->]].
    + eapply conn_inv_same; [exact I|done..|apply I].
    + eapply conn_inv_same; [exact I|done..|]. cbn. rewrite length_app. cbn. lia.
    + eapply conn_inv_same; [exact I|done..|apply I].
  - by eapply command_inv.
  - case_bool_decide; [|done]. injection H as <-. rewrite lose_readers.
    replace (readers s) with (readers (lose c s))
      by (unfold lose; by destruct (handleConnectionLoss c (client s)) as [[] ?]).
    apply reader_gone_inv; [by apply lose_inv|by apply lose_running].
  - case_bool_decide; [|done]. destruct (running (client s)) eqn:Hr; [done|]. injection H as <-.
    apply reader_gone_inv; [done|congruence].
  - apply (caster_inv s); auto.
  - apply (caster_inv s); auto.
  - destruct (caster s); try done. destruct (stopCh (client s)); [|done]. injection H as <-.
    eapply conn_inv_same; [exact I|done..|apply I].
  - apply (loop_inv s s' j I). auto.
  - apply (loop_inv s s' j I). eauto.
  - apply (loop_inv s s' j I). auto.
  - destruct (wires s !! c) as [[b [|]]|] eqn:E; try done. injection H as <-.
    eapply conn_inv_same; [exact I|done..| |apply I]. cbn. intros i.
    destruct (decide (c = i)) as [<-|]; [|by rewrite lookup_insert_ne]. rewrite lookup_insert_eq, E. split; eauto.
Qed.

Lemma init_conn_inv token d : conn_inv (sys_init token d).
Proof.
  split; cbn; try done; [intros _; split; [done|lia]|constructor|by intros c Hc%not_elem_of_nil| |lia].
  intros c. rewrite lookup_empty. split; [lia|]. by intros [? ?].
Qed.
End Invariants.

(** ** Frames on the wire *)

Definition event_payloads (frames : list Frame) : list bytes :=
  frame_payload <$> filter (λ f, frame_type f = MsgTypeBinderEvent) frames.

(** The types of the frames the daemon sends *)
Definition response_type (t : Z) : Prop := t = MsgTypeAck \/ t = MsgTypeError \/ t = MsgTypePong.
Definition from_daemon (f : Frame) : Prop :=
  (frame_type f = MsgTypeBinderEvent \/ response_type (frame_type f)) /\ len (frame_payload f) <= MaxPayloadLen.

(** Whole frames, the event frames among them with payloads [pls], then
    nothing or the part of a frame at which the connection broke. *)
Definition wire_ok (pls : list bytes) (w : tcp) : Prop :=
  exists frames tail,
    sent w = concat (frame_bytes <$> frames) ++ tail /\
    Forall from_daemon frames /\
    cut_frame tail /\ (tail <> [] -> limit w = Some 0%nat) /\ event_payloads frames = pls.

Lemma cut_nil : cut_frame [].
Proof. exists (MkFrame 0 []), (frame_bytes (MkFrame 0 [])). by vm_compute. Qed.

Lemma wire_ok_new l : wire_ok [] (Tcp [] l).
Proof. exists [], []. split; [done|]. split; [constructor|]. split; [apply cut_nil|]. by split. Qed.

Lemma wire_ok_close pls w : wire_ok pls w -> wire_ok pls (tcp_close w).
Proof. intros (fr & tl & H1 & H2 & H3 & _ & H5). exists fr, tl. by repeat split. Qed.

Lemma wire_ok_break pls b n : wire_ok pls (Tcp b None) -> wire_ok pls (Tcp b (Some n)).
Proof.
  intros (fr & tl & H1 & H2 & H3 & H4 & H5). exists fr, tl. split; [done|]. split; [done|]. split; [done|].
  split; [|done]. intros Hne. by specialize (H4 Hne).
Qed.

Lemma wire_ok_write pls w t p :
  wire_ok pls w -> t = MsgTypeBinderEvent \/ response_type t ->
  let '(r, w') := WriteFrame w t p in
  match r with
  | inr _ => wire_ok (pls ++ if t =? MsgTypeBinderEvent then [p] else []) w'
  | inl _ => wire_ok pls w'
  end.
Proof.
  intros W Ht. pose proof (WriteFrame_tcp w t p) as H. destruct (WriteFrame w t p) as [[e|u] w'].
  - destruct H as [->|(Hl & part & Hcut & Hs & H0)]; [done|].
    destruct W as (fr & tl & H1 & H2 & H3 & H4 & H5). destruct (decide (tl = [])) as [->|Hne].
    + exists fr, part. rewrite Hs, H1, app_nil_r. auto.
    + exists fr, tl. rewrite Hs, H1, (H0 (H4 Hne)), app_nil_r. auto.
  - destruct H as (Hp & Hlim & Hs). destruct W as (fr & tl & H1 & H2 & H3 & H4 & H5).
    destruct (decide (tl = [])) as [->|Hne]; [|by apply H4 in Hne].
    exists (fr ++ [MkFrame t p]), []. rewrite app_nil_r in H1 |- *. split.
    { rewrite Hs, H1, fmap_app, concat_app. cbn. by rewrite app_nil_r. }
    split; [apply list.Forall_app; split; [done|by constructor]|]. split; [apply cut_nil|]. split; [done|].
    unfold event_payloads. rewrite list.filter_app, fmap_app. fold (event_payloads fr). rewrite H5. f_equal.
    rewrite filter_cons, filter_nil. cbn [frame_type].
    destruct (Z.eqb_spec t MsgTypeBinderEvent); [by rewrite decide_True|by rewrite decide_False].
Qed.

Section Streams.
Context {D : Type} (h : Handlers D).
Implicit Types s : sys D.

Definition events_on (c : nat) (l : list (nat * BinderEventPayload)) : list BinderEventPayload :=
  snd <$> filter (λ p, p.1 = c) l.

Definition pending (b : broadcaster) : list BinderEventPayload :=
  match b with Sending _ ev => [ev] | _ => [] end.

Record stream_inv s : Prop := {
  si_hist : exists taken, accepted s = taken ++ eventChan (client s) /\
    sublist ((snd <$> delivered s) ++ pending (caster s)) taken;
  si_old : forall c ev, (c, ev) ∈ delivered s -> (c < nconn s)%nat;
  si_wires : forall c w, wires s !! c = Some w -> wire_ok (Encode <$> events_on c (delivered s)) w }.

Lemma stream_inv_same s s' :
  stream_inv s -> accepted s' = accepted s -> eventChan (client s') = eventChan (client s) ->
  delivered s' = delivered s -> caster s' = caster s -> (nconn s <= nconn s')%nat ->
  (forall c w, wires s' !! c = Some w -> wire_ok (Encode <$> events_on c (delivered s)) w) -> stream_inv s'.
Proof.
  intros [Hh Ho Hw] E1 E2 E3 E4 Hn Hw'. split; rewrite ?E1, ?E2, ?E3, ?E4; [done| |done].
  intros c ev H%Ho. lia.
Qed.

Lemma close_wires s c0 :
  stream_inv s ->
  forall c w, alter tcp_close c0 (wires s) !! c = Some w -> wire_ok (Encode <$> events_on c (delivered s)) w.
Proof.
  intros I c w. destruct (decide (c0 = c)) as [<-|Hne].
  - rewrite lookup_alter_eq. destruct (wires s !! c0) as [w0|] eqn:E; [|done]. intros [= <-].
    apply wire_ok_close. by apply I.
  - rewrite lookup_alter_ne by done. apply I.
Qed.

Lemma lose_stream c s : stream_inv s -> stream_inv (lose c s).
Proof.
  intros I. unfold lose. destruct (handleConnectionLoss c (client s)) as [b cl] eqn:E.
  assert (eventChan cl = eventChan (client s)) as Ec
    by (unfold handleConnectionLoss in E; repeat case_match; by simplify_eq).
  destruct b; (eapply stream_inv_same; [exact I|done|exact Ec|done|done|done|]); cbn.
  - by apply close_wires.
  - apply I.
Qed.

Lemma stop_stream s : stream_inv s -> stream_inv (stop s).
Proof.
  intros I. unfold stop. eapply stream_inv_same; [exact I|done..|]. cbn.
  destruct (conn (client s)); [by apply close_wires|apply I].
Qed.

Lemma events_on_app c l1 l2 : events_on c (l1 ++ l2) = events_on c l1 ++ events_on c l2.
Proof. unfold events_on. by rewrite list.filter_app, fmap_app. Qed.

Lemma events_on_new c l : (forall c' ev, (c', ev) ∈ l -> (c' < c)%nat) -> events_on c l = [].
Proof.
  induction l as [|[c' ev] l IH]; intros H; [done|]. unfold events_on. rewrite filter_cons. cbn [fst].
  pose proof (H c' ev ltac:(left)). rewrite decide_False by lia. apply IH. intros c2 e2 Hin. apply (H c2 e2). by right.
Qed.

(** A response frame changes no event stream. *)
Lemma respond_stream c t p s :
  stream_inv s -> response_type t -> stream_inv (write_frame c t p s).2.
Proof.
  intros I Ht. unfold write_frame. destruct (wires s !! c) as [w|] eqn:E; [|done].
  pose proof (wire_ok_write _ w t p (si_wires _ I c w E) (or_intror Ht)) as Hw.
  destruct (WriteFrame w t p) as [r w']. eapply stream_inv_same; [exact I|done..|]. cbn. intros c' w''.
  destruct (decide (c = c')) as [<-|Hne]; [|rewrite lookup_insert_ne by done; apply I].
  rewrite lookup_insert_eq. intros [= <-]. destruct (Z.eqb_spec t MsgTypeBinderEvent) as [->|]; [by destruct Ht as [|[|]]|].
  rewrite app_nil_r in Hw. by destruct r.
Qed.

Lemma reply_type f cl (d : D) r cl' d' :
  handleCommand h f cl d = Some (r, cl', d') -> response_type (frame_type (reply_frame r)).
Proof.
  unfold handleCommand, respond, response_type. intros H. repeat case_match; simplify_option_eq; auto.
  all: repeat case_match; simplify_eq; auto.
Qed.

Lemma command_stream c f s s' : stream_inv s -> read_command h c f s = Some s' -> stream_inv s'.
Proof.
  intros I. unfold read_command. case_bool_decide as Hc; [|done].
  destruct (handleCommand h f (client s) (daemon s)) as [[[r cl] d]|] eqn:E; [|done]. cbn [mbind option_bind].
  set (s1 := Sys cl d _ _ _ _ _ _ _ _).
  assert (stream_inv s1) as I1.
  { eapply stream_inv_same; [exact I|done| |done..|apply I].
    destruct (handleCommand_client h f _ _ _ _ _ E) as [->|[->| ->]]; done. }
  pose proof (respond_stream c _ (frame_payload (reply_frame r)) s1 I1 (reply_type _ _ _ _ _ _ E)) as I2.
  destruct (write_frame c _ _ s1) as [ok s2]. cbn [snd] in I2. intros [= <-].
  destruct (reply_shutdown r); [|exact I2].
  eapply stream_inv_same; [exact (stop_stream _ I2)|done..|apply (stop_stream _ I2)].
Qed.

Lemma take_stream s s' : stream_inv s -> take_event s = Some s' -> stream_inv s'.
Proof.
  intros [(tk & Ha & Hsub) Ho Hw] H. unfold take_event in H. destruct (caster s) eqn:Eb; try done.
  destruct (eventChan (client s)) as [|ev q] eqn:Eq; [done|].
  assert (accepted s = (tk ++ [ev]) ++ q) as Ha' by (by rewrite <- app_assoc).
  cbn [pending] in Hsub. rewrite app_nil_r in Hsub.
  assert (sublist ((snd <$> delivered s) ++ []) (tk ++ [ev])) as Hskip
    by (rewrite app_nil_r; by apply sublist_inserts_r).
  cbn in H. destruct (paused (client s)); [injection H as <-; split; cbn; rewrite ?Eb; eauto|].
  destruct (conn (client s)); injection H as <-; split; cbn; rewrite ?Eb; eauto.
  exists (tk ++ [ev]). split; [done|]. by apply sublist_app.
Qed.

Lemma write_stream s s' : conn_inv s -> stream_inv s -> write_event s = Some s' -> stream_inv s'.
Proof.
  intros C I H. unfold write_event in H. destruct (caster s) as [| |c ev|] eqn:Eb; try done.
  destruct (si_hist _ I) as (tk & Ha & Hsub). rewrite Eb in Hsub. cbn [pending] in Hsub.
  assert (sublist (snd <$> delivered s) tk) as Hsub'.
  { etransitivity; [|exact Hsub]. apply sublist_inserts_r. done. }
  assert (stream_inv (with_caster Waiting s)) as I0.
  { split; cbn; [|apply I..]. exists tk. by rewrite app_nil_r. }
  unfold write_frame in H. cbn [wires with_caster] in H.
  destruct (wires s !! c) as [w|] eqn:Ew; [|injection H as <-; by apply lose_stream].
  pose proof (wire_ok_write _ w MsgTypeBinderEvent (Encode ev) (si_wires _ I c w Ew) (or_introl eq_refl)) as Hwr.
  destruct (WriteFrame w MsgTypeBinderEvent (Encode ev)) as [[e|u] w']; injection H as <-.
  - apply lose_stream. eapply stream_inv_same; [exact I0|done..|]. cbn. intros c' w''.
    destruct (decide (c = c')) as [<-|Hne]; [|rewrite lookup_insert_ne by done; apply I].
    rewrite lookup_insert_eq. by intros [= <-].
  - rewrite Z.eqb_refl in Hwr.
    split; cbn [accepted client delivered caster nconn wires with_wires with_caster pending].
    + exists tk. by rewrite fmap_app, app_nil_r.
    + intros c' e' [Hin|Hin]%elem_of_app; [by eapply (si_old _ I)|].
      apply list_elem_of_singleton in Hin as [= -> ->]. apply (ci_wires _ C). eauto.
    + intros c' w''. rewrite events_on_app. destruct (decide (c = c')) as [<-|Hne].
      * rewrite lookup_insert_eq. intros [= <-]. rewrite fmap_app. unfold events_on at 2.
        rewrite filter_cons, filter_nil. cbn [fst]. by rewrite decide_True.
      * rewrite lookup_insert_ne by done. unfold events_on at 2. rewrite filter_cons, filter_nil. cbn [fst].
        rewrite decide_False by done. rewrite app_nil_r. apply I.
Qed.

Lemma new_conn_stream s f l :
  conn_inv s -> stream_inv s -> eventChan (f (client s)) = eventChan (client s) ->
  stream_inv (with_client f (with_new_conn (Tcp [] l) s)).
Proof.
  intros C I Ef. eapply stream_inv_same; [exact I|done|exact Ef|done|done|cbn; lia|]. cbn. intros c w.
  destruct (decide (nconn s = c)) as [<-|Hne]; [|rewrite lookup_insert_ne by done; apply I].
  rewrite lookup_insert_eq. intros [= <-]. rewrite events_on_new by apply I. apply wire_ok_new.
Qed.

Lemma step_stream a s s' : conn_inv s -> stream_inv s -> step_of h a s = Some s' -> stream_inv s'.
Proof.
  intros C I. unfold step_of. destruct (exited s); [done|]. destruct a; intros H.
  - destruct (eventLoopStarted (client s)) eqn:E; [done|]. injection H as <-.
    pose proof (new_conn_stream s (Connected (nconn s)) None C I eq_refl) as [Hh Ho Hw].
    split; cbn in *; [|done..]. destruct Hh as (tk & Ha & Hs). exists tk. split; [done|].
    etransitivity; [|exact Hs]. rewrite app_nil_r. by apply sublist_inserts_r.
  - injection H as <-. by apply stop_stream.
  - injection H as <-. destruct I as [(tk & Ha & Hs) Ho Hw].
    split; cbn [accepted client delivered caster nconn wires]; [|done..]. exists tk. split; [|done].
    destruct (SendEvent_cases ev (client s)) as [->|[[-> Hl]| ->]].
    + by rewrite Nat.ltb_irrefl, app_nil_r.
    + cbn [eventChan set_eventChan]. rewrite length_app. cbn [length].
      destruct (Nat.ltb_spec (length (eventChan (client s))) (length (eventChan (client s)) + 1)); [|lia].
      by rewrite Ha, app_assoc.
    + cbn [eventChan add_dropped]. by rewrite Nat.ltb_irrefl, app_nil_r.
  - by eapply command_stream.
  - case_bool_decide; [|done]. injection H as <-. apply lose_stream. eapply stream_inv_same; [exact I|done..|apply I].
  - case_bool_decide; [|done]. destruct (running (client s)); [done|]. injection H as <-.
    eapply stream_inv_same; [exact I|done..|apply I].
  - by eapply take_stream.
  - by eapply write_stream.
  - destruct (caster s) eqn:Eb; try done. destruct (stopCh (client s)); [|done]. injection H as <-.
    destruct I as [Hh Ho Hw]. split; cbn; [|done..]. by rewrite Eb in Hh.
  - unfold check_running in H. destruct (loops s !! j) as [[]|]; try done. injection H as <-.
    destruct (running (client s)); (eapply stream_inv_same; [exact I|done..|apply I]).
  - unfold dial_result in H. destruct (loops s !! j) as [[]|] eqn:El; try done. destruct ok.
    + cbn in H. destruct (running (client s)); injection H as <-.
      * pose proof (new_conn_stream s (λ cl, set_reconnecting false (set_conn (Some (nconn s)) cl)) None C I eq_refl) as I'.
        eapply stream_inv_same; [exact I'|done..|apply I'].
      * pose proof (new_conn_stream s id (Some 0%nat) C I eq_refl) as I'.
        eapply stream_inv_same; [exact I'|done..|apply I'].
    + injection H as <-. eapply stream_inv_same; [exact I|done..|apply I].
  - unfold final_failure in H. destruct (loops s !! j) as [[]|]; try done.
    assert (stream_inv (with_loops (delete j (loops s)) (with_client (set_reconnecting false) s))) as I'
      by (eapply stream_inv_same; [exact I|done..|apply I]).
    destruct (running (client s)); injection H as <-; [|done].
    assert (stream_inv (with_client (set_running false) (with_loops (delete j (loops s)) (with_client (set_reconnecting false) s)))) as I2
      by (eapply stream_inv_same; [exact I'|done..|apply I']).
    eapply stream_inv_same; [exact (stop_stream _ I2)|done..|apply (stop_stream _ I2)].
  - destruct (wires s !! c) as [[b [|]]|] eqn:E; try done. injection H as <-.
    eapply stream_inv_same; [exact I|done..|]. cbn. intros c' w.
    destruct (decide (c = c')) as [<-|Hne]; [|rewrite lookup_insert_ne by done; apply I].
    rewrite lookup_insert_eq. intros [= <-]. apply wire_ok_break. by apply I.
Qed.

Lemma init_stream token d : stream_inv (sys_init token d).
Proof.
  split; cbn; [by exists []|by intros c ev H%not_elem_of_nil|]. intros c w. by rewrite lookup_empty.
Qed.

Lemma reachable_inv token d s : rtc (client_step h) (sys_init token d) s -> conn_inv s /\ stream_inv s.
Proof.
  intros H. pose proof (init_conn_inv token d) as C. pose proof (init_stream token d) as I.
  revert C I. induction H as [|s1 s2 s3 [a s1' s2' Hs] _ IH]; intros C I; [done|].
  apply IH; [by eapply step_conn_inv|by eapply step_stream].
Qed.
End Streams.
