(* ===== verification/ClientSpec.v ===== *)
(** * What the app sees of the daemon

    The properties of the connection: its states, the stream of events on the
    wire, pausing, the answers to commands, and the end of reconnecting. *)

From S2P Require Import Prelude GoLang GoStd Protocol ProtocolProofs Client ClientProofs.

Section Properties.
Context {D : Type} (h : Handlers D).
Implicit Types s : sys D.

Lemma run_reachable l s s' : run_actions h l s = Some s' -> rtc (client_step h) s s'.
Proof.
  revert s. induction l as [|a l IH]; cbn; intros s H; [by injection H as <-|].
  destruct (step_of h a s) as [s1|] eqn:E; [|done]. eapply rtc_l; [by econstructor|by apply IH].
Qed.

(** C31: In every state the goroutines can reach, a running client either has a
    connection with exactly its own reader and no reconnect loop, or no
    connection and exactly one reconnect loop; there are never two reconnect
    loops or two readers of one connection, a stopped client keeps no
    connection, and the event channel stays within its capacity. *)
Theorem one_connection_or_one_reconnect token d s :
  rtc (client_step h) (sys_init token d) s ->
  (running (client s) = true ->
     (exists c, conn (client s) = Some c /\ reconnecting (client s) = false /\ loops s = [] /\
        c ∈ readers s) \/
     (conn (client s) = None /\ reconnecting (client s) = true /\ exists l, loops s = [l])) /\
  (running (client s) = false -> conn (client s) = None) /\
  (length (loops s) <= 1)%nat /\ NoDup (readers s) /\
  (length (eventChan (client s)) <= eventChanCap)%nat.
Proof.
  intros H. destruct (reachable_inv h token d s H) as [C _].
  split; [apply C|]. split; [intros E; by apply (ci_stop _ C)|]. split; [|split; apply C].
  destruct (running (client s)) eqn:Hr; [|by apply (ci_stop _ C)].
  destruct (ci_run _ C Hr) as [(? & _ & _ & -> & _)|(_ & _ & ? & ->)]; cbn; lia.
Qed.

Lemma decode_events evs g :
  Forall event_ok evs ->
  (λ p, DecodeBinderEvent p g) <$> (Encode <$> evs) = (λ e, Some (inr e, g)) <$> evs.
Proof.
  induction 1 as [|e evs He _ IH]; [done|]. rewrite !fmap_cons, IH. by rewrite DecodeBinderEvent_Encode.
Qed.

Lemma events_on_sublist c (l : list (nat * BinderEventPayload)) : sublist (events_on c l) (snd <$> l).
Proof.
  induction l as [|[c' e] l IH]; [done|]. unfold events_on. rewrite filter_cons, fmap_cons. cbn [fst].
  destruct (decide (c' = c)); [rewrite fmap_cons; by apply sublist_skip|by apply sublist_cons].
Qed.

(** What holds of every event accepted holds of those written to [c]. *)
Lemma delivered_accepted (P : BinderEventPayload -> Prop) s c :
  stream_inv s -> Forall P (accepted s) ->
  sublist (snd <$> delivered s) (accepted s) /\ Forall P (events_on c (delivered s)).
Proof.
  intros I HP. destruct (si_hist _ I) as (tk & Ha & Hs).
  assert (sublist (snd <$> delivered s) (accepted s)) as Hsub.
  { rewrite Ha. apply sublist_inserts_r. etransitivity; [|exact Hs]. by apply sublist_inserts_r. }
  split; [exact Hsub|]. apply list.Forall_forall. intros x Hx.
  eapply list.Forall_forall in HP; [exact HP|]. eapply sublist_subseteq; [|exact Hx].
  etransitivity; [apply events_on_sublist|exact Hsub].
Qed.

(** What the app can read from a connection, at any moment and wherever
    the connection broke, is a sequence of whole frames followed by an error
    at the end of the stream. The event frames among them decode to the
    events written to that connection, exactly; over all connections the
    events written are, in order and without repetition, some of those
    accepted from the collector. *)
Theorem app_reads_events_in_order token d s :
  rtc (client_step h) (sys_init token d) s -> Forall event_ok (accepted s) ->
  sublist (snd <$> delivered s) (accepted s) /\
  forall c w, wires s !! c = Some w ->
    exists frames tail e,
      read_all (length frames) (sent w) = Some (inr frames, tail) /\
      ReadFrame tail = Some (inl (ErrRead e), []) /\
      forall g, (λ p, DecodeBinderEvent p g) <$> event_payloads frames =
                (λ ev, Some (inr ev, g)) <$> events_on c (delivered s).
Proof.
  intros H Hok. destruct (reachable_inv h token d s H) as [_ I].
  split; [by apply (delivered_accepted event_ok s 0)|].
  intros c w Hw. destruct (si_wires _ I c w Hw) as (fr & tl & E & Hf & Hcut & _ & Hp).
  destruct (ReadFrame_cut tl Hcut) as [e He]. exists fr, tl, e.
  rewrite E, read_all_frames by (eapply list.Forall_impl; [exact Hf|by intros ? []]).
  split; [done|]. split; [done|]. intros g. rewrite Hp. apply decode_events.
  by apply (delivered_accepted event_ok s c).
Qed.

(** ** Pausing *)

Definition in_flight (b : broadcaster) : list (nat * BinderEventPayload) :=
  match b with Sending c ev => [(c, ev)] | _ => [] end.

Definition is_resume (a : action) : bool :=
  match a with AFrame _ f => frame_type f =? MsgTypeResume | _ => false end.

(** The events written between [s] and [s'] were already with the broadcaster. *)
Definition only_in_flight s s' : Prop :=
  paused (client s') = true /\
  exists l, delivered s' = delivered s ++ l /\ sublist (l ++ in_flight (caster s')) (in_flight (caster s)).

Lemma in_flight_same s s' :
  paused (client s') = true -> delivered s' = delivered s ->
  sublist (in_flight (caster s')) (in_flight (caster s)) -> only_in_flight s s'.
Proof. intros Hp E H. split; [done|]. exists []. by rewrite app_nil_r. Qed.

Lemma in_flight_trans s1 s2 s3 : only_in_flight s1 s2 -> only_in_flight s2 s3 -> only_in_flight s1 s3.
Proof.
  intros [_ (l & E & H)] [Hp (l' & E' & H')]. split; [done|]. exists (l ++ l').
  rewrite E', E, <- !app_assoc. split; [done|]. etransitivity; [|exact H]. by apply sublist_app.
Qed.

Lemma lose_same c s :
  paused (client (lose c s)) = paused (client s) /\ delivered (lose c s) = delivered s /\
  caster (lose c s) = caster s.
Proof. unfold lose, handleConnectionLoss. by repeat case_match; simplify_eq. Qed.

Lemma handleCommand_paused f cl (d : D) r cl' d' :
  handleCommand h f cl d = Some (r, cl', d') -> paused cl = true ->
  (frame_type f =? MsgTypeResume) = false -> paused cl' = true.
Proof.
  unfold handleCommand. intros H Hp Hf. rewrite Hf in H.
  repeat case_match; simplify_option_eq; try done. all: by repeat case_match; simplify_eq.
Qed.

Lemma command_paused c f s s' :
  paused (client s) = true -> (frame_type f =? MsgTypeResume) = false ->
  read_command h c f s = Some s' -> only_in_flight s s'.
Proof.
  intros Hp Hf. unfold read_command. case_bool_decide; [|done].
  destruct (handleCommand h f (client s) (daemon s)) as [[[r cl] d]|] eqn:E; [|done]. cbn [mbind option_bind].
  pose proof (handleCommand_paused _ _ _ _ _ _ E Hp Hf) as Hp'.
  set (s1 := Sys cl d _ _ _ _ _ _ _ _).
  pose proof (write_frame_same c (frame_type (reply_frame r)) (frame_payload (reply_frame r)) s1) as W.
  destruct (write_frame c _ _ s1) as [ok s2]. cbn [snd] in W.
  destruct W as (E1 & _ & _ & _ & E5 & _ & _ & _ & E9 & _). intros [= <-].
  apply in_flight_same; destruct (reply_shutdown r); cbn; rewrite ?E1, ?E5, ?E9; done.
Qed.

Lemma write_paused s s' : paused (client s) = true -> write_event s = Some s' -> only_in_flight s s'.
Proof.
  intros Hp. unfold write_event. destruct (caster s) as [| |c ev|] eqn:Eb; try done.
  pose proof (write_frame_same c MsgTypeBinderEvent (Encode ev) (with_caster Waiting s)) as W.
  destruct (write_frame c _ _ _) as [ok s2]. cbn [snd] in W.
  destruct W as (E1 & _ & _ & _ & E5 & _ & _ & _ & E9 & _).
  destruct ok; intros [= <-].
  - split; cbn; [by rewrite E1|]. exists [(c, ev)]. rewrite E9, E5, Eb. by cbn.
  - destruct (lose_same c s2) as (L1 & L2 & L3).
    apply in_flight_same; rewrite ?L1, ?L2, ?L3, ?E1, ?E5, ?E9; [done..|]. apply sublist_nil_l.
Qed.

Lemma take_paused s s' : paused (client s) = true -> take_event s = Some s' -> only_in_flight s s'.
Proof.
  intros Hp. unfold take_event. destruct (caster s) eqn:Eb; try done.
  destruct (eventChan (client s)); [done|]. cbn [paused set_eventChan client with_client]. rewrite Hp.
  intros [= <-]. by apply in_flight_same.
Qed.

Lemma step_paused a s s' :
  paused (client s) = true -> is_resume a = false -> step_of h a s = Some s' -> only_in_flight s s'.
Proof.
  intros Hp Ha. unfold step_of. destruct (exited s); [done|]. destruct a; cbn in Ha; intros H.
  4: by eapply command_paused. 6: by apply take_paused. 6: by apply write_paused.
  3: { injection H as <-. apply in_flight_same; cbn; [|done..]. unfold SendEvent. by rewrite Hp. }
  3: { case_bool_decide; [|done]. injection H as <-.
       edestruct lose_same as (L1 & L2 & L3). apply in_flight_same; by rewrite ?L1, ?L2, ?L3. }
  4: { destruct (caster s) eqn:Eb; try done. destruct (stopCh (client s)); [|done]. injection H as <-.
       by apply in_flight_same; rewrite ?Eb. }
  1: { destruct (eventLoopStarted (client s)); [done|]. injection H as <-.
       apply in_flight_same; [done..|]. apply sublist_nil_l. }
  all: unfold check_running, dial_result, final_failure in H.
  all: repeat case_match; simplify_eq; by apply in_flight_same.
Qed.


(** ** Commands *)

(** The texts of the callbacks' errors fit an error frame. *)
Definition short_errors : Prop :=
  (forall uid d e, fst (onSetTarget h uid d) = Some e -> len e < 2 ^ 32 - 8) /\
  (forall d e, fst (onPause h d) = Some e -> len e < 2 ^ 32 - 8) /\
  (forall d e, fst (onResume h d) = Some e -> len e < 2 ^ 32 - 8).

(** The app can decode the answer [r] as an acknowledgement or as error 1. *)
Definition answer (r : reply) : Prop :=
  (frame_type (reply_frame r) = MsgTypeAck /\
     exists m, DecodeAck (frame_payload (reply_frame r)) = Some (inr (MkAck true m))) \/
  (frame_type (reply_frame r) = MsgTypeError /\
     exists m, DecodeError (frame_payload (reply_frame r)) = Some (inr (MkError 1 m))).

Lemma respond_answer err m :
  (forall e, err = Some e -> len e < 2 ^ 32 - 8) -> len m < 2 ^ 32 - 8 -> answer (respond err m).
Proof.
  intros He Hm. destruct err as [e|]; [right|left]; split; [done| |done|]; cbn [respond reply_frame frame_payload].
  - exists e. apply DecodeError_Encode; [by apply He|by vm_compute].
  - exists m. by apply DecodeAck_Encode.
Qed.

Lemma DecodeSetTarget_total p : exists r, DecodeSetTarget p = Some r /\
  (len p < 4 -> r = inl ErrInvalidFrame) /\ (forall e, r = inl e -> e = ErrInvalidFrame).
Proof.
  unfold DecodeSetTarget. destruct (Z.ltb_spec (len p) 4) as [Hs|Hl].
  - eexists. split; [done|]. split; [done|]. by intros e [= <-].
  - destruct (be_uint 4 p 0) as [v|] eqn:E.
    + eexists. split; [done|]. split; [lia|done].
    + destruct (be_uint_in_range 4 p 0) as [v Hv]; [lia..|congruence].
Qed.

Lemma Itoa_len uid : fits 32 uid -> len (Itoa uid) <= 32.
Proof.
  intros H. unfold Itoa. destruct (Z.ltb_spec uid 0); [unfold fits in H; lia|]. apply FormatUint_len; [lia|done].
Qed.

Lemma setTargetMessage_len token uid : fits 32 uid -> len (setTargetMessage token uid) <= len token + 256.
Proof.
  intros H%Itoa_len. unfold setTargetMessage. pose proof (len_nonneg token).
  assert (len protoCap = 42 /\ len (str "目标UID设置为 ") = 19 /\ len (str "session=") = 8 /\ len (str ";") = 1)
    as (L1 & L2 & L3 & L4) by by vm_compute.
  destruct (negb _); rewrite !len_app, ?L1, ?L2, ?L3, ?L4; lia.
Qed.

Lemma unknownCommand_len t : fits 8 t -> len (unknownCommand t) <= 64.
Proof.
  intros H. unfold unknownCommand, hex2. pose proof (FormatUint_len 8 t 16 ltac:(lia) H).
  assert (len (str "未知命令类型: 0x") = 22) as L by by vm_compute.
  rewrite !len_app, L. unfold len in *. rewrite length_replicate. lia.
Qed.

Lemma DecodeSetTarget_fits p uid : is_bytes p -> DecodeSetTarget p = Some (inr uid) -> fits 32 uid.
Proof.
  unfold DecodeSetTarget. intros Hb. destruct (len p <? 4); [done|].
  destruct (be_uint 4 p 0) as [v|] eqn:E; [|done]. intros [= <-]. by apply (be_uint_fits 4 p 0).
Qed.

Lemma set_target_answered f cl d :
  short_errors -> is_bytes (frame_payload f) -> len (sessionToken cl) < 2 ^ 31 ->
  frame_type f = MsgTypeSetTarget ->
  exists r d', handleCommand h f cl d = Some (r, cl, d') /\ reply_shutdown r = false /\ answer r /\
    (len (frame_payload f) < 4 -> frame_type (reply_frame r) = MsgTypeError).
Proof.
  intros (Hs & _) Hb Htok E. unfold handleCommand. rewrite E, Z.eqb_refl.
  destruct (DecodeSetTarget_total (frame_payload f)) as (r & Er & Hshort & Herr). rewrite Er. cbn [mbind option_bind].
  destruct r as [e|uid].
  - rewrite (Herr e eq_refl). eexists _, _. split; [done|]. split; [done|]. split; [|done].
    apply respond_answer; [by intros ? [= <-]|done].
  - destruct (onSetTarget h uid d) as [err d'] eqn:Eh. eexists _, _. split; [done|].
    split; [by destruct err|]. split.
    + apply respond_answer; [intros e ->; apply (Hs uid d); by rewrite Eh|].
      pose proof (setTargetMessage_len (sessionToken cl) uid (DecodeSetTarget_fits _ _ Hb Er)). lia.
    + intros H. discriminate (Hshort H).
Qed.

(** Every command is answered with exactly one frame, whatever its type and
    payload: a Ping with Pong, any other with an acknowledgement or an error
    of code 1 that decode; a type the daemon does not know and a SetTarget
    that is too short get the error. Only Pause and Resume change the client,
    and only Shutdown ends the daemon, after its acknowledgement. *)
Theorem every_command_answered f cl d :
  short_errors -> fits 8 (frame_type f) -> is_bytes (frame_payload f) -> len (sessionToken cl) < 2 ^ 31 ->
  exists r d',
    handleCommand h f cl d =
      Some (r, (if frame_type f =? MsgTypePause then set_paused true cl
                else if frame_type f =? MsgTypeResume then set_paused false cl else cl), d') /\
    reply_shutdown r = (frame_type f =? MsgTypeShutdown) /\
    (if frame_type f =? MsgTypePing then reply_frame r = MkFrame MsgTypePong [] else answer r) /\
    (frame_type f ∉ [MsgTypeSetTarget; MsgTypePause; MsgTypeResume; MsgTypeShutdown; MsgTypePing] \/
     frame_type f = MsgTypeSetTarget /\ len (frame_payload f) < 4 ->
     frame_type (reply_frame r) = MsgTypeError).
Proof.
  intros Herr Ht Hb Htok. destruct (decide (frame_type f = MsgTypeSetTarget)) as [E|N1].
  { destruct (set_target_answered f cl d Herr Hb Htok E) as (r & d' & H1 & H2 & H3 & H4).
    exists r, d'. rewrite E. split; [done|]. split; [done|]. split; [done|].
    intros [Hn|[_ H]]; [exfalso; apply Hn; left|by apply H4]. }
  destruct Herr as (_ & Hp & Hr). unfold handleCommand. rewrite (proj2 (Z.eqb_neq _ _) N1).
  destruct (decide (frame_type f ∈ [MsgTypePause; MsgTypeResume; MsgTypeShutdown; MsgTypePing])) as [Hin|Hout].
  - assert (frame_type f ∉ [MsgTypeSetTarget; MsgTypePause; MsgTypeResume; MsgTypeShutdown; MsgTypePing] \/
            frame_type f = MsgTypeSetTarget /\ len (frame_payload f) < 4 -> False) as Hno
      by (intros [Hn|[? _]]; [apply Hn; by right|done]).
    repeat (apply elem_of_cons in Hin as [E|Hin]; [rewrite E in *|]); [..|by apply not_elem_of_nil in Hin];
      cbn [Z.eqb Pos.eqb].
    + destruct (onPause h d) as [err d'] eqn:Eh. eexists _, _. split; [done|]. split; [by destruct err|].
      split; [|tauto]. apply respond_answer; [intros e ->; apply (Hp d); by rewrite Eh|done].
    + destruct (onResume h d) as [err d'] eqn:Eh. eexists _, _. split; [done|]. split; [by destruct err|].
      split; [|tauto]. apply respond_answer; [intros e ->; apply (Hr d); by rewrite Eh|done].
    + eexists _, _. split; [done|]. split; [done|]. split; [|tauto]. by apply (respond_answer None).
    + eexists _, _. split; [done|]. split; [done|]. split; [done|tauto].
  - rewrite !not_elem_of_cons in Hout. destruct Hout as (N2 & N3 & N4 & N5 & _).
    rewrite !(proj2 (Z.eqb_neq _ _)) by done. eexists _, _. split; [done|]. split; [done|]. split; [|done].
    apply respond_answer; [|done]. intros e [= <-]. pose proof (unknownCommand_len _ Ht). lia.
Qed.

Lemma no_semicolon_prefix (a b r r' : bytes) :
  59 ∉ a -> 59 ∉ b -> a ++ 59 :: r = b ++ 59 :: r' -> a = b.
Proof.
  revert b. induction a as [|x a IH]; intros [|y b] Ha Hb E; [done|..]; cbn in E.
  - injection E as <- _. exfalso. apply Hb. left.
  - injection E as -> _. exfalso. apply Ha. left.
  - injection E as <- E. f_equal. apply IH; [| |done]; intros H; [apply Ha|apply Hb]; by right.
Qed.

(** The text before the first semicolon decides. *)
Lemma session_prefix token expected rest :
  59 ∉ token -> 59 ∉ expected ->
  HasPrefix (str "session=" ++ token ++ str ";" ++ rest) (str "session=" ++ expected ++ str ";") =
    bool_decide (expected = token).
Proof.
  intros Ht He. case_bool_decide as E.
  - rewrite E, (app_assoc token), (app_assoc (str "session=")). apply HasPrefix_app.
  - apply not_true_is_false. intros [r Hr]%HasPrefix_spec. apply E. rewrite <- !app_assoc in Hr.
    apply app_inv_head in Hr. change (str ";") with [59] in Hr. cbn [app] in Hr. symmetry in Hr.
    by apply no_semicolon_prefix in Hr.
Qed.

Lemma setTargetMessage_session token uid :
  token <> [] ->
  setTargetMessage token uid =
    str "session=" ++ token ++ str ";" ++ protoCap ++ str ";" ++ str "目标UID设置为 " ++ Itoa uid.
Proof. intros H. unfold setTargetMessage. by destruct token. Qed.

(** The acknowledgement of SetTarget proves which daemon answered: the
    message the app decodes starts with "session=", the daemon's own token and
    a semicolon, so the app's test succeeds for that token and for no other
    token without a semicolon. *)
Theorem set_target_shows_session cl uid d d' token :
  fits 32 uid -> onSetTarget h uid d = (None, d') ->
  sessionToken cl <> [] -> 59 ∉ sessionToken cl -> 59 ∉ token -> len (sessionToken cl) < 2 ^ 31 ->
  exists payload m,
    handleCommand h (MkFrame MsgTypeSetTarget (EncodeSetTarget uid)) cl d =
      Some (Reply (MkFrame MsgTypeAck payload) false, cl, d') /\
    DecodeAck payload = Some (inr (MkAck true m)) /\
    HasPrefix m (str "session=" ++ token ++ str ";") = bool_decide (token = sessionToken cl).
Proof.
  intros Hu Hd Hne Hs Ht Hl. unfold handleCommand. cbn [frame_type frame_payload]. rewrite Z.eqb_refl.
  rewrite DecodeSetTarget_Encode by done. cbn [mbind option_bind]. rewrite Hd.
  pose proof (setTargetMessage_len (sessionToken cl) uid Hu).
  eexists _, _. split; [done|]. split; [apply DecodeAck_Encode; cbn; lia|].
  rewrite setTargetMessage_session by done. by apply session_prefix.
Qed.

(** ** Reconnecting *)

(** The steps a reconnect loop can still take *)
Definition loop_measure (l : reconnect) : nat :=
  match l with
  | Attempt i => 2 * (reconnectRetryCount - i) + 3
  | Dialing i => 2 * (reconnectRetryCount - i) + 2
  | GiveUp => 1
  end.

Definition loop_work s : nat := sum_list_with loop_measure (loops s).

Definition is_loop (a : action) : bool :=
  match a with ACheck _ | ADial _ _ | AGiveUp _ => true | _ => false end.

Definition loop_steps (l : list action) : nat := length (filter (λ a, is_loop a = true) l).

(** One step while there is no connection: it takes from the work left when it
    is the loop's, and starts no loop. *)
Definition loop_progress (a : action) s s' : Prop :=
  (nconn s < nconn s')%nat \/
  nconn s' = nconn s /\ conn (client s') = None /\
  (loop_work s' + (if is_loop a then 1 else 0) <= loop_work s)%nat.

Lemma loop_progress_same a s s' :
  is_loop a = false -> nconn s' = nconn s -> conn (client s') = None -> loops s' = loops s -> loop_progress a s s'.
Proof. intros Ha En Ec El. right. unfold loop_work. rewrite Ha, El. split; [done|]. split; [done|]. lia. Qed.

Lemma lose_without_conn c s : conn (client s) = None -> lose c s = with_client (λ _, client s) s.
Proof.
  intros E. unfold lose, handleConnectionLoss. rewrite E, bool_decide_eq_false_2 by done.
  by rewrite orb_true_r.
Qed.

Lemma command_progress c f s s' :
  conn (client s) = None -> read_command h c f s = Some s' -> loop_progress (AFrame c f) s s'.
Proof.
  intros Hc. unfold read_command. case_bool_decide; [|done].
  destruct (handleCommand h f (client s) (daemon s)) as [[[r cl] d]|] eqn:E; [|done]. cbn [mbind option_bind].
  assert (conn cl = None) as Hcl by (apply handleCommand_client in E as [->|[->| ->]]; done).
  set (s1 := Sys cl d _ _ _ _ _ _ _ _).
  pose proof (write_frame_same c (frame_type (reply_frame r)) (frame_payload (reply_frame r)) s1) as W.
  destruct (write_frame c _ _ s1) as [ok s2]. cbn [snd] in W.
  destruct W as (E1 & _ & E3 & _ & _ & E6 & _). intros [= <-].
  apply loop_progress_same; [done|..]; destruct (reply_shutdown r); cbn; rewrite ?E1, ?E3, ?E6; done.
Qed.

Lemma caster_progress a s s' :
  is_loop a = false -> conn (client s) = None ->
  take_event s = Some s' \/ write_event s = Some s' -> loop_progress a s s'.
Proof.
  intros Ha Hc [H|H].
  - unfold take_event in H. destruct (caster s); try done. destruct (eventChan (client s)); [done|].
    cbn in H. rewrite Hc in H. by destruct (paused (client s)); injection H as <-; apply loop_progress_same.
  - unfold write_event in H. destruct (caster s) as [| |c ev|]; try done.
    pose proof (write_frame_same c MsgTypeBinderEvent (Encode ev) (with_caster Waiting s)) as W.
    destruct (write_frame c _ _ _) as [ok s2]. cbn [snd] in W.
    destruct W as (E1 & _ & E3 & _ & _ & E6 & _). destruct ok; injection H as <-.
    + apply loop_progress_same; cbn; rewrite ?E1, ?E3, ?E6; done.
    + rewrite lose_without_conn by (by rewrite E1). apply loop_progress_same; cbn; rewrite ?E1, ?E3, ?E6; done.
Qed.

(** Work left after loop [j] is replaced or ends *)
Lemma work_insert s j l l' :
  loops s !! j = Some l -> (loop_measure l' < loop_measure l)%nat ->
  (sum_list_with loop_measure (<[j := l']> (loops s)) + 1 <= loop_work s)%nat.
Proof.
  unfold loop_work. revert j. induction (loops s) as [|x ls IH]; intros [|j] H Hm; try done.
  - injection H as ->. change (<[0%nat:=l']> (l :: ls)) with (l' :: ls). cbn [sum_list_with]. lia.
  - change (<[S j:=l']> (x :: ls)) with (x :: <[j:=l']> ls). cbn [sum_list_with]. specialize (IH j H Hm). lia.
Qed.

Lemma work_delete s j l :
  loops s !! j = Some l -> (sum_list_with loop_measure (delete j (loops s)) + 1 <= loop_work s)%nat.
Proof.
  unfold loop_work. revert j. induction (loops s) as [|x ls IH]; intros [|j] H; try done.
  - injection H as ->. change (delete 0%nat (l :: ls)) with ls. cbn [sum_list_with]. destruct l; cbn; lia.
  - change (delete (S j) (x :: ls)) with (x :: delete j ls). cbn [sum_list_with]. specialize (IH j H). lia.
Qed.

Lemma reconnect_progress a j s s' :
  conn (client s) = None -> is_loop a = true ->
  (check_running j s = Some s' \/ (exists ok, dial_result j ok s = Some s') \/ final_failure j s = Some s') ->
  loop_progress a s s'.
Proof.
  intros Hc Ha H. unfold loop_progress. rewrite Ha.
  destruct H as [H|[[ok H]|H]]; [unfold check_running in H|unfold dial_result in H|unfold final_failure in H];
    destruct (loops s !! j) as [[i|i|]|] eqn:El; try done.
  - right. destruct (running (client s)); injection H as <-; (split; [done|]); (split; [done|]).
    + eapply work_insert; [done|]. cbn [loop_measure]. lia.
    + by eapply work_delete.
  - destruct ok; [left; destruct (running _); injection H as <-; cbn; lia|].
    right. injection H as <-. split; [done|]. split; [done|]. eapply work_insert; [done|].
    destruct (Nat.ltb_spec i reconnectRetryCount); cbn [loop_measure]; lia.
  - right. destruct (running (client s)); injection H as <-; (split; [done|]); (split; [done|]);
      by eapply work_delete.
Qed.

Lemma step_progress a s s' :
  conn (client s) = None -> step_of h a s = Some s' -> loop_progress a s s'.
Proof.
  intros Hc. unfold step_of. destruct (exited s); [done|]. destruct a; intros H.
  - destruct (eventLoopStarted (client s)); [done|]. injection H as <-. left. cbn. lia.
  - injection H as <-. by apply loop_progress_same.
  - injection H as <-. apply loop_progress_same; [done|done| |done].
    by destruct (SendEvent_cases ev (client s)) as [-> |[[-> _]| ->]].
  - by apply command_progress.
  - case_bool_decide; [|done]. injection H as <-. rewrite lose_without_conn by done. by apply loop_progress_same.
  - destruct (_ && _); [|done]. injection H as <-. by apply loop_progress_same.
  - apply caster_progress; auto.
  - apply caster_progress; auto.
  - destruct (caster s); try done. destruct (stopCh _); [|done]. injection H as <-. by apply loop_progress_same.
  - eapply reconnect_progress; eauto.
  - eapply reconnect_progress; eauto.
  - eapply reconnect_progress; eauto.
  - repeat case_match; simplify_eq. by apply loop_progress_same.
Qed.

Lemma lose_nconn c s : nconn (lose c s) = nconn s.
Proof. unfold lose. by destruct (handleConnectionLoss c (client s)) as [[] cl]. Qed.

Lemma step_nconn a s s' : step_of h a s = Some s' -> (nconn s <= nconn s')%nat.
Proof.
  unfold step_of. destruct (exited s); [done|]. destruct a; intros H.
  4: { unfold read_command in H. case_bool_decide; [|done].
       destruct (handleCommand h f (client s) (daemon s)) as [[[r cl] d]|]; [|done]. cbn [mbind option_bind] in H.
       set (s1 := Sys cl d _ _ _ _ _ _ _ _) in H.
       pose proof (write_frame_same c (frame_type (reply_frame r)) (frame_payload (reply_frame r)) s1) as W.
       destruct (write_frame c _ _ s1) as [ok s2]. cbn [snd] in W. destruct W as (_ & _ & E & _).
       injection H as <-. destruct (reply_shutdown r); cbn; rewrite E; done. }
  7: { unfold write_event in H. destruct (caster s) as [| |c ev|]; try done.
       pose proof (write_frame_same c MsgTypeBinderEvent (Encode ev) (with_caster Waiting s)) as W.
       destruct (write_frame c _ _ _) as [ok s2]. cbn [snd] in W. destruct W as (_ & _ & E & _).
       destruct ok; injection H as <-; [|rewrite lose_nconn]; cbn; rewrite E; done. }
  4: { case_bool_decide; [|done]. injection H as <-. by rewrite lose_nconn. }
  all: unfold take_event, check_running, dial_result, final_failure in H.
  all: repeat case_match; simplify_eq; cbn; lia.
Qed.

Lemma run_nconn l s s' : run_actions h l s = Some s' -> (nconn s <= nconn s')%nat.
Proof.
  revert s. induction l as [|a l IH]; cbn; intros s H; [by injection H as <-|].
  destruct (step_of h a s) as [s1|] eqn:E; [|done]. pose proof (step_nconn _ _ _ E). specialize (IH s1 H). lia.
Qed.

Lemma run_conn_inv l s s' : conn_inv s -> run_actions h l s = Some s' -> conn_inv s'.
Proof.
  revert s. induction l as [|a l IH]; cbn; intros s I H; [by injection H as <-|].
  destruct (step_of h a s) as [s1|] eqn:E; [|done]. eapply IH; [|exact H]. by eapply step_conn_inv.
Qed.

Lemma run_work l s s' :
  conn (client s) = None -> run_actions h l s = Some s' -> nconn s' = nconn s ->
  conn (client s') = None /\ (loop_steps l + loop_work s' <= loop_work s)%nat.
Proof.
  revert s. induction l as [|a l IH]; cbn [run_actions]; intros s Hc H En; [by injection H as <-|].
  destruct (step_of h a s) as [s1|] eqn:E; [|done]. cbn [mbind option_bind] in H.
  pose proof (run_nconn _ _ _ H). destruct (step_progress _ _ _ Hc E) as [?|(En' & Hc' & Hw)]; [lia|].
  destruct (IH s1 Hc' H) as [? IHw]; [lia|]. split; [done|]. unfold loop_steps in *.
  rewrite filter_cons. destruct (is_loop a); cbn [decide]; case_decide; cbn [length]; try done; lia.
Qed.

(** A loop that has not ended can take a step, whatever the network does. *)
Lemma loop_enabled s l :
  exited s = None -> loops s = [l] ->
  exists a, is_loop a = true /\ is_Some (step_of h a s).
Proof.
  intros He Hl. destruct l as [i|i|].
  - exists (ACheck 0). split; [done|]. unfold step_of. rewrite He. unfold check_running. rewrite Hl. by eexists.
  - exists (ADial 0 false). split; [done|]. unfold step_of. rewrite He. unfold dial_result. rewrite Hl. by eexists.
  - exists (AGiveUp 0). split; [done|]. unfold step_of. rewrite He. unfold final_failure. rewrite Hl. cbn.
    destruct (running _); by eexists.
Qed.

(** C30: Reconnecting ends. From the loss of the connection, as long as no new
    connection is made, the reconnect loop takes at most seven steps, in any
    interleaving with the other goroutines; until then it is never stuck; and
    when it is gone the client has stopped or the process has exited. *)
Theorem reconnect_terminates token d s l s' :
  rtc (client_step h) (sys_init token d) s -> conn (client s) = None -> loops s = [Attempt 1] ->
  run_actions h l s = Some s' -> nconn s' = nconn s ->
  (loop_steps l <= 7)%nat /\
  (exited s' = None ->
     (running (client s') = false /\ loops s' = []) \/
     (exists a, is_loop a = true /\ is_Some (step_of h a s'))).
Proof.
  intros H Hc Hl Hr En. destruct (reachable_inv h token d s H) as [C _].
  destruct (run_work _ _ _ Hc Hr En) as [Hc' Hw]. unfold loop_work in Hw at 2. rewrite Hl in Hw. cbn in Hw.
  split; [lia|]. intros He. pose proof (run_conn_inv _ _ _ C Hr) as C'.
  destruct (loops s') as [|x ls] eqn:El.
  - left. split; [|done]. destruct (running (client s')) eqn:Er; [|done].
    destruct (ci_run _ C' Er) as [(c & E & _)|(_ & _ & ? & E)]; congruence.
  - right. destruct (single_loop s' 0 x C') as [_ E]; [by rewrite El|].
    apply (loop_enabled s' x); [done|congruence].
Qed.

(** ** Delivery *)

(** A connected, running client whose broadcaster is waiting, on a connection
    that has not broken *)
Record ready (c : nat) (w : bytes) s : Prop := {
  rd_exit : exited s = None;
  rd_run : running (client s) = true;
  rd_paused : paused (client s) = false;
  rd_conn : conn (client s) = Some c;
  rd_caster : caster s = Waiting;
  rd_wire : wires s !! c = Some (Tcp w None) }.

Lemma WriteFrame_healthy b t p :
  len p <= MaxPayloadLen -> WriteFrame (Tcp b None) t p = (inr tt, Tcp (b ++ frame_bytes (MkFrame t p)) None).
Proof.
  intros Hp. unfold WriteFrame. destruct (Z.ltb_spec MaxPayloadLen (len p)); [lia|].
  cbn [write tcp_writer limit sent]. unfold frame_bytes. cbn [frame_type frame_payload].
  destruct (Z.ltb_spec 0 (len p)) as [Hpos|Hz].
  - by rewrite <- app_assoc.
  - destruct p; [by rewrite app_nil_r|]. unfold len in Hz. cbn in Hz. lia.
Qed.

Lemma deliver_one c w ev q s :
  ready c w s -> eventChan (client s) = ev :: q -> len (Encode ev) <= MaxPayloadLen ->
  exists s', run_actions h [ATake; AWrite] s = Some s' /\
    ready c (w ++ frame_bytes (MkFrame MsgTypeBinderEvent (Encode ev))) s' /\
    eventChan (client s') = q /\ delivered s' = delivered s ++ [(c, ev)].
Proof.
  intros [He Hr Hp Hc Hb Hw] Hq Hl. set (s1 := with_caster (Sending c ev) (with_client (set_eventChan q) s)).
  assert (step_of h ATake s = Some s1) as E1.
  { unfold step_of. rewrite He. unfold take_event. rewrite Hb, Hq.
    cbn [client with_client paused set_eventChan conn]. by rewrite Hp, Hc. }
  assert (wires s1 !! c = Some (Tcp w None)) as Hw1 by done.
  cbn [run_actions]. rewrite E1. cbn [mbind option_bind]. unfold step_of. change (exited s1) with (exited s).
  rewrite He. unfold write_event, write_frame. cbn [caster s1 with_caster wires with_client]. rewrite Hw.
  rewrite WriteFrame_healthy by done.
  eexists. split; [reflexivity|]. split; [|done]. split; cbn; try done. by rewrite lookup_insert_eq.
Qed.

Lemma run_actions_app l1 l2 s : run_actions h (l1 ++ l2) s = s1 ← run_actions h l1 s; run_actions h l2 s1.
Proof.
  revert s. induction l1 as [|a l1 IH]; intros s; [done|]. cbn [app run_actions].
  destruct (step_of h a s); [apply IH|done].
Qed.

Lemma drain c q : forall w s,
  ready c w s -> eventChan (client s) = q -> Forall (λ ev, len (Encode ev) <= MaxPayloadLen) q ->
  exists s', run_actions h (concat (replicate (length q) [ATake; AWrite])) s = Some s' /\
    ready c (w ++ concat ((λ ev, frame_bytes (MkFrame MsgTypeBinderEvent (Encode ev))) <$> q)) s' /\
    eventChan (client s') = [] /\ delivered s' = delivered s ++ (pair c <$> q).
Proof.
  induction q as [|ev q IH]; intros w s R Hq Hl.
  - exists s. rewrite !app_nil_r. done.
  - apply list.Forall_cons in Hl as [Hev Hl]. destruct (deliver_one c w ev q s R Hq Hev) as (s1 & E1 & R1 & Q1 & D1).
    destruct (IH _ _ R1 Q1 Hl) as (s2 & E2 & R2 & Q2 & D2). exists s2. cbn [length replicate concat].
    rewrite run_actions_app, E1. cbn [mbind option_bind]. split; [done|].
    split; [by rewrite fmap_cons; cbn [concat]; rewrite (app_assoc w)|]. split; [done|].
    by rewrite D2, D1, fmap_cons, <- app_assoc.
Qed.

(** A ready client takes an event. *)
Lemma send_ready c w s ev :
  ready c w s -> (length (eventChan (client s)) < eventChanCap)%nat ->
  exists s', run_actions h [ASend ev] s = Some s' /\ ready c w s' /\
    eventChan (client s') = eventChan (client s) ++ [ev].
Proof.
  intros R Hq. set (q := eventChan (client s) ++ [ev]).
  set (s0 := Sys (set_eventChan q (client s)) (daemon s) (wires s) (nconn s) (readers s) (caster s) (loops s)
               None (accepted s ++ [ev]) (delivered s)).
  assert (step_of h (ASend ev) s = Some s0) as E0.
  { unfold step_of. rewrite (rd_exit _ _ _ R). unfold SendEvent. rewrite (rd_paused _ _ _ R), (rd_run _ _ _ R).
    cbn [negb]. rewrite (proj2 (Nat.ltb_lt _ _) Hq). cbn [eventChan set_eventChan]. fold q.
    by rewrite (proj2 (Nat.ltb_lt (length (eventChan (client s))) (length q)))
      by (unfold q; rewrite length_app; cbn; lia). }
  exists s0. cbn [run_actions]. rewrite E0. split; [done|]. split; [|done]. destruct R; by split.
Qed.

(** On a connection that holds, an event handed over by the collector
    reaches the app: once the broadcaster has taken its turns, the bytes on
    the connection are the earlier ones, then a frame for each event that was
    waiting, in order, then a frame from which the app decodes exactly that
    event. *)
Theorem event_reaches_app c w s ev :
  ready c w s -> (length (eventChan (client s)) < eventChanCap)%nat ->
  Forall (λ e, event_ok e /\ len (Encode e) <= MaxPayloadLen) (eventChan (client s) ++ [ev]) ->
  exists s' w',
    run_actions h (ASend ev :: concat (replicate (S (length (eventChan (client s)))) [ATake; AWrite])) s = Some s' /\
    ready c (w ++ w') s' /\
    exists frames, read_all (S (length (eventChan (client s)))) w' = Some (inr frames, []) /\
      forall g, (λ f, (frame_type f, DecodeBinderEvent (frame_payload f) g)) <$> frames =
                (λ e, (MsgTypeBinderEvent, Some (inr e, g))) <$> eventChan (client s) ++ [ev].
Proof.
  intros R Hq Hok. destruct (send_ready c w s ev R Hq) as (s0 & E0 & R0 & Q0).
  set (q := eventChan (client s) ++ [ev]) in *.
  destruct (drain c q w s0 R0 Q0) as (s' & E' & R' & _).
  { eapply list.Forall_impl; [exact Hok|]. by intros ? []. }
  eexists s', _. split.
  { change (ASend ev :: ?l) with ([ASend ev] ++ l). rewrite run_actions_app, E0. cbn [mbind option_bind].
    rewrite <- E'. do 3 f_equal. unfold q. rewrite length_app. cbn. lia. }
  split; [exact R'|]. exists ((λ e, MkFrame MsgTypeBinderEvent (Encode e)) <$> q).
  replace (S (length (eventChan (client s)))) with (length ((λ e, MkFrame MsgTypeBinderEvent (Encode e)) <$> q))
    by (rewrite length_fmap; unfold q; rewrite length_app; cbn; lia).
  split.
  - rewrite <- (app_nil_r (concat _)).
    change (λ ev, frame_bytes (MkFrame MsgTypeBinderEvent (Encode ev)))
      with (frame_bytes ∘ (λ e, MkFrame MsgTypeBinderEvent (Encode e))). rewrite list_fmap_compose.
    apply read_all_frames. apply list.Forall_fmap. eapply list.Forall_impl; [exact Hok|]. by intros ? [].
  - intros g. rewrite <- list_fmap_compose. apply list_fmap_ext. intros i e He. cbn.
    rewrite DecodeBinderEvent_Encode; [done|]. by apply (list.Forall_lookup_1 _ _ _ _ Hok) in He as [].
Qed.
End Properties.

(** ** Witnesses *)

Definition demo_handlers : Handlers unit := MkHandlers (λ _ d, (None, d)) (λ d, (None, d)) (λ d, (None, d)).
Definition demo (l : list action) : sys unit :=
  default (sys_init [] tt) (run_actions demo_handlers l (sys_init (str "a1b2") tt)).

(** An event is delivered, the next breaks the connection after 20 bytes, and a
    second connection carries a third. *)
Definition demo_loss : list action :=
  [AConnect; ASend sample_event; ATake; AWrite; ASend sample_event; ABreak 0 20; ATake; AWrite;
   AReadError 0; ACheck 0; ADial 0 false; ACheck 0; ADial 0 true; ASend sample_event; ATake; AWrite].

Lemma demo_reachable l :
  is_Some (run_actions demo_handlers l (sys_init (str "a1b2") tt)) ->
  rtc (client_step demo_handlers) (sys_init (str "a1b2") tt) (demo l).
Proof. intros [s E]. unfold demo. rewrite E. by apply (run_reachable _ l). Qed.

Lemma one_connection_or_one_reconnect_witness :
  running (client (demo demo_loss)) = true /\ (length (loops (demo demo_loss)) <= 1)%nat.
Proof.
  split; [by vm_compute|].
  apply (one_connection_or_one_reconnect demo_handlers (str "a1b2") tt (demo demo_loss)).
  apply demo_reachable. vm_compute. by eexists.
Defined.

Lemma app_reads_events_in_order_witness :
  length (delivered (demo demo_loss)) = 2%nat /\ length (accepted (demo demo_loss)) = 3%nat /\
  sublist (snd <$> delivered (demo demo_loss)) (accepted (demo demo_loss)).
Proof.
  split; [by vm_compute|]. split; [by vm_compute|].
  apply (app_reads_events_in_order demo_handlers (str "a1b2") tt (demo demo_loss)).
  - apply demo_reachable. vm_compute. by eexists.
  - change (accepted (demo demo_loss)) with [sample_event; sample_event; sample_event].
    repeat (apply Forall_cons; [apply sample_event_ok|]). apply Forall_nil.
Defined.

(** The broadcaster holds one event and the channel another when Pause comes. *)
Definition demo_pause : list action :=
  [AConnect; ASend sample_event; ASend sample_event; ATake; AFrame 0 (MkFrame MsgTypePause [])].


Lemma every_command_answered_witness :
  exists r d', handleCommand demo_handlers (MkFrame 0x7f [1]) (NewSocketClient []) tt = Some (r, NewSocketClient [], d') /\
    frame_type (reply_frame r) = MsgTypeError.
Proof.
  destruct (every_command_answered demo_handlers (MkFrame 0x7f [1]) (NewSocketClient []) tt) as (r & d' & E & _ & _ & H).
  - by split; [|split].
  - by vm_compute.
  - by repeat constructor.
  - by vm_compute.
  - exists r, d'. split; [exact E|]. apply H. left. by apply (bool_decide_unpack _).
Defined.

Lemma set_target_shows_session_witness :
  exists payload m,
    handleCommand demo_handlers (MkFrame MsgTypeSetTarget (EncodeSetTarget 10123)) (NewSocketClient (str "a1b2")) tt =
      Some (Reply (MkFrame MsgTypeAck payload) false, NewSocketClient (str "a1b2"), tt) /\
    DecodeAck payload = Some (inr (MkAck true m)) /\
    HasPrefix m (str "session=" ++ str "a1b3" ++ str ";") = false.
Proof.
  apply (set_target_shows_session demo_handlers (NewSocketClient (str "a1b2")) 10123 tt tt (str "a1b3")).
  all: try by vm_compute. all: by apply (bool_decide_unpack _).
Defined.

(** After the loss every dial fails: the process ends with status 1 after the
    loop's seventh step. *)
Definition demo_lost : list action := [AConnect; AReadError 0].
Definition demo_dials : list action :=
  [ACheck 0; ADial 0 false; ASend sample_event; ACheck 0; ADial 0 false; ACheck 0; ADial 0 false; AGiveUp 0].

Lemma reconnect_terminates_witness :
  (loop_steps demo_dials <= 7)%nat /\
  (exited <$> run_actions demo_handlers demo_dials (demo demo_lost)) = Some (Some 1).
Proof.
  split; [|by vm_compute].
  apply (reconnect_terminates demo_handlers (str "a1b2") tt (demo demo_lost) demo_dials
           (default (demo []) (run_actions demo_handlers demo_dials (demo demo_lost)))); try by vm_compute.
  apply demo_reachable. vm_compute. by eexists.
Defined.

Lemma event_reaches_app_witness :
  ready 0 [] (demo [AConnect]) /\
  exists s' w',
    run_actions demo_handlers [ASend sample_event; ATake; AWrite] (demo [AConnect]) = Some s' /\ ready 0 w' s' /\
    exists frames, read_all 1 w' = Some (inr frames, []) /\
      forall g, (λ f, (frame_type f, DecodeBinderEvent (frame_payload f) g)) <$> frames =
                [(MsgTypeBinderEvent, Some (inr sample_event, g))].
Proof.
  assert (ready 0 [] (demo [AConnect])) as R by (split; by vm_compute). split; [exact R|].
  apply (event_reaches_app demo_handlers 0 [] (demo [AConnect]) sample_event R).
  - vm_compute. lia.
  - apply Forall_cons; [|apply Forall_nil]. split; [apply sample_event_ok|by vm_compute].
Defined.
