(* ===== verification/AppWire.v ===== *)
(** * The app's side of the wire (app, Kotlin)

    model/BinderEvent.kt (fromPayload, parseStackTraceTLV, the enums),
    model/StackTraceCodec.kt, and of data/SocketClient.kt the frames and the
    handshake.  Kotlin's Byte, Short, Int and Long are signed at their width;
    a java.nio.ByteBuffer is the bytes that remain to be read; [None] is an
    exception that leaves the function. *)

From S2P Require Import Prelude GoLang GoStd Protocol.

(** ** Kotlin *)

Definition s8 (z : Z) : Z := signed 8 z.

(** The relative getters of ByteBuffer throw BufferUnderflowException. *)
Definition get_be (n : nat) (buf : bytes) : option (Z * bytes) :=
  if (n <=? length buf)%nat then Some (be_val (take n buf), drop n buf) else None.

Definition get (buf : bytes) : option (Z * bytes) := '(v, buf) ← get_be 1 buf; Some (s8 v, buf).
Definition getShort (buf : bytes) : option (Z * bytes) := '(v, buf) ← get_be 2 buf; Some (s16 v, buf).
Definition getInt (buf : bytes) : option (Z * bytes) := '(v, buf) ← get_be 4 buf; Some (s32 v, buf).
Definition getLong (buf : bytes) : option (Z * bytes) := '(v, buf) ← get_be 8 buf; Some (s64 v, buf).
Definition getBytes (n : nat) (buf : bytes) : option (bytes * bytes) :=
  if (n <=? length buf)%nat then Some (take n buf, drop n buf) else None.

(** ByteBuffer.wrap(data, off, n), read from its start *)
Definition wrap_at (data : bytes) (off n : Z) : option bytes :=
  if (0 <=? off) && (0 <=? n) && (off + n <=? len data)
  then Some (take (Z.to_nat n) (drop (Z.to_nat off) data)) else None.

(** An array element; a Byte *)
Definition at_index (data : bytes) (i : Z) : option Z := v ← index data i; Some (s8 v).

(** ** Data *)

Inductive kt_BinderDev := DEV_UNKNOWN | BINDER | HWBINDER | VNDBINDER.
Definition BinderDev_fromByte (b : Z) : kt_BinderDev :=
  if b =? 1 then BINDER else if b =? 2 then HWBINDER else if b =? 3 then VNDBINDER else DEV_UNKNOWN.

Inductive kt_TargetKind := KIND_UNKNOWN | HANDLE | PTR.
Definition TargetKind_fromByte (b : Z) : kt_TargetKind :=
  if b =? 1 then HANDLE else if b =? 2 then PTR else KIND_UNKNOWN.

Inductive kt_StackQuality := FULL | FP_ONLY | DEGRADED | FAILED.
Definition StackQuality_fromRaw (b : Z) : kt_StackQuality :=
  let b := Z.land b 0xff in
  if b =? 0 then FULL else if b =? 1 then FP_ONLY else if b =? 2 then DEGRADED
  else if b =? 3 then FAILED else DEGRADED.

Inductive kt_Direction := OUTGOING_REQUEST | INCOMING_REQUEST | OUTGOING_REPLY | INCOMING_REPLY | DIR_UNKNOWN.

(** Direction.infer *)
Definition Direction_infer (senderUid toUid : Z) (isReply : bool) (targetUid : Z) : kt_Direction :=
  if targetUid <=? 0 then DIR_UNKNOWN
  else
    let senderHit := senderUid =? targetUid in
    let toHit := negb (toUid =? 0) && (toUid =? targetUid) in
    if isReply && senderHit then OUTGOING_REPLY
    else if isReply && toHit then INCOMING_REPLY
    else if isReply then INCOMING_REPLY
    else if senderHit then OUTGOING_REQUEST
    else if toHit then INCOMING_REQUEST
    else OUTGOING_REQUEST.

Abbreviation isOneway flags := (Z.land flags 0x1 =? 0x1) (only parsing).

(** BinderEvent's constants *)
Abbreviation HEADER_LEN_V2 := 60%Z (only parsing).
Abbreviation PROTO_VERSION_V2 := 2%Z (only parsing).
Abbreviation EXT_FLAG_HAS_STACK_TLV := 0x01%Z (only parsing).
Abbreviation TLV_TYPE_STACK_TRACE := 0x01%Z (only parsing).
Abbreviation TLV_HEADER_LEN := 5%Z (only parsing).

Section App.
(** A Kotlin String, and String(bytes, UTF_8) *)
Context {text : Type} (utf8 : bytes -> text).

Record kt_StackFrame := KtFrame { kf_pc : Z; kf_module : text; kf_symbol : text; kf_offset : Z }.
Record kt_StackTrace := KtTrace {
  ks_quality : kt_StackQuality; ks_truncated : Z;
  ks_kFrames : list kt_StackFrame; ks_uFrames : list kt_StackFrame; ks_failureReason : text }.

Record kt_BinderEvent := KtEvent {
  ke_id : Z; ke_timestamp : Z; ke_pid : Z; ke_uid : Z; ke_code : Z; ke_flags : Z; ke_rawParcel : bytes;
  ke_isReply : bool; ke_binderDev : kt_BinderDev; ke_targetKind : kt_TargetKind; ke_toPid : Z; ke_toUid : Z;
  ke_targetRef : Z; ke_pairId : Z; ke_stackTrace : option kt_StackTrace }.

(** ** Stack traces *)

(** parseFrames: the frames and what is left of the buffer; [Some None] is the
    null of a frame that does not fit. *)
Fixpoint StackTraceCodec_parseFrames (count : nat) (buf : bytes) : option (option (list kt_StackFrame * bytes)) :=
  match count with
  | O => Some (Some ([], buf))
  | S count =>
      if len buf <? 20 then Some None
      else
        '(pc, buf) ← getLong buf;
        '(mLen, buf) ← getShort buf; let mLen := Z.land mLen 0xffff in
        '(sLen, buf) ← getShort buf; let sLen := Z.land sLen 0xffff in
        '(offset, buf) ← getLong buf;
        if len buf <? mLen + sLen then Some None
        else
          '(mb, buf) ← getBytes (Z.to_nat mLen) buf;
          '(sb, buf) ← getBytes (Z.to_nat sLen) buf;
          rest ← StackTraceCodec_parseFrames count buf;
          match rest with
          | None => Some None
          | Some (out, buf) => Some (Some (KtFrame pc (utf8 mb) (utf8 sb) offset :: out, buf))
          end
  end.

(** The optional failure reason at the end *)
Definition failure_reason (buf : bytes) : option text :=
  if 2 <=? len buf then
    '(rl, buf) ← getShort buf; let rl := Z.land rl 0xffff in
    if (1 <=? rl) && (rl <=? len buf) then '(rb, _) ← getBytes (Z.to_nat rl) buf; Some (utf8 rb)
    else Some (utf8 [])
  else Some (utf8 []).

(** StackTraceCodec.decode; [start + length] is computed at 32 bits. *)
Definition StackTraceCodec_decode (data : bytes) (start length : Z) : option (option kt_StackTrace) :=
  if length <? 8 then Some None
  else if (start <? 0) || (len data <? s32 (start + length)) then Some None
  else
    buf ← wrap_at data start length;
    if len buf <? 8 then Some None
    else
      '(q, buf) ← get buf;
      '(tr, buf) ← get buf; let truncated := Z.land tr 0xff in
      '(_, buf) ← getShort buf;
      '(kc, buf) ← getShort buf; let kCount := Z.land kc 0xffff in
      '(uc, buf) ← getShort buf; let uCount := Z.land uc 0xffff in
      k ← StackTraceCodec_parseFrames (Z.to_nat kCount) buf;
      match k with
      | None => Some None
      | Some (kFrames, buf) =>
          u ← StackTraceCodec_parseFrames (Z.to_nat uCount) buf;
          match u with
          | None => Some None
          | Some (uFrames, buf) =>
              reason ← failure_reason buf;
              Some (Some (KtTrace (StackQuality_fromRaw q) truncated kFrames uFrames reason))
          end
      end.

(** ** Events *)

(** The companion object: the id counter and the four guard counters, which
    are 64 bits wide as the daemon's *)
Record app_state := AppState { idCounter : Z; app_guards : TLVGuardCounters }.
Definition guard (f : TLVGuardCounters -> TLVGuardCounters) (st : app_state) : app_state :=
  AppState (idCounter st) (f (app_guards st)).

(** parseStackTraceTLV; runCatching makes null of an exception in decode. *)
Definition parseStackTraceTLV (payload : bytes) (baseEnd extFlags : Z) (st : app_state)
    : option (option kt_StackTrace * app_state) :=
  if Z.land extFlags EXT_FLAG_HAS_STACK_TLV =? 0 then Some (None, st)
  else if len payload <? s32 (baseEnd + TLV_HEADER_LEN) then Some (None, guard g4_add st)
  else
    tlvType ← at_index payload baseEnd;
    tl ← wrap_at payload (s32 (baseEnd + 1)) 4;
    '(tl, _) ← getInt tl; let tlvLength := Z.land tl 0xFFFFFFFF in
    if negb (tlvType =? TLV_TYPE_STACK_TRACE) then Some (None, st)
    else
      let maxTlvLen := s32 (len payload - baseEnd - TLV_HEADER_LEN) in
      if maxTlvLen <? tlvLength then Some (None, guard g5_add st)
      else
        let tlvStart := s32 (baseEnd + TLV_HEADER_LEN) in
        match StackTraceCodec_decode payload tlvStart (s32 tlvLength) with
        | Some r => Some (r, st)
        | None => Some (None, st)
        end.

(** fromPayload; [Some (None, _)] is null. *)
Definition fromPayload (payload : bytes) (st : app_state) : option (option kt_BinderEvent * app_state) :=
  if len payload <? HEADER_LEN_V2 then Some (None, guard g1_add st)
  else
    '(version, buf) ← get payload;
    if negb (version =? PROTO_VERSION_V2) then Some (None, st)
    else
      '(extFlags, buf) ← get buf;
      '(_, buf) ← getShort buf;
      '(timestamp, buf) ← getLong buf;
      '(pid, buf) ← getInt buf;
      '(uid, buf) ← getInt buf;
      '(code, buf) ← getInt buf;
      '(flags, buf) ← getInt buf;
      '(dataSize, buf) ← getInt buf;
      '(isReplyByte, buf) ← get buf;
      '(binderDevByte, buf) ← get buf;
      '(targetKindByte, buf) ← get buf;
      '(_, buf) ← get buf;
      '(toPid, buf) ← getInt buf;
      '(toUid, buf) ← getInt buf;
      '(targetRef, buf) ← getLong buf;
      '(pairId, buf) ← getLong buf;
      let baseEnd := s32 (HEADER_LEN_V2 + dataSize) in
      if (dataSize <? 0) || (len payload <? baseEnd) then Some (None, guard g2_add st)
      else
        '(parcelData, buf) ← (if 0 <? dataSize then getBytes (Z.to_nat dataSize) buf else Some ([], buf));
        '(stackTrace, st) ← parseStackTraceTLV payload baseEnd (Z.land extFlags 0xff) st;
        Some (Some (KtEvent (idCounter st) timestamp pid uid code flags parcelData (isReplyByte =? 1)
                      (BinderDev_fromByte binderDevByte) (TargetKind_fromByte targetKindByte) toPid toUid
                      targetRef pairId stackTrace),
              AppState (s64 (idCounter st + 1)) (app_guards st)).
End App.

Arguments KtFrame {text} _ _ _ _.
Arguments KtTrace {text} _ _ _ _ _.
Arguments KtEvent {text} _ _ _ _ _ _ _ _ _ _ _ _ _ _ _.

(** ** Frames *)

Abbreviation FRAME_MAGIC := (s8 0xBD)%Z (only parsing).
Abbreviation MAX_PAYLOAD_LEN := (Z.shiftl 1 20)%Z (only parsing).
Abbreviation MSG_SET_TARGET := 0x01%Z (only parsing).
Abbreviation MSG_BINDER_EVENT := 0x10%Z (only parsing).
Abbreviation MSG_ACK := 0x11%Z (only parsing).
Abbreviation MSG_ERROR := 0x12%Z (only parsing).

(** SocketClient.Frame; the type is a Byte. *)
Record kt_Frame := KtFrameMsg { kf_type : Z; kf_payload : bytes }.

(** readFrame on the stream: null (and the connection is given up) on any
    exception; otherwise the frame and what is left. *)
Definition readFrame (input : bytes) : option (kt_Frame * bytes) :=
  '(magic, input) ← get input;
  if negb (magic =? FRAME_MAGIC) then None
  else
    '(type, input) ← get input;
    '(length, input) ← getInt input;
    if (length <? 0) || (MAX_PAYLOAD_LEN <? length) then None
    else
      '(payload, input) ← getBytes (Z.to_nat length) input;
      Some (KtFrameMsg type payload, input).

(** writeFrame, on a connection that is open: whether it succeeded, and the
    stream afterwards *)
Definition writeFrame `{Writer W} (type : Z) (payload : bytes) (output : W) : bool * W :=
  let '(ok, output) := write output [u8 FRAME_MAGIC] in
  if negb ok then (false, output)
  else
    let '(ok, output) := write output [u8 type] in
    if negb ok then (false, output)
    else
      let '(ok, output) := write output (be_bytes 4 (len payload)) in
      if negb ok then (false, output) else write output payload.

(** The payload of sendSetTarget *)
Abbreviation setTargetPayload uid := (be_bytes 4 (u32 uid)) (only parsing).

(** The event frames of eventFlow, each decoded by fromPayload as startEventLoop
    does, until the stream ends; the second component is what is left then.
    Every frame takes six bytes or more, so the length of the stream bounds
    the number of frames. *)
Fixpoint eventFlow (fuel : nat) (input : bytes) : list kt_Frame * bytes :=
  match fuel with
  | O => ([], input)
  | S fuel =>
      match readFrame input with
      | None => ([], input)
      | Some (frame, input) => let '(frames, rest) := eventFlow fuel input in (frame :: frames, rest)
      end
  end.

Fixpoint collectEvents {text} (utf8 : bytes -> text) (frames : list kt_Frame) (st : app_state)
    : option (list (@kt_BinderEvent text) * app_state) :=
  match frames with
  | [] => Some ([], st)
  | f :: frames =>
      if kf_type f =? MSG_BINDER_EVENT then
        '(e, st) ← fromPayload utf8 (kf_payload f) st;
        '(es, st) ← collectEvents utf8 frames st;
        Some (match e with Some e => e :: es | None => es end, st)
      else collectEvents utf8 frames st
  end.

(** ** The handshake *)

Section Handshake.
(** A String is its UTF-8 bytes; [utf8] decodes bytes into one. *)
Context (utf8 : bytes -> bytes).

(** parseAckMessage; String(payload, 5, n) throws when the range is not in the
    array. *)
Definition parseAckMessage (payload : bytes) : option bytes :=
  if len payload <? 5 then Some []
  else
    w ← wrap_at payload 1 4;
    '(msgLen, _) ← getInt w;
    if (msgLen <=? 0) || (len payload <? s32 (5 + msgLen)) then Some []
    else w ← wrap_at payload 5 msgLen; Some (utf8 w).

(** The loop of sendSetTargetAndAwaitAck on what the daemon sends; [expired i]
    is the test of the deadline before the i-th read.  [Some b] is the result;
    fuel bounds the number of frames, as in eventFlow. *)
Fixpoint awaitAck (fuel : nat) (expired : nat -> bool) (i : nat) (expectedSessionToken : bytes) (input : bytes)
    : option bool :=
  match fuel with
  | O => Some false
  | S fuel =>
      if expired i then Some false
      else
        match readFrame input with
        | None => Some false
        | Some (frame, input) =>
            if kf_type frame =? MSG_ACK then
              let success := match kf_payload frame with b :: _ => s8 b =? 1 | [] => false end in
              ackMessage ← parseAckMessage (kf_payload frame);
              if negb success then Some false
              else if negb (len expectedSessionToken =? 0) then
                Some (HasPrefix ackMessage (str "session=" ++ expectedSessionToken ++ str ";"))
              else Some true
            else if kf_type frame =? MSG_ERROR then Some false
            else awaitAck fuel expired (S i) expectedSessionToken input
        end
  end.

(** sendSetTargetAndAwaitAck: the bytes sent, and the result *)
Definition sendSetTargetAndAwaitAck `{Writer W} (expired : nat -> bool) (uid : Z) (expectedSessionToken : bytes)
    (output : W) (input : bytes) : option bool * W :=
  let '(ok, output) := writeFrame MSG_SET_TARGET (setTargetPayload uid) output in
  if negb ok then (Some false, output)
  else (awaitAck (S (length input)) expired 0 expectedSessionToken input, output).
End Handshake.
