(* ===== verification/AppProofs.v ===== *)
(** * The app reads what the daemon writes

    The two decoders of the event payload compared, guard by guard; frames
    from one side read on the other; the handshake; and the stream of events
    of a connection as the app collects it. *)

From S2P Require Import Prelude GoLang GoStd Protocol ProtocolProofs Client ClientProofs AppWire.

(** ** Signed reads *)

Lemma signed_small w z : 0 < w -> 0 <= z < 2 ^ (w - 1) -> signed w z = z.
Proof.
  intros Hw Hz. assert (2 ^ w = 2 * 2 ^ (w - 1)) as E by (rewrite <- Z.pow_succ_r by lia; f_equal; lia).
  unfold signed. rewrite wrap_small by (unfold fits; lia). destruct (Z.ltb_spec z (2 ^ (w - 1))); lia.
Qed.

Lemma wrap_signed w z : 0 < w -> wrap w (signed w z) = wrap w z.
Proof.
  intros Hw. unfold signed. destruct (_ <? _); [apply wrap_idemp; lia|].
  unfold wrap. rewrite <- (Z.mod_add (z mod 2 ^ w - 2 ^ w) 1) by lia.
  replace (z mod 2 ^ w - 2 ^ w + 1 * 2 ^ w) with (z mod 2 ^ w) by lia. by rewrite Z.mod_mod by lia.
Qed.

Lemma land_signed w z : 0 < w -> fits w z -> Z.land (signed w z) (Z.ones w) = z.
Proof. intros Hw Hz. rewrite land_ones_wrap, wrap_signed by lia. by apply wrap_small. Qed.

Lemma s16_unsigned z : fits 16 z -> Z.land (s16 z) 0xffff = z.
Proof. apply (land_signed 16). done. Qed.

Lemma s8_unsigned z : fits 8 z -> Z.land (s8 z) 0xff = z.
Proof. apply (land_signed 8). done. Qed.

Lemma s32_unsigned z : fits 32 z -> Z.land (s32 z) 0xFFFFFFFF = z.
Proof. apply (land_signed 32). done. Qed.

(** A byte compared with a small constant *)
Lemma s8_eqb b k : fits 8 b -> 0 <= k < 128 -> (s8 b =? k) = (b =? k).
Proof.
  unfold fits, s8, signed. intros Hb Hk. rewrite wrap_small by done. change (2 ^ (8 - 1)) with 128.
  change (2 ^ 8) with 256 in *. destruct (Z.ltb_spec b 128); [done|]. destruct (Z.eqb_spec b k), (Z.eqb_spec (b - 256) k); lia.
Qed.

(** ** Reading at an offset *)

Lemma get_be_at n data off v :
  be_uint n data off = Some v ->
  get_be n (drop (Z.to_nat off) data) = Some (v, drop (Z.to_nat (off + Z.of_nat n)) data).
Proof.
  unfold be_uint, get_be, slice, len. destruct (Z.leb_spec 0 off); [|done].
  destruct (Z.leb_spec (off + Z.of_nat n) (Z.of_nat (length data))); [|done]. intros [= <-].
  rewrite (proj2 (Nat.leb_le _ _)) by (rewrite length_drop; lia).
  rewrite drop_drop. do 3 f_equal. lia.
Qed.

Lemma be_uint_index data i b : index data i = Some b -> be_uint 1 data i = Some b.
Proof.
  unfold index, be_uint, len. intros H. destruct (Z.leb_spec 0 i); [|done].
  destruct (Z.ltb_spec i (Z.of_nat (length data))); [|done]. cbn [andb] in H.
  destruct (Z.leb_spec (i + Z.of_nat 1) (Z.of_nat (length data))); [|lia]. cbn [andb]. unfold slice.
  rewrite (drop_S _ _ _ H). change (Some (b + 256 * 0) = Some b). f_equal. lia.
Qed.

Lemma getShort_at data off v :
  be_uint 2 data off = Some v ->
  getShort (drop (Z.to_nat off) data) = Some (s16 v, drop (Z.to_nat (off + 2)) data).
Proof. intros H. unfold getShort. by rewrite (get_be_at _ _ _ _ H). Qed.

Lemma getInt_at data off v :
  be_uint 4 data off = Some v ->
  getInt (drop (Z.to_nat off) data) = Some (s32 v, drop (Z.to_nat (off + 4)) data).
Proof. intros H. unfold getInt. by rewrite (get_be_at _ _ _ _ H). Qed.

Lemma getLong_at data off v :
  be_uint 8 data off = Some v ->
  getLong (drop (Z.to_nat off) data) = Some (s64 v, drop (Z.to_nat (off + 8)) data).
Proof. intros H. unfold getLong. by rewrite (get_be_at _ _ _ _ H). Qed.

Lemma get_at data off b :
  index data off = Some b ->
  get (drop (Z.to_nat off) data) = Some (s8 b, drop (Z.to_nat (off + 1)) data).
Proof. intros H%be_uint_index. unfold get. by rewrite (get_be_at _ _ _ _ H). Qed.

Lemma getBytes_at data off n :
  0 <= off -> 0 <= n -> off + n <= len data ->
  getBytes (Z.to_nat n) (drop (Z.to_nat off) data) =
    Some (slice (Z.to_nat off) (Z.to_nat n) data, drop (Z.to_nat (off + n)) data).
Proof.
  intros. unfold getBytes, len, slice in *. rewrite (proj2 (Nat.leb_le _ _)) by (rewrite length_drop; lia).
  rewrite drop_drop. do 3 f_equal. lia.
Qed.

Lemma subslice_at data off n :
  0 <= off -> 0 <= n -> off + n <= len data ->
  subslice data off (off + n) = Some (slice (Z.to_nat off) (Z.to_nat n) data).
Proof.
  intros. unfold subslice. destruct (Z.leb_spec 0 off), (Z.leb_spec off (off + n)), (Z.leb_spec (off + n) (len data)); try lia.
  cbn [andb]. by replace (off + n - off) with n by lia.
Qed.

Lemma len_drop off (data : bytes) : 0 <= off <= len data -> len (drop (Z.to_nat off) data) = len data - off.
Proof. unfold len. intros. rewrite length_drop. lia. Qed.

(** Offsets that are sums of constants *)
Ltac const_offsets :=
  cbn [mbind option_bind];
  repeat match goal with
  | |- context [Z.to_nat (Zpos ?a + Zpos ?b)] =>
      let v := eval vm_compute in (Zpos a + Zpos b) in change (Zpos a + Zpos b) with v
  end.

Section Decoders.
Context {text : Type} (utf8 : bytes -> text).

Definition app_frame (f : StackFrame) : kt_StackFrame :=
  KtFrame (s64 (PC f)) (utf8 (Module_ f)) (utf8 (Symbol f)) (s64 (Offset f)).
Definition app_trace (st : StackTrace) : kt_StackTrace :=
  KtTrace (StackQuality_fromRaw (Quality st)) (Truncated st) (app_frame <$> KFrames st)
    (app_frame <$> UFrames st) (utf8 (FailureReason st)).

Lemma parseFrames_agree data count : forall off,
  is_bytes data -> 0 <= off <= len data ->
  exists r, parseFrames data count off = Some r /\
    StackTraceCodec_parseFrames utf8 count (drop (Z.to_nat off) data) =
      Some ((λ p : list StackFrame * Z, (app_frame <$> p.1, drop (Z.to_nat p.2) data)) <$> r) /\
    forall fs off', r = Some (fs, off') -> off <= off' <= len data.
Proof.
  induction count as [|count IH]; intros off Hb Ho.
  { eexists. split; [done|]. split; [done|]. intros fs off' [= _ <-]. lia. }
  cbn [parseFrames StackTraceCodec_parseFrames]. rewrite (len_drop off data Ho).
  destruct (Z.ltb_spec (len data) (off + 20)), (Z.ltb_spec (len data - off) 20); try lia.
  { eexists. split; [done|]. by split. }
  destruct (be_uint_in_range 8 data off) as [pc Hpc]; [lia..|].
  destruct (be_uint_in_range 2 data (off + 8)) as [ml Hml]; [lia..|].
  destruct (be_uint_in_range 2 data (off + 10)) as [sl Hsl]; [lia..|].
  destruct (be_uint_in_range 8 data (off + 12)) as [fo Hfo]; [lia..|].
  rewrite Hpc, Hml, Hsl, Hfo. cbn [mbind option_bind].
  rewrite (getLong_at _ _ _ Hpc). cbn [mbind option_bind]. rewrite (getShort_at _ _ _ Hml). cbn [mbind option_bind].
  replace (off + 8 + 2) with (off + 10) by lia. rewrite (getShort_at _ _ _ Hsl). cbn [mbind option_bind].
  replace (off + 10 + 2) with (off + 12) by lia. rewrite (getLong_at _ _ _ Hfo). cbn [mbind option_bind].
  replace (off + 12 + 8) with (off + 20) by lia.
  pose proof (be_uint_fits 2 _ _ _ Hb Hml) as Fm. pose proof (be_uint_fits 2 _ _ _ Hb Hsl) as Fs.
  rewrite !s16_unsigned by done. unfold fits in Fm, Fs. rewrite (len_drop (off + 20)) by lia.
  destruct (Z.ltb_spec (len data) (off + 20 + ml + sl)), (Z.ltb_spec (len data - (off + 20)) (ml + sl)); try lia.
  { eexists. split; [done|]. by split. }
  rewrite (subslice_at data (off + 20) ml), (subslice_at data (off + 20 + ml) sl) by lia.
  rewrite getBytes_at by lia. cbn [mbind option_bind]. rewrite getBytes_at by lia. cbn [mbind option_bind].
  destruct (IH (off + 20 + ml + sl) Hb ltac:(lia)) as (r & E1 & E2 & E3). rewrite E1, E2. cbn [mbind option_bind].
  destruct r as [[fs o']|]; [|eexists; split; [done|]; by split].
  eexists. split; [done|]. split; [done|]. intros fs' off' [= _ <-]. specialize (E3 fs o' eq_refl). lia.
Qed.

Lemma failure_reason_agree data off :
  is_bytes data -> 0 <= off <= len data ->
  exists reason,
    (forall q t kf uf,
       (if off + 2 <=? len data then
          rl ← be_uint 2 data off;
          let off := off + 2 in
          if (0 <? rl) && (off + rl <=? len data) then
            reason ← subslice data off (off + rl);
            Some (Some (MkStackTrace q t kf uf reason))
          else Some (Some (MkStackTrace q t kf uf []))
        else Some (Some (MkStackTrace q t kf uf []))) = Some (Some (MkStackTrace q t kf uf reason))) /\
    failure_reason utf8 (drop (Z.to_nat off) data) = Some (utf8 reason).
Proof.
  intros Hb Ho. unfold failure_reason. rewrite (len_drop off data Ho).
  destruct (Z.leb_spec (off + 2) (len data)), (Z.leb_spec 2 (len data - off)); try lia; [|by exists []].
  destruct (be_uint_in_range 2 data off) as [rl Hrl]; [lia..|].
  rewrite Hrl, (getShort_at _ _ _ Hrl). cbn [mbind option_bind].
  pose proof (be_uint_fits 2 _ _ _ Hb Hrl) as F. rewrite s16_unsigned by done. unfold fits in F.
  rewrite (len_drop (off + 2)) by lia.
  destruct (Z.ltb_spec 0 rl), (Z.leb_spec 1 rl); try lia; cbn [andb]; [|by exists []].
  destruct (Z.leb_spec (off + 2 + rl) (len data)), (Z.leb_spec rl (len data - (off + 2))); try lia; [|by exists []].
  rewrite subslice_at, getBytes_at by lia. by eexists.
Qed.

Lemma StackQuality_signed q : fits 8 q -> StackQuality_fromRaw (s8 q) = StackQuality_fromRaw q.
Proof.
  intros H. unfold StackQuality_fromRaw. rewrite s8_unsigned by done. change 0xff with (Z.ones 8).
  by rewrite land_ones_wrap, wrap_small by done.
Qed.

Lemma index_fits data i b : is_bytes data -> index data i = Some b -> fits 8 b.
Proof. intros Hb H%be_uint_index. by apply (be_uint_fits 1 _ _ _ Hb H). Qed.

(** The payload of the TLV, decoded by the daemon's code and by the app's *)
Lemma codec_agree data start n :
  is_bytes data -> 0 <= start -> 0 <= n -> start + n <= len data -> len data < 2 ^ 31 ->
  exists r, DecodeStackTraceTLV (slice (Z.to_nat start) (Z.to_nat n) data) = Some r /\
    StackTraceCodec_decode utf8 data start n = Some (app_trace <$> r).
Proof.
  intros Hb Hs Hn He Hl. set (tlv := slice (Z.to_nat start) (Z.to_nat n) data).
  assert (len tlv = n) as Lt by (unfold tlv, slice, len in *; rewrite length_take, length_drop; lia).
  assert (is_bytes tlv) as Ht by (by apply list.Forall_take, list.Forall_drop).
  unfold StackTraceCodec_decode, DecodeStackTraceTLV. rewrite Lt.
  destruct (Z.ltb_spec n 8); [by exists None|]. destruct (Z.ltb_spec start 0); [lia|].
  assert (s32 (start + n) = start + n) as -> by (apply signed_small; [done|change (2 ^ (32 - 1)) with (2 ^ 31); lia]).
  destruct (Z.ltb_spec (len data) (start + n)); [lia|]. cbn [orb].
  assert (wrap_at data start n = Some tlv) as ->.
  { unfold wrap_at. destruct (Z.leb_spec 0 start), (Z.leb_spec 0 n), (Z.leb_spec (start + n) (len data)); lia || done. }
  cbn [mbind option_bind]. rewrite Lt. destruct (Z.ltb_spec n 8); [lia|].
  destruct (index_in_range tlv 0) as [q Hq]; [lia|]. destruct (index_in_range tlv 1) as [t Htr]; [lia|].
  destruct (be_uint_in_range 2 tlv 2) as [rs Hrs]; [lia..|].
  destruct (be_uint_in_range 2 tlv 4) as [kc Hkc]; [lia..|].
  destruct (be_uint_in_range 2 tlv 6) as [uc Huc]; [lia..|].
  rewrite Hq, Htr, Hkc, Huc. cbn [mbind option_bind].
  rewrite (get_at tlv 0 q Hq : get tlv = _). change (0 + 1) with 1. cbn [mbind option_bind].
  rewrite (get_at _ _ _ Htr). const_offsets. rewrite (getShort_at _ _ _ Hrs). const_offsets.
  rewrite (getShort_at _ _ _ Hkc). const_offsets. rewrite (getShort_at _ _ _ Huc). const_offsets.
  rewrite (s16_unsigned kc (be_uint_fits 2 _ _ _ Ht Hkc)), (s16_unsigned uc (be_uint_fits 2 _ _ _ Ht Huc)).
  rewrite (s8_unsigned t (index_fits _ _ _ Ht Htr)).
  destruct (parseFrames_agree tlv (Z.to_nat kc) 8 Ht ltac:(lia)) as (k & K1 & K2 & K3). rewrite K1.
  rewrite K2. cbn [mbind option_bind].
  destruct k as [[kf off]|]; [|by exists None]. specialize (K3 kf off eq_refl). cbn [fmap option_fmap option_map fst snd].
  destruct (parseFrames_agree tlv (Z.to_nat uc) off Ht ltac:(lia)) as (u & U1 & U2 & U3). rewrite U1, U2. cbn [mbind option_bind].
  destruct u as [[uf off']|]; [|by exists None]. specialize (U3 uf off' eq_refl). cbn [fmap option_fmap option_map fst snd].
  destruct (failure_reason_agree tlv off' Ht ltac:(lia)) as (reason & R1 & R2).
  rewrite Lt in R1. rewrite R2. cbn [mbind option_bind]. eexists. split; [apply R1|].
  cbn. unfold app_trace. cbn. by rewrite (StackQuality_signed q (index_fits _ _ _ Ht Hq)).
Qed.

Lemma s32_small z : 0 <= z < 2 ^ 31 -> s32 z = z.
Proof. intros H. by apply signed_small. Qed.

Lemma wrap_at_slice data off n :
  0 <= off -> 0 <= n -> off + n <= len data -> wrap_at data off n = Some (slice (Z.to_nat off) (Z.to_nat n) data).
Proof.
  intros. unfold wrap_at. destruct (Z.leb_spec 0 off), (Z.leb_spec 0 n), (Z.leb_spec (off + n) (len data)); lia || done.
Qed.

Lemma getInt_slice data off v : be_uint 4 data off = Some v -> exists rest, getInt (slice (Z.to_nat off) 4 data) = Some (s32 v, rest).
Proof.
  unfold be_uint, getInt, get_be. destruct (Z.leb_spec 0 off); [|done].
  destruct (Z.leb_spec (off + Z.of_nat 4) (len data)) as [Hl|]; [|done]. intros [= <-].
  assert (length (slice (Z.to_nat off) 4 data) = 4%nat) as L.
  { unfold slice, len in *. rewrite length_take, length_drop. lia. }
  rewrite L. eexists. cbn. by rewrite take_ge by (rewrite L; lia).
Qed.

(** Guards 3, 4 and 5 *)
Lemma tlv_agree data baseEnd ext ev g id :
  is_bytes data -> 0 <= baseEnd <= len data -> len data <= MaxPayloadLen ->
  StackTrace_ ev = None -> (Z.land ext 1 =? 0) = false ->
  exists st g', decode_tlv data baseEnd ev g = Some (inr (with_stack ev st), g') /\
    parseStackTraceTLV utf8 data baseEnd ext (AppState id g) = Some (app_trace <$> st, AppState id g').
Proof.
  intros Hb Hbe Hl Hst He. change MaxPayloadLen with (2 ^ 20) in Hl.
  assert (with_stack ev None = ev) as Hev by (destruct ev; cbn in *; by subst).
  unfold decode_tlv, parseStackTraceTLV. change EXT_FLAG_HAS_STACK_TLV with 1. rewrite He.
  change (Z.of_nat tlvHeaderLen) with 5. change TLV_HEADER_LEN with 5.
  rewrite (s32_small (baseEnd + 5)), (s32_small (baseEnd + 1)) by lia.
  destruct (Z.ltb_spec (len data) (baseEnd + 5)); [exists None; eexists; by rewrite Hev|].
  destruct (index_in_range data baseEnd) as [ty Hty]; [lia|].
  destruct (be_uint_in_range 4 data (baseEnd + 1)) as [tl Htl]; [lia..|].
  unfold at_index. rewrite Hty, Htl, wrap_at_slice by lia. change (Z.to_nat 4) with 4%nat. cbn [mbind option_bind].
  destruct (getInt_slice data (baseEnd + 1) tl Htl) as [rest ->]. cbn [mbind option_bind].
  pose proof (be_uint_fits 4 _ _ _ Hb Htl) as Ft. rewrite s32_unsigned by done. unfold fits in Ft.
  change TLV_TYPE_STACK_TRACE with 1. rewrite s8_eqb by first [by eapply index_fits|lia].
  change TLVTypeStackTrace with 1. destruct (ty =? 1); cbn [negb]; [|exists None; eexists; by rewrite Hev].
  rewrite (s32_small (len data - baseEnd - 5)) by lia.
  destruct (Z.ltb_spec (len data - baseEnd - 5) tl); [exists None; eexists; by rewrite Hev|].
  rewrite (s32_small tl), subslice_at by lia. cbn [mbind option_bind].
  destruct (codec_agree data (baseEnd + 5) tl) as (r & R1 & R2); [done|lia..|].
  rewrite R1, R2. cbn [mbind option_bind]. by exists r, g.
Qed.

(** The event of the daemon as the app holds it *)
Definition app_event (id : Z) (e : BinderEventPayload) : kt_BinderEvent :=
  KtEvent id (Timestamp e) (s32 (Pid e)) (s32 (Uid e)) (s32 (Code e)) (s32 (Flags e)) (ParcelData e)
    (IsReply e =? 1) (BinderDev_fromByte (BinderDev e)) (TargetKind_fromByte (TargetKind e))
    (s32 (ToPid e)) (s32 (ToUid e)) (s64 (TargetRef e)) (s64 (PairId e)) (app_trace <$> StackTrace_ e).

Lemma BinderDev_signed b : fits 8 b -> BinderDev_fromByte (s8 b) = BinderDev_fromByte b.
Proof. intros H. unfold BinderDev_fromByte. by rewrite !s8_eqb by (done || lia). Qed.

Lemma TargetKind_signed b : fits 8 b -> TargetKind_fromByte (s8 b) = TargetKind_fromByte b.
Proof. intros H. unfold TargetKind_fromByte. by rewrite !s8_eqb by (done || lia). Qed.

(** The declared parcel size is not one of the sixty values for which the
    app's sum of header and size overflows. *)
Definition no_overflow (payload : bytes) : Prop :=
  match be_uint 4 payload 28 with Some ds => ds < 2 ^ 31 - 60 \/ 2 ^ 31 <= ds | None => True end.

(** What the app makes of the daemon's result *)
Definition app_result (id : Z) (r : (proto_error + BinderEventPayload) * TLVGuardCounters)
    : option kt_BinderEvent * app_state :=
  match r with
  | (inr e, g) => (Some (app_event id e), AppState (s64 (id + 1)) g)
  | (inl _, g) => (None, AppState id g)
  end.

(** The fields of the header *)
Record header_at (payload : bytes) (ver ext rs ts pid uid code flags ds ir bd tk r1 tp tu tr pr : Z) : Prop := {
  ha_ver : index payload 0 = Some ver; ha_ext : index payload 1 = Some ext;
  ha_rs : be_uint 2 payload 2 = Some rs; ha_ts : be_uint 8 payload 4 = Some ts;
  ha_pid : be_uint 4 payload 12 = Some pid; ha_uid : be_uint 4 payload 16 = Some uid;
  ha_code : be_uint 4 payload 20 = Some code; ha_flags : be_uint 4 payload 24 = Some flags;
  ha_ds : be_uint 4 payload 28 = Some ds; ha_ir : index payload 32 = Some ir;
  ha_bd : index payload 33 = Some bd; ha_tk : index payload 34 = Some tk; ha_r1 : index payload 35 = Some r1;
  ha_tp : be_uint 4 payload 36 = Some tp; ha_tu : be_uint 4 payload 40 = Some tu;
  ha_tr : be_uint 8 payload 44 = Some tr; ha_pr : be_uint 8 payload 52 = Some pr }.

Lemma header_read payload :
  60 <= len payload ->
  exists ver ext rs ts pid uid code flags ds ir bd tk r1 tp tu tr pr,
    header_at payload ver ext rs ts pid uid code flags ds ir bd tk r1 tp tu tr pr.
Proof.
  intros H.
  destruct (index_in_range payload 0) as [ver Hver]; [lia|]. destruct (index_in_range payload 1) as [ext Hext]; [lia|].
  destruct (be_uint_in_range 2 payload 2) as [rs Hrs]; [lia..|].
  destruct (be_uint_in_range 8 payload 4) as [ts Hts]; [lia..|].
  destruct (be_uint_in_range 4 payload 12) as [pid Hpid]; [lia..|].
  destruct (be_uint_in_range 4 payload 16) as [uid Huid]; [lia..|].
  destruct (be_uint_in_range 4 payload 20) as [code Hcode]; [lia..|].
  destruct (be_uint_in_range 4 payload 24) as [flags Hflags]; [lia..|].
  destruct (be_uint_in_range 4 payload 28) as [ds Hds]; [lia..|].
  destruct (index_in_range payload 32) as [ir Hir]; [lia|]. destruct (index_in_range payload 33) as [bd Hbd]; [lia|].
  destruct (index_in_range payload 34) as [tk Htk]; [lia|]. destruct (index_in_range payload 35) as [r1 Hr1]; [lia|].
  destruct (be_uint_in_range 4 payload 36) as [tp Htp]; [lia..|].
  destruct (be_uint_in_range 4 payload 40) as [tu Htu]; [lia..|].
  destruct (be_uint_in_range 8 payload 44) as [tr Htr]; [lia..|].
  destruct (be_uint_in_range 8 payload 52) as [pr Hpr]; [lia..|].
  by exists ver, ext, rs, ts, pid, uid, code, flags, ds, ir, bd, tk, r1, tp, tu, tr, pr.
Qed.

(** The rest of fromPayload once the header has been read *)
Definition after_header (payload : bytes) (ext ts pid uid code flags ds ir bd tk tp tu tr pr : Z) (st : app_state)
    : option (option kt_BinderEvent * app_state) :=
  let baseEnd := s32 (60 + s32 ds) in
  if (s32 ds <? 0) || (len payload <? baseEnd) then Some (None, guard g2_add st)
  else
    '(parcelData, buf) ← (if 0 <? s32 ds then getBytes (Z.to_nat (s32 ds)) (drop (Z.to_nat 60) payload)
                          else Some ([], drop (Z.to_nat 60) payload));
    '(stackTrace, st) ← parseStackTraceTLV utf8 payload baseEnd (Z.land (s8 ext) 0xff) st;
    Some (Some (KtEvent (idCounter st) (s64 ts) (s32 pid) (s32 uid) (s32 code) (s32 flags) parcelData (s8 ir =? 1)
                  (BinderDev_fromByte (s8 bd)) (TargetKind_fromByte (s8 tk)) (s32 tp) (s32 tu) (s64 tr) (s64 pr) stackTrace),
          AppState (s64 (idCounter st + 1)) (app_guards st)).

Lemma fromPayload_header payload st ext rs ts pid uid code flags ds ir bd tk r1 tp tu tr pr :
  60 <= len payload -> header_at payload 2 ext rs ts pid uid code flags ds ir bd tk r1 tp tu tr pr ->
  fromPayload utf8 payload st = after_header payload ext ts pid uid code flags ds ir bd tk tp tu tr pr st.
Proof.
  intros Hl [Hver Hext Hrs Hts Hpid Huid Hcode Hflags Hds Hir Hbd Htk Hr1 Htp Htu Htr Hpr].
  unfold fromPayload. change HEADER_LEN_V2 with 60. destruct (Z.ltb_spec (len payload) 60); [lia|].
  rewrite (get_at payload 0 2 Hver : get payload = _). change (0 + 1) with 1. cbn [mbind option_bind].
  change (negb (s8 2 =? PROTO_VERSION_V2)) with false. cbn [negb].
  rewrite (get_at _ _ _ Hext). const_offsets. rewrite (getShort_at _ _ _ Hrs). const_offsets.
  rewrite (getLong_at _ _ _ Hts). const_offsets. rewrite (getInt_at _ _ _ Hpid). const_offsets.
  rewrite (getInt_at _ _ _ Huid). const_offsets. rewrite (getInt_at _ _ _ Hcode). const_offsets.
  rewrite (getInt_at _ _ _ Hflags). const_offsets. rewrite (getInt_at _ _ _ Hds). const_offsets.
  rewrite (get_at _ _ _ Hir). const_offsets. rewrite (get_at _ _ _ Hbd). const_offsets.
  rewrite (get_at _ _ _ Htk). const_offsets. rewrite (get_at _ _ _ Hr1). const_offsets.
  rewrite (getInt_at _ _ _ Htp). const_offsets. rewrite (getInt_at _ _ _ Htu). const_offsets.
  rewrite (getLong_at _ _ _ Htr). const_offsets. rewrite (getLong_at _ _ _ Hpr). const_offsets. reflexivity.
Qed.

Lemma decode_base_at payload ver ext rs ts pid uid code flags ds ir bd tk r1 tp tu tr pr :
  header_at payload ver ext rs ts pid uid code flags ds ir bd tk r1 tp tu tr pr ->
  0 <= ds -> 60 + ds <= len payload ->
  decode_base payload ds (60 + ds) =
    Some (MkEvent (s64 ts) pid uid code flags ds ir bd tk tp tu tr pr (slice 60 (Z.to_nat ds) payload) None).
Proof.
  intros [_ _ _ Hts Hpid Huid Hcode Hflags _ Hir Hbd Htk _ Htp Htu Htr Hpr] H0 Hl. unfold decode_base.
  rewrite Hts, Hpid, Huid, Hcode, Hflags, Hir, Hbd, Htk, Htp, Htu, Htr, Hpr. cbn [mbind option_bind].
  change (Z.of_nat BinderEventHeaderLen) with 60. by rewrite subslice_at by lia.
Qed.

Lemma get_parcel payload ds :
  0 <= ds -> 60 + ds <= len payload ->
  exists buf, (if 0 <? ds then getBytes (Z.to_nat ds) (drop (Z.to_nat 60) payload)
               else Some ([], drop (Z.to_nat 60) payload)) = Some (slice 60 (Z.to_nat ds) payload, buf).
Proof.
  intros H0 Hl. destruct (Z.ltb_spec 0 ds).
  - rewrite getBytes_at by lia. by eexists.
  - replace ds with 0 by lia. by eexists.
Qed.

Lemma fromPayload_agree payload id g :
  is_bytes payload -> len payload <= MaxPayloadLen -> no_overflow payload ->
  exists r, DecodeBinderEvent payload g = Some r /\ fromPayload utf8 payload (AppState id g) = Some (app_result id r).
Proof.
  intros Hb Hl Hno. destruct (Z.lt_ge_cases (len payload) 60) as [Hs|Hs].
  { unfold DecodeBinderEvent, fromPayload. change (Z.of_nat BinderEventHeaderLen) with 60. change HEADER_LEN_V2 with 60.
    destruct (Z.ltb_spec (len payload) 60); [by eexists|lia]. }
  destruct (header_read payload Hs) as (ver & ext & rs & ts & pid & uid & code & flags & ds & ir & bd & tk & r1 & tp & tu & tr & pr & Hh).
  pose proof Hh as [Hver Hext _ _ _ _ _ _ Hds Hir Hbd Htk _ _ _ _ _].
  unfold DecodeBinderEvent. change (Z.of_nat BinderEventHeaderLen) with 60.
  destruct (Z.ltb_spec (len payload) 60); [lia|]. rewrite Hver. cbn [mbind option_bind].
  change BinderEventVersionV2 with 2. destruct (Z.eqb_spec ver 2) as [->|Hv]; cbn [negb].
  2: { eexists. split; [done|]. unfold fromPayload. change HEADER_LEN_V2 with 60.
       destruct (Z.ltb_spec (len payload) 60); [lia|]. rewrite (get_at payload 0 ver Hver : get payload = _).
       cbn [mbind option_bind]. change PROTO_VERSION_V2 with 2. rewrite s8_eqb by first [by eapply index_fits|lia].
       by rewrite (proj2 (Z.eqb_neq _ _) Hv). }
  rewrite (fromPayload_header _ _ _ _ _ _ _ _ _ _ _ _ _ _ _ _ _ _ Hs Hh). unfold after_header.
  rewrite Hext, Hds. cbn [mbind option_bind]. unfold no_overflow in Hno. rewrite Hds in Hno.
  pose proof (be_uint_fits 4 _ _ _ Hb Hds) as Fd. unfold fits in Fd. change (2 ^ (8 * Z.of_nat 4)) with (2 ^ 32) in Fd.
  change MaxPayloadLen with (2 ^ 20) in *. destruct Hno as [Hd|Hd].
  2: { assert ((s32 ds <? 0) = true) as ->.
       { unfold s32, signed. rewrite wrap_small by (unfold fits; lia). change (2 ^ (32 - 1)) with (2 ^ 31).
         destruct (Z.ltb_spec ds (2 ^ 31)); [lia|]. apply Z.ltb_lt. lia. }
       destruct (Z.ltb_spec (len payload) (60 + ds)); [|lia]. by eexists. }
  rewrite (s32_small ds), (s32_small (60 + ds)) by lia. destruct (Z.ltb_spec ds 0); [lia|]. cbn [orb].
  destruct (Z.ltb_spec (len payload) (60 + ds)); [by eexists|].
  destruct (get_parcel payload ds) as [buf ->]; [lia..|].
  rewrite (decode_base_at _ _ _ _ _ _ _ _ _ _ _ _ _ _ _ _ _ _ Hh) by lia. cbn [mbind option_bind].
  rewrite (s8_unsigned ext (index_fits _ _ _ Hb Hext)).
  rewrite (s8_eqb ir 1 (index_fits _ _ _ Hb Hir)), (BinderDev_signed bd (index_fits _ _ _ Hb Hbd)),
    (TargetKind_signed tk (index_fits _ _ _ Hb Htk)) by lia.
  change ExtFlagHasStackTLV with 1. destruct (Z.land ext 1 =? 0) eqn:Ee.
  { unfold parseStackTraceTLV. change EXT_FLAG_HAS_STACK_TLV with 1. rewrite Ee. cbn [mbind option_bind]. by eexists. }
  set (ev := MkEvent _ _ _ _ _ _ _ _ _ _ _ _ _ _ _).
  destruct (tlv_agree payload (60 + ds) ext ev g id Hb) as (st & g' & E1 & E2); [lia|done..|].
  rewrite E1, E2. cbn [mbind option_bind]. by eexists.
Qed.

(** ** Events of the daemon *)

(** Strings, parcel and one-byte fields hold bytes. *)
Definition frame_bytes_ok (f : StackFrame) : Prop := is_bytes (Module_ f) /\ is_bytes (Symbol f).
Record event_bytes (e : BinderEventPayload) : Prop := {
  eb_parcel : is_bytes (ParcelData e);
  eb_flags : fits 8 (IsReply e) /\ fits 8 (BinderDev e) /\ fits 8 (TargetKind e);
  eb_stack : match StackTrace_ e with
             | Some st => fits 8 (Quality st) /\ fits 8 (Truncated st) /\ is_bytes (FailureReason st) /\
                          Forall frame_bytes_ok (KFrames st) /\ Forall frame_bytes_ok (UFrames st)
             | None => True
             end }.

Lemma is_bytes_app a b : is_bytes a -> is_bytes b -> is_bytes (a ++ b).
Proof. intros. by apply list.Forall_app. Qed.

Lemma is_bytes_cons b l : fits 8 b -> is_bytes l -> is_bytes (b :: l).
Proof. by constructor. Qed.

Lemma is_bytes_nil : is_bytes [].
Proof. constructor. Qed.

#[local] Hint Resolve is_bytes_app is_bytes_cons is_bytes_nil be_bytes_is_bytes : btrace.

Lemma encodeFrames_is_bytes fs :
  Forall frame_ok fs -> Forall frame_bytes_ok fs -> is_bytes (concat (encodeFrame <$> fs)).
Proof.
  induction 1 as [|f fs Hf _ IH]; intros Hb; [constructor|]. apply list.Forall_cons in Hb as [[Hm Hs] Hb].
  rewrite fmap_cons. cbn [concat]. rewrite (encodeFrame_bytes f Hf). auto 10 with btrace.
Qed.

Lemma Encode_is_bytes e : event_ok e -> event_bytes e -> is_bytes (Encode e).
Proof.
  intros [_ _ _ _ _ _ _ _ _ _ _ Hok] [Hp (H1 & H2 & H3) Hst]. rewrite Encode_bytes. apply is_bytes_app.
  { unfold header_bytes. assert (fits 8 0 /\ fits 8 2 /\ fits 8 (ext_flags (StackTrace_ e))) as (? & ? & ?)
      by (destruct (StackTrace_ e); by vm_compute).
    auto 30 with btrace. }
  apply is_bytes_app; [done|]. destruct (StackTrace_ e) as [st|]; cbn [tlv_bytes]; [|constructor].
  destruct Hok as [Ho _], Hst as (Q & T & R & K & U). rewrite (EncodeStackTraceTLV_bytes st Ho).
  pose proof (encodeFrames_is_bytes _ (to_kf _ Ho) K). pose proof (encodeFrames_is_bytes _ (to_uf _ Ho) U).
  unfold trace_hdr. assert (fits 8 0 /\ fits 8 TLVTypeStackTrace) as [? ?] by by vm_compute. auto 20 with btrace.
Qed.

(** Events as the daemon makes them, small enough for a frame *)
Record sendable (e : BinderEventPayload) : Prop := {
  sd_ok : event_ok e; sd_bytes : event_bytes e; sd_len : len (Encode e) <= MaxPayloadLen }.

Lemma Encode_size e : event_ok e -> DataSize e < 2 ^ 32 -> be_uint 4 (Encode e) 28 = Some (DataSize e).
Proof.
  intros Hok Hd. pose proof (Encode_len e) as L. rewrite (eo_size _ Hok) in *. pose proof (len_nonneg (ParcelData e)).
  assert (fits 32 (len (ParcelData e))) as F by by split.
  apply be_uint_cells; [lia| |exact F|].
  - change (Z.of_nat 4) with 4. destruct (StackTrace_ e) as [st|]; [pose proof (len_nonneg (EncodeStackTraceTLV st))|]; lia.
  - rewrite Encode_bytes. transitivity (be_bytes 4 (u32 (len (ParcelData e)))); [reflexivity|].
    unfold u32. by rewrite wrap_small.
Qed.

Lemma fromPayload_Encode e id g :
  sendable e -> fromPayload utf8 (Encode e) (AppState id g) = Some (Some (app_event id e), AppState (s64 (id + 1)) g).
Proof.
  intros [Hok Hb Hl]. destruct (fromPayload_agree (Encode e) id g) as (r & E1 & E2); [by apply Encode_is_bytes|done| |].
  - unfold no_overflow. pose proof (Encode_len e) as L. pose proof (len_nonneg (ParcelData e)).
    assert (DataSize e < 2 ^ 20) as Hd.
    { rewrite (eo_size _ Hok). change MaxPayloadLen with (2 ^ 20) in Hl.
      destruct (StackTrace_ e) as [st|]; [pose proof (len_nonneg (EncodeStackTraceTLV st))|]; lia. }
    destruct (be_uint 4 (Encode e) 28) as [ds|] eqn:E; [|done]. left.
    assert (be_uint 4 (Encode e) 28 = Some (DataSize e)) as E' by (apply Encode_size; [done|lia]).
    assert (ds = DataSize e) as -> by congruence. lia.
  - rewrite (DecodeBinderEvent_Encode e g Hok) in E1. injection E1 as <-. exact E2.
Qed.
End Decoders.
