(* ===== verification/AppSpec.v ===== *)
(** * The daemon and the app together

    Frames of one side read by the other, the events of a connection as the
    app collects them, the handshake, and where the app's decoder throws. *)

From S2P Require Import Prelude GoLang GoStd Protocol ProtocolProofs Client ClientProofs ClientSpec AppWire AppProofs.

(** ** Frames *)

Definition app_frame_of (f : Frame) : kt_Frame := KtFrameMsg (s8 (frame_type f)) (frame_payload f).

Lemma get_cons b buf : get (b :: buf) = Some (s8 b, buf).
Proof. unfold get, get_be. cbn [length Nat.leb mbind option_bind]. change (be_val (take 1 (b :: buf))) with (b + 256 * 0).
  by rewrite Z.mul_0_r, Z.add_0_r. Qed.

Lemma getInt_be v buf : fits 32 v -> getInt (be_bytes 4 v ++ buf) = Some (s32 v, buf).
Proof.
  intros Hv. unfold getInt, get_be. rewrite length_app, length_be_bytes.
  rewrite (proj2 (Nat.leb_le 4 (4 + length buf))) by lia. cbn [mbind option_bind].
  rewrite take_app_length', drop_app_length' by by rewrite length_be_bytes. by rewrite be_val_bytes_fits.
Qed.

Lemma readFrame_frame f rest :
  len (frame_payload f) <= MaxPayloadLen -> readFrame (frame_bytes f ++ rest) = Some (app_frame_of f, rest).
Proof.
  intros Hl. unfold frame_bytes, readFrame. rewrite frame_header_bytes, <- !app_assoc. cbn [app].
  rewrite get_cons. cbn [mbind option_bind]. change (negb (s8 FrameMagic =? FRAME_MAGIC)) with false. cbv iota.
  rewrite get_cons. cbn [mbind option_bind]. rewrite len_u32 by done.
  pose proof (len_nonneg (frame_payload f)). change MaxPayloadLen with (2 ^ 20) in Hl.
  rewrite getInt_be by (unfold fits; lia). cbn [mbind option_bind]. rewrite s32_small by lia.
  change MAX_PAYLOAD_LEN with (2 ^ 20).
  destruct (Z.ltb_spec (len (frame_payload f)) 0), (Z.ltb_spec (2 ^ 20) (len (frame_payload f))); try lia. cbn [orb].
  unfold getBytes, len. rewrite Nat2Z.id, length_app.
  rewrite (proj2 (Nat.leb_le _ _)) by lia. cbn [mbind option_bind]. by rewrite take_app_length, drop_app_length.
Qed.

(** More input does not change a frame that is already complete. *)
Lemma get_be_more n buf v rest more : get_be n buf = Some (v, rest) -> get_be n (buf ++ more) = Some (v, rest ++ more).
Proof.
  unfold get_be. destruct (Nat.leb_spec n (length buf)); [|done]. intros [= <- <-].
  rewrite length_app, (proj2 (Nat.leb_le _ _)) by lia. by rewrite take_app_le, drop_app_le by lia.
Qed.

Lemma getBytes_more n buf v rest more :
  getBytes n buf = Some (v, rest) -> getBytes n (buf ++ more) = Some (v, rest ++ more).
Proof.
  unfold getBytes. destruct (Nat.leb_spec n (length buf)); [|done]. intros [= <- <-].
  rewrite length_app, (proj2 (Nat.leb_le _ _)) by lia. by rewrite take_app_le, drop_app_le by lia.
Qed.

Lemma readFrame_more input f rest more :
  readFrame input = Some (f, rest) -> readFrame (input ++ more) = Some (f, rest ++ more).
Proof.
  unfold readFrame, get, getInt. intros H.
  destruct (get_be 1 input) as [[v1 i1]|] eqn:E1; [|done]. rewrite (get_be_more _ _ _ _ more E1). cbn [mbind option_bind] in *.
  destruct (negb _); [done|]. destruct (get_be 1 i1) as [[v2 i2]|] eqn:E2; [|done].
  rewrite (get_be_more _ _ _ _ more E2). cbn [mbind option_bind] in *.
  destruct (get_be 4 i2) as [[v3 i3]|] eqn:E3; [|done]. rewrite (get_be_more _ _ _ _ more E3). cbn [mbind option_bind] in *.
  destruct (_ || _); [done|]. destruct (getBytes _ i3) as [[v4 i4]|] eqn:E4; [|done].
  rewrite (getBytes_more _ _ _ _ more E4). cbn [mbind option_bind] in *. by injection H as <- <-.
Qed.

(** Part of a frame is no frame. *)
Lemma readFrame_cut p : cut_frame p -> readFrame p = None.
Proof.
  intros (f & rest & Hp & E & Hne). destruct (readFrame p) as [[f' r]|] eqn:R; [|done]. exfalso.
  apply (readFrame_more _ _ _ rest) in R. rewrite <- E, <- (app_nil_r (frame_bytes f)), readFrame_frame in R by done.
  injection R as _ R. symmetry in R. apply app_eq_nil in R as [_ R]. done.
Qed.

Lemma frame_bytes_length f : (6 <= length (frame_bytes f))%nat.
Proof. unfold frame_bytes. rewrite length_app, frame_header_bytes, length_app, length_be_bytes. cbn. lia. Qed.

Lemma eventFlow_frames frames tail fuel :
  Forall from_daemon frames -> cut_frame tail -> (length frames < fuel)%nat ->
  eventFlow fuel (concat (frame_bytes <$> frames) ++ tail) = (app_frame_of <$> frames, tail).
Proof.
  intros Hf Hc. revert fuel. induction Hf as [|f frames [_ Hl] _ IH]; intros [|fuel] Hn; cbn [length] in Hn; try lia.
  - cbn. by rewrite readFrame_cut.
  - rewrite fmap_cons. cbn [concat eventFlow]. rewrite <- app_assoc, readFrame_frame, IH by (done || lia). done.
Qed.

Lemma frames_shorter frames : (length frames <= length (concat (frame_bytes <$> frames)))%nat.
Proof.
  induction frames as [|f frames IH]; [done|]. rewrite fmap_cons. cbn [concat length]. rewrite length_app.
  pose proof (frame_bytes_length f). lia.
Qed.

(** ** Events *)

Section Events.
Context {text : Type} (utf8 : bytes -> text).

(** The app's events for the daemon's, numbered from [id], and the next id *)
Fixpoint app_events (id : Z) (evs : list BinderEventPayload) : list kt_BinderEvent * Z :=
  match evs with
  | [] => ([], id)
  | e :: evs => let '(l, id') := app_events (s64 (id + 1)) evs in (app_event utf8 id e :: l, id')
  end.

Lemma s8_event_type f : from_daemon f -> (s8 (frame_type f) =? MSG_BINDER_EVENT) = bool_decide (frame_type f = MsgTypeBinderEvent).
Proof. by intros [[->|[->|[->| ->]]] _]. Qed.

Lemma collectEvents_frames frames : forall evs id g,
  Forall from_daemon frames -> event_payloads frames = Encode <$> evs -> Forall sendable evs ->
  collectEvents utf8 (app_frame_of <$> frames) (AppState id g) =
    Some ((app_events id evs).1, AppState (app_events id evs).2 g).
Proof.
  induction frames as [|f frames IH]; intros evs id g Hf Hp Hs.
  { symmetry in Hp. apply fmap_nil_inv in Hp as ->. done. }
  apply list.Forall_cons in Hf as [Hfd Hf]. rewrite fmap_cons. cbn [collectEvents app_frame_of kf_type kf_payload].
  rewrite s8_event_type by done. unfold event_payloads in Hp. rewrite filter_cons in Hp.
  case_bool_decide as Ht; [rewrite decide_True in Hp by done|rewrite decide_False in Hp by done; by apply IH].
  rewrite fmap_cons in Hp. destruct evs as [|e evs]; [done|]. rewrite fmap_cons in Hp. injection Hp as -> Hp.
  apply list.Forall_cons in Hs as [He Hs]. rewrite (fromPayload_Encode utf8 e id g He). cbn [mbind option_bind].
  rewrite (IH evs (s64 (id + 1)) g Hf Hp Hs). cbn [mbind option_bind app_events].
  by destruct (app_events (s64 (id + 1)) evs).
Qed.

(** Over any run of the daemon's goroutines and of the network, what the
    app makes of a connection is what the daemon wrote to it: reading the
    bytes frame by frame until the stream ends or breaks, and decoding the
    event frames, gives the events written to that connection, in order,
    numbered one after the other, each with the daemon's field values, parcel
    and stack; no guard counter of the app moves, and nothing throws. *)
Theorem app_collects_events {D} (h : Handlers D) token d s c w id g :
  rtc (client_step h) (sys_init token d) s -> Forall sendable (accepted s) -> wires s !! c = Some w ->
  exists frames rest,
    eventFlow (S (length (sent w))) (sent w) = (frames, rest) /\ readFrame rest = None /\
    collectEvents utf8 frames (AppState id g) =
      Some ((app_events id (events_on c (delivered s))).1, AppState (app_events id (events_on c (delivered s))).2 g).
Proof.
  intros H Hok Hw. destruct (reachable_inv h token d s H) as [_ I].
  destruct (si_wires _ I c w Hw) as (fr & tl & E & Hf & Hcut & _ & Hp).
  exists (app_frame_of <$> fr), tl. rewrite E. split; [|split; [by apply readFrame_cut|]].
  - apply eventFlow_frames; [done..|]. rewrite length_app. pose proof (frames_shorter fr). lia.
  - apply collectEvents_frames; [done..|]. by apply (delivered_accepted sendable s c).
Qed.
End Events.

(** ** The handshake *)

Section HandshakeProofs.
Context (utf8 : bytes -> bytes).
(** ASCII bytes are characters of their own in UTF-8. *)
Hypothesis utf8_ascii : forall s r, Forall (λ b, 0 <= b < 128) s -> utf8 (s ++ r) = s ++ utf8 r.

Lemma parseAckMessage_Encode m :
  0 < len m < 2 ^ 31 - 8 -> parseAckMessage utf8 (EncodeAck (MkAck true m)) = Some (utf8 m).
Proof.
  intros Hm. rewrite EncodeAck_bytes. cbn [ack_success ack_message]. unfold u32. rewrite wrap_small by (unfold fits; lia).
  set (p := 1 :: be_bytes 4 (len m) ++ m). assert (len p = 5 + len m) as Lp.
  { unfold p, len. cbn [length]. rewrite length_app, length_be_bytes. lia. }
  unfold parseAckMessage. rewrite Lp. destruct (Z.ltb_spec (5 + len m) 5); [lia|].
  rewrite !wrap_at_slice by lia. cbn [mbind option_bind].
  change (slice (Z.to_nat 1) (Z.to_nat 4) p) with (be_bytes 4 (len m)).
  rewrite <- (app_nil_r (be_bytes 4 (len m))), getInt_be by (unfold fits; lia). cbn [mbind option_bind].
  rewrite (s32_small (len m)), (s32_small (5 + len m)) by lia.
  destruct (Z.leb_spec (len m) 0), (Z.ltb_spec (5 + len m) (5 + len m)); try lia. cbn [orb].
  rewrite wrap_at_slice by lia. cbn [mbind option_bind]. do 2 f_equal.
  change (Z.to_nat 5) with 5%nat. unfold slice. change (drop 5 p) with m. apply take_ge. unfold len. lia.
Qed.

Lemma awaitAck_skip frames : forall fuel expired i token input,
  Forall (λ f, from_daemon f /\ frame_type f <> MsgTypeAck /\ frame_type f <> MsgTypeError) frames ->
  (forall j, expired j = false) ->
  awaitAck utf8 (length frames + fuel) expired i token (concat (frame_bytes <$> frames) ++ input) =
    awaitAck utf8 fuel expired (length frames + i) token input.
Proof.
  induction frames as [|f frames IH]; intros fuel expired i token input Hf Hx; [done|].
  apply list.Forall_cons in Hf as [([Ht Hl] & H1 & H2) Hf]. rewrite fmap_cons. cbn [length Nat.add concat awaitAck].
  rewrite Hx, <- app_assoc, readFrame_frame by done. cbn [app_frame_of kf_type].
  assert ((s8 (frame_type f) =? MSG_ACK) = false /\ (s8 (frame_type f) =? MSG_ERROR) = false) as [-> ->]
    by (destruct Ht as [E|[E|[E|E]]]; rewrite E in *; done).
  rewrite IH by done. f_equal. lia.
Qed.

Lemma session_prefix_decoded token expected rest :
  Forall (λ b, 0 <= b < 128) token -> 59 ∉ token -> 59 ∉ expected ->
  HasPrefix (utf8 (str "session=" ++ token ++ str ";" ++ rest)) (str "session=" ++ expected ++ str ";") =
    bool_decide (expected = token).
Proof.
  intros Ha Ht He. rewrite (app_assoc token), (app_assoc (str "session=")), utf8_ascii.
  - rewrite <- !app_assoc. by apply session_prefix.
  - apply list.Forall_app. split; [by apply (bool_decide_unpack _)|]. apply list.Forall_app. split; [done|].
    by apply (bool_decide_unpack _).
Qed.

(** The acknowledgement the app is waiting for *)
Lemma awaitAck_ack fuel expired i expected m rest :
  expired i = false -> expected <> [] -> 0 < len m <= 2 ^ 20 - 8 ->
  awaitAck utf8 (S fuel) expired i expected (frame_bytes (ack m) ++ rest) =
    Some (HasPrefix (utf8 m) (str "session=" ++ expected ++ str ";")).
Proof.
  intros Hx He Hm. cbn [awaitAck]. rewrite Hx.
  assert (len (frame_payload (ack m)) <= MaxPayloadLen) as Hl.
  { cbn [frame_payload]. rewrite EncodeAck_bytes. cbn [ack_message ack_success]. change MaxPayloadLen with (2 ^ 20).
    unfold len in *. cbn [length]. rewrite length_app, length_be_bytes. lia. }
  rewrite readFrame_frame by done. cbn [app_frame_of kf_type kf_payload frame_type frame_payload].
  change (s8 MsgTypeAck =? MSG_ACK) with true. cbv iota. rewrite parseAckMessage_Encode by lia. cbn [mbind option_bind].
  rewrite EncodeAck_bytes. cbn [ack_success]. change (s8 1 =? 1) with true. cbn [negb].
  destruct expected; [done|]. done.
Qed.

(** The command on the wire, as the daemon reads it *)
Lemma set_target_on_wire uid :
  ReadFrame (writeFrame MSG_SET_TARGET (setTargetPayload uid) []).2 =
    Some (inr (MkFrame MsgTypeSetTarget (EncodeSetTarget (u32 uid))), []).
Proof.
  change (writeFrame MSG_SET_TARGET (setTargetPayload uid) []).2
    with (frame_bytes (MkFrame MsgTypeSetTarget (be_bytes 4 (u32 uid))) ++ []).
  unfold frame_bytes. by rewrite <- app_assoc, ReadFrame_frame.
Qed.

(** C25: The handshake tells the app which daemon answered. The app's SetTarget
    command is read by the daemon as it was sent, and answered; when the
    answer comes back, after any events and pongs already under way, the app
    goes on exactly if the token it expects is the daemon's own. *)
Theorem handshake_identifies_daemon {D} (h : Handlers D) cl uid d d' expected frames rest expired :
  onSetTarget h (u32 uid) d = (None, d') ->
  sessionToken cl <> [] -> Forall (λ b, 0 <= b < 128) (sessionToken cl) -> 59 ∉ sessionToken cl ->
  len (sessionToken cl) < 2 ^ 19 -> expected <> [] -> 59 ∉ expected ->
  Forall (λ f, from_daemon f /\ frame_type f <> MsgTypeAck /\ frame_type f <> MsgTypeError) frames ->
  (forall i, expired i = false) ->
  exists f r,
    ReadFrame (writeFrame MSG_SET_TARGET (setTargetPayload uid) []).2 = Some (inr f, []) /\
    handleCommand h f cl d = Some (r, cl, d') /\
    (sendSetTargetAndAwaitAck utf8 expired uid expected []
       (concat (frame_bytes <$> frames) ++ frame_bytes (reply_frame r) ++ rest)).1 =
      Some (bool_decide (expected = sessionToken cl)).
Proof.
  intros Hd Hne Ha Hs Hl He Hx Hf Hexp. eexists _, (Reply (ack (setTargetMessage (sessionToken cl) (u32 uid))) false).
  split; [apply set_target_on_wire|].
  assert (fits 32 (u32 uid)) as Hu by (apply wrap_fits; lia). split.
  { unfold handleCommand. cbn [frame_type frame_payload]. rewrite Z.eqb_refl, DecodeSetTarget_Encode by done.
    cbn [mbind option_bind]. by rewrite Hd. }
  unfold sendSetTargetAndAwaitAck. cbn [writeFrame write buffer_writer negb reply_frame fst].
  set (m := setTargetMessage (sessionToken cl) (u32 uid)).
  pose proof (setTargetMessage_len (sessionToken cl) (u32 uid) Hu) as Lm. fold m in Lm.
  assert (0 < len m) as Pm.
  { unfold m. rewrite setTargetMessage_session, len_app by done. change (len (str "session=")) with 8.
    match goal with |- 0 < 8 + len ?x => pose proof (len_nonneg x) end. lia. }
  set (input := concat (frame_bytes <$> frames) ++ frame_bytes (ack m) ++ rest).
  assert (length frames <= length input)%nat as Hn.
  { unfold input. rewrite length_app. pose proof (frames_shorter frames). lia. }
  replace (S (length input)) with (length frames + S (length input - length frames))%nat by lia. unfold input at 2.
  rewrite awaitAck_skip, awaitAck_ack by (done || lia). unfold m. rewrite setTargetMessage_session by done.
  by rewrite session_prefix_decoded.
Qed.
End HandshakeProofs.

(** ** Where the decoders differ *)

(** C15: The app and the daemon decode every payload a frame can carry alike:
    the same events field by field (signed in the app), the same refusals, and
    the same guard counters; for payloads that do not declare a parcel of
    2^31 - 60 to 2^31 - 1 bytes. *)
Theorem decoders_agree {text} (utf8 : bytes -> text) payload id g :
  is_bytes payload -> len payload <= MaxPayloadLen -> no_overflow payload ->
  exists r, DecodeBinderEvent payload g = Some r /\
    fromPayload utf8 payload (AppState id g) = Some (app_result utf8 id r).
Proof. apply fromPayload_agree. Qed.

(** A payload that declares a parcel of 2^31 - 60 to 2^31 - 1 bytes makes
    the app's 32-bit sum of header and size negative, which passes its guard:
    fromPayload throws where the daemon's decoder counts a truncated parcel. *)
Theorem declared_size_throws {text} (utf8 : bytes -> text) payload ds st g :
  is_bytes payload -> 60 <= len payload <= MaxPayloadLen -> index payload 0 = Some 2 ->
  be_uint 4 payload 28 = Some ds -> 2 ^ 31 - 60 <= ds < 2 ^ 31 ->
  fromPayload utf8 payload st = None /\
  DecodeBinderEvent payload g = Some (inl ErrTLVGuardFailOpen, g2_add g).
Proof.
  intros Hb [Hl Hm] Hv Hd Hr. change MaxPayloadLen with (2 ^ 20) in Hm.
  destruct (header_read payload Hl) as (ver & ext & rs & ts & pid & uid & code & flags & ds' & ir & bd & tk & r1 & tp & tu & tr & pr & Hh).
  pose proof (ha_ver _ _ _ _ _ _ _ _ _ _ _ _ _ _ _ _ _ _ Hh) as E1. pose proof (ha_ds _ _ _ _ _ _ _ _ _ _ _ _ _ _ _ _ _ _ Hh) as E2.
  pose proof (ha_ext _ _ _ _ _ _ _ _ _ _ _ _ _ _ _ _ _ _ Hh) as E3.
  rewrite Hv in E1. injection E1 as <-. rewrite Hd in E2. injection E2 as <-. split.
  - rewrite (fromPayload_header utf8 _ _ _ _ _ _ _ _ _ _ _ _ _ _ _ _ _ _ Hl Hh). unfold after_header.
    rewrite (s32_small ds) by lia. destruct (Z.ltb_spec ds 0); [lia|].
    assert (s32 (60 + ds) < 0) as Hneg.
    { unfold s32, signed. rewrite wrap_small by (unfold fits; lia). change (2 ^ (32 - 1)) with (2 ^ 31).
      destruct (Z.ltb_spec (60 + ds) (2 ^ 31)); lia. }
    destruct (Z.ltb_spec (len payload) (s32 (60 + ds))); [lia|]. cbn [orb]. destruct (Z.ltb_spec 0 ds); [|lia].
    unfold getBytes. rewrite length_drop. destruct (Nat.leb_spec (Z.to_nat ds) (length payload - Z.to_nat 60)); [|done].
    unfold len in *. lia.
  - unfold DecodeBinderEvent. change (Z.of_nat BinderEventHeaderLen) with 60.
    destruct (Z.ltb_spec (len payload) 60); [lia|]. rewrite Hv, E3, Hd. cbn [mbind option_bind].
    change (negb (2 =? BinderEventVersionV2)) with false. cbv iota.
    destruct (Z.ltb_spec (len payload) (60 + ds)); [done|lia].
Qed.

(** ** Witnesses *)

Lemma sample_event_sendable : sendable sample_event.
Proof.
  split; [apply sample_event_ok| |by vm_compute]. split; [by repeat constructor|by vm_compute|].
  cbn [StackTrace_ sample_event Quality Truncated FailureReason KFrames UFrames].
  split; [by vm_compute|]. split; [by vm_compute|]. split; [constructor|]. split; [constructor|].
  repeat (apply list.Forall_cons; split; [split; by apply (bool_decide_unpack _)|]). constructor.
Qed.

Lemma app_collects_events_witness :
  let w := default (Tcp [] None) (wires (demo demo_loss) !! 0%nat) in
  exists frames rest st,
    eventFlow (S (length (sent w))) (sent w) = (frames, rest) /\ length rest = 20%nat /\
    collectEvents (λ b, b) frames (AppState 7 (MkGuards 0 0 0 0)) = Some ([app_event (λ b, b) 7 sample_event], st).
Proof.
  intros w.
  destruct (app_collects_events (λ b, b) demo_handlers (str "a1b2") tt (demo demo_loss) 0 w 7 (MkGuards 0 0 0 0))
    as (frames & rest & E & _ & H).
  - apply demo_reachable. vm_compute. by eexists.
  - change (accepted (demo demo_loss)) with [sample_event; sample_event; sample_event].
    repeat (apply Forall_cons; [apply sample_event_sendable|]). apply Forall_nil.
  - by vm_compute.
  - exists frames, rest. eexists. split; [exact E|]. split; [|exact H].
    change rest with (frames, rest).2. rewrite <- E. by vm_compute.
Defined.

Lemma handshake_identifies_daemon_witness :
  exists f r,
    ReadFrame (writeFrame MSG_SET_TARGET (setTargetPayload 10123) []).2 = Some (inr f, []) /\
    handleCommand demo_handlers f (NewSocketClient (str "a1b2")) tt = Some (r, NewSocketClient (str "a1b2"), tt) /\
    (sendSetTargetAndAwaitAck (λ b, b) (λ _, false) 10123 (str "a1b3") []
       (frame_bytes (MkFrame MsgTypePong []) ++ frame_bytes (reply_frame r) ++ [])).1 = Some false.
Proof.
  destruct (handshake_identifies_daemon (λ b, b) (λ s r _, eq_refl) demo_handlers (NewSocketClient (str "a1b2"))
              10123 tt tt (str "a1b3") [MkFrame MsgTypePong []] [] (λ _, false)) as (f & r & H1 & H2 & H3);
    try done; try by apply (bool_decide_unpack _).
  exists f, r. split; [exact H1|]. split; [exact H2|exact H3].
Defined.

Lemma decoders_agree_witness :
  exists r, DecodeBinderEvent (Encode sample_event) (MkGuards 0 0 0 0) = Some r /\
    fromPayload (λ b, b) (Encode sample_event) (AppState 0 (MkGuards 0 0 0 0)) = Some (app_result (λ b, b) 0 r).
Proof.
  apply (decoders_agree (λ b, b) (Encode sample_event) 0 (MkGuards 0 0 0 0)).
  - apply Encode_is_bytes; apply sample_event_sendable.
  - by vm_compute.
  - unfold no_overflow. vm_compute. by left.
Defined.

Definition oversized_payload : bytes := [2; 0; 0; 0] ++ replicate 24 0 ++ be_bytes 4 (2 ^ 31 - 1) ++ replicate 28 0.

Lemma declared_size_throws_witness :
  fromPayload (λ b, b) oversized_payload (AppState 0 (MkGuards 0 0 0 0)) = None.
Proof.
  destruct (declared_size_throws (λ b, b) oversized_payload (2 ^ 31 - 1) (AppState 0 (MkGuards 0 0 0 0)) (MkGuards 0 0 0 0))
    as [H _]; [by apply (bool_decide_unpack _)|by vm_compute..|exact H].
Defined.
