(* ===== verification/CollectorTypes.v ===== *)
(** * What the collector emits can be sent

    The widths of the Go types and the bounds of the buffers, followed from
    the bytes of a record through the collector's tables to the events it
    emits: whatever bytes the ring buffer holds, every event fits the frame
    the client writes for it and the app decodes.  The symbolizer enters
    through [SymbolizerLaws]: its frames hold addresses of 64 bits and names
    of bounded length. *)

From S2P Require Import Prelude GoLang CLayout Records Lru Protocol ProtocolProofs Collector Reassembly.
From S2P Require Import Client ClientProofs AppWire AppProofs.

(** ** The symbolizer's promise *)

(** 64 frames with names of this length fill a frame of 1 MiB, with the
    largest parcel, to less than its limit. *)
Definition name_limit : Z := 16000.

Record frame_fits (f : SymbolFrame) : Prop := {
  ff_pc : fits 64 (sf_PC f);
  ff_offset : fits 64 (sf_Offset f);
  ff_module : is_bytes (sf_Module f);
  ff_symbol : is_bytes (sf_Symbol f);
  ff_names : len (sf_Module f) + len (sf_Symbol f) <= name_limit }.

Class SymbolizerLaws `{SI : SymbolizerI} := {
  sym_inv : sym_state -> Prop;
  kernel_fits s pc : sym_inv s -> fits 64 pc ->
    frame_fits (SymbolizeKernel s pc).1 /\ sym_inv (SymbolizeKernel s pc).2;
  user_fits s pid pc : sym_inv s -> fits 64 pc ->
    frame_fits (SymbolizeUser s pid pc).1 /\ sym_inv (SymbolizeUser s pid pc).2 }.

(** ** Records *)

Lemma is_bytes_slice o k bs : is_bytes bs -> is_bytes (slice o k bs).
Proof. intros H. unfold slice. by apply list.Forall_take, list.Forall_drop. Qed.

Lemma get_bytes_is_bytes t n raw : is_bytes raw -> is_bytes (get_bytes t n raw).
Proof.
  intros H. unfold get_bytes. destruct (member_range t n) as [[o k]|]; [by apply is_bytes_slice|constructor].
Qed.

Lemma get_field_fits w t n raw : is_bytes raw -> 8 * Z.of_nat (member_size t n) <= w -> fits w (get_field t n raw).
Proof.
  intros H Hw. unfold get_field. pose proof (get_bytes_is_bytes t n raw H) as Hb.
  apply (fits_mono (8 * Z.of_nat (length (get_bytes t n raw)))); [|by apply le_val_fits].
  unfold get_bytes, member_size in *. destruct (member_range t n) as [[o k]|]; cbn [length]; [|lia].
  unfold slice. rewrite length_take. lia.
Qed.

Lemma words_fit n bs : is_bytes bs -> Forall (fits 64) (words n bs) /\ length (words n bs) = n.
Proof.
  revert bs. induction n as [|n IH]; intros bs H; cbn [words length]; [by split; [constructor|]|].
  destruct (IH (drop 8 bs)) as [H1 H2]; [by apply list.Forall_drop|]. split; [|by rewrite H2].
  constructor; [|exact H1]. apply (fits_mono (8 * Z.of_nat (length (take 8 bs)))).
  - rewrite length_take. lia.
  - apply le_val_fits. by apply list.Forall_take.
Qed.

Record stack_fits (st : stack_event) : Prop := {
  sk_kstack : Forall (fits 64) (st_kstack st) /\ length (st_kstack st) = 32%nat;
  sk_ustack : Forall (fits 64) (st_ustack st) /\ length (st_ustack st) = 32%nat }.

Lemma view_stack_fits raw : is_bytes raw -> stack_fits (view_stack raw).
Proof. intros H. split; apply words_fit; by apply get_bytes_is_bytes. Qed.

Record meta_fits (m : txMeta) : Prop := {
  mf_pid : fits 32 (m_pid m); mf_uid : fits 32 (m_uid m); mf_code : fits 32 (m_code m);
  mf_flags : fits 32 (m_flags m); mf_isReply : fits 8 (m_isReply m); mf_binderDev : fits 8 (m_binderDev m);
  mf_targetKind : fits 8 (m_targetKind m); mf_toPid : fits 32 (m_toPid m); mf_toUid : fits 32 (m_toUid m);
  mf_targetRef : fits 64 (m_targetRef m); mf_pairId : fits 64 (m_pairId m) }.

Definition main_fits (e : main_event) : Prop := meta_fits (meta_of e) /\ is_bytes (ev_chunk_data e).

Lemma view_main_fits raw : is_bytes raw -> main_fits (view_main raw).
Proof.
  intros H. split; [|by apply get_bytes_is_bytes].
  split; apply get_field_fits; first [exact H | vm_compute; congruence].
Qed.

Record sideband_fits (sb : sideband_event) : Prop := {
  sf_debug : fits 64 (sb_kernel_debug_id sb); sf_topid : fits 32 (sb_to_pid sb); sf_touid : fits 32 (sb_to_uid sb) }.

Lemma view_sideband_fits raw : is_bytes raw -> sideband_fits (view_sideband raw).
Proof. intros H. split; apply get_field_fits; first [exact H | vm_compute; congruence]. Qed.

Definition input_fits (i : input) : Prop :=
  match i with
  | IStack st => stack_fits st
  | IMain e => main_fits e
  | ISideband sb => sideband_fits sb
  | ICookie _ | ISweep _ => True
  end.

(** ** Stack traces *)

(** A frame of a trace, as it comes out of the symbolizer *)
Record trace_frame_fits (f : StackFrame) : Prop := {
  tf_ok : frame_ok f; tf_bytes : frame_bytes_ok f; tf_len : len (encodeFrame f) <= 20 + name_limit }.

Lemma frames_len fs :
  Forall trace_frame_fits fs -> len (concat (encodeFrame <$> fs)) <= Z.of_nat (length fs) * (20 + name_limit).
Proof.
  induction 1 as [|f fs [_ _ Hf] _ IH]; [done|]. rewrite fmap_cons. cbn [concat length]. rewrite len_app. lia.
Qed.

Section Traces.
Context `{SL : SymbolizerLaws}.

Definition sym_opt (y : option sym_state) : Prop := match y with Some s => sym_inv s | None => True end.

Lemma frame_of_symbol f :
  frame_fits f -> trace_frame_fits (MkStackFrame (sf_PC f) (sf_Module f) (sf_Symbol f) (sf_Offset f)).
Proof.
  intros [Hp Ho Hm Hs Hn]. pose proof (len_nonneg (sf_Module f)). pose proof (len_nonneg (sf_Symbol f)).
  unfold name_limit in *. split; [split; cbn; (done || lia)|done|]. rewrite encodeFrame_len. cbn. unfold name_limit. lia.
Qed.

Lemma symbolize_pcs_fits sym y pcs :
  (forall s pc, sym_inv s -> fits 64 pc -> frame_fits (sym s pc).1 /\ sym_inv (sym s pc).2) ->
  sym_opt y -> Forall (fits 64) pcs ->
  let '(out, y') := symbolize_pcs sym y pcs in
  Forall trace_frame_fits out /\ (length out <= length pcs)%nat /\ sym_opt y'.
Proof.
  intros Hsym. revert y. induction pcs as [|pc pcs IH]; intros y Hy Hp; cbn [symbolize_pcs]; [by split; [constructor|]|].
  apply list.Forall_cons in Hp as [Hpc Hp].
  destruct (pc =? 0).
  { specialize (IH y Hy Hp). destruct (symbolize_pcs sym y pcs) as [out y']. cbn [length]. intuition lia. }
  assert (exists f y1, match y with Some s => let '(f, s) := sym s pc in (f, Some s)
                       | None => (MkSymbolFrame pc [] [] 0 StackQualityFailed, None) end = (f, y1) /\
                       frame_fits f /\ sym_opt y1) as (f & y1 & -> & Hf & Hy1).
  { destruct y as [s|].
    - destruct (Hsym s pc Hy Hpc) as [H1 H2]. destruct (sym s pc) as [f s']. by exists f, (Some s').
    - eexists _, None. split; [done|]. split; [|done]. split; cbn; try done; constructor. }
  specialize (IH y1 Hy1 Hp). destruct (symbolize_pcs sym y1 pcs) as [out y']. destruct IH as (H1 & H2 & H3).
  split; [|split; [cbn [length]; lia|done]]. constructor; [by apply frame_of_symbol|done].
Qed.

Record trace_fits (tr : StackTrace) : Prop := {
  tt_ok : trace_ok tr;
  tt_bytes : fits 8 (Quality tr) /\ fits 8 (Truncated tr) /\ is_bytes (FailureReason tr) /\
             Forall frame_bytes_ok (KFrames tr) /\ Forall frame_bytes_ok (UFrames tr);
  tt_len : len (EncodeStackTraceTLV tr) <= 60 + 64 * (20 + name_limit) }.

Lemma trace_of_frames q tr kf uf reason :
  fits 8 q -> fits 8 tr -> is_bytes reason -> len reason <= 50 ->
  Forall trace_frame_fits kf -> Forall trace_frame_fits uf -> (length kf <= 32)%nat -> (length uf <= 32)%nat ->
  trace_fits (MkStackTrace q tr kf uf reason).
Proof.
  intros Hq Ht Hr Hrl Hk Hu Lk Lu. pose proof (frames_len kf Hk). pose proof (frames_len uf Hu).
  assert (forall fs, Forall trace_frame_fits fs -> Forall frame_ok fs) as F1
    by (intros fs Hfs; eapply list.Forall_impl; [exact Hfs|by intros ? []]).
  assert (forall fs, Forall trace_frame_fits fs -> Forall frame_bytes_ok fs) as F2
    by (intros fs Hfs; eapply list.Forall_impl; [exact Hfs|by intros ? []]).
  split.
  - split; cbn; (lia || auto).
  - split_and!; cbn; auto.
  - unfold EncodeStackTraceTLV. rewrite !len_app, len_be_bytes. cbn [KFrames UFrames FailureReason].
    match goal with |- len ?h + _ <= _ => change (len h) with 8 end. unfold name_limit in *. lia.
Qed.

Lemma aggregateQuality_fits kf uf y : fits 8 (aggregateQuality kf uf y).
Proof.
  unfold aggregateQuality. destruct y; [|by vm_compute]. destruct (kf ++ uf); [by vm_compute|].
  repeat case_match; by vm_compute.
Qed.

(** A stack record gives a trace of at most 64 frames. *)
Lemma symbolizeStackEvent_fits st y :
  stack_fits st -> sym_opt y ->
  let '(tr, y') := symbolizeStackEvent st y in trace_fits tr /\ sym_opt y'.
Proof.
  intros [[Hk Lk] [Hu Lu]] Hy. unfold symbolizeStackEvent.
  destruct ((st_kstack_depth st <? 0) && (st_ustack_depth st <? 0)).
  { split; [|done]. apply trace_of_frames;
      [by vm_compute|by vm_compute| |by vm_compute|constructor|constructor|cbn; lia|cbn; lia].
    apply (bool_decide_unpack (Forall (fits 8) bothFailedReason)). by vm_compute. }
  pose proof (symbolize_pcs_fits SymbolizeKernel y (take (Z.to_nat (st_kstack_depth st)) (st_kstack st))
    kernel_fits Hy (list.Forall_take _ _ _ Hk)) as H1.
  destruct (symbolize_pcs SymbolizeKernel y _) as [kf y1]. rewrite length_take in H1.
  assert (exists kf' tr y2, (if 0 <=? st_kstack_depth st
            then (kf, if 32 <=? st_kstack_depth st then Z.lor 0 0x01 else 0, y1) else ([], 0, y)) = (kf', tr, y2) /\
            Forall trace_frame_fits kf' /\ (length kf' <= 32)%nat /\ (tr = 0 \/ tr = 1) /\ sym_opt y2)
    as (kf' & tr & y2 & -> & Hkf & Lkf & Htr & Hy2).
  { destruct (0 <=? st_kstack_depth st).
    - eexists _, _, _. split; [done|]. destruct H1 as (? & ? & ?). split_and!; [done|lia| |done].
      destruct (32 <=? st_kstack_depth st); auto.
    - eexists _, _, _. split; [done|]. split_and!; [constructor|cbn; lia|auto|done]. }
  pose proof (symbolize_pcs_fits (λ s pc, SymbolizeUser s (st_pid st) pc) y2
    (take (Z.to_nat (st_ustack_depth st)) (st_ustack st)) (λ s, user_fits s (st_pid st)) Hy2
    (list.Forall_take _ _ _ Hu)) as H2.
  destruct (symbolize_pcs _ y2 _) as [uf y3]. rewrite length_take in H2. destruct H2 as (Huf & Luf & Hy3).
  assert (fits 8 tr /\ fits 8 (Z.lor tr 2)) as [T1 T2] by (destruct Htr as [->| ->]; by vm_compute).
  destruct (0 <=? st_ustack_depth st); (split; [|done]); apply trace_of_frames; auto using aggregateQuality_fits.
  all: try (constructor; fail); try (cbn; lia); try lia.
  all: try by destruct (32 <=? st_ustack_depth st).
Qed.
End Traces.

(** ** Tables *)

Section Tables.
Context {V : Type} (P : V -> Prop).
Implicit Types t : lru_table V.

Definition lru_all t : Prop := forall k v e, entries t !! k = Some (v, e) -> P v.

Lemma lru_all_lookup k v t : lru_all t -> lru_lookup k t = Some v -> P v.
Proof.
  intros H E. unfold lru_lookup in E. destruct (entries t !! k) as [[v' e]|] eqn:F; [|done].
  injection E as <-. by eapply H.
Qed.

Lemma lru_all_push k v t : lru_all t -> P v -> lru_all (lru_push k v t).
Proof.
  intros H Hv k' v' e' E. cbn in E. apply lookup_insert_Some in E as [[_ [= <- _]]|[_ E]]; [done|by eapply H].
Qed.

Lemma lru_all_sub t es o f :
  lru_all t -> (forall k x, es !! k = Some x -> entries t !! k = Some x) -> lru_all (LruTable es o f).
Proof. intros H Hs k v e E. cbn in E. eapply H. by apply Hs. Qed.

Lemma delete_sub k (m : gmap Z (V * Z)) k' x : delete k m !! k' = Some x -> m !! k' = Some x.
Proof. by intros [_ E]%lookup_delete_Some. Qed.

Lemma lru_all_remove k t : lru_all t -> lru_all (lru_remove k t).
Proof.
  intros H. unfold lru_remove. destruct (entries t !! k) as [[v e]|]; [|done].
  eapply lru_all_sub; [exact H|]. intros *. apply delete_sub.
Qed.

Lemma evict_rounds_all fuel cap t :
  lru_all t -> let '(vs, t') := evict_rounds fuel cap t in Forall P vs /\ lru_all t'.
Proof.
  revert t. induction fuel as [|fuel IH]; intros t H; cbn [evict_rounds]; [by split; [constructor|]|].
  destruct (length (order t) <=? cap)%nat; [by split; [constructor|]|].
  destruct (list.last (order t)) as [[e k]|]; [|by split; [constructor|]].
  specialize (IH (LruTable (delete k (entries t)) (list_remove e (order t)) (fresh t))).
  destruct (evict_rounds fuel cap _) as [vs t2]. destruct IH as [H1 H2].
  { eapply lru_all_sub; [exact H|]. intros *. apply delete_sub. }
  split; [|done]. destruct (entries t !! k) as [[v e']|] eqn:E; [|done]. constructor; [by eapply H|done].
Qed.

Lemma evict_all cap t : lru_all t -> Forall P (evict_if_full cap t).1 /\ lru_all (evict_if_full cap t).2.
Proof.
  intros H. pose proof (evict_rounds_all (length (order t)) cap t H) as E. unfold evict_if_full.
  by destruct (evict_rounds _ _ _).
Qed.

Lemma expire_all old t : lru_all t -> Forall P (lru_expire old t).1 /\ lru_all (lru_expire old t).2.
Proof.
  intros H. unfold lru_expire. cbn [fst snd]. split.
  - apply list.Forall_fmap, list.Forall_forall. intros [k [v e]] [_ Hin]%list_elem_of_filter. cbn.
    apply elem_of_map_to_list in Hin. by eapply H.
  - eapply lru_all_sub; [exact H|]. by intros k x [E _]%map_lookup_filter_Some.
Qed.
End Tables.

(** ** Events and the state machine *)

(** An event whose parcel is no larger than the collector accepts *)
Record event_fits (e : BinderEventPayload) : Prop := {
  ef_ok : event_ok e; ef_bytes : event_bytes e;
  ef_parcel : len (ParcelData e) <= ChunkSize * MaxChunks;
  ef_trace : match StackTrace_ e with Some tr => trace_fits tr | None => True end }.

Lemma event_fits_sendable e : event_fits e -> sendable e.
Proof.
  intros [Hok Hb Hp Ht]. split; [done..|]. rewrite Encode_len. change (ChunkSize * MaxChunks) with 16384 in Hp.
  change MaxPayloadLen with 1048576. destruct (StackTrace_ e) as [tr|]; [|lia].
  pose proof (tt_len tr Ht). unfold name_limit in *. lia.
Qed.

Lemma main_payload_fits now m data :
  - 2 ^ 63 <= now < 2 ^ 63 -> meta_fits m -> is_bytes data -> len data <= ChunkSize * MaxChunks ->
  event_fits (main_payload now m data).
Proof.
  intros Hn Hm Hb Hl. change (ChunkSize * MaxChunks) with 16384 in Hl. pose proof (len_nonneg data). destruct Hm.
  split; [|by split|done|done]. split; cbn [Timestamp Pid Uid Code Flags ToPid ToUid TargetRef PairId DataSize ParcelData StackTrace_];
    try done; [|lia]. unfold u32. rewrite wrap_small; [done|split; lia].
Qed.

Lemma with_stack_fits e tr : event_fits e -> trace_fits tr -> event_fits (with_stack e (Some tr)).
Proof.
  intros [[? ? ? ? ? ? ? ? ? ? ? _] [Hp Hf _] Hl _] Ht.
  split; [split|split|..]; cbn [with_stack StackTrace_]; try done; [|by apply tt_bytes].
  split; [by apply tt_ok|]. pose proof (tt_len tr Ht). unfold name_limit in *. lia.
Qed.

Lemma applySideband_fits e debugID toPid toUid u :
  event_fits e -> fits 64 debugID -> fits 32 toPid -> fits 32 toUid ->
  event_fits (applySideband e debugID toPid toUid u).
Proof.
  intros [[] [] Hl Ht] Hd Hp Hu. split; [split|split|..];
    cbn [applySideband ToPid ToUid PairId ParcelData StackTrace_ DataSize]; try done;
    match goal with |- fits _ (if ?b then _ else _) => by destruct b end.
Qed.

Definition pm_fits (p : pendingMainEntry) : Prop := event_fits (pm_event p).
Definition po_fits (p : pendingOnewayEntry) : Prop :=
  fits 64 (po_kernelDebugId p) /\ fits 32 (po_toPid p) /\ fits 32 (po_toUid p).

Record sm_fits (s : sm_state) : Prop := {
  sm_main : lru_all pm_fits (pendingMain s);
  sm_txid : lru_all pm_fits (pendingMainByTxid s);
  sm_oneway : lru_all po_fits (pendingOneway s) }.

(** A transition that emits what fits and stays well typed *)
Definition emits_fitting (r : list BinderEventPayload * sm_state) : Prop := Forall event_fits r.1 /\ sm_fits r.2.

Lemma fits_events l : Forall pm_fits l -> Forall event_fits (pm_event <$> l).
Proof. intros H. by apply list.Forall_fmap. Qed.

Lemma push_main_fits cookie pe s : sm_fits s -> pm_fits pe -> emits_fitting (push_pendingMain cookie pe s).
Proof.
  intros [H1 H2 H3] Hp. destruct (evict_all pm_fits pendingMainCapacity (lru_push cookie pe (pendingMain s)))
    as [E1 E2]; [by apply lru_all_push|]. unfold push_pendingMain. destruct (evict_if_full _ _) as [ev t].
  split; [by apply fits_events|by split].
Qed.

Lemma push_txid_fits txid pe s : sm_fits s -> pm_fits pe -> emits_fitting (push_pendingMainByTxid txid pe s).
Proof.
  intros [H1 H2 H3] Hp. destruct (evict_all pm_fits pendingMainCapacity (lru_push txid pe (pendingMainByTxid s)))
    as [E1 E2]; [by apply lru_all_push|]. unfold push_pendingMainByTxid. destruct (evict_if_full _ _) as [ev t].
  split; [by apply fits_events|by split].
Qed.

Lemma remove_fits s k :
  sm_fits s -> sm_fits (set_pendingMain (lru_remove k (pendingMain s)) s) /\
  sm_fits (set_pendingMainByTxid (lru_remove k (pendingMainByTxid s)) s) /\
  sm_fits (set_pendingOneway (lru_remove k (pendingOneway s)) s).
Proof. intros []. split_and!; split; cbn; auto using lru_all_remove. Qed.

Lemma check_fits cookie s : sm_fits s -> sm_fits (checkCookieDuplicate cookie s).
Proof. intros []. unfold checkCookieDuplicate. case_bool_decide; by split. Qed.

Lemma record_fits cookie now s : sm_fits s -> sm_fits (recordRecentOnewayEmit cookie now s).
Proof. intros []. unfold recordRecentOnewayEmit. case_match; by split. Qed.

(** Events put out before a transition's own *)
Lemma emits_after l r : Forall event_fits l -> emits_fitting r -> emits_fitting (l ++ r.1, r.2).
Proof. intros Hl []. split; [by apply list.Forall_app|done]. Qed.

Lemma routeMainEvent_fits ev cookie txid now s :
  sm_fits s -> event_fits ev -> emits_fitting (routeMainEvent ev cookie txid now s).
Proof.
  intros Hs He. assert (forall s', sm_fits s' -> emits_fitting ([ev], s')) as Hout by (intros; split; [by apply list.Forall_singleton|done]).
  unfold routeMainEvent. case_match; [by apply Hout|]. case_match.
  - case_match; [by apply Hout|]. destruct (lru_lookup txid (pendingMainByTxid s)) as [old|] eqn:El.
    + pose proof (lru_all_lookup _ _ _ _ (sm_txid s Hs) El) as Ho.
      destruct (remove_fits s txid Hs) as (_ & Hr & _).
      set (s1 := add_entryEarlyReturn 1 _). assert (sm_fits s1) as K1 by (destruct Hr; by split).
      pose proof (push_txid_fits txid (PendingMain now ev 0) s1 K1 He) as K2.
      apply (emits_after [pm_event old]) in K2; [|by apply list.Forall_singleton].
      by destruct (push_pendingMainByTxid _ _ _).
    + pose proof (push_txid_fits txid (PendingMain now ev 0) s Hs He) as K2.
      by destruct (push_pendingMainByTxid _ _ _).
  - pose proof (check_fits cookie s Hs) as K1. set (s1 := checkCookieDuplicate cookie s) in *.
    case_match; [|by apply push_main_fits].
    destruct (lru_lookup cookie (pendingOneway s1)) as [pe|] eqn:El; (split; [|apply record_fits]); try done.
    + pose proof (lru_all_lookup _ _ _ _ (sm_oneway s1 K1) El) as (P1 & P2 & P3).
      constructor; [by apply applySideband_fits|constructor].
    + by apply remove_fits.
    + by apply list.Forall_singleton.
Qed.

Lemma route_sideband_fits sb now s : sm_fits s -> sideband_fits sb -> emits_fitting (route_sideband sb now s).
Proof.
  intros Hs [S1 S2 S3]. unfold route_sideband. destruct (remove_fits s (sb_cookie sb) Hs) as (R1 & _ & R3).
  destruct (lru_lookup (sb_cookie sb) (pendingMain s)) as [pm|] eqn:E1.
  { pose proof (lru_all_lookup _ _ _ _ (sm_main s Hs) E1) as Hp. split; [|done].
    constructor; [by apply applySideband_fits|constructor]. }
  destruct (lru_lookup (sb_cookie sb) (pendingOneway s)); [split; [constructor|destruct R3; by split]|].
  destruct (lru_lookup (sb_cookie sb) (recentOneway s)); [split; [constructor|destruct Hs; by split]|].
  set (pe := PendingOneway _ _ _ _ _).
  destruct (evict_all po_fits pendingOnewayCapacity (lru_push (sb_cookie sb) pe (pendingOneway s))) as [_ E2].
  { apply lru_all_push; [apply Hs|by split_and!]. }
  destruct (evict_if_full _ _) as [evd t]. split; [constructor|]. destruct Hs. by split.
Qed.

Lemma reactivate_fits txid cookie pe s : sm_fits s -> pm_fits pe -> emits_fitting (reactivate txid cookie pe s).
Proof.
  intros Hs Hp. unfold reactivate. destruct (remove_fits s txid Hs) as (_ & H1 & _).
  set (s1 := set_pendingMainByTxid _ s) in *. destruct (remove_fits s1 cookie H1) as (H2 & _ & _).
  destruct (lru_lookup cookie (pendingMain s1)) as [old|] eqn:El.
  - pose proof (lru_all_lookup _ _ _ _ (sm_main s1 H1) El) as Ho.
    set (s2 := add_entryEarlyReturn 1 _). assert (sm_fits s2) as H3 by (destruct H2; by split).
    pose proof (push_main_fits cookie (PendingMain (pm_enqueuedNs pe) (pm_event pe) cookie) s2 H3 Hp) as H4.
    apply (emits_after [pm_event old]) in H4; [|by apply list.Forall_singleton]. by destruct (push_pendingMain _ _ _).
  - pose proof (push_main_fits cookie (PendingMain (pm_enqueuedNs pe) (pm_event pe) cookie) s1 H1 Hp) as H4.
    by destruct (push_pendingMain _ _ _).
Qed.

Lemma runSweep_fits now s : sm_fits s -> emits_fitting (runSweep now s).
Proof.
  intros [H1 H2 H3]. unfold runSweep.
  destruct (expire_all _ (λ pm, pm_enqueuedNs pm <? now - pendingMainTTL) _ H1) as [A1 A2].
  destruct (expire_all _ (λ pm, pm_enqueuedNs pm <? now - pendingMainTTL) _ H2) as [B1 B2].
  destruct (expire_all _ (λ pe, po_enqueuedNs pe <? now - pendingOnewayTTL) _ H3) as [_ C2].
  repeat match goal with |- context [lru_expire ?f ?t] => destruct (lru_expire f t) end.
  split; [|by split]. apply fits_events. by apply list.Forall_app.
Qed.

(** ** The collector *)

Section Collector.
Context `{SL : SymbolizerLaws}.

Definition buffer_fits (b : txBuffer) : Prop :=
  Forall (λ ch, is_bytes (default [] ch)) (chunks b) /\ meta_fits (meta b).

Record col_fits (c : collector) : Prop := {
  cf_buffers : map_Forall (λ _, buffer_fits) (transactionBuffers c);
  cf_stacks : map_Forall (λ _ p, stack_fits (ps_stack p)) (pendingStack c);
  cf_sm : sm_fits (sm c);
  cf_sym : sym_opt (symbolizer c);
  cf_emitted : Forall event_fits (emitted c) }.

(** A clock reading is an int64. *)
Definition clock_ok (now : nat -> Z) : Prop := forall i, - 2 ^ 63 <= now i < 2 ^ 63.

Lemma with_sm_fits r c : col_fits c -> emits_fitting r -> col_fits (with_sm r c).
Proof. intros [] []. split; cbn; try done. by apply list.Forall_app. Qed.

Lemma set_buffers_fits b c :
  col_fits c -> map_Forall (λ _, buffer_fits) b -> col_fits (set_buffers b c).
Proof. intros [] ?. by split. Qed.

Lemma evict_stack_fits now c : col_fits c -> col_fits (evictStalePendingStack now c).
Proof.
  intros []. split; cbn; try done. intros k p [E _]%map_lookup_filter_Some. by eapply cf_stacks0.
Qed.

Lemma cleanup_fits now c : col_fits c -> col_fits (maybeCleanup now c).
Proof.
  intros Hc. unfold maybeCleanup. set (c1 := set_eventCounter _ c). assert (col_fits c1) as H1 by (destruct Hc; by split).
  case_match; [done|]. cbv zeta.
  assert (forall d, col_fits d -> col_fits (evictStalePendingCookies (now 2%nat) d)) as He by (intros d []; by split).
  apply He, evict_stack_fits, set_buffers_fits; [done|].
  intros k b [E _]%map_lookup_filter_Some. by eapply (cf_buffers c1 H1).
Qed.

Lemma attach_stack_fits txid ev c :
  col_fits c -> event_fits ev ->
  event_fits (attach_stack txid ev c).1 /\ col_fits (attach_stack txid ev c).2.
Proof.
  intros Hc He. unfold attach_stack, takePendingStack. destruct (pendingStack c !! txid) as [p|] eqn:E.
  - pose proof (symbolizeStackEvent_fits (ps_stack p) (symbolizer c) (cf_stacks c Hc _ _ E) (cf_sym c Hc)) as Ht.
    cbn [symbolizer set_pendingStack]. destruct (symbolizeStackEvent _ _) as [tr y]. destruct Ht as [Ht Hy].
    split; [by apply with_stack_fits|]. destruct Hc. split; cbn; try done. by apply map_Forall_delete.
  - split; [done|]. destruct Hc. by split.
Qed.

Lemma concat_is_bytes cs : Forall (λ ch, is_bytes (default [] ch)) cs -> is_bytes (mergeChunks cs).
Proof.
  unfold is_bytes. induction 1; [constructor|]. cbn. by apply list.Forall_app.
Qed.

Lemma finish_fits now txid buf c c' :
  clock_ok now -> col_fits c -> buffer_fits buf -> finish_transaction now txid buf c = Some c' -> col_fits c'.
Proof.
  intros Hn Hc [Hb Hm] E. unfold finish_transaction in E. set (c1 := set_buffers _ c) in E.
  assert (col_fits c1) as H1 by (apply set_buffers_fits; [done|]; apply map_Forall_delete, Hc).
  pose proof (concat_is_bytes _ Hb) as Hd. set (data := mergeChunks (chunks buf)) in *.
  destruct (Z.leb_spec (len data) 16); [injection E as <-; by apply cleanup_fits|].
  destruct (Z.ltb_spec (ChunkSize * MaxChunks) (len data)); [injection E as <-; by apply cleanup_fits|]. cbn [orb] in E.
  case_match; [injection E as <-; by apply cleanup_fits|].
  unfold subslice in E. case_match eqn:Hs; [|done]. cbn [mbind option_bind] in E.
  match type of E with context [main_payload _ _ ?p] => set (parcel := p) in E end.
  assert (event_fits (main_payload (now 0%nat) (meta buf) parcel)) as Hp.
  { apply main_payload_fits; [done|done|by apply is_bytes_slice|].
    unfold parcel, len, slice in *. rewrite length_take, length_drop. lia. }
  destruct (attach_stack_fits txid _ c1 H1 Hp) as [He Hc2]. destruct (attach_stack _ _ _) as [ev c2].
  injection E as <-. apply cleanup_fits, with_sm_fits; [done|]. apply routeMainEvent_fits; [apply Hc2|done].
Qed.

Lemma open_buffer_fits now e c buf c1 :
  col_fits c -> main_fits e -> open_buffer now e c = Some (buf, c1) -> buffer_fits buf /\ col_fits c1.
Proof.
  intros Hc [Hm _] E. unfold open_buffer in E.
  destruct (transactionBuffers c !! ev_transaction_id e) as [b|] eqn:Eb.
  { injection E as <- <-. split; [by apply (cf_buffers c Hc _ _ Eb)|done]. }
  destruct (make_chunks _) as [cs|] eqn:Em; [|done]. cbn [mbind option_bind] in E.
  unfold make_chunks in Em. destruct (_ <=? _) in Em; [|done]. injection Em as <-.
  assert (forall t m n, meta_fits m -> buffer_fits (TxBuffer t (replicate n None) m)) as Hn.
  { intros t m n Hmf. split; [|done]. cbn. apply list.Forall_replicate. constructor. }
  assert (meta_fits (meta_of e)) as Hme by done.
  repeat case_match; simplify_eq; (split; [apply Hn|]); try done; [by destruct Hme|]. destruct Hc. by split.
Qed.

Lemma handleEvent_fits now e c c' :
  clock_ok now -> col_fits c -> main_fits e -> handleEvent now e c = Some c' -> col_fits c'.
Proof.
  intros Hn Hc He E. unfold handleEvent in E. destruct (open_buffer (now 0%nat) e c) as [[buf c1]|] eqn:Eo; [|done].
  destruct (open_buffer_fits _ _ _ _ _ Hc He Eo) as [[Hb Hm] H1]. cbn [mbind option_bind] in E.
  destruct (store_chunk e (chunks buf)) as [cs|] eqn:Es; [|done]. cbn [mbind option_bind] in E.
  assert (Forall (λ ch, is_bytes (default [] ch)) cs) as Hcs.
  { unfold store_chunk in Es. destruct (_ <? _) in Es; [|by simplify_eq].
    destruct (_ <? _) in Es; [|done]. injection Es as <-. apply list.Forall_insert; [done|]. apply He. }
  assert (buffer_fits (TxBuffer (firstSeenNs buf) cs (meta buf))) as Hbuf by by split.
  set (c2 := set_buffers _ c1) in E.
  assert (col_fits c2) as H2 by (apply set_buffers_fits; [done|]; apply map_Forall_insert_2; [done|apply H1]).
  destruct (is_complete cs); [by eapply finish_fits|]. injection E as <-. by apply cleanup_fits.
Qed.

Lemma handle_stack_fits now st c : col_fits c -> stack_fits st -> col_fits (handleStackRecord now st c).
Proof.
  intros Hc Hs. apply evict_stack_fits. destruct Hc. split; cbn; try done. by apply map_Forall_insert_2.
Qed.

Lemma handle_cookie_fits now cs c : col_fits c -> col_fits (handleCookieSideband now cs c).
Proof.
  intros Hc. unfold handleCookieSideband. case_match; [done|].
  set (inject := match transactionBuffers c !! _ with Some _ => _ | None => _ end).
  assert (forall b, inject = Some b -> buffer_fits b) as Hi.
  { intros b E. subst inject. destruct (transactionBuffers c !! _) as [buf|] eqn:Eb; [|done].
    destruct (_ =? _) in E; [|done]. injection E as <-. exact (cf_buffers c Hc _ _ Eb). }
  destruct inject as [buf|].
  - destruct (Hi buf eq_refl) as [Hb Hm]. apply set_buffers_fits; [done|].
    apply map_Forall_insert_2; [|apply Hc]. split; [done|]. by destruct Hm.
  - destruct (lru_lookup _ (pendingMainByTxid (sm c))) as [pe|] eqn:El.
    + apply with_sm_fits; [done|]. apply reactivate_fits; [apply Hc|].
      exact (lru_all_lookup _ _ _ _ (sm_txid _ (cf_sm c Hc)) El).
    + destruct Hc. unfold store_cookie. by split.
Qed.

Lemma sweep_fits now reader c : col_fits c -> col_fits (sweep_tick now reader c).
Proof.
  intros Hc. unfold sweep_tick. pose proof (runSweep_fits (now 0%nat) (sm c) (cf_sm c Hc)) as Hr.
  pose proof (with_sm_fits _ c Hc Hr) as H1. set (c1 := with_sm (runSweep _ _) c) in *.
  assert (col_fits (with_sm ([], syncRingbufOverflowFrom reader (sm c1)) c1)) as H2.
  { apply with_sm_fits; [done|]. split; [constructor|]. destruct (cf_sm c1 H1). by split. }
  apply (evict_stack_fits (now 1%nat)) in H2. destruct H2. by split.
Qed.

(** Every step keeps the collector's types. *)
Lemma handle_fits now i c c' :
  clock_ok now -> col_fits c -> input_fits i -> handle now i c = Some c' -> col_fits c'.
Proof.
  intros Hn Hc Hi E. destruct i; cbn [handle] in E.
  - injection E as <-. by apply handle_stack_fits.
  - by eapply handleEvent_fits.
  - injection E as <-. apply with_sm_fits; [done|]. apply route_sideband_fits; [apply Hc|done].
  - injection E as <-. by apply handle_cookie_fits.
  - injection E as <-. by apply sweep_fits.
Qed.

Lemma NewEventCollector_fits y : sym_opt y -> col_fits (NewEventCollector y).
Proof. intros Hy. by split. Qed.

(** A record of any bytes *)
Lemma handleRecord_fits {BG : Bpf2Go} {BL : Bpf2GoLaws} now raw c c' :
  clock_ok now -> is_bytes raw -> col_fits c -> handleRecord now raw c = Some c' -> col_fits c'.
Proof.
  intros Hn Hb Hc E. unfold handleRecord in E.
  rewrite read_stack_layout, read_main_layout, read_sideband_layout, read_cookie_layout in E.
  case_match; [by simplify_eq|]. case_match.
  - repeat case_match; simplify_eq; try done. by apply handle_stack_fits, view_stack_fits.
  - destruct (index raw 0) as [kind|]; [|done]. cbn [mbind option_bind] in E.
    repeat case_match; simplify_eq; try done.
    + by eapply handleEvent_fits; [..|exact E]; [| |apply view_main_fits].
    + by apply (handle_fits now (ISideband (view_sideband raw)) c); [..|apply view_sideband_fits|].
    + by apply handle_cookie_fits.
Qed.
End Collector.
