(* ===== verification/SymbolNames.v ===== *)
(** * The symbolizer as the collector needs it

    The collector relies on the symbolizer through [SymbolizerLaws]: frames
    of bounded size.  The symbolizer of symbolizer.go keeps this promise when
    the operating system's files do: lines of /proc files and names in ELF
    symbol tables of at most 8000 bytes. *)

From S2P Require Import Prelude GoLang GoStd Protocol Collector Symbolizer SymbolCache SymbolLookup Symbolize.
From S2P Require Import CollectorTypes.

Definition short (s : bytes) : Prop := is_bytes s /\ len s <= name_limit / 2.

Class OSLaws `{OI : OS} : Prop := {
  os_lines path o data lines :
    (os_ReadFile path o).1 = Some data -> scan_lines scan_max data = Some lines -> Forall short lines;
  os_names path o f :
    (os_OpenElf path o).1 = Some f ->
    Forall (λ s, short (sym_Name s)) (default [] (f_Symbols f) ++ default [] (f_DynamicSymbols f)) }.

(** ** Fields of a line *)

Lemma fields_from_all (P : Z -> Prop) skip cur s :
  Forall P cur -> Forall P s -> Forall (Forall P) (fields_from skip cur s).
Proof.
  revert skip cur. induction s as [|b s IH]; intros skip cur Hc Hs; cbn [fields_from].
  - destruct cur; [constructor|]. by apply list.Forall_singleton.
  - pose proof Hs as [Hb Hs']%list.Forall_cons. destruct skip; [|by apply IH].
    destruct (space_width (b :: s)).
    + apply IH; [|done]. apply list.Forall_app. by split; [|apply list.Forall_singleton].
    + destruct cur; [by apply IH|]. constructor; [done|]. by apply IH.
Qed.

(** The length of the fields, with one blank after each *)
Fixpoint spaced (fs : list bytes) : nat :=
  match fs with [] => O | f :: fs => (S (length f) + spaced fs)%nat end.

(** Fields and the blanks between them are no longer than the line. *)
Lemma fields_from_len skip cur s : (spaced (fields_from skip cur s) <= length cur + length s + 1)%nat.
Proof.
  revert skip cur. induction s as [|b s IH]; intros skip cur; cbn [fields_from length].
  - destruct cur; cbn; lia.
  - destruct skip; [|etrans; [apply IH|lia]]. destruct (space_width (b :: s)) as [|k].
    + etrans; [apply IH|]. rewrite length_app. cbn. lia.
    + pose proof (IH k []) as H. cbn [length] in H. destruct cur; cbn [spaced length]; lia.
Qed.

Lemma spaced_drop n fs : (spaced (drop n fs) <= spaced fs)%nat.
Proof. revert n. induction fs as [|f fs IH]; intros [|n]; cbn [drop spaced]; [lia..|]. specialize (IH n). lia. Qed.

Lemma Join_len fs : (length (Join [32%Z] fs) <= spaced fs - 1)%nat.
Proof.
  induction fs as [|f fs IH]; [done|]. destruct fs as [|g fs]; [cbn; lia|].
  change (Join [32] (f :: g :: fs)) with (f ++ [32] ++ Join [32] (g :: fs)). rewrite !length_app.
  cbn [spaced length] in *. lia.
Qed.

Lemma Join_all (P : Z -> Prop) fs : P 32 -> Forall (Forall P) fs -> Forall P (Join [32] fs).
Proof.
  intros Hp. induction 1 as [|f fs Hf Hfs IH]; [constructor|]. destruct fs as [|g fs]; [done|].
  change (Join [32] (f :: g :: fs)) with (f ++ [32] ++ Join [32] (g :: fs)).
  apply list.Forall_app. split; [done|]. by constructor.
Qed.

Lemma fields_short line n :
  short line -> short (Join [32] (drop n (Fields line))).
Proof.
  intros [Hb Hl]. pose proof (fields_from_len 0 [] line) as L. fold (Fields line) in L. cbn [length] in L. split.
  - apply Join_all; [done|]. apply list.Forall_drop. by apply fields_from_all; [constructor|].
  - pose proof (Join_len (drop n (Fields line))). pose proof (spaced_drop n (Fields line)). unfold len in *. lia.
Qed.

Lemma field_short line n f : short line -> Fields line !! n = Some f -> short f.
Proof.
  intros [Hb Hl] Hf. pose proof (fields_from_len 0 [] line) as L. fold (Fields line) in L. cbn [length] in L. split.
  - pose proof (fields_from_all (fits 8) 0 [] line (list.Forall_nil_2 _) Hb) as H.
    exact (list.Forall_lookup_1 _ _ _ _ H Hf).
  - pose proof (spaced_drop n (Fields line)) as Hd. rewrite (drop_S _ _ _ Hf) in Hd. cbn [spaced] in Hd.
    unfold len in *. lia.
Qed.

(** ** The invariant *)

Definition short_names : invariant :=
  Inv (λ _ pm, Forall (λ e, short (pe_path e)) (pm_entries pm))
      (λ _ es, Forall (λ s, short (es_name s)) (es_symbols es))
      (Forall (λ e, short (ks_name e)))
      (λ pc f, fits 64 pc -> frame_fits f).

Lemma short_nil : short [].
Proof. split; [constructor|done]. Qed.

Lemma parseMapsLine_short line e : short line -> parseMapsLine line = Some e -> short (pe_path e).
Proof.
  intros Hl E. unfold parseMapsLine in E. pose proof (fields_short line 5 Hl) as H.
  destruct (Fields line) as [|f0 [|f1 [|f2 [|f3 [|f4 rest]]]]]; try done. cbn [drop] in H.
  destruct (SplitN2 f0 45) as [|lo [|hi [|]]]; try done.
  destruct (ParseUint lo 16); [|done]. destruct (ParseUint hi 16); [|done]. destruct (ParseUint f2 16); [|done].
  by injection E as <-.
Qed.

Lemma parseKallsymsLine_short line e : short line -> parseKallsymsLine line = Some e -> short (ks_name e).
Proof.
  intros Hl E. unfold parseKallsymsLine in E. pose proof (field_short line 2) as H.
  destruct (Fields line) as [|f0 [|f1 [|f2 rest]]]; try done. specialize (H f2 Hl eq_refl).
  destruct (ParseUint f0 16) as [a|]; [|done]. destruct (a =? 0); [done|]. by injection E as <-.
Qed.

Lemma omap_all {A B} (P : A -> Prop) (Q : B -> Prop) (f : A -> option B) l :
  (forall a b, P a -> f a = Some b -> Q b) -> Forall P l -> Forall Q (omap f l).
Proof.
  intros H Hl. apply list.Forall_forall. intros b (a & Ha & E)%list_elem_of_omap.
  apply (H a); [|done]. by apply (list.Forall_forall P l).
Qed.

Section Names.
Context `{OI : OS} {OL : OSLaws} {G : GoSort} {GL : GoSortLaws}.

Lemma sort_all {A} (P : A -> Prop) less l : Forall P l -> Forall P (sort_slice less l).
Proof. intros H. by rewrite sort_perm. Qed.

Lemma frame_of_names pc m s off q :
  short m -> short s -> fits 64 pc -> frame_fits (MkSymbolFrame pc m s (u64 off) q).
Proof.
  intros [Hm Lm] [Hs Ls] Hpc. change (name_limit / 2) with 8000 in *.
  split; cbn; try done; [by apply wrap_fits|]. unfold name_limit. lia.
Qed.

Lemma findContaining_elem pm pc e : findContaining pm pc = Some e -> exists i, pm_entries pm !! i = Some e.
Proof.
  unfold findContaining. destruct (pm_entries pm !! _) as [x|] eqn:E; [|done]. cbn [mbind option_bind].
  destruct (_ && _); [|done]. intros [= <-]. eauto.
Qed.

Lemma lookupElf_elem es rva s : lookupElfSymbol es rva = Some s -> exists i, es_symbols es !! i = Some s.
Proof.
  unfold lookupElfSymbol. destruct (_ =? _)%nat; [done|]. destruct (es_symbols es !! _) as [x|] eqn:E; [|done].
  cbn [mbind option_bind]. destruct (_ =? _); [intros [= <-]; eauto|]. destruct (_ <? _); [intros [= <-]; eauto|done].
Qed.

Lemma short_names_admissible : admissible short_names.
Proof.
  assert (short kernelModule) as Hk.
  { split; [|by vm_compute]. apply (bool_decide_unpack (Forall (fits 8) kernelModule)). by vm_compute. }
  split; cbn [inv_maps inv_elfs inv_kallsyms inv_frame short_names].
  - intros o pid st now data es Hd E. unfold parseMaps in E.
    destruct (scan_lines scan_max data) as [lines|] eqn:El; [|done]. injection E as <-. cbn [pm_entries].
    apply sort_all, list.Forall_forall. intros e [_ He]%list_elem_of_filter. revert e He. apply list.Forall_forall.
    apply (omap_all short); [apply parseMapsLine_short|by eapply os_lines].
  - intros o path f avail Hf _. cbn [es_symbols]. apply sort_all. unfold elf_table, appendElfSymbols. cbn [app].
    apply (omap_all (λ s, short (sym_Name s))); [|by eapply os_names].
    intros a b Ha E. unfold keepElfSymbol in E. repeat case_match; by simplify_eq.
  - intros o path data lines Hd El. apply sort_all. apply (omap_all short); [apply parseKallsymsLine_short|by eapply os_lines].
  - intros pc q. apply (frame_of_names pc [] [] 0); apply short_nil.
  - intros pc q. by apply (frame_of_names pc kernelModule [] 0); [|apply short_nil].
  - intros ks i e pc off q Hks E. by apply frame_of_names; [|exact (list.Forall_lookup_1 _ _ _ _ Hks E)].
  - intros k pm e pc off q Hm [i E]%findContaining_elem.
    by apply frame_of_names; [exact (list.Forall_lookup_1 _ _ _ _ Hm E)|apply short_nil].
  - intros k pm e k' es rva s pc off q Hm [i E]%findContaining_elem He [j Es]%lookupElf_elem.
    by apply frame_of_names; [exact (list.Forall_lookup_1 _ _ _ _ Hm E)|exact (list.Forall_lookup_1 _ _ _ _ He Es)].
Qed.

(** The symbolizer keeps the promise the collector relies on. *)
#[export] Instance proc_symbolizer_laws : @SymbolizerLaws proc_symbolizer := {|
  sym_inv s := satisfies short_names s.1;
  kernel_fits s pc W Hpc :=
    let H := ensures_symbolizeKernel short_names short_names_admissible pc s W in conj (proj2 H Hpc) (proj1 H);
  user_fits s pid pc W Hpc :=
    let H := ensures_symbolizeUser short_names short_names_admissible pid pc s W in conj (proj2 H Hpc) (proj1 H) |}.
End Names.
