(* ===== verification/AppBuffer.v ===== *)
(** * The app's window of events (app, data/BoundedEventBuffer.kt)

    A queue of bounded size with an index by id.  [None] is the exception of
    require; [evicted] are the calls of onEvicted, when it is set.  Then the
    queue as the last events added, and what the index finds. *)

From S2P Require Import Prelude.

Section Buffer.
(** The events, and their id *)
Context {E : Type} (id : E -> Z).

Record BoundedEventBuffer := MkBuffer {
  capacity : Z; deque : list E; index : gmap Z E; onEvicted : bool; evicted : list E }.

(** The constructor *)
Definition newBuffer (capacity : Z) (callback : bool) : option BoundedEventBuffer :=
  if 0 <? capacity then Some (MkBuffer capacity [] ∅ callback []) else None.

(** The body of the three eviction loops *)
Definition removeFirst (b : BoundedEventBuffer) : BoundedEventBuffer :=
  match deque b with
  | [] => b
  | removed :: deque =>
      MkBuffer (capacity b) deque (delete (id removed) (index b)) (onEvicted b)
        (if onEvicted b then evicted b ++ [removed] else evicted b)
  end.

(** while (deque.size > target) remove; every turn shortens the queue. *)
Fixpoint evict_to (fuel : nat) (target : Z) (b : BoundedEventBuffer) : BoundedEventBuffer :=
  match fuel with
  | O => b
  | S fuel => if target <? Z.of_nat (length (deque b)) then evict_to fuel target (removeFirst b) else b
  end.

Definition shrink (target : Z) (b : BoundedEventBuffer) : BoundedEventBuffer := evict_to (length (deque b)) target b.

Definition add (event : E) (b : BoundedEventBuffer) : BoundedEventBuffer :=
  let b := shrink (capacity b - 1) b in
  MkBuffer (capacity b) (deque b ++ [event]) (<[id event := event]> (index b)) (onEvicted b) (evicted b).

Definition setCapacity (newCapacity : Z) (b : BoundedEventBuffer) : option BoundedEventBuffer :=
  if 0 <? newCapacity
  then Some (shrink newCapacity (MkBuffer newCapacity (deque b) (index b) (onEvicted b) (evicted b)))
  else None.

(** The loop also stops at the empty queue. *)
Definition trimToSize (target : Z) (b : BoundedEventBuffer) : list E * BoundedEventBuffer :=
  let b' := shrink (Z.max 0 target) b in
  (take (length (deque b) - length (deque b')) (deque b), b').

Definition clear (b : BoundedEventBuffer) : BoundedEventBuffer :=
  MkBuffer (capacity b) [] ∅ (onEvicted b) (if onEvicted b then evicted b ++ deque b else evicted b).

(** ** Operations in sequence *)

Inductive buffer_op := OpAdd (e : E) | OpSetCapacity (n : Z) | OpTrim (n : Z) | OpClear.

Definition buffer_step (o : buffer_op) (b : BoundedEventBuffer) : option BoundedEventBuffer :=
  match o with
  | OpAdd e => Some (add e b)
  | OpSetCapacity n => setCapacity n b
  | OpTrim n => Some (trimToSize n b).2
  | OpClear => Some (clear b)
  end.

Fixpoint run_buffer (l : list buffer_op) (b : BoundedEventBuffer) : option BoundedEventBuffer :=
  match l with [] => Some b | o :: l => b ← buffer_step o b; run_buffer l b end.

Definition added (l : list buffer_op) : list E := omap (λ o, match o with OpAdd e => Some e | _ => None end) l.

(** ** Invariant *)

(** The index has exactly the queue's events, under their ids. *)
Record buffer_inv (b : BoundedEventBuffer) : Prop := {
  bi_cap : 0 < capacity b;
  bi_size : Z.of_nat (length (deque b)) <= capacity b;
  bi_ids : NoDup (id <$> deque b);
  bi_index : forall i e, index b !! i = Some e <-> e ∈ deque b /\ id e = i }.

Lemma removeFirst_index x q (m : gmap Z E) :
  NoDup (id <$> x :: q) -> (forall i e, m !! i = Some e <-> e ∈ x :: q /\ id e = i) ->
  forall i e, delete (id x) m !! i = Some e <-> e ∈ q /\ id e = i.
Proof.
  intros Hd Hm i e. rewrite fmap_cons in Hd. apply list.NoDup_cons in Hd as [Hx _].
  rewrite lookup_delete_Some, Hm, elem_of_cons. split.
  - intros (Hne & [->|Hin] & Hi); [done|auto].
  - intros [Hin Hi]. split; [|auto]. intros <-. apply Hx. rewrite <- Hi. by apply list_elem_of_fmap_2.
Qed.

(** What the eviction loop leaves: the newest events that fit. *)
Record evicted_to (target : Z) (b b' : BoundedEventBuffer) (gone : list E) : Prop := {
  et_cap : capacity b' = capacity b;
  et_cb : onEvicted b' = onEvicted b;
  et_deque : deque b = gone ++ deque b';
  et_size : Z.of_nat (length (deque b')) <= Z.max 0 target;
  et_min : gone = [] \/ Z.of_nat (length (deque b')) = Z.max 0 target;
  et_log : evicted b' = if onEvicted b then evicted b ++ gone else evicted b;
  et_index : NoDup (id <$> deque b) -> (forall i e, index b !! i = Some e <-> e ∈ deque b /\ id e = i) ->
             forall i e, index b' !! i = Some e <-> e ∈ deque b' /\ id e = i }.

Lemma evict_to_spec target fuel : forall b,
  (length (deque b) <= fuel)%nat -> exists gone, evicted_to target b (evict_to fuel target b) gone.
Proof.
  induction fuel as [|fuel IH]; intros b Hf; cbn [evict_to].
  { exists []. split; try done; [destruct (deque b); [cbn; lia|cbn in Hf; lia]|by left|].
    rewrite app_nil_r. by destruct (onEvicted b). }
  destruct (Z.ltb_spec target (Z.of_nat (length (deque b)))) as [Hlt|Hge].
  2: { exists []. split; try done; [lia|by left|]. rewrite app_nil_r. by destruct (onEvicted b). }
  destruct (deque b) as [|x q] eqn:Eq.
  { unfold removeFirst. rewrite Eq. apply IH. rewrite Eq. cbn. lia. }
  destruct (IH (removeFirst b)) as [g S]; [unfold removeFirst; rewrite Eq; cbn in *; lia|].
  set (b1 := evict_to fuel target (removeFirst b)) in *. exists (x :: g).
  assert (removeFirst b = MkBuffer (capacity b) q (delete (id x) (index b)) (onEvicted b)
            (if onEvicted b then evicted b ++ [x] else evicted b)) as Er by (unfold removeFirst; by rewrite Eq).
  rewrite Er in S. destruct S as [H1 H2 H3 H4 H5 H6 H7]. cbn [deque capacity onEvicted evicted index] in *.
  split; try done.
  - by rewrite Eq, H3.
  - right. destruct H5 as [->|H5]; [|done]. cbn [app] in H3. rewrite <- H3 in *. cbn [length] in Hlt. lia.
  - rewrite H6. destruct (onEvicted b); [by rewrite <- app_assoc|done].
  - rewrite Eq. intros Hd Hm. apply H7; [rewrite fmap_cons in Hd; by apply list.NoDup_cons in Hd as [_ ?]|].
    by apply removeFirst_index.
Qed.

Lemma shrink_spec target b : exists gone, evicted_to target b (shrink target b) gone.
Proof. by apply evict_to_spec. Qed.

(** ** Each operation *)

Lemma nodup_suffix (a b : list E) : NoDup (id <$> a ++ b) -> NoDup (id <$> b).
Proof. rewrite fmap_app. intros H. by apply list.NoDup_app in H as (_ & _ & ?). Qed.

Lemma shrink_inv target b b' gone :
  evicted_to target b b' gone -> 0 < capacity b -> NoDup (id <$> deque b) ->
  (forall i e, index b !! i = Some e <-> e ∈ deque b /\ id e = i) -> Z.max 0 target <= capacity b -> buffer_inv b'.
Proof.
  intros [H1 H2 H3 H4 H5 H6 H7] Hc Hd Hm Ht. split; [by rewrite H1|rewrite H1; lia| |by apply H7].
  rewrite H3 in Hd. by eapply nodup_suffix.
Qed.

Lemma add_inv e b : buffer_inv b -> id e ∉ (id <$> deque b) -> buffer_inv (add e b).
Proof.
  intros [Hc Hs Hd Hm] Hf. unfold add. destruct (shrink_spec (capacity b - 1) b) as [gone S].
  pose proof (shrink_inv _ _ _ _ S Hc Hd Hm ltac:(lia)) as [Hc' _ Hd' Hm']. destruct S as [H1 _ H3 H4 _ _ _].
  set (b' := shrink (capacity b - 1) b) in *.
  assert (id e ∉ (id <$> deque b')) as Hf'.
  { intros Hin. apply Hf. rewrite H3, fmap_app. apply elem_of_app. by right. }
  split; cbn; [done|rewrite length_app; cbn; lia| |].
  - rewrite fmap_app. apply list.NoDup_app. split; [done|]. split; [|apply list.NoDup_singleton].
    by intros x Hx ->%list_elem_of_singleton.
  - intros i x. destruct (decide (id e = i)) as [<-|Hne].
    + rewrite lookup_insert_eq, elem_of_app, list_elem_of_singleton. split.
      * intros [= <-]. auto.
      * intros [[Hin| ->] Hi]; [|done]. exfalso. apply Hf'. rewrite <- Hi. by apply list_elem_of_fmap_2.
    + rewrite lookup_insert_ne, Hm', elem_of_app, list_elem_of_singleton by done. split; [tauto|].
      intros [[Hin| ->] Hi]; [auto|done].
Qed.

(** New ids for the events added: none is in the queue or added twice. *)
Lemma step_inv o b b' :
  buffer_inv b -> (forall e, o = OpAdd e -> id e ∉ (id <$> deque b)) -> buffer_step o b = Some b' -> buffer_inv b'.
Proof.
  intros I Hf H. destruct o as [e|n|n|]; cbn in H.
  - injection H as <-. apply add_inv; auto.
  - unfold setCapacity in H. destruct (Z.ltb_spec 0 n); [|done]. injection H as <-.
    destruct (shrink_spec n (MkBuffer n (deque b) (index b) (onEvicted b) (evicted b))) as [gone S].
    eapply shrink_inv; [exact S|done|apply I|apply I|cbn; lia].
  - injection H as <-. unfold trimToSize. destruct (shrink_spec (Z.max 0 n) b) as [gone S]. cbn [snd].
    pose proof S as [H1 _ H3 _ H5 _ _]. destruct (Z.le_gt_cases (Z.max 0 n) (capacity b)) as [Hle|Hgt].
    + eapply shrink_inv; [exact S|apply I..|lia].
    + destruct I as [Hc Hs Hd Hm]. assert (gone = []) as ->.
      { destruct H5 as [?|H5]; [done|]. apply (f_equal length) in H3. rewrite length_app in H3.
        destruct gone; [done|cbn in H3; lia]. }
      cbn [app] in H3. split; [by rewrite H1|rewrite H1, <- H3; lia|by rewrite <- H3|].
      by apply (et_index _ _ _ _ S).
  - injection H as <-. destruct I as [Hc _ _ _]. split; cbn; [done|lia|constructor|].
    intros i e. rewrite lookup_empty. split; [done|]. by intros [?%not_elem_of_nil _].
Qed.

(** The queue and the events handed out, after one operation *)
Lemma step_history o b b' :
  buffer_step o b = Some b' -> onEvicted b = true ->
  onEvicted b' = true /\ evicted b' ++ deque b' = evicted b ++ deque b ++ added [o].
Proof.
  intros H Hcb. destruct o as [e|n|n|]; cbn in H.
  - injection H as <-. unfold add. destruct (shrink_spec (capacity b - 1) b) as [gone [_ H2 H3 _ _ H6 _]].
    cbn. rewrite H2, Hcb in *. split; [done|]. rewrite H6, H3, <- !app_assoc. done.
  - unfold setCapacity in H. destruct (0 <? n); [|done]. injection H as <-.
    destruct (shrink_spec n (MkBuffer n (deque b) (index b) (onEvicted b) (evicted b))) as [gone [_ H2 H3 _ _ H6 _]].
    set (b1 := shrink n _) in *. clearbody b1. cbn in *. rewrite H2, Hcb in *. split; [done|].
    by rewrite H6, H3, <- !app_assoc, app_nil_r.
  - injection H as <-. cbn. destruct (shrink_spec (Z.max 0 n) b) as [gone [_ H2 H3 _ _ H6 _]].
    rewrite H2, Hcb in *. split; [done|]. by rewrite H6, H3, <- !app_assoc, app_nil_r.
  - injection H as <-. cbn. rewrite Hcb. split; [done|]. by rewrite !app_nil_r.
Qed.

Lemma added_cons o l : added (o :: l) = added [o] ++ added l.
Proof. by destruct o. Qed.

Lemma run_buffer_inv l : forall b b',
  buffer_inv b -> onEvicted b = true -> NoDup (id <$> evicted b ++ deque b ++ added l) -> run_buffer l b = Some b' ->
  buffer_inv b' /\ evicted b' ++ deque b' = evicted b ++ deque b ++ added l.
Proof.
  induction l as [|o l IH]; intros b b' I Hcb Hd H.
  { injection H as <-. split; [done|]. cbn. by rewrite app_nil_r. }
  cbn [run_buffer] in H. destruct (buffer_step o b) as [b1|] eqn:Es; [|done]. cbn [mbind option_bind] in H.
  destruct (step_history _ _ _ Es Hcb) as [Hcb1 Hh].
  assert (evicted b1 ++ deque b1 ++ added l = evicted b ++ deque b ++ added (o :: l)) as Hl
    by (by rewrite added_cons, app_assoc, Hh, <- !app_assoc).
  destruct (IH b1 b') as [I' E']; [|done|by rewrite Hl|done|by rewrite E'].
  eapply step_inv; [exact I| |exact Es]. intros e -> Hin. rewrite added_cons in Hd. cbn [added omap] in Hd.
  rewrite !fmap_app in Hd. apply list.NoDup_app in Hd as (_ & _ & Hd). apply list.NoDup_app in Hd as (_ & Hd & _).
  apply (Hd (id e) Hin). apply elem_of_app. left. left.
Qed.
End Buffer.

(** findById, findFirst *)
Abbreviation findById i b := (index b !! i) (only parsing).
Abbreviation findFirst p b := (List.find p (deque b)) (only parsing).

(** ** Property *)

(** The window of events loses nothing silently. Under any sequence of
    additions of events with new ids, changes of capacity, trims and clears,
    the events handed to the eviction callback followed by those in the window
    are the events added, each once and in order; the window stays within its
    capacity; and a lookup by id finds exactly the events in the window. *)
Theorem buffer_is_window {E} (id : E -> Z) cap l b0 b :
  newBuffer cap true = Some b0 -> NoDup (id <$> added l) -> run_buffer id l b0 = Some b ->
  evicted b ++ deque b = added l /\
  Z.of_nat (length (deque b)) <= capacity b /\
  forall i e, findById i b = Some e <-> e ∈ deque b /\ id e = i.
Proof.
  unfold newBuffer. destruct (Z.ltb_spec 0 cap) as [Hc|]; [|done]. intros [= <-] Hd H.
  destruct (run_buffer_inv id l (MkBuffer cap [] ∅ true []) b) as [[_ Hs _ Hm] Hh]; [|done|done|done|done].
  split; cbn; [done|lia|constructor|]. intros i e. rewrite lookup_empty. split; [done|].
  by intros [?%not_elem_of_nil _].
Qed.

Lemma buffer_is_window_witness :
  let l := [OpAdd 1; OpAdd 2; OpAdd 3; OpSetCapacity 4; OpAdd 4; OpTrim 1; OpAdd 5] in
  let b := default (MkBuffer 1 [] ∅ true []) (run_buffer (λ x, x) l (MkBuffer 2 [] ∅ true [])) in
  deque b = [4; 5] /\ evicted b ++ deque b = [1; 2; 3; 4; 5].
Proof.
  intros l b. split; [by vm_compute|].
  apply (buffer_is_window (λ x : Z, x) 2 l (MkBuffer 2 [] ∅ true []) b); [done| |by vm_compute].
  by apply (bool_decide_unpack _).
Defined.
