(* ===== verification/AppPairer.v ===== *)
(** * Pairing replies with requests in the app (app, parser/TransactionPairer.kt)

    Two tables of pending requests by pair id, one for the requests the traced
    app sent and one for those it received.  A call reads the clock as the
    code does; the order in which a ConcurrentHashMap iterates is that of
    [map_to_list]. *)

From stdpp Require Import sorting.
From S2P Require Import Prelude GoLang GoStd AppWire.

Abbreviation TTL_MS := 5000%Z (only parsing).
Abbreviation MAX_ENTRIES := (Z.to_nat 4096) (only parsing).

(** parser/decoders/ParcelDecoder.kt *)
Inductive DecodeSource := REPLY | SPECIAL_CODE | AIDL_Q | AIDL_P | AIDL_O | HIDL_DESCRIPTOR | RAW_ASCII | TARGET_REF.

Record PairResult := MkPairResult {
  pr_interfaceName : option bytes; pr_methodName : option bytes; pr_code : Z;
  pr_resolveCandidates : list bytes; pr_decodeSource : option DecodeSource }.
Record PendingRequest := MkPending { pq_result : PairResult; pq_enqueuedAtMs : Z }.

(** An event, with the fields parseEvent has filled in *)
Record parsed_event := MkParsed {
  pe_event : @kt_BinderEvent bytes;
  pe_interfaceName : bytes; pe_methodName : bytes;
  pe_resolveCandidates : list bytes; pe_decodeSource : option DecodeSource }.

Record TransactionPairer := MkPairer { clientRequests : gmap Z PendingRequest; serverRequests : gmap Z PendingRequest }.
Abbreviation newPairer := (MkPairer ∅ ∅) (only parsing).

Definition enqueued_le (a b : Z * PendingRequest) : Prop := pq_enqueuedAtMs a.2 <= pq_enqueuedAtMs b.2.
#[export] Instance enqueued_le_dec : RelDecision enqueued_le.
Proof. intros a b. unfold enqueued_le. apply _. Defined.

(** putAndEvict *)
Definition putAndEvict (table : gmap Z PendingRequest) (pairId : Z) (entry : PendingRequest) (now : Z)
    : gmap Z PendingRequest :=
  let table := <[pairId := entry]> table in
  let cutoff := now - TTL_MS in
  let table := filter (λ kv, ~ pq_enqueuedAtMs kv.2 < cutoff) table in
  if (MAX_ENTRIES <? size table)%nat then
    let sorted := merge_sort enqueued_le (map_to_list table) in
    let excess := (size table - MAX_ENTRIES)%nat in
    foldl (λ t kv, delete kv.1 t) table (take excess sorted)
  else table.

(** The two hits, from the fields of the event *)
Abbreviation senderHit e targetUid := (ke_uid e =? targetUid) (only parsing).
Abbreviation toHit e targetUid := (negb (ke_toUid e =? 0) && (ke_toUid e =? targetUid)) (only parsing).

Definition code_text (code : Z) : bytes := str "code=" ++ Itoa code.

Definition recordRequest (event : parsed_event) (targetUid now : Z) (p : TransactionPairer) : TransactionPairer :=
  let e := pe_event event in
  if ke_isReply e then p
  else if ke_pairId e =? 0 then p
  else if targetUid <=? 0 then p
  else if negb (senderHit e targetUid) && negb (toHit e targetUid) then p
  else
    let entry := MkPending
      (MkPairResult
         (if bool_decide (pe_interfaceName event = str "Unknown") then None else Some (pe_interfaceName event))
         (if bool_decide (pe_methodName event = code_text (ke_code e)) then None else Some (pe_methodName event))
         (ke_code e) (pe_resolveCandidates event) (pe_decodeSource event)) now in
    if senderHit e targetUid
    then MkPairer (putAndEvict (clientRequests p) (ke_pairId e) entry now) (serverRequests p)
    else MkPairer (clientRequests p) (putAndEvict (serverRequests p) (ke_pairId e) entry now).

(** tryMatchReply; [now] is the clock after the entry has been removed. *)
Definition tryMatchReply (e : @kt_BinderEvent bytes) (targetUid now : Z) (p : TransactionPairer)
    : option PairResult * TransactionPairer :=
  if negb (ke_isReply e) then (None, p)
  else if ke_pairId e =? 0 then (None, p)
  else if targetUid <=? 0 then (None, p)
  else
    let from_client := (clientRequests p !! ke_pairId e,
                        MkPairer (delete (ke_pairId e) (clientRequests p)) (serverRequests p)) in
    let from_server := (serverRequests p !! ke_pairId e,
                        MkPairer (clientRequests p) (delete (ke_pairId e) (serverRequests p))) in
    let '(pending, p) :=
      if toHit e targetUid then from_client
      else if senderHit e targetUid then from_server
      else from_client in
    match pending with
    | None => (None, p)
    | Some q => if TTL_MS <? now - pq_enqueuedAtMs q then (None, p) else (Some (pq_result q), p)
    end.

(** ** Eviction *)

Lemma delete_keys (l : list (Z * PendingRequest)) : forall (t : gmap Z PendingRequest) k,
  foldl (λ t kv, delete kv.1 t) t l !! k = if bool_decide (k ∈ l.*1) then None else t !! k.
Proof.
  induction l as [|[k' v] l IH]; intros t k; cbn [foldl]; [done|].
  rewrite IH. cbn [fst]. rewrite fmap_cons. cbn [fst]. destruct (decide (k = k')) as [->|Hne].
  - rewrite lookup_delete_eq. rewrite (bool_decide_eq_true_2 (k' ∈ k' :: _)) by left. by case_bool_decide.
  - rewrite lookup_delete_ne by done. rewrite (bool_decide_ext (k ∈ l.*1) (k ∈ k' :: l.*1)); [done|]. rewrite elem_of_cons. tauto.
Qed.

Lemma size_delete_keys (l : list (Z * PendingRequest)) : forall t : gmap Z PendingRequest,
  NoDup l.*1 -> (forall kv, kv ∈ l -> t !! kv.1 = Some kv.2) ->
  size (foldl (λ t kv, delete kv.1 t) t l) = (size t - length l)%nat.
Proof.
  induction l as [|[k v] l IH]; intros t Hd Hin; cbn [foldl length]; [lia|].
  rewrite fmap_cons in Hd. cbn [fst] in *. apply list.NoDup_cons in Hd as [Hk Hd]. rewrite IH; [|done|].
  - rewrite map_size_delete. pose proof (Hin (k, v) ltac:(left)) as Hk'. cbn in Hk'. rewrite Hk'. cbn. lia.
  - intros kv Hkv. rewrite lookup_delete_ne by (intros ->; apply Hk; by apply list_elem_of_fmap_2).
    apply Hin. by right.
Qed.

Section Evict.
Context (table : gmap Z PendingRequest).
Let sorted : list (Z * PendingRequest) := merge_sort enqueued_le (map_to_list table).

#[local] Instance enqueued_le_trans : Transitive enqueued_le.
Proof. intros a b c. unfold enqueued_le. lia. Qed.
#[local] Instance enqueued_le_total : Total enqueued_le.
Proof. intros a b. unfold enqueued_le. lia. Qed.

Lemma sorted_perm : sorted ≡ₚ map_to_list table.
Proof. apply merge_sort_Permutation. Qed.

Lemma sorted_lookup kv : kv ∈ sorted -> table !! kv.1 = Some kv.2.
Proof. rewrite sorted_perm. destruct kv as [k v]. apply elem_of_map_to_list. Qed.

Lemma sorted_nodup n : NoDup (take n sorted).*1.
Proof.
  assert (NoDup sorted.*1) as H by (rewrite sorted_perm; apply NoDup_fst_map_to_list).
  rewrite <- (take_drop n sorted), fmap_app in H. by apply list.NoDup_app in H as [? _].
Qed.

Lemma evicted_size n :
  size (foldl (λ t kv, delete kv.1 t) table (take n sorted)) = (size table - length (take n sorted))%nat.
Proof.
  apply size_delete_keys; [apply sorted_nodup|]. intros kv H. apply sorted_lookup.
  rewrite <- (take_drop n sorted). apply elem_of_app. by left.
Qed.

Lemma length_sorted : length sorted = size table.
Proof. by rewrite sorted_perm, length_map_to_list. Qed.

(** The entries of the table enqueued at [t] or later *)
Definition newer (t : Z) (m : gmap Z PendingRequest) : gmap Z PendingRequest :=
  filter (λ kv, t <= pq_enqueuedAtMs kv.2) m.

(** What comes after an entry in the sorted order is not older than it. *)
Lemma newer_after n k q :
  (k, q) ∈ take n sorted -> (length sorted - n + 1 <= size (newer (pq_enqueuedAtMs q) table))%nat.
Proof.
  intros Hin. set (t := pq_enqueuedAtMs q).
  pose proof (StronglySorted_merge_sort enqueued_le (map_to_list table)) as Hs. fold sorted in Hs.
  assert (NoDup sorted) as Hd by (rewrite sorted_perm; apply NoDup_map_to_list).
  rewrite <- (take_drop n sorted) in Hs, Hd. apply list.NoDup_app in Hd as (_ & Hx & Hd).
  assert (NoDup ((k, q) :: drop n sorted)) as Hl by (constructor; [by apply Hx|done]).
  assert (((k, q) :: drop n sorted) ⊆+ map_to_list (newer t table)) as Hsub.
  { apply NoDup_submseteq; [done|]. intros [k' q'] H. apply elem_of_map_to_list. apply map_lookup_filter_Some.
    assert ((k', q') ∈ sorted /\ t <= pq_enqueuedAtMs q') as [Hk Ht].
    { apply elem_of_cons in H as [[= -> ->]|H]; rewrite <- (take_drop n sorted), elem_of_app.
      - split; [by left|done].
      - split; [by right|]. by apply (StronglySorted_app_1_elem_of _ _ _ (k, q) (k', q') Hs). }
    split; [by apply (sorted_lookup (k', q'))|done]. }
  apply submseteq_length in Hsub. rewrite length_map_to_list in Hsub. cbn [length] in Hsub.
  rewrite length_drop in Hsub. lia.
Qed.

(** The eviction keeps an entry unless as many others are as new. *)
Lemma evict_keeps k q :
  table !! k = Some q -> (size (newer (pq_enqueuedAtMs q) table) <= MAX_ENTRIES)%nat ->
  foldl (λ t kv, delete kv.1 t) table (take (size table - MAX_ENTRIES) sorted) !! k = Some q.
Proof.
  intros Hk Hn. rewrite delete_keys. case_bool_decide as Hin; [|done]. exfalso.
  apply list_elem_of_fmap in Hin as ([k' q'] & -> & Hin). cbn [fst] in *.
  assert (table !! k' = Some q') as Hk'.
  { apply (sorted_lookup (k', q')). rewrite <- (take_drop (size table - MAX_ENTRIES) sorted). apply elem_of_app. by left. }
  rewrite Hk in Hk'. injection Hk' as <-. pose proof (newer_after _ _ _ Hin) as H. rewrite length_sorted in H.
  destruct (decide (size table <= MAX_ENTRIES)%nat) as [Hle|Hgt]; [|lia].
  replace (size table - MAX_ENTRIES)%nat with 0%nat in Hin by lia. by apply not_elem_of_nil in Hin.
Qed.
End Evict.

(** ** The tables *)

Definition live (now : Z) (m : gmap Z PendingRequest) : gmap Z PendingRequest :=
  filter (λ kv, ~ pq_enqueuedAtMs kv.2 < now - TTL_MS) m.

Lemma putAndEvict_size table k e now : (size (putAndEvict table k e now) <= MAX_ENTRIES)%nat.
Proof.
  unfold putAndEvict. fold (live now (<[k := e]> table)). set (t := live now _).
  destruct (Nat.ltb_spec MAX_ENTRIES (size t)); [|done].
  rewrite evicted_size, length_take, length_sorted. lia.
Qed.

Lemma putAndEvict_lookup table k e now k' q :
  putAndEvict table k e now !! k' = Some q -> <[k := e]> table !! k' = Some q.
Proof.
  unfold putAndEvict. fold (live now (<[k := e]> table)). intros H.
  assert (live now (<[k := e]> table) !! k' = Some q) as Hl.
  { destruct (_ <? _)%nat; [|done]. rewrite delete_keys in H. by case_bool_decide. }
  by apply map_lookup_filter_Some in Hl as [? _].
Qed.

Lemma newer_mono t (m m' : gmap Z PendingRequest) :
  (forall k q, m' !! k = Some q -> m !! k = Some q) -> (size (newer t m') <= size (newer t m))%nat.
Proof.
  intros H. apply map_subseteq_size, map_subseteq_spec. intros k q. unfold newer.
  rewrite !map_lookup_filter_Some. intros [? ?]. auto.
Qed.

Lemma newer_insert t k e (m : gmap Z PendingRequest) : (size (newer t (<[k := e]> m)) <= S (size (newer t m)))%nat.
Proof.
  transitivity (size (<[k := e]> (newer t m))).
  - apply map_subseteq_size, map_subseteq_spec. intros k' q. unfold newer.
    rewrite map_lookup_filter_Some. destruct (decide (k = k')) as [<-|Hne].
    + rewrite !lookup_insert_eq. by intros [? _].
    + rewrite !lookup_insert_ne by done. intros [? ?]. by apply map_lookup_filter_Some.
  - rewrite map_size_insert. destruct (newer t m !! k); cbn; lia.
Qed.

Lemma putAndEvict_newer t table k e now :
  (size (newer t (putAndEvict table k e now)) <= S (size (newer t table)))%nat.
Proof.
  etransitivity; [|apply (newer_insert t k e)]. apply newer_mono. intros k' q. apply putAndEvict_lookup.
Qed.

(** An entry that is young enough stays while few others are as new. *)
Lemma putAndEvict_keeps table k e now k' q :
  <[k := e]> table !! k' = Some q -> now <= pq_enqueuedAtMs q + TTL_MS ->
  (size (newer (pq_enqueuedAtMs q) table) < MAX_ENTRIES)%nat -> putAndEvict table k e now !! k' = Some q.
Proof.
  intros Hk Ht Hn. unfold putAndEvict. fold (live now (<[k := e]> table)). set (t := live now _).
  assert (t !! k' = Some q) as Hl by (apply map_lookup_filter_Some; split; [done|cbn; lia]).
  destruct (_ <? _)%nat; [|done]. apply evict_keeps; [done|].
  pose proof (newer_insert (pq_enqueuedAtMs q) k e table).
  assert (size (newer (pq_enqueuedAtMs q) t) <= size (newer (pq_enqueuedAtMs q) (<[k := e]> table)))%nat; [|lia].
  apply newer_mono. intros k2 q2 H2. by apply map_lookup_filter_Some in H2 as [? _].
Qed.

(** ** Calls in sequence *)

Inductive pair_op := PRecord (event : parsed_event) (now : Z) | PMatch (e : @kt_BinderEvent bytes) (now : Z).

Definition pair_step (targetUid : Z) (p : TransactionPairer) (o : pair_op) : TransactionPairer :=
  match o with
  | PRecord event now => recordRequest event targetUid now p
  | PMatch e now => (tryMatchReply e targetUid now p).2
  end.

Definition op_pairId (o : pair_op) : Z :=
  match o with PRecord event _ => ke_pairId (pe_event event) | PMatch e _ => ke_pairId e end.
Definition op_now (o : pair_op) : Z := match o with PRecord _ now => now | PMatch _ now => now end.

(** What recordRequest files for a request *)
Definition request_result (event : parsed_event) : PairResult :=
  MkPairResult
    (if bool_decide (pe_interfaceName event = str "Unknown") then None else Some (pe_interfaceName event))
    (if bool_decide (pe_methodName event = code_text (ke_code (pe_event event))) then None else Some (pe_methodName event))
    (ke_code (pe_event event)) (pe_resolveCandidates event) (pe_decodeSource event).

(** The table a request goes to *)
Definition side (sent : bool) (p : TransactionPairer) : gmap Z PendingRequest :=
  if sent then clientRequests p else serverRequests p.

Lemma recordRequest_side event targetUid now p b :
  side b (recordRequest event targetUid now p) = side b p \/
  side b (recordRequest event targetUid now p) =
    putAndEvict (side b p) (ke_pairId (pe_event event)) (MkPending (request_result event) now) now.
Proof.
  unfold recordRequest. repeat (case_match; [by left|]). case_match; destruct b; auto.
Qed.

Lemma tryMatchReply_side e targetUid now p b :
  side b (tryMatchReply e targetUid now p).2 = side b p \/
  side b (tryMatchReply e targetUid now p).2 = delete (ke_pairId e) (side b p).
Proof. unfold tryMatchReply. repeat case_match; simplify_eq; destruct b; auto. Qed.

Lemma step_size targetUid p o b :
  (size (side b p) <= MAX_ENTRIES)%nat -> (size (side b (pair_step targetUid p o)) <= MAX_ENTRIES)%nat.
Proof.
  intros H. destruct o as [event now|e now]; cbn [pair_step].
  - destruct (recordRequest_side event targetUid now p b) as [->| ->]; [done|apply putAndEvict_size].
  - destruct (tryMatchReply_side e targetUid now p b) as [->| ->]; [done|].
    rewrite map_size_delete. destruct (side b p !! ke_pairId e); cbn; lia.
Qed.

(** A call for another pair id leaves a pending request where it is. *)
Lemma step_keeps targetUid p o b k q :
  side b p !! k = Some q -> op_pairId o <> k -> op_now o <= pq_enqueuedAtMs q + TTL_MS ->
  (size (newer (pq_enqueuedAtMs q) (side b p)) < MAX_ENTRIES)%nat ->
  side b (pair_step targetUid p o) !! k = Some q /\
  (size (newer (pq_enqueuedAtMs q) (side b (pair_step targetUid p o))) <= S (size (newer (pq_enqueuedAtMs q) (side b p))))%nat.
Proof.
  intros Hk Hne Ht Hn. destruct o as [event now|e now]; cbn [pair_step op_pairId op_now] in *.
  - destruct (recordRequest_side event targetUid now p b) as [->| ->]; [split; [done|lia]|].
    split; [|apply putAndEvict_newer]. apply putAndEvict_keeps; [by rewrite lookup_insert_ne|done|done].
  - destruct (tryMatchReply_side e targetUid now p b) as [->| ->]; [split; [done|lia]|].
    split; [by rewrite lookup_delete_ne|].
    transitivity (size (newer (pq_enqueuedAtMs q) (side b p))); [|lia]. apply newer_mono.
    intros k2 q2 H2. by apply lookup_delete_Some in H2 as [_ ?].
Qed.

Lemma run_keeps targetUid l : forall p b k q,
  side b p !! k = Some q ->
  Forall (λ o, op_pairId o <> k /\ op_now o <= pq_enqueuedAtMs q + TTL_MS) l ->
  (size (newer (pq_enqueuedAtMs q) (side b p)) + length l <= MAX_ENTRIES)%nat ->
  side b (foldl (pair_step targetUid) p l) !! k = Some q.
Proof.
  induction l as [|o l IH]; intros p b k q Hk Hf Hn; [done|]. cbn [foldl length] in *.
  apply list.Forall_cons in Hf as [[Hne Ht] Hf].
  destruct (step_keeps targetUid p o b k q Hk Hne Ht) as [Hk' Hn']; [lia|]. apply IH; [done..|]. lia.
Qed.

(** A request that concerns the target, and a reply that travels back *)
Definition concerns (e : @kt_BinderEvent bytes) (targetUid : Z) : Prop :=
  ke_isReply e = false /\ ke_pairId e <> 0 /\ 0 < targetUid /\ (senderHit e targetUid = true \/ toHit e targetUid = true).

Definition answers (request reply : @kt_BinderEvent bytes) (targetUid : Z) : Prop :=
  ke_isReply reply = true /\ ke_pairId reply = ke_pairId request /\
  if senderHit request targetUid then toHit reply targetUid = true \/ senderHit reply targetUid = false
  else toHit reply targetUid = false /\ senderHit reply targetUid = true.

Lemma recordRequest_files event targetUid now p :
  concerns (pe_event event) targetUid ->
  side (senderHit (pe_event event) targetUid) (recordRequest event targetUid now p) =
    putAndEvict (side (senderHit (pe_event event) targetUid) p) (ke_pairId (pe_event event))
      (MkPending (request_result event) now) now.
Proof.
  intros (Hr & Hp & Ht & Hh). unfold recordRequest. rewrite Hr, (proj2 (Z.eqb_neq _ _) Hp).
  destruct (Z.leb_spec targetUid 0); [lia|].
  assert (negb (senderHit (pe_event event) targetUid) && negb (toHit (pe_event event) targetUid) = false) as ->
    by (destruct Hh as [-> | ->]; [done|apply andb_false_r]).
  by destruct (senderHit (pe_event event) targetUid).
Qed.

Lemma tryMatchReply_finds request reply targetUid now p q :
  concerns request targetUid -> answers request reply targetUid ->
  side (senderHit request targetUid) p !! ke_pairId request = Some q -> now <= pq_enqueuedAtMs q + TTL_MS ->
  (tryMatchReply reply targetUid now p).1 = Some (pq_result q) /\
  side (senderHit request targetUid) (tryMatchReply reply targetUid now p).2 !! ke_pairId request = None.
Proof.
  intros (_ & Hp & Ht & _) (Hr & He & Hd) Hq Hn. unfold tryMatchReply. rewrite Hr, He, (proj2 (Z.eqb_neq _ _) Hp).
  destruct (Z.leb_spec targetUid 0); [lia|]. cbn [negb]. unfold side in *.
  destruct (senderHit request targetUid).
  - assert ((if toHit reply targetUid then true else if senderHit reply targetUid then false else true) = true) as Hc
      by (destruct Hd as [-> | ->]; [done|by destruct (toHit reply targetUid)]).
    destruct (toHit reply targetUid); [|destruct (senderHit reply targetUid); [done|]]; rewrite Hq;
      (destruct (Z.ltb_spec TTL_MS (now - pq_enqueuedAtMs q)); [lia|]); cbn [fst snd clientRequests]; by rewrite lookup_delete_eq.
  - destruct Hd as [-> ->]. rewrite Hq. destruct (Z.ltb_spec TTL_MS (now - pq_enqueuedAtMs q)); [lia|].
    cbn [fst snd serverRequests]. by rewrite lookup_delete_eq.
Qed.

Lemma tryMatchReply_misses request reply targetUid now p :
  concerns request targetUid -> answers request reply targetUid ->
  side (senderHit request targetUid) p !! ke_pairId request = None -> (tryMatchReply reply targetUid now p).1 = None.
Proof.
  intros (_ & Hp & Ht & _) (Hr & He & Hd) Hq. unfold tryMatchReply. rewrite Hr, He, (proj2 (Z.eqb_neq _ _) Hp).
  destruct (Z.leb_spec targetUid 0); [lia|]. cbn [negb]. unfold side in *.
  destruct (senderHit request targetUid); [|destruct Hd as [-> ->]; by rewrite Hq].
  destruct (toHit reply targetUid); [by rewrite Hq|].
  destruct Hd as [?| ->]; [done|by rewrite Hq].
Qed.

(** A request that was recorded at [t0] still waits after other operations. *)
Lemma request_waits event targetUid t0 l p :
  concerns (pe_event event) targetUid ->
  Forall (λ o, op_pairId o <> ke_pairId (pe_event event) /\ op_now o <= t0 + TTL_MS) l ->
  (size (newer t0 (side (senderHit (pe_event event) targetUid) p)) + length l < MAX_ENTRIES)%nat ->
  side (senderHit (pe_event event) targetUid) (foldl (pair_step targetUid) (recordRequest event targetUid t0 p) l)
    !! ke_pairId (pe_event event) = Some (MkPending (request_result event) t0).
Proof.
  intros Hc Hl Hs. set (b := senderHit (pe_event event) targetUid) in *. set (k := ke_pairId (pe_event event)) in *.
  set (q := MkPending (request_result event) t0).
  apply run_keeps; [|done|].
  - unfold b. rewrite recordRequest_files by done. apply putAndEvict_keeps; [apply lookup_insert_eq| |].
    + change (t0 <= t0 + TTL_MS). lia.
    + change (size (newer t0 (side b p)) < MAX_ENTRIES)%nat. lia.
  - unfold b. rewrite recordRequest_files by done. fold b.
    pose proof (putAndEvict_newer t0 (side b p) k q t0). change (pq_enqueuedAtMs q) with t0. fold k q. lia.
Qed.

(** ** Properties *)

(** A reply finds its request. A request of the traced app, or to it, is
    matched by the reply with its pair id that travels back within five
    seconds, whatever other requests and replies come between, as long as
    fewer than 4096 requests are as recent; the reply then inherits what was
    decoded of the request, and a second reply with the same id finds
    nothing. *)
Theorem reply_finds_request event reply targetUid t0 l now p :
  concerns (pe_event event) targetUid -> answers (pe_event event) reply targetUid ->
  Forall (λ o, op_pairId o <> ke_pairId (pe_event event) /\ op_now o <= t0 + TTL_MS) l -> now <= t0 + TTL_MS ->
  (size (newer t0 (side (senderHit (pe_event event) targetUid) p)) + length l < MAX_ENTRIES)%nat ->
  let p1 := foldl (pair_step targetUid) (recordRequest event targetUid t0 p) l in
  (tryMatchReply reply targetUid now p1).1 = Some (request_result event) /\
  forall now', (tryMatchReply reply targetUid now' (tryMatchReply reply targetUid now p1).2).1 = None.
Proof.
  intros Hc Ha Hl Hn Hs p1. pose proof (request_waits event targetUid t0 l p Hc Hl Hs) as Hq. fold p1 in Hq.
  destruct (tryMatchReply_finds _ _ _ now p1 _ Hc Ha Hq) as [H1 H2]; [done|]. split; [done|].
  intros now'. by apply (tryMatchReply_misses (pe_event event)).
Qed.

(** A request the app (uid 10123) sent, another one, and the reply *)
Definition sample_request (pairId : Z) : @kt_BinderEvent bytes :=
  KtEvent 1 0 1200 10123 7 0 [] false BINDER HANDLE 1500 1000 1 pairId None.
Definition sample_parsed (pairId : Z) : parsed_event :=
  MkParsed (sample_request pairId) (str "android.os.IServiceManager") (str "getService") [] (Some AIDL_Q).
Definition sample_reply : @kt_BinderEvent bytes :=
  KtEvent 2 0 1500 1000 0 0 [] true BINDER KIND_UNKNOWN 1200 10123 0 77 None.

Lemma reply_finds_request_witness :
  (tryMatchReply sample_reply 10123 4200
     (recordRequest (sample_parsed 78) 10123 1500 (recordRequest (sample_parsed 77) 10123 1000 newPairer))).1 =
    Some (MkPairResult (Some (str "android.os.IServiceManager")) (Some (str "getService")) 7 [] (Some AIDL_Q)).
Proof.
  destruct (reply_finds_request (sample_parsed 77) sample_reply 10123 1000 [PRecord (sample_parsed 78) 1500] 4200 newPairer)
    as [H _]; [..|exact H].
  - split; [done|]. split; [done|]. split; [done|by left].
  - split; [done|]. split; [done|]. by left.
  - by repeat constructor.
  - done.
  - by vm_compute; lia.
Defined.

(** The tables of pending requests stay within 4096 entries each, whatever
    events arrive. *)
Theorem pairer_bounded targetUid l :
  let p := foldl (pair_step targetUid) newPairer l in
  (size (clientRequests p) <= MAX_ENTRIES)%nat /\ (size (serverRequests p) <= MAX_ENTRIES)%nat.
Proof.
  assert (forall b p, (size (side b p) <= MAX_ENTRIES)%nat ->
    (size (side b (foldl (pair_step targetUid) p l)) <= MAX_ENTRIES)%nat) as H.
  { intros b. induction l as [|o l IH]; intros p Hp; [done|]. apply IH. by apply step_size. }
  split; [apply (H true)|apply (H false)]; apply le_0_n.
Qed.
