(* ===== verification/AppParcel.v ===== *)
(** * What a captured parcel is about (app, parser/decoders)

    The decoders that name the interface of a request: reserved codes, the
    three layouts of an AIDL interface token, HIDL descriptors, plain ASCII and
    the target's reference; of ParcelParser.kt the guess at argument types, and
    of ParcelArgumentDecoder.kt the start of the arguments.  A Kotlin String is
    the list of its UTF-16 code units, so an ASCII string is its bytes. *)

From S2P Require Import Prelude GoLang GoStd Protocol AppWire AppPairer.

(** ** Kotlin *)

(** ByteBuffer.getInt(off) and getShort(off) of a little-endian buffer *)
Definition getInt_at (data : bytes) (off : Z) : option Z :=
  if (0 <=? off) && (off + 4 <=? len data) then Some (s32 (le_val (slice (Z.to_nat off) 4 data))) else None.
Definition getShort_at (data : bytes) (off : Z) : option Z :=
  if (0 <=? off) && (off + 2 <=? len data) then Some (s16 (le_val (slice (Z.to_nat off) 2 data))) else None.

(** The relative getters of a little-endian buffer *)
Definition get_le (n : nat) (buf : bytes) : option (Z * bytes) :=
  if (n <=? length buf)%nat then Some (le_val (take n buf), drop n buf) else None.

(** [short.toInt().toChar()], [n] times *)
Fixpoint getChars (n : nat) (buf : bytes) : option (bytes * bytes) :=
  match n with
  | O => Some ([], buf)
  | S n =>
      '(v, buf) ← get_le 2 buf;
      '(cs, buf) ← getChars n buf;
      Some (u16 (s16 v) :: cs, buf)
  end.

(** String.contains *)
Fixpoint contains (s sub : bytes) : bool :=
  HasPrefix s sub || match s with [] => false | _ :: s => contains s sub end.

(** Long.toString(16).uppercase() *)
Definition toHexUpper (z : Z) : bytes :=
  let up c := if (97 <=? c) && (c <=? 122) then c - 32 else c in
  if z <? 0 then 45 :: (up <$> FormatUint (- z) 16) else up <$> FormatUint z 16.

(** ** Results *)

Inductive Confidence := HIGH | MEDIUM | LOW.

Record DecodeResult := MkDecode {
  dr_interfaceName : bytes; dr_methodHint : option bytes; dr_payloadStart : Z;
  dr_source : DecodeSource; dr_confidence : Confidence }.

Abbreviation event := (@kt_BinderEvent bytes) (only parsing).

(** A decoder: [None] is an exception, [Some None] is null. *)
Abbreviation decoded := (option (option DecodeResult)) (only parsing).

(** ** Interface tokens *)

Definition isLikelyInterfaceNameRelaxed (s : bytes) : bool :=
  negb (bool_decide (s = [])) &&
  forallb (λ c, (c =? 46) || (c =? 95) || (c =? 36) ||
                ((48 <=? c) && (c <=? 57)) || ((97 <=? c) && (c <=? 122)) || ((65 <=? c) && (c <=? 90))) s.

Definition isLikelyInterfaceName (s : bytes) : bool :=
  if negb (isLikelyInterfaceNameRelaxed s) then false else existsb (Z.eqb 46) s.

Abbreviation MAX_INTERFACE_NAME_CHARS := 4096%Z (only parsing).
Abbreviation SYST_MAGIC := 0x53595354%Z (only parsing).

Definition readUtf16NameAt (data : bytes) (lenOffset : Z) (requireDot : bool) : option (option (bytes * Z)) :=
  if (lenOffset <? 0) || (len data <? lenOffset + 4) then Some None
  else
    length ← getInt_at data lenOffset;
    if (length <? 1) || (MAX_INTERFACE_NAME_CHARS <? length) then Some None
    else
      let charsBytes := (length + 1) * 2 in
      let charsStart := lenOffset + 4 in
      if len data <? charsStart + charsBytes then Some None
      else
        charsBuf ← wrap_at data charsStart (length * 2);
        '(name, _) ← getChars (Z.to_nat length) charsBuf;
        let ok := if requireDot then isLikelyInterfaceName name else isLikelyInterfaceNameRelaxed name in
        if negb ok then Some None
        else
          let charsPaddedBytes := Z.land (charsBytes + 3) (Z.lnot 3) in
          Some (Some (name, charsStart + charsPaddedBytes)).

Definition AidlQDecoder (e : event) : decoded :=
  let data := ke_rawParcel e in
  if len data <? 16 then Some None
  else
    magic ← getInt_at data 8;
    if negb (magic =? SYST_MAGIC) then Some None
    else
      r ← readUtf16NameAt data 12 false;
      Some (option_map (λ '(name, payloadStart), MkDecode name None payloadStart AIDL_Q HIGH) r).

Definition AidlPDecoder (e : event) : decoded :=
  let data := ke_rawParcel e in
  if len data <? 12 then Some None
  else
    r ← readUtf16NameAt data 8 true;
    Some (option_map (λ '(name, payloadStart), MkDecode name None payloadStart AIDL_P MEDIUM) r).

Definition AidlODecoder (e : event) : decoded :=
  let data := ke_rawParcel e in
  if len data <? 8 then Some None
  else
    r ← readUtf16NameAt data 4 true;
    Some (option_map (λ '(name, payloadStart), MkDecode name None payloadStart AIDL_O MEDIUM) r).

(** ** The other decoders *)

(** asciiCode, and the table as the pairs of mapOf *)
Definition SPECIAL_CODES : list (Z * bytes) :=
  let asciiCode (s : string) :=
    match str s with
    | [a; b; c; d] => Z.lor (Z.lor (Z.lor (Z.shiftl a 24) (Z.shiftl b 16)) (Z.shiftl c 8)) d
    | _ => 0
    end in
  [(asciiCode "_PNG", str "PING_TRANSACTION"); (asciiCode "_DMP", str "DUMP_TRANSACTION");
   (asciiCode "_CMD", str "SHELL_COMMAND_TRANSACTION"); (asciiCode "_NTF", str "INTERFACE_TRANSACTION");
   (asciiCode "_SPR", str "SYSPROPS_TRANSACTION"); (asciiCode "_EXT", str "EXTENSION_TRANSACTION");
   (0x00FFFFFE, str "HIDL_GET_DESCRIPTOR_TRANSACTION"); (0x00FFFFFD, str "HIDL_DESCRIPTOR_CHAIN_TRANSACTION");
   (0x00FFFFFC, str "HIDL_PING_TRANSACTION"); (0x00FFFFFF, str "HIDL_LINK_TO_DEATH_TRANSACTION")].

Definition SpecialCodeDecoder (e : event) : decoded :=
  Some (option_map (λ '(_, name), MkDecode (str "<protocol>") (Some name) (-1) SPECIAL_CODE HIGH)
          (List.find (λ '(code, _), code =? ke_code e) SPECIAL_CODES)).

(** The longest prefix of [data], of [maxLen] bytes at most, from [lo] to 0x7E *)
Fixpoint readAsciiUntilNul (lo : Z) (data : bytes) (maxLen : nat) : bytes :=
  match maxLen, data with
  | S maxLen, b :: data => if (lo <=? b) && (b <=? 0x7E) then b :: readAsciiUntilNul lo data maxLen else []
  | _, _ => []
  end.

Definition HidlDescriptorDecoder (e : event) : decoded :=
  let data := ke_rawParcel e in
  if len data =? 0 then Some None
  else
    let ascii := readAsciiUntilNul 0x20 data 256 in
    let hasShape := existsb (Z.eqb 64) ascii && contains ascii (str "::") in
    let devHint := match ke_binderDev e with HWBINDER => true | _ => false end in
    if negb devHint && negb hasShape then Some None
    else if (len ascii <? 8) || negb hasShape then Some None
    else Some (Some (MkDecode ascii None (-1) HIDL_DESCRIPTOR (if devHint then HIGH else MEDIUM))).

Definition RawAsciiHeuristicDecoder (e : event) : decoded :=
  let data := ke_rawParcel e in
  if len data <? 8 then Some None
  else
    let sb := readAsciiUntilNul 0x21 data 256 in
    if len sb <? 8 then Some None
    else if negb (existsb (Z.eqb 46) sb) then Some None
    else Some (Some (MkDecode sb None (-1) RAW_ASCII LOW)).

(** [resolver] is BinderHandleResolver.lookup, the name of the process *)
Definition TargetRefDecoder (resolver : option (Z -> Z -> option bytes)) (e : event) : decoded :=
  let ifaceName :=
    if ke_targetRef e =? 0 then str "unknown"
    else
      let raw := str "target@0x" ++ toHexUpper (ke_targetRef e) in
      match r ← resolver; r (ke_pid e) (ke_targetRef e) with
      | Some processName => raw ++ [32; 0x2192; 32] ++ processName
      | None => raw
      end in
  Some (Some (MkDecode ifaceName (Some (code_text (ke_code e))) (-1) TARGET_REF LOW)).

(** ** Arguments *)

(** The test of a String: at least three quarters of the first eight characters
    are readable.  The quotients of two numbers up to eight are as far from 3/4
    as single precision can tell. *)
Definition readable_string (data : bytes) (pos word : Z) : option bool :=
  let sample := Z.min word 8 in
  chs ← mapM (λ i, getShort_at data (pos + 4 + Z.of_nat i * 2)) (seq 0 (Z.to_nat sample));
  let readable ch :=
    let ch := Z.land ch 0xFFFF in
    ((0x20 <=? ch) && (ch <=? 0x7E)) || ((0x4E00 <=? ch) && (ch <=? 0x9FFF)) || ((0x3000 <=? ch) && (ch <=? 0x303F)) in
  Some ((0 <? sample) && (3 * sample <=? 4 * len (List.filter readable chs))).

(** The loop of sniffArgsFrom, with [maxArgs] results to go, at [pos] *)
Fixpoint sniffArgsFrom (data : bytes) (pos : Z) (maxArgs : nat) : option (list bytes) :=
  match maxArgs with
  | O => Some []
  | S maxArgs =>
      if len data - pos <? 4 then Some []
      else
        word ← getInt_at data pos;
        let next (t : bytes) (p : Z) : option (list bytes) :=
          ts ← sniffArgsFrom data p maxArgs; Some (t :: ts) in
        let typeName :=
          if (word =? s32 0x852a6273) || (word =? s32 0x852a6873) then Some (str "IBinder")
          else if word =? s32 0x852a6466 then Some (str "FileDescriptor") else None in
        match typeName with
        | Some t => if len data - pos <? 24 then Some [] else next t (pos + 24)
        | None =>
            if word =? -1 then next (str "?") (pos + 4)
            else
              let padded := Z.land ((word + 1) * 2 + 3) (Z.lnot 3) in
              let expectedEnd := pos + 4 + padded in
              let isString :=
                if (1 <=? word) && (word <=? MAX_INTERFACE_NAME_CHARS) && (expectedEnd <=? len data)
                then readable_string data pos word else Some false in
              match isString with
              | None => None
              | Some true => next (str "String") expectedEnd
              | Some false => next (str "int") (pos + 4)
              end
        end
  end.

Definition sniffArgumentTypes (data : bytes) (maxArgs : nat) : option (list bytes) :=
  if len data <? 16 then Some []
  else
    nameLength ← getInt_at data 12;
    if (nameLength <=? 0) || (MAX_INTERFACE_NAME_CHARS <? nameLength) then Some []
    else
      let tokenBytesPadded := Z.land ((nameLength + 1) * 2 + 3) (Z.lnot 3) in
      let argStart := 16 + tokenBytesPadded in
      if len data <=? argStart then Some [] else sniffArgsFrom data argStart maxArgs.

(** ParcelArgumentDecoder.computeArgStart *)
Definition computeArgStart (data : bytes) : option (option Z) :=
  if len data <? 16 then Some None
  else
    nameLen ← getInt_at data 12;
    if (nameLen <=? 0) || (MAX_INTERFACE_NAME_CHARS <? nameLen) then Some None
    else
      let strPadded := Z.land ((nameLen + 1) * 2 + 3) (Z.lnot 3) in
      let start := 16 + strPadded in
      Some (if start <? len data then Some start else None).
