(* ===== verification/AppTokens.v ===== *)
(** * Interface tokens and arguments: theorems on AppParcel *)

From S2P Require Import Prelude GoLang GoStd Protocol AppWire AppPairer AppParcel.

(** ** Reading *)

Lemma s32_nonneg v : 0 <= v < 2 ^ 31 -> s32 v = v.
Proof.
  intros H. unfold s32, signed, wrap. rewrite Z.mod_small by lia. change (32 - 1) with 31.
  destruct (Z.ltb_spec v (2 ^ 31)); lia.
Qed.

Lemma u16_s16 v : fits 16 v -> u16 (s16 v) = v.
Proof.
  intros H. unfold fits in H. unfold u16, s16, signed, wrap. change (16 - 1) with 15. rewrite (Z.mod_small v) by lia.
  destruct (Z.ltb_spec v (2 ^ 15)); [by rewrite Z.mod_small by lia|].
  replace (v - 2 ^ 16) with (v + -1 * 2 ^ 16) by lia. rewrite Z.mod_add by lia. by rewrite Z.mod_small by lia.
Qed.

Lemma getInt_at_app pre v post off :
  off = len pre -> 0 <= v < 2 ^ 31 -> getInt_at (pre ++ le_bytes 4 v ++ post) off = Some v.
Proof.
  intros -> Hv. unfold getInt_at. pose proof (len_nonneg pre). rewrite !len_app.
  change (len (le_bytes 4 v)) with 4. pose proof (len_nonneg post).
  destruct (Z.leb_spec 0 (len pre)), (Z.leb_spec (len pre + 4) (len pre + (4 + len post))); [|lia..]. cbn [andb].
  unfold len, slice. rewrite Nat2Z.id, drop_app_length. change (take 4 (le_bytes 4 v ++ post)) with (le_bytes 4 v).
  rewrite le_val_bytes_fits by (unfold fits; cbn; lia). by rewrite s32_nonneg.
Qed.

Lemma getInt_at_total data off : 0 <= off -> off + 4 <= len data -> is_Some (getInt_at data off).
Proof.
  intros H1 H2. unfold getInt_at. destruct (Z.leb_spec 0 off), (Z.leb_spec (off + 4) (len data)); [eauto|lia..].
Qed.

Lemma getChars_chars cs rest :
  Forall (fits 16) cs -> getChars (length cs) ((cs ≫= le_bytes 2) ++ rest) = Some (cs, rest).
Proof.
  induction 1 as [|c cs Hc _ IH]; [done|]. cbn [length getChars mbind list_bind]. rewrite <- app_assoc.
  unfold get_le. rewrite length_app, length_le_bytes. cbn [Nat.leb Nat.add].
  change (take 2 (le_bytes 2 c ++ ?r)) with (le_bytes 2 c). change (drop 2 (le_bytes 2 c ++ ?r)) with r.
  cbn [mbind option_bind] in IH |- *. setoid_rewrite IH. cbn [mbind option_bind].
  rewrite le_val_bytes_fits by (revert Hc; unfold fits; cbn; lia). by rewrite u16_s16.
Qed.

Lemma getChars_total n : forall buf, (2 * n <= length buf)%nat -> is_Some (getChars n buf).
Proof.
  induction n as [|n IH]; intros buf H; [by eexists|]. cbn [getChars]. unfold get_le.
  destruct (Nat.leb_spec 2 (length buf)); [|lia]. cbn [mbind option_bind].
  destruct (IH (drop 2 buf)) as [[cs r] E]; [rewrite length_drop; lia|]. rewrite E. by eexists.
Qed.

(** ** What a Parcel writes

    writeString16: the number of characters, the characters, a NUL, and zeros
    up to a multiple of four bytes *)

Definition string16 (s : bytes) : bytes :=
  le_bytes 4 (len s) ++ (s ≫= le_bytes 2) ++ [0; 0] ++ (if Z.even (len s) then [0; 0] else []).

Lemma len_chars (s : bytes) : len (s ≫= le_bytes 2) = 2 * len s.
Proof. induction s as [|c s IH]; [done|]. cbn [mbind list_bind]. rewrite len_app. unfold len in *. cbn in *. lia. Qed.

Lemma padded_eq n : 0 <= n -> Z.land ((n + 1) * 2 + 3) (Z.lnot 3) = 2 * n + 2 + (if Z.even n then 2 else 0).
Proof.
  intros H. rewrite <- Z.ldiff_land. change 3 with (Z.ones 2) at 2. rewrite Z.ldiff_ones_r by lia.
  rewrite Z.shiftl_mul_pow2, Z.shiftr_div_pow2 by lia. change (2 ^ 2) with 4.
  destruct (Z.even n) eqn:E.
  - apply Z.even_spec in E as [k ->]. replace ((2 * k + 1) * 2 + 3) with (1 + (k + 1) * 4) by lia.
    rewrite Z.div_add by lia. change (1 / 4) with 0. lia.
  - rewrite <- Z.negb_odd in E. apply negb_false_iff, Z.odd_spec in E as [k ->].
    replace ((2 * k + 1 + 1) * 2 + 3) with (3 + (k + 1) * 4) by lia. rewrite Z.div_add by lia. change (3 / 4) with 0. lia.
Qed.

Lemma len_string16 s : len (string16 s) = 4 + Z.land ((len s + 1) * 2 + 3) (Z.lnot 3).
Proof.
  unfold string16. rewrite !len_app, len_chars, padded_eq by apply len_nonneg.
  change (len (le_bytes 4 (len s))) with 4. destruct (Z.even _);
    change (len [0; 0]) with 2; change (len []) with 0; lia.
Qed.

(** A name the decoders accept: the characters are letters, digits, dots,
    underscores and dollars *)
Definition acceptable (dot : bool) (s : bytes) : Prop :=
  len s <= MAX_INTERFACE_NAME_CHARS /\
  (if dot then isLikelyInterfaceName s else isLikelyInterfaceNameRelaxed s) = true.

Lemma acceptable_relaxed dot s : acceptable dot s -> isLikelyInterfaceNameRelaxed s = true.
Proof.
  intros [_ H]. destruct dot; [|done]. unfold isLikelyInterfaceName in H.
  by destruct (isLikelyInterfaceNameRelaxed s).
Qed.

Lemma relaxed_chars s : isLikelyInterfaceNameRelaxed s = true -> s <> [] /\ Forall (λ c, 36 <= c <= 122) s.
Proof.
  unfold isLikelyInterfaceNameRelaxed. intros [Hn H]%andb_true_iff. split.
  - intros ->. by rewrite bool_decide_eq_true_2 in Hn.
  - apply Forall_forall. intros c Hc. rewrite forallb_forall in H. apply H in Hc.
    rewrite !orb_true_iff, !andb_true_iff, ?Z.eqb_eq, ?Z.leb_le in Hc. lia.
Qed.

Lemma acceptable_chars dot s : acceptable dot s -> 1 <= len s <= 4096 /\ Forall (λ c, 36 <= c <= 122) s.
Proof.
  intros H. destruct (relaxed_chars _ (acceptable_relaxed _ _ H)) as [Hn Hc]. split; [|done].
  destruct H as [Hl _]. split; [|done]. destruct s; [done|]. unfold len. cbn. lia.
Qed.

Lemma readUtf16NameAt_string pre s post dot off :
  off = len pre -> acceptable dot s ->
  readUtf16NameAt (pre ++ string16 s ++ post) off dot = Some (Some (s, off + len (string16 s))).
Proof.
  intros -> Hs. destruct (acceptable_chars _ _ Hs) as [Hl Hc]. unfold readUtf16NameAt.
  rewrite !len_app, len_string16, padded_eq by lia. pose proof (len_nonneg pre). pose proof (len_nonneg post).
  assert (0 <= (if Z.even (len s) then 2 else 0)) by (destruct (Z.even _); lia).
  destruct (Z.ltb_spec (len pre) 0); [lia|]. cbn [orb].
  match goal with |- context [?a <? ?b] => destruct (Z.ltb_spec a b); [lia|] end.
  assert (getInt_at (pre ++ string16 s ++ post) (len pre) = Some (len s)) as ->.
  { unfold string16. rewrite <- !app_assoc. apply getInt_at_app; [done|lia]. }
  cbn [mbind option_bind].
  destruct (Z.ltb_spec (len s) 1), (Z.ltb_spec 4096 (len s)); [lia..|]. cbn [orb].
  match goal with |- context [?a <? ?b] => destruct (Z.ltb_spec a b); [lia|] end.
  assert (wrap_at (pre ++ string16 s ++ post) (len pre + 4) (len s * 2) = Some (s ≫= le_bytes 2)) as ->.
  { unfold wrap_at. rewrite !len_app, len_string16, padded_eq by lia.
    repeat match goal with |- context [?a <=? ?b] => destruct (Z.leb_spec a b); [|lia] end. cbn [andb]. f_equal.
    unfold string16. rewrite <- !app_assoc, (app_assoc pre).
    replace (Z.to_nat (len pre + 4)) with (length (pre ++ le_bytes 4 (len s)))
      by (rewrite length_app, length_le_bytes; unfold len; lia).
    rewrite drop_app_length. replace (Z.to_nat (len s * 2)) with (length (s ≫= le_bytes 2))
      by (pose proof (len_chars s); unfold len in *; lia). by rewrite take_app_length. }
  cbn [mbind option_bind]. replace (Z.to_nat (len s)) with (length s) by (unfold len; lia).
  pose proof (getChars_chars s []) as E. rewrite app_nil_r in E. rewrite E.
  2:{ eapply list.Forall_impl; [exact Hc|]. unfold fits. cbn. lia. }
  cbn [mbind option_bind]. destruct Hs as [_ ->]. cbn [negb]. rewrite padded_eq by lia. do 3 f_equal. lia.
Qed.

(** ** The three layouts of a token *)

Inductive token_layout := LayoutQ | LayoutP | LayoutO.

(** The words before the name: policy and work source, policy alone, or both and the mark *)
Definition token_header (l : token_layout) (words : bytes) : bytes :=
  match l with LayoutQ => words ++ le_bytes 4 SYST_MAGIC | _ => words end.
Definition token_words (l : token_layout) : Z := match l with LayoutO => 4 | _ => 8 end.

(** A request of the layout: header, interface name, arguments *)
Definition token_parcel (l : token_layout) (words name args : bytes) : bytes :=
  token_header l words ++ string16 name ++ args.

Definition layout_source (l : token_layout) : DecodeSource * Confidence :=
  match l with LayoutQ => (AIDL_Q, HIGH) | LayoutP => (AIDL_P, MEDIUM) | LayoutO => (AIDL_O, MEDIUM) end.

(** What the writer has to keep to: the mark of Q stands for the dot, and a
    name of one character has no second one to tell O from P by. *)
Definition token_ok (l : token_layout) (words name : bytes) : Prop :=
  len words = token_words l /\
  match l with LayoutQ => acceptable false name | LayoutP => acceptable true name
             | LayoutO => acceptable true name /\ 2 <= len name end.

(** The result for a name found at the end of the header *)
Definition token_result (l : token_layout) (words name : bytes) : DecodeResult :=
  MkDecode name None (len (token_header l words ++ string16 name)) (layout_source l).1 (layout_source l).2.

(** Two characters of a name, read as one int *)
Lemma getInt_at_chars pre c0 c1 post off :
  off = len pre -> 36 <= c0 <= 122 -> 36 <= c1 <= 122 ->
  getInt_at (pre ++ le_bytes 2 c0 ++ le_bytes 2 c1 ++ post) off = Some (c0 + 65536 * c1).
Proof.
  intros Ho H0 H1. rewrite (app_assoc (le_bytes 2 c0)).
  assert (le_bytes 2 c0 ++ le_bytes 2 c1 = le_bytes 4 (c0 + 65536 * c1)) as ->.
  { cbn [le_bytes app].
    assert ((c0 + 65536 * c1) / 256 = 256 * c1) as -> by (Z.to_euclidean_division_equations; lia).
    assert (256 * c1 / 256 = c1) as -> by (Z.to_euclidean_division_equations; lia).
    assert (c0 / 256 = 0) as -> by (apply Z.div_small; lia). assert (c1 / 256 = 0) as -> by (apply Z.div_small; lia).
    assert ((c0 + 65536 * c1) mod 256 = c0 mod 256) as -> by (Z.to_euclidean_division_equations; lia).
    by assert (256 * c1 mod 256 = 0 mod 256) as -> by (Z.to_euclidean_division_equations; lia). }
  apply getInt_at_app; [done|lia].
Qed.

Lemma chars_cons2 c0 c1 (s : bytes) : ((c0 :: c1 :: s) ≫= le_bytes 2) = le_bytes 2 c0 ++ le_bytes 2 c1 ++ (s ≫= le_bytes 2).
Proof. reflexivity. Qed.

Lemma two_chars dot s : acceptable dot s -> 2 <= len s ->
  exists c0 c1 s', s = c0 :: c1 :: s' /\ 36 <= c0 <= 122 /\ 36 <= c1 <= 122.
Proof.
  intros H Hl. destruct (acceptable_chars _ _ H) as [_ Hc].
  destruct s as [|c0 [|c1 s]]; [unfold len in Hl; cbn in Hl; lia..|].
  apply list.Forall_cons in Hc as [? [? _]%list.Forall_cons]. eauto 10.
Qed.

(** The second word of the name, where P or the mark of Q is looked for *)
Lemma getInt_at_name pre s post off :
  off = len pre + 4 -> acceptable true s -> 2 <= len s ->
  exists v, getInt_at (pre ++ string16 s ++ post) off = Some v /\ 36 * 65536 <= v < 0x53595354.
Proof.
  intros -> Hs Hl. destruct (two_chars _ _ Hs Hl) as (c0 & c1 & s' & -> & H0 & H1).
  exists (c0 + 65536 * c1). split; [|lia]. unfold string16. rewrite chars_cons2, <- !app_assoc, (app_assoc pre).
  apply getInt_at_chars; [|done..]. by rewrite len_app.
Qed.

Lemma len_parcel l words name args :
  len (token_parcel l words name args) = len (token_header l words) + len (string16 name) + len args.
Proof. unfold token_parcel. rewrite !len_app. lia. Qed.

Definition header_len (l : token_layout) : Z := match l with LayoutQ => 12 | LayoutP => 8 | LayoutO => 4 end.

Lemma len_header l words name : token_ok l words name -> len (token_header l words) = header_len l.
Proof.
  intros [Hw _]. destruct l; cbn [token_header token_words] in *; rewrite ?len_app, ?Hw; done.
Qed.

Lemma name_accepted l words name : token_ok l words name -> acceptable (match l with LayoutQ => false | _ => true end) name.
Proof. intros [_ H]. destruct l; tauto. Qed.

Lemma parcel_at_least l words name args :
  token_ok l words name ->
  len (token_header l words) + 8 <= len (token_parcel l words name args) /\ 0 <= len args.
Proof.
  intros H. destruct (acceptable_chars _ _ (name_accepted _ _ _ H)) as [Hl _]. pose proof (len_nonneg args).
  rewrite len_parcel, len_string16, padded_eq by lia.
  assert (0 <= (if Z.even (len name) then 2 else 0)) by (destruct (Z.even _); lia).
  assert (len name = 1 \/ 2 <= len name) as [->|] by lia; cbn; lia.
Qed.

(** The name is where its own layout looks for it. *)
Lemma read_token l words name args :
  token_ok l words name ->
  readUtf16NameAt (token_parcel l words name args) (len (token_header l words))
    (match l with LayoutQ => false | _ => true end) =
  Some (Some (name, len (token_header l words ++ string16 name))).
Proof.
  intros H. unfold token_parcel. rewrite readUtf16NameAt_string by (done || by eapply name_accepted). by rewrite len_app.
Qed.

Lemma Q_not_P words name args :
  token_ok LayoutP words name -> getInt_at (token_parcel LayoutP words name args) 8 = Some (len name).
Proof.
  intros H. destruct (acceptable_chars _ _ (name_accepted _ _ _ H)) as [Hl _]. destruct H as [Hw _].
  unfold token_parcel, string16, token_header. rewrite <- !app_assoc. apply getInt_at_app; [by rewrite Hw|lia].
Qed.

Lemma P_not_O words name args :
  token_ok LayoutO words name ->
  readUtf16NameAt (token_parcel LayoutO words name args) 8 true = Some None /\
  exists v, getInt_at (token_parcel LayoutO words name args) 8 = Some v /\ v <> SYST_MAGIC.
Proof.
  intros H. pose proof (len_header _ _ _ H) as Hh; cbn [header_len] in Hh. pose proof (parcel_at_least _ _ _ args H) as [Hl _].
  destruct H as (Hw & Hs & H2). cbn [token_header] in *.
  destruct (getInt_at_name words name args 8) as (v & Ev & Hv); [lia|done..|].
  change (words ++ string16 name ++ args) with (token_parcel LayoutO words name args) in Ev.
  split; [|exists v; split; [done|lia]]. unfold readUtf16NameAt.
  destruct (Z.ltb_spec 8 0); [lia|]. destruct (Z.ltb_spec (len (token_parcel LayoutO words name args)) (8 + 4)); [lia|].
  cbn [orb]. rewrite Ev. cbn [mbind option_bind]. destruct (Z.ltb_spec 4096 v); [|lia]. by rewrite orb_true_r.
Qed.

(** Each layout is left alone by the decoders before its own, which finds it. *)
Lemma Q_decodes e words name args :
  ke_rawParcel e = token_parcel LayoutQ words name args -> token_ok LayoutQ words name ->
  AidlQDecoder e = Some (Some (token_result LayoutQ words name)).
Proof.
  intros He H. pose proof (len_header _ _ _ H) as Hh; cbn [header_len] in Hh. pose proof (parcel_at_least _ _ _ args H) as [Hl _].
  unfold AidlQDecoder. rewrite He. destruct (Z.ltb_spec (len (token_parcel LayoutQ words name args)) 16); [lia|].
  assert (getInt_at (token_parcel LayoutQ words name args) 8 = Some SYST_MAGIC) as ->.
  { destruct H as [Hw _]. unfold token_parcel, token_header. rewrite <- !app_assoc. by apply getInt_at_app. }
  cbn [mbind option_bind]. rewrite Z.eqb_refl. cbn [negb].
  pose proof (read_token _ _ _ args H) as E. rewrite Hh in E. rewrite E. reflexivity.
Qed.

Lemma P_decodes e words name args :
  ke_rawParcel e = token_parcel LayoutP words name args -> token_ok LayoutP words name ->
  AidlQDecoder e = Some None /\ AidlPDecoder e = Some (Some (token_result LayoutP words name)).
Proof.
  intros He H. pose proof (len_header _ _ _ H) as Hh; cbn [header_len] in Hh. pose proof (parcel_at_least _ _ _ args H) as [Hl _].
  destruct (acceptable_chars _ _ (name_accepted _ _ _ H)) as [Hn _].
  unfold AidlQDecoder, AidlPDecoder. rewrite He. split.
  - destruct (_ <? 16); [done|]. rewrite Q_not_P by done. cbn [mbind option_bind].
    destruct (Z.eqb_spec (len name) SYST_MAGIC); [lia|done].
  - destruct (Z.ltb_spec (len (token_parcel LayoutP words name args)) 12); [lia|].
    pose proof (read_token _ _ _ args H) as E. rewrite Hh in E. rewrite E. reflexivity.
Qed.

Lemma O_decodes e words name args :
  ke_rawParcel e = token_parcel LayoutO words name args -> token_ok LayoutO words name ->
  AidlQDecoder e = Some None /\ AidlPDecoder e = Some None /\
  AidlODecoder e = Some (Some (token_result LayoutO words name)).
Proof.
  intros He H. pose proof (len_header _ _ _ H) as Hh; cbn [header_len] in Hh. pose proof (parcel_at_least _ _ _ args H) as [Hl _].
  destruct (P_not_O _ _ args H) as (Hp & v & Ev & Hv).
  unfold AidlQDecoder, AidlPDecoder, AidlODecoder. rewrite He. split_and!.
  - destruct (_ <? 16); [done|]. rewrite Ev. cbn [mbind option_bind]. by destruct (Z.eqb_spec v SYST_MAGIC).
  - destruct (_ <? 12); [done|]. by rewrite Hp.
  - destruct (Z.ltb_spec (len (token_parcel LayoutO words name args)) 8); [lia|].
    pose proof (read_token _ _ _ args H) as E. rewrite Hh in E. rewrite E. reflexivity.
Qed.

(** ** No parcel makes a decoder throw *)

Lemma readUtf16NameAt_total data off dot : is_Some (readUtf16NameAt data off dot).
Proof.
  unfold readUtf16NameAt. destruct (Z.ltb_spec off 0); [by eexists|].
  destruct (Z.ltb_spec (len data) (off + 4)); [by eexists|]. cbn [orb].
  destruct (getInt_at_total data off) as [n En]; [lia..|]. rewrite En. cbn [mbind option_bind].
  destruct (Z.ltb_spec n 1), (Z.ltb_spec 4096 n); [by eexists..|]. cbn [orb].
  destruct (Z.ltb_spec (len data) (off + 4 + (n + 1) * 2)); [by eexists|].
  unfold wrap_at. destruct (Z.leb_spec 0 (off + 4)), (Z.leb_spec 0 (n * 2)), (Z.leb_spec (off + 4 + n * 2) (len data)); [|lia..].
  cbn [andb mbind option_bind].
  destruct (getChars_total (Z.to_nat n) (take (Z.to_nat (n * 2)) (drop (Z.to_nat (off + 4)) data))) as [[cs r] E].
  { rewrite length_take, length_drop. unfold len in *. lia. }
  rewrite E. cbn [mbind option_bind]. by destruct (negb _); eexists.
Qed.

Lemma AidlQDecoder_total e : is_Some (AidlQDecoder e).
Proof.
  unfold AidlQDecoder. destruct (Z.ltb_spec (len (ke_rawParcel e)) 16); [by eexists|].
  destruct (getInt_at_total (ke_rawParcel e) 8) as [m ->]; [lia..|]. cbn [mbind option_bind].
  destruct (negb _); [by eexists|]. destruct (readUtf16NameAt_total (ke_rawParcel e) 12 false) as [r ->]. by eexists.
Qed.

Lemma AidlPDecoder_total e : is_Some (AidlPDecoder e).
Proof.
  unfold AidlPDecoder. destruct (_ <? 12); [by eexists|].
  destruct (readUtf16NameAt_total (ke_rawParcel e) 8 true) as [r ->]. by eexists.
Qed.

Lemma AidlODecoder_total e : is_Some (AidlODecoder e).
Proof.
  unfold AidlODecoder. destruct (_ <? 8); [by eexists|].
  destruct (readUtf16NameAt_total (ke_rawParcel e) 4 true) as [r ->]. by eexists.
Qed.

Lemma HidlDescriptorDecoder_total e : is_Some (HidlDescriptorDecoder e).
Proof.
  unfold HidlDescriptorDecoder. destruct (_ =? 0); [by eexists|]. destruct (negb _ && negb _); [by eexists|].
  by destruct (_ || _); eexists.
Qed.

Lemma RawAsciiHeuristicDecoder_total e : is_Some (RawAsciiHeuristicDecoder e).
Proof.
  unfold RawAsciiHeuristicDecoder. destruct (_ <? 8); [by eexists|]. destruct (_ <? 8); [by eexists|].
  by destruct (negb _); eexists.
Qed.

Lemma readable_string_total data pos word :
  0 <= pos -> 1 <= word -> pos + 4 + Z.land ((word + 1) * 2 + 3) (Z.lnot 3) <= len data ->
  is_Some (readable_string data pos word).
Proof.
  intros Hp Hw Hl. rewrite padded_eq in Hl by lia.
  assert (0 <= (if Z.even word then 2 else 0)) by (destruct (Z.even _); lia). unfold readable_string.
  assert (is_Some (mapM (λ i, getShort_at data (pos + 4 + Z.of_nat i * 2)) (seq 0 (Z.to_nat (Z.min word 8))))) as [l ->];
    [|by eexists].
  apply mapM_is_Some_2, list.Forall_forall. intros i Hi%list_elem_of_In%in_seq. unfold compose, getShort_at.
  destruct (Z.leb_spec 0 (pos + 4 + Z.of_nat i * 2)), (Z.leb_spec (pos + 4 + Z.of_nat i * 2 + 2) (len data)); [by eexists|lia..].
Qed.

(** The guess at the arguments ends without an exception, with at most
    [maxArgs] of them. *)
Lemma sniffArgsFrom_total data n : forall pos, 0 <= pos ->
  exists ts, sniffArgsFrom data pos n = Some ts /\ (length ts <= n)%nat.
Proof.
  induction n as [|n IH]; intros pos Hp; cbn [sniffArgsFrom]; [by eexists|].
  assert (forall t p, 0 <= p -> exists ts, (ts ← sniffArgsFrom data p n; Some (t :: ts)) = Some ts /\ (length ts <= S n)%nat)
    as Hnext by (intros t p H; destruct (IH p H) as (ts & -> & Hl); exists (t :: ts); split; [done|cbn; lia]).
  assert (exists ts : list bytes, Some [] = Some ts /\ (length ts <= S n)%nat) as Hnil by (eexists; split; [done|cbn; lia]).
  destruct (Z.ltb_spec (len data - pos) 4); [exact Hnil|].
  destruct (getInt_at_total data pos) as [w ->]; [lia..|]. cbn [mbind option_bind].
  destruct (if _ || _ then Some (str "IBinder") else _); [destruct (_ <? 24); [exact Hnil|apply Hnext; lia]|].
  destruct (w =? -1); [apply Hnext; lia|].
  destruct (Z.leb_spec 1 w); cbn [andb]; [|apply Hnext; lia].
  destruct (w <=? 4096); cbn [andb]; [|apply Hnext; lia].
  destruct (Z.leb_spec (pos + 4 + Z.land ((w + 1) * 2 + 3) (Z.lnot 3)) (len data)); [|apply Hnext; lia].
  destruct (readable_string_total data pos w) as [[] ->]; [lia..| |apply Hnext; lia].
  apply Hnext. rewrite padded_eq by lia. destruct (Z.even w); lia.
Qed.

Lemma sniffArgumentTypes_total data n : exists ts, sniffArgumentTypes data n = Some ts /\ (length ts <= n)%nat.
Proof.
  unfold sniffArgumentTypes. assert (exists ts : list bytes, Some [] = Some ts /\ (length ts <= n)%nat) as Hnil by (eexists; split; [done|cbn; lia]).
  destruct (Z.ltb_spec (len data) 16); [exact Hnil|].
  destruct (getInt_at_total data 12) as [w ->]; [lia..|]. cbn [mbind option_bind].
  destruct (Z.leb_spec w 0), (Z.ltb_spec 4096 w); cbn [orb]; [exact Hnil..|].
  destruct (_ <=? _); [exact Hnil|]. apply sniffArgsFrom_total. rewrite padded_eq by lia. destruct (Z.even w); lia.
Qed.

(** ** Where the arguments start *)

(** Of a token of layout Q, the end of it; of the other two, nothing is found. *)
Lemma computeArgStart_Q words name args :
  token_ok LayoutQ words name -> args <> [] ->
  computeArgStart (token_parcel LayoutQ words name args) = Some (Some (len (token_header LayoutQ words ++ string16 name))).
Proof.
  intros H Ha. pose proof (len_header _ _ _ H) as Hh; cbn [header_len] in Hh. pose proof (parcel_at_least _ _ _ args H) as [Hl _].
  destruct (acceptable_chars _ _ (name_accepted _ _ _ H)) as [Hn _].
  assert (0 < len args) by (destruct args; [done|unfold len; cbn; lia]).
  unfold computeArgStart. destruct (Z.ltb_spec (len (token_parcel LayoutQ words name args)) 16); [lia|].
  assert (getInt_at (token_parcel LayoutQ words name args) 12 = Some (len name)) as ->.
  { unfold token_parcel, string16. rewrite <- !app_assoc. apply getInt_at_app; [by rewrite Hh|lia]. }
  cbn [mbind option_bind]. destruct (Z.leb_spec (len name) 0), (Z.ltb_spec 4096 (len name)); [lia..|]. cbn [orb].
  rewrite len_parcel, len_app, len_string16, Hh.
  match goal with |- context [?a <? ?b] => destruct (Z.ltb_spec a b); [|lia] end. do 2 f_equal. lia.
Qed.

Lemma word12_is_chars l words name args :
  l <> LayoutQ -> token_ok l words name -> 4 <= len name ->
  exists v, getInt_at (token_parcel l words name args) 12 = Some v /\ 36 * 65536 <= v.
Proof.
  intros Hq H H4. pose proof (len_header _ _ _ H) as Hh; cbn [header_len] in Hh. pose proof (name_accepted _ _ _ H) as Hs.
  destruct l; [done| |].
  - destruct (getInt_at_name words name args 12) as (v & E & Hv); [cbn in Hh; lia|done|lia|]. exists v. split; [exact E|lia].
  - destruct (acceptable_chars _ _ Hs) as [_ Hc].
    destruct name as [|c0 [|c1 [|c2 [|c3 name]]]]; [unfold len in H4; cbn in H4; lia..|].
    clear H4.
    apply list.Forall_cons in Hc as [_ Hc]. apply list.Forall_cons in Hc as [_ Hc].
    apply list.Forall_cons in Hc as [H2 Hc]. apply list.Forall_cons in Hc as [H3 _].
    exists (c2 + 65536 * c3). split; [|lia]. unfold token_parcel, string16.
    rewrite chars_cons2, chars_cons2, <- !app_assoc.
    pose proof (getInt_at_chars (token_header LayoutO words ++ le_bytes 4 (len (c0 :: c1 :: c2 :: c3 :: name)) ++
      le_bytes 2 c0 ++ le_bytes 2 c1) c2 c3) as E.
    setoid_rewrite <- app_assoc in E. setoid_rewrite <- app_assoc in E. setoid_rewrite <- app_assoc in E.
    apply E; [|done..]. by rewrite len_app, Hh.
Qed.

(** The two readers of arguments look at offset 12 whatever the layout: of a
    token without the mark they make nothing. *)
Lemma arguments_not_found l words name args n :
  l <> LayoutQ -> token_ok l words name -> 4 <= len name ->
  computeArgStart (token_parcel l words name args) = Some None /\
  sniffArgumentTypes (token_parcel l words name args) n = Some [].
Proof.
  intros Hq H H4. destruct (word12_is_chars l words name args Hq H H4) as (v & Ev & Hv).
  unfold computeArgStart, sniffArgumentTypes. destruct (_ <? 16); [done|]. rewrite Ev. cbn [mbind option_bind].
  destruct (Z.ltb_spec 4096 v); [|lia]. by rewrite orb_true_r.
Qed.
