(* ===== verification/AppReply.v ===== *)
(** * Replies, and the whole pipeline of decoders (app)

    parser/ReplyParser.kt: the exception and the value of a Java AIDL reply.
    parser/decoders/ReplyDecoder.kt: what a reply takes over from its request.
    parser/ParcelParser.kt: the eight decoders in their order.  A buffer is the
    bytes that remain; [None] is an exception. *)

From S2P Require Import Prelude GoLang GoStd Protocol AppWire AppPairer AppParcel.

(** ** ReplyParser *)

Record ReplyDecodeResult := MkReply {
  rr_exception : option bytes; rr_value : option bytes; rr_rawHexHint : option bytes }.

(** rawHexHint, and formatRawHexHint of ReplyDecoder, which is the same *)
Definition rawHexHint (parcel : bytes) : bytes :=
  let digit d := if d <? 10 then 48 + d else 55 + d in
  let hex b := [digit (b / 16); digit (b mod 16)] in
  if len parcel =? 0 then []
  else Join [32] (hex <$> take 32 parcel) ++ (if 32 <? len parcel then [32; 0x2026] else []).

Abbreviation raw_reply parcel := (MkReply None None (Some (rawHexHint parcel))) (only parsing).
Abbreviation value_reply v := (MkReply None (Some v) None) (only parsing).

(** buffer.int *)
Definition getIntLE (buf : bytes) : option (Z * bytes) := '(v, buf) ← get_le 4 buf; Some (s32 v, buf).

(** readExceptionCode, [n] rounds to go: the code and what follows it *)
Fixpoint readExceptionCode (n : nat) (buf : bytes) : option (option (Z * bytes)) :=
  match n with
  | O => Some None
  | S n =>
      if len buf <? 4 then Some None
      else
        '(code, buf) ← getIntLE buf;
        if negb (code =? -128) && negb (code =? -127) then Some (Some (code, buf))
        else if len buf <? 4 then Some None
        else
          '(headerLen, buf) ← getIntLE buf;
          if (headerLen <? 0) || (64 * 1024 <? headerLen) then Some None
          else if len buf <? headerLen then Some None
          else readExceptionCode n (drop (Z.to_nat headerLen) buf)
  end.

Definition exceptionTag (code : Z) : option bytes :=
  if code =? -1 then Some (str "SecurityException")
  else if code =? -2 then Some (str "BadParcelableException")
  else if code =? -3 then Some (str "IllegalArgumentException")
  else if code =? -4 then Some (str "NullPointerException")
  else if code =? -5 then Some (str "IllegalStateException")
  else if code =? -6 then Some (str "NetworkOnMainThreadException")
  else if code =? -7 then Some (str "UnsupportedOperationException")
  else if code =? -8 then Some (str "ServiceSpecificException")
  else if code =? -9 then Some (str "ParcelableException")
  else None.

Inductive StringReadResult := Success (value : bytes) | NullValue | Failure.

(** readUtf16String; the buffer stays where the reading stopped. *)
Definition readUtf16String (buf : bytes) : option (StringReadResult * bytes) :=
  if len buf <? 4 then Some (Failure, buf)
  else
    '(n, buf) ← getIntLE buf;
    if n =? -1 then Some (NullValue, buf)
    else if n <? 0 then Some (Failure, buf)
    else if 4096 <? n then Some (Failure, buf)
    else if len buf <? n * 2 + 2 then Some (Failure, buf)
    else
      '(chars, buf) ← getChars (Z.to_nat n) buf;
      '(_, buf) ← get_le 2 buf;
      Some (Success chars, buf).

(** decodeException, with readMessageField *)
Definition decodeException (buf : bytes) (code : Z) : option (option bytes) :=
  match exceptionTag code with
  | None => Some None
  | Some tag =>
      '(message, buf) ← (if len buf <? 4 then Some (None, buf)
                         else '(r, buf) ← readUtf16String buf;
                              Some (match r with Success v => Some v | _ => None end, buf));
      if code =? -8 then
        errorCode ← (if 4 <=? len buf then '(c, _) ← getIntLE buf; Some (Some c) else Some None);
        Some (Some (match errorCode, message with
                    | Some c, Some m => str "ServiceSpecificException(" ++ Itoa c ++ str "): " ++ m
                    | Some c, None => str "ServiceSpecificException(" ++ Itoa c ++ str ")"
                    | None, Some m => str "ServiceSpecificException: " ++ m
                    | None, None => str "ServiceSpecificException"
                    end))
      else Some (Some (match message with Some (c :: m) => tag ++ str ": " ++ c :: m | _ => tag end))
  end.

Inductive return_kind := RetVoid | RetInt | RetLong | RetBoolean | RetString | RetCharSequence | RetOther.

(** canonicalReturnType, as far as the caller tells its results apart *)
Definition canonicalReturnType (returnType : bytes) : return_kind :=
  let among l := existsb (λ s, bool_decide (returnType = str s)) l in
  if among ["int"; "Integer"; "java.lang.Integer"] then RetInt
  else if among ["long"; "Long"; "java.lang.Long"] then RetLong
  else if among ["boolean"; "Boolean"; "java.lang.Boolean"] then RetBoolean
  else if among ["void"; "Void"; "java.lang.Void"] then RetVoid
  else if among ["String"; "java.lang.String"] then RetString
  else if among ["CharSequence"; "java.lang.CharSequence"] then RetCharSequence
  else RetOther.

Abbreviation string_reply parcel r :=
  (match r with
   | Success v => value_reply v
   | NullValue => value_reply (str "null")
   | Failure => raw_reply parcel
   end) (only parsing).

(** readIntValue, readLongValue, readBooleanValue, readStringValue and
    readCharSequenceValue *)
Definition readValue (kind : return_kind) (buf parcel : bytes) : option ReplyDecodeResult :=
  match kind with
  | RetVoid => Some (MkReply None None None)
  | RetInt =>
      if len buf <? 4 then Some (raw_reply parcel) else '(v, _) ← getIntLE buf; Some (value_reply (Itoa v))
  | RetLong =>
      if len buf <? 8 then Some (raw_reply parcel) else '(v, _) ← get_le 8 buf; Some (value_reply (Itoa (s64 v)))
  | RetBoolean =>
      if len buf <? 4 then Some (raw_reply parcel)
      else '(v, _) ← getIntLE buf; Some (value_reply (if v =? 0 then str "false" else str "true"))
  | RetString => '(r, _) ← readUtf16String buf; Some (string_reply parcel r)
  | RetCharSequence =>
      if len buf <? 4 then Some (raw_reply parcel)
      else
        '(k, buf) ← getIntLE buf;
        if k =? 0 then '(r, _) ← readUtf16String buf; Some (string_reply parcel r)
        else if (k =? 1) || (k =? 2) then Some (value_reply (str "<spanned charsequence>"))
        else Some (raw_reply parcel)
  | RetOther => Some (raw_reply parcel)
  end.

Definition decodeJavaAidlReply (parcel : bytes) (returnType : option bytes) : option ReplyDecodeResult :=
  if len parcel <? 4 then Some (raw_reply parcel)
  else
    c ← readExceptionCode 4 parcel;
    match c with
    | None => Some (raw_reply parcel)
    | Some (exceptionCode, buf) =>
        if negb (exceptionCode =? 0) then
          summary ← decodeException buf exceptionCode;
          Some (match summary with Some s => MkReply (Some s) None None | None => raw_reply parcel end)
        else
          match returnType with
          | None => Some (raw_reply parcel)
          | Some t => readValue (canonicalReturnType t) buf parcel
          end
    end.

(** ** ReplyDecoder *)

(** MethodResolver's MethodSignature *)
Record MethodSignature := MkSignature { sg_methodName : bytes; sg_paramTypes : list bytes; sg_returnType : option bytes }.

Section Pipeline.
(** MethodResolver.getMethodSignature, which may throw, and
    BinderHandleResolver.lookup *)
Context (getMethodSignature : bytes -> Z -> list bytes -> option (option MethodSignature)).
Context (handleLookup : Z -> Z -> option bytes).

Definition isJavaAidl (e : event) (matched : PairResult) : bool :=
  match ke_binderDev e, pr_decodeSource matched with
  | BINDER, Some (AIDL_Q | AIDL_P | AIDL_O) => true
  | _, _ => false
  end.

(** decodeWithInheritance: the result, and what event.parsedReply is set to *)
Definition decodeWithInheritance (e : event) (matched : PairResult) : DecodeResult * option ReplyDecodeResult :=
  let baseMethod := pr_methodName matched in
  let result i h c := MkDecode i (Some h) (-1) REPLY c in
  match pr_interfaceName matched with
  | None =>
      (result (str "(reply)") (match baseMethod with Some m => m ++ str " (reply)" | None => 0x2190 :: str " reply (matched)" end) HIGH,
       None)
  | Some interfaceName =>
      let signature :=
        if isJavaAidl e matched
        then default None (getMethodSignature interfaceName (pr_code matched) (pr_resolveCandidates matched)) else None in
      let returnType := signature ≫= sg_returnType in
      let replyResult :=
        if isJavaAidl e matched then decodeJavaAidlReply (ke_rawParcel e) returnType
        else Some (raw_reply (ke_rawParcel e)) in
      let methodLabel := default (0x2190 :: str " reply") baseMethod in
      let '(hint, confidence) :=
        match replyResult ≫= rr_exception, replyResult ≫= rr_value, baseMethod with
        | Some x, _, _ => (methodLabel ++ [32; 0x2190] ++ str " reply (exception: " ++ x ++ str ")", MEDIUM)
        | _, Some v, _ => (methodLabel ++ [32; 0x2190] ++ str " reply = " ++ v, HIGH)
        | _, _, Some m => (m ++ str " (reply)", HIGH)
        | _, _, None => (0x2190 :: str " reply (matched)", HIGH)
        end in
      (result interfaceName hint confidence, replyResult)
  end.

(** ReplyDecoder.tryDecode: null for a request; otherwise the result, what
    event.parsedReply is set to, and the pairer *)
Definition ReplyDecoder (e : event) (targetUid now : Z) (p : TransactionPairer)
    : option (DecodeResult * option ReplyDecodeResult) * TransactionPairer :=
  if negb (ke_isReply e) then (None, p)
  else
    let '(matched, p) := if negb (ke_pairId e =? 0) then tryMatchReply e targetUid now p else (None, p) in
    match matched with
    | Some m => (Some (decodeWithInheritance e m), p)
    | None =>
        let replyResult :=
          match ke_binderDev e with
          | BINDER => decodeJavaAidlReply (ke_rawParcel e) None
          | _ => Some (raw_reply (ke_rawParcel e))
          end in
        let hint := 0x2190 :: (if ke_pairId e =? 0 then str " reply (orphan)" else str " reply") in
        (Some (MkDecode (str "(reply)") (Some hint) (-1) REPLY HIGH, replyResult), p)
    end.

(** decodePipeline after ReplyDecoder: the first decoder that neither throws
    nor returns null *)
Fixpoint first_result (decoders : list (event -> option (option DecodeResult))) (e : event) : option DecodeResult :=
  match decoders with
  | [] => None
  | d :: decoders => match d e with Some (Some r) => Some r | _ => first_result decoders e end
  end.

Definition request_pipeline : list (event -> option (option DecodeResult)) :=
  [SpecialCodeDecoder; AidlQDecoder; AidlPDecoder; AidlODecoder; HidlDescriptorDecoder; RawAsciiHeuristicDecoder;
   TargetRefDecoder (Some handleLookup)].

(** decodePipeline; [None] is the error at its end. *)
Definition decodePipeline (e : event) (targetUid now : Z) (p : TransactionPairer)
    : option (DecodeResult * option ReplyDecodeResult) * TransactionPairer :=
  match ReplyDecoder e targetUid now p with
  | (Some r, p) => (Some r, p)
  | (None, p) => ((λ r, (r, None)) <$> first_result request_pipeline e, p)
  end.
End Pipeline.
