(* ===== verification/AppReplySpec.v ===== *)
(** * Replies and the pipeline: theorems on AppReply *)

From S2P Require Import Prelude GoLang GoStd Protocol AppWire AppPairer AppParcel AppTokens AppReply.

(** ** Reading a reply *)

Lemma s32_wrap v : s32 (wrap 32 v) = s32 v.
Proof. unfold s32, signed. by rewrite wrap_idemp. Qed.

Lemma get_le_bytes n v rest : get_le n (le_bytes n v ++ rest) = Some (wrap (8 * Z.of_nat n) v, rest).
Proof.
  unfold get_le. rewrite length_app, length_le_bytes. destruct (Nat.leb_spec n (n + length rest)); [|lia].
  by rewrite take_app_length', drop_app_length', le_val_bytes by (symmetry; apply length_le_bytes).
Qed.

Lemma getIntLE_bytes v rest : getIntLE (le_bytes 4 v ++ rest) = Some (s32 v, rest).
Proof. unfold getIntLE. rewrite get_le_bytes. cbn [mbind option_bind]. by rewrite (s32_wrap v : s32 (wrap (8 * Z.of_nat 4) v) = _). Qed.

Lemma get_le_total n buf : Z.of_nat n <= len buf -> exists v, get_le n buf = Some (v, drop n buf).
Proof. intros H. unfold get_le. destruct (Nat.leb_spec n (length buf)); [eauto|unfold len in H; lia]. Qed.

Lemma getIntLE_total buf : 4 <= len buf -> exists v, getIntLE buf = Some (v, drop 4 buf).
Proof. intros H. unfold getIntLE. destruct (get_le_total 4 buf) as [v ->]; [done|]. by eexists. Qed.

Lemma len_le_bytes n v rest : len (le_bytes n v ++ rest) = Z.of_nat n + len rest.
Proof. rewrite len_app. unfold len at 1. by rewrite length_le_bytes. Qed.

Lemma s32_small_neg v : - 2 ^ 31 <= v < 2 ^ 31 -> s32 v = v.
Proof. intros H. rewrite <- (s32_wrap v). apply signed_wrap; lia. Qed.

(** ** No reply makes the parser throw *)

Lemma readExceptionCode_total n : forall buf, is_Some (readExceptionCode n buf).
Proof.
  induction n as [|n IH]; intros buf; cbn [readExceptionCode]; [by eexists|].
  destruct (Z.ltb_spec (len buf) 4); [by eexists|].
  destruct (getIntLE_total buf) as [c ->]; [lia|]. cbn [mbind option_bind].
  destruct (negb _ && negb _); [by eexists|]. destruct (Z.ltb_spec (len (drop 4 buf)) 4); [by eexists|].
  destruct (getIntLE_total (drop 4 buf)) as [h ->]; [lia|]. cbn [mbind option_bind].
  destruct (_ || _); [by eexists|]. destruct (_ <? h); [by eexists|]. apply IH.
Qed.

Lemma readUtf16String_total buf : is_Some (readUtf16String buf).
Proof.
  unfold readUtf16String. destruct (Z.ltb_spec (len buf) 4); [by eexists|].
  destruct (getIntLE_total buf) as [n ->]; [lia|]. cbn [mbind option_bind].
  destruct (n =? -1); [by eexists|]. destruct (Z.ltb_spec n 0); [by eexists|]. destruct (4096 <? n); [by eexists|].
  destruct (Z.ltb_spec (len (drop 4 buf)) (n * 2 + 2)); [by eexists|].
  assert (forall k b, (2 * k <= length b)%nat -> exists cs, getChars k b = Some (cs, drop (2 * k) b)) as Hg.
  { clear. induction k as [|k IH]; intros b H; cbn [getChars]; [by eexists|].
    destruct (get_le_total 2 b) as [v ->]; [unfold len; lia|]. cbn [mbind option_bind].
    destruct (IH (drop 2 b)) as [cs ->]; [rewrite length_drop; lia|]. cbn [mbind option_bind]. rewrite drop_drop.
    replace (2 + 2 * k)%nat with (2 * S k)%nat by lia. by eexists. }
  destruct (Hg (Z.to_nat n) (drop 4 buf)) as [cs ->]; [unfold len in *; lia|]. cbn [mbind option_bind].
  destruct (get_le_total 2 (drop (2 * Z.to_nat n) (drop 4 buf))) as [v ->]; [|by eexists].
  unfold len in *. rewrite length_drop. lia.
Qed.

Lemma decodeException_total buf code : is_Some (decodeException buf code).
Proof.
  unfold decodeException. destruct (exceptionTag code); [|by eexists].
  assert (exists m b, (if len buf <? 4 then Some (None, buf)
    else '(r, buf) ← readUtf16String buf; Some (match r with Success v => Some v | _ => None end, buf)) = Some (m, b)) as (m & b' & ->).
  { destruct (_ <? 4); [by eexists _, _|]. destruct (readUtf16String_total buf) as [[r b'] ->]. by eexists _, _. }
  cbn [mbind option_bind]. destruct (code =? -8); [|by eexists].
  destruct (Z.leb_spec 4 (len b')); [|by eexists]. destruct (getIntLE_total b') as [v ->]; [lia|]. by eexists.
Qed.

Lemma readValue_total kind buf parcel : is_Some (readValue kind buf parcel).
Proof.
  destruct kind; cbn [readValue]; try by eexists.
  - destruct (Z.ltb_spec (len buf) 4); [by eexists|]. destruct (getIntLE_total buf) as [v ->]; [lia|]. by eexists.
  - destruct (Z.ltb_spec (len buf) 8); [by eexists|]. destruct (get_le_total 8 buf) as [v ->]; [lia|]. by eexists.
  - destruct (Z.ltb_spec (len buf) 4); [by eexists|]. destruct (getIntLE_total buf) as [v ->]; [lia|]. by eexists.
  - destruct (readUtf16String_total buf) as [[r b] ->]. by eexists.
  - destruct (Z.ltb_spec (len buf) 4); [by eexists|]. destruct (getIntLE_total buf) as [v ->]; [lia|]. cbn [mbind option_bind].
    destruct (v =? 0); [|by destruct (_ || _); eexists]. destruct (readUtf16String_total (drop 4 buf)) as [[r b] ->]. by eexists.
Qed.

Lemma decodeJavaAidlReply_total parcel t : is_Some (decodeJavaAidlReply parcel t).
Proof.
  unfold decodeJavaAidlReply. destruct (_ <? 4); [by eexists|].
  destruct (readExceptionCode_total 4 parcel) as [[[c buf]|] ->]; cbn [mbind option_bind]; [|by eexists].
  destruct (negb _).
  - destruct (decodeException_total buf c) as [s ->]. by eexists.
  - destruct t; [apply readValue_total|by eexists].
Qed.

(** ** Strings *)

(** What Parcel.writeString writes: the length is -1 for null, and zeros follow
    the NUL up to a multiple of four bytes. *)
Definition write_string (s : option bytes) : bytes :=
  match s with None => le_bytes 4 (-1) | Some s => string16 s end.
Definition string_ok (s : option bytes) : Prop :=
  match s with None => True | Some s => len s <= 4096 /\ Forall (fits 16) s end.

(** ** The layout of a reply

    As ReplyParser.kt documents it: headers and the exception code (lines 9-20
    and 131-133), a string without alignment (lines 311-313), a CharSequence
    (lines 260-266). *)

Definition string_layout (s : option bytes) : bytes :=
  match s with None => le_bytes 4 (-1) | Some s => le_bytes 4 (len s) ++ (s ≫= le_bytes 2) ++ [0; 0] end.

Lemma readUtf16String_layout s rest :
  string_ok s ->
  readUtf16String (string_layout s ++ rest) = Some (match s with None => NullValue | Some s => Success s end, rest).
Proof.
  pose proof (len_nonneg rest). unfold readUtf16String. destruct s as [s|]; cbn [string_layout string_ok].
  - intros [Hl Hc]. pose proof (len_nonneg s). rewrite <- !app_assoc, len_le_bytes, !len_app, len_chars.
    change (len [0; 0]) with 2.
    match goal with |- context [?a <? 4] => destruct (Z.ltb_spec a 4); [lia|] end.
    rewrite getIntLE_bytes, s32_nonneg by lia. cbn [mbind option_bind].
    destruct (Z.eqb_spec (len s) (-1)); [lia|]. destruct (Z.ltb_spec (len s) 0), (Z.ltb_spec 4096 (len s)); [lia..|].
    rewrite !len_app, len_chars. change (len [0; 0]) with 2.
    match goal with |- context [?a <? ?b] => destruct (Z.ltb_spec a b); [lia|] end.
    replace (Z.to_nat (len s)) with (length s) by (unfold len; lia). rewrite getChars_chars by done. reflexivity.
  - intros _. rewrite len_le_bytes. destruct (Z.ltb_spec (Z.of_nat 4 + len rest) 4); [lia|].
    by rewrite getIntLE_bytes.
Qed.

Inductive aidl_value :=
  | VVoid | VInt (v : Z) | VLong (v : Z) | VBoolean (b : bool)
  | VString (s : option bytes) | VCharSequence (s : option bytes).

Definition value_layout (v : aidl_value) : bytes :=
  match v with
  | VVoid => []
  | VInt v => le_bytes 4 v
  | VLong v => le_bytes 8 v
  | VBoolean b => le_bytes 4 (Z.b2z b)
  | VString s => string_layout s
  | VCharSequence s => le_bytes 4 0 ++ string_layout s
  end.

Definition value_ok (v : aidl_value) : Prop :=
  match v with
  | VInt v => - 2 ^ 31 <= v < 2 ^ 31
  | VLong v => - 2 ^ 63 <= v < 2 ^ 63
  | VString s | VCharSequence s => string_ok s
  | _ => True
  end.

(** The type a signature gives, and what is shown *)
Definition value_type (v : aidl_value) : bytes :=
  str (match v with VVoid => "void" | VInt _ => "int" | VLong _ => "long" | VBoolean _ => "boolean"
                  | VString _ => "String" | VCharSequence _ => "CharSequence" end).

Definition show_value (v : aidl_value) : option bytes :=
  match v with
  | VVoid => None
  | VInt v | VLong v => Some (Itoa v)
  | VBoolean b => Some (if b then str "true" else str "false")
  | VString s | VCharSequence s => Some (default (str "null") s)
  end.

Definition value_kind (v : aidl_value) : return_kind :=
  match v with VVoid => RetVoid | VInt _ => RetInt | VLong _ => RetLong | VBoolean _ => RetBoolean
             | VString _ => RetString | VCharSequence _ => RetCharSequence end.

Lemma value_type_kind v : canonicalReturnType (value_type v) = value_kind v.
Proof. destruct v; vm_compute; reflexivity. Qed.

Lemma readValue_layout v rest parcel :
  value_ok v -> readValue (value_kind v) (value_layout v ++ rest) parcel = Some (MkReply None (show_value v) None).
Proof.
  pose proof (len_nonneg rest). intros Hv. destruct v as [|v|v|b|s|s]; cbn [value_kind readValue value_layout value_ok show_value] in *.
  - done.
  - rewrite len_le_bytes. destruct (Z.ltb_spec (Z.of_nat 4 + len rest) 4); [lia|].
    rewrite getIntLE_bytes. cbn [mbind option_bind]. by rewrite s32_small_neg.
  - rewrite len_le_bytes. destruct (Z.ltb_spec (Z.of_nat 8 + len rest) 8); [lia|].
    rewrite get_le_bytes. cbn [mbind option_bind]. unfold s64. by rewrite signed_wrap by lia.
  - rewrite len_le_bytes. destruct (Z.ltb_spec (Z.of_nat 4 + len rest) 4); [lia|].
    rewrite getIntLE_bytes. by destruct b.
  - rewrite readUtf16String_layout by done. by destruct s.
  - rewrite <- app_assoc, len_le_bytes. pose proof (len_nonneg (string_layout s ++ rest)).
    destruct (Z.ltb_spec (Z.of_nat 4 + len (string_layout s ++ rest)) 4); [lia|].
    rewrite getIntLE_bytes. cbn [mbind option_bind]. change (s32 0 =? 0) with true. cbn match.
    rewrite readUtf16String_layout by done. by destruct s.
Qed.

(** Headers of StrictMode or of noted operations, each with its length *)
Definition header_layout (h : bool * bytes) : bytes :=
  le_bytes 4 (if h.1 then -128 else -127) ++ le_bytes 4 (len h.2) ++ h.2.

Lemma readExceptionCode_layout hs : forall n code rest,
  Forall (λ h, len h.2 <= 64 * 1024) hs -> (length hs < n)%nat -> -10 < code < 10 ->
  readExceptionCode n ((hs ≫= header_layout) ++ le_bytes 4 code ++ rest) = Some (Some (code, rest)).
Proof.
  induction hs as [|[b h] hs IH]; intros n code rest Hh Hn Hc; (destruct n as [|n]; [cbn in Hn; lia|]);
    cbn [readExceptionCode length] in *.
  - change ([] ≫= header_layout) with (@nil Z). cbn [app]. pose proof (len_nonneg rest). rewrite len_le_bytes.
    destruct (Z.ltb_spec (Z.of_nat 4 + len rest) 4); [lia|].
    rewrite getIntLE_bytes, s32_small_neg by lia. cbn [mbind option_bind].
    destruct (Z.eqb_spec code (-128)), (Z.eqb_spec code (-127)); [lia..|]. done.
  - apply list.Forall_cons in Hh as [Hl Hh]. cbn [snd] in Hl. pose proof (len_nonneg h).
    rewrite bind_cons. unfold header_layout at 1 3. cbn [fst snd]. rewrite <- !app_assoc.
    set (tail := (hs ≫= header_layout) ++ le_bytes 4 code ++ rest). rewrite len_le_bytes.
    pose proof (len_nonneg tail). assert (len (le_bytes 4 (len h) ++ h ++ tail) = 4 + (len h + len tail)) as Ht
      by (rewrite len_le_bytes, len_app; lia).
    destruct (Z.ltb_spec (Z.of_nat 4 + len (le_bytes 4 (len h) ++ h ++ tail)) 4); [lia|].
    rewrite getIntLE_bytes. cbn [mbind option_bind].
    assert (negb (s32 (if b then -128 else -127) =? -128) && negb (s32 (if b then -128 else -127) =? -127) = false) as ->
      by (by destruct b).
    destruct (Z.ltb_spec (len (le_bytes 4 (len h) ++ h ++ tail)) 4); [lia|].
    rewrite getIntLE_bytes, s32_nonneg by lia. cbn [mbind option_bind].
    destruct (Z.ltb_spec (len h) 0), (Z.ltb_spec (64 * 1024) (len h)); [lia..|]. cbn [orb].
    rewrite len_app. destruct (Z.ltb_spec (len h + len tail) (len h)); [lia|].
    rewrite drop_app_length' by (unfold len; lia). apply IH; [done|lia|done].
Qed.

(** ** Outcomes of a call *)

Inductive outcome :=
  | Returns (v : aidl_value)
  | Throws (code : Z) (message : option bytes)
  | ServiceFails (errorCode : Z) (message : option bytes).

Definition outcome_layout (o : outcome) : bytes :=
  match o with
  | Returns v => le_bytes 4 0 ++ value_layout v
  | Throws code m => le_bytes 4 code ++ string_layout m
  | ServiceFails errorCode m => le_bytes 4 (-8) ++ string_layout m ++ le_bytes 4 errorCode
  end.

Definition outcome_ok (o : outcome) : Prop :=
  match o with
  | Returns v => value_ok v
  | Throws code m => -9 <= code < 0 /\ code <> -8 /\ string_ok m
  | ServiceFails errorCode m => - 2 ^ 31 <= errorCode < 2 ^ 31 /\ string_ok m
  end.

Definition show_outcome (o : outcome) : ReplyDecodeResult :=
  match o with
  | Returns v => MkReply None (show_value v) None
  | Throws code m =>
      let tag := default [] (exceptionTag code) in
      MkReply (Some (match m with Some (c :: m) => tag ++ str ": " ++ c :: m | _ => tag end)) None None
  | ServiceFails errorCode m =>
      MkReply (Some (str "ServiceSpecificException(" ++ Itoa errorCode ++ str ")" ++
                     match m with Some m => str ": " ++ m | None => [] end)) None None
  end.

Lemma exceptionTag_some code : -9 <= code < 0 -> exists t, exceptionTag code = Some t.
Proof.
  intros H. assert (code = -9 \/ code = -8 \/ code = -7 \/ code = -6 \/ code = -5 \/ code = -4 \/ code = -3 \/ code = -2 \/ code = -1)
    as Hc by lia. repeat (destruct Hc as [-> |Hc]; [eexists; reflexivity|]). subst. eexists; reflexivity.
Qed.

Lemma decodeException_layout code m tail :
  -9 <= code < 0 -> string_ok m ->
  decodeException (string_layout m ++ tail) code =
    (let tag := default [] (exceptionTag code) in
     if code =? -8 then
       errorCode ← (if 4 <=? len tail then '(c, _) ← getIntLE tail; Some (Some c) else Some None);
       Some (Some (match errorCode, m with
                    | Some c, Some m => str "ServiceSpecificException(" ++ Itoa c ++ str "): " ++ m
                    | Some c, None => str "ServiceSpecificException(" ++ Itoa c ++ str ")"
                    | None, Some m => str "ServiceSpecificException: " ++ m
                    | None, None => str "ServiceSpecificException"
                    end))
     else Some (Some (match m with Some (c :: m) => tag ++ str ": " ++ c :: m | _ => tag end))).
Proof.
  intros Hc Hm. unfold decodeException. destruct (exceptionTag_some code Hc) as [tag ->]. cbn [default].
  assert (4 <= len (string_layout m ++ tail)) as Hl.
  { pose proof (len_nonneg tail). rewrite len_app. destruct m as [s|]; cbn [string_layout]; [|change (len (le_bytes 4 (-1))) with 4; lia].
    rewrite len_le_bytes. match goal with |- context [Z.of_nat 4 + len ?x] => pose proof (len_nonneg x) end. lia. }
  destruct (Z.ltb_spec (len (string_layout m ++ tail)) 4); [lia|]. rewrite readUtf16String_layout by done.
  cbn [mbind option_bind]. by destruct m.
Qed.

(** A reply to a method with the return type [rt], which matters only if the
    call returns *)
Lemma outcome_decoded hs o rest rt :
  Forall (λ h, len h.2 <= 64 * 1024) hs -> (length hs <= 3)%nat -> outcome_ok o ->
  (forall v, o = Returns v -> rt = Some (value_type v)) ->
  decodeJavaAidlReply ((hs ≫= header_layout) ++ outcome_layout o ++ rest) rt = Some (show_outcome o).
Proof.
  intros Hh Hn Ho Hrt. unfold decodeJavaAidlReply. pose proof (len_nonneg rest).
  assert (exists code tail, outcome_layout o ++ rest = le_bytes 4 code ++ tail /\ -10 < code < 10 /\
    code = match o with Returns _ => 0 | Throws c _ => c | ServiceFails _ _ => -8 end /\
    tail = match o with Returns v => value_layout v | Throws _ m => string_layout m
           | ServiceFails c m => string_layout m ++ le_bytes 4 c end ++ rest) as (code & tail & E & Hc & Ec & Et).
  { destruct o as [v|c m|c m]; eexists _, _; (split; [cbn [outcome_layout]; rewrite <- !app_assoc; reflexivity|]);
      (split; [cbn in Ho; lia|]); split; [done..| |done|]; by rewrite ?app_assoc. }
  rewrite E, len_app, len_le_bytes. pose proof (len_nonneg (hs ≫= header_layout)). pose proof (len_nonneg tail).
  match goal with |- context [?a <? 4] => destruct (Z.ltb_spec a 4); [lia|] end.
  rewrite readExceptionCode_layout by (done || lia). cbn [mbind option_bind]. subst tail code.
  destruct o as [v|c m|c m]; cbn [outcome_ok show_outcome] in *.
  - change (negb (0 =? 0)) with false. cbn match. rewrite (Hrt v eq_refl), value_type_kind. by apply readValue_layout.
  - destruct Ho as (Hr & H8 & Hm). destruct (Z.eqb_spec c 0); [lia|]. cbn [negb].
    rewrite decodeException_layout by done. destruct (Z.eqb_spec c (-8)); [done|]. by destruct m.
  - destruct Ho as (Hr & Hm). change (negb (-8 =? 0)) with true. cbn match.
    rewrite <- app_assoc, decodeException_layout by (done || lia). change (-8 =? -8) with true. cbn match zeta.
    rewrite len_le_bytes. destruct (Z.leb_spec 4 (Z.of_nat 4 + len rest)); [|lia].
    rewrite getIntLE_bytes, s32_small_neg by done.
    destruct m as [m|]; cbn [mbind option_bind]; rewrite ?app_nil_r, <- ?app_assoc; done.
Qed.

(** C17: What a reply means is what is shown of it: for every parcel in the
    layout that ReplyParser.kt documents, with at most three headers of at most
    64 KiB each and strings of at most 4096 characters, whatever follows, the
    decoded reply is the value if the call returns one of the types that are
    read, and otherwise the exception's name and message, of a service specific
    error also its code. *)
Theorem reply_outcome_shown hs o rest :
  Forall (λ h, len h.2 <= 64 * 1024) hs -> (length hs <= 3)%nat -> outcome_ok o ->
  decodeJavaAidlReply ((hs ≫= header_layout) ++ outcome_layout o ++ rest)
    (match o with Returns v => Some (value_type v) | _ => None end) = Some (show_outcome o).
Proof. intros Hh Hn Ho. apply outcome_decoded; [done..|]. by intros v ->. Qed.

(** A string behind a StrictMode header, and the parcel of
    exception_service_specific_reads_error_code_after_message in
    ReplyParserTest.kt *)
Lemma reply_outcome_shown_witness :
  decodeJavaAidlReply (([(true, [1; 2; 3; 4])] ≫= header_layout) ++ outcome_layout (Returns (VString (Some (str "ok")))) ++ [])
    (Some (str "String")) = Some (MkReply None (Some (str "ok")) None) /\
  decodeJavaAidlReply (([] ≫= header_layout) ++ outcome_layout (ServiceFails 42 (Some (str "svc fail"))) ++ []) None =
    Some (MkReply (Some (str "ServiceSpecificException(42): svc fail")) None None).
Proof.
  split.
  - apply (reply_outcome_shown [(true, [1; 2; 3; 4])] (Returns (VString (Some (str "ok")))) []).
    + by repeat constructor.
    + cbn. lia.
    + split; [by vm_compute|]. by repeat constructor.
  - rewrite (reply_outcome_shown [] (ServiceFails 42 (Some (str "svc fail"))) []); [reflexivity|by constructor|cbn; lia|].
    split; [lia|]. split; [by vm_compute|]. by repeat constructor.
Defined.

Lemma le_bytes_add n z k : le_bytes n (z + k * 256 ^ Z.of_nat n) = le_bytes n z.
Proof.
  revert z. induction n as [|n IH]; intros z; [done|]. cbn [le_bytes].
  replace (z + k * 256 ^ Z.of_nat (S n)) with (z + k * 256 ^ Z.of_nat n * 256)
    by (rewrite Nat2Z.inj_succ, Z.pow_succ_r by lia; ring).
  by rewrite Z_mod_plus_full, Z.div_add, IH by done.
Qed.

Lemma s32_parts z : - 2 ^ 31 <= s32 z < 2 ^ 31 /\ le_bytes 4 (s32 z) = le_bytes 4 z.
Proof.
  assert (exists k, s32 z = z + k * 2 ^ 32 /\ - 2 ^ 31 <= s32 z < 2 ^ 31) as (k & E & Hr).
  { unfold s32, signed, wrap. pose proof (Z.mod_pos_bound z (2 ^ 32) ltac:(done)). pose proof (Z.div_mod z (2 ^ 32) ltac:(done)).
    destruct (Z.ltb_spec (z mod 2 ^ 32) (2 ^ (32 - 1))); [exists (- (z / 2 ^ 32))|exists (- (z / 2 ^ 32) - 1)]; lia. }
  split; [done|]. rewrite E. apply (le_bytes_add 4).
Qed.

(** After a message that is aligned to four bytes, as Parcel.writeString does,
    and has an even number of characters, the code of a service specific error
    is read two bytes too early: its low half is shown, times 65536. *)
Theorem aligned_message_shifts_code errorCode m rest :
  - 2 ^ 31 <= errorCode < 2 ^ 31 -> string_ok (Some m) -> Z.even (len m) = true ->
  decodeJavaAidlReply (le_bytes 4 (-8) ++ write_string (Some m) ++ le_bytes 4 errorCode ++ rest) None =
    Some (show_outcome (ServiceFails (s32 (65536 * errorCode)) (Some m))).
Proof.
  intros He Hm Hev. set (rest' := drop 2 (le_bytes 4 errorCode) ++ rest).
  assert (le_bytes 4 (-8) ++ write_string (Some m) ++ le_bytes 4 errorCode ++ rest =
    ([] ≫= header_layout) ++ outcome_layout (ServiceFails (s32 (65536 * errorCode)) (Some m)) ++ rest') as ->.
  2:{ apply outcome_decoded; [by constructor|cbn; lia| |done]. split; [apply s32_parts|done]. }
  cbn [outcome_layout write_string string_layout mbind list_bind app]. unfold string16. rewrite Hev, <- !app_assoc. do 4 f_equal.
  unfold rest'. rewrite (proj2 (s32_parts _)). cbn [le_bytes app drop].
  assert ((65536 * errorCode) mod 256 = 0) as -> by (Z.to_euclidean_division_equations; lia).
  assert (65536 * errorCode / 256 = 256 * errorCode) as -> by (Z.to_euclidean_division_equations; lia).
  assert ((256 * errorCode) mod 256 = 0) as -> by (Z.to_euclidean_division_equations; lia).
  by assert (256 * errorCode / 256 = errorCode) as -> by (Z.to_euclidean_division_equations; lia).
Qed.

(** ** The pipeline *)

Section Pipeline.
Context (getMethodSignature : bytes -> Z -> list bytes -> option (option MethodSignature)).
Context (handleLookup : Z -> Z -> option bytes).

Lemma first_result_some (ds : list (event -> option (option DecodeResult))) e :
  (exists d r, d ∈ ds /\ d e = Some (Some r)) -> exists r d, first_result ds e = Some r /\ d ∈ ds /\ d e = Some (Some r).
Proof.
  induction ds as [|d ds IH]; intros (d' & r & Hd & Er); [by apply not_elem_of_nil in Hd|]. cbn [first_result].
  destruct (d e) as [[x|]|] eqn:E; [exists x, d; split; [done|]; split; [apply elem_of_cons; by left|done]|..].
  all: destruct (proj1 (elem_of_cons _ _ _) Hd) as [Heq|Hd']; [congruence|].
  all: destruct IH as (x & d'' & ? & ? & ?); [eauto|]; exists x, d''; split; [done|]; split; [apply elem_of_cons; by right|done].
Qed.

(** None of the request decoders throws on any event. *)
Lemma request_pipeline_total e : Forall (λ d : event -> _, is_Some (d e)) (request_pipeline handleLookup).
Proof.
  unfold request_pipeline. repeat constructor; try by eexists.
  - apply AidlQDecoder_total.
  - apply AidlPDecoder_total.
  - apply AidlODecoder_total.
  - apply HidlDescriptorDecoder_total.
  - apply RawAsciiHeuristicDecoder_total.
Qed.

Lemma request_sources d e r :
  d ∈ request_pipeline handleLookup -> d e = Some (Some r) -> dr_source r <> REPLY.
Proof.
  intros Hd E. unfold request_pipeline in Hd. rewrite !elem_of_cons, elem_of_nil in Hd.
  assert (forall o (f : bytes * Z -> DecodeResult), (forall x, dr_source (f x) <> REPLY) ->
    (o ≫= λ x, Some (option_map f x)) = Some (Some r) -> dr_source r <> REPLY) as Ho.
  { intros o f Hf Ex. destruct o as [[x|]|]; cbn in Ex; [injection Ex as <-; apply Hf|discriminate Ex..]. }
  destruct Hd as [-> |[-> |[-> |[-> |[-> |[-> |[-> |[]]]]]]]]; revert E.
  - unfold SpecialCodeDecoder. destruct (List.find _ _) as [[c n]|]; [|discriminate]. by intros [= <-].
  - unfold AidlQDecoder. destruct (_ <? 16); [discriminate|]. destruct (getInt_at _ _) as [m|]; [|discriminate].
    cbn [mbind option_bind]. destruct (negb _); [discriminate|]. apply Ho. by intros [].
  - unfold AidlPDecoder. destruct (_ <? 12); [discriminate|]. apply Ho. by intros [].
  - unfold AidlODecoder. destruct (_ <? 8); [discriminate|]. apply Ho. by intros [].
  - unfold HidlDescriptorDecoder. destruct (_ =? 0); [discriminate|]. destruct (negb _ && negb _); [discriminate|].
    destruct (_ || _); [discriminate|]. by intros [= <-].
  - unfold RawAsciiHeuristicDecoder. destruct (_ <? 8); [discriminate|]. destruct (_ <? 8); [discriminate|].
    destruct (negb _); [discriminate|]. by intros [= <-].
  - by intros [= <-].
Qed.

(** ReplyDecoder on a reply, whatever it carries *)
Lemma ReplyDecoder_reply e targetUid now p :
  ke_isReply e = true ->
  exists r o p', ReplyDecoder getMethodSignature e targetUid now p = (Some (r, o), p') /\ dr_source r = REPLY /\
    is_Some (dr_methodHint r).
Proof.
  intros Hr. unfold ReplyDecoder. rewrite Hr. cbn [negb].
  destruct (if negb _ then _ else _) as [[m|] p'].
  - exists (decodeWithInheritance getMethodSignature e m).1, (decodeWithInheritance getMethodSignature e m).2, p'.
    split; [by destruct (decodeWithInheritance _ _ _)|]. unfold decodeWithInheritance.
    destruct (pr_interfaceName m); [|by split; [|eexists]].
    destruct (match _ with Some x => _ | None => _ end) as [h c]. by split; [|eexists].
  - eexists _, _, _. split; [reflexivity|]. by split; [|eexists].
Qed.
End Pipeline.

Lemma decodePipeline_total sig lookup e targetUid now p :
  exists r o p', decodePipeline sig lookup e targetUid now p = (Some (r, o), p') /\
    if ke_isReply e then dr_source r = REPLY /\ is_Some (dr_methodHint r) else dr_source r <> REPLY /\ o = None /\ p' = p.
Proof.
  unfold decodePipeline. destruct (ke_isReply e) eqn:Hr.
  - destruct (ReplyDecoder_reply sig e targetUid now p Hr) as (r & o & p' & -> & H). eauto 10.
  - unfold ReplyDecoder. rewrite Hr. cbn [negb].
    destruct (first_result_some (request_pipeline lookup) e) as (r & d & -> & Hd & E).
    { eexists (TargetRefDecoder (Some lookup)), _. split; [|reflexivity]. unfold request_pipeline. set_solver. }
    exists r, None, p. split; [done|]. split; [by eapply request_sources|done].
Qed.

(** C35: Every event gets a name: none of the decoders throws on any event,
    and the pipeline always has a result.  A reply is decoded as a reply, with
    something to show for its method, and leaves the request decoders alone;
    a request leaves the table of pending requests as it is, and is never
    taken for a reply. *)
Theorem every_event_decoded sig lookup e targetUid now p :
  Forall (λ d : event -> _, is_Some (d e)) (request_pipeline lookup) /\
  exists r o p', decodePipeline sig lookup e targetUid now p = (Some (r, o), p') /\
    if ke_isReply e then dr_source r = REPLY /\ is_Some (dr_methodHint r) else dr_source r <> REPLY /\ o = None /\ p' = p.
Proof. split; [apply request_pipeline_total|apply decodePipeline_total]. Qed.

Lemma token_pipeline sig lookup e targetUid now p l words name args :
  ke_isReply e = false -> Forall (λ c, c.1 <> ke_code e) SPECIAL_CODES ->
  ke_rawParcel e = token_parcel l words name args -> token_ok l words name ->
  decodePipeline sig lookup e targetUid now p = (Some (token_result l words name, None), p).
Proof.
  intros Hr Hc He Hok. unfold decodePipeline, ReplyDecoder. rewrite Hr. cbn [negb].
  assert (SpecialCodeDecoder e = Some None) as Hs.
  { unfold SpecialCodeDecoder. destruct (List.find _ SPECIAL_CODES) as [[c n]|] eqn:E; [|done].
    apply find_some in E as [Hin Hq]. apply Z.eqb_eq in Hq. rewrite Stdlib.Lists.List.Forall_forall in Hc.
    by apply Hc in Hin. }
  unfold request_pipeline. cbn [first_result]. rewrite Hs. destruct l.
  - by rewrite (Q_decodes _ _ _ _ He Hok).
  - destruct (P_decodes _ _ _ _ He Hok) as [-> ->]. done.
  - destruct (O_decodes _ _ _ _ He Hok) as (-> & -> & ->). done.
Qed.

(** C18: An interface token is found in all three of its layouts: a request
    whose code is not a reserved one, and whose parcel starts with the header
    of Android Q, P or O, an acceptable name and any arguments, is decoded as
    that name, with the source and confidence of its layout and the offset at
    which the arguments start, even though the decoders of the newer layouts
    look at the parcel first. *)
Theorem interface_token_decoded sig lookup e targetUid now p l words name args :
  ke_isReply e = false -> Forall (λ c, c.1 <> ke_code e) SPECIAL_CODES ->
  ke_rawParcel e = token_parcel l words name args -> token_ok l words name ->
  decodePipeline sig lookup e targetUid now p = (Some (token_result l words name, None), p) /\
  drop (Z.to_nat (dr_payloadStart (token_result l words name))) (ke_rawParcel e) = args.
Proof.
  intros Hr Hc He Hok. split; [by eapply token_pipeline|].
  rewrite He. unfold token_parcel. rewrite app_assoc. cbn [token_result dr_payloadStart]. unfold len. rewrite Nat2Z.id.
  apply drop_app_length.
Qed.

Definition a_request (parcel : bytes) : event := KtEvent 1 0 1200 10123 7 0 parcel false BINDER HANDLE 1500 1000 1 77 None.

Lemma interface_token_decoded_witness :
  (decodePipeline (λ _ _ _, None) (λ _ _, None)
     (a_request (token_parcel LayoutO [0; 0; 0; 0] (str "android.os.IServiceManager") [1; 0; 0; 0])) 10123 0 newPairer).1 =
  Some (MkDecode (str "android.os.IServiceManager") None 64 AIDL_O MEDIUM, None).
Proof.
  destruct (interface_token_decoded (λ _ _ _, None) (λ _ _, None)
    (a_request (token_parcel LayoutO [0; 0; 0; 0] (str "android.os.IServiceManager") [1; 0; 0; 0])) 10123 0 newPairer
    LayoutO [0; 0; 0; 0] (str "android.os.IServiceManager") [1; 0; 0; 0]) as [E _];
    [done|by repeat constructor|done| |by rewrite E].
  repeat split; vm_compute; done.
Defined.

(** The arguments of the two older layouts are not found: although the
    pipeline reports such a request as AIDL, and the offset of its arguments,
    the reader of arguments and the guess at their types look at offset 12
    whatever the layout, and make nothing of any request with a name of four
    characters or more. *)
Theorem older_arguments_not_found sig lookup e targetUid now p l words name args n :
  l <> LayoutQ -> 4 <= len name ->
  ke_isReply e = false -> Forall (λ c, c.1 <> ke_code e) SPECIAL_CODES ->
  ke_rawParcel e = token_parcel l words name args -> token_ok l words name ->
  (exists r, (decodePipeline sig lookup e targetUid now p).1 = Some (r, None) /\
     (dr_source r = AIDL_P \/ dr_source r = AIDL_O)) /\
  computeArgStart (ke_rawParcel e) = Some None /\ sniffArgumentTypes (ke_rawParcel e) n = Some [].
Proof.
  intros Hl H4 Hr Hc He Hok. split; [|rewrite He; by apply arguments_not_found].
  exists (token_result l words name). split; [|destruct l; cbn; tauto]. by erewrite token_pipeline.
Qed.

Lemma older_arguments_not_found_witness :
  let e := a_request (token_parcel LayoutP (replicate 8 0) (str "com.example.IThing") [1; 0; 0; 0]) in
  computeArgStart (ke_rawParcel e) = Some None /\ sniffArgumentTypes (ke_rawParcel e) 6 = Some [].
Proof.
  intros e. destruct (older_arguments_not_found (λ _ _ _, None) (λ _ _, None) e 10123 0 newPairer LayoutP (replicate 8 0)
    (str "com.example.IThing") [1; 0; 0; 0] 6) as [_ H]; [done|by vm_compute|done|by repeat constructor|done| |exact H].
  repeat split; vm_compute; done.
Defined.
