(* ===== verification/AppEvents.v ===== *)
(** * Decoded events, their statistics and filters (app)

    The fields of model/BinderEvent.kt that are filled in after the event has
    arrived, parser/CoverageStats.kt, and EventFilter of
    data/EventRepository.kt.  Counters are AtomicLongs. *)

From S2P Require Import Prelude GoLang GoStd Protocol AppWire AppPairer AppParcel AppReply.

(** ParcelArgumentDecoder's result for one argument *)
Inductive ArgStatus := SUCCESS | UNPARSED.
Record DecodedArgument := MkArg {
  da_index : Z; da_declaredType : bytes; da_displayValue : bytes; da_status : ArgStatus; da_errorMessage : option bytes }.

(** A BinderEvent: what came over the wire, and the fields that are set later *)
Record app_event := MkAppEvent {
  ae_event : event;
  ae_interfaceName : option bytes; ae_callerPackage : option bytes; ae_methodName : option bytes;
  ae_toPackage : option bytes; ae_parsedArgs : list DecodedArgument; ae_sniffedSignature : list bytes;
  ae_direction : kt_Direction; ae_decodeSource : option DecodeSource; ae_confidence : option Confidence;
  ae_parsedReply : option ReplyDecodeResult; ae_resolveCandidates : list bytes }.

Abbreviation fresh_event e := (MkAppEvent e None None None None [] [] DIR_UNKNOWN None None None []) (only parsing).

(** The getters of the fields that default to a text *)
Definition interfaceName (e : app_event) : bytes := default (str "Unknown") (ae_interfaceName e).
Abbreviation callerPackage e := (default (str "UID:" ++ Itoa (ke_uid (ae_event e))) (ae_callerPackage e)) (only parsing).
Definition methodName (e : app_event) : bytes := default (code_text (ke_code (ae_event e))) (ae_methodName e).

(** The event with the texts of its getters set, as the store keeps it *)
Definition as_stored (e : app_event) : app_event :=
  MkAppEvent (ae_event e) (Some (interfaceName e)) (Some (callerPackage e)) (Some (methodName e)) (ae_toPackage e)
    (ae_parsedArgs e) (ae_sniffedSignature e) (ae_direction e) (ae_decodeSource e) (ae_confidence e) (ae_parsedReply e)
    (ae_resolveCandidates e).

(** ** Coverage *)

Inductive CoverageBucket := BUCKET_AIDL | BUCKET_HIDL | BUCKET_REPLY | BUCKET_SPECIAL | BUCKET_UNKNOWN.
#[export] Instance CoverageBucket_eq_dec : EqDecision CoverageBucket.
Proof. solve_decision. Defined.

Definition CoverageBucket_of (s : DecodeSource) : CoverageBucket :=
  match s with
  | AIDL_Q | AIDL_P | AIDL_O => BUCKET_AIDL
  | HIDL_DESCRIPTOR => BUCKET_HIDL
  | REPLY => BUCKET_REPLY
  | SPECIAL_CODE => BUCKET_SPECIAL
  | TARGET_REF | RAW_ASCII => BUCKET_UNKNOWN
  end.

Abbreviation bucketOf e := (match ae_decodeSource e with Some s => CoverageBucket_of s | None => BUCKET_UNKNOWN end) (only parsing).

Definition isResolved (e : app_event) : bool :=
  match ae_decodeSource e with
  | None => false
  | Some _ => if decide (bucketOf e = BUCKET_UNKNOWN) then false else negb (bool_decide (interfaceName e = str "Unknown"))
  end.

(** The counters, and the map of them by bucket *)
Record CoverageStats := MkStats { cs_total : Z; cs_resolved : Z; cs_buckets : CoverageBucket -> Z }.
Abbreviation newStats := (MkStats 0 0 (λ _, 0)) (only parsing).

(** onEventAdded with [d = 1], onEventEvicted with [d = -1] *)
Definition count_event (d : Z) (e : app_event) (s : CoverageStats) : CoverageStats :=
  MkStats (s64 (cs_total s + d))
    (if isResolved e then s64 (cs_resolved s + d) else cs_resolved s)
    (λ b, if decide (b = bucketOf e) then s64 (cs_buckets s b + d) else cs_buckets s b).

(** ** Filters *)

(** No bucket, or all of them *)
Abbreviation all_buckets bs := ((length bs =? 0)%nat || (length bs =? 5)%nat) (only parsing).

Section Filter.
(** String.isBlank, and CharSequence.contains with ignoreCase *)
Context (isBlank : bytes -> bool) (containsIgnoreCase : bytes -> bytes -> bool).

(** A set of buckets is a list without duplicates. *)
Record EventFilter := MkFilter {
  ef_interfaceContains : bytes; ef_methodContains : bytes; ef_bucketsAllowed : list CoverageBucket;
  ef_stackModuleContains : bytes }.

Definition filter_isEmpty (f : EventFilter) : bool :=
  isBlank (ef_interfaceContains f) && isBlank (ef_methodContains f) && isBlank (ef_stackModuleContains f) &&
  all_buckets (ef_bucketsAllowed f).

Definition matches (f : EventFilter) (e : app_event) : bool :=
  if filter_isEmpty f then true
  else
    let interfaceMatch := isBlank (ef_interfaceContains f) || containsIgnoreCase (interfaceName e) (ef_interfaceContains f) in
    let methodMatch := isBlank (ef_methodContains f) || containsIgnoreCase (methodName e) (ef_methodContains f) in
    let bucketMatch := all_buckets (ef_bucketsAllowed f) || bool_decide (bucketOf e ∈ ef_bucketsAllowed f) in
    let stackModuleMatch :=
      isBlank (ef_stackModuleContains f) ||
      match ke_stackTrace (ae_event e) with
      | None => false
      | Some st =>
          let hit fr := containsIgnoreCase (kf_module fr) (ef_stackModuleContains f) in
          existsb hit (ks_uFrames st) || existsb hit (ks_kFrames st)
      end in
    interfaceMatch && methodMatch && bucketMatch && stackModuleMatch.
End Filter.

(** The list hides the replies that were paired with a request. *)
Abbreviation listed e := (negb (ke_isReply (ae_event e)) || (ke_pairId (ae_event e) =? 0)) (only parsing).
