(* ===== verification/AppCodec.v ===== *)
(** * Events as rows of the store (app, ColdEventCodec and EventPayloadJson of
    data/ColdEventStore.kt)

    A row has one field per column; a TEXT column may be NULL, the INTEGER
    columns of this table never are.  The nested parts of an event go into one
    text of JSON; org.json is a parameter.  Then reading back what was written. *)

From S2P Require Import Prelude GoLang GoStd Protocol AppWire AppPairer AppParcel AppReply AppTokens AppReplySpec AppEvents.

(** ** Enum constants by name *)

Class KtEnum (T : Type) := {
  enum_values : list T;
  enum_name : T -> bytes;
  enum_by_name x : List.find (λ y, bool_decide (enum_name y = enum_name x)) enum_values = Some x }.

(** enumValueOf, whose exception is caught *)
Definition enumOrNull {T} `{KtEnum T} (name : bytes) : option T :=
  List.find (λ y, bool_decide (enum_name y = name)) enum_values.

Abbreviation enumOr name other := (default other (name ≫= enumOrNull)) (only parsing).

Ltac enum_ok := let x := fresh in intros x; destruct x; vm_compute; reflexivity.

#[export] Instance BinderDev_enum : KtEnum kt_BinderDev.
Proof.
  refine {| enum_values := [DEV_UNKNOWN; BINDER; HWBINDER; VNDBINDER];
    enum_name x := match x with DEV_UNKNOWN => str "UNKNOWN" | BINDER => str "BINDER" | HWBINDER => str "HWBINDER"
                              | VNDBINDER => str "VNDBINDER" end |}. enum_ok.
Defined.

#[export] Instance TargetKind_enum : KtEnum kt_TargetKind.
Proof.
  refine {| enum_values := [KIND_UNKNOWN; HANDLE; PTR];
    enum_name x := match x with KIND_UNKNOWN => str "UNKNOWN" | HANDLE => str "HANDLE" | PTR => str "PTR" end |}. enum_ok.
Defined.

#[export] Instance Direction_enum : KtEnum kt_Direction.
Proof.
  refine {| enum_values := [OUTGOING_REQUEST; INCOMING_REQUEST; OUTGOING_REPLY; INCOMING_REPLY; DIR_UNKNOWN];
    enum_name x := match x with OUTGOING_REQUEST => str "OUTGOING_REQUEST" | INCOMING_REQUEST => str "INCOMING_REQUEST"
                              | OUTGOING_REPLY => str "OUTGOING_REPLY" | INCOMING_REPLY => str "INCOMING_REPLY"
                              | DIR_UNKNOWN => str "UNKNOWN" end |}. enum_ok.
Defined.

#[export] Instance DecodeSource_enum : KtEnum DecodeSource.
Proof.
  refine {| enum_values := [REPLY; SPECIAL_CODE; AIDL_Q; AIDL_P; AIDL_O; HIDL_DESCRIPTOR; RAW_ASCII; TARGET_REF];
    enum_name x := match x with REPLY => str "REPLY" | SPECIAL_CODE => str "SPECIAL_CODE" | AIDL_Q => str "AIDL_Q"
                              | AIDL_P => str "AIDL_P" | AIDL_O => str "AIDL_O" | HIDL_DESCRIPTOR => str "HIDL_DESCRIPTOR"
                              | RAW_ASCII => str "RAW_ASCII" | TARGET_REF => str "TARGET_REF" end |}. enum_ok.
Defined.

#[export] Instance Confidence_enum : KtEnum Confidence.
Proof.
  refine {| enum_values := [HIGH; MEDIUM; LOW];
    enum_name x := match x with HIGH => str "HIGH" | MEDIUM => str "MEDIUM" | LOW => str "LOW" end |}. enum_ok.
Defined.

#[export] Instance StackQuality_enum : KtEnum kt_StackQuality.
Proof.
  refine {| enum_values := [FULL; FP_ONLY; DEGRADED; FAILED];
    enum_name x := match x with FULL => str "FULL" | FP_ONLY => str "FP_ONLY" | DEGRADED => str "DEGRADED"
                              | FAILED => str "FAILED" end |}. enum_ok.
Defined.

#[export] Instance ArgStatus_enum : KtEnum ArgStatus.
Proof.
  refine {| enum_values := [SUCCESS; UNPARSED];
    enum_name x := match x with SUCCESS => str "SUCCESS" | UNPARSED => str "UNPARSED" end |}. enum_ok.
Defined.

(** ** org.json *)

(** A value; [JOther] is one that is written as this token and is none of the
    others. *)
#[warnings="-register-all"]
Inductive json :=
  | JNum (z : Z) | JStr (s : bytes) | JArr (l : list json) | JObj (o : list (bytes * json)) | JNull | JBool (b : bool)
  | JOther (s : bytes).

(** A JSONObject keeps its keys in order of insertion. *)
Fixpoint json_put (k : bytes) (v : json) (o : list (bytes * json)) : list (bytes * json) :=
  match o with
  | [] => [(k, v)]
  | (k', v') :: o => if bool_decide (k = k') then (k, v) :: o else (k', v') :: json_put k v o
  end.

Fixpoint json_get (k : bytes) (o : list (bytes * json)) : option json :=
  match o with [] => None | (k', v) :: o => if bool_decide (k = k') then Some v else json_get k o end.

(** Every key once, every number a Long *)
Fixpoint json_ok (v : json) : bool :=
  match v with
  | JNum z => (- 2 ^ 63 <=? z) && (z <? 2 ^ 63)
  | JArr l => forallb json_ok l
  | JObj o => bool_decide (NoDup o.*1) && forallb (λ '(_, v), json_ok v) o
  | JStr _ | JNull | JBool _ => true
  | JOther _ => false
  end.

(** JSONObject(String), whose JSONException is caught; toString of an object,
    and the conversions of the opt functions *)
Class OrgJson := {
  json_parse : bytes -> option (list (bytes * json));
  json_print : list (bytes * json) -> bytes;
  json_toString : json -> bytes;
  json_toInteger : json -> option Z;
  json_toLong : json -> option Z;
  json_parse_print o : json_ok (JObj o) = true -> json_parse (json_print o) = Some o;
  json_print_nonempty o : json_print o <> [];
  json_toString_str s : json_toString (JStr s) = s;
  json_toInteger_num z : json_toInteger (JNum z) = Some (s32 z);
  json_toLong_num z : json_toLong (JNum z) = Some z }.

Abbreviation strList arr := (json_toString <$> arr) (only parsing).

Section Codec.
Context `{OrgJson}.

Definition optString (o : list (bytes * json)) (k : bytes) : bytes := default [] (json_toString <$> json_get k o).
Definition optInt (o : list (bytes * json)) (k : bytes) : Z := default 0 (json_get k o ≫= json_toInteger).
Definition optLong (o : list (bytes * json)) (k : bytes) : Z := default 0 (json_get k o ≫= json_toLong).
Definition optJSONObject (o : list (bytes * json)) (k : bytes) : option (list (bytes * json)) :=
  match json_get k o with Some (JObj v) => Some v | _ => None end.
Definition optJSONArray (o : list (bytes * json)) (k : bytes) : option (list json) :=
  match json_get k o with Some (JArr v) => Some v | _ => None end.
Definition optStringOrNull (o : list (bytes * json)) (k : bytes) : option bytes := json_toString <$> json_get k o.
(** getJSONObject, or its exception *)
Definition as_object (v : json) : option (list (bytes * json)) := match v with JObj o => Some o | _ => None end.

(** [x?.let { o.put(k, it) }] *)
Definition put_opt (k : bytes) (v : option json) (o : list (bytes * json)) : list (bytes * json) :=
  match v with Some v => json_put k v o | None => o end.

Definition unless_empty {A} (l : list A) (v : json) : option json := match l with [] => None | _ => Some v end.

(** ** EventPayloadJson *)

Definition framesTo (frames : list (@kt_StackFrame bytes)) : json :=
  JArr ((λ f, JObj (json_put (str "o") (JNum (kf_offset f)) (json_put (str "s") (JStr (kf_symbol f))
    (json_put (str "m") (JStr (kf_module f)) (json_put (str "pc") (JNum (kf_pc f)) []))))) <$> frames).

Definition framesFrom (arr : option (list json)) : option (list (@kt_StackFrame bytes)) :=
  match arr with
  | None => Some []
  | Some arr =>
      mapM (λ v, f ← as_object v;
        Some (KtFrame (optLong f (str "pc")) (optString f (str "m")) (optString f (str "s")) (optLong f (str "o")))) arr
  end.

Definition stackTo (st : @kt_StackTrace bytes) : json :=
  JObj (put_opt (str "fail") (unless_empty (ks_failureReason st) (JStr (ks_failureReason st)))
    (json_put (str "u") (framesTo (ks_uFrames st)) (json_put (str "k") (framesTo (ks_kFrames st))
    (json_put (str "truncated") (JNum (ks_truncated st)) (json_put (str "quality") (JStr (enum_name (ks_quality st))) []))))).

Definition stackFrom (o : list (bytes * json)) : option (option (@kt_StackTrace bytes)) :=
  match optJSONObject o (str "stack") with
  | None => Some None
  | Some s =>
      k ← framesFrom (optJSONArray s (str "k"));
      u ← framesFrom (optJSONArray s (str "u"));
      Some (Some (KtTrace (default DEGRADED (enumOrNull (optString s (str "quality")))) (optInt s (str "truncated"))
        k u (optString s (str "fail"))))
  end.

Definition argsTo (args : list DecodedArgument) : json :=
  JArr ((λ a, JObj (put_opt (str "e") (JStr <$> da_errorMessage a) (json_put (str "st") (JStr (enum_name (da_status a)))
    (json_put (str "v") (JStr (da_displayValue a)) (json_put (str "t") (JStr (da_declaredType a))
    (json_put (str "i") (JNum (da_index a)) [])))))) <$> args).

Definition argsFrom (arr : list json) : option (list DecodedArgument) :=
  mapM (λ v, a ← as_object v;
    Some (MkArg (optInt a (str "i")) (optString a (str "t")) (optString a (str "v"))
      (default UNPARSED (enumOrNull (optString a (str "st")))) (optStringOrNull a (str "e")))) arr.

Definition replyTo (r : ReplyDecodeResult) : json :=
  JObj (put_opt (str "hex") (JStr <$> rr_rawHexHint r) (put_opt (str "v") (JStr <$> rr_value r)
    (put_opt (str "ex") (JStr <$> rr_exception r) []))).

Definition replyFrom (o : list (bytes * json)) : ReplyDecodeResult :=
  MkReply (optStringOrNull o (str "ex")) (optStringOrNull o (str "v")) (optStringOrNull o (str "hex")).

(** strList: optString of an element of an array *)

Definition encode (e : app_event) : list (bytes * json) :=
  put_opt (str "cands") (unless_empty (ae_resolveCandidates e) (JArr (JStr <$> ae_resolveCandidates e)))
    (put_opt (str "sniffed") (unless_empty (ae_sniffedSignature e) (JArr (JStr <$> ae_sniffedSignature e)))
    (put_opt (str "reply") (replyTo <$> ae_parsedReply e)
    (put_opt (str "args") (unless_empty (ae_parsedArgs e) (argsTo (ae_parsedArgs e)))
    (put_opt (str "stack") (stackTo <$> ke_stackTrace (ae_event e)) [])))).

Definition mutableInto (o : list (bytes * json)) (e : app_event) : option app_event :=
  args ← match optJSONArray o (str "args") with Some a => argsFrom a | None => Some (ae_parsedArgs e) end;
  Some (MkAppEvent (ae_event e) (ae_interfaceName e) (ae_callerPackage e) (ae_methodName e) (ae_toPackage e) args
    (match optJSONArray o (str "sniffed") with Some a => strList a | None => ae_sniffedSignature e end)
    (ae_direction e) (ae_decodeSource e) (ae_confidence e)
    (match optJSONObject o (str "reply") with Some r => Some (replyFrom r) | None => ae_parsedReply e end)
    (match optJSONArray o (str "cands") with Some a => strList a | None => ae_resolveCandidates e end)).

(** ** ColdEventCodec *)

(** The set keeps the order of insertion. *)
Definition stackModules (e : app_event) : option bytes :=
  st ← ke_stackTrace (ae_event e);
  let add (mods : list bytes) (f : @kt_StackFrame bytes) := if bool_decide (kf_module f = [] \/ kf_module f ∈ mods) then mods else mods ++ [kf_module f] in
  match foldl add (foldl add [] (ks_uFrames st)) (ks_kFrames st) with
  | [] => None
  | mods => Some (Join [10] mods)
  end.

Record row := MkRow {
  COL_SEQ : Z; COL_PAIR_ID : Z; COL_TS : Z; COL_PID : Z; COL_UID : Z; COL_CODE : Z; COL_FLAGS : Z; COL_IS_REPLY : Z;
  COL_TO_PID : Z; COL_TO_UID : Z; COL_TARGET_REF : Z; COL_BINDER_DEV : option bytes; COL_TARGET_KIND : option bytes;
  COL_IFACE : option bytes; COL_METHOD : option bytes; COL_CALLER_PKG : option bytes; COL_TO_PKG : option bytes;
  COL_DIRECTION : option bytes; COL_DECODE_SOURCE : option bytes; COL_CONFIDENCE : option bytes;
  COL_STACK_MODULES : option bytes; COL_RAW_PARCEL : option bytes; COL_PAYLOAD_JSON : option bytes }.

Definition toRow (e : app_event) : row :=
  let w := ae_event e in
  MkRow (ke_id w) (ke_pairId w) (ke_timestamp w) (ke_pid w) (ke_uid w) (ke_code w) (ke_flags w)
    (if ke_isReply w then 1 else 0) (ke_toPid w) (ke_toUid w) (ke_targetRef w)
    (Some (enum_name (ke_binderDev w))) (Some (enum_name (ke_targetKind w)))
    (Some (interfaceName e)) (Some (methodName e)) (Some (callerPackage e)) (ae_toPackage e)
    (Some (enum_name (ae_direction e))) (enum_name <$> ae_decodeSource e) (enum_name <$> ae_confidence e)
    (stackModules e) (Some (ke_rawParcel w)) (Some (json_print (encode e))).

Definition fromRow (r : row) : option app_event :=
  let pj := match COL_PAYLOAD_JSON r with Some [] | None => None | Some s => json_parse s end in
  stack ← match pj with Some o => stackFrom o | None => Some None end;
  let w := KtEvent (COL_SEQ r) (COL_TS r) (s32 (COL_PID r)) (s32 (COL_UID r)) (s32 (COL_CODE r)) (s32 (COL_FLAGS r))
    (default [] (COL_RAW_PARCEL r)) (COL_IS_REPLY r =? 1) (enumOr (COL_BINDER_DEV r) DEV_UNKNOWN)
    (enumOr (COL_TARGET_KIND r) KIND_UNKNOWN) (s32 (COL_TO_PID r)) (s32 (COL_TO_UID r)) (COL_TARGET_REF r)
    (COL_PAIR_ID r) stack in
  let ev := MkAppEvent w (COL_IFACE r) (COL_CALLER_PKG r) (COL_METHOD r) (COL_TO_PKG r) [] []
    (enumOr (COL_DIRECTION r) DIR_UNKNOWN) (COL_DECODE_SOURCE r ≫= enumOrNull) (COL_CONFIDENCE r ≫= enumOrNull)
    None [] in
  match pj with Some o => mutableInto o ev | None => Some ev end.
End Codec.

(** ** What comes back *)

Definition is_int (z : Z) : Prop := - 2 ^ 31 <= z < 2 ^ 31.
Definition is_long (z : Z) : Prop := - 2 ^ 63 <= z < 2 ^ 63.

Lemma s32_int z : is_int z -> s32 z = z.
Proof. apply s32_small_neg. Qed.

(** The fields are what their Kotlin types say. *)
Definition frame_typed (f : @kt_StackFrame bytes) : Prop := is_long (kf_pc f) /\ is_long (kf_offset f).
Record event_typed (e : app_event) : Prop := {
  et_ints : Forall is_int (let w := ae_event e in [ke_pid w; ke_uid w; ke_code w; ke_flags w; ke_toPid w; ke_toUid w]);
  et_stack : forall st, ke_stackTrace (ae_event e) = Some st ->
    is_int (ks_truncated st) /\ Forall frame_typed (ks_kFrames st) /\ Forall frame_typed (ks_uFrames st);
  et_args : Forall (λ a, is_int (da_index a)) (ae_parsedArgs e) }.

Lemma mapM_fmap_back {A B} (f : B -> option A) (g : A -> B) (P : A -> Prop) l :
  (forall x, P x -> f (g x) = Some x) -> Forall P l -> mapM f (g <$> l) = Some l.
Proof. intros Hf. induction 1 as [|x l Hx _ IH]; [done|]. cbn. rewrite Hf by done. cbn. by rewrite IH. Qed.

Lemma json_get_put_same k v o : json_get k (json_put k v o) = Some v.
Proof.
  induction o as [|[k' v'] o IH]; cbn; [by rewrite bool_decide_true|].
  destruct (bool_decide_reflect (k = k')) as [->|Hne]; cbn; [by rewrite bool_decide_true|by rewrite bool_decide_false].
Qed.

Lemma json_get_put_ne k k' v o : k <> k' -> json_get k (json_put k' v o) = json_get k o.
Proof.
  intros Hne. induction o as [|[k2 v2] o IH]; cbn; [by rewrite bool_decide_false|].
  destruct (bool_decide_reflect (k' = k2)) as [->|]; cbn; [by rewrite bool_decide_false|].
  by destruct (bool_decide (k = k2)).
Qed.

(** Reads the fields of an object made by puts. *)
Ltac json_fields :=
  repeat first [rewrite json_get_put_same
               |rewrite json_get_put_ne by (let E := fresh in intros E; vm_compute in E; discriminate E)].

(** Reads the members of an object written out. *)
Lemma json_get_head k v o : json_get k ((k, v) :: o) = Some v.
Proof. cbn. by rewrite bool_decide_true. Qed.
Lemma json_get_tail k k' v o : k <> k' -> json_get k ((k', v) :: o) = json_get k o.
Proof. intros Hne. cbn. by rewrite bool_decide_false. Qed.
Ltac json_members :=
  repeat first [rewrite json_get_head
               |rewrite json_get_tail by (let E := fresh in intros E; vm_compute in E; discriminate E)].

Section Back.
Context `{OrgJson}.

(** What a field that was put reads as *)
Lemma optString_str k s o : json_get k o = Some (JStr s) -> optString o k = s.
Proof. intros E. unfold optString. rewrite E. cbn. apply json_toString_str. Qed.
Lemma optStringOrNull_str k s o : json_get k o = JStr <$> s -> optStringOrNull o k = s.
Proof. intros E. unfold optStringOrNull. rewrite E. destruct s as [s|]; [cbn; by rewrite json_toString_str|done]. Qed.
Lemma optInt_num k z o : json_get k o = Some (JNum z) -> is_int z -> optInt o k = z.
Proof. intros E Hz. unfold optInt. rewrite E. cbn. rewrite json_toInteger_num. by apply s32_int. Qed.
Lemma optLong_num k z o : json_get k o = Some (JNum z) -> optLong o k = z.
Proof. intros E. unfold optLong. rewrite E. cbn. by rewrite json_toLong_num. Qed.

Lemma framesFrom_framesTo fs : framesFrom (match framesTo fs with JArr l => Some l | _ => None end) = Some fs.
Proof.
  unfold framesTo, framesFrom. apply (mapM_fmap_back _ _ (λ _, True)); [|by apply Forall_true].
  intros [pc m s o] _. cbn [as_object mbind option_bind kf_pc kf_module kf_symbol kf_offset].
  erewrite !optLong_num, !optString_str by (json_fields; reflexivity). done.
Qed.

Lemma enumOrNull_name {T} `{KtEnum T} (x : T) : enumOrNull (enum_name x) = Some x.
Proof. apply enum_by_name. Qed.

Lemma enumOr_name {T} `{KtEnum T} (x d : T) : enumOr (Some (enum_name x)) d = x.
Proof. cbn [mbind option_bind]. by rewrite enumOrNull_name. Qed.

Lemma stackFrom_stackTo st o :
  is_int (ks_truncated st) -> json_get (str "stack") o = Some (stackTo st) -> stackFrom o = Some (Some st).
Proof.
  intros Ht Ho. unfold stackFrom, optJSONObject. rewrite Ho. destruct st as [q t k u f]. cbn [stackTo].
  cbn [ks_quality ks_truncated ks_kFrames ks_uFrames ks_failureReason] in *. unfold optJSONArray.
  destruct f as [|c f]; cbn [unless_empty put_opt]; json_fields; rewrite !framesFrom_framesTo; cbn [mbind option_bind];
    erewrite (optString_str (str "quality")), optInt_num by (json_fields; done); rewrite enumOrNull_name; [|by erewrite optString_str by (json_fields; done)].
  unfold optString. by json_fields.
Qed.

Lemma argsFrom_argsTo args : Forall (λ a, is_int (da_index a)) args ->
  match argsTo args with JArr l => argsFrom l | _ => None end = Some args.
Proof.
  unfold argsTo, argsFrom. apply mapM_fmap_back. intros [i t v st e] Hi. cbn [da_index] in Hi.
  cbn [as_object mbind option_bind da_index da_declaredType da_displayValue da_status da_errorMessage].
  destruct e as [e|]; cbn [fmap option_fmap option_map put_opt];
    erewrite optInt_num, !optString_str by (json_fields; done); rewrite enumOrNull_name;
    [rewrite (optStringOrNull_str _ (Some e)) by (by json_fields)|rewrite (optStringOrNull_str _ None) by (by json_fields)]; done.
Qed.

Lemma replyFrom_replyTo r : match replyTo r with JObj o => Some (replyFrom o) | _ => None end = Some r.
Proof.
  destruct r as [ex v h]. unfold replyTo, replyFrom. cbn [rr_exception rr_value rr_rawHexHint].
  rewrite (optStringOrNull_str _ ex), (optStringOrNull_str _ v), (optStringOrNull_str _ h);
    [done|destruct ex, v, h; cbn [fmap option_fmap option_map put_opt]; by json_fields..].
Qed.

Lemma strList_back (l : list bytes) : strList (JStr <$> l) = l.
Proof. induction l as [|s l IH]; [done|]. cbn. by rewrite json_toString_str, IH. Qed.

(** The fields of the payload *)
Lemma encode_fields e :
  json_get (str "stack") (encode e) = stackTo <$> ke_stackTrace (ae_event e) /\
  json_get (str "args") (encode e) = unless_empty (ae_parsedArgs e) (argsTo (ae_parsedArgs e)) /\
  json_get (str "reply") (encode e) = replyTo <$> ae_parsedReply e /\
  json_get (str "sniffed") (encode e) = unless_empty (ae_sniffedSignature e) (JArr (JStr <$> ae_sniffedSignature e)) /\
  json_get (str "cands") (encode e) = unless_empty (ae_resolveCandidates e) (JArr (JStr <$> ae_resolveCandidates e)).
Proof.
  unfold encode. destruct (ke_stackTrace (ae_event e)), (unless_empty (ae_parsedArgs e) _), (ae_parsedReply e),
    (unless_empty (ae_sniffedSignature e) _), (unless_empty (ae_resolveCandidates e) _);
    cbn [fmap option_fmap option_map put_opt]; split_and!; by json_fields.
Qed.

(** ** The payload is an object org.json can write *)

Lemma json_put_keys x k v o : x ∈ (json_put k v o).*1 -> x = k \/ x ∈ o.*1.
Proof.
  induction o as [|[k' v'] o IH]; cbn; [rewrite list_elem_of_singleton; auto|].
  destruct (bool_decide_reflect (k = k')) as [->|]; cbn; rewrite !elem_of_cons; tauto.
Qed.

Lemma json_put_ok k v o : json_ok (JObj o) = true -> json_ok v = true -> json_ok (JObj (json_put k v o)) = true.
Proof.
  cbn [json_ok]. rewrite !andb_true_iff, !bool_decide_eq_true. intros [Hd Ho] Hv.
  induction o as [|[k' v'] o IH]; cbn in *; [split; [apply NoDup_singleton|by rewrite Hv]|].
  apply list.NoDup_cons in Hd as [Hn Hd]. apply andb_true_iff in Ho as [Hv' Ho].
  destruct (bool_decide_reflect (k = k')) as [->|Hne]; cbn.
  - split; [by apply list.NoDup_cons|by rewrite Hv].
  - destruct (IH Hd Ho) as [IH1 IH2]. split; [|by rewrite Hv', IH2]. apply list.NoDup_cons. split; [|done].
    intros Hx. by destruct (json_put_keys _ _ _ _ Hx).
Qed.

Lemma put_opt_ok k v o : json_ok (JObj o) = true -> from_option json_ok true v = true -> json_ok (JObj (put_opt k v o)) = true.
Proof. destruct v as [v|]; [apply json_put_ok|done]. Qed.

Lemma JArr_ok {A} (f : A -> json) l : Forall (λ x, json_ok (f x) = true) l -> json_ok (JArr (f <$> l)) = true.
Proof. cbn [json_ok]. induction 1 as [|x l Hx _ IH]; [done|]. cbn. by rewrite Hx. Qed.

Lemma JNum_ok z : is_long z -> json_ok (JNum z) = true.
Proof. unfold is_long. cbn [json_ok]. lia. Qed.

Lemma unless_empty_ok {A} (l : list A) v : json_ok v = true -> from_option json_ok true (unless_empty l v) = true.
Proof. by destruct l. Qed.

Lemma JStr_opt_ok s : from_option json_ok true (JStr <$> s) = true.
Proof. by destruct s. Qed.

Lemma is_int_long z : is_int z -> is_long z.
Proof. unfold is_int, is_long. lia. Qed.

Create HintDb json.
#[local] Hint Resolve json_put_ok put_opt_ok JArr_ok JNum_ok unless_empty_ok JStr_opt_ok is_int_long : json.

Lemma framesTo_ok fs : Forall frame_typed fs -> json_ok (framesTo fs) = true.
Proof. intros Hf. apply JArr_ok. eapply list.Forall_impl; [exact Hf|]. intros f [Hp Ho]. auto 8 with json. Qed.
#[local] Hint Resolve framesTo_ok : json.

Lemma encode_ok e : event_typed e -> json_ok (JObj (encode e)) = true.
Proof.
  intros [_ Hs Ha]. unfold encode. apply put_opt_ok; [|auto using Forall_true with json].
  apply put_opt_ok; [|auto using Forall_true with json]. apply put_opt_ok; [apply put_opt_ok; [apply put_opt_ok; [done|]|]|].
  - destruct (ke_stackTrace (ae_event e)) as [st|]; [|done]. destruct (Hs st eq_refl) as (Ht & Hk & Hu). cbn [fmap option_fmap option_map from_option].
    unfold stackTo. auto 10 with json.
  - apply unless_empty_ok, JArr_ok. eapply list.Forall_impl; [exact Ha|]. intros a Hi. cbv beta in Hi. auto 10 with json.
  - destruct (ae_parsedReply e) as [r|]; [|done]. cbn [fmap option_fmap option_map from_option]. unfold replyTo. auto 10 with json.
Qed.

(** mutableInto on an event whose own lists are still empty *)
Lemma mutableInto_encode e w i c m tp d ds cf :
  event_typed e ->
  mutableInto (encode e) (MkAppEvent w i c m tp [] [] d ds cf None []) =
  Some (MkAppEvent w i c m tp (ae_parsedArgs e) (ae_sniffedSignature e) d ds cf (ae_parsedReply e) (ae_resolveCandidates e)).
Proof.
  intros [_ _ Ha]. destruct (encode_fields e) as (_ & E2 & E3 & E4 & E5).
  unfold mutableInto, optJSONArray, optJSONObject. rewrite E2, E3, E4, E5. cbn [ae_parsedArgs ae_event ae_interfaceName ae_callerPackage ae_methodName ae_toPackage
    ae_sniffedSignature ae_direction ae_decodeSource ae_confidence ae_parsedReply ae_resolveCandidates].
  assert (match match unless_empty (ae_parsedArgs e) (argsTo (ae_parsedArgs e)) with Some (JArr v) => Some v | _ => None end with
    Some a => argsFrom a | None => Some [] end = Some (ae_parsedArgs e)) as ->.
  { pose proof (argsFrom_argsTo _ Ha) as Hb. by destruct (ae_parsedArgs e). }
  cbn [mbind option_bind]. do 2 f_equal.
  - destruct (ae_sniffedSignature e) as [|x l]; [done|]. apply (strList_back (x :: l)).
  - destruct (ae_parsedReply e) as [r|]; [|done]. apply (replyFrom_replyTo r).
  - destruct (ae_resolveCandidates e) as [|x l]; [done|]. apply (strList_back (x :: l)).
Qed.

(** C20: The store gives back what it was given: an event that was encoded into
    a row and read back is the same event in every field, the stack, the
    arguments and the reply in the payload text included, and its getters give
    the same texts. *)
Theorem stored_event_reads_back e :
  event_typed e ->
  fromRow (toRow e) = Some (as_stored e) /\
  interfaceName (as_stored e) = interfaceName e /\ methodName (as_stored e) = methodName e /\
  callerPackage (as_stored e) = callerPackage e.
Proof.
  intros He. split; [|done]. unfold fromRow, toRow. cbn [COL_PAYLOAD_JSON].
  pose proof (json_parse_print _ (encode_ok _ He)) as Hp. pose proof (json_print_nonempty (encode e)) as Hn.
  destruct (json_print (encode e)) as [|c text]; [done|]. rewrite Hp.
  assert (stackFrom (encode e) = Some (ke_stackTrace (ae_event e))) as ->.
  { destruct (encode_fields e) as (E1 & _).
    destruct (ke_stackTrace (ae_event e)) as [st|] eqn:Est; [|unfold stackFrom, optJSONObject; by rewrite E1].
    apply stackFrom_stackTo; [|exact E1]. by destruct (et_stack _ He st Est). }
  cbn [mbind option_bind]. rewrite mutableInto_encode by done. pose proof (et_ints _ He) as Hi. cbv zeta in Hi.
  repeat (apply list.Forall_cons in Hi as [? Hi]). unfold as_stored. do 2 f_equal.
  - cbn [COL_SEQ COL_PAIR_ID COL_TS COL_PID COL_UID COL_CODE COL_FLAGS COL_IS_REPLY COL_TO_PID COL_TO_UID COL_TARGET_REF
      COL_BINDER_DEV COL_TARGET_KIND COL_RAW_PARCEL]. rewrite !s32_int, !enumOr_name by done.
    destruct (ae_event e). cbn. f_equal. by destruct ke_isReply.
  - apply enumOr_name.
  - cbn [COL_DECODE_SOURCE]. destruct (ae_decodeSource e); [apply enumOrNull_name|done].
  - cbn [COL_CONFIDENCE]. destruct (ae_confidence e); [apply enumOrNull_name|done].
Qed.
End Back.

(** An org.json to read with: texts of one number *)
Fixpoint json_tree (v : json) : gen_tree (Z + bytes + bytes) :=
  match v with
  | JNum z => GenLeaf (inl (inl z))
  | JStr s => GenLeaf (inl (inr s))
  | JOther s => GenLeaf (inr s)
  | JArr l => GenNode 0 (json_tree <$> l)
  | JObj o => GenNode 1 ((λ '(k, v), GenNode 2 [GenLeaf (inr k); json_tree v]) <$> o)
  | JNull => GenNode 3 []
  | JBool b => GenNode (if b then 4 else 5) []
  end.

Fixpoint tree_json (t : gen_tree (Z + bytes + bytes)) : json :=
  match t with
  | GenLeaf (inl (inl z)) => JNum z
  | GenLeaf (inl (inr s)) => JStr s
  | GenLeaf (inr s) => JOther s
  | GenNode 0 l => JArr (tree_json <$> l)
  | GenNode 3 _ => JNull
  | GenNode 4 _ => JBool true
  | GenNode 5 _ => JBool false
  | GenNode _ l => JObj ((λ t, match t with GenNode _ [GenLeaf (inr k); t] => (k, tree_json t) | _ => ([], JArr []) end) <$> l)
  end.

Lemma tree_json_tree : forall v, tree_json (json_tree v) = v.
Proof.
  fix IH 1. intros [z|s|l|o| |[]|s]; cbn [json_tree tree_json]; try done.
  - f_equal. induction l as [|v l IHl]; [done|]. rewrite !fmap_cons, IHl. f_equal. apply IH.
  - f_equal. induction o as [|[k v] o IHo]; [done|]. rewrite !fmap_cons, IHo. f_equal. f_equal. apply IH.
Qed.

#[local] Instance number_json : OrgJson.
Proof.
  refine {| json_parse s := match s with
              | [Z.pos p] => match tree_json <$> decode p with Some (JObj o) => Some o | _ => None end | _ => None end;
            json_print o := [Z.pos (countable.encode (json_tree (JObj o)))];
            json_toString v := match v with JStr s => s | _ => [] end;
            json_toInteger v := match v with JNum z => Some (s32 z) | _ => None end;
            json_toLong v := match v with JNum z => Some z | _ => None end |}; try done.
  intros o _. rewrite decode_encode. cbn [fmap option_fmap option_map]. by rewrite tree_json_tree.
Defined.

Lemma stored_event_reads_back_witness :
  let st := KtTrace FULL 1 [] [KtFrame (-16) (str "/system/lib64/libbinder.so") (str "transact") 24] (str "") in
  let w := KtEvent 3 99 1200 10123 7 0x10 [1; 2; 255] false BINDER HANDLE 1500 1000 1 77 (Some st) in
  let e := MkAppEvent w (Some (str "a.IFoo")) None (Some (str "bar")) (Some (str "system"))
    [MkArg 0 (str "int") (str "5") SUCCESS None; MkArg 1 (str "Foo") (str "") UNPARSED (Some (str "type"))]
    [] OUTGOING_REQUEST (Some AIDL_Q) (Some HIGH) None [str "a"; str "b"] in
  fromRow (toRow e) = Some (MkAppEvent w (Some (str "a.IFoo")) (Some (str "UID:10123")) (Some (str "bar"))
    (Some (str "system")) (ae_parsedArgs e) [] OUTGOING_REQUEST (Some AIDL_Q) (Some HIGH) None [str "a"; str "b"]).
Proof.
  intros st w e. destruct (stored_event_reads_back e) as [-> _]; [|reflexivity]. split.
  - repeat constructor; vm_compute; congruence.
  - intros st' [= <-]. repeat constructor; vm_compute; congruence.
  - repeat constructor; vm_compute; congruence.
Defined.
