(* ===== verification/AppStore.v ===== *)
(** * The store of all events (app, data/ColdEventStore.kt)

    A queue of write requests, a coroutine that works it off in batches, an
    export in pages that runs beside it, and searches.  A table is the list of
    its rows by primary key; what SQLite's statements do is written out on it.
    Whether a statement fails is an argument. *)

From S2P Require Import Prelude GoLang GoStd Protocol AppWire AppPairer AppParcel AppReply AppEvents.

(** ** The table *)

Definition seq_of (e : app_event) : Z := ke_id (ae_event e).

(** INSERT with CONFLICT_REPLACE *)
Fixpoint insert_row (e : app_event) (db : list app_event) : list app_event :=
  match db with
  | [] => [e]
  | x :: rest =>
      if seq_of e <? seq_of x then e :: db
      else if seq_of e =? seq_of x then e :: rest
      else x :: insert_row e rest
  end.

(** SELECT MAX(seq), COUNT of all rows; the maximum of no rows is NULL *)
Definition max_seq (db : list app_event) : Z := match list.last db with Some e => seq_of e | None => -1 end.

(** ** The writer *)

Inductive WriteRequest := Append (event : app_event) | Clear | Export (result : nat).

(** ExportSnapshot *)
Record ExportSnapshot := MkSnapshot { lastId : Z; count : Z }.

Record ColdEventStore := MkStore {
  st_queue : list WriteRequest; st_pending : option WriteRequest; st_writeFailure : bool; st_db : list app_event;
  (** The results that were completed: an exception is [None]. *)
  st_results : list (nat * option ExportSnapshot) }.

Abbreviation newStore := (MkStore [] None false [] []) (only parsing).

Abbreviation BATCH := 500%nat (only parsing).

Abbreviation send r s := (MkStore (st_queue s ++ [r]) (st_pending s) (st_writeFailure s) (st_db s) (st_results s)) (only parsing).

Abbreviation offer event s := (send (Append event) s) (only parsing).
Definition clear (s : ColdEventStore) : ColdEventStore := send Clear s.

(** writeBatch: a transaction, all of it or nothing; a row is kept as the event
    that reading it gives, which toRow and fromRow make of the one written *)
Definition writeBatch (ok : bool) (events db : list app_event) : option (list app_event) :=
  if ok then Some (foldl (λ db e, insert_row e db) db (as_stored <$> events)) else None.

(** Up to [n] more events for the batch, the request that ended it, and the
    rest of the queue *)
Fixpoint fill_batch (n : nat) (queue : list WriteRequest) : list app_event * option WriteRequest * list WriteRequest :=
  match n, queue with
  | S n, Append e :: queue => let '(batch, pending, queue) := fill_batch n queue in (e :: batch, pending, queue)
  | S _, r :: queue => ([], Some r, queue)
  | _, _ => ([], None, queue)
  end.

(** One round of the coroutine's loop, or nothing while the queue is empty *)
Definition writer_round (ok : bool) (s : ColdEventStore) : ColdEventStore :=
  let next :=
    match st_pending s with
    | Some r => Some (r, st_queue s)
    | None => match st_queue s with r :: queue => Some (r, queue) | [] => None end
    end in
  match next with
  | None => s
  | Some (Append e, queue) =>
      let '(batch, pending, queue) := fill_batch (BATCH - 1) queue in
      match writeBatch ok (e :: batch) (st_db s) with
      | Some db => MkStore queue pending (st_writeFailure s) db (st_results s)
      | None => MkStore queue pending true (st_db s) (st_results s)
      end
  | Some (Clear, queue) =>
      if ok then MkStore queue None false [] (st_results s) else MkStore queue None true (st_db s) (st_results s)
  | Some (Export result, queue) =>
      let r := if st_writeFailure s then None
               else if ok then Some (MkSnapshot (max_seq (st_db s)) (Z.of_nat (length (st_db s)))) else None in
      MkStore queue None (st_writeFailure s) (st_db s) (st_results s ++ [(result, r)])
  end.

(** ** Reading *)

(** queryOne: the first row by seq *)
Abbreviation queryOne p db := (List.find p db) (only parsing).

Abbreviation getById id db := (queryOne (λ e, seq_of e =? id) db) (only parsing).

Abbreviation is_pair pairId wantReply :=
  (λ e : app_event, (ke_pairId (ae_event e) =? pairId) && Bool.eqb (ke_isReply (ae_event e)) wantReply) (only parsing).

Definition findPair (pairId : Z) (wantReply : bool) (db : list app_event) : option app_event :=
  queryOne (is_pair pairId wantReply) db.

(** The linked event of an exported one *)
Definition linked_event (upTo : Z) (event : app_event) (db : list app_event) : option app_event :=
  let e := ae_event event in
  if negb (ke_pairId e =? 0) && (ke_isReply e || negb (isOneway (ke_flags e)))
  then queryOne (λ x, (is_pair (ke_pairId e) (negb (ke_isReply e)) x) && (seq_of x <=? upTo)) db else None.

(** The rows of one page *)
Definition export_page (from upTo : Z) (db : list app_event) : list app_event :=
  take BATCH (List.filter (λ e, (from <? seq_of e) && (seq_of e <=? upTo)) db).

(** Each row of a page with its linked event; the k-th query of the export
    sees [view k]. *)
Fixpoint consume_page (view : nat -> list app_event) (k : nat) (upTo : Z) (rows : list app_event)
    : list (app_event * option app_event) :=
  match rows with
  | [] => []
  | e :: rows => (e, linked_event upTo e (view k)) :: consume_page view (S k) upTo rows
  end.

(** The loop of forEachExportEvent: what was consumed; every page but the last
    has a row, so as many rounds as there are rows, and one, are enough. *)
Fixpoint export_loop (fuel : nat) (view : nat -> list app_event) (k : nat) (snapshot : ExportSnapshot) (lastId' count' : Z)
    : list (app_event * option app_event) :=
  match fuel with
  | O => []
  | S fuel =>
      if (lastId' <? lastId snapshot) && (count' <? count snapshot) then
        let rows := export_page lastId' (lastId snapshot) (view k) in
        let consumed := consume_page view (S k) (lastId snapshot) rows in
        match list.last rows with
        | None => []
        | Some e =>
            consumed ++ export_loop fuel view (S k + length rows) snapshot (seq_of e) (count' + Z.of_nat (length rows))
        end
      else []
  end.

(** forEachExportEvent after the snapshot: what was consumed, and the number of
    events, or the exception that they were cleared *)
Definition forEachExportEvent (view : nat -> list app_event) (snapshot : ExportSnapshot)
    : list (app_event * option app_event) * option Z :=
  let consumed := export_loop (S (Z.to_nat (count snapshot))) view 0 snapshot (-1) 0 in
  (consumed, if Z.of_nat (length consumed) =? count snapshot then Some (count snapshot) else None).
