(* ===== verification/AppStoreSpec.v ===== *)
(** * The store of all events: theorems on AppStore *)

From stdpp Require Import sorting.
From S2P Require Import Prelude GoLang GoStd Protocol AppWire AppPairer AppParcel AppReply AppEvents AppStore.

(** ** Runs *)

Inductive store_op := Offer (e : app_event) | RequestClear | RequestExport (t : nat) | WriterRound (ok : bool).

Definition store_step (s : ColdEventStore) (o : store_op) : ColdEventStore :=
  match o with
  | Offer e => offer e s
  | RequestClear => clear s
  | RequestExport t => send (Export t) s
  | WriterRound ok => writer_round ok s
  end.

Definition run_store (l : list store_op) (s : ColdEventStore) : ColdEventStore := foldl store_step s l.

(** What was asked for, in order *)
Definition requests (l : list store_op) : list WriteRequest :=
  omap (λ o, match o with Offer e => Some (Append e) | RequestClear => Some Clear
                        | RequestExport t => Some (Export t) | WriterRound _ => None end) l.

Definition appended (l : list WriteRequest) : list app_event :=
  omap (λ r, match r with Append e => Some (as_stored e) | _ => None end) l.

(** The events since the last clear *)
Definition since_clear (l : list WriteRequest) : list app_event :=
  foldl (λ acc r, match r with Append e => acc ++ [as_stored e] | Clear => [] | Export _ => acc end) [] l.

(** Ids increase from 0, as BinderEvent's counter gives them *)
Definition increasing (l : list app_event) : Prop := StronglySorted (λ a b, seq_of a < seq_of b) l /\ Forall (λ e, 0 <= seq_of e) l.

Definition waiting (s : ColdEventStore) : list WriteRequest := option_list (st_pending s) ++ st_queue s.

Definition snapshot_of (db : list app_event) : ExportSnapshot := MkSnapshot (max_seq db) (Z.of_nat (length db)).

(** ** Lists of requests *)

Lemma since_clear_snoc l r :
  since_clear (l ++ [r]) = match r with Append e => since_clear l ++ [as_stored e] | Clear => [] | Export _ => since_clear l end.
Proof. unfold since_clear. by rewrite foldl_app. Qed.

Lemma since_clear_appends l es : since_clear (l ++ (Append <$> es)) = since_clear l ++ (as_stored <$> es).
Proof.
  revert l. induction es as [|e es IH]; intros l; [by rewrite !app_nil_r|].
  rewrite fmap_cons. change (Append e :: (Append <$> es)) with ([Append e] ++ (Append <$> es)).
  rewrite app_assoc, IH, since_clear_snoc, <- app_assoc. done.
Qed.

Lemma appended_app l l' : appended (l ++ l') = appended l ++ appended l'.
Proof. unfold appended. apply omap_app. Qed.

Lemma appended_appends es : appended (Append <$> es) = as_stored <$> es.
Proof. induction es as [|e es IH]; [done|]. rewrite !fmap_cons, <- IH. done. Qed.

Lemma since_clear_suffix l : exists pre, appended l = pre ++ since_clear l.
Proof.
  induction l as [|r l IH] using rev_ind; [by exists []|]. destruct IH as [pre E].
  rewrite appended_app, since_clear_snoc, E. destruct r as [e| |t]; cbn.
  - exists pre. by rewrite app_assoc.
  - by exists (pre ++ since_clear l).
  - exists pre. by rewrite app_nil_r.
Qed.

Lemma increasing_app l l' :
  increasing (l ++ l') <-> increasing l /\ increasing l' /\ (forall x y, x ∈ l -> y ∈ l' -> seq_of x < seq_of y).
Proof. unfold increasing. rewrite StronglySorted_app, list.Forall_app. tauto. Qed.

Lemma increasing_between l l' e : increasing (l ++ e :: l') -> Forall (λ x, seq_of x < seq_of e) l.
Proof.
  intros (_ & _ & H)%increasing_app. apply list.Forall_forall. intros x Hx. apply H; [done|]. apply elem_of_cons. by left.
Qed.

(** ** The table *)

Lemma insert_row_past db newer e :
  Forall (λ x, seq_of x < seq_of e) db -> insert_row e (db ++ newer) = db ++ insert_row e newer.
Proof.
  induction 1 as [|x db Hx _ IH]; [done|]. cbn [app insert_row].
  destruct (Z.ltb_spec (seq_of e) (seq_of x)); [lia|]. destruct (Z.eqb_spec (seq_of e) (seq_of x)); [lia|]. by rewrite IH.
Qed.

Lemma insert_rows_past db newer es :
  (forall e, e ∈ es -> Forall (λ x, seq_of x < seq_of e) db) ->
  foldl (λ db e, insert_row e db) (db ++ newer) es = db ++ foldl (λ db e, insert_row e db) newer es.
Proof.
  revert newer. induction es as [|e es IH]; intros newer H; [done|]. cbn [foldl].
  rewrite insert_row_past by (apply H; apply elem_of_cons; by left). apply IH. intros x Hx. apply H. apply elem_of_cons; by right.
Qed.

(** Events in order are added at the end. *)
Lemma insert_rows_append db es : increasing (db ++ es) -> foldl (λ db e, insert_row e db) db es = db ++ es.
Proof.
  revert db. induction es as [|e es IH]; intros db H; [by rewrite app_nil_r|]. cbn [foldl].
  pose proof (increasing_between _ _ _ H) as Hb. rewrite <- (app_nil_r db) at 1. rewrite insert_row_past by done.
  cbn [insert_row]. rewrite IH; by rewrite <- app_assoc.
Qed.

Lemma insert_row_elem e db x : x ∈ insert_row e db -> x = e \/ x ∈ db.
Proof.
  induction db as [|y db IH]; cbn [insert_row].
  - intros H%list_elem_of_singleton. by left.
  - destruct (_ <? _); [|destruct (_ =? _)]; rewrite !elem_of_cons; tauto || (intros [?|?]; [tauto|]; destruct IH; tauto).
Qed.

(** ** The writer *)

Lemma fill_batch_spec n : forall q batch p rest, fill_batch n q = (batch, p, rest) -> q = (Append <$> batch) ++ option_list p ++ rest.
Proof.
  induction n as [|n IH]; intros q batch p rest E; cbn [fill_batch] in E; [by injection E as <- <- <-|].
  destruct q as [|[e| |t] q]; [by injection E as <- <- <-| |by injection E as <- <- <-..].
  destruct (fill_batch n q) as [[b p'] r] eqn:Eb. injection E as <- <- <-. cbn. by rewrite (IH _ _ _ _ Eb).
Qed.

(** A result that was completed with a snapshot has the events since the last
    clear before its request. *)
Definition result_ok (reqs : list WriteRequest) (r : nat * option ExportSnapshot) : Prop :=
  forall snap, r.2 = Some snap -> exists pre post, reqs = pre ++ Export r.1 :: post /\ snap = snapshot_of (since_clear pre).

Lemma result_ok_more reqs more r : result_ok reqs r -> result_ok (reqs ++ more) r.
Proof. intros H snap E. destruct (H snap E) as (pre & post & -> & ?). exists pre, (post ++ more). by rewrite <- app_assoc. Qed.

(** [done]: the requests that were worked off *)
Record store_inv (reqs done : list WriteRequest) (s : ColdEventStore) : Prop := {
  si_order : done ++ waiting s = reqs;
  si_db : st_writeFailure s = false -> st_db s = since_clear done;
  si_results : Forall (result_ok reqs) (st_results s) }.

Lemma send_inv reqs done s r : store_inv reqs done s -> store_inv (reqs ++ [r]) done (send r s).
Proof.
  intros [Ho Hd Hr]. split; [|done|].
  - unfold waiting in *. cbn [st_pending st_queue]. by rewrite <- Ho, <- !app_assoc.
  - cbn. eapply list.Forall_impl; [exact Hr|]. intros x. apply result_ok_more.
Qed.

(** The request a round works on *)
Lemma next_request s :
  match match st_pending s with Some r => Some (r, st_queue s)
        | None => match st_queue s with r :: queue => Some (r, queue) | [] => None end end with
  | Some (r, queue) => waiting s = r :: queue
  | None => waiting s = []
  end.
Proof. unfold waiting. destruct (st_pending s); [done|]. by destruct (st_queue s). Qed.

Lemma round_inv reqs done ok s :
  increasing (appended reqs) -> store_inv reqs done s -> exists worked, store_inv reqs (done ++ worked) (writer_round ok s).
Proof.
  intros Hi [Ho Hd Hr]. pose proof (next_request s) as Hn. unfold writer_round.
  destruct (match st_pending s with Some r => _ | None => _ end) as [[r queue]|].
  2:{ exists []. rewrite app_nil_r. by split. }
  rewrite Hn in Ho. destruct r as [e| |t].
  - destruct (fill_batch (BATCH - 1) queue) as [[batch p] rest] eqn:Eb. apply fill_batch_spec in Eb.
    exists (Append <$> e :: batch). rewrite Eb in Ho.
    assert ((done ++ (Append <$> e :: batch)) ++ option_list p ++ rest = reqs) as Ho'
      by (rewrite <- Ho, fmap_cons, <- !app_assoc; done).
    assert (st_writeFailure s = false -> foldl (λ db e, insert_row e db) (st_db s) (as_stored <$> e :: batch) = since_clear (done ++ (Append <$> e :: batch))) as Hw.
    { intros Hf. rewrite (Hd Hf), since_clear_appends. apply insert_rows_append.
      rewrite <- Ho', !appended_app, appended_appends in Hi. apply increasing_app in Hi as (Hi & _ & _).
      destruct (since_clear_suffix done) as [pre E]. rewrite E, <- app_assoc in Hi. by apply increasing_app in Hi as (_ & Hi & _). }
    unfold writeBatch. destruct ok; split; try done.
  - exists [Clear]. destruct ok; split; try done; unfold waiting; cbn [st_pending st_queue option_list app st_writeFailure];
      [by rewrite <- app_assoc| |by rewrite <- app_assoc]. intros _. by rewrite since_clear_snoc.
  - exists [Export t]. split; unfold waiting; cbn [st_pending st_queue option_list app st_writeFailure st_db st_results].
    + by rewrite <- app_assoc.
    + intros Hf. rewrite since_clear_snoc. auto.
    + apply list.Forall_app. split; [done|]. constructor; [|constructor]. intros snap E. cbn [snd fst] in *.
      destruct (st_writeFailure s); [done|]. destruct ok; [|done]. injection E as <-. rewrite Hd by done.
      exists done, queue. done.
Qed.

Lemma run_inv l : forall reqs done s,
  increasing (appended (reqs ++ requests l)) -> store_inv reqs done s ->
  exists worked, store_inv (reqs ++ requests l) (done ++ worked) (run_store l s).
Proof.
  induction l as [|o l IH]; intros reqs done s Hi Hs; [exists []; by rewrite !app_nil_r|]. cbn [run_store foldl].
  assert (exists r worked, requests (o :: l) = r ++ requests l /\ store_inv (reqs ++ r) (done ++ worked) (store_step s o)) as (r & w & E & Hs').
  { destruct o as [e| |t|ok]; cbn [store_step]; [exists [Append e], []|exists [Clear], []|exists [Export t], []|].
    1-3: split; [done|]; rewrite app_nil_r; by apply send_inv.
    destruct (round_inv reqs done ok s) as [w Hw]; [|done|].
    - rewrite appended_app in Hi. by apply increasing_app in Hi as (? & _ & _).
    - exists [], w. rewrite app_nil_r. done. }
  rewrite E in Hi |- *. rewrite app_assoc in Hi |- *. destruct (IH _ _ _ Hi Hs') as [w' H].
  exists (w ++ w'). by rewrite app_assoc.
Qed.

Lemma newStore_inv : store_inv [] [] newStore.
Proof. by split. Qed.

Lemma round_progress ok s : waiting s <> [] -> (length (waiting (writer_round ok s)) < length (waiting s))%nat.
Proof.
  intros Hw. pose proof (next_request s) as Hn. unfold writer_round.
  destruct (match st_pending s with Some r => _ | None => _ end) as [[r queue]|]; [|done]. rewrite Hn.
  destruct r as [e| |t].
  - destruct (fill_batch (BATCH - 1) queue) as [[batch p] rest] eqn:Eb. apply fill_batch_spec in Eb. subst queue.
    unfold writeBatch. destruct ok; unfold waiting; cbn [st_pending st_queue length]; rewrite !length_app, length_fmap; lia.
  - destruct ok; unfold waiting; cbn; lia.
  - unfold waiting. cbn. lia.
Qed.

Lemma round_idle ok s : waiting s = [] -> writer_round ok s = s.
Proof. intros Hw. unfold writer_round, waiting in *. destruct (st_pending s), (st_queue s); done. Qed.

Lemma rounds_drain n : forall s, (length (waiting s) <= n)%nat -> waiting (run_store (replicate n (WriterRound true)) s) = [].
Proof.
  induction n as [|n IH]; intros s Hl; [by apply nil_length_inv; cbn; lia|]. cbn [replicate run_store foldl store_step].
  apply IH. destruct (decide (waiting s = [])) as [E|E].
  - rewrite round_idle by done. rewrite E. cbn. lia.
  - pose proof (round_progress true s E). lia.
Qed.

Lemma round_no_failure s : st_writeFailure s = false -> st_writeFailure (writer_round true s) = false.
Proof.
  intros Hf. unfold writer_round. destruct (match st_pending s with Some r => _ | None => _ end) as [[[e| |t] queue]|]; [|done..].
  by destruct (fill_batch (BATCH - 1) queue) as [[? ?] ?].
Qed.

Lemma run_no_failure l : forall s,
  WriterRound false ∉ l -> st_writeFailure s = false -> st_writeFailure (run_store l s) = false.
Proof.
  induction l as [|o l IH]; intros s Hn Hf; [done|]. rewrite elem_of_cons in Hn. cbn [run_store foldl]. apply IH; [tauto|].
  destruct o as [e| |t|ok]; [done..|]. destruct ok; [by apply round_no_failure|tauto].
Qed.

Lemma requests_app l l' : requests (l ++ l') = requests l ++ requests l'.
Proof. apply omap_app. Qed.

Lemma requests_rounds n ok : requests (replicate n (WriterRound ok)) = [].
Proof. induction n as [|n IH]; [done|]. exact IH. Qed.

(** C12: The store holds what it was given: however events, clears, exports and
    the rounds of the writer follow each other, and whichever writes fail, an
    export that is answered has counted exactly the events offered since the
    last clear before it was asked for, or fails; and once the writer has
    worked off the queue, which takes no more rounds than there are requests,
    the table holds exactly the events since the last clear, in order, unless
    it reports that some could not be stored, which it does only if a write
    has failed. *)
Theorem store_is_complete ops n :
  increasing (appended (requests ops)) ->
  let s := run_store ops newStore in
  Forall (result_ok (requests ops)) (st_results s) /\
  ((length (waiting s) <= n)%nat ->
   let s' := run_store (replicate n (WriterRound true)) s in
   waiting s' = [] /\
   (st_writeFailure s' = false -> st_db s' = since_clear (requests ops)) /\
   (WriterRound false ∉ ops -> st_writeFailure s' = false)).
Proof.
  intros Hi s. destruct (run_inv ops [] [] newStore Hi newStore_inv) as [done [_ _ Hr]].
  split; [exact Hr|]. intros Hn s'.
  assert (s' = run_store (ops ++ replicate n (WriterRound true)) newStore) as Hs' by (unfold s', s, run_store; by rewrite foldl_app).
  pose proof (rounds_drain n s Hn) as Hw. fold s' in Hw. split; [exact Hw|].
  destruct (run_inv (ops ++ replicate n (WriterRound true)) [] [] newStore) as [done' [Ho Hd _]].
  { by rewrite requests_app, requests_rounds, app_nil_r. }
  { exact newStore_inv. }
  rewrite <- Hs', requests_app, requests_rounds, app_nil_r in Ho. rewrite <- Hs' in Hd. rewrite Hw, app_nil_r in Ho. split.
  - intros Hf. rewrite (Hd Hf), Ho. done.
  - intros Hnf. rewrite Hs'. apply run_no_failure; [|done]. rewrite elem_of_app.
    intros [H|H]; [done|]. apply elem_of_replicate in H as [H _]. discriminate H.
Qed.

Definition an_event (id : Z) : app_event :=
  fresh_event (KtEvent id 0 1200 10123 7 0 [] false BINDER HANDLE 1500 1000 1 77 None).

Lemma store_is_complete_witness :
  let ops := [Offer (an_event 0); WriterRound true; RequestClear; Offer (an_event 1); Offer (an_event 2); RequestExport 0;
              WriterRound true; Offer (an_event 3)] in
  st_db (run_store (replicate 4 (WriterRound true)) (run_store ops newStore)) = as_stored <$> [an_event 1; an_event 2; an_event 3].
Proof.
  intros ops. destruct (store_is_complete ops 4) as [_ H].
  - split; repeat constructor; vm_compute; congruence.
  - destruct H as (_ & H & Hf); [vm_compute; lia|]. rewrite H; [reflexivity|]. apply Hf. unfold ops.
    rewrite !elem_of_cons, elem_of_nil. intros H'. repeat destruct H' as [H'|H']; discriminate H' || exact H'.
Defined.

(** ** Exports *)

(** The rows an export is about *)
Definition upto (L : Z) (db : list app_event) : list app_event := List.filter (λ e, seq_of e <=? L) db.

Lemma upto_insert L e db : L < seq_of e -> upto L (insert_row e db) = upto L db.
Proof.
  intros He. unfold upto. induction db as [|x db IH]; cbn [insert_row List.filter].
  - destruct (Z.leb_spec (seq_of e) L); [lia|done].
  - destruct (Z.ltb_spec (seq_of e) (seq_of x)); [|destruct (Z.eqb_spec (seq_of e) (seq_of x)) as [Ex|]]; cbn [List.filter].
    + by destruct (Z.leb_spec (seq_of e) L); [lia|].
    + rewrite <- Ex. destruct (Z.leb_spec (seq_of e) L); [lia|done].
    + by rewrite IH.
Qed.

Lemma upto_inserts L es : forall db,
  Forall (λ e, L < seq_of e) es -> upto L (foldl (λ db e, insert_row e db) db es) = upto L db.
Proof.
  induction es as [|e es IH]; intros db H; [done|]. apply list.Forall_cons in H as [He H]. cbn [foldl].
  rewrite IH by done. by apply upto_insert.
Qed.

(** Work on later events leaves the rows of the export alone, or clears them. *)
Record later_inv (L : Z) (cl : bool) (s : ColdEventStore) : Prop := {
  li_ids : Forall (λ e, L < seq_of e) (appended (waiting s));
  li_clear : cl = false -> Clear ∉ waiting s }.

Lemma later_round L cl ok s :
  later_inv L cl s ->
  later_inv L cl (writer_round ok s) /\
  (upto L (st_db (writer_round ok s)) = upto L (st_db s) \/ cl = true /\ upto L (st_db (writer_round ok s)) = []).
Proof.
  intros [Hi Hc]. pose proof (next_request s) as Hn. unfold writer_round.
  destruct (match st_pending s with Some r => _ | None => _ end) as [[r queue]|]; [|split; [by split|by left]].
  rewrite Hn in Hi, Hc. destruct r as [e| |t].
  - destruct (fill_batch (BATCH - 1) queue) as [[batch p] rest] eqn:Eb. apply fill_batch_spec in Eb. subst queue.
    change (Append e :: (Append <$> batch) ++ option_list p ++ rest)
      with ((Append <$> e :: batch) ++ option_list p ++ rest) in Hi, Hc.
    rewrite appended_app, appended_appends in Hi. apply list.Forall_app in Hi as [Hb Hi].
    assert (forall s', waiting s' = option_list p ++ rest -> later_inv L cl s') as Hl.
    { intros s' E. split; rewrite E; [done|]. intros Hcl Hx. apply (Hc Hcl). rewrite elem_of_app. by right. }
    unfold writeBatch. destruct ok; (split; [by apply Hl|]); left; [|done]. cbn [st_db]. by apply upto_inserts.
  - assert (cl = true) as -> by (destruct cl; [done|]; destruct Hc; [done|]; apply elem_of_cons; by left).
    destruct ok; (split; [by split|]); cbn [st_db]; [by right|by left].
  - split; [|by left]. split; [done|]. intros Hcl Hx. apply (Hc Hcl). apply elem_of_cons. by right.
Qed.

Lemma later_run L cl l : forall s,
  Forall (λ e, L < seq_of e) (appended (requests l)) -> (cl = false -> Clear ∉ requests l) -> later_inv L cl s ->
  later_inv L cl (run_store l s) /\
  (upto L (st_db (run_store l s)) = upto L (st_db s) \/ cl = true /\ upto L (st_db (run_store l s)) = []).
Proof.
  induction l as [|o l IH]; intros s Hf Hc Hs; [split; [done|by left]|]. cbn [run_store foldl].
  assert (forall r, later_inv L cl s -> Forall (λ e, L < seq_of e) (appended [r]) -> (cl = false -> r <> Clear) ->
    later_inv L cl (send r s)) as Hsend.
  { intros r [Hi Hw] Hr Hcr. assert (waiting (send r s) = waiting s ++ [r]) as E by (unfold waiting; cbn; by rewrite app_assoc).
    split; rewrite E; [rewrite appended_app; by apply list.Forall_app|].
    intros Hcl. rewrite elem_of_app, list_elem_of_singleton. intros [Hx|Hx]; [by apply (Hw Hcl)|by apply (Hcr Hcl)]. }
  destruct o as [e| |t|ok]; cbn [requests omap list_omap appended] in Hf, Hc.
  - apply list.Forall_cons in Hf as [He Hf]. apply (IH (offer e s)); [done| |].
    + intros Hcl Hx. apply (Hc Hcl). apply elem_of_cons. by right.
    + apply Hsend; [done|by repeat constructor|done].
  - assert (cl = true) as -> by (destruct cl; [done|]; destruct Hc; [done|]; apply elem_of_cons; by left).
    apply (IH (clear s)); [done..|]. by apply Hsend.
  - apply (IH (send (Export t) s)); [done| |].
    + intros Hcl Hx. apply (Hc Hcl). apply elem_of_cons. by right.
    + by apply Hsend.
  - destruct (later_round L cl ok s Hs) as [Hs' Hu]. destruct (IH (writer_round ok s) Hf Hc Hs') as [Hl Hu'].
    split; [done|]. cbn [store_step]. destruct Hu' as [E|?]; [|by right]. unfold run_store in E. by rewrite E.
Qed.

Lemma filter_upto p L db :
  (forall e, p e = true -> seq_of e <= L) -> List.filter p (upto L db) = List.filter p db.
Proof.
  intros Hp. unfold upto. induction db as [|x db IH]; [done|]. cbn [List.filter].
  destruct (Z.leb_spec (seq_of x) L); cbn [List.filter]; [by rewrite IH|].
  destruct (p x) eqn:E; [apply Hp in E; lia|exact IH].
Qed.

Lemma find_upto p L db : (forall e, p e = true -> seq_of e <= L) -> List.find p (upto L db) = List.find p db.
Proof.
  intros Hp. unfold upto. induction db as [|x db IH]; [done|]. cbn [List.filter List.find].
  destruct (Z.leb_spec (seq_of x) L); cbn [List.find]; [by rewrite IH|].
  destruct (p x) eqn:E; [apply Hp in E; lia|exact IH].
Qed.

Lemma linked_upto L e db : linked_event L e (upto L db) = linked_event L e db.
Proof.
  unfold linked_event. destruct (_ && _); [|done]. apply find_upto. intros x [_ H]%andb_true_iff. lia.
Qed.

Lemma page_upto from L db : export_page from L (upto L db) = export_page from L db.
Proof. unfold export_page. f_equal. apply filter_upto. intros e [_ H]%andb_true_iff. lia. Qed.

Lemma max_seq_snoc l e : max_seq (l ++ [e]) = seq_of e.
Proof. unfold max_seq. by rewrite last_snoc. Qed.

Lemma max_seq_spec l : increasing l -> Forall (λ e, seq_of e <= max_seq l) l /\ -1 <= max_seq l.
Proof.
  destruct l as [|x l _] using rev_ind; [by split|]. intros Hi. rewrite max_seq_snoc.
  pose proof (increasing_between l [] x Hi) as Hb. destruct Hi as [_ Hp]. apply list.Forall_app in Hp as [_ Hp].
  apply list.Forall_cons in Hp as [Hx _]. split; [|lia]. apply list.Forall_app. split; [|by constructor].
  eapply list.Forall_impl; [exact Hb|]. cbn. lia.
Qed.

Lemma filter_all (p : app_event -> bool) l : Forall (λ e, p e = true) l -> List.filter p l = l.
Proof. induction 1 as [|x l Hx _ IH]; [done|]. cbn. by rewrite Hx, IH. Qed.

Lemma filter_none (p : app_event -> bool) l : Forall (λ e, p e = false) l -> List.filter p l = [].
Proof. induction 1 as [|x l Hx _ IH]; [done|]. cbn. by rewrite Hx. Qed.

Lemma past_max done rest : increasing (done ++ rest) -> Forall (λ e, max_seq done < seq_of e) rest.
Proof.
  intros (Hd & Hr & Hb)%increasing_app. destruct done as [|x done _] using rev_ind.
  - eapply list.Forall_impl; [exact (proj2 Hr)|]. intros e He. change (max_seq []) with (-1). cbn in He. lia.
  - rewrite max_seq_snoc. apply list.Forall_forall. intros y Hy. apply Hb; [|done]. apply elem_of_app. right.
    by apply list_elem_of_singleton.
Qed.

(** A page of what is left *)
Lemma page_rest done rest :
  increasing (done ++ rest) -> export_page (max_seq done) (max_seq (done ++ rest)) (done ++ rest) = take BATCH rest.
Proof.
  intros Hi. unfold export_page. f_equal. pose proof (max_seq_spec _ Hi) as [Hm _]. pose proof (past_max _ _ Hi) as Hlt.
  apply increasing_app in Hi as (Hd & _ & _). pose proof (max_seq_spec _ Hd) as [Hmd _].
  apply list.Forall_app in Hm as [_ Hmr]. rewrite List.filter_app, filter_none, filter_all; [done|..].
  - apply list.Forall_forall. intros x Hx. rewrite list.Forall_forall in Hlt, Hmr. specialize (Hlt x Hx). specialize (Hmr x Hx).
    cbn in *. apply andb_true_iff. lia.
  - eapply list.Forall_impl; [exact Hmd|]. intros x Hx. cbn in *. apply andb_false_iff. left. lia.
Qed.

Section Exporting.
Context (evs : list app_event) (view : nat -> list app_event).
Hypothesis evs_increasing : increasing evs.
Hypothesis view_upto : forall k, upto (max_seq evs) (view k) = evs \/ upto (max_seq evs) (view k) = [].

Lemma consume_page_fst k L rows : (consume_page view k L rows).*1 = rows.
Proof. revert k. induction rows as [|e rows IH]; intros k; [done|]. cbn. by rewrite IH. Qed.

Lemma consume_page_same k rows :
  (forall j, upto (max_seq evs) (view j) = evs) ->
  consume_page view k (max_seq evs) rows = (λ e, (e, linked_event (max_seq evs) e evs)) <$> rows.
Proof.
  intros Hv. revert k. induction rows as [|e rows IH]; intros k; [done|]. cbn [consume_page]. rewrite fmap_cons, IH.
  by rewrite <- linked_upto, Hv.
Qed.

(** The loop exports a prefix of what is left, and all of it if nothing is
    cleared. *)
Lemma export_loop_spec fuel : forall k done rest,
  evs = done ++ rest -> (length rest < fuel)%nat ->
  let c := export_loop fuel view k (snapshot_of evs) (max_seq done) (Z.of_nat (length done)) in
  c.*1 `prefix_of` rest /\
  ((forall j, upto (max_seq evs) (view j) = evs) -> c = (λ e, (e, linked_event (max_seq evs) e evs)) <$> rest).
Proof.
  induction fuel as [|fuel IH]; intros k done rest E Hl; [lia|]. cbn [export_loop snapshot_of lastId count].
  destruct rest as [|r rest].
  { rewrite app_nil_r in E. subst done. rewrite Z.ltb_irrefl. cbn [andb]. by split. }
  pose proof evs_increasing as Hi. rewrite E in Hi. pose proof (past_max _ _ Hi) as Hp. pose proof (max_seq_spec _ Hi) as [Hm _].
  assert ((max_seq done <? max_seq evs) && (Z.of_nat (length done) <? Z.of_nat (length evs)) = true) as ->.
  { assert (length evs = length done + S (length rest))%nat by (by rewrite E, length_app).
    apply list.Forall_cons in Hp as [Hp _]. apply list.Forall_app in Hm as [_ Hm].
    apply list.Forall_cons in Hm as [Hm _]. rewrite <- E in Hm. rewrite andb_true_iff, !Z.ltb_lt. lia. }
  rewrite <- page_upto. destruct (view_upto k) as [Hv|Hv]; rewrite Hv.
  2:{ split; [apply prefix_nil|]. intros Ha. rewrite Ha in Hv. rewrite Hv in E. by destruct done. }
  assert (export_page (max_seq done) (max_seq evs) evs = take BATCH (r :: rest)) as -> by (rewrite E; by apply page_rest).
  set (rows := take BATCH (r :: rest)). assert (exists e rows', rows = rows' ++ [e]) as (e & rows' & Er).
  { destruct (exists_last (l := rows)) as (rows' & e & Ee); [done|]. eauto. }
  rewrite Er, last_snoc, <- Er.
  assert (evs = (done ++ rows) ++ drop BATCH (r :: rest)) as E' by (rewrite <- app_assoc; unfold rows; by rewrite take_drop).
  assert (seq_of e = max_seq (done ++ rows)) as -> by (rewrite Er, app_assoc, max_seq_snoc; done).
  destruct (IH (S k + length rows)%nat (done ++ rows) (drop BATCH (r :: rest)) E') as [H1 H2].
  { rewrite length_drop. cbn [length] in *. lia. }
  rewrite length_app, Nat2Z.inj_add in H1, H2. split.
  - rewrite fmap_app, consume_page_fst. rewrite <- (take_drop BATCH (r :: rest)). fold rows. by apply prefix_app.
  - intros Ha. rewrite H2, consume_page_same by done. rewrite <- fmap_app. unfold rows. by rewrite take_drop.
Qed.
End Exporting.

(** A round that answers an export with a snapshot *)
Lemma answered reqs done ok s t snap :
  store_inv reqs done s -> st_results (writer_round ok s) = st_results s ++ [(t, Some snap)] ->
  reqs = done ++ Export t :: waiting (writer_round ok s) /\
  st_db (writer_round ok s) = since_clear done /\ snap = snapshot_of (since_clear done).
Proof.
  intros [Ho Hd _] Hr. pose proof (next_request s) as Hn. unfold writer_round in *.
  assert (forall x, st_results s <> st_results s ++ [x]) as Hne.
  { intros x Hx. apply (f_equal length) in Hx. rewrite length_app in Hx. cbn in Hx. lia. }
  destruct (match st_pending s with Some r => _ | None => _ end) as [[r queue]|]; [|by apply Hne in Hr].
  destruct r as [e| |t'].
  - destruct (fill_batch (BATCH - 1) queue) as [[batch p] rest]. unfold writeBatch in Hr.
    destruct ok; cbn [st_results] in Hr; by apply Hne in Hr.
  - destruct ok; cbn [st_results] in Hr; by apply Hne in Hr.
  - cbn [st_results] in Hr. apply app_inv_head in Hr. injection Hr as -> Hs. unfold waiting at 1. cbn [st_pending st_queue st_db option_list app].
    rewrite Hn in Ho. destruct (st_writeFailure s); [done|]. destruct ok; [|done]. injection Hs as <-. rewrite Hd by done. by split_and!.
Qed.

(** C13: An export has everything or fails: when the writer has answered an
    export, then whatever is offered, cleared and written while the export
    goes through its pages, what it consumes is a prefix, in order, of the
    events offered since the last clear before it was asked for; if it reports
    success, it is all of them, each exactly once; and if no clear is asked for
    after it, it does report success, each event comes with its other half
    among the exported events, and no later event is exported. *)
Theorem export_all_or_nothing ops ok t snap later :
  let s := run_store ops newStore in
  let s1 := writer_round ok s in
  st_results s1 = st_results s ++ [(t, Some snap)] ->
  (forall k, increasing (appended (requests ops ++ requests (later k)))) ->
  let view k := st_db (run_store (later k) s1) in
  let '(consumed, r) := forEachExportEvent view snap in
  exists pre post, requests ops = pre ++ Export t :: post /\
    consumed.*1 `prefix_of` since_clear pre /\
    (forall n, r = Some n -> consumed.*1 = since_clear pre /\ n = Z.of_nat (length (since_clear pre))) /\
    (Clear ∉ post -> (forall k, Clear ∉ requests (later k)) ->
     r = Some (Z.of_nat (length (since_clear pre))) /\
     consumed = (λ e, (e, linked_event (max_seq (since_clear pre)) e (since_clear pre))) <$> since_clear pre).
Proof.
  intros s s1 Hres Hinc view.
  assert (increasing (appended (requests ops))) as Hi0
    by (specialize (Hinc 0%nat); rewrite appended_app in Hinc; by apply increasing_app in Hinc as (? & _ & _)).
  destruct (run_inv ops [] [] newStore Hi0 newStore_inv) as [done Hinv].
  destruct (answered _ _ _ _ _ _ Hinv Hres) as (Hreq & Hdb & ->). cbn [app] in Hreq, Hdb |- *.
  fold s in Hreq, Hdb. fold s1 in Hreq, Hdb.
  set (evs := since_clear done) in *. assert (increasing (appended done ++ appended (waiting s1))) as Hi1
    by (rewrite Hreq, appended_app in Hi0; exact Hi0).
  destruct (since_clear_suffix done) as [old Eold]. fold evs in Eold. rewrite Eold, <- app_assoc in Hi1.
  apply increasing_app in Hi1 as (_ & Hi1 & _). pose proof (past_max _ _ Hi1) as Hwait.
  pose proof (proj1 (proj1 (increasing_app _ _) Hi1)) as Hevs.
  assert (upto (max_seq evs) evs = evs) as Hall
    by (apply filter_all; eapply list.Forall_impl; [exact (proj1 (max_seq_spec _ Hevs))|]; cbn; lia).
  assert (forall cl k, (cl = false -> Clear ∉ waiting s1) -> (cl = false -> Clear ∉ requests (later k)) ->
    upto (max_seq evs) (view k) = evs \/ cl = true /\ upto (max_seq evs) (view k) = []) as Hview.
  { intros cl k Hc1 Hc2. destruct (later_run (max_seq evs) cl (later k) s1) as [_ Hu]; [|done|by split|].
    - specialize (Hinc k). rewrite Hreq, appended_app, appended_app, Eold, <- !app_assoc in Hinc.
      apply increasing_app in Hinc as (_ & Hinc & _). pose proof (past_max _ _ Hinc) as Hp.
      by apply list.Forall_app in Hp as [_ Hp].
    - by rewrite Hdb, Hall in Hu. }
  destruct (export_loop_spec evs view Hevs) with (fuel := S (length evs)) (k := 0%nat) (done := @nil app_event) (rest := evs)
    as [H1 H2]; [|done|lia|].
  { intros k. destruct (Hview true k) as [?|[_ ?]]; [done..|by left|by right]. }
  unfold forEachExportEvent. cbn [snapshot_of count]. rewrite Nat2Z.id. fold (snapshot_of evs).
  change (max_seq []) with (-1) in H1, H2. change (Z.of_nat (length [])) with 0 in H1, H2.
  set (consumed := export_loop _ view 0 _ _ _) in *. exists done, (waiting s1). split; [done|]. split; [done|]. split.
  - intros n En. destruct (Z.eqb_spec (Z.of_nat (length consumed)) (Z.of_nat (length evs))) as [Hlen|]; [|done].
    injection En as <-. split; [|done]. apply prefix_length_eq; [done|]. rewrite length_fmap. fold evs. lia.
  - intros Hc1 Hc2. rewrite H2; [|intros k; by destruct (Hview false k) as [?|[? _]]]. rewrite length_fmap, Z.eqb_refl. done.
Qed.

(** A request and its reply are exported together while a third event arrives. *)
Lemma export_all_or_nothing_witness :
  let a := an_event 0 in
  let b := fresh_event (KtEvent 1 0 1500 1000 0 0 [] true BINDER KIND_UNKNOWN 1200 10123 0 77 None) in
  let ops := [Offer a; Offer b; RequestExport 5; WriterRound true] in
  let later k := if (k =? 0)%nat then [] else [Offer (an_event 2); WriterRound true] in
  let view k := st_db (run_store (later k) (writer_round true (run_store ops newStore))) in
  forEachExportEvent view (MkSnapshot 1 2) =
    ([(as_stored a, Some (as_stored b)); (as_stored b, Some (as_stored a))], Some 2).
Proof.
  intros a b ops later view.
  pose proof (export_all_or_nothing ops true 5 (MkSnapshot 1 2) later) as H. cbv zeta in H. fold view in H.
  destruct (forEachExportEvent view (MkSnapshot 1 2)) as [consumed r].
  destruct H as (pre & post & Hreq & _ & _ & H); [reflexivity| |].
  - intros [|k]; split; repeat constructor; vm_compute; congruence.
  - assert (pre = [Append a; Append b] /\ post = []) as [-> ->].
    { destruct pre as [|? [|? [|? [|? ?]]]]; try discriminate Hreq. injection Hreq as -> -> ->. done. }
    destruct H as [-> ->]; [apply not_elem_of_nil| |reflexivity].
    intros [|k]; [apply not_elem_of_nil|]. cbn. rewrite list_elem_of_singleton. discriminate.
Defined.
