(* ===== verification/AppQuery.v ===== *)
(** * Searching the store (app, query of data/ColdEventStore.kt)

    The filter becomes a WHERE clause, which is a predicate on rows here; what
    SQLite's LIKE does is written out.  Pages go from the newest row to older
    ones.  Then: searching page by page finds what the filter of the list in
    memory finds. *)

From Stdlib Require Import Btauto.
From stdpp Require Import sorting.
From S2P Require Import Prelude GoLang GoStd Protocol AppWire AppPairer AppParcel AppReply AppTokens AppEvents AppCodec AppStore AppStoreSpec.

(** ** SQLite's LIKE *)

(** The characters of a text; a surrogate pair is one. *)
Fixpoint characters (s : bytes) : list Z :=
  match s with
  | [] => []
  | a :: s' =>
      match s' with
      | b :: s'' =>
          if (0xd800 <=? a) && (a <? 0xdc00) && (0xdc00 <=? b) && (b <? 0xe000)
          then (0x10000 + (a - 0xd800) * 0x400 + (b - 0xdc00)) :: characters s''
          else a :: characters s'
      | [] => [a]
      end
  end.

Definition lower (c : Z) : Z := if (65 <=? c) && (c <=? 90) then c + 32 else c.

(** LIKE without ESCAPE: [%] is any text, [_] any character, and the case of
    ASCII letters is ignored. *)
Fixpoint like (pattern text : list Z) : bool :=
  match pattern with
  | [] => match text with [] => true | _ => false end
  | c :: pattern =>
      if c =? 37 then (fix any (t : list Z) := like pattern t || match t with [] => false | _ :: t => any t end) text
      else match text with
           | [] => false
           | x :: text => ((c =? 95) || (lower c =? lower x)) && like pattern text
           end
  end.

(** String.replace of a character *)
Definition replace_char (c : Z) (by_ s : bytes) : bytes := flat_map (λ x, if x =? c then by_ else [x]) s.

Definition escapeLike (s : bytes) : bytes := replace_char 95 [92; 95] (replace_char 37 [92; 37] (replace_char 92 [92; 92] s)).

(** [column LIKE '%s%']; NULL is not. *)
Definition column_like (column : option bytes) (s : bytes) : bool :=
  match column with
  | Some v => like (characters ([37] ++ escapeLike s ++ [37])) (characters v)
  | None => false
  end.

(** The condition on decode_source, or none *)
Definition bucketClause (buckets : list CoverageBucket) : option (app_event -> bool) :=
  if all_buckets buckets then None
  else
    let sources := List.filter (λ s, bool_decide (CoverageBucket_of s ∈ buckets)) enum_values in
    let inList e := match ae_decodeSource e with
                    | Some s => existsb (λ s', bool_decide (enum_name s = enum_name s')) sources | None => false end in
    let isNull e := bool_decide (ae_decodeSource e = None) in
    Some (λ e, inList e || bool_decide (BUCKET_UNKNOWN ∈ buckets) && isNull e).

Section Query.
Context (isBlank : bytes -> bool).

Definition where_clause (filter : EventFilter) (cursor : option Z) (e : app_event) : bool :=
  listed e &&
  (isBlank (ef_interfaceContains filter) || column_like (Some (interfaceName e)) (ef_interfaceContains filter)) &&
  (isBlank (ef_methodContains filter) || column_like (Some (methodName e)) (ef_methodContains filter)) &&
  (isBlank (ef_stackModuleContains filter) || column_like (stackModules e) (ef_stackModuleContains filter)) &&
  match bucketClause (ef_bucketsAllowed filter) with Some clause => clause e | None => true end &&
  match cursor with Some c => seq_of e <? c | None => true end.

(** A page and the next cursor; a negative limit and the last element of no
    rows are exceptions. *)
Definition query (filter : EventFilter) (cursor : option Z) (pageSize : Z) (db : list app_event)
    : option (list app_event * option Z) :=
  if pageSize <? 0 then None
  else
    let rows := take (Z.to_nat pageSize) (List.filter (where_clause filter cursor) (reverse db)) in
    if Z.of_nat (length rows) <? pageSize then Some (rows, None)
    else e ← list.last rows; Some (rows, Some (seq_of e)).
End Query.

(** ** LIKE on plain texts *)

(** Printable ASCII that is not special to LIKE or the escaping *)
Definition plain (c : Z) : Prop := 32 <= c < 127 /\ c <> 37 /\ c <> 95 /\ c <> 92.

Lemma HasPrefix_plain p t : Forall plain p -> like (p ++ [37]) t = HasPrefix (lower <$> t) (lower <$> p).
Proof.
  revert t. induction p as [|c p IH]; intros t Hp.
  - assert (HasPrefix (lower <$> t) (lower <$> []) = true) as -> by (by destruct (lower <$> t)).
    cbn. induction t as [|x t IHt]; [done|]. exact IHt.
  - apply list.Forall_cons in Hp as [(_ & Hc & Hu & _) Hp]. cbn [app like].
    destruct (Z.eqb_spec c 37) as [|_]; [done|]. destruct (Z.eqb_spec c 95) as [|_]; [done|].
    destruct t as [|x t]; [done|]. rewrite !fmap_cons. cbn [HasPrefix orb]. rewrite IH by done. by rewrite Z.eqb_sym.
Qed.

Lemma like_contains p t : Forall plain p -> like ([37] ++ p ++ [37]) t = contains (lower <$> t) (lower <$> p).
Proof.
  intros Hp. cbn [app like Z.eqb Pos.eqb]. induction t as [|x t IH].
  - rewrite HasPrefix_plain by done. done.
  - rewrite HasPrefix_plain, IH by done. done.
Qed.

Lemma characters_plain p : Forall (λ c, c < 0xd800) p -> characters p = p.
Proof.
  induction 1 as [|c p Hc Hp IH]; [done|]. cbn [characters]. destruct p as [|b p]; [done|].
  destruct (Z.leb_spec 0xd800 c); [lia|]. cbn [andb]. by rewrite IH.
Qed.

Lemma lower_big x c : 0xd800 <= x -> plain c -> (lower x =? lower c) = false.
Proof. unfold plain, lower. intros. destruct (_ && _) eqn:?, ((65 <=? c) && _) eqn:?; lia. Qed.

Lemma characters_cons2 a b t :
  characters (a :: b :: t) =
  if (0xd800 <=? a) && (a <? 0xdc00) && (0xdc00 <=? b) && (b <? 0xe000)
  then (0x10000 + (a - 0xd800) * 0x400 + (b - 0xdc00)) :: characters t else a :: characters (b :: t).
Proof. done. Qed.

(** Surrogate pairs match no plain text. *)
Lemma characters_prefix p : forall t, Forall plain p ->
  HasPrefix (lower <$> characters t) (lower <$> p) = HasPrefix (lower <$> t) (lower <$> p).
Proof.
  induction p as [|c p IH]; intros t Hp; [by destruct (characters t), t|]. apply list.Forall_cons in Hp as [Hc Hp].
  destruct t as [|a [|b t]]; [done|done|]. rewrite characters_cons2.
  destruct ((0xd800 <=? a) && (a <? 0xdc00) && (0xdc00 <=? b) && (b <? 0xe000)) eqn:E.
  - rewrite !fmap_cons. cbn [HasPrefix]. rewrite !lower_big by (done || lia). done.
  - rewrite (fmap_cons lower a (characters _)), (fmap_cons lower a (b :: t)), (fmap_cons lower c). cbn [HasPrefix]. f_equal.
    by apply IH.
Qed.

Lemma characters_contains p c : Forall plain (c :: p) -> forall t,
  contains (lower <$> characters t) (lower <$> c :: p) = contains (lower <$> t) (lower <$> c :: p).
Proof.
  intros Hp. pose proof Hp as [Hc _]%list.Forall_cons. intros t.
  induction t as [t IH] using (induction_ltof1 _ length). destruct t as [|a [|b t]]; [done|done|].
  pose proof (characters_prefix (c :: p) (a :: b :: t) Hp) as Hpre. rewrite characters_cons2 in *.
  destruct ((0xd800 <=? a) && (a <? 0xdc00) && (0xdc00 <=? b) && (b <? 0xe000)) eqn:E.
  - rewrite !(fmap_cons lower) in *. cbn [contains HasPrefix]. rewrite !lower_big by (done || lia). cbn [andb orb].
    rewrite <- (fmap_cons lower c p). apply IH. unfold ltof. cbn. lia.
  - rewrite (fmap_cons lower a (characters _)) in *. rewrite (fmap_cons lower a (b :: t)) in *. cbn [contains].
    rewrite Hpre. f_equal. apply (IH (b :: t)). unfold ltof. cbn. lia.
Qed.

Lemma replace_char_none c by_ s : Forall (λ x, x <> c) s -> replace_char c by_ s = s.
Proof.
  unfold replace_char. induction 1 as [|x s Hx _ IH]; [done|]. cbn. destruct (Z.eqb_spec x c); [done|]. cbn. by f_equal.
Qed.

Lemma escapeLike_plain p : Forall plain p -> escapeLike p = p.
Proof.
  intros Hp. unfold escapeLike. rewrite (replace_char_none 92), (replace_char_none 37), (replace_char_none 95); [done|..];
    (eapply list.Forall_impl; [exact Hp|]; unfold plain; cbn; lia).
Qed.

Lemma column_like_plain p v : Forall plain p -> p <> [] -> column_like (Some v) p = contains (lower <$> v) (lower <$> p).
Proof.
  intros Hp Hne. unfold column_like. rewrite escapeLike_plain by done. rewrite characters_plain.
  - rewrite like_contains by done. destruct p as [|c p]; [done|]. by apply characters_contains.
  - apply list.Forall_app. split; [by repeat constructor|]. apply list.Forall_app.
    split; [|by repeat constructor]. eapply list.Forall_impl; [exact Hp|]. unfold plain. cbn. lia.
Qed.

(** ** The modules of a stack *)

Lemma HasPrefix_sep x a b p : Forall (λ c, c <> x) p -> p <> [] -> HasPrefix (a ++ x :: b) p = HasPrefix a p.
Proof.
  revert p. induction a as [|y a IH]; intros p Hp Hne; (destruct p as [|c p]; [done|]);
    apply list.Forall_cons in Hp as [Hc Hp]; cbn [app HasPrefix].
  - destruct (Z.eqb_spec x c); [by subst|done].
  - f_equal. destruct p as [|d p]; [by destruct a|]. by apply IH.
Qed.

Lemma contains_sep x a b p : Forall (λ c, c <> x) p -> p <> [] ->
  contains (a ++ x :: b) p = contains a p || contains b p.
Proof.
  intros Hp Hne. induction a as [|y a IH].
  - pose proof (HasPrefix_sep x [] b p Hp Hne) as E. cbn [app contains] in *. rewrite E. by destruct (HasPrefix [] p).
  - pose proof (HasPrefix_sep x (y :: a) b p Hp Hne) as E. cbn [app contains] in *. rewrite E, IH. by rewrite orb_assoc.
Qed.

Lemma lower_newline c : plain c -> lower c <> 10.
Proof. unfold plain, lower. destruct (_ && _) eqn:?; lia. Qed.

(** A text without line breaks is in the joined modules if it is in one. *)
Lemma contains_joined p mods : Forall plain p -> p <> [] -> mods <> [] ->
  contains (lower <$> Join [10] mods) (lower <$> p) = existsb (λ m, contains (lower <$> m) (lower <$> p)) mods.
Proof.
  intros Hp Hne. induction mods as [|m mods IH]; [done|]. intros _. destruct mods as [|m' mods].
  - cbn [Join existsb]. by rewrite orb_false_r.
  - change (Join [10] (m :: m' :: mods)) with (m ++ 10 :: Join [10] (m' :: mods)). rewrite fmap_app, fmap_cons.
    rewrite contains_sep; [rewrite IH by done; done| |by destruct p].
    apply Forall_fmap. eapply list.Forall_impl; [exact Hp|]. intros c. apply lower_newline.
Qed.

Lemma contains_nil p : p <> [] -> contains [] p = false.
Proof. by destruct p. Qed.

(** Adding the modules of frames to a set, each once *)
Lemma existsb_modules (P : bytes -> bool) (fs : list (@kt_StackFrame bytes)) : P [] = false -> forall mods,
  existsb P (foldl (λ mods f, if bool_decide (kf_module f = [] \/ kf_module f ∈ mods) then mods else mods ++ [kf_module f]) mods fs) =
  existsb P mods || existsb (λ f, P (kf_module f)) fs.
Proof.
  intros Hnil. induction fs as [|f fs IH]; intros mods; [by rewrite orb_false_r|]. cbn [foldl existsb]. rewrite IH.
  case_bool_decide as Hb; [|rewrite existsb_app; cbn; by rewrite orb_false_r, orb_assoc].
  destruct (P (kf_module f)) eqn:Ep; [|done]. destruct Hb as [Hb|Hb]; [by rewrite Hb, Hnil in Ep|].
  assert (existsb P mods = true) as -> by (apply existsb_exists; exists (kf_module f); by rewrite <- list_elem_of_In). done.
Qed.

Lemma column_like_modules p e : Forall plain p -> p <> [] ->
  column_like (stackModules e) p =
  match ke_stackTrace (ae_event e) with
  | None => false
  | Some st => existsb (λ f, contains (lower <$> kf_module f) (lower <$> p)) (ks_uFrames st ++ ks_kFrames st)
  end.
Proof.
  intros Hp Hne. unfold stackModules. destruct (ke_stackTrace (ae_event e)) as [st|]; [|done].
  cbn [mbind option_bind]. rewrite <- foldl_app.
  pose proof (existsb_modules (λ m : list Z, contains (lower <$> m) (lower <$> p)) (ks_uFrames st ++ ks_kFrames st)) as Hm.
  specialize (Hm ltac:(apply contains_nil; by destruct p) []). cbn [existsb orb] in Hm.
  destruct (foldl _ [] _) as [|m mods]; [exact Hm|]. rewrite column_like_plain, contains_joined by done. exact Hm.
Qed.

(** ** A search is the filter of the list *)

(** Not one of the four characters outside ASCII that equal an ASCII letter
    when case is ignored *)
Definition folds (c : Z) : Prop := c <> 0x130 /\ c <> 0x131 /\ c <> 0x17f /\ c <> 0x212a.

(** What the filter relies on of Kotlin's strings *)
Class KtStrings (isBlank : bytes -> bool) (containsIgnoreCase : bytes -> bytes -> bool) : Prop := {
  isBlank_nil : isBlank [] = true;
  containsIgnoreCase_plain t p : Forall plain p -> Forall folds t ->
    containsIgnoreCase t p = contains (lower <$> t) (lower <$> p) }.

Definition plain_filter (f : EventFilter) : Prop :=
  Forall plain (ef_interfaceContains f) /\ Forall plain (ef_methodContains f) /\ Forall plain (ef_stackModuleContains f).

Definition event_folds (e : app_event) : Prop :=
  Forall folds (interfaceName e) /\ Forall folds (methodName e) /\
  forall st, ke_stackTrace (ae_event e) = Some st -> Forall (λ f, Forall folds (kf_module f)) (ks_uFrames st ++ ks_kFrames st).

Lemma bucketClause_matches bs e :
  match bucketClause bs with Some clause => clause e | None => true end =
  all_buckets bs || bool_decide (bucketOf e ∈ bs).
Proof.
  unfold bucketClause. destruct (all_buckets bs); [done|]. cbn [orb]. idtac.
  destruct (ae_decodeSource e) as [s|]; [|by rewrite (bool_decide_true (None = None)), andb_true_r].
  rewrite (bool_decide_false (Some s = None)), andb_false_r, orb_false_r by done. apply Bool.eq_iff_eq_true.
  rewrite bool_decide_eq_true, existsb_exists. split.
  - intros (s' & Hin & Hs). apply filter_In in Hin as [_ Hin]. apply bool_decide_eq_true in Hs, Hin.
    assert (s = s') as -> by (pose proof (enumOrNull_name s) as E1; rewrite Hs, enumOrNull_name in E1; congruence). done.
  - intros Hin. exists s. split; [|by apply bool_decide_true]. apply filter_In. split; [|by apply bool_decide_true].
    destruct s; cbn; tauto.
Qed.

Section Search.
Context (isBlank : bytes -> bool) (containsIgnoreCase : bytes -> bytes -> bool) `{!KtStrings isBlank containsIgnoreCase}.

Abbreviation shown := (λ f e, listed e && matches isBlank containsIgnoreCase f e).

Lemma blank_or_like p v : Forall plain p -> Forall folds v ->
  isBlank p || column_like (Some v) p = isBlank p || containsIgnoreCase v p.
Proof.
  intros Hp Hv. destruct (isBlank p) eqn:Eb; [done|].
  rewrite containsIgnoreCase_plain, column_like_plain by (try done; intros ->; by rewrite isBlank_nil in Eb). done.
Qed.

Lemma where_clause_matches f e : plain_filter f -> event_folds e -> where_clause isBlank f None e = shown f e.
Proof.
  intros (H1 & H2 & H3) (E1 & E2 & E3). unfold where_clause, matches.
  rewrite andb_true_r, !blank_or_like, bucketClause_matches by done.
  assert (isBlank (ef_stackModuleContains f) || column_like (stackModules e) (ef_stackModuleContains f) =
    isBlank (ef_stackModuleContains f) || match ke_stackTrace (ae_event e) with None => false
      | Some st => existsb (λ fr, containsIgnoreCase (kf_module fr) (ef_stackModuleContains f)) (ks_uFrames st ++ ks_kFrames st) end) as ->.
  { destruct (isBlank (ef_stackModuleContains f)) eqn:Eb; [done|]. cbn [orb].
    rewrite column_like_modules by (try done; intros Enil; by rewrite Enil, isBlank_nil in Eb).
    destruct (ke_stackTrace (ae_event e)) as [st|]; [|done]. specialize (E3 st eq_refl).
    induction E3 as [|fr l Hf _ IH]; [done|]. cbn [existsb]. rewrite IH. f_equal. symmetry.
    by apply (containsIgnoreCase_plain (isBlank := isBlank)). }
  unfold filter_isEmpty. destruct (ke_stackTrace (ae_event e)) as [st|]; rewrite ?existsb_app;
    destruct (isBlank (ef_interfaceContains f)), (isBlank (ef_methodContains f)), (isBlank (ef_stackModuleContains f)),
      (all_buckets (ef_bucketsAllowed f)); cbn [andb orb]; btauto.
Qed.

(** ** Pages *)

(** Searching on from one page to the next, until there is none; the k-th
    search sees [view k] *)
Fixpoint pages (fuel : nat) (f : EventFilter) (pageSize : Z) (view : nat -> list app_event) (k : nat) (cursor : option Z)
    : option (list app_event) :=
  match fuel with
  | O => None
  | S fuel =>
      '(rows, next) ← query isBlank f cursor pageSize (view k);
      match next with
      | None => Some rows
      | Some c => rest ← pages fuel f pageSize view (S k) (Some c); Some (rows ++ rest)
      end
  end.

Definition descending (l : list app_event) : Prop := StronglySorted (λ a b, seq_of b < seq_of a) l.

(** What is left after the last row of a page *)
Lemma rest_after l e l' : descending (l ++ e :: l') -> List.filter (λ x, seq_of x <? seq_of e) (l ++ e :: l') = l'.
Proof.
  intros (Hc & _ & Hel)%StronglySorted_app. rewrite List.filter_app, filter_none.
  - cbn [app List.filter]. rewrite Z.ltb_irrefl. apply filter_all. inversion Hel as [|? ? _ Hf]; subst.
    eapply list.Forall_impl; [exact Hf|]. intros x. cbn. lia.
  - apply list.Forall_forall. intros x Hx. specialize (Hc x e Hx (list_elem_of_here _ _)). cbn in Hc. lia.
Qed.

Lemma descending_filter p l : descending l -> descending (List.filter p l).
Proof.
  unfold descending. induction 1 as [|x l Hl IH Hf]; [constructor|]. cbn. destruct (p x); [|done]. constructor; [done|].
  apply list.Forall_forall. intros y Hy. apply list_elem_of_In, filter_In in Hy as [Hy _].
  rewrite list.Forall_forall in Hf. apply Hf. by apply list_elem_of_In.
Qed.

Lemma increasing_reverse l : increasing l -> descending (reverse l).
Proof.
  induction l as [|x l IH]; [constructor|]. intros Hi. change (x :: l) with ([x] ++ l) in Hi.
  apply increasing_app in Hi as (_ & Hl & Hc). rewrite reverse_cons. unfold descending. apply StronglySorted_app.
  split; [|split; [by apply IH|repeat constructor]]. intros a b Ha Hb. apply list_elem_of_singleton in Hb as ->.
  apply Hc; [by apply list_elem_of_singleton|by apply elem_of_reverse].
Qed.

(** One search, from what is left to find *)
Lemma query_rest f cursor n db left :
  0 < n -> List.filter (where_clause isBlank f cursor) (reverse db) = left ->
  query isBlank f cursor n db =
  Some (if Z.of_nat (length left) <? n then (left, None)
        else (take (Z.to_nat n) left, seq_of <$> list.last (take (Z.to_nat n) left))).
Proof.
  intros Hn El. unfold query. destruct (Z.ltb_spec n 0) as [|_]; [lia|]. rewrite El, length_take.
  destruct (Z.ltb_spec (Z.of_nat (length left)) n).
  - rewrite take_ge by lia. by destruct (Z.ltb_spec (Z.of_nat (Z.to_nat n `min` length left)) n); [|lia].
  - destruct (Z.ltb_spec (Z.of_nat (Z.to_nat n `min` length left)) n); [lia|].
    destruct (list.last (take (Z.to_nat n) left)) eqn:E; [done|]. apply last_None in E. apply (f_equal length) in E.
    rewrite length_take in E. cbn in E. lia.
Qed.

(** The rows a cursor leaves are those of the table when the search began. *)
Lemma where_upto f c L db :
  c <= L -> List.filter (where_clause isBlank f (Some c)) (reverse db) =
  List.filter (λ e, seq_of e <? c) (List.filter (where_clause isBlank f None) (reverse (upto L db))).
Proof.
  intros Hc. unfold upto. induction db as [|x db IH]; [done|]. rewrite reverse_cons, List.filter_app, IH. cbn [List.filter].
  assert (where_clause isBlank f (Some c) x = (seq_of x <? c) && where_clause isBlank f None x) as ->
    by (unfold where_clause; btauto).
  destruct (Z.leb_spec (seq_of x) L); [|destruct (Z.ltb_spec (seq_of x) c); [lia|]; by rewrite app_nil_r].
  rewrite reverse_cons, !List.filter_app. f_equal. cbn [List.filter].
  destruct (where_clause isBlank f None x); cbn [List.filter]; by destruct (seq_of x <? c).
Qed.

Section Paging.
Context (f : EventFilter) (n : Z) (db : list app_event) (view : nat -> list app_event).
Context (n_pos : 0 < n) (db_increasing : increasing db) (view_upto : forall k, upto (max_seq db) (view k) = db).

Abbreviation found := (List.filter (where_clause isBlank f None) (reverse db)).

Lemma found_after k done e left :
  found = done ++ e :: left -> List.filter (where_clause isBlank f (Some (seq_of e))) (reverse (view k)) = left.
Proof.
  intros E. rewrite (where_upto f (seq_of e) (max_seq db)), view_upto.
  - rewrite E. apply rest_after. rewrite <- E. by apply descending_filter, increasing_reverse.
  - assert (e ∈ found) as He by (rewrite E; apply elem_of_app; right; apply list_elem_of_here).
    apply list_elem_of_In, filter_In in He as [He _]. apply list_elem_of_In in He. rewrite elem_of_reverse in He.
    destruct (max_seq_spec _ db_increasing) as [Hm _]. rewrite list.Forall_forall in Hm. exact (Hm e He).
Qed.

Lemma pages_rest fuel : forall k cursor done left,
  found = done ++ left -> List.filter (where_clause isBlank f cursor) (reverse (view k)) = left ->
  (length left < fuel)%nat -> pages fuel f n view k cursor = Some left.
Proof.
  induction fuel as [|fuel IH]; intros k cursor done left E El Hl; [lia|]. cbn [pages].
  rewrite (query_rest f cursor n _ left) by done. cbn [mbind option_bind].
  destruct (Z.ltb_spec (Z.of_nat (length left)) n) as [|Hge]; [done|].
  destruct (exists_last (l := take (Z.to_nat n) left)) as (rows & e & Er).
  { intros Enil. apply (f_equal length) in Enil. rewrite length_take in Enil. cbn in Enil. lia. }
  rewrite Er, last_snoc. cbn [fmap option_fmap option_map].
  assert (found = (done ++ rows) ++ e :: drop (Z.to_nat n) left) as E'
    by (rewrite E; rewrite <- (take_drop (Z.to_nat n) left) at 1; by rewrite Er, <- !app_assoc).
  rewrite (IH (S k) _ (done ++ rows ++ [e]) (drop (Z.to_nat n) left)).
  - cbn [mbind option_bind]. by rewrite <- Er, take_drop.
  - rewrite E', <- !app_assoc. done.
  - by apply (found_after _ (done ++ rows)).
  - rewrite length_drop. lia.
Qed.
End Paging.
End Search.

(** C19: Searching the store finds what the list would show: going from page to
    page, from the newest event on, while later events are being stored, ends,
    and gives exactly the stored events the list's filter lets through, each
    once, newest first; for texts to search for in printable ASCII without the
    characters that are special to LIKE. *)
Theorem search_finds_filtered isBlank containsIgnoreCase `{!KtStrings isBlank containsIgnoreCase} f n db view :
  0 < n -> increasing db -> view 0%nat = db -> (forall k, upto (max_seq db) (view k) = db) ->
  plain_filter f -> Forall event_folds db ->
  pages isBlank (S (length db)) f n view 0 None =
  Some (List.filter (λ e, listed e && matches isBlank containsIgnoreCase f e) (reverse db)).
Proof.
  intros Hn Hi H0 Hv Hf He.
  assert (List.filter (where_clause isBlank f None) (reverse db) =
    List.filter (λ e, listed e && matches isBlank containsIgnoreCase f e) (reverse db)) as <-.
  { apply List.filter_ext_in. intros e Hin. apply list_elem_of_In in Hin. rewrite elem_of_reverse in Hin.
    rewrite list.Forall_forall in He. by apply where_clause_matches, He. }
  apply (pages_rest isBlank f n db view Hn Hi Hv _ _ _ []); [done|by rewrite H0|].
  assert (length (List.filter (where_clause isBlank f None) (reverse db)) <= length (reverse db))%nat by apply List.filter_length_le.
  rewrite length_reverse in *. lia.
Qed.

(** A text for Kotlin's functions *)
#[local] Instance ascii_strings : KtStrings (forallb (Z.eqb 32)) (λ t p, contains (lower <$> t) (lower <$> p)).
Proof. by split. Qed.

(** Pages of one event; the two events with the module are found while a fifth
    event is stored. *)
Lemma search_finds_filtered_witness :
  let st := KtTrace FULL 0 [] [KtFrame 16 (str "/lib/libgui.so") [] 0; KtFrame 16 (str "/lib/libc.so") [] 0] [] in
  let ev id stack name := MkAppEvent (KtEvent id 0 1 2 3 0 [] false BINDER HANDLE 4 5 1 0 stack)
    (Some (str name)) (Some []) (Some (str "m")) None [] [] DIR_UNKNOWN (Some AIDL_Q) (Some HIGH) None [] in
  let db := [ev 0 (Some st) "a.IFoo"; ev 1 None "a.IFoo"; ev 2 (Some st) "a.IBar"; ev 4 (Some st) "x.ifoo"] in
  let view k := if (k =? 0)%nat then db else db ++ [ev 7 (Some st) "a.IFoo"] in
  let f := MkFilter (str "IFOO") [] [BUCKET_AIDL] (str "LibGUI") in
  pages (forallb (Z.eqb 32)) 5 f 1 view 0 None = Some [ev 4 (Some st) "x.ifoo"; ev 0 (Some st) "a.IFoo"].
Proof.
  intros st ev db view f.
  assert (forall c, 32 <= c < 127 -> folds c) as Hfo by (unfold folds; lia).
  assert (forall s, forallb (λ c, (32 <=? c) && (c <? 127)) s = true -> Forall folds s) as Hs.
  { intros s Hb. rewrite forallb_forall in Hb. apply list.Forall_forall. intros c Hc. apply Hfo.
    apply list_elem_of_In, Hb in Hc. lia. }
  refine (search_finds_filtered _ _ f 1 db view _ _ eq_refl _ _ _).
  - lia.
  - split; repeat constructor; vm_compute; congruence.
  - intros [|k]; reflexivity.
  - split_and!; repeat constructor; done.
  - assert (forall id (b : bool) name, forallb (λ c, (32 <=? c) && (c <? 127)) (str name) = true ->
      event_folds (ev id (if b then Some st else None) name)) as He.
    { intros id b name Hn. split_and!; [by apply Hs|by apply Hs|].
      intros st'. destruct b; [|done]. intros [= <-]. do 2 (apply list.Forall_cons; split; [by apply Hs|]). constructor. }
    do 4 (apply list.Forall_cons; split; [(apply (He _ true) || apply (He _ false)); reflexivity|]). constructor.
Defined.

(** ** Texts with the characters LIKE treats specially *)

Lemma like_backslash p : forall t, 92 ∈ p -> like p t = true -> 92 ∈ t.
Proof.
  induction p as [|c p IH]; intros t Hin; [by apply elem_of_nil in Hin|]. cbn [like].
  destruct (Z.eqb_spec c 37) as [->|_].
  - apply elem_of_cons in Hin as [|Hin]; [done|]. induction t as [|x t IHt]; rewrite orb_true_iff.
    + intros [?|?]; [by apply (IH [])|done].
    + intros [?|?]; [by apply (IH (x :: t))|apply elem_of_cons; right; by apply IHt].
  - destruct t as [|x t]; [done|]. rewrite andb_true_iff. intros [Hc Hl]. apply elem_of_cons.
    apply elem_of_cons in Hin as [<-|Hin]; [left|right; by apply IH]. cbn [Z.eqb Pos.eqb orb] in Hc.
    change (lower 92) with 92 in Hc. unfold lower in Hc. destruct ((65 <=? x) && (x <=? 90)) eqn:?; lia.
Qed.

Lemma characters_backslash t : 92 ∈ characters t <-> 92 ∈ t.
Proof.
  induction t as [t IH] using (induction_ltof1 _ length). destruct t as [|a [|b t]]; [done|done|]. rewrite characters_cons2.
  destruct (_ && _) eqn:E; rewrite !elem_of_cons.
  - rewrite IH by (unfold ltof; cbn; lia). assert (forall x, 0xd800 <= x -> 92 <> x) as Hb by lia.
    split; [|intros [?|[?|?]]; [lia|lia|auto]]. intros [?|?]; [lia|auto].
  - rewrite IH by (unfold ltof; cbn; lia). by rewrite elem_of_cons.
Qed.

Lemma replace_char_in x c by_ s :
  x ∈ replace_char c by_ s <-> (x <> c /\ x ∈ s) \/ (c ∈ s /\ x ∈ by_).
Proof.
  unfold replace_char. induction s as [|y s IH]; cbn [flat_map]; [set_solver|].
  rewrite elem_of_app, IH. destruct (Z.eqb_spec y c) as [->|]; set_solver.
Qed.

(** The escaping of a search text has no ESCAPE clause: a text with an
    underscore, a percent sign or a backslash in it matches no name that has no
    backslash, though the name may well contain the text. *)
Theorem escaped_text_not_found p v :
  95 ∈ p \/ 37 ∈ p \/ 92 ∈ p -> 92 ∉ v -> column_like (Some v) p = false.
Proof.
  intros Hp Hv. apply not_true_iff_false. intros Hl. apply Hv. apply characters_backslash.
  apply (like_backslash _ _) in Hl; [done|]. apply characters_backslash. rewrite !elem_of_app. right; left.
  unfold escapeLike. rewrite !replace_char_in. set_solver.
Qed.

Lemma escaped_text_not_found_witness :
  column_like (Some (str "a.I_Foo")) (str "I_F") = false /\ contains (str "a.I_Foo") (str "I_F") = true.
Proof.
  split; [|reflexivity]. apply escaped_text_not_found; [left; repeat constructor|].
  intros H. repeat (apply elem_of_cons in H as [H|H]; [discriminate H|]). by apply elem_of_nil in H.
Defined.
