(* ===== verification/AppRepository.v ===== *)
(** * The repository of events (app, data/EventRepository.kt)

    parseEvent fills in what the app shows of an event, addEvent counts it and
    puts it into the window and the store, and snapshots of the window are
    published for the list.  What the other services say, and the clock, are
    arguments of each call, since they change with time.  The bodies of the
    synchronized blocks are steps; publishing happens outside of them, in steps
    of its own. *)

From S2P Require Import Prelude AppBuffer GoLang GoStd Protocol AppWire AppPairer AppParcel AppReply AppEvents AppStore.

Abbreviation WINDOW_SIZE := 5000%Z (only parsing).
Abbreviation DEFAULT_PAGE_SIZE := 100%Z (only parsing).

(** What the services answer, while one event is added: AppRepository's two
    lookups, InterfaceIndex, ServiceManagerCatalog (a descriptor and a method
    name), MethodResolver and ParcelArgumentDecoder, both of which may throw,
    BinderHandleResolver; and the clock: when a reply is matched, when a
    request is recorded, and when the rate is updated *)
Record services := MkServices {
  getPackageNameForUid : Z -> option bytes;
  getPackageOrSystemNameForUid : Z -> option bytes;
  lookupOrdered : bytes -> list bytes;
  lookupByCode : Z -> option bytes -> option (bytes * bytes);
  getMethodSignature : bytes -> Z -> list bytes -> option (option MethodSignature);
  decodeArguments : bytes -> list bytes -> option (list DecodedArgument);
  handleLookup : Z -> Z -> option bytes;
  matchedAt : Z; recordedAt : Z; countedAt : Z }.

Record EventRepository := MkRepository {
  coverageStats : CoverageStats; buffer : @BoundedEventBuffer app_event; totalCount : Z;
  coverage : CoverageStats; filteredEvents : list app_event; currentFilter : EventFilter; eventCount : Z;
  lastSecondCount : Z; lastSecondTime : Z; eventRate : Z; dirty : bool; targetUid : Z; targetPackage : option bytes;
  coldStore : option ColdEventStore;
  (** ParcelParser: currentTargetUid and the pairer *)
  currentTargetUid : Z; pairer : TransactionPairer;
  (** The emitSnapshot calls that have read the filter and the window, and have
      not published yet *)
  emitting : list (EventFilter * list app_event) }.

Abbreviation no_filter := (MkFilter [] [] [BUCKET_AIDL; BUCKET_HIDL; BUCKET_REPLY; BUCKET_SPECIAL; BUCKET_UNKNOWN] []) (only parsing).

Abbreviation newRepository now := (MkRepository newStats (MkBuffer WINDOW_SIZE [] ∅ false []) 0 newStats [] no_filter 0 0 now 0 false 0 None
    (Some newStore) 0 newPairer []) (only parsing).

(** ** Parsing *)

(** LinkedHashSet.add *)
Definition set_add (out : list bytes) (x : bytes) : list bytes := if bool_decide (x ∈ out) then out else out ++ [x].

Definition computeResolveCandidates (sv : services) (targetPackage senderPkg : option bytes) (interfaceName : option bytes)
    : list bytes :=
  let add_nonempty out x := if bool_decide (x = []) then out else set_add out x in
  let out := match targetPackage with Some p => add_nonempty [] p | None => [] end in
  let out :=
    match interfaceName with
    | Some (c :: n) => foldl add_nonempty out (lookupOrdered sv (c :: n))
    | _ => out
    end in
  match senderPkg with Some p => add_nonempty out p | None => out end.

(** The end of parseEvent, by source: the interface's and the method's name, the
    arguments and the guess at their types; [None] is an exception. *)
Definition name_event (sv : services) (w : event) (toPackage : option bytes) (candidates : list bytes) (result : DecodeResult)
    : option (bytes * bytes * list DecodedArgument * list bytes) :=
  let code := code_text (ke_code w) in
  let hinted := (dr_interfaceName result, default code (dr_methodHint result), @nil DecodedArgument, @nil bytes) in
  match dr_source result with
  | REPLY | SPECIAL_CODE | HIDL_DESCRIPTOR | RAW_ASCII => Some hinted
  | TARGET_REF =>
      match lookupByCode sv (ke_code w) toPackage with
      | Some (descriptor, method) => Some (descriptor, method, [], [])
      | None => Some hinted
      end
  | AIDL_Q | AIDL_P | AIDL_O =>
      match getMethodSignature sv (dr_interfaceName result) (ke_code w) candidates with
      | None => None
      | Some None =>
          match sniffArgumentTypes (ke_rawParcel w) 6 with
          | None => None
          | Some sniffed =>
              let m := match sniffed with [] => code | _ => code ++ str " (" ++ Join (str ", ") sniffed ++ str ")" end in
              Some (dr_interfaceName result, m, [], sniffed)
          end
      | Some (Some s) =>
          match sg_paramTypes s with
          | [] => Some (dr_interfaceName result, sg_methodName s, [], [])
          | ts =>
              match decodeArguments sv (ke_rawParcel w) ts with
              | None => None
              | Some args => Some (dr_interfaceName result, sg_methodName s, args, [])
              end
          end
      end
  end.

(** parseEvent on an event as it came over the wire *)
Definition parseEvent (sv : services) (targetUid : Z) (targetPackage : option bytes) (currentTargetUid : Z)
    (w : event) (p : TransactionPairer) : option app_event * TransactionPairer :=
  let senderPkg := getPackageNameForUid sv (ke_uid w) in
  let toPackage :=
    if negb (ke_isReply w) && negb (ke_toUid w =? 0) then getPackageOrSystemNameForUid sv (ke_toUid w) else None in
  let direction := Direction_infer (ke_uid w) (ke_toUid w) (ke_isReply w) targetUid in
  match decodePipeline (getMethodSignature sv) (handleLookup sv) w currentTargetUid (matchedAt sv) p with
  | (None, p) => (None, p)
  | (Some (result, reply), p) =>
      let candidates := computeResolveCandidates sv targetPackage senderPkg (Some (dr_interfaceName result)) in
      ('(i, m, args, sniffed) ← name_event sv w toPackage candidates result;
       Some (MkAppEvent w (Some i) senderPkg (Some m) toPackage args sniffed direction (Some (dr_source result))
               (Some (dr_confidence result)) reply candidates), p)
  end.

(** What TransactionPairer sees of a parsed event *)
Definition parsed_of (e : app_event) : parsed_event :=
  MkParsed (ae_event e) (interfaceName e) (methodName e) (ae_resolveCandidates e) (ae_decodeSource e).

(** ** Adding and clearing *)

(** The block of addEvent; Int counters wrap. *)
Definition add_locked (sv : services) (e : app_event) (r : EventRepository) : EventRepository :=
  let total := s32 (totalCount r + 1) in
  let n := s32 (lastSecondCount r + 1) in
  let tick := 1000 <=? countedAt sv - lastSecondTime r in
  MkRepository (count_event 1 e (coverageStats r)) (add seq_of e (buffer r)) total
    (coverage r) (filteredEvents r) (currentFilter r) total
    (if tick then 0 else n) (if tick then countedAt sv else lastSecondTime r) (if tick then n else eventRate r)
    (dirty r) (targetUid r) (targetPackage r) ((λ s, offer e s) <$> coldStore r) (currentTargetUid r) (pairer r) (emitting r).

Abbreviation set_pairer p r :=
  (MkRepository (coverageStats r) (buffer r) (totalCount r) (coverage r) (filteredEvents r) (currentFilter r) (eventCount r)
    (lastSecondCount r) (lastSecondTime r) (eventRate r) (dirty r) (targetUid r) (targetPackage r) (coldStore r)
    (currentTargetUid r) p (emitting r)) (only parsing).

Abbreviation set_dirty b r := (MkRepository (coverageStats r) (buffer r) (totalCount r) (coverage r) (filteredEvents r) (currentFilter r) (eventCount r)
    (lastSecondCount r) (lastSecondTime r) (eventRate r) b (targetUid r) (targetPackage r) (coldStore r)
    (currentTargetUid r) (pairer r) (emitting r)) (only parsing).

(** addEvent up to its last statement, which is [set_dirty true]: the event as
    it was parsed, or an exception, and the repository *)
Definition addEvent (sv : services) (w : event) (r : EventRepository) : option app_event * EventRepository :=
  match parseEvent sv (targetUid r) (targetPackage r) (currentTargetUid r) w (pairer r) with
  | (None, p) => (None, set_pairer p r)
  | (Some e, p) =>
      let p := recordRequest (parsed_of e) (currentTargetUid r) (recordedAt sv) p in
      (Some e, add_locked sv e (set_pairer p r))
  end.

Definition setTargetUid (lookup : Z -> option bytes) (uid : Z) (r : EventRepository) : EventRepository :=
  MkRepository (coverageStats r) (buffer r) (totalCount r) (coverage r) (filteredEvents r) (currentFilter r) (eventCount r)
    (lastSecondCount r) (lastSecondTime r) (eventRate r) (dirty r) uid (if 0 <? uid then lookup uid else None) (coldStore r)
    uid (pairer r) (emitting r).

(** The block of clearEvents, and what follows it *)
Definition clear_locked (now : Z) (r : EventRepository) : EventRepository :=
  MkRepository newStats (AppBuffer.clear (buffer r)) 0 (coverage r) (filteredEvents r) (currentFilter r) 0
    0 now 0 (dirty r) (targetUid r) (targetPackage r) (AppStore.clear <$> coldStore r) (currentTargetUid r) (pairer r) (emitting r).

Definition clear_published (r : EventRepository) : EventRepository :=
  MkRepository (coverageStats r) (buffer r) (totalCount r) newStats [] (currentFilter r) (eventCount r)
    (lastSecondCount r) (lastSecondTime r) (eventRate r) false (targetUid r) (targetPackage r) (coldStore r)
    (currentTargetUid r) (pairer r) (emitting r).

Abbreviation clearEvents now r := (clear_published (clear_locked now r)) (only parsing).

(** ** Publishing *)

(** emitSnapshot up to the end of its block *)
Definition emit_read (r : EventRepository) : EventRepository :=
  MkRepository (coverageStats r) (buffer r) (totalCount r) (coverage r) (filteredEvents r) (currentFilter r) (eventCount r)
    (lastSecondCount r) (lastSecondTime r) (eventRate r) (dirty r) (targetUid r) (targetPackage r) (coldStore r)
    (currentTargetUid r) (pairer r) (emitting r ++ [(currentFilter r, deque (buffer r))]).

Section Publish.
Context (isBlank : bytes -> bool) (containsIgnoreCase : bytes -> bytes -> bool).

(** The list of a snapshot *)
Definition snapshot_list (filter : EventFilter) (all : list app_event) : list app_event :=
  let visible := List.filter (λ e, listed e) all in
  if filter_isEmpty isBlank filter then visible else List.filter (matches isBlank containsIgnoreCase filter) visible.

(** The end of the i-th call that has not published yet *)
Definition emit_publish (i : nat) (r : EventRepository) : EventRepository :=
  match emitting r !! i with
  | None => r
  | Some (filter, all) =>
      MkRepository (coverageStats r) (buffer r) (totalCount r) (coverageStats r) (snapshot_list filter all) (currentFilter r)
        (eventCount r) (lastSecondCount r) (lastSecondTime r) (eventRate r) (dirty r) (targetUid r) (targetPackage r) (coldStore r)
        (currentTargetUid r) (pairer r) (take i (emitting r) ++ drop (S i) (emitting r))
  end.
End Publish.

(** A turn of the coroutine that ticks, up to the end of the block of
    emitSnapshot *)
Definition tick (r : EventRepository) : EventRepository := if dirty r then emit_read (set_dirty false r) else r.

(** setFilter, which starts a coroutine for emitSnapshot *)
Definition setFilter (filter : EventFilter) (r : EventRepository) : EventRepository :=
  MkRepository (coverageStats r) (buffer r) (totalCount r) (coverage r) (filteredEvents r) filter (eventCount r)
    (lastSecondCount r) (lastSecondTime r) (eventRate r) (dirty r) (targetUid r) (targetPackage r) (coldStore r)
    (currentTargetUid r) (pairer r) (emitting r).

(** ** Looking up *)

Definition getEvent (eventId : Z) (r : EventRepository) : option app_event :=
  match findById eventId (buffer r) with
  | Some e => Some e
  | None => s ← coldStore r; getById eventId (st_db s)
  end.

(** findReplyForRequest and findRequestForReply, which are the same but for the
    half they look for *)
Definition find_other (request : app_event) (wantReply : bool) (r : EventRepository) : option app_event :=
  let w := ae_event request in
  if Bool.eqb (ke_isReply w) wantReply then None
  else if ke_pairId w =? 0 then None
  else
    match findFirst (λ x, Bool.eqb (ke_isReply (ae_event x)) wantReply && (ke_pairId (ae_event x) =? ke_pairId w)) (buffer r) with
    | Some e => Some e
    | None => s ← coldStore r; findPair (ke_pairId w) wantReply (st_db s)
    end.

Abbreviation findReplyForRequest request r := (find_other request true r) (only parsing).
Abbreviation findRequestForReply reply r := (find_other reply false r) (only parsing).
