(* ===== verification/AppRepositorySpec.v ===== *)
(** * The repository of events: theorems on AppRepository *)

From stdpp Require Import sorting.
From S2P Require Import Prelude AppBuffer GoLang GoStd Protocol AppWire AppProofs AppPairer AppParcel AppReply AppTokens AppReplySpec AppEvents AppStore AppStoreSpec AppRepository.

(** ** Runs *)

(** The steps of the threads that use the repository, and of the store's
    writer; addEvent is [Add] and [MarkDirty], clearEvents [ClearLocked] and
    [ClearPublished], emitSnapshot [Tick] or [EmitRead], and [EmitPublish]. *)
Inductive repo_op :=
  | Add (sv : services) (w : event) | MarkDirty
  | ClearLocked (now : Z) | ClearPublished
  | SetTarget (lookup : Z -> option bytes) (uid : Z) | SetFilter (f : EventFilter)
  | Tick | EmitRead | EmitPublish (i : nat)
  | Store (o : bool + nat).

Section Run.
Context (isBlank : bytes -> bool) (containsIgnoreCase : bytes -> bytes -> bool).

(** One step, of the repository and of the events added since the last clear *)
Definition repo_step (st : EventRepository * list app_event) (o : repo_op) : EventRepository * list app_event :=
  let '(r, evs) := st in
  match o with
  | Add sv w => let '(e, r) := addEvent sv w r in (r, evs ++ option_list e)
  | MarkDirty => (set_dirty true r, evs)
  | ClearLocked now => (clear_locked now r, [])
  | ClearPublished => (clear_published r, evs)
  | SetTarget lookup uid => (setTargetUid lookup uid r, evs)
  | SetFilter f => (setFilter f r, evs)
  | Tick => (tick r, evs)
  | EmitRead => (emit_read r, evs)
  | EmitPublish i => (emit_publish isBlank containsIgnoreCase i r, evs)
  | Store o =>
      let s := match o with inl ok => writer_round ok | inr t => λ s, send (Export t) s end in
      (MkRepository (coverageStats r) (buffer r) (totalCount r) (coverage r) (filteredEvents r) (currentFilter r) (eventCount r)
         (lastSecondCount r) (lastSecondTime r) (eventRate r) (dirty r) (targetUid r) (targetPackage r) (s <$> coldStore r)
         (currentTargetUid r) (pairer r) (emitting r), evs)
  end.

Definition run_repository (l : list repo_op) (st : EventRepository * list app_event) : EventRepository * list app_event :=
  foldl repo_step st l.

(** The events that are given to addEvent *)
Definition given (l : list repo_op) : list event := omap (λ o, match o with Add _ w => Some w | _ => None end) l.

(** Ids increase from 0. *)
Definition new_ids (l : list event) : Prop := StronglySorted (λ a b, ke_id a < ke_id b) l /\ Forall (λ w, 0 <= ke_id w) l.
End Run.

(** ** The window *)

(** The last [n] of a list *)
Definition newest {A} (n : nat) (l : list A) : list A := drop (length l - n) l.

Lemma add_newest {E} (id : E -> Z) e (b : BoundedEventBuffer) evs :
  0 < capacity b -> deque b = newest (Z.to_nat (capacity b)) evs ->
  capacity (add id e b) = capacity b /\ deque (add id e b) = newest (Z.to_nat (capacity b)) (evs ++ [e]).
Proof.
  intros Hc Hd. unfold add. destruct (shrink_spec id (capacity b - 1) b) as [gone [H1 _ H3 H4 H5 _ _]]. cbn [capacity deque].
  split; [done|]. set (d := deque (shrink id (capacity b - 1) b)) in *. unfold newest in *.
  assert (length (deque b) = length gone + length d)%nat as Hl by (by rewrite H3, length_app).
  assert (length (deque b) = length evs - (length evs - Z.to_nat (capacity b)))%nat as Hl' by (by rewrite Hd, length_drop).
  rewrite length_app. cbn [length]. rewrite drop_app_le by lia. f_equal.
  assert (d = drop (length gone) (deque b)) as -> by (rewrite H3; by rewrite drop_app_length).
  rewrite Hd, drop_drop. f_equal. destruct H5 as [-> |H5]; cbn [length] in *; lia.
Qed.

(** ** The counters *)

Definition count_if {A} (p : A -> bool) (l : list A) : Z := Z.of_nat (length (List.filter p l)).

(** The statistics of a list of events *)
Definition stats_of (evs : list app_event) (s : CoverageStats) : Prop :=
  cs_total s = s64 (Z.of_nat (length evs)) /\ cs_resolved s = s64 (count_if isResolved evs) /\
  forall b, cs_buckets s b = s64 (count_if (λ e, bool_decide (bucketOf e = b)) evs).

Lemma signed_add w z k : 0 < w -> signed w (signed w z + k) = signed w (z + k).
Proof.
  intros Hw. assert (wrap w (signed w z + k) = wrap w (z + k)) as E.
  { pose proof (wrap_signed w z Hw) as Hs. unfold wrap in *.
    rewrite <- (Zplus_mod_idemp_l (signed w z)), Hs. apply Zplus_mod_idemp_l. }
  unfold signed at 1 3. by rewrite E.
Qed.

Lemma count_if_snoc {A} (p : A -> bool) l x : count_if p (l ++ [x]) = count_if p l + if p x then 1 else 0.
Proof. unfold count_if. rewrite List.filter_app, length_app. cbn. destruct (p x); cbn; lia. Qed.

Lemma stats_add evs s e : stats_of evs s -> stats_of (evs ++ [e]) (count_event 1 e s).
Proof.
  intros (Ht & Hr & Hb). unfold stats_of, count_event. cbn [cs_total cs_resolved cs_buckets]. split_and!.
  - rewrite Ht, length_app, Nat2Z.inj_add. by apply (signed_add 64).
  - rewrite count_if_snoc. destruct (isResolved e); [rewrite Hr; by apply (signed_add 64)|by rewrite Z.add_0_r].
  - intros b. rewrite count_if_snoc. destruct (decide (b = bucketOf e)) as [->|Hne].
    + rewrite bool_decide_true by done. rewrite Hb. by apply (signed_add 64).
    + rewrite bool_decide_false by congruence. by rewrite Z.add_0_r.
Qed.

(** ** The invariant *)

(** The repository and the events added since the last clear, of all those that
    were given *)
Record repo_inv (all evs : list app_event) (r : EventRepository) : Prop := {
  ri_events : exists old, all = old ++ evs;
  ri_total : totalCount r = s32 (Z.of_nat (length evs));
  ri_count : eventCount r = totalCount r;
  ri_stats : stats_of evs (coverageStats r);
  ri_capacity : capacity (buffer r) = 5000;
  ri_window : deque (buffer r) = newest 5000 evs;
  ri_index : increasing all -> buffer_inv seq_of (buffer r);
  ri_store : exists sops, coldStore r = Some (run_store sops newStore) /\ appended (requests sops) = as_stored <$> all /\
    since_clear (requests sops) = as_stored <$> evs }.

Lemma repo_inv_same all evs r r' :
  repo_inv all evs r -> totalCount r' = totalCount r -> eventCount r' = eventCount r -> coverageStats r' = coverageStats r ->
  buffer r' = buffer r -> coldStore r' = coldStore r -> repo_inv all evs r'.
Proof. intros [] E1 E2 E3 E4 E5. split; by rewrite ?E1, ?E2, ?E3, ?E4, ?E5. Qed.

(** parseEvent keeps what came over the wire. *)
Lemma parseEvent_event sv uid pkg uid' w p e p' : parseEvent sv uid pkg uid' w p = (Some e, p') -> ae_event e = w.
Proof.
  unfold parseEvent. destruct (decodePipeline _ _ _ _ _ _) as [[[result reply]|] p1]; [|done].
  destruct (name_event _ _ _ _ _) as [[[[i m] args] sniffed]|]; [|done]. by intros [= <- _].
Qed.

Lemma increasing_cons_out all e : increasing (all ++ [e]) -> forall l, l ⊆ all -> seq_of e ∉ (seq_of <$> l).
Proof.
  intros (_ & _ & Hc)%increasing_app l Hl Hin. apply list_elem_of_fmap in Hin as (x & Hx & Hin).
  specialize (Hc x e (Hl _ Hin) ltac:(by apply list_elem_of_singleton)). lia.
Qed.

Lemma add_inv_step all evs r sv e :
  repo_inv all evs r -> repo_inv (all ++ [e]) (evs ++ [e]) (add_locked sv e r).
Proof.
  intros [[old Hall] Ht Hc Hs Hcap Hw Hi (sops & Hst & Happ & Hsince)].
  destruct (add_newest seq_of e (buffer r) evs) as [Hcap' Hw']; [lia|by rewrite Hcap|]. rewrite Hcap in Hw'.
  split; cbn [add_locked totalCount eventCount coverageStats buffer coldStore].
  - exists old. by rewrite Hall, app_assoc.
  - rewrite Ht, length_app, Nat2Z.inj_add. by apply (signed_add 32).
  - done.
  - by apply stats_add.
  - by rewrite Hcap'.
  - done.
  - intros Hinc. apply add_inv; [apply Hi; by apply increasing_app in Hinc as (? & _)|].
    apply (increasing_cons_out all); [done|]. rewrite Hw, Hall. unfold newest. intros x Hx.
    apply elem_of_app. right. by eapply subseteq_drop.
  - exists (sops ++ [Offer e]). rewrite Hst. split; [unfold run_store; by rewrite foldl_app|].
    rewrite requests_app. cbn [requests omap list_omap]. rewrite appended_app, since_clear_snoc, Happ, Hsince, !fmap_app. done.
Qed.

Lemma clear_inv_step all evs r now : repo_inv all evs r -> repo_inv all [] (clear_locked now r).
Proof.
  intros [[old Hall] Ht Hc Hs Hcap Hw Hi (sops & Hst & Happ & Hsince)].
  split; cbn [clear_locked totalCount eventCount coverageStats buffer coldStore]; try done.
  - exists all. by rewrite app_nil_r.
  - intros Hinc. by eapply (step_inv seq_of OpClear); [apply Hi|done|].
  - exists (sops ++ [RequestClear]). rewrite Hst. split; [unfold run_store; by rewrite foldl_app|].
    rewrite requests_app. cbn [requests omap list_omap]. rewrite appended_app, since_clear_snoc, Happ, app_nil_r. done.
Qed.

Section Inv.
Context (isBlank : bytes -> bool) (containsIgnoreCase : bytes -> bytes -> bool).

Lemma repo_step_inv all evs r o :
  repo_inv all evs r ->
  let '(r', evs') := repo_step isBlank containsIgnoreCase (r, evs) o in
  exists new, repo_inv (all ++ new) evs' r' /\ (ae_event <$> new) `sublist_of` given [o].
Proof.
  intros Hinv.
  assert (forall r', totalCount r' = totalCount r -> eventCount r' = eventCount r -> coverageStats r' = coverageStats r ->
    buffer r' = buffer r -> coldStore r' = coldStore r ->
    exists new, repo_inv (all ++ new) evs r' /\ (ae_event <$> new) `sublist_of` given [o]) as Hsame.
  { intros r' E1 E2 E3 E4 E5. exists []. rewrite app_nil_r. split; [by eapply repo_inv_same|apply sublist_nil_l]. }
  destruct o as [sv w| |now| |lookup uid|f| | |i|o]; cbn [repo_step]; try (apply Hsame; done).
  - unfold addEvent. destruct (parseEvent _ _ _ _ _ _) as [[e|] p] eqn:Ep.
    + exists [e]. cbn [option_list given omap list_omap]. split; [apply add_inv_step; by eapply repo_inv_same|].
      apply parseEvent_event in Ep. cbn. by rewrite Ep.
    + rewrite app_nil_r. by apply Hsame.
  - exists []. rewrite app_nil_r. split; [by eapply clear_inv_step|done].
  - unfold tick. destruct (dirty r); by apply Hsame.
  - unfold emit_publish. destruct (emitting r !! i) as [[f all']|]; by apply Hsame.
  - exists []. rewrite app_nil_r. split; [|done]. destruct Hinv as [Hall Ht Hc Hs Hcap Hw Hi (sops & Hst & Happ & Hsince)].
    split; try done. cbn [coldStore]. rewrite Hst. destruct o as [ok|t].
    + exists (sops ++ [WriterRound ok]). split; [unfold run_store; by rewrite foldl_app|].
      rewrite requests_app. cbn [requests omap list_omap]. by rewrite app_nil_r.
    + exists (sops ++ [RequestExport t]). split; [unfold run_store; by rewrite foldl_app|].
      rewrite requests_app. cbn [requests omap list_omap]. rewrite appended_app, since_clear_snoc, app_nil_r. done.
Qed.

Lemma run_repository_inv l : forall all evs r,
  repo_inv all evs r ->
  let '(r', evs') := run_repository isBlank containsIgnoreCase l (r, evs) in
  exists new, repo_inv (all ++ new) evs' r' /\ (ae_event <$> new) `sublist_of` given l.
Proof.
  induction l as [|o l IH]; intros all evs r Hinv.
  { exists []. by rewrite app_nil_r. }
  cbn [run_repository foldl]. pose proof (repo_step_inv all evs r o Hinv) as Ho.
  destruct (repo_step isBlank containsIgnoreCase (r, evs) o) as [r1 evs1]. destruct Ho as (new1 & Hinv1 & Hsub1).
  specialize (IH _ _ _ Hinv1). unfold run_repository in *. destruct (foldl _ (r1, evs1) l) as [r2 evs2].
  destruct IH as (new2 & Hinv2 & Hsub2). exists (new1 ++ new2). rewrite app_assoc. split; [done|].
  rewrite fmap_app. assert (given (o :: l) = given [o] ++ given l) as -> by (by destruct o). by apply sublist_app.
Qed.

Lemma newRepository_inv now : repo_inv [] [] (newRepository now).
Proof.
  split; try done; [by exists []| |].
  - intros _. split; cbn; [done|lia|constructor|]. intros i e. rewrite lookup_empty. split; [done|]. by intros [?%not_elem_of_nil _].
  - exists []. done.
Qed.
End Inv.

Lemma increasing_given l evs : new_ids l -> (ae_event <$> evs) `sublist_of` l -> increasing evs.
Proof.
  intros [Hs Hp] Hsub.
  assert (StronglySorted (λ a b, ke_id a < ke_id b) (ae_event <$> evs)) as Hs'.
  { clear Hp. remember (ae_event <$> evs) as ws eqn:E. clear E. induction Hsub as [|x a b Hsub IH|x a b Hsub IH]; [done|..];
      inversion Hs as [|? ? Hs1 Hf]; subst; [|by apply IH]. constructor; [by apply IH|].
    apply list.Forall_forall. intros y Hy. rewrite list.Forall_forall in Hf. apply Hf. by eapply elem_of_sublist. }
  split.
  - clear -Hs'. induction evs as [|e evs IH]; [constructor|]. rewrite fmap_cons in Hs'. inversion Hs' as [|? ? Hs1 Hf]; subst.
    constructor; [by apply IH|]. rewrite Forall_fmap in Hf. exact Hf.
  - apply list.Forall_forall. intros e He. rewrite list.Forall_forall in Hp. apply Hp. eapply elem_of_sublist; [|exact Hsub].
    by apply list_elem_of_fmap_2.
Qed.

(** ** What can be found *)

(** The writer has nothing left to do, and nothing failed. *)
Definition drained (r : EventRepository) : Prop :=
  exists s, coldStore r = Some s /\ waiting s = [] /\ st_writeFailure s = false.

Lemma drained_db all evs r : repo_inv all evs r -> increasing all -> drained r ->
  exists s, coldStore r = Some s /\ st_db s = as_stored <$> evs.
Proof.
  intros Hr Hinc (s & Hs & Hw & Hf). destruct (ri_store _ _ _ Hr) as (sops & Hst & Happ & Hsince). exists s. split; [done|].
  assert (increasing (appended (requests sops))) as Hi.
  { rewrite Happ. destruct Hinc as [H1 H2]. split; [|by apply Forall_fmap].
    clear -H1. induction H1 as [|e l _ IH Hf]; [constructor|]. rewrite fmap_cons. constructor; [done|]. by apply Forall_fmap. }
  destruct (run_inv sops [] [] newStore Hi newStore_inv) as [done [Ho Hd _]]. rewrite Hst in Hs. injection Hs as Hs. rewrite Hs in *.
  cbn [app] in *. rewrite Hw, app_nil_r in Ho. by rewrite (Hd Hf), Ho, Hsince.
Qed.

Lemma increasing_inj evs a b : increasing evs -> a ∈ evs -> b ∈ evs -> seq_of a = seq_of b -> a = b.
Proof.
  intros [Hs _] Ha Hb E. induction Hs as [|x l _ IH Hf]; [by apply elem_of_nil in Ha|].
  rewrite list.Forall_forall in Hf. apply elem_of_cons in Ha as [->|Ha], Hb as [->|Hb]; [done|..|by apply IH].
  - apply Hf in Hb. lia.
  - apply Hf in Ha. lia.
Qed.

Lemma find_exists {A} (p : A -> bool) l x : x ∈ l -> p x = true -> exists y, List.find p l = Some y /\ y ∈ l /\ p y = true.
Proof.
  intros Hx Hp. destruct (List.find p l) as [y|] eqn:E.
  - apply find_some in E as [Hy Hp']. exists y. by rewrite list_elem_of_In.
  - apply list_elem_of_In in Hx. by rewrite (find_none _ _ E x Hx) in Hp.
Qed.

(** An event of the trace, in the window or the store *)
Lemma getEvent_finds all evs r e :
  repo_inv all evs r -> increasing all -> drained r -> e ∈ evs ->
  exists e', getEvent (seq_of e) r = Some e' /\ as_stored e' = as_stored e.
Proof.
  intros Hr Hinc Hdr He. destruct (drained_db _ _ _ Hr Hinc Hdr) as (s & Hs & Hdb).
  destruct (ri_events _ _ _ Hr) as [old Hall]. assert (increasing evs) as Hevs by (rewrite Hall in Hinc; by apply increasing_app in Hinc as (_ & ? & _)).
  pose proof (ri_index _ _ _ Hr Hinc) as [_ _ _ Hix]. unfold getEvent.
  destruct (AppBuffer.index (buffer r) !! seq_of e) as [e'|] eqn:E.
  - apply Hix in E as [Hin Heq]. rewrite (ri_window _ _ _ Hr) in Hin.
    assert (e' = e) as -> by (eapply increasing_inj; [exact Hevs|by eapply subseteq_drop|done|done]). eauto.
  - rewrite Hs. cbn [mbind option_bind]. rewrite Hdb.
    destruct (find_exists (λ x, seq_of x =? seq_of e) (as_stored <$> evs) (as_stored e)) as (y & -> & Hy & Heq);
      [by apply list_elem_of_fmap_2|by apply Z.eqb_refl|].
    apply list_elem_of_fmap in Hy as (y' & -> & Hy). apply Z.eqb_eq in Heq.
    assert (y' = e) as -> by (by eapply increasing_inj). by exists (as_stored e).
Qed.

(** The other half of a call, in the window or the store *)
Lemma find_other_finds all evs r a b wantReply :
  repo_inv all evs r -> increasing all -> drained r -> b ∈ evs ->
  ke_isReply (ae_event a) = negb wantReply -> ke_isReply (ae_event b) = wantReply ->
  ke_pairId (ae_event a) <> 0 -> ke_pairId (ae_event b) = ke_pairId (ae_event a) ->
  exists x, x ∈ evs /\ ke_isReply (ae_event x) = wantReply /\ ke_pairId (ae_event x) = ke_pairId (ae_event a) /\
    (find_other a wantReply r = Some x \/ find_other a wantReply r = Some (as_stored x)).
Proof.
  intros Hr Hinc Hdr Hb Ha Hwb Hp0 Hp. destruct (drained_db _ _ _ Hr Hinc Hdr) as (s & Hs & Hdb).
  unfold find_other. rewrite Ha. destruct (Bool.eqb (negb wantReply) wantReply) eqn:Eb; [by destruct wantReply|].
  rewrite (proj2 (Z.eqb_neq _ _) Hp0). destruct (List.find _ (deque (buffer r))) as [x|] eqn:E.
  - apply find_some in E as [Hx Hp']. apply andb_true_iff in Hp' as [H1 H2]. apply eqb_prop in H1. apply Z.eqb_eq in H2.
    rewrite (ri_window _ _ _ Hr) in Hx. exists x. split_and!; [|done|done|by left]. apply list_elem_of_In in Hx. by eapply subseteq_drop.
  - rewrite Hs. cbn [mbind option_bind]. unfold findPair. rewrite Hdb.
    destruct (find_exists (is_pair (ke_pairId (ae_event a)) wantReply) (as_stored <$> evs) (as_stored b)) as (y & -> & Hy & Heq).
    + by apply list_elem_of_fmap_2.
    + cbn [as_stored ae_event]. rewrite Hp, Hwb, Z.eqb_refl. apply eqb_reflx.
    + apply list_elem_of_fmap in Hy as (x & -> & Hx). cbn [as_stored ae_event] in Heq.
      apply andb_true_iff in Heq as [H1 H2]. apply eqb_prop in H2. apply Z.eqb_eq in H1. exists x. split_and!; [done|done|done|by right].
Qed.

(** C9: The repository agrees with itself: under every interleaving of adding
    events, clearing, changing the target and the filter, publishing and the
    store's writer, the counter shown is the number of events added since the
    last clear, the statistics count exactly these events, the window holds
    the newest 5000 of them, and once the writer has worked off its queue the
    store holds all of them, and any of them can be opened by its id. *)
Theorem repository_consistent isBlank containsIgnoreCase now l :
  new_ids (given l) ->
  let '(r, evs) := run_repository isBlank containsIgnoreCase l (newRepository now, []) in
  eventCount r = s32 (Z.of_nat (length evs)) /\ totalCount r = eventCount r /\
  stats_of evs (coverageStats r) /\ deque (buffer r) = newest 5000 evs /\
  (drained r -> (exists s, coldStore r = Some s /\ st_db s = as_stored <$> evs) /\
    forall e, e ∈ evs -> exists e', getEvent (seq_of e) r = Some e' /\ as_stored e' = as_stored e).
Proof.
  intros Hids. pose proof (run_repository_inv isBlank containsIgnoreCase l [] [] _ (newRepository_inv now)) as H.
  destruct (run_repository _ _ _ _) as [r evs]. destruct H as (all & Hinv & Hsub). cbn [app] in *.
  pose proof (increasing_given _ _ Hids Hsub) as Hinc. pose proof Hinv as [_ Ht Hc Hs _ Hw _ _].
  split_and!; [by rewrite Hc|done|done|done|]. intros Hdr. split; [by eapply drained_db|].
  intros e He. by eapply getEvent_finds.
Qed.

(** ** A call and its answer *)

(** What adding an event does to the table of pending requests: one lookup for
    a reply, one entry for a request. *)
Definition pair_ops (o : repo_op) (pops : list pair_op) : Prop :=
  (length pops <= length (given [o]))%nat /\
  Forall (λ p, exists sv w, o = Add sv w /\ op_pairId p = ke_pairId w /\ (op_now p = matchedAt sv \/ op_now p = recordedAt sv)) pops.

Lemma tryMatchReply_unpaired e uid now p : ke_pairId e = 0 -> tryMatchReply e uid now p = (None, p).
Proof. intros E. unfold tryMatchReply. rewrite E. by destruct (negb (ke_isReply e)). Qed.

Lemma decodePipeline_pairer sig lookup e uid now p :
  (decodePipeline sig lookup e uid now p).2 = if ke_isReply e then (tryMatchReply e uid now p).2 else p.
Proof.
  unfold decodePipeline, ReplyDecoder. destruct (ke_isReply e); cbn [negb]; [|done].
  destruct (Z.eqb_spec (ke_pairId e) 0) as [E|_]; cbn [negb].
  - by rewrite tryMatchReply_unpaired.
  - by destruct (tryMatchReply e uid now p) as [[m|] p'].
Qed.

Lemma parseEvent_pairer sv uid pkg uid' w p :
  (parseEvent sv uid pkg uid' w p).2 = if ke_isReply w then (tryMatchReply w uid' (matchedAt sv) p).2 else p.
Proof.
  unfold parseEvent. rewrite <- (decodePipeline_pairer (getMethodSignature sv) (handleLookup sv)).
  by destruct (decodePipeline _ _ _ _ _ _) as [[[result reply]|] p1].
Qed.

Lemma addEvent_pairer sv w r :
  exists pops, pair_ops (Add sv w) pops /\ pairer (addEvent sv w r).2 = foldl (pair_step (currentTargetUid r)) (pairer r) pops.
Proof.
  unfold addEvent. pose proof (parseEvent_pairer sv (targetUid r) (targetPackage r) (currentTargetUid r) w (pairer r)) as Hp.
  destruct (parseEvent _ _ _ _ _ _) as [[e|] p] eqn:Ep; cbn [snd] in Hp; subst p; cbn [pairer add_locked snd].
  - apply parseEvent_event in Ep. unfold pair_ops. destruct (ke_isReply w) eqn:Er.
    + exists [PMatch w (matchedAt sv)]. split; [split; [done|]; apply list.Forall_singleton; eauto 10|].
      unfold recordRequest. cbn [parsed_of pe_event]. by rewrite Ep, Er.
    + exists [PRecord (parsed_of e) (recordedAt sv)]. split; [|done]. split; [done|]. apply list.Forall_singleton.
      exists sv, w. cbn [op_pairId op_now parsed_of pe_event]. rewrite Ep. auto.
  - unfold pair_ops. destruct (ke_isReply w); [|exists []; split; [split; [apply le_0_n|constructor]|done]].
    exists [PMatch w (matchedAt sv)]. split; [|done]. split; [done|]. apply list.Forall_singleton. eauto 10.
Qed.

Section Answer.
Context (isBlank : bytes -> bool) (containsIgnoreCase : bytes -> bytes -> bool).

(** Steps between a request and its answer: no change of target, no clear, no
    other event with the pair id, and all within [until] *)
Definition between (k until : Z) (o : repo_op) : Prop :=
  match o with
  | Add sv w => ke_pairId w <> k /\ matchedAt sv <= until /\ recordedAt sv <= until
  | SetTarget _ _ | ClearLocked _ => False
  | _ => True
  end.

Lemma step_pairer o r evs k until :
  between k until o ->
  let '(r', evs') := repo_step isBlank containsIgnoreCase (r, evs) o in
  exists pops, pair_ops o pops /\ pairer r' = foldl (pair_step (currentTargetUid r)) (pairer r) pops /\
    currentTargetUid r' = currentTargetUid r /\ exists new, evs' = evs ++ new.
Proof.
  intros Hb.
  assert (forall r', pairer r' = pairer r -> currentTargetUid r' = currentTargetUid r -> exists pops, pair_ops o pops /\
    pairer r' = foldl (pair_step (currentTargetUid r)) (pairer r) pops /\ currentTargetUid r' = currentTargetUid r /\
    exists new, evs = evs ++ new) as Hsame.
  { intros r' E1 E2. exists []. split; [by split; [apply le_0_n|]|]. split_and!; [done|done|]. exists []. by rewrite app_nil_r. }
  destruct o as [sv w| |now| |lookup uid|f| | |i|o]; cbn [repo_step between] in *; try done; try (apply Hsame; done).
  - destruct (addEvent_pairer sv w r) as (pops & Hpo & Hp).
    assert (currentTargetUid (addEvent sv w r).2 = currentTargetUid r) as Hu
      by (unfold addEvent; by destruct (parseEvent _ _ _ _ _ _) as [[e|] p]).
    destruct (addEvent sv w r) as [e r']. cbn [snd] in *. exists pops. eauto.
  - unfold tick. destruct (dirty r); by apply Hsame.
  - unfold emit_publish. destruct (emitting r !! i) as [[f all']|]; by apply Hsame.
Qed.

Lemma run_pairer l : forall r evs k until,
  Forall (between k until) l ->
  let '(r', evs') := run_repository isBlank containsIgnoreCase l (r, evs) in
  exists pops, (length pops <= length (given l))%nat /\ Forall (λ p, op_pairId p <> k /\ op_now p <= until) pops /\
    pairer r' = foldl (pair_step (currentTargetUid r)) (pairer r) pops /\
    currentTargetUid r' = currentTargetUid r /\ exists new, evs' = evs ++ new.
Proof.
  induction l as [|o l IH]; intros r evs k until Hl.
  { exists []. split_and!; try done. exists []. by rewrite app_nil_r. }
  apply list.Forall_cons in Hl as [Ho Hl]. cbn [run_repository foldl]. pose proof (step_pairer o r evs k until Ho) as H1.
  destruct (repo_step isBlank containsIgnoreCase (r, evs) o) as [r1 evs1].
  destruct H1 as (pops1 & [Hn1 Hf1] & Hp1 & Hu1 & new1 & He1). specialize (IH r1 evs1 k until Hl). unfold run_repository in *.
  destruct (foldl _ (r1, evs1) l) as [r2 evs2]. destruct IH as (pops2 & Hn2 & Hf2 & Hp2 & Hu2 & new2 & He2).
  exists (pops1 ++ pops2). assert (given (o :: l) = given [o] ++ given l) as -> by (by destruct o). split_and!.
  - rewrite !length_app. lia.
  - apply list.Forall_app. split; [|done]. eapply list.Forall_impl; [exact Hf1|].
    intros p (sv & w & -> & E & Hn). cbn [between] in Ho. rewrite E. destruct Ho as (? & ? & ?). split; [done|]. destruct Hn; lia.
  - by rewrite Hp2, Hu1, Hp1, foldl_app.
  - by rewrite Hu2.
  - exists (new1 ++ new2). by rewrite He2, He1, app_assoc.
Qed.
End Answer.

(** A call: a request of the target or to it, whose parcel has an interface
    token in one of the three layouts and whose method is known, and its reply
    of a known outcome *)
Record call := MkCall {
  c_request : event; c_reply : event; c_layout : token_layout; c_words : bytes; c_name : bytes; c_args : bytes;
  c_signature : MethodSignature; c_headers : list (bool * bytes); c_outcome : outcome; c_rest : bytes }.

Record call_ok (c : call) (uid : Z) : Prop := {
  co_concerns : concerns (c_request c) uid;
  co_answers : answers (c_request c) (c_reply c) uid;
  co_dev : ke_binderDev (c_reply c) = BINDER;
  co_code : Forall (λ x, x.1 <> ke_code (c_request c)) SPECIAL_CODES;
  co_parcel : ke_rawParcel (c_request c) = token_parcel (c_layout c) (c_words c) (c_name c) (c_args c);
  co_token : token_ok (c_layout c) (c_words c) (c_name c) /\ c_name c <> str "Unknown";
  co_method : sg_methodName (c_signature c) <> code_text (ke_code (c_request c));
  co_reply : ke_rawParcel (c_reply c) = (c_headers c ≫= header_layout) ++ outcome_layout (c_outcome c) ++ c_rest c;
  co_headers : Forall (λ h, len h.2 <= 64 * 1024) (c_headers c) /\ (length (c_headers c) <= 3)%nat;
  co_outcome : outcome_ok (c_outcome c) /\ forall v, c_outcome c = Returns v -> sg_returnType (c_signature c) = Some (value_type v) }.

(** The services know the method, and can read its arguments. *)
Definition knows (sv : services) (c : call) (candidates : list bytes) : Prop :=
  getMethodSignature sv (c_name c) (ke_code (c_request c)) candidates = Some (Some (c_signature c)) /\
  is_Some (decodeArguments sv (ke_rawParcel (c_request c)) (sg_paramTypes (c_signature c))).

Definition candidates_of (sv : services) (pkg : option bytes) (c : call) : list bytes :=
  computeResolveCandidates sv pkg (getPackageNameForUid sv (ke_uid (c_request c))) (Some (c_name c)).

Lemma name_event_known sv w toPackage candidates result sg :
  dr_source result ∈ [AIDL_Q; AIDL_P; AIDL_O] ->
  getMethodSignature sv (dr_interfaceName result) (ke_code w) candidates = Some (Some sg) ->
  is_Some (decodeArguments sv (ke_rawParcel w) (sg_paramTypes sg)) ->
  exists args, name_event sv w toPackage candidates result = Some (dr_interfaceName result, sg_methodName sg, args, []).
Proof.
  intros Hs Hg [args Ha]. unfold name_event. rewrite Hg.
  assert (exists args', match sg_paramTypes sg with
    | [] => Some (dr_interfaceName result, sg_methodName sg, [], [])
    | ts => match decodeArguments sv (ke_rawParcel w) ts with None => None
            | Some args => Some (dr_interfaceName result, sg_methodName sg, args, []) end
    end = Some (dr_interfaceName result, sg_methodName sg, args', @nil bytes)) as [args' E].
  { destruct (sg_paramTypes sg) as [|t ts]; [by exists []|]. rewrite Ha. by exists args. }
  rewrite E. exists args'. rewrite !elem_of_cons, elem_of_nil in Hs. by destruct Hs as [-> |[-> |[-> |[]]]].
Qed.

Lemma request_parsed sv uid pkg uid' c p :
  call_ok c uid' -> knows sv c (candidates_of sv pkg c) ->
  exists q src, parseEvent sv uid pkg uid' (c_request c) p = (Some q, p) /\ interfaceName q = c_name c /\
    methodName q = sg_methodName (c_signature c) /\ ae_resolveCandidates q = candidates_of sv pkg c /\
    ae_decodeSource q = Some src /\ src ∈ [AIDL_Q; AIDL_P; AIDL_O].
Proof.
  intros Hc [Hsig Hargs]. destruct (co_concerns _ _ Hc) as (Hr & _). destruct (co_token _ _ Hc) as [Htok _]. unfold parseEvent.
  rewrite (token_pipeline _ _ _ _ _ _ _ _ _ _ Hr (co_code _ _ Hc) (co_parcel _ _ Hc) Htok).
  set (res := token_result _ _ _). assert (dr_source res ∈ [AIDL_Q; AIDL_P; AIDL_O]) as Hs
    by (unfold res; destruct (c_layout c); cbn; rewrite !elem_of_cons; auto).
  change (dr_interfaceName res) with (c_name c). fold (candidates_of sv pkg c).
  destruct (name_event_known sv (c_request c) (if negb (ke_isReply (c_request c)) && negb (ke_toUid (c_request c) =? 0)
    then getPackageOrSystemNameForUid sv (ke_toUid (c_request c)) else None) _ res _ Hs Hsig Hargs) as [args ->].
  cbn [mbind option_bind]. eexists _, (dr_source res). by split_and!.
Qed.

(** What the list shows for an answered call *)
Definition reply_label (method : bytes) (r : ReplyDecodeResult) : bytes :=
  match rr_exception r, rr_value r with
  | Some x, _ => method ++ [32; 0x2190] ++ str " reply (exception: " ++ x ++ str ")"
  | None, Some v => method ++ [32; 0x2190] ++ str " reply = " ++ v
  | None, None => method ++ str " (reply)"
  end.

Lemma reply_parsed sv uid pkg uid' c candidates src p p' :
  call_ok c uid' -> getMethodSignature sv (c_name c) (ke_code (c_request c)) candidates = Some (Some (c_signature c)) ->
  src ∈ [AIDL_Q; AIDL_P; AIDL_O] ->
  tryMatchReply (c_reply c) uid' (matchedAt sv) p =
    (Some (MkPairResult (Some (c_name c)) (Some (sg_methodName (c_signature c))) (ke_code (c_request c)) candidates (Some src)), p') ->
  exists a, parseEvent sv uid pkg uid' (c_reply c) p = (Some a, p') /\ interfaceName a = c_name c /\
    methodName a = reply_label (sg_methodName (c_signature c)) (show_outcome (c_outcome c)) /\
    ae_parsedReply a = Some (show_outcome (c_outcome c)).
Proof.
  intros Hc Hsig Hsrc Hm. destruct (co_answers _ _ Hc) as (Hr & Hid & _). destruct (co_concerns _ _ Hc) as (_ & Hp & _).
  destruct (co_headers _ _ Hc) as [Hh Hn]. destruct (co_outcome _ _ Hc) as [Ho Hrt].
  unfold parseEvent, decodePipeline, ReplyDecoder. rewrite Hr, Hid, (proj2 (Z.eqb_neq _ _) Hp), Hm. cbn [negb].
  unfold decodeWithInheritance. cbn [pr_interfaceName pr_methodName pr_code pr_resolveCandidates pr_decodeSource].
  assert (forall m, pr_decodeSource m = Some src -> isJavaAidl (c_reply c) m = true) as Hj.
  { intros m Em. unfold isJavaAidl. rewrite (co_dev _ _ Hc), Em. rewrite !elem_of_cons, elem_of_nil in Hsrc.
    by destruct Hsrc as [-> |[-> |[-> |[]]]]. }
  rewrite Hj by done. rewrite Hsig. cbn [default mbind option_bind].
  rewrite (co_reply _ _ Hc), outcome_decoded by done. cbn [mbind option_bind from_option].
  unfold reply_label. destruct (rr_exception (show_outcome (c_outcome c))) as [x|]; [|destruct (rr_value (show_outcome (c_outcome c))) as [v|]];
    eexists; split_and!; reflexivity.
Qed.

(** What is on file for the request when the reply arrives *)
Lemma call_waits isBlank containsIgnoreCase r evs sv c mid :
  let uid := currentTargetUid r in
  call_ok c uid -> knows sv c (candidates_of sv (targetPackage r) c) ->
  Forall (between (ke_pairId (c_request c)) (recordedAt sv + 5000)) mid ->
  (size (newer (recordedAt sv) (side (senderHit (c_request c) uid) (pairer r))) + length (given mid) < MAX_ENTRIES)%nat ->
  exists q src new, ae_event q = c_request c /\ interfaceName q = c_name c /\ methodName q = sg_methodName (c_signature c) /\
    src ∈ [AIDL_Q; AIDL_P; AIDL_O] /\
    let '(r', evs') := run_repository isBlank containsIgnoreCase (Add sv (c_request c) :: mid) (r, evs) in
    evs' = evs ++ q :: new /\ currentTargetUid r' = uid /\
    side (senderHit (c_request c) uid) (pairer r') !! ke_pairId (c_request c) =
      Some (MkPending (MkPairResult (Some (c_name c)) (Some (sg_methodName (c_signature c))) (ke_code (c_request c))
        (candidates_of sv (targetPackage r) c) (Some src)) (recordedAt sv)).
Proof.
  intros uid Hc Hk Hmid Hsize.
  destruct (request_parsed sv (targetUid r) (targetPackage r) uid c (pairer r) Hc Hk) as (q & src & Ep & Hi & Hm & Hcand & Hsrc & Hin).
  pose proof (parseEvent_event _ _ _ _ _ _ _ _ Ep) as Hq. exists q, src.
  set (r1 := add_locked sv q (set_pairer (recordRequest (parsed_of q) uid (recordedAt sv) (pairer r)) r)).
  assert (repo_step isBlank containsIgnoreCase (r, evs) (Add sv (c_request c)) = (r1, evs ++ [q])) as Hstep
    by (cbn [repo_step]; unfold addEvent; fold uid; by rewrite Ep).
  cbn [run_repository foldl]. rewrite Hstep. pose proof (run_pairer isBlank containsIgnoreCase mid r1 (evs ++ [q]) _ _ Hmid) as Hrun.
  unfold run_repository in Hrun. destruct (foldl _ (r1, evs ++ [q]) mid) as [r' evs'].
  destruct Hrun as (pops & Hn & Hf & Hp & Hu & new & He). exists new.
  do 4 (split; [done|]). split; [by rewrite He, <- app_assoc|]. split; [done|].
  change (currentTargetUid r1) with uid in Hp. rewrite Hp.
  change (pairer r1) with (recordRequest (parsed_of q) uid (recordedAt sv) (pairer r)).
  pose proof (request_waits (parsed_of q) uid (recordedAt sv) pops (pairer r)) as Hw.
  cbn [parsed_of pe_event] in Hw. rewrite Hq in Hw. rewrite Hw; [|apply Hc|exact Hf|lia].
  unfold request_result. cbn [parsed_of pe_event pe_interfaceName pe_methodName pe_resolveCandidates pe_decodeSource].
  rewrite Hq, Hi, Hm, Hcand, Hsrc. rewrite !bool_decide_false; [done|apply (co_method _ _ Hc)|apply (co_token _ _ Hc)].
Qed.

(** C2: A traced call is shown with its outcome: a request that concerns the
    traced app, with an interface token in any of the three layouts and a method
    the resolver knows, is listed under its interface and method; and when its
    reply, laid out as ReplyParser documents, arrives within five seconds,
    whatever else is added and published in between, as long as fewer than 4096
    requests are as recent, the reply is shown under the same interface with the
    method and the value it returned or the exception it threw; and, in the
    window or in the store, each of the two leads to the other half of the
    call. *)
Theorem answered_call_shown isBlank containsIgnoreCase now before svq mid sva c :
  let st0 := run_repository isBlank containsIgnoreCase before (newRepository now, []) in
  let uid := currentTargetUid st0.1 in
  let candidates := candidates_of svq (targetPackage st0.1) c in
  call_ok c uid -> knows svq c candidates -> knows sva c candidates ->
  Forall (between (ke_pairId (c_request c)) (recordedAt svq + 5000)) mid -> matchedAt sva <= recordedAt svq + 5000 ->
  (size (newer (recordedAt svq) (side (senderHit (c_request c) uid) (pairer st0.1))) + length (given mid) < MAX_ENTRIES)%nat ->
  let after := (Add svq (c_request c) :: mid) ++ [Add sva (c_reply c)] in
  let st := run_repository isBlank containsIgnoreCase after st0 in
  exists q a new, st.2 = st0.2 ++ q :: new ++ [a] /\ ae_event q = c_request c /\ ae_event a = c_reply c /\
    interfaceName q = c_name c /\ methodName q = sg_methodName (c_signature c) /\
    interfaceName a = c_name c /\
    methodName a = reply_label (sg_methodName (c_signature c)) (show_outcome (c_outcome c)) /\
    ae_parsedReply a = Some (show_outcome (c_outcome c)) /\
    (new_ids (given (before ++ after)) -> drained st.1 ->
     (exists x, findReplyForRequest q st.1 = Some x /\ ke_isReply (ae_event x) = true /\
        ke_pairId (ae_event x) = ke_pairId (c_request c)) /\
     exists x, findRequestForReply a st.1 = Some x /\ ke_isReply (ae_event x) = false /\
        ke_pairId (ae_event x) = ke_pairId (c_request c)).
Proof.
  cbv zeta. set (after := (Add svq (c_request c) :: mid) ++ [Add sva (c_reply c)]).
  pose proof (run_repository_inv isBlank containsIgnoreCase (before ++ after) [] [] _ (newRepository_inv now)) as Hinv.
  unfold run_repository in Hinv at 1. rewrite foldl_app in Hinv. fold (run_repository isBlank containsIgnoreCase before (newRepository now, [])) in Hinv.
  destruct (run_repository isBlank containsIgnoreCase before (newRepository now, [])) as [r0 evs0]. cbn [fst snd].
  fold (run_repository isBlank containsIgnoreCase after (r0, evs0)) in Hinv.
  intros Hc Hk [Hka _] Hmid Hat Hsize. destruct (co_answers _ _ Hc) as (Har & Haid & _). pose proof (co_concerns _ _ Hc) as (Hqr & Hp0 & _ & _).
  destruct (call_waits isBlank containsIgnoreCase r0 evs0 svq c mid Hc Hk Hmid Hsize) as (q & src & new & Hq & Hqi & Hqm & Hsrc & Hw).
  set (uid := currentTargetUid r0) in *.
  assert (exists a, (run_repository isBlank containsIgnoreCase after (r0, evs0)).2 = evs0 ++ q :: new ++ [a] /\
    ae_event a = c_reply c /\ interfaceName a = c_name c /\
    methodName a = reply_label (sg_methodName (c_signature c)) (show_outcome (c_outcome c)) /\
    ae_parsedReply a = Some (show_outcome (c_outcome c))) as (a & He & Ha & Hai & Ham & Harep).
  { unfold after, run_repository. rewrite foldl_app. unfold run_repository in Hw.
    destruct (foldl _ (r0, evs0) (Add svq (c_request c) :: mid)) as [r1 evs1]. destruct Hw as (He1 & Hu1 & Hq1).
    destruct (tryMatchReply_finds _ _ _ (matchedAt sva) _ _ (co_concerns _ _ Hc) (co_answers _ _ Hc) Hq1 Hat) as [Hm _].
    destruct (tryMatchReply (c_reply c) uid (matchedAt sva) (pairer r1)) as [m p'] eqn:Em. cbn [fst pq_result] in Hm. subst m.
    destruct (reply_parsed sva (targetUid r1) (targetPackage r1) uid c _ src (pairer r1) p' Hc Hka Hsrc Em) as (a & Ep & Hai & Ham & Harep).
    exists a. cbn [foldl repo_step]. unfold addEvent. rewrite Hu1, Ep. split; [|by split; [eapply parseEvent_event|]].
    cbn [snd option_list]. by rewrite He1, <- app_assoc. }
  exists q, a, new. do 8 (split; [done|]). intros Hids Hdr.
  destruct (run_repository isBlank containsIgnoreCase after (r0, evs0)) as [r evs]. cbn [fst snd] in *.
  destruct Hinv as (all & Hinv & Hsub). cbn [app] in *. pose proof (increasing_given _ _ Hids Hsub) as Hinc.
  assert (q ∈ evs /\ a ∈ evs) as [Hqin Hain]
    by (rewrite He; split; rewrite elem_of_app, elem_of_cons, elem_of_app, list_elem_of_singleton; auto).
  split.
  - destruct (find_other_finds all evs r q a true Hinv Hinc Hdr Hain) as (x & _ & H1 & H2 & [H3|H3]);
      rewrite ?Hq, ?Ha in *; try done; [exists x|exists (as_stored x)]; done.
  - destruct (find_other_finds all evs r a q false Hinv Hinc Hdr Hqin) as (x & _ & H1 & H2 & [H3|H3]);
      rewrite ?Hq, ?Ha in *; try done; rewrite ?Haid in *; try done; [exists x|exists (as_stored x)]; done.
Qed.

(** Services that know one method, at one time *)
Definition sample_services (t : Z) : services :=
  MkServices (λ _, Some (str "com.example.app")) (λ _, Some (str "system")) (λ _, []) (λ _ _, None)
    (λ _ _ _, Some (Some (MkSignature (str "isEnabled") [] (Some (str "boolean"))))) (λ _ _, Some []) (λ _ _, None) t t t.

Definition sample_event (id pairId : Z) : event :=
  KtEvent id 0 1200 10123 7 0 (token_parcel LayoutO [0; 0; 0; 0] (str "android.os.IServiceManager") []) false BINDER HANDLE 1500 1000 1 pairId None.

Definition sample_call : call :=
  MkCall (sample_event 0 77)
    (KtEvent 2 0 1500 1000 0 0 (outcome_layout (Returns (VBoolean true))) true BINDER KIND_UNKNOWN 1200 10123 0 77 None)
    LayoutO [0; 0; 0; 0] (str "android.os.IServiceManager") [] (MkSignature (str "isEnabled") [] (Some (str "boolean"))) []
    (Returns (VBoolean true)) [].

Lemma answered_call_shown_witness :
  let never := (λ _ : bytes, true) in
  let before := [SetTarget (λ _, Some (str "com.example.app")) 10123] in
  let mid := [MarkDirty; Add (sample_services 1500) (sample_event 1 78); Tick; EmitPublish 0] in
  let st := run_repository never (λ _ _, true)
    ((Add (sample_services 1000) (c_request sample_call) :: mid) ++ [Add (sample_services 4200) (c_reply sample_call)])
    (run_repository never (λ _ _, true) before (newRepository 0, [])) in
  exists q a new, st.2 = q :: new ++ [a] /\ methodName q = str "isEnabled" /\
    interfaceName a = str "android.os.IServiceManager" /\
    methodName a = str "isEnabled" ++ [32; 0x2190] ++ str " reply = true".
Proof.
  intros never before mid st.
  destruct (answered_call_shown never (λ _ _, true) 0 before (sample_services 1000) mid (sample_services 4200) sample_call)
    as (q & a & new & He & _ & _ & _ & Hqm & Hai & Ham & _).
  - split; try done.
    + split; [done|]. split; [done|]. split; [done|by left].
    + split; [done|]. split; [done|]. by left.
    + by repeat constructor.
    + split; [by repeat constructor|cbn; lia].
    + split; [done|]. by intros v [= <-].
  - split; [done|by eexists].
  - split; [done|by eexists].
  - by repeat constructor.
  - cbn. lia.
  - by vm_compute; lia.
  - exists q, a, new. split_and!; [exact He|exact Hqm|exact Hai|exact Ham].
Defined.

Lemma repository_consistent_witness :
  let sv := sample_services 1000 in
  let l := [Add sv (sample_event 0 0); MarkDirty; Tick; ClearLocked 7; ClearPublished; EmitPublish 0; Add sv (sample_event 3 0); MarkDirty;
            Store (inl true); Store (inl true); Store (inl true)] in
  let r := (run_repository (λ _, true) (λ _ _, true) l (newRepository 0, [])).1 in
  eventCount r = 1 /\ exists e, getEvent 3 r = Some e /\ seq_of (as_stored e) = 3.
Proof.
  intros sv l r. assert (new_ids (given l)) as Hids by (split; repeat constructor; vm_compute; congruence).
  pose proof (repository_consistent (λ _, true) (λ _ _, true) 0 l Hids) as H. unfold r. clear r.
  destruct (run_repository (λ _, true) (λ _ _, true) l (newRepository 0, [])) as [r evs] eqn:E. cbn [fst].
  assert (exists e, evs = [e] /\ seq_of e = 3) as (e & -> & He).
  { apply (f_equal snd) in E. cbn [snd] in E. rewrite <- E. eexists. split; vm_compute; reflexivity. }
  destruct H as (-> & _ & _ & _ & H). split; [reflexivity|].
  destruct H as (_ & H).
  - apply (f_equal fst) in E. cbn [fst] in E. rewrite <- E. eexists. split_and!; vm_compute; reflexivity.
  - destruct (H e) as (e' & Hg & Heq); [by apply list_elem_of_singleton|]. rewrite He in Hg. exists e'. split; [exact Hg|].
    rewrite Heq. exact He.
Defined.

(** ** Publishing beside a clear *)

(** What clearEvents publishes outside its block can be overtaken. If a
    snapshot was read before the clear and is published after it, the cleared
    events are listed again, with the counter at zero; and if an event is added
    between the block and the end of clearEvents, it is counted and in the
    window, but not listed. In both cases nothing is left to be published: the
    next ticks change nothing, until another event is added. *)
Theorem clear_overtaken isBlank containsIgnoreCase now sv w e r :
  dirty r = true -> emitting r = [] -> (addEvent sv w (clear_locked now r)).1 = Some e ->
  let stale := emit_publish isBlank containsIgnoreCase 0 (clearEvents now (tick r)) in
  let lost := clear_published (set_dirty true (addEvent sv w (clear_locked now r)).2) in
  (filteredEvents stale = snapshot_list isBlank containsIgnoreCase (currentFilter r) (deque (buffer r)) /\
   deque (buffer stale) = [] /\ eventCount stale = 0 /\ emitting stale = [] /\ tick stale = stale) /\
  (filteredEvents lost = [] /\ deque (buffer lost) = [e] /\ eventCount lost = 1 /\ emitting lost = [] /\ tick lost = lost).
Proof.
  intros Hd He Ha. unfold tick at 1. rewrite Hd. split.
  - unfold emit_publish, tick. cbn [clear_published clear_locked emit_read emitting]. rewrite He. by split_and!.
  - revert Ha. unfold addEvent. destruct (parseEvent _ _ _ _ _ _) as [[e'|] p]; [|done]. cbn [fst snd]. intros [= ->].
    unfold tick. cbn [clear_published dirty filteredEvents buffer eventCount emitting add_locked clear_locked totalCount].
    split_and!; try done.
Qed.

Lemma clear_overtaken_witness :
  let sv := sample_services 1000 in
  let r := set_dirty true (addEvent sv (sample_event 0 0) (newRepository 0)).2 in
  let stale := emit_publish (λ _, true) (λ _ _, true) 0 (clearEvents 7 (tick r)) in
  eventCount stale = 0 /\ seq_of <$> filteredEvents stale = [0].
Proof.
  intros sv r stale. destruct (addEvent sv (sample_event 3 0) (clear_locked 7 r)) as [oe r'] eqn:Ea.
  destruct oe as [e|]; [|vm_compute in Ea; discriminate Ea].
  destruct (clear_overtaken (λ _, true) (λ _ _, true) 7 sv (sample_event 3 0) e r) as [(Hf & _ & Hc & _) _];
    [reflexivity|reflexivity|by rewrite Ea|].
  split; [exact Hc|]. unfold stale. rewrite Hf. vm_compute. reflexivity.
Defined.
