(* ===== verification/AppClassLoaders.v ===== *)
(** * Classes seen by reflection, and the loaders of applications (app,
    parser/AppClassLoaderRegistry.kt, reflection of parser/MethodResolver.kt)

    A class is what reflection shows of it.  The registry keeps one loader per
    package, the package's version, the transaction names it has read, and
    which packages failed; its clearing of other caches when a package has
    changed is a list of the packages to clear.  A LinkedHashMap in access order
    is the list of its entries, least recently used first. *)

From S2P Require Import Prelude GoLang GoStd.

(** ** LinkedHashMap in access order *)

Section LinkedHashMap.
Context {K V : Type} `{EqDecision K}.
Implicit Types m : list (K * V).

Definition lhm_find (k : K) m : option V := snd <$> List.find (λ kv, bool_decide (kv.1 = k)) m.
Definition lhm_remove (k : K) m : list (K * V) := filter (λ kv, kv.1 ≠ k) m.
Definition lhm_put (k : K) (v : V) m : list (K * V) := lhm_remove k m ++ [(k, v)].
(** [m\[k\]], which makes [k] the most recently used *)
Definition lhm_get (k : K) m : option V * list (K * V) :=
  match lhm_find k m with Some v => (Some v, lhm_put k v m) | None => (None, m) end.
(** The loop that removes the eldest entry while there are too many *)
Fixpoint lhm_evict (max : nat) m : list (K * V) :=
  match m with
  | [] => []
  | _ :: m' => if (max <? length m)%nat then lhm_evict max m' else m
  end.
End LinkedHashMap.

(** ** Reflection *)

(** java.lang.reflect.Type; [JOtherType] is one of the other kinds of types, by what
    toString gives *)
#[warnings="-register-all"]
Inductive jtype :=
  | JPrimitive (simpleName : bytes)
  | JClassType (name : bytes)
  | JArray (componentType : jtype)
  | JParameterized (rawType : jtype) (actualTypeArguments : list jtype)
  | JOtherType (text : bytes).

(** A field: [None] when getInt throws; a method: [None] when its types throw *)
Record jfield := MkField { jf_name : bytes; jf_static : bool; jf_int : bool; jf_value : option Z }.
Record jmethod := MkMethod { jm_name : bytes; jm_params : option (list jtype); jm_return : option jtype }.
(** [jc_defaultName]: getDefaultTransactionName, if the class has it; it may
    throw.  [jc_methods]: getMethods, which may throw *)
Record jclass := MkClass {
  jc_fields : list jfield; jc_defaultName : option (Z -> option bytes); jc_methods : option (list jmethod) }.

(** Class.forName with a loader *)
Abbreviation loader := (bytes -> option jclass) (only parsing).

(** substringAfterLast *)
Definition after_last (c : Z) (s : bytes) : bytes :=
  match LastIndexByte c s with Some i => drop (S i) s | None => s end.

Fixpoint formatTypeName (t : jtype) : bytes :=
  match t with
  | JArray comp => formatTypeName comp ++ str "[]"
  | JPrimitive n => n
  | JClassType n => after_last 46 n
  | JParameterized raw args => formatTypeName raw ++ str "<" ++ Join (str ",") (map formatTypeName args) ++ str ">"
  | JOtherType s => after_last 46 s
  end.

Abbreviation TRANSACTION_PREFIX := (str "TRANSACTION_") (only parsing).

(** The loop over the fields of a Stub class, in loadStubTransactions and in
    getStubMap *)
Definition stub_field (c : jclass) (out : gmap Z bytes) (f : jfield) : gmap Z bytes :=
  if jf_static f && jf_int f && HasPrefix (jf_name f) TRANSACTION_PREFIX then
    match jf_value f with
    | None => out
    | Some code =>
        let plain := drop (length TRANSACTION_PREFIX) (jf_name f) in
        <[code := match jc_defaultName c with
                  | Some g => match g code with Some (x :: n) => x :: n | _ => plain end
                  | None => plain
                  end]> out
    end
  else out.

Definition stub_names (cl : loader) (interfaceName : bytes) : gmap Z bytes :=
  match cl (interfaceName ++ str "$Stub") with
  | Some c => foldl (stub_field c) ∅ (jc_fields c)
  | None => ∅
  end.

(** ** The registry *)

Record PackageMeta := MkMeta { pm_versionCode : Z; pm_lastUpdateTime : Z }.
#[global] Instance PackageMeta_eq_dec : EqDecision PackageMeta.
Proof. solve_decision. Defined.

Inductive ErrorKind := TRANSIENT | PERMANENT.

Record FailedEntry := MkFailed {
  fe_firstFailAt : Z; fe_lastFailAt : Z; fe_failCount : Z; fe_versionCode : Z; fe_lastUpdateTime : Z; fe_errorKind : ErrorKind }.

Definition computeBackoffMs (failCount : Z) (kind : ErrorKind) : Z :=
  let cap := match kind with PERMANENT => 86400000 | TRANSIENT => 3600000 end in
  let shift := Z.max 0 (Z.min 7 (s32 (failCount - 1))) in
  Z.min (s64 (Z.shiftl 30000 shift)) cap.

(** [builds]: the packages for which buildClassLoader has been launched and has
    not run yet *)
Record AppClassLoaderRegistry := MkRegistry {
  classLoaders : gmap bytes loader;
  packageMeta : gmap bytes PackageMeta;
  stubMaps : gmap bytes (gmap Z bytes);
  failedPackages : list (bytes * FailedEntry);
  builds : list bytes }.

Abbreviation newRegistry := (MkRegistry ∅ ∅ ∅ [] []) (only parsing).
Abbreviation FAILED_PACKAGES_MAX := 256%nat (only parsing).

Abbreviation set_failed f r := (MkRegistry (classLoaders r) (packageMeta r) (stubMaps r) f (builds r)) (only parsing).

Definition recordFailure (packageName : bytes) (kind : ErrorKind) (ver mtime now : Z) (r : AppClassLoaderRegistry)
    : AppClassLoaderRegistry :=
  let next :=
    match lhm_find packageName (failedPackages r) with
    | None => MkFailed now now 1 ver mtime kind
    | Some prev =>
        MkFailed (fe_firstFailAt prev) now (s32 (fe_failCount prev + 1)) ver mtime
          (match fe_errorKind prev with PERMANENT => PERMANENT | TRANSIENT => kind end)
    end in
  set_failed (lhm_evict FAILED_PACKAGES_MAX (lhm_put packageName next (failedPackages r))) r.

Definition shouldRetry (packageName : bytes) (currentVer currentMtime now : Z) (r : AppClassLoaderRegistry)
    : bool * AppClassLoaderRegistry :=
  match lhm_get packageName (failedPackages r) with
  | (None, _) => (true, r)
  | (Some e, failed) =>
      if negb (fe_versionCode e =? currentVer) || negb (fe_lastUpdateTime e =? currentMtime)
      then (true, set_failed (lhm_remove packageName failed) r)
      else (computeBackoffMs (fe_failCount e) (fe_errorKind e) <=? s64 (now - fe_lastFailAt e), set_failed failed r)
  end.

Definition getStubMap (packageName interfaceName : bytes) (r : AppClassLoaderRegistry)
    : option (gmap Z bytes) * AppClassLoaderRegistry :=
  let key := packageName ++ str "|" ++ interfaceName in
  match stubMaps r !! key with
  | Some m => (Some m, r)
  | None =>
      match classLoaders r !! packageName with
      | None => (None, r)
      | Some cl =>
          let m := stub_names cl interfaceName in
          if bool_decide (m = ∅) then (None, r)
          else (Some m, MkRegistry (classLoaders r) (packageMeta r) (<[key := m]> (stubMaps r)) (failedPackages r) (builds r))
      end
  end.

(** The entries of a package leave stubMaps. *)
Abbreviation drop_stubs packageName m := (filter (λ kv, HasPrefix kv.1 (packageName ++ str "|") = false) m) (only parsing).

(** recordPackageMeta, with what the package manager says; the packages whose
    signatures are to be cleared *)
Definition recordPackageMeta (packageName : bytes) (pm : option PackageMeta) (r : AppClassLoaderRegistry)
    : list bytes * AppClassLoaderRegistry :=
  match pm with
  | None => ([], r)
  | Some newMeta =>
      let changed := match packageMeta r !! packageName with Some old => bool_decide (old <> newMeta) | None => false end in
      (if changed then [packageName] else [],
       MkRegistry (classLoaders r) (<[packageName := newMeta]> (packageMeta r))
         (if changed then drop_stubs packageName (stubMaps r) else stubMaps r) (failedPackages r) (builds r))
  end.

Definition prepareAsync (packageName : bytes) (pm : option PackageMeta) (now : Z) (r : AppClassLoaderRegistry)
    : list bytes * AppClassLoaderRegistry :=
  match pm with
  | None => ([], recordFailure packageName PERMANENT (-1) (-1) now r)
  | Some snapshot =>
      let changed := match packageMeta r !! packageName with Some old => bool_decide (old <> snapshot) | None => false end in
      let r :=
        if changed then
          MkRegistry (delete packageName (classLoaders r)) (<[packageName := snapshot]> (packageMeta r))
            (drop_stubs packageName (stubMaps r)) (lhm_remove packageName (failedPackages r)) (builds r)
        else r in
      (if changed then [packageName] else [],
       match classLoaders r !! packageName with
       | Some _ => r
       | None =>
           let '(retry, r) := shouldRetry packageName (pm_versionCode snapshot) (pm_lastUpdateTime snapshot) now r in
           if retry then MkRegistry (classLoaders r) (packageMeta r) (stubMaps r) (failedPackages r) (builds r ++ [packageName])
           else r
       end)
  end.

(** How far buildClassLoader comes with a package: it is not installed, has no
    sourceDir, the copy of the APK fails, or neither attempt at a
    DexClassLoader works *)
Inductive build_outcome := NameNotFound | NoSourceDir | CopyFailed | LoaderFailed | Built (cl : loader).

Definition buildClassLoader (packageName : bytes) (outcome : build_outcome) (pm : option PackageMeta) (now : Z)
    (r : AppClassLoaderRegistry) : list bytes * AppClassLoaderRegistry :=
  match classLoaders r !! packageName, outcome with
  | Some _, _ => ([], r)
  | None, NameNotFound => ([], recordFailure packageName PERMANENT (-1) (-1) now r)
  | None, _ =>
      let '(cleared, r) := recordPackageMeta packageName pm r in
      let failure kind :=
        let meta := default (MkMeta (-1) (-1)) (packageMeta r !! packageName) in
        recordFailure packageName kind (pm_versionCode meta) (pm_lastUpdateTime meta) now r in
      (cleared,
       match outcome with
       | NoSourceDir => failure PERMANENT
       | Built cl =>
           MkRegistry (<[packageName := cl]> (classLoaders r)) (packageMeta r) (stubMaps r)
             (lhm_remove packageName (failedPackages r)) (builds r)
       | _ => failure TRANSIENT
       end)
  end.

(** One of the launched builds runs. *)
Definition run_build (i : nat) (outcome : build_outcome) (pm : option PackageMeta) (now : Z) (r : AppClassLoaderRegistry)
    : list bytes * AppClassLoaderRegistry :=
  match builds r !! i with
  | None => ([], r)
  | Some p =>
      buildClassLoader p outcome pm now
        (MkRegistry (classLoaders r) (packageMeta r) (stubMaps r) (failedPackages r) (delete i (builds r)))
  end.
