(* ===== verification/AppSignatures.v ===== *)
(** * Caches of method signatures (app, parser/SignatureCache.kt and
    parser/PersistentSignatureCache.kt)

    SignatureCache keeps the signatures of the interfaces used last.  The
    persistent cache is a copy in memory that one coroutine updates from a queue
    of write operations, and writes to one text of JSON in the preferences.  A
    HashMap is a [gmap] that is iterated in the order [hash_order]; org.json is
    the class [OrgJson].  An operation of the queue is one step. *)

From S2P Require Import Prelude GoLang GoStd AppWire AppReply AppCodec AppClassLoaders.

Abbreviation sigmap := (gmap bytes MethodSignature) (only parsing).

(** ** In memory *)

Record SignatureCache := MkSigCache { maxEntries : nat; store : list ((bytes * bytes) * sigmap) }.

Abbreviation bucketOf packageName := (default [] packageName) (only parsing).

Definition putSignature (packageName : option bytes) (interfaceName : bytes) (signature : MethodSignature) (c : SignatureCache)
    : SignatureCache :=
  let key := (bucketOf packageName, interfaceName) in
  let merged := <[sg_methodName signature := signature]> (default ∅ (lhm_find key (store c))) in
  MkSigCache (maxEntries c) (lhm_evict (maxEntries c) (lhm_put key merged (store c))).

(** [loaded] is what the loader gives, which has no effects; it is called on a
    miss. *)
Definition getOrLoad (packageName : option bytes) (interfaceName : bytes) (loaded : sigmap) (c : SignatureCache)
    : sigmap * SignatureCache :=
  let key := (bucketOf packageName, interfaceName) in
  match lhm_get key (store c) with
  | (Some m, store) => (m, MkSigCache (maxEntries c) store)
  | (None, _) =>
      (loaded, if bool_decide (loaded = ∅) then c
               else MkSigCache (maxEntries c) (lhm_evict (maxEntries c) (lhm_put key loaded (store c))))
  end.

Definition invalidatePackage (packageName : bytes) (c : SignatureCache) : SignatureCache :=
  MkSigCache (maxEntries c) (filter (λ kv, kv.1.1 ≠ packageName) (store c)).

(** ** On disk *)

(** The order in which a HashMap or a ConcurrentHashMap is iterated *)
Class HashIteration := {
  hash_order {V} : gmap bytes V -> list (bytes * V);
  hash_order_perm {V} (m : gmap bytes V) : hash_order m ≡ₚ map_to_list m }.

Record PackageData := MkPackageData { pd_version : Z; pd_lastUpdated : Z; pd_interfaces : gmap bytes sigmap }.

Inductive WriteOp :=
  | Put (packageName interfaceName : bytes) (versionCode lastUpdateTime : Z) (sig : sigmap)
  | Invalidate (packageName : bytes)
  | LoadComplete (staging : gmap bytes PackageData)
  | Flush (ack : nat).

Record HotCopy := MkHot {
  hc_interfaces : gmap bytes (gmap bytes sigmap); hc_meta : gmap bytes PackageMeta; hc_lastAccess : gmap bytes Z }.

(** The limits and delays the constructor is given *)
Record sig_limits := MkLimits {
  maxPackages : Z; maxBytesPerPackage : Z; totalSoftLimitBytes : Z; debounceMs : Z; debounceMaxBatch : Z }.

(** The cache, with the variables of its coroutine; [ps_acks]: the flushes that
    have been acknowledged; [ps_disk]: the text under KEY that the process reads, which
    apply() writes to the disk later *)
Record PersistentSignatureCache := MkPersistent {
  ps_hot : HotCopy; ps_queue : list WriteOp; ps_pendingDirty : list bytes; ps_firstDirtyAt : Z; ps_loadCompleted : bool;
  ps_acks : list nat; ps_disk : option bytes }.

Definition hot_put (pkg iface : bytes) (sig : sigmap) (now : Z) (h : HotCopy) : HotCopy :=
  MkHot (<[pkg := <[iface := sig]> (default ∅ (hc_interfaces h !! pkg))]> (hc_interfaces h)) (hc_meta h)
    (<[pkg := now]> (hc_lastAccess h)).

Abbreviation putPackageMeta pkg ver mtime h := (MkHot (hc_interfaces h) (<[pkg := MkMeta ver mtime]> (hc_meta h)) (hc_lastAccess h)) (only parsing).

Abbreviation removePackage pkg h := (MkHot (delete pkg (hc_interfaces h)) (delete pkg (hc_meta h)) (delete pkg (hc_lastAccess h))) (only parsing).

Definition hot_get (pkg iface : bytes) (h : HotCopy) : option sigmap :=
  match hc_interfaces h !! pkg with Some m => m !! iface | None => None end.

Abbreviation set_hot h c :=
  (MkPersistent h (ps_queue c) (ps_pendingDirty c) (ps_firstDirtyAt c) (ps_loadCompleted c) (ps_acks c) (ps_disk c)) (only parsing).

(** trySend and send on the unlimited channel *)
Abbreviation sendOp op c := (MkPersistent (ps_hot c) (ps_queue c ++ [op]) (ps_pendingDirty c) (ps_firstDirtyAt c) (ps_loadCompleted c) (ps_acks c) (ps_disk c)) (only parsing).

(** get: [None] unless the package's version is the current one *)
Definition getCached (packageName interfaceName : bytes) (currentVer currentMtime : Z) (c : PersistentSignatureCache)
    : option sigmap :=
  match hc_meta (ps_hot c) !! packageName with
  | None => None
  | Some meta =>
      if negb (pm_versionCode meta =? currentVer) || negb (pm_lastUpdateTime meta =? currentMtime) then None
      else hot_get packageName interfaceName (ps_hot c)
  end.

Abbreviation peekRaw packageName interfaceName c := (hot_get packageName interfaceName (ps_hot c)) (only parsing).

Definition putCached (packageName interfaceName : bytes) (versionCode lastUpdateTime : Z) (sig : sigmap)
    (c : PersistentSignatureCache) : PersistentSignatureCache :=
  if bool_decide (sig = ∅) then c else sendOp (Put packageName interfaceName versionCode lastUpdateTime sig) c.

(** JSONObject.remove *)
Definition json_remove (k : bytes) (o : list (bytes * json)) : list (bytes * json) := filter (λ kv, kv.1 ≠ k) o.

(** Kotlin's sortBy, which keeps the order of equal elements *)
Fixpoint sort_insert (f : bytes -> Z) (x : bytes) (l : list bytes) : list bytes :=
  match l with
  | [] => [x]
  | y :: l => if f x <=? f y then x :: y :: l else y :: sort_insert f x l
  end.
Definition sortBy (f : bytes -> Z) (l : list bytes) : list bytes := foldr (sort_insert f) [] l.

Abbreviation newPersistent disk := (MkPersistent (MkHot ∅ ∅ ∅) [] [] 0 false [] disk) (only parsing).

Section Persistent.
Context `{OrgJson} `{HashIteration} (limits : sig_limits).

(** *** Writing *)

Definition method_json (s : MethodSignature) : json :=
  JObj [(str "code", JNum (-1)); (str "paramTypes", JArr (JStr <$> sg_paramTypes s));
        (str "returnType", match sg_returnType s with Some r => JStr r | None => JNull end)].

(** An object with one member per entry of a map *)
Definition hash_json {V} (f : V -> json) (m : gmap bytes V) : list (bytes * json) :=
  foldl (λ o '(k, v), json_put k (f v) o) [] (hash_order m).

Definition package_json (meta : PackageMeta) (ifacesObj : list (bytes * json)) : list (bytes * json) :=
  [(str "version", JNum (pm_versionCode meta)); (str "lastUpdated", JNum (pm_lastUpdateTime meta));
   (str "interfaces", JObj ifacesObj)].

Fixpoint truncatePackageInterfaces (meta : PackageMeta) (keys : list bytes) (ifacesObj : list (bytes * json))
    : list (bytes * json) :=
  if (maxBytesPerPackage limits <? len (json_print (package_json meta ifacesObj))) && (1 <? Z.of_nat (length ifacesObj)) then
    match keys with
    | [] => ifacesObj
    | victim :: keys => truncatePackageInterfaces meta keys (json_remove victim ifacesObj)
    end
  else ifacesObj.

(** The loop of flushToDisk over the dirty packages *)
Definition flush_package (h : HotCopy) (packagesObj : list (bytes * json)) (pkg : bytes) : list (bytes * json) :=
  match hc_meta h !! pkg, hc_interfaces h !! pkg with
  | Some meta, Some ifaceMap =>
      if bool_decide (ifaceMap = ∅) then json_remove pkg packagesObj
      else
        let ifacesObj := hash_json (λ sigs, JObj (hash_json method_json sigs)) ifaceMap in
        let ifacesObj :=
          if maxBytesPerPackage limits <? len (json_print (package_json meta ifacesObj))
          then truncatePackageInterfaces meta (hash_order ifaceMap).*1 ifacesObj else ifacesObj in
        json_put pkg (JObj (package_json meta ifacesObj)) packagesObj
  | _, _ => json_remove pkg packagesObj
  end.

(** The loops of evictPackagesIfOverflow and evictTotalIfOverflow *)
Fixpoint evict_packages (over : list (bytes * json) -> bool) (keys : list bytes) (packagesObj : list (bytes * json)) (h : HotCopy)
    : list (bytes * json) * HotCopy :=
  match keys with
  | [] => (packagesObj, h)
  | victim :: keys =>
      if over packagesObj then evict_packages over keys (json_remove victim packagesObj) (removePackage victim h)
      else (packagesObj, h)
  end.

Abbreviation oldest_first packagesObj h := (sortBy (λ p, default 0 (hc_lastAccess h !! p)) packagesObj.*1) (only parsing).

Definition evictPackagesIfOverflow (packagesObj : list (bytes * json)) (h : HotCopy) : list (bytes * json) * HotCopy :=
  evict_packages (λ o, maxPackages limits <? Z.of_nat (length o)) (oldest_first packagesObj h) packagesObj h.

Definition evictTotalIfOverflow (packagesObj : list (bytes * json)) (h : HotCopy) : list (bytes * json) * HotCopy :=
  evict_packages (λ o, totalSoftLimitBytes limits <? len (json_print o)) (oldest_first packagesObj h) packagesObj h.

Abbreviation empty_disk := [(str "schemaVersion", JNum 1); (str "packages", JObj [])] (only parsing).
Abbreviation schema_version o := (default (-1) (json_get (str "schemaVersion") o ≫= json_toInteger)) (only parsing).

Definition readDiskJsonForMergeOrEmpty (disk : option bytes) : list (bytes * json) :=
  match disk ≫= json_parse with
  | Some obj => if schema_version obj =? 1 then obj else empty_disk
  | None => empty_disk
  end.

Definition flushToDisk (dirty : list bytes) (h : HotCopy) (disk : option bytes) : HotCopy * option bytes :=
  let merged := readDiskJsonForMergeOrEmpty disk in
  let packagesObj := default [] (optJSONObject merged (str "packages")) in
  let packagesObj := foldl (flush_package h) packagesObj dirty in
  let '(packagesObj, h) := evictPackagesIfOverflow packagesObj h in
  let '(packagesObj, h) := evictTotalIfOverflow packagesObj h in
  (h, Some (json_print (json_put (str "schemaVersion") (JNum 1) (json_put (str "packages") (JObj packagesObj) merged)))).

(** *** Reading *)

Definition parse_method (mname : bytes) (mobj : list (bytes * json)) : MethodSignature :=
  MkSignature mname (match optJSONArray mobj (str "paramTypes") with Some arr => strList arr | None => [] end)
    (match json_get (str "returnType") mobj with
     | None | Some JNull => None
     | Some v => match json_toString v with [] => None | r => Some r end
     end).

(** The loops over the keys of an object; [None] is their continue *)
Definition parse_object {V} (f : bytes -> list (bytes * json) -> option V) (o : list (bytes * json)) : gmap bytes V :=
  foldl (λ out '(k, v), match as_object v ≫= f k with Some x => <[k := x]> out | None => out end) ∅ o.

Definition parse_methods : list (bytes * json) -> sigmap := parse_object (λ mname mobj, Some (parse_method mname mobj)).

Definition parse_interfaces : list (bytes * json) -> gmap bytes sigmap :=
  parse_object (λ _ methodsObj, let methods := parse_methods methodsObj in if bool_decide (methods = ∅) then None else Some methods).

Definition parse_package (pkgObj : list (bytes * json)) : option PackageData :=
  match optJSONObject pkgObj (str "interfaces") with
  | None => None
  | Some ifacesObj =>
      let interfaces := parse_interfaces ifacesObj in
      if bool_decide (interfaces = ∅) then None
      else Some (MkPackageData (default (-1) (json_get (str "version") pkgObj ≫= json_toInteger))
                   (default (-1) (json_get (str "lastUpdated") pkgObj ≫= json_toLong)) interfaces)
  end.

(** parseJsonFromDisk and parseJsonString *)
Definition parseJsonFromDisk (disk : option bytes) : gmap bytes PackageData :=
  match disk ≫= json_parse with
  | Some obj =>
      if schema_version obj =? 1 then
        match optJSONObject obj (str "packages") with Some packages => parse_object (λ _, parse_package) packages | None => ∅ end
      else ∅
  | None => ∅
  end.

(** *** The coroutine *)

Definition applyLoadComplete (staging : gmap bytes PackageData) (now : Z) (h : HotCopy) : HotCopy :=
  foldl (λ h '(pkg, pkgData),
    let h :=
      foldl (λ h '(iface, sig),
        match hot_get pkg iface h with Some _ => h | None => hot_put pkg iface sig now h end)
        h (hash_order (pd_interfaces pkgData)) in
    match hc_meta h !! pkg with
    | Some _ => h
    | None => putPackageMeta pkg (pd_version pkgData) (pd_lastUpdated pkgData) h
    end) h (hash_order staging).

(** Writing what is dirty, if anything is *)
Definition flush_pending (c : PersistentSignatureCache) : PersistentSignatureCache :=
  match ps_pendingDirty c with
  | [] => c
  | dirty =>
      let '(h, disk) := flushToDisk dirty (ps_hot c) (ps_disk c) in
      MkPersistent h (ps_queue c) [] 0 (ps_loadCompleted c) (ps_acks c) disk
  end.

Definition mark_dirty (pkg : bytes) (now : Z) (h : HotCopy) (c : PersistentSignatureCache) : PersistentSignatureCache :=
  MkPersistent h (ps_queue c) (if bool_decide (pkg ∈ ps_pendingDirty c) then ps_pendingDirty c else ps_pendingDirty c ++ [pkg])
    (match ps_pendingDirty c with [] => now | _ => ps_firstDirtyAt c end) (ps_loadCompleted c) (ps_acks c) (ps_disk c).

Definition handle_op (now : Z) (op : WriteOp) (c : PersistentSignatureCache) : PersistentSignatureCache :=
  let batch c := if debounceMaxBatch limits <=? Z.of_nat (length (ps_pendingDirty c)) then flush_pending c else c in
  match op with
  | Put pkg iface ver mtime sig =>
      batch (mark_dirty pkg now (hot_put pkg iface sig now (putPackageMeta pkg ver mtime (ps_hot c))) c)
  | Invalidate pkg => batch (mark_dirty pkg now (removePackage pkg (ps_hot c)) c)
  | LoadComplete staging =>
      batch (MkPersistent (applyLoadComplete staging now (ps_hot c)) (ps_queue c) (ps_pendingDirty c) (ps_firstDirtyAt c) true
               (ps_acks c) (ps_disk c))
  | Flush ack =>
      let c := flush_pending c in
      MkPersistent (ps_hot c) (ps_queue c) (ps_pendingDirty c) (ps_firstDirtyAt c) (ps_loadCompleted c) (ps_acks c ++ [ack]) (ps_disk c)
  end.

(** A round of the loop: an operation is taken if there is one; without one, the
    timeout counts from the first dirty package. *)
Definition actor_round (now : Z) (c : PersistentSignatureCache) : PersistentSignatureCache :=
  match ps_queue c with
  | op :: queue =>
      handle_op now op
        (MkPersistent (ps_hot c) queue (ps_pendingDirty c) (ps_firstDirtyAt c) (ps_loadCompleted c) (ps_acks c) (ps_disk c))
  | [] => if (0 <? ps_firstDirtyAt c) && (ps_firstDirtyAt c + debounceMs limits <=? now) then flush_pending c else c
  end.

(** startActor, up to its loop *)
Definition startActor (c : PersistentSignatureCache) : PersistentSignatureCache := sendOp (LoadComplete (parseJsonFromDisk (ps_disk c))) c.

(** A new process, with what is on disk *)
End Persistent.
