(* ===== verification/AppSignaturesSpec.v ===== *)
(** * Caches of method signatures: theorems on AppSignatures *)

From S2P Require Import Prelude GoLang GoStd AppWire AppReply AppCodec AppClassLoaders AppSignatures.

(** ** LinkedHashMap *)

Section LinkedHashMap.
Context {K V : Type} `{EqDecision K}.
Implicit Types m : list (K * V).

Lemma lhm_find_elem k v m : lhm_find k m = Some v -> (k, v) ∈ m.
Proof.
  unfold lhm_find. destruct (List.find _ m) as [[k' v']|] eqn:E; [|done]. intros [= <-].
  apply find_some in E as [Hin Hk]. apply bool_decide_eq_true in Hk. cbn in Hk. subst k'. by apply list_elem_of_In.
Qed.

Lemma lhm_find_cons k k' v m : lhm_find k ((k', v) :: m) = if bool_decide (k' = k) then Some v else lhm_find k m.
Proof. unfold lhm_find. cbn. by case_bool_decide. Qed.

Lemma lhm_find_app k m1 m2 : lhm_find k (m1 ++ m2) = match lhm_find k m1 with Some v => Some v | None => lhm_find k m2 end.
Proof. induction m1 as [|[k' v] m1 IH]; [done|]. cbn [app]. rewrite !lhm_find_cons, IH. by case_bool_decide. Qed.

Lemma lhm_find_none k m : k ∉ m.*1 -> lhm_find k m = None.
Proof.
  induction m as [|[k' v] m IH]; [done|]. rewrite fmap_cons, elem_of_cons. intros Hk. rewrite lhm_find_cons.
  case_bool_decide as Hd; [by destruct Hk; left|]. apply IH. tauto.
Qed.

Lemma lhm_find_some k v m : (k, v) ∈ m -> exists v', lhm_find k m = Some v'.
Proof.
  intros (l1 & l2 & ->)%list_elem_of_split. rewrite lhm_find_app, lhm_find_cons, bool_decide_true by done.
  destruct (lhm_find k l1); by eexists.
Qed.

Lemma lhm_remove_keys k k' m : k ∈ (lhm_remove k' m).*1 -> k <> k' /\ k ∈ m.*1.
Proof.
  intros ([k2 v] & -> & Hin)%list_elem_of_fmap. apply list_elem_of_filter in Hin as [Hne Hin]. split; [done|].
  by apply (list_elem_of_fmap_2 fst) in Hin.
Qed.

Lemma lhm_find_remove k k' m : k <> k' -> lhm_find k (lhm_remove k' m) = lhm_find k m.
Proof.
  intros Hne. induction m as [|[k2 v] m IH]; [done|]. unfold lhm_remove in *. rewrite filter_cons, lhm_find_cons.
  destruct (decide (k2 = k')) as [->|Hd].
  - rewrite decide_False by (cbn; auto). by rewrite IH, bool_decide_false.
  - rewrite decide_True by done. by rewrite lhm_find_cons, IH.
Qed.

Lemma lhm_find_put k v m : lhm_find k (lhm_put k v m) = Some v.
Proof.
  unfold lhm_put. rewrite lhm_find_app, lhm_find_none, lhm_find_cons by (intros [Hk _]%lhm_remove_keys; done).
  by rewrite bool_decide_true.
Qed.

Lemma lhm_find_put_ne k k' v m : k <> k' -> lhm_find k (lhm_put k' v m) = lhm_find k m.
Proof.
  intros Hne. unfold lhm_put. rewrite lhm_find_app, lhm_find_remove by done. destruct (lhm_find k m); [done|].
  by rewrite lhm_find_cons, bool_decide_false by done.
Qed.

Lemma lhm_evict_suffix max m : exists old, m = old ++ lhm_evict max m.
Proof.
  induction m as [|x m [old IH]]; [by exists []|]. cbn [lhm_evict]. destruct (_ <? _)%nat; [|by exists []].
  exists (x :: old). cbn. by rewrite <- IH.
Qed.

Lemma lhm_evict_length max m : (length (lhm_evict max m) <= max)%nat.
Proof. induction m as [|x m IH]; cbn [lhm_evict]; [cbn; lia|]. destruct (Nat.ltb_spec max (length (x :: m))); lia. Qed.

Lemma lhm_evict_last max m x : (0 < max)%nat -> exists m', lhm_evict max (m ++ [x]) = m' ++ [x] /\ m' `suffix_of` m.
Proof.
  intros Hmax. induction m as [|y m IH]; cbn [app lhm_evict].
  - exists []. destruct (Nat.ltb_spec max (length [x])) as [Hl|_]; [cbn in Hl; lia|done].
  - destruct (_ <? _)%nat; [|by exists (y :: m)]. destruct IH as (m' & -> & Hs). exists m'. split; [done|].
    by apply suffix_cons_r.
Qed.

Lemma lhm_remove_nodup k m : NoDup m.*1 -> NoDup (lhm_remove k m).*1.
Proof. intros Hd. eapply sublist_NoDup; [exact Hd|]. apply fmap_sublist, sublist_filter. Qed.

Lemma lhm_put_nodup k v m : NoDup m.*1 -> NoDup (lhm_put k v m).*1.
Proof.
  intros Hd. unfold lhm_put. rewrite fmap_app. apply list.NoDup_app. split_and!; [by apply lhm_remove_nodup| |apply NoDup_singleton].
  intros x [Hx _]%lhm_remove_keys [= ->]%list_elem_of_singleton. done.
Qed.

Lemma lhm_evict_nodup max m : NoDup m.*1 -> NoDup (lhm_evict max m).*1.
Proof. destruct (lhm_evict_suffix max m) as [old E]. rewrite E at 1. rewrite fmap_app. intros Hd%list.NoDup_app. tauto. Qed.

(** An entry that stays is found, one that was evicted is not. *)
Lemma lhm_find_evict k max m : NoDup m.*1 -> lhm_find k (lhm_evict max m) = None \/ lhm_find k (lhm_evict max m) = lhm_find k m.
Proof.
  destruct (lhm_evict_suffix max m) as [old E]. intros Hd. destruct (lhm_find k (lhm_evict max m)) as [v|] eqn:F; [|by left].
  right. rewrite E, lhm_find_app. rewrite lhm_find_none; [by rewrite F|].
  rewrite E, fmap_app in Hd. apply list.NoDup_app in Hd as (_ & Hd & _). intros Hk. apply (Hd _ Hk).
  apply lhm_find_elem in F. by apply (list_elem_of_fmap_2 fst) in F.
Qed.

Lemma lhm_remove_Forall (P : K * V -> Prop) k m : Forall P m -> Forall P (lhm_remove k m).
Proof. rewrite !list.Forall_forall. intros Hm x [_ Hx]%list_elem_of_filter. by apply Hm. Qed.

Lemma lhm_put_Forall (P : K * V -> Prop) k v m : Forall P m -> P (k, v) -> Forall P (lhm_put k v m).
Proof. intros Hm Hv. apply list.Forall_app. split; [by apply lhm_remove_Forall|by constructor]. Qed.

Lemma lhm_evict_Forall (P : K * V -> Prop) max m : Forall P m -> Forall P (lhm_evict max m).
Proof. destruct (lhm_evict_suffix max m) as [old E]. rewrite E at 1. by intros [_ ?]%list.Forall_app. Qed.

Lemma lhm_find_Forall (P : K * V -> Prop) k v m : Forall P m -> lhm_find k m = Some v -> P (k, v).
Proof. rewrite list.Forall_forall. intros Hm Hf. by apply Hm, lhm_find_elem. Qed.
End LinkedHashMap.

(** ** Objects and maps *)

Lemma json_get_elem k v o : NoDup o.*1 -> json_get k o = Some v <-> (k, v) ∈ o.
Proof.
  induction o as [|[k' v'] o IH]; cbn; [intros _; split; [done|by intros ?%elem_of_nil]|].
  intros [Hn Hd]%list.NoDup_cons. rewrite elem_of_cons. destruct (bool_decide_reflect (k = k')) as [->|Hne].
  - split; [intros [= ->]; by left|]. intros [[= ->]|Hin]; [done|]. by apply (list_elem_of_fmap_2 fst) in Hin.
  - rewrite IH by done. split; [by right|]. intros [[= -> ->]|Hin]; done.
Qed.

Lemma json_get_remove k k' o : json_get k (json_remove k' o) = if bool_decide (k = k') then None else json_get k o.
Proof.
  unfold json_remove. induction o as [|[k2 v] o IH]; [by case_bool_decide|]. rewrite filter_cons. cbn [json_get].
  destruct (decide (k2 = k')) as [->|Hd].
  - rewrite decide_False by (cbn; auto). rewrite IH. by case_bool_decide.
  - rewrite decide_True by done. cbn [json_get]. rewrite IH. repeat case_bool_decide; congruence.
Qed.

Lemma json_get_put k k' v o : json_get k (json_put k' v o) = if bool_decide (k = k') then Some v else json_get k o.
Proof. case_bool_decide as Hk; [subst; apply json_get_put_same|by apply json_get_put_ne]. Qed.

Lemma json_obj_ok o : json_ok (JObj o) = true <-> NoDup o.*1 /\ forall k v, (k, v) ∈ o -> json_ok v = true.
Proof.
  cbn [json_ok]. rewrite andb_true_iff, bool_decide_eq_true, forallb_forall. apply and_iff_compat_l. split.
  - intros Hf k v Hin. apply (Hf (k, v)). by apply list_elem_of_In.
  - intros Hf [k v] Hin. apply (Hf k). by apply list_elem_of_In.
Qed.

Lemma json_get_ok k v o : json_ok (JObj o) = true -> json_get k o = Some v -> json_ok v = true.
Proof. intros [Hd Ho]%json_obj_ok Hg. apply json_get_elem in Hg; [|done]. by eapply Ho. Qed.

Lemma json_remove_ok k o : json_ok (JObj o) = true -> json_ok (JObj (json_remove k o)) = true.
Proof.
  rewrite !json_obj_ok. intros [Hd Ho]. split.
  - eapply sublist_NoDup; [exact Hd|]. apply fmap_sublist, sublist_filter.
  - intros k' v [_ Hin]%list_elem_of_filter. by eapply Ho.
Qed.

Section Objects.
Context `{OrgJson} `{HashIteration}.

Lemma hash_order_elem {V} (m : gmap bytes V) k v : (k, v) ∈ hash_order m <-> m !! k = Some v.
Proof. by rewrite hash_order_perm, elem_of_map_to_list. Qed.

Lemma hash_order_nodup {V} (m : gmap bytes V) : NoDup (hash_order m).*1.
Proof. rewrite hash_order_perm. apply NoDup_fst_map_to_list. Qed.

(** A fold of insertions over entries with distinct keys *)
Lemma foldl_json_put {V} (f : V -> json) l o k : NoDup l.*1 ->
  json_get k (foldl (λ o '(k, v), json_put k (f v) o) o l) =
  match lhm_find k l with Some v => Some (f v) | None => json_get k o end.
Proof.
  revert o. induction l as [|[k' v'] l IH]; intros o; [done|]. intros [Hn Hd]%list.NoDup_cons.
  cbn [foldl]. rewrite IH, lhm_find_cons, json_get_put by done. destruct (decide (k' = k)) as [->|Hne].
  - rewrite !bool_decide_true by done. by rewrite lhm_find_none.
  - by rewrite !bool_decide_false by congruence.
Qed.

Lemma lhm_find_hash {V} (m : gmap bytes V) k : lhm_find k (hash_order m) = m !! k.
Proof.
  destruct (lhm_find k (hash_order m)) as [v|] eqn:E.
  - symmetry. by apply hash_order_elem, lhm_find_elem.
  - destruct (m !! k) as [v|] eqn:F; [|done]. apply hash_order_elem in F.
    apply list_elem_of_split in F as (l1 & l2 & F). rewrite F, lhm_find_app, lhm_find_cons in E.
    rewrite bool_decide_true in E by done. by destruct (lhm_find k l1).
Qed.

Lemma hash_json_get {V} (f : V -> json) m k : json_get k (hash_json f m) = f <$> m !! k.
Proof.
  unfold hash_json. rewrite foldl_json_put, lhm_find_hash by apply hash_order_nodup. by destruct (m !! k).
Qed.

Lemma hash_json_ok {V} (f : V -> json) (m : gmap bytes V) :
  map_Forall (λ _ v, json_ok (f v) = true) m -> json_ok (JObj (hash_json f m)) = true.
Proof.
  intros Hm. unfold hash_json. assert (Forall (λ kv, json_ok (f kv.2) = true) (hash_order m)) as Hl.
  { apply list.Forall_forall. intros [k v] Hin%hash_order_elem. by apply (Hm k). }
  assert (json_ok (JObj []) = true) as Ho by done. revert Hl Ho. generalize (@nil (bytes * json)) as o.
  induction (hash_order m) as [|[k v] l IH]; intros o; [done|]. intros [Hv Hl]%list.Forall_cons Ho.
  apply IH; [done|]. by apply json_put_ok.
Qed.

(** What a loop over the keys of an object collects *)
Lemma parse_object_get {V} (f : bytes -> list (bytes * json) -> option V) o k : NoDup o.*1 ->
  parse_object f o !! k = v ← json_get k o; as_object v ≫= f k.
Proof.
  intros Hd. unfold parse_object. transitivity (match (v ← json_get k o; as_object v ≫= f k) with
    | Some x => Some x | None => (∅ : gmap bytes V) !! k end).
  2:{ rewrite lookup_empty. by destruct (json_get k o ≫= _). }
  generalize (∅ : gmap bytes V) as out. induction o as [|[k' v] o IH]; intros out; [done|].
  apply list.NoDup_cons in Hd as [Hn Hd]. cbn [foldl json_get]. rewrite IH by done.
  destruct (bool_decide_reflect (k = k')) as [->|Hne].
  - assert (json_get k' o = None) as -> by (destruct (json_get k' o) as [w|] eqn:E; [|done];
      apply json_get_elem in E; [by apply (list_elem_of_fmap_2 fst) in E|done]).
    cbn [mbind option_bind]. destruct (as_object v) as [w|]; [|done]. cbn [mbind option_bind].
    destruct (f k' w); [apply lookup_insert_eq|done].
  - destruct (json_get k o ≫= _); [done|]. destruct (as_object v ≫= f k'); [by rewrite lookup_insert_ne|done].
Qed.
End Objects.

(** ** What is written is read *)

Definition sigs_ok (m : gmap bytes MethodSignature) : Prop :=
  m <> ∅ /\ map_Forall (λ n s, sg_methodName s = n /\ sg_returnType s <> Some []) m.
Definition meta_ok (m : PackageMeta) : Prop := is_int (pm_versionCode m) /\ is_long (pm_lastUpdateTime m).
Definition data_meta (d : PackageData) : PackageMeta := MkMeta (pd_version d) (pd_lastUpdated d).
Definition package_ok (d : PackageData) : Prop := meta_ok (data_meta d) /\ map_Forall (λ _ m, sigs_ok m) (pd_interfaces d).

Section Disk.
Context `{OrgJson} `{HashIteration} (limits : sig_limits).

Abbreviation interfaces_json m := (hash_json (λ sigs, JObj (hash_json method_json sigs)) m) (only parsing).

Lemma method_json_ok s : json_ok (method_json s) = true.
Proof.
  unfold method_json. apply json_obj_ok. split.
  - apply (bool_decide_unpack _). by vm_compute.
  - intros k v. rewrite !elem_of_cons, elem_of_nil.
    intros [[= -> ->]|[[= -> ->]|[[= -> ->]|[]]]]; [done| |by destruct (sg_returnType s)].
    apply JArr_ok. by apply list.Forall_forall.
Qed.

Lemma interfaces_json_ok m : json_ok (JObj (interfaces_json m)) = true.
Proof. apply hash_json_ok. intros i sigs _. apply hash_json_ok. intros n s _. apply method_json_ok. Qed.

Lemma json_ok_nodup o : json_ok (JObj o) = true -> NoDup o.*1.
Proof. intros Ho. by apply json_obj_ok in Ho as [? _]. Qed.

Lemma parse_methods_json m : sigs_ok m -> parse_methods (hash_json method_json m) = m.
Proof.
  intros [_ Hm]. apply map_eq. intros n. unfold parse_methods. rewrite parse_object_get, hash_json_get.
  2:{ apply json_ok_nodup, hash_json_ok. intros k s _. apply method_json_ok. }
  destruct (m !! n) as [[n' ts rt]|] eqn:E; [|done]. destruct (Hm _ _ E) as [Hn Hr]. cbn in Hn, Hr. subst n'.
  cbn [fmap option_fmap option_map mbind option_bind as_object method_json sg_paramTypes sg_returnType]. f_equal. unfold parse_method.
  assert (json_toString <$> (JStr <$> ts) = ts) as Et.
  { rewrite <- list_fmap_compose. rewrite <- (list_fmap_id ts) at 2. apply list_fmap_ext. intros. apply json_toString_str. }
  unfold optJSONArray. json_members. cbn [fmap option_fmap option_map default]. rewrite Et. f_equal.
  destruct rt as [r|]; [|done]. rewrite json_toString_str. by destruct r.
Qed.

(** The interfaces that are left of a package *)
Lemma parse_interfaces_get io m i : (forall i v, json_get i io = Some v -> json_get i (interfaces_json m) = Some v) ->
  json_ok (JObj io) = true -> map_Forall (λ _ m, sigs_ok m) m ->
  parse_interfaces io !! i = match json_get i io with Some _ => m !! i | None => None end.
Proof.
  intros Hsub Hok Hm. unfold parse_interfaces. rewrite parse_object_get by by apply json_ok_nodup.
  destruct (json_get i io) as [v|] eqn:E; [|done]. specialize (Hsub _ _ E). rewrite hash_json_get in Hsub.
  destruct (m !! i) as [sigs|] eqn:F; [|done]. cbn in Hsub. injection Hsub as <-. cbn [mbind option_bind as_object].
  specialize (Hm _ _ F). rewrite parse_methods_json by done. by rewrite bool_decide_false by apply Hm.
Qed.

Lemma truncate_sub meta keys io i v : json_get i (truncatePackageInterfaces limits meta keys io) = Some v -> json_get i io = Some v.
Proof.
  revert io. induction keys as [|k keys IH]; intros io; cbn; (destruct (_ && _); [|done]); [done|]. intros E%IH.
  rewrite json_get_remove in E. by case_bool_decide.
Qed.

Lemma truncate_ok meta keys io : json_ok (JObj io) = true -> json_ok (JObj (truncatePackageInterfaces limits meta keys io)) = true.
Proof.
  revert io. induction keys as [|k keys IH]; intros io; cbn [truncatePackageInterfaces]; (destruct (_ && _); [|done]); [done|].
  intros Hio. by apply IH, json_remove_ok.
Qed.

Lemma package_json_ok meta io : meta_ok meta -> json_ok (JObj io) = true -> json_ok (JObj (package_json meta io)) = true.
Proof.
  intros [Hv Ht] Hio. apply json_obj_ok. split; [apply (bool_decide_unpack _); by vm_compute|].
  intros k v. unfold package_json. rewrite !elem_of_cons, elem_of_nil.
  intros [[= -> ->]|[[= -> ->]|[[= -> ->]|[]]]]; [by apply JNum_ok, is_int_long|by apply JNum_ok|done].
Qed.

Lemma parse_package_json meta io : meta_ok meta ->
  parse_package (package_json meta io) =
  if bool_decide (parse_interfaces io = ∅) then None
  else Some (MkPackageData (pm_versionCode meta) (pm_lastUpdateTime meta) (parse_interfaces io)).
Proof.
  intros [Hv Ht]. unfold parse_package, optJSONObject, package_json. json_members.
  cbn [mbind option_bind]. rewrite json_toInteger_num, json_toLong_num. cbn [default].
  by rewrite s32_int.
Qed.
(** *** A flush *)

Definition disk_packages (disk : option bytes) : list (bytes * json) :=
  default [] (optJSONObject (readDiskJsonForMergeOrEmpty disk) (str "packages")).
Definition disk_ok (disk : option bytes) : Prop :=
  json_ok (JObj (readDiskJsonForMergeOrEmpty disk)) = true /\ map_Forall (λ _ d, package_ok d) (parseJsonFromDisk disk).
Definition hot_ok (h : HotCopy) : Prop :=
  (forall p i m, hot_get p i h = Some m -> sigs_ok m) /\ map_Forall (λ _ m, meta_ok m) (hc_meta h).

Lemma parse_disk disk : parseJsonFromDisk disk = parse_object (λ _, parse_package) (disk_packages disk).
Proof.
  unfold parseJsonFromDisk, disk_packages, readDiskJsonForMergeOrEmpty. destruct (disk ≫= json_parse) as [o|]; [|done].
  destruct (_ =? 1); [|done]. by destruct (optJSONObject o (str "packages")).
Qed.

Lemma disk_packages_ok disk : disk_ok disk -> json_ok (JObj (disk_packages disk)) = true.
Proof.
  intros [Hd _]. unfold disk_packages, optJSONObject. destruct (json_get _ _) as [v|] eqn:E; [|done].
  apply json_get_ok in E; [|done]. by destruct v.
Qed.

Lemma parse_disk_get disk p : disk_ok disk ->
  parseJsonFromDisk disk !! p = v ← json_get p (disk_packages disk); as_object v ≫= parse_package.
Proof. intros Hd. rewrite parse_disk, parse_object_get; [done|]. by apply json_ok_nodup, disk_packages_ok. Qed.

(** What a flush writes for a package *)
Definition entry (h : HotCopy) (p : bytes) : option json :=
  match hc_meta h !! p, hc_interfaces h !! p with
  | Some meta, Some m =>
      if bool_decide (m = ∅) then None
      else
        let io := interfaces_json m in
        Some (JObj (package_json meta (if maxBytesPerPackage limits <? len (json_print (package_json meta io))
          then truncatePackageInterfaces limits meta (hash_order m).*1 io else io)))
  | _, _ => None
  end.

Lemma flush_package_entry h o p :
  flush_package limits h o p = match entry h p with Some v => json_put p v o | None => json_remove p o end.
Proof.
  unfold flush_package, entry. destruct (hc_meta h !! p), (hc_interfaces h !! p); try done. by case_bool_decide.
Qed.

Lemma flush_packages_get h dirty o q :
  json_get q (foldl (flush_package limits h) o dirty) = if bool_decide (q ∈ dirty) then entry h q else json_get q o.
Proof.
  revert o. induction dirty as [|p dirty IH]; intros o; [done|]. cbn [foldl]. rewrite IH.
  destruct (decide (q ∈ dirty)) as [Hq|Hq].
  - by rewrite !bool_decide_true by (rewrite ?elem_of_cons; auto).
  - rewrite (bool_decide_false (q ∈ dirty)) by done. rewrite flush_package_entry.
    destruct (decide (q = p)) as [->|Hne].
    + rewrite bool_decide_true by (rewrite elem_of_cons; auto).
      destruct (entry h p); rewrite ?json_get_put, ?json_get_remove; by rewrite bool_decide_true.
    + rewrite bool_decide_false by (rewrite elem_of_cons; tauto).
      destruct (entry h p); rewrite ?json_get_put, ?json_get_remove; by rewrite bool_decide_false.
Qed.

Lemma entry_ok h p v : hot_ok h -> entry h p = Some v -> json_ok v = true.
Proof.
  intros [_ Hm]. unfold entry. destruct (hc_meta h !! p) as [meta|] eqn:E, (hc_interfaces h !! p) as [m|]; try done.
  case_bool_decide; [done|]. intros [= <-]. apply package_json_ok; [by eapply Hm|].
  destruct (_ <? _); [apply truncate_ok|]; apply interfaces_json_ok.
Qed.

Lemma flush_packages_ok h dirty o : hot_ok h -> json_ok (JObj o) = true ->
  json_ok (JObj (foldl (flush_package limits h) o dirty)) = true.
Proof.
  intros Hh. revert o. induction dirty as [|p dirty IH]; intros o Ho; [done|]. cbn [foldl]. apply IH.
  rewrite flush_package_entry. destruct (entry h p) eqn:E; [|by apply json_remove_ok].
  apply json_put_ok; [done|]. by eapply entry_ok.
Qed.

(** The package that is read where [entry] was written *)
Definition covers (h : HotCopy) (p : bytes) (d : PackageData) : Prop :=
  hc_meta h !! p = Some (data_meta d) /\ forall i m, pd_interfaces d !! i = Some m -> hot_get p i h = Some m.

Lemma entry_covers h p v d : hot_ok h -> entry h p = Some v -> as_object v ≫= parse_package = Some d -> covers h p d /\ package_ok d.
Proof.
  intros [Hs Hm]. unfold entry. destruct (hc_meta h !! p) as [meta|] eqn:E, (hc_interfaces h !! p) as [m|] eqn:F; try done.
  case_bool_decide as Hne; [done|]. intros [= <-]. cbn [as_object mbind option_bind].
  assert (map_Forall (λ _ m, sigs_ok m) m) as Hm' by (intros i s Hi; apply (Hs p i); unfold hot_get; by rewrite F).
  rewrite parse_package_json by by eapply Hm. case_bool_decide; [done|]. intros [= <-]. set (io := if _ <? _ then _ else _).
  assert (forall i, parse_interfaces io !! i = match json_get i io with Some _ => m !! i | None => None end) as Hio.
  { intros i. unfold io. apply parse_interfaces_get; [|destruct (_ <? _); [apply truncate_ok|]; apply interfaces_json_ok|done].
    intros j w. destruct (_ <? _); [apply truncate_sub|done]. }
  assert (forall i s, parse_interfaces io !! i = Some s -> m !! i = Some s) as Hio'
    by (intros i s; rewrite Hio; by destruct (json_get i io)).
  split; [split|split].
  - rewrite E. by destruct meta.
  - cbn. intros i s Hi%Hio'. unfold hot_get. by rewrite F.
  - destruct (Hm _ _ E) as [? ?]. by split.
  - cbn. intros i s Hi%Hio'. by eapply Hm'.
Qed.

Definition fits_limit (h : HotCopy) (p : bytes) : Prop :=
  forall meta m, hc_meta h !! p = Some meta -> hc_interfaces h !! p = Some m ->
  len (json_print (package_json meta (interfaces_json m))) <= maxBytesPerPackage limits.

Lemma entry_whole h p meta m : hot_ok h -> hc_meta h !! p = Some meta -> hc_interfaces h !! p = Some m -> m <> ∅ -> fits_limit h p ->
  exists v, entry h p = Some v /\
    as_object v ≫= parse_package = Some (MkPackageData (pm_versionCode meta) (pm_lastUpdateTime meta) m).
Proof.
  intros [Hs Hm] E F Hne Hf. specialize (Hf _ _ E F). unfold entry. rewrite E, F, bool_decide_false by done.
  eexists. split; [done|]. destruct (Z.ltb_spec (maxBytesPerPackage limits) (len (json_print (package_json meta (interfaces_json m))))); [lia|].
  assert (map_Forall (λ _ m, sigs_ok m) m) as Hm' by (intros i s Hi; apply (Hs p i); unfold hot_get; by rewrite F).
  assert (parse_interfaces (interfaces_json m) = m) as Em.
  { apply map_eq. intros i. rewrite (parse_interfaces_get _ m) by (done || apply interfaces_json_ok). rewrite hash_json_get.
    by destruct (m !! i). }
  cbn [as_object mbind option_bind]. rewrite parse_package_json by by eapply Hm. by rewrite Em, bool_decide_false.
Qed.
(** Two copies that say the same of a package *)
Definition same_package (h h' : HotCopy) (p : bytes) : Prop :=
  hc_meta h' !! p = hc_meta h !! p /\ hc_interfaces h' !! p = hc_interfaces h !! p.

Lemma same_hot_get h h' p i : same_package h h' p -> hot_get p i h' = hot_get p i h.
Proof. intros [_ E]. unfold hot_get. by rewrite E. Qed.

Lemma same_covers h h' p d : same_package h h' p -> covers h p d -> covers h' p d.
Proof. intros Hs [Hm Hi]. split; [by rewrite (proj1 Hs)|]. intros i m E. rewrite (same_hot_get _ _ _ _ Hs). by apply Hi. Qed.

Lemma remove_same p h q : q <> p -> same_package h (removePackage p h) q.
Proof. intros Hne. by split; cbn; rewrite lookup_delete_ne. Qed.

Lemma removePackage_ok p h : hot_ok h -> hot_ok (removePackage p h).
Proof.
  intros [Hs Hm]. split.
  - intros q i m. destruct (decide (q = p)) as [->|Hne].
    + unfold hot_get. cbn. by rewrite lookup_delete_eq.
    + rewrite (same_hot_get _ _ _ _ (remove_same _ _ _ Hne)). apply Hs.
  - cbn. intros q m [_ Hq]%lookup_delete_Some. by eapply Hm.
Qed.

(** An evicted package leaves both copies, any other stays as it is. *)
Lemma evict_packages_spec over keys o h : hot_ok h -> json_ok (JObj o) = true ->
  let '(o', h') := evict_packages over keys o h in
  hot_ok h' /\ json_ok (JObj o') = true /\
  forall p, json_get p o' = None /\ hc_meta h' !! p = None \/ json_get p o' = json_get p o /\ same_package h h' p.
Proof.
  revert o h. induction keys as [|k keys IH]; intros o h Hh Ho; cbn [evict_packages].
  { split_and!; [done..|]. intros p. by right. }
  destruct (over o); [|split_and!; [done..|]; intros p; by right].
  specialize (IH (json_remove k o) (removePackage k h) (removePackage_ok _ _ Hh) (json_remove_ok _ _ Ho)).
  destruct (evict_packages _ _ _ _) as [o' h']. destruct IH as (Hh' & Ho' & IH). split_and!; [done..|]. intros p.
  destruct (IH p) as [?|[Eo [E1 E2]]]; [by left|]. rewrite json_get_remove in Eo. cbn in E1, E2.
  destruct (decide (p = k)) as [->|Hne].
  - left. rewrite bool_decide_true in Eo by done. by rewrite Eo, E1, lookup_delete_eq.
  - right. rewrite bool_decide_false in Eo by done. unfold same_package. by rewrite Eo, E1, E2, !lookup_delete_ne.
Qed.

Lemma flushToDisk_spec dirty h disk : hot_ok h -> disk_ok disk ->
  let '(h', disk') := flushToDisk limits dirty h disk in
  hot_ok h' /\ disk_ok disk' /\
  forall p, parseJsonFromDisk disk' !! p = None /\ hc_meta h' !! p = None \/
    same_package h h' p /\
    parseJsonFromDisk disk' !! p =
      if bool_decide (p ∈ dirty) then v ← entry h p; as_object v ≫= parse_package else parseJsonFromDisk disk !! p.
Proof.
  intros Hh Hd. unfold flushToDisk. fold (disk_packages disk). set (o := foldl _ _ dirty).
  assert (json_ok (JObj o) = true) as Ho by by apply flush_packages_ok, disk_packages_ok.
  unfold evictPackagesIfOverflow, evictTotalIfOverflow.
  match goal with |- context [evict_packages ?f ?ks o h] => pose proof (evict_packages_spec f ks o h Hh Ho) as H1;
    destruct (evict_packages f ks o h) as [o1 h1] end. destruct H1 as (Hh1 & Ho1 & H1).
  match goal with |- context [evict_packages ?f ?ks o1 h1] => pose proof (evict_packages_spec f ks o1 h1 Hh1 Ho1) as H2;
    destruct (evict_packages f ks o1 h1) as [o2 h2] end. destruct H2 as (Hh2 & Ho2 & H2).
  set (root := json_put (str "schemaVersion") (JNum 1) (json_put (str "packages") (JObj o2) (readDiskJsonForMergeOrEmpty disk))).
  assert (json_ok (JObj root) = true) as Hr by (apply json_put_ok; [apply json_put_ok; [apply Hd|done]|done]).
  assert (readDiskJsonForMergeOrEmpty (Some (json_print root)) = root) as Er.
  { unfold readDiskJsonForMergeOrEmpty. cbn [mbind option_bind]. rewrite json_parse_print by done. unfold root at 1. json_fields.
    cbn [mbind option_bind]. by rewrite json_toInteger_num. }
  assert (disk_packages (Some (json_print root)) = o2) as Ep.
  { unfold disk_packages. rewrite Er. unfold optJSONObject, root. by json_fields. }
  assert (forall p, parseJsonFromDisk (Some (json_print root)) !! p = v ← json_get p o2; as_object v ≫= parse_package) as Hget.
  { intros p. rewrite parse_disk, Ep. by apply (parse_object_get (λ _, parse_package)), json_ok_nodup. }
  assert (forall p, json_get p o2 = None /\ hc_meta h2 !! p = None \/ json_get p o2 = json_get p o /\ same_package h h2 p) as H3.
  { intros p. destruct (H2 p) as [?|[E2 [S1 S2]]]; [by left|]. unfold same_package. rewrite E2, S1, S2. apply H1. }
  assert (forall p, parseJsonFromDisk (Some (json_print root)) !! p = None /\ hc_meta h2 !! p = None \/
    same_package h h2 p /\ parseJsonFromDisk (Some (json_print root)) !! p =
      if bool_decide (p ∈ dirty) then v ← entry h p; as_object v ≫= parse_package else parseJsonFromDisk disk !! p) as Hall.
  { intros p. rewrite Hget. destruct (H3 p) as [[-> ?]|[-> ?]]; [by left|]. right. split; [done|]. unfold o.
    rewrite flush_packages_get. case_bool_decide; [done|]. by rewrite parse_disk_get. }
  split_and!; [done| |done]. split; [by rewrite Er|]. intros p d E. destruct (Hall p) as [[E' _]|[_ E']]; [congruence|].
  rewrite E in E'. case_bool_decide; [|symmetry in E'; by eapply Hd].
  destruct (entry h p) as [v|] eqn:Ev; [|done]. by eapply (entry_covers h p).
Qed.

(** *** Loading *)

Definition load_interface (pkg : bytes) (now : Z) (h : HotCopy) (x : bytes * gmap bytes MethodSignature) : HotCopy :=
  let '(iface, sig) := x in match hot_get pkg iface h with Some _ => h | None => hot_put pkg iface sig now h end.

Lemma hot_get_put q j p i m now h : hot_get q j (hot_put p i m now h) = if bool_decide (q = p /\ j = i) then Some m else hot_get q j h.
Proof.
  unfold hot_get. cbn. destruct (decide (q = p)) as [->|Hq].
  - rewrite lookup_insert_eq. destruct (decide (j = i)) as [->|Hj].
    + rewrite bool_decide_true by done. by rewrite lookup_insert_eq.
    + rewrite bool_decide_false by tauto. rewrite lookup_insert_ne by done. by destruct (hc_interfaces h !! p).
  - rewrite bool_decide_false by tauto. by rewrite lookup_insert_ne.
Qed.

Lemma load_interfaces_get pkg now l h : NoDup l.*1 ->
  let h' := foldl (load_interface pkg now) h l in
  hc_meta h' = hc_meta h /\
  forall q i, hot_get q i h' = match hot_get q i h with Some m => Some m | None => if bool_decide (q = pkg) then lhm_find i l else None end.
Proof.
  revert h. induction l as [|[j m] l IH]; intros h; cbn [foldl].
  { intros _. split; [done|]. intros q i. destruct (hot_get q i h); [done|]. by case_bool_decide. }
  intros [Hn Hd]%list.NoDup_cons. destruct (IH (load_interface pkg now h (j, m)) Hd) as [Em Eg]. split.
  { rewrite Em. cbn. by destruct (hot_get pkg j h). }
  intros q i. rewrite Eg, lhm_find_cons. cbn [load_interface]. destruct (hot_get pkg j h) as [m'|] eqn:Ej.
  - destruct (hot_get q i h) eqn:Ei; [done|]. case_bool_decide as Hq; [|done]. subst q.
    rewrite bool_decide_false; [done|]. intros ->. congruence.
  - rewrite hot_get_put. destruct (decide (q = pkg)) as [->|Hq].
    + rewrite (bool_decide_true (pkg = pkg)) by done. destruct (decide (i = j)) as [->|Hi].
      * by rewrite !bool_decide_true, Ej by done.
      * by rewrite !bool_decide_false by (try intros [_ ?]; congruence).
    + rewrite (bool_decide_false (q = pkg)) by done. rewrite bool_decide_false by tauto. done.
Qed.
Definition load_package (now : Z) (h : HotCopy) (x : bytes * PackageData) : HotCopy :=
  let h := foldl (load_interface x.1 now) h (hash_order (pd_interfaces x.2)) in
  match hc_meta h !! x.1 with Some _ => h | None => putPackageMeta x.1 (pd_version x.2) (pd_lastUpdated x.2) h end.

Lemma load_package_get now h p d :
  (forall q i, hot_get q i (load_package now h (p, d)) =
    match hot_get q i h with Some m => Some m | None => if bool_decide (q = p) then pd_interfaces d !! i else None end) /\
  forall q, hc_meta (load_package now h (p, d)) !! q =
    match hc_meta h !! q with Some m => Some m | None => if bool_decide (q = p) then Some (data_meta d) else None end.
Proof.
  unfold load_package. cbn [fst snd]. destruct (load_interfaces_get p now (hash_order (pd_interfaces d)) h (hash_order_nodup _)) as [Em Eg].
  set (h1 := foldl _ h _) in *. rewrite Em. split.
  - intros q i. rewrite <- (lhm_find_hash (pd_interfaces d) i). transitivity (hot_get q i h1); [by destruct (hc_meta h !! p)|apply Eg].
  - intros q. destruct (hc_meta h !! p) as [m|] eqn:E.
    + rewrite Em. destruct (hc_meta h !! q) eqn:Eq; [done|]. rewrite bool_decide_false; [done|]. intros ->. congruence.
    + cbn. destruct (decide (q = p)) as [->|Hne].
      * by rewrite lookup_insert_eq, E, bool_decide_true.
      * rewrite lookup_insert_ne, bool_decide_false by done. by destruct (hc_meta h !! q).
Qed.

Lemma applyLoadComplete_fold staging now h : applyLoadComplete staging now h = foldl (load_package now) h (hash_order staging).
Proof.
  unfold applyLoadComplete. revert h. induction (hash_order staging) as [|[p d] l IH]; intros h; [done|]. cbn [foldl]. by rewrite IH.
Qed.

Lemma load_packages_get now l h : NoDup l.*1 ->
  let h' := foldl (load_package now) h l in
  (forall q i, hot_get q i h' = match hot_get q i h with Some m => Some m | None => d ← lhm_find q l; pd_interfaces d !! i end) /\
  forall q, hc_meta h' !! q = match hc_meta h !! q with Some m => Some m | None => data_meta <$> lhm_find q l end.
Proof.
  revert h. induction l as [|[p d] l IH]; intros h; cbn [foldl].
  { intros _. split; intros q; [intros i|]; [by destruct (hot_get q i h)|by destruct (hc_meta h !! q)]. }
  intros [Hn Hd]%list.NoDup_cons. destruct (IH (load_package now h (p, d)) Hd) as [IHg IHm].
  destruct (load_package_get now h p d) as [Eg Em]. split.
  - intros q i. rewrite IHg, Eg, lhm_find_cons. destruct (hot_get q i h); [done|]. destruct (decide (q = p)) as [->|Hne].
    + rewrite !bool_decide_true by done. cbn [mbind option_bind]. rewrite lhm_find_none by done. by destruct (pd_interfaces d !! i).
    + by rewrite !bool_decide_false by congruence.
  - intros q. rewrite IHm, Em, lhm_find_cons. destruct (hc_meta h !! q); [done|]. destruct (decide (q = p)) as [->|Hne].
    + by rewrite !bool_decide_true by done.
    + by rewrite !bool_decide_false by congruence.
Qed.

Lemma applyLoadComplete_get staging now h :
  (forall q i, hot_get q i (applyLoadComplete staging now h) =
    match hot_get q i h with Some m => Some m | None => d ← staging !! q; pd_interfaces d !! i end) /\
  forall q, hc_meta (applyLoadComplete staging now h) !! q =
    match hc_meta h !! q with Some m => Some m | None => data_meta <$> staging !! q end.
Proof.
  rewrite applyLoadComplete_fold. destruct (load_packages_get now _ h (hash_order_nodup staging)) as [Hg Hm].
  split; intros q; [intros i; rewrite Hg|rewrite Hm]; by rewrite lhm_find_hash.
Qed.

Lemma applyLoadComplete_ok staging now h : hot_ok h -> map_Forall (λ _ d, package_ok d) staging -> hot_ok (applyLoadComplete staging now h).
Proof.
  intros [Hs Hm] Hst. destruct (applyLoadComplete_get staging now h) as [Eg Em]. split.
  - intros p i m. rewrite Eg. destruct (hot_get p i h) eqn:E; [intros [= <-]; by eapply Hs|].
    destruct (staging !! p) as [d|] eqn:F; [|done]. cbn. intros Hi. by eapply (proj2 (Hst _ _ F)).
  - intros p m. cbv beta. rewrite Em. destruct (hc_meta h !! p) eqn:E; [intros [= <-]; by eapply Hm|].
    destruct (staging !! p) as [d|] eqn:F; [|done]. intros [= <-]. by apply (Hst _ _ F).
Qed.

(** ** Runs *)

(** Operations are sent, the coroutine starts, takes a round, or the process
    ends and a new one begins with what is on disk *)
Inductive cache_step := Send (op : WriteOp) | Start | Round (now : Z) | Restart.

Definition op_ok (op : WriteOp) : Prop :=
  match op with
  | Put _ _ ver mtime sig => meta_ok (MkMeta ver mtime) /\ sigs_ok sig
  | LoadComplete _ => False
  | _ => True
  end.

Definition cache_step_of (x : cache_step) (s : bool * PersistentSignatureCache) : bool * PersistentSignatureCache :=
  let '(started, c) := s in
  match x with
  | Send op => (started, sendOp op c)
  | Start => if started then s else (true, startActor c)
  | Round now => if started then (true, actor_round limits now c) else s
  | Restart => (false, newPersistent (ps_disk c))
  end.

Definition run_cache (l : list cache_step) : bool * PersistentSignatureCache := foldl (flip cache_step_of) (false, newPersistent None) l.
Definition sends_ok (l : list cache_step) : Prop := forall op, Send op ∈ l -> op_ok op.

(** The tables that are still to be loaded *)
Definition loads (q : list WriteOp) : list (gmap bytes PackageData) :=
  omap (λ op, match op with LoadComplete s => Some s | _ => None end) q.

(** What is on disk of a package that is not dirty is in the copy, or will be
    once the table read at the start is loaded. *)
Record cache_inv (ld : list (gmap bytes PackageData)) (c : PersistentSignatureCache) : Prop := {
  ci_hot : hot_ok (ps_hot c);
  ci_disk : disk_ok (ps_disk c);
  ci_loads : Forall (map_Forall (λ _ d, package_ok d)) ld;
  ci_queue : Forall (λ op, match op with LoadComplete _ => True | _ => op_ok op end) (ps_queue c);
  ci_clean p d : p ∉ ps_pendingDirty c -> parseJsonFromDisk (ps_disk c) !! p = Some d ->
    covers (ps_hot c) p d \/
    hc_meta (ps_hot c) !! p = None /\ (forall i, hot_get p i (ps_hot c) = None) /\ exists s, ld = [s] /\ s !! p = Some d }.

Lemma flush_pending_inv ld c : cache_inv ld c -> cache_inv ld (flush_pending limits c).
Proof.
  intros Hinv. unfold flush_pending. destruct (ps_pendingDirty c) as [|x dirty] eqn:E; [done|]. rewrite <- E. clear E.
  destruct Hinv as [Hh Hd Hl Hq Hc].
  pose proof (flushToDisk_spec (ps_pendingDirty c) (ps_hot c) (ps_disk c) Hh Hd) as Hf.
  destruct (flushToDisk _ _ _ _) as [h disk]. destruct Hf as (Hh' & Hd' & Hf). constructor; cbn; [done..|].
  intros p d _ Hp. destruct (Hf p) as [[? _]|[Hs Ep]]; [congruence|]. rewrite Hp in Ep. case_bool_decide as Hdirty.
  - left. destruct (entry (ps_hot c) p) as [v|] eqn:Ev; [|done]. eapply same_covers; [done|]. by eapply entry_covers.
  - destruct (Hc p d Hdirty) as [?|(Hm & Hi & Hld)]; [done|left; by eapply same_covers|]. right. split_and!; [by rewrite (proj1 Hs)| |done].
    intros i. by rewrite (same_hot_get _ _ _ _ Hs).
Qed.
Lemma flush_pending_keeps c : ps_queue (flush_pending limits c) = ps_queue c /\ ps_loadCompleted (flush_pending limits c) = ps_loadCompleted c.
Proof. unfold flush_pending. destruct (ps_pendingDirty c); [done|]. by destruct (flushToDisk _ _ _ _). Qed.

Lemma mark_dirty_inv ld p now h c : cache_inv ld c -> hot_ok h -> (forall q, q <> p -> same_package (ps_hot c) h q) ->
  cache_inv ld (mark_dirty p now h c).
Proof.
  intros [Hh Hd Hl Hq Hc] Hh' Hs. constructor; cbn; [done..|]. intros q d Hn Hp.
  assert (q <> p /\ q ∉ ps_pendingDirty c) as [Hne Hnd].
  { case_bool_decide as Hin; [split; [intros ->|]; done|]. rewrite elem_of_app, list_elem_of_singleton in Hn. tauto. }
  specialize (Hs q Hne). destruct (Hc q d Hnd Hp) as [?|(Hm & Hi & Hld)]; [left; by eapply same_covers|].
  right. split_and!; [by rewrite (proj1 Hs)| |done]. intros i. by rewrite (same_hot_get _ _ _ _ Hs).
Qed.

Lemma applyPut_ok p i ver mtime sig now h : hot_ok h -> meta_ok (MkMeta ver mtime) -> sigs_ok sig ->
  hot_ok (hot_put p i sig now (putPackageMeta p ver mtime h)).
Proof.
  intros [Hs Hm] Hv Hsig. split.
  - intros q j m. rewrite hot_get_put. case_bool_decide; [by intros [= <-]|]. apply (Hs q j m).
  - cbn. apply map_Forall_insert_2; done.
Qed.

Lemma handle_op_inv ld now op c : cache_inv ld c -> match op with LoadComplete s => ld = [s] | _ => op_ok op end ->
  cache_inv (match op with LoadComplete _ => [] | _ => ld end) (handle_op limits now op c).
Proof.
  intros Hinv Hop. unfold handle_op. destruct op as [p i ver mtime sig|p|staging|ack].
  - set (c1 := mark_dirty _ _ _ _). enough (cache_inv ld c1) by (destruct (_ <=? _); [by apply flush_pending_inv|done]).
    destruct Hop. apply mark_dirty_inv; [done|by apply applyPut_ok; [apply Hinv|..]|].
    intros q Hne. by split; cbn; rewrite lookup_insert_ne.
  - set (c1 := mark_dirty _ _ _ _). enough (cache_inv ld c1) by (destruct (_ <=? _); [by apply flush_pending_inv|done]).
    apply mark_dirty_inv; [done|apply removePackage_ok, Hinv|]. apply remove_same.
  - set (c1 := MkPersistent _ _ _ _ _ _ _). enough (cache_inv [] c1) by (destruct (_ <=? _); [by apply flush_pending_inv|done]).
    subst ld. destruct Hinv as [Hh Hd Hl Hq Hc]. apply list.Forall_cons in Hl as [Hst _].
    destruct (applyLoadComplete_get staging now (ps_hot c)) as [Eg Em].
    constructor; cbn; [by apply applyLoadComplete_ok|done|by constructor|done|]. intros p d Hn Hp. left.
    destruct (Hc p d Hn Hp) as [[Hm Hi]|(Hm & Hi & s & [= <-] & Hs)].
    + split; [by rewrite Em, Hm|]. intros i m E. by rewrite Eg, (Hi _ _ E).
    + split; [by rewrite Em, Hm, Hs|]. intros i m E. by rewrite Eg, Hi, Hs.
  - destruct (flush_pending_inv _ _ Hinv) as [Hh Hd Hl Hq Hc]. by constructor.
Qed.

Lemma handle_op_keeps now op c :
  ps_queue (handle_op limits now op c) = ps_queue c /\
  ps_loadCompleted (handle_op limits now op c) = match op with LoadComplete _ => true | _ => ps_loadCompleted c end.
Proof.
  unfold handle_op. destruct op; try (destruct (_ <=? _); [|done]);
    match goal with |- context [flush_pending limits ?x] => pose proof (flush_pending_keeps x) as [E1 E2] end; cbn in *; by rewrite ?E1, ?E2.
Qed.

Definition reached (s : bool * PersistentSignatureCache) : Prop :=
  let '(started, c) := s in
  if started then
    cache_inv (loads (ps_queue c)) c /\
    (if ps_loadCompleted c then loads (ps_queue c) = [] else exists st, loads (ps_queue c) = [st])
  else
    ps_hot c = MkHot ∅ ∅ ∅ /\ ps_pendingDirty c = [] /\ loads (ps_queue c) = [] /\ ps_loadCompleted c = false /\
    disk_ok (ps_disk c) /\ Forall (λ op, match op with LoadComplete _ => True | _ => op_ok op end) (ps_queue c).

Lemma loads_app q1 q2 : loads (q1 ++ q2) = loads q1 ++ loads q2.
Proof. apply omap_app. Qed.

Lemma cache_inv_queue ld c q : cache_inv ld c -> Forall (λ op, match op with LoadComplete _ => True | _ => op_ok op end) q ->
  cache_inv ld (MkPersistent (ps_hot c) q (ps_pendingDirty c) (ps_firstDirtyAt c) (ps_loadCompleted c) (ps_acks c) (ps_disk c)).
Proof. intros [Hh Hd Hl Hq Hc] Hq'. by constructor. Qed.

Lemma cache_step_reached x s : match x with Send op => op_ok op | _ => True end -> reached s -> reached (cache_step_of x s).
Proof.
  destruct s as [started c]. intros Hx Hr. destruct x as [op| |now|]; cbn [cache_step_of].
  - assert (loads (ps_queue c ++ [op]) = loads (ps_queue c)) as El
      by (rewrite loads_app; destruct op; [..|done|]; by rewrite ?app_nil_r).
    assert (match op with LoadComplete _ => True | _ => op_ok op end) as Hop by by destruct op.
    destruct started; cbn [reached ps_queue ps_loadCompleted ps_hot ps_pendingDirty ps_disk] in *; rewrite El.
    + destruct Hr as [Hinv Hl]. split; [|done]. apply cache_inv_queue; [done|]. apply list.Forall_app.
      split; [apply Hinv|by constructor].
    + destruct Hr as (? & ? & ? & ? & ? & Hq). split_and!; [done..|]. apply list.Forall_app. split; [done|by constructor].
  - destruct started; [done|]. destruct Hr as (Eh & Ed & El & Ec & Hd & Hq). cbn. rewrite loads_app, El, Ec. cbn.
    split; [|by eexists]. constructor; cbn; [| done |constructor; [apply Hd|done]|apply list.Forall_app; split; [done|by constructor]|].
    + rewrite Eh. split; [|apply map_Forall_empty]. intros p i m. unfold hot_get. cbn. by rewrite lookup_empty.
    + intros p d _ Hp. right. rewrite Eh. unfold hot_get. cbn. rewrite !lookup_empty. split_and!; [done..|]. by eexists.
  - destruct started; [|done]. destruct Hr as [Hinv Hl]. cbn [reached]. unfold actor_round. destruct (ps_queue c) as [|op q] eqn:Eq.
    + destruct (_ && _); [|rewrite Eq; by split]. destruct (flush_pending_keeps c) as [-> ->]. rewrite Eq.
      split; [by apply flush_pending_inv|done].
    + pose proof (ci_queue _ _ Hinv) as Hq. rewrite Eq in Hq. apply list.Forall_cons in Hq as [Hop Hq].
      set (c0 := MkPersistent _ q _ _ _ _ _). destruct (handle_op_keeps now op c0) as [-> ->]. cbn [c0 ps_queue ps_loadCompleted].
      pose proof (cache_inv_queue _ _ _ Hinv Hq) as Hinv0. fold c0 in Hinv0.
      assert (match op with LoadComplete s => loads (op :: q) = [s] /\ loads q = [] | _ => loads (op :: q) = loads q end) as El.
      { destruct op as [| |staging|]; try done. destruct (ps_loadCompleted c); [done|]. destruct Hl as [st Hl].
        change (staging :: loads q = [st]) in Hl. injection Hl as -> El. split; [|done].
        change (st :: loads q = [st]). by rewrite El. }
      destruct op as [p i ver mtime sig|p|staging|ack].
      3:{ destruct El as [El Eq0]. rewrite El in Hinv0. rewrite Eq0. split; [|done]. exact (handle_op_inv _ now (LoadComplete staging) _ Hinv0 eq_refl). }
      all: rewrite El in Hinv0, Hl; split; [|done]; match goal with |- cache_inv _ (handle_op _ _ ?op _) => exact (handle_op_inv _ now op _ Hinv0 Hop) end.
  - cbn. split_and!; [done..| |by constructor]. destruct started; [apply (proj1 Hr)|apply Hr].
Qed.

Lemma run_cache_reached l : sends_ok l -> reached (run_cache l).
Proof.
  intros Hl. unfold run_cache. assert (reached (false, newPersistent None)) as Hr.
  { cbn. split_and!; [done..| |by constructor]. split; [by vm_compute|]. apply map_Forall_empty. }
  revert Hr. generalize (false, newPersistent None) as s. induction l as [|x l IH]; intros s Hs; [done|]. cbn [foldl].
  apply IH; [intros op Hop; apply Hl; by right|]. apply cache_step_reached; [|done].
  destruct x; try done. apply Hl. by left.
Qed.

(** A process that starts with what is on disk *)
Lemma restarted_get now disk p i ver mtime :
  getCached p i ver mtime (actor_round limits now (startActor (newPersistent disk))) =
  d ← parseJsonFromDisk disk !! p; if (pd_version d =? ver) && (pd_lastUpdated d =? mtime) then pd_interfaces d !! i else None.
Proof.
  unfold actor_round, startActor, handle_op. cbn [ps_queue ps_hot ps_pendingDirty ps_disk app].
  set (h := applyLoadComplete _ now _).
  assert (forall (q : bool) c, ps_hot c = h -> ps_pendingDirty c = [] -> getCached p i ver mtime (if q then flush_pending limits c else c) = getCached p i ver mtime c) as E0.
  { intros q c _ Ed. destruct q; [|done]. unfold flush_pending. by rewrite Ed. }
  rewrite E0 by done. unfold getCached. cbn [ps_hot].
  destruct (applyLoadComplete_get (parseJsonFromDisk disk) now (MkHot ∅ ∅ ∅)) as [Eg Em]. unfold h. rewrite Em, Eg.
  unfold hot_get. cbn [hc_meta hc_interfaces]. rewrite !lookup_empty.
  destruct (parseJsonFromDisk disk !! p) as [d|]; [|done]. cbn. by destruct (pd_version d =? ver), (pd_lastUpdated d =? mtime).
Qed.
End Disk.

Section Restart.
Context `{OrgJson} `{HashIteration} (limits : sig_limits).

Lemma flush_pending_clean c : ps_pendingDirty (flush_pending limits c) = [].
Proof. unfold flush_pending. destruct (ps_pendingDirty c) eqn:E; [done|]. by destruct (flushToDisk _ _ _ _). Qed.

Lemma restarted_covered now c p i ver mtime m : cache_inv [] c -> ps_pendingDirty c = [] ->
  getCached p i ver mtime (actor_round limits now (startActor (newPersistent (ps_disk c)))) = Some m ->
  getCached p i ver mtime c = Some m.
Proof.
  intros Hinv Ed. rewrite restarted_get. destruct (parseJsonFromDisk _ !! p) as [d|] eqn:E; [|done].
  destruct (ci_clean _ _ Hinv p d) as [[Hm Hi]|(_ & _ & s & [=] & _)]; [rewrite Ed; apply not_elem_of_nil|done|].
  unfold getCached. rewrite Hm. cbn. destruct (_ =? ver), (_ =? mtime); cbn; try done. apply Hi.
Qed.

Lemma flushed_whole now c p i ver mtime : hot_ok (ps_hot c) -> disk_ok (ps_disk c) -> p ∈ ps_pendingDirty c ->
  fits_limit limits (ps_hot c) p -> let c1 := flush_pending limits c in hc_meta (ps_hot c1) !! p <> None ->
  getCached p i ver mtime (actor_round limits now (startActor (newPersistent (ps_disk c1)))) = getCached p i ver mtime c1.
Proof.
  intros Hh Hd Hp Hf. unfold flush_pending. destruct (ps_pendingDirty c) as [|x dirty] eqn:E; [by apply not_elem_of_nil in Hp|].
  rewrite <- E in *. clear E. pose proof (flushToDisk_spec limits (ps_pendingDirty c) (ps_hot c) (ps_disk c) Hh Hd) as Hs.
  destruct (flushToDisk _ _ _ _) as [h disk]. destruct Hs as (_ & _ & Hs). cbn [ps_hot ps_disk]. intros Hne. rewrite restarted_get.
  destruct (Hs p) as [[_ ?]|[Hsame ->]]; [done|]. rewrite bool_decide_true by done. unfold getCached. cbn [ps_hot].
  rewrite (same_hot_get _ _ _ _ Hsame), (proj1 Hsame). rewrite (proj1 Hsame) in Hne.
  destruct (hc_meta (ps_hot c) !! p) as [meta|] eqn:Em; [|done]. unfold hot_get.
  destruct (hc_interfaces (ps_hot c) !! p) as [m|] eqn:Ei.
  2:{ unfold entry. rewrite Em, Ei. cbn. by destruct (_ || _). }
  destruct (decide (m = ∅)) as [->|Hm].
  - unfold entry. rewrite Em, Ei, bool_decide_true, lookup_empty by done. cbn. by destruct (_ || _).
  - destruct (entry_whole limits (ps_hot c) p meta m) as (v & -> & Ev); [done..|]. cbn [mbind option_bind] in Ev |- *. rewrite Ev.
    cbn. by destruct (_ =? ver), (_ =? mtime).
Qed.
End Restart.

(** C22: Signatures survive a restart: whatever was put, invalidated, written and
    evicted over any number of processes, when a process that has loaded the file
    acknowledges a flush, the text it handed to the preferences is on disk (apply
    writes it later) and a new process has loaded it, every signature the new one
    answers with is the one the old one answered with, for the same version of
    the package; and a package that was written, is not evicted and is not longer than its
    limit is answered for exactly as before. *)
Theorem restart_keeps_signatures `{OrgJson} `{HashIteration} limits l now ack now' :
  let c := (run_cache limits l).2 in
  let flushed := handle_op limits now (Flush ack) c in
  let restarted := actor_round limits now' (startActor (newPersistent (ps_disk flushed))) in
  sends_ok l -> ps_loadCompleted c = true ->
  ack ∈ ps_acks flushed /\
  (forall p i ver mtime m, getCached p i ver mtime restarted = Some m -> getCached p i ver mtime flushed = Some m) /\
  forall p i ver mtime, p ∈ ps_pendingDirty c -> fits_limit limits (ps_hot c) p -> hc_meta (ps_hot flushed) !! p <> None ->
    getCached p i ver mtime restarted = getCached p i ver mtime flushed.
Proof.
  intros c flushed restarted Hl Hload. pose proof (run_cache_reached limits l Hl) as Hr. unfold c in *.
  destruct (run_cache limits l) as [started c0]. cbn [snd] in *. destruct started; [|destruct Hr as (_ & _ & _ & ? & _); congruence].
  destruct Hr as [Hinv Hld]. rewrite Hload in Hld. rewrite Hld in Hinv. split_and!.
  - cbn. rewrite elem_of_app. right. by apply list_elem_of_singleton.
  - intros p i ver mtime m. apply restarted_covered; [by apply (handle_op_inv limits [] now (Flush ack))|]. apply flush_pending_clean.
  - intros p i ver mtime. apply flushed_whole; apply Hinv.
Qed.

(** A hash map that is iterated in the order of [map_to_list] *)
Definition listed_hash : HashIteration := {| hash_order V m := map_to_list m; hash_order_perm V m := reflexivity _ |}.

Lemma restart_keeps_signatures_witness :
  let J := number_json in let I := listed_hash in
  let limits := MkLimits 64 4096 262144 100 16 in
  let sigs : gmap bytes MethodSignature := {[str "bar" := MkSignature (str "bar") [str "int"] (Some (str "String"))]} in
  let l := [Start; Round 0; Send (Put (str "a") (str "a.IFoo") 7 1000 sigs); Round 10] in
  let flushed := handle_op limits 20 (Flush 3) (run_cache limits l).2 in
  getCached (str "a") (str "a.IFoo") 7 1000 (actor_round limits 0 (startActor (newPersistent (ps_disk flushed)))) = Some sigs.
Proof.
  intros J I limits sigs l flushed.
  destruct (restart_keeps_signatures limits l 20 3 0) as (_ & _ & Hp).
  - intros op Hop. repeat (apply elem_of_cons in Hop as [[= ->]|Hop]); [|by apply elem_of_nil in Hop].
    split; [by vm_compute|]. split; [by vm_compute|]. unfold sigs. by apply map_Forall_singleton.
  - by vm_compute.
  - unfold flushed. rewrite Hp; [by vm_compute|by vm_compute; left| |by vm_compute].
    intros meta m _ _. by vm_compute.
Defined.
