(* ===== verification/AppResolver.v ===== *)
(** * Names and signatures of methods (app, parser/MethodResolver.kt)

    The resolver with what it uses: its caches, the registry of class loaders
    and the persistent cache.  What the system's class loader, the package
    manager, the index of interfaces and the table of methods.json answer while
    a call runs is an argument, and so is the clock.  A call is one step; the
    interface is never null where the resolver is called. *)

From S2P Require Import Prelude GoLang GoStd AppWire AppPairer AppParcel AppReply AppCodec AppClassLoaders AppSignatures.

Record platform := MkPlatform {
  forName : loader;
  packageInfo : bytes -> option PackageMeta;
  index_lookup : bytes -> list bytes;
  staticLookup : bytes -> Z -> option bytes;
  currentTimeMillis : Z }.

Record MethodResolver := MkResolver {
  reflectionCache : gmap bytes (gmap Z bytes);
  negativeCache : list ((bytes * bytes) * Z);
  signatureCache : SignatureCache;
  registry : AppClassLoaderRegistry;
  persistentCache : PersistentSignatureCache }.

Abbreviation set_registry g r := (MkResolver (reflectionCache r) (negativeCache r) (signatureCache r) g (persistentCache r)) (only parsing).
Abbreviation set_negative n r := (MkResolver (reflectionCache r) n (signatureCache r) (registry r) (persistentCache r)) (only parsing).

Abbreviation NEGATIVE_CACHE_MAX := 1024%nat (only parsing).
Abbreviation NEGATIVE_CACHE_TTL_MS := 60000%Z (only parsing).

(** What the registry does to the caches when a package has changed: the
    invalidators it is given *)
Definition clear_package (r : MethodResolver) (packageName : bytes) : MethodResolver :=
  MkResolver (reflectionCache r) (negativeCache r) (invalidatePackage packageName (signatureCache r)) (registry r)
    (sendOp (Invalidate packageName) (persistentCache r)).

Abbreviation registry_call f r := (let '(cleared, g) := f (registry r) in foldl clear_package (set_registry g r) cleared) (only parsing).

(** ** Names *)

(** The third step of getMethodName: the candidates of the index *)
Fixpoint index_name (pf : platform) (interfaceName : bytes) (code : Z) (caller : option bytes) (candidates : list bytes)
    (r : MethodResolver) : option bytes * MethodResolver :=
  match candidates with
  | [] => (None, r)
  | c :: candidates =>
      if bool_decide (Some c = caller) then index_name pf interfaceName code caller candidates r
      else
        let r := registry_call (prepareAsync c (packageInfo pf c) (currentTimeMillis pf)) r in
        let '(m, g) := getStubMap c interfaceName (registry r) in
        match m ≫= lookup code with
        | Some n => (Some n, set_registry g r)
        | None => index_name pf interfaceName code caller candidates (set_registry g r)
        end
  end.

Definition getMethodName (pf : platform) (interfaceName : bytes) (code : Z) (caller : option bytes) (r : MethodResolver)
    : bytes * MethodResolver :=
  let '(reflected, cache) :=
    match reflectionCache r !! interfaceName with
    | Some m => (m, reflectionCache r)
    | None =>
        let loaded := stub_names (forName pf) interfaceName in
        (loaded, if bool_decide (loaded = ∅) then reflectionCache r else <[interfaceName := loaded]> (reflectionCache r))
    end in
  let r := MkResolver cache (negativeCache r) (signatureCache r) (registry r) (persistentCache r) in
  match reflected !! code with
  | Some n => (n, r)
  | None =>
      let '(own, r) :=
        match caller with
        | None => (None, r)
        | Some p => let '(m, g) := getStubMap p interfaceName (registry r) in (m ≫= lookup code, set_registry g r)
        end in
      match own with
      | Some n => (n, r)
      | None =>
          let '(other, r) := index_name pf interfaceName code caller (index_lookup pf interfaceName) r in
          match other with
          | Some n => (n, r)
          | None => (default (code_text code) (staticLookup pf interfaceName code), r)
          end
      end
  end.

(** ** Signatures *)

(** The methods of one class, of several of one name the first *)
Definition class_signatures (c : jclass) : sigmap :=
  foldl (λ result m,
    match result !! jm_name m with
    | Some _ => result
    | None => <[jm_name m := MkSignature (jm_name m) (default [] (map formatTypeName <$> jm_params m)) (formatTypeName <$> jm_return m)]> result
    end) ∅ (default [] (jc_methods c)).

Definition loadInterfaceSignatures (pf : platform) (interfaceName : bytes) (caller : option bytes) (g : AppClassLoaderRegistry)
    : sigmap :=
  let loadClass p : option jclass := cl ← classLoaders g !! p; cl interfaceName in
  let others := filter (λ c, Some c <> caller) (index_lookup pf interfaceName) in
  let classes := forName pf interfaceName :: (match caller with Some p => [loadClass p] | None => [] end) ++ (loadClass <$> others) in
  default ∅ (List.find (λ m, negb (bool_decide (m = ∅))) (class_signatures <$> omap id classes)).

Inductive Classification := STRONG | WEAK | MISS.

Definition classify (s : MethodSignature) : Classification :=
  if HasPrefix (sg_methodName s) (str "code=") then MISS else match sg_paramTypes s with [] => WEAK | _ => STRONG end.

(** The end of resolveSingleCandidate: signatures from memory or by reflection,
    which are then given to the persistent cache [c]; [meta]: the caller's
    package with its version *)
Definition load_signatures (pf : platform) (interfaceName : bytes) (caller : option bytes) (name : bytes)
    (meta : option (bytes * PackageMeta)) (c : PersistentSignatureCache) (r : MethodResolver)
    : option MethodSignature * MethodResolver :=
  let '(sigs, sc) := getOrLoad caller interfaceName (loadInterfaceSignatures pf interfaceName caller (registry r)) (signatureCache r) in
  let c :=
    match meta with
    | Some (p, m) => putCached p interfaceName (pm_versionCode m) (pm_lastUpdateTime m) sigs c
    | None => c
    end in
  (Some (default (MkSignature name [] None) (sigs !! name)), MkResolver (reflectionCache r) (negativeCache r) sc (registry r) c).

Section Signatures.
Context `{HashIteration}.

Definition resolveSingleCandidate (pf : platform) (interfaceName : bytes) (code : Z) (caller : option bytes) (r : MethodResolver)
    : option MethodSignature * MethodResolver :=
  let '(name, r) := getMethodName pf interfaceName code caller r in
  if HasPrefix name (str "code=") then (None, r)
  else
    match (p ← caller; m ← packageMeta (registry r) !! p; Some (p, m)) with
    | None => load_signatures pf interfaceName caller name None (persistentCache r) r
    | Some (p, m) =>
        match getCached p interfaceName (pm_versionCode m) (pm_lastUpdateTime m) (persistentCache r) with
        | Some sigs =>
            if bool_decide (sigs = ∅) then load_signatures pf interfaceName caller name (Some (p, m)) (persistentCache r) r
            else
              (Some (default (MkSignature name [] None) (sigs !! name)),
               MkResolver (reflectionCache r) (negativeCache r)
                 (foldl (λ c '(_, s), putSignature caller interfaceName s c) (signatureCache r) (hash_order sigs))
                 (registry r) (persistentCache r))
        | None =>
            (* a record of another version leaves the cache *)
            let c :=
              match peekRaw p interfaceName (persistentCache r) with
              | Some raw => if bool_decide (raw = ∅) then persistentCache r else sendOp (Invalidate p) (persistentCache r)
              | None => persistentCache r
              end in
            load_signatures pf interfaceName caller name (Some (p, m)) c r
        end
    end.

Definition isNegativeCached (pkg iface : bytes) (now : Z) (r : MethodResolver) : bool * MethodResolver :=
  match lhm_get (pkg, iface) (negativeCache r) with
  | (None, _) => (false, r)
  | (Some ts, cache) =>
      if NEGATIVE_CACHE_TTL_MS <? s64 (now - ts) then (false, set_negative (lhm_remove (pkg, iface) cache) r)
      else (true, set_negative cache r)
  end.

Definition putNegativeCache (pkg iface : bytes) (now : Z) (r : MethodResolver) : MethodResolver :=
  set_negative (lhm_evict NEGATIVE_CACHE_MAX (lhm_put (pkg, iface) now (negativeCache r))) r.

(** The loop of getMethodSignature *)
Fixpoint try_candidates (pf : platform) (interfaceName : bytes) (code now : Z) (candidates : list bytes)
    (bestWeak : option MethodSignature) (r : MethodResolver) : option MethodSignature * MethodResolver :=
  match candidates with
  | [] => (bestWeak, r)
  | pkg :: candidates =>
      let '(negative, r) := isNegativeCached pkg interfaceName now r in
      if negative then try_candidates pf interfaceName code now candidates bestWeak r
      else
        let '(sig, r) := resolveSingleCandidate pf interfaceName code (Some pkg) r in
        match sig, classify <$> sig with
        | Some s, Some STRONG => (Some s, r)
        | Some s, Some WEAK =>
            try_candidates pf interfaceName code now candidates (match bestWeak with None => Some s | _ => bestWeak end) r
        | _, _ => try_candidates pf interfaceName code now candidates bestWeak (putNegativeCache pkg interfaceName now r)
        end
  end.

Definition getMethodSignature (pf : platform) (interfaceName : bytes) (code : Z) (candidates : list bytes) (nowMs : Z)
    (r : MethodResolver) : option MethodSignature * MethodResolver :=
  match candidates with
  | [] =>
      let '(sig, r) := resolveSingleCandidate pf interfaceName code None r in
      (s ← sig; match classify s with MISS => None | _ => Some s end, r)
  | _ => try_candidates pf interfaceName code nowMs candidates None r
  end.
End Signatures.
