(* ===== verification/AppResolverSpec.v ===== *)
(** * Names and signatures of methods: theorems on AppResolver *)

From S2P Require Import Prelude GoLang GoStd AppWire AppPairer AppParcel AppReply AppCodec AppClassLoaders AppSignatures AppSignaturesSpec AppResolver.

(** ** The answer without caches *)

Section Reference.
Context (pf : platform) (cls : gmap bytes (bytes -> option jclass)).

Definition stub_of (p i : bytes) : gmap Z bytes := match cls !! p with Some cl => stub_names cl i | None => ∅ end.

(** The name: from the system, the caller, the packages of the index, the table *)
Definition ref_name (i : bytes) (code : Z) (caller : option bytes) : bytes :=
  let others := filter (λ c, Some c <> caller) (index_lookup pf i) in
  let maps := stub_names (forName pf) i :: (match caller with Some p => [stub_of p i] | None => [] end) ++ ((λ c, stub_of c i) <$> others) in
  default (default (code_text code) (staticLookup pf i code)) (head (omap (lookup code) maps)).

Definition ref_sigs (i : bytes) (caller : option bytes) : gmap bytes MethodSignature :=
  loadInterfaceSignatures pf i caller (MkRegistry cls ∅ ∅ [] []).

Definition ref_single (i : bytes) (code : Z) (caller : option bytes) : option MethodSignature :=
  let name := ref_name i code caller in
  if HasPrefix name (str "code=") then None else Some (default (MkSignature name [] None) (ref_sigs i caller !! name)).

(** The first candidate that knows the parameters, or else the first that knows
    the method *)
Definition ref_best (i : bytes) (code : Z) (candidates : list bytes) : option MethodSignature :=
  let sigs := omap (λ p, ref_single i code (Some p)) candidates in
  match List.find (λ s, negb (bool_decide (sg_paramTypes s = []))) sigs with Some s => Some s | None => head sigs end.
End Reference.

(** ** Package names *)

Definition package_name (p : bytes) : Prop := p <> [] /\ 124 ∉ p.

Lemma bar_split p p' i i' : 124 ∉ p -> 124 ∉ p' -> p ++ str "|" ++ i = p' ++ str "|" ++ i' -> p = p' /\ i = i'.
Proof.
  change (str "|") with [124]. revert p'. induction p as [|c p IH]; intros [|c' p'] Hp Hp' E; cbn in E.
  - by injection E.
  - injection E as <- _. destruct Hp'. by left.
  - injection E as -> _. destruct Hp. by left.
  - injection E as -> E. rewrite elem_of_cons in Hp, Hp'. destruct (IH p') as [-> ->]; [tauto..|done].
Qed.

(** ** Caches that agree with their sources *)

(** No method of a class has a return type without a name. *)
Definition types_named (c : jclass) : Prop :=
  Forall (λ m, formatTypeName <$> jm_return m <> Some []) (default [] (jc_methods c)).
Definition classes_named (pf : platform) (cls : gmap bytes (bytes -> option jclass)) : Prop :=
  (forall i c, forName pf i = Some c -> types_named c) /\
  forall p cl i c, cls !! p = Some cl -> cl i = Some c -> types_named c.

Section Settled.
Context `{OrgJson} (pf : platform) (cls : gmap bytes (bytes -> option jclass)).
Context (Hindex : forall i, Forall package_name (index_lookup pf i)) (Hnamed : classes_named pf cls).

(** The loaders are these, what is kept of them is what they say, and no package
    has changed. *)
Record registry_ok (g : AppClassLoaderRegistry) : Prop := {
  ro_loaders : classLoaders g = cls;
  ro_stubs p i m : package_name p -> stubMaps g !! (p ++ str "|" ++ i) = Some m -> m = stub_of cls p i;
  ro_settled p m s : packageMeta g !! p = Some m -> packageInfo pf p = Some s -> m = s;
  ro_meta p m : packageMeta g !! p = Some m -> meta_ok m }.

(** A table of packages in which nothing is stale: what it has of an interface
    is what the classes say of it now. *)
Definition fresh (t : gmap bytes PackageData) : Prop :=
  forall p d, t !! p = Some d -> forall i m, pd_interfaces d !! i = Some m -> m = ref_sigs pf cls i (Some p).

Definition disk_fresh (disk : option bytes) : Prop := disk_ok disk /\ fresh (parseJsonFromDisk disk).

Definition op_fresh (op : WriteOp) : Prop :=
  match op with
  | Put p i ver mtime m => m = ref_sigs pf cls i (Some p) /\ meta_ok (MkMeta ver mtime) /\ sigs_ok m
  | LoadComplete t => fresh t /\ map_Forall (λ _ d, package_ok d) t
  | _ => True
  end.

Record persistent_ok (c : PersistentSignatureCache) : Prop := {
  po_get p i m : hot_get p i (ps_hot c) = Some m -> m = ref_sigs pf cls i (Some p);
  po_queue : Forall op_fresh (ps_queue c);
  po_hot : hot_ok (ps_hot c);
  po_disk : disk_fresh (ps_disk c) }.

Definition signatures_ok (c : SignatureCache) : Prop :=
  (0 < maxEntries c)%nat /\
  Forall (λ kv, kv.2 = ref_sigs pf cls kv.1.2 (if bool_decide (kv.1.1 = []) then None else Some kv.1.1)) (store c).

Record resolver_ok (r : MethodResolver) : Prop := {
  rk_registry : registry_ok (registry r);
  rk_reflection i m : reflectionCache r !! i = Some m -> m = stub_names (forName pf) i;
  rk_signatures : signatures_ok (signatureCache r);
  rk_negative : NoDup (negativeCache r).*1;
  rk_persistent : persistent_ok (persistentCache r) }.

Lemma getStubMap_spec p i g code : registry_ok g -> package_name p ->
  let '(m, g') := getStubMap p i g in
  (m ≫= lookup code) = stub_of cls p i !! code /\ registry_ok g' /\ packageMeta g' = packageMeta g.
Proof.
  intros Hg Hp. unfold getStubMap. destruct (stubMaps g !! _) as [m|] eqn:E.
  { split_and!; [|done..]. cbn. by rewrite (ro_stubs _ Hg p i m Hp E). }
  unfold stub_of. rewrite (ro_loaders _ Hg). destruct (cls !! p) as [cl|] eqn:Ep; [|split_and!; [by rewrite lookup_empty|done..]].
  case_bool_decide as Hm; [split_and!; [by rewrite Hm, lookup_empty|done..]|]. split_and!; [done| |done].
  destruct Hg as [Hl Hs Hst Hme]. constructor; cbn; [done| |done|done]. intros p' i' m' Hp' E'.
  destruct (decide (p ++ str "|" ++ i = p' ++ str "|" ++ i')) as [Eq|Hne].
  - destruct (bar_split p p' i i') as [<- <-]; [apply Hp|apply Hp'|done|]. rewrite lookup_insert_eq in E'. injection E' as <-.
    unfold stub_of. by rewrite Ep.
  - rewrite lookup_insert_ne in E' by done. by apply Hs.
Qed.

Lemma recordFailure_keeps p k v t now g : registry_ok g ->
  registry_ok (recordFailure p k v t now g) /\ packageMeta (recordFailure p k v t now g) = packageMeta g.
Proof. intros [Hl Hs Hst Hme]. by split. Qed.

Lemma prepareAsync_spec p now g : registry_ok g ->
  let '(cleared, g') := prepareAsync p (packageInfo pf p) now g in
  cleared = [] /\ registry_ok g' /\ packageMeta g' = packageMeta g.
Proof.
  intros Hg. unfold prepareAsync. destruct (packageInfo pf p) as [s|] eqn:E; [|by split; [|apply recordFailure_keeps]].
  assert (match packageMeta g !! p with Some old => bool_decide (old <> s) | None => false end = false) as ->.
  { destruct (packageMeta g !! p) as [m|] eqn:Em; [|done]. apply bool_decide_false. intros []. by apply (ro_settled _ Hg p). }
  split; [done|]. destruct (classLoaders g !! p); [done|]. unfold shouldRetry.
  destruct (lhm_get p (failedPackages g)) as [[e|] f]; [|by destruct Hg].
  destruct (_ || _); [by destruct Hg|]. by destruct (_ <=? _), Hg.
Qed.
(** ** Names *)

(** What a call to find a name leaves as it was *)
Definition same_caches (r r' : MethodResolver) : Prop :=
  negativeCache r' = negativeCache r /\ signatureCache r' = signatureCache r /\ persistentCache r' = persistentCache r /\
  packageMeta (registry r') = packageMeta (registry r).

Lemma same_caches_trans r1 r2 r3 : same_caches r1 r2 -> same_caches r2 r3 -> same_caches r1 r3.
Proof. intros (? & ? & ? & ?) (? & ? & ? & ?). split_and!; congruence. Qed.

Lemma set_registry_ok g r : resolver_ok r -> registry_ok g -> resolver_ok (set_registry g r).
Proof. intros [Hg Hr Hs Hn Hp] Hg'. constructor; cbn; [exact Hg'|exact Hr|exact Hs|exact Hn|exact Hp]. Qed.

Lemma index_name_spec i code caller l r : Forall package_name l -> resolver_ok r ->
  let '(n, r') := index_name pf i code caller l r in
  n = head (omap (λ c, stub_of cls c i !! code) (filter (λ c, Some c <> caller) l)) /\ resolver_ok r' /\ same_caches r r'.
Proof.
  intros Hl. revert r. induction Hl as [|c l Hc Hl IH]; intros r Hr; cbn [index_name]; [done|]. rewrite filter_cons.
  destruct (decide (Some c = caller)) as [Heq|Hne].
  { rewrite bool_decide_true, decide_False by auto. by apply IH. }
  rewrite bool_decide_false, decide_True by done. idtac.
  pose proof (prepareAsync_spec c (currentTimeMillis pf) (registry r) (rk_registry _ Hr)) as Hp.
  destruct (prepareAsync _ _ _ _) as [cleared g]. destruct Hp as (-> & Hg & Em). cbn [foldl].
  pose proof (getStubMap_spec c i g code Hg Hc) as Hs. cbn [registry]. destruct (getStubMap c i g) as [m g'].
  destruct Hs as (Es & Hg' & Em'). rewrite Es. cbn [omap list_omap]. destruct (stub_of cls c i !! code) as [n|].
  - split; [done|]. split; [exact (set_registry_ok g' _ (set_registry_ok g r Hr Hg) Hg')|]. split_and!; [done..|]. cbn. congruence.
  - match goal with |- context [index_name _ _ _ _ _ ?r1] => specialize (IH r1); assert (resolver_ok r1) as Hr1 by exact (set_registry_ok g' _ (set_registry_ok g r Hr Hg) Hg') end.
    specialize (IH Hr1). destruct (index_name _ _ _ _ _ _) as [n r']. destruct IH as (-> & Hr' & Hsame). split_and!; [done..|].
    eapply same_caches_trans; [|done]. split_and!; [done..|]. cbn. congruence.
Qed.

Lemma reflected_spec i r : resolver_ok r ->
  let '(m, cache) :=
    match reflectionCache r !! i with
    | Some m => (m, reflectionCache r)
    | None => let loaded := stub_names (forName pf) i in
        (loaded, if bool_decide (loaded = ∅) then reflectionCache r else <[i := loaded]> (reflectionCache r))
    end in
  m = stub_names (forName pf) i /\
  resolver_ok (MkResolver cache (negativeCache r) (signatureCache r) (registry r) (persistentCache r)).
Proof.
  intros [Hg Hr Hs Hn Hp]. destruct (reflectionCache r !! i) as [m|] eqn:E; [split; [by apply Hr|by constructor]|]. split; [done|].
  constructor; cbn; try done. intros j m. case_bool_decide; [apply Hr|]. intros [[<- <-]|[_ ?]]%lookup_insert_Some; [done|by apply Hr].
Qed.

Lemma getMethodName_spec i code caller r : (forall p, caller = Some p -> package_name p) -> resolver_ok r ->
  let '(n, r') := getMethodName pf i code caller r in
  n = ref_name pf cls i code caller /\ resolver_ok r' /\ same_caches r r'.
Proof.
  intros Hc Hr. unfold getMethodName. pose proof (reflected_spec i r Hr) as H0. cbv zeta in H0 |- *.
  match type of H0 with context [match ?x with (_, _) => _ end] => destruct x as [m cache] end.
  destruct H0 as [-> H0]. unfold ref_name. cbn [omap list_omap]. destruct (stub_names (forName pf) i !! code) as [n|]; [done|].
  set (r0 := MkResolver cache _ _ _ _) in *.
  assert (let '(own, r1) := match caller with
      | None => (None, r0)
      | Some p => let '(m, g) := getStubMap p i (registry r0) in (m ≫= lookup code, set_registry g r0) end : option bytes * MethodResolver in
    own = match caller with Some p => stub_of cls p i !! code | None => None end /\ resolver_ok r1 /\ same_caches r r1) as H1.
  { destruct caller as [p|]; [|done]. pose proof (getStubMap_spec p i (registry r0) code (rk_registry _ H0) (Hc p eq_refl)) as Hs.
    destruct (getStubMap _ _ _) as [m g]. destruct Hs as (-> & Hg & Em). split; [done|]. split; [by apply set_registry_ok|]. by split_and!. }
  match type of H1 with context [match ?x with (_, _) => _ end] => destruct x as [own r1] end.
  destruct H1 as (-> & Hr1 & S1). pose proof (index_name_spec i code caller _ r1 (Hindex i) Hr1) as H2.
  destruct (index_name _ _ _ _ _ _) as [other r2]. destruct H2 as (-> & Hr2 & S2).
  assert (forall o : list bytes, head (omap (lookup code) ((λ c, stub_of cls c i) <$> o)) = head (omap (λ c, stub_of cls c i !! code) o)) as Ef
    by (intros o; induction o as [|c o IH]; [done|]; cbn; destruct (stub_of cls c i !! code); done).
  destruct caller as [p|]; cbn [mbind option_bind app omap list_omap].
  - destruct (stub_of cls p i !! code); [done|]. rewrite Ef. destruct (head _); (split_and!; [done..|]); by eapply same_caches_trans.
  - rewrite Ef. destruct (head _); (split_and!; [done..|]); by eapply same_caches_trans.
Qed.
(** ** Signatures *)

Lemma class_signatures_named c n s : class_signatures c !! n = Some s -> sg_methodName s = n.
Proof.
  unfold class_signatures. assert (map_Forall (λ n s, sg_methodName s = n) (∅ : gmap bytes MethodSignature)) as H0 by apply map_Forall_empty.
  revert H0. generalize (∅ : gmap bytes MethodSignature) as m. induction (default [] (jc_methods c)) as [|x l IH]; intros m Hm; cbn [foldl]; [apply Hm|].
  apply IH. destruct (m !! jm_name x); [done|]. by apply map_Forall_insert_2.
Qed.

Lemma ref_sigs_named i caller n s : ref_sigs pf cls i caller !! n = Some s -> sg_methodName s = n.
Proof.
  unfold ref_sigs, loadInterfaceSignatures. destruct (List.find _ _) as [m|] eqn:E; [|cbn; by rewrite lookup_empty].
  apply find_some in E as [Hin _]. apply list_elem_of_In, list_elem_of_fmap in Hin as (c & -> & _). apply class_signatures_named.
Qed.

Lemma class_signatures_typed c : types_named c -> map_Forall (λ _ s, sg_returnType s <> Some []) (class_signatures c).
Proof.
  unfold class_signatures, types_named. generalize (map_Forall_empty (λ (_ : bytes) s, sg_returnType s <> Some [])).
  generalize (∅ : gmap bytes MethodSignature) as m. induction (default [] (jc_methods c)) as [|x l IH]; intros m Hm Hl; cbn [foldl]; [done|].
  apply list.Forall_cons in Hl as [Hx Hl]. apply IH; [|done]. destruct (m !! jm_name x); [done|]. by apply map_Forall_insert_2.
Qed.

Lemma ref_sigs_ok i caller : ref_sigs pf cls i caller <> ∅ -> sigs_ok (ref_sigs pf cls i caller).
Proof.
  intros Hne. split; [done|]. intros n s E. split; [by eapply ref_sigs_named|]. revert n s E. clear Hne.
  unfold ref_sigs, loadInterfaceSignatures. destruct (List.find _ _) as [m|] eqn:E; [|intros n s; cbn; by rewrite lookup_empty].
  apply find_some in E as [Hin _]. apply list_elem_of_In, list_elem_of_fmap in Hin as (c & -> & Hin). cbn [default].
  apply class_signatures_typed. apply list_elem_of_omap in Hin as (oc & Hin & Hid). cbn in Hid. subst oc. destruct Hnamed as [H1 H2].
  assert (forall p, (cl ← cls !! p; cl i) = Some c -> types_named c) as Hload.
  { intros p. destruct (cls !! p) as [cl|] eqn:Ep; [|done]. cbn. by eapply H2. }
  apply elem_of_cons in Hin as [Hin|[Hin|Hin]%elem_of_app]; [by eapply H1| |].
  - destruct caller as [q|]; [|by apply not_elem_of_nil in Hin]. apply list_elem_of_singleton in Hin. by apply (Hload q).
  - apply list_elem_of_fmap in Hin as (q & Hq & _). by apply (Hload q).
Qed.

Lemma load_ref i caller g : registry_ok g -> loadInterfaceSignatures pf i caller g = ref_sigs pf cls i caller.
Proof. intros Hg. unfold ref_sigs, loadInterfaceSignatures. by rewrite (ro_loaders _ Hg). Qed.

Abbreviation bucket caller := (default [] caller) (only parsing).

Lemma bucket_caller caller : (forall p, caller = Some p -> package_name p) -> (if bool_decide (bucket caller = []) then None else Some (bucket caller)) = caller.
Proof.
  destruct caller as [p|]; [|done]. intros Hp. destruct (Hp p eq_refl) as [Hne _]. cbn. by rewrite bool_decide_false.
Qed.

Lemma getOrLoad_spec caller i c : (forall p, caller = Some p -> package_name p) -> signatures_ok c ->
  let '(m, c') := getOrLoad caller i (ref_sigs pf cls i caller) c in m = ref_sigs pf cls i caller /\ signatures_ok c'.
Proof.
  intros Hc [Hmax Hok]. unfold getOrLoad, lhm_get. destruct (lhm_find _ (store c)) as [m|] eqn:E.
  - pose proof (lhm_find_Forall _ _ _ _ Hok E) as Hm. cbn [fst snd] in Hm. rewrite bucket_caller in Hm by done.
    split; [done|]. split; [done|]. apply lhm_put_Forall; [done|]. cbn [fst snd]. by rewrite bucket_caller.
  - split; [done|]. case_bool_decide; [by split|]. split; [done|]. apply lhm_evict_Forall, lhm_put_Forall; [done|].
    cbn [fst snd]. by rewrite bucket_caller.
Qed.

(** Putting the signatures of an interface one after the other *)
Abbreviation puts caller i := (λ c '(_, s), putSignature caller i s c) (only parsing).

Lemma putSignature_spec (caller : option bytes) (i : bytes) (s : MethodSignature) (c : SignatureCache) (P : (bytes * bytes) * gmap bytes MethodSignature -> Prop) :
  (0 < maxEntries c)%nat -> Forall (λ kv, kv.1 <> (bucket caller, i) -> P kv) (store c) ->
  let c' := putSignature caller i s c in
  let m := <[sg_methodName s := s]> (default ∅ (lhm_find (bucket caller, i) (store c))) in
  maxEntries c' = maxEntries c /\ lhm_find (bucket caller, i) (store c') = Some m /\
  Forall (λ kv, kv.1 <> (bucket caller, i) -> P kv) (store c') /\ Forall (λ kv, kv.1 = (bucket caller, i) -> kv.2 = m) (store c').
Proof.
  intros Hmax HP. unfold putSignature. cbv zeta. cbn [maxEntries store]. split; [done|]. set (key := (bucket caller, i)) in *. set (m := <[_ := _]> _).
  destruct (lhm_evict_last (maxEntries c) (lhm_remove key (store c)) (key, m) Hmax) as (m' & E & Hs). fold (lhm_put key m (store c)) in E.
  assert (forall kv, kv ∈ m' -> kv.1 <> key /\ kv ∈ store c) as Hm'.
  { intros kv Hin. eapply elem_of_suffix in Hin; [|exact Hs]. by apply list_elem_of_filter in Hin. }
  rewrite E. split_and!.
  - rewrite lhm_find_app, lhm_find_none; [by rewrite lhm_find_cons, bool_decide_true|].
    intros (kv & Ek & Hin)%list_elem_of_fmap. by apply (Hm' kv Hin).
  - apply list.Forall_app. split; [|by constructor]. apply list.Forall_forall. intros kv [Hk Hin]%Hm' _.
    rewrite list.Forall_forall in HP. by apply HP.
  - apply list.Forall_app. split; [|by constructor]. apply list.Forall_forall. intros kv [Hk Hin]%Hm' ?. done.
Qed.
Lemma putSignatures_spec (caller : option bytes) (i : bytes) (l : list (bytes * MethodSignature)) (c : SignatureCache) (e : gmap bytes MethodSignature)
    (P : (bytes * bytes) * gmap bytes MethodSignature -> Prop) :
  (0 < maxEntries c)%nat -> Forall (λ kv, kv.1 <> (bucket caller, i) -> P kv) (store c) ->
  Forall (λ kv, kv.1 = (bucket caller, i) -> kv.2 = e) (store c) -> default ∅ (lhm_find (bucket caller, i) (store c)) = e ->
  let c' := foldl (puts caller i) c l in
  let e' := foldl (λ e '(_, s), <[sg_methodName s := s]> e) e l in
  maxEntries c' = maxEntries c /\ Forall (λ kv, kv.1 <> (bucket caller, i) -> P kv) (store c') /\
  Forall (λ kv, kv.1 = (bucket caller, i) -> kv.2 = e') (store c').
Proof.
  revert c e. induction l as [|[n s] l IH]; intros c e Hmax HP He Hf; [done|]. cbn [foldl]. cbv zeta.
  destruct (putSignature_spec caller i s c P Hmax HP) as (Em & E & HP' & He'). rewrite Hf in E, He'.
  destruct (IH (putSignature caller i s c) (<[sg_methodName s := s]> e)) as (E1 & E2 & E3); [lia|done|done|by rewrite E|].
  split_and!; [congruence|done|done].
Qed.

Lemma inserts_all (full : gmap bytes MethodSignature) (l : list (bytes * MethodSignature)) e :
  map_Forall (λ n s, sg_methodName s = n) full -> e ⊆ full -> (forall n s, (n, s) ∈ l -> full !! n = Some s) ->
  (forall n s, full !! n = Some s -> e !! n = Some s \/ (n, s) ∈ l) ->
  foldl (λ e '(_, s), <[sg_methodName s := s]> e) e l = full.
Proof.
  intros Hn. revert e. induction l as [|[n s] l IH]; intros e He Hl Hall; cbn [foldl].
  - apply map_subseteq_po; [done|]. apply map_subseteq_spec. intros n s Hs. destruct (Hall n s Hs) as [?|?%elem_of_nil]; done.
  - assert (full !! n = Some s) as Hs by (apply Hl; by left). pose proof (Hn _ _ Hs) as Hns. cbv beta in Hns. rewrite Hns. apply IH.
    + by apply insert_subseteq_l.
    + intros n' s' Hin. apply Hl. by right.
    + intros n' s' Hs'. destruct (decide (n' = n)) as [->|Hne]; [left; rewrite lookup_insert_eq; congruence|].
      rewrite lookup_insert_ne by done. destruct (Hall _ _ Hs') as [?|[[= ? ?]|?]%elem_of_cons]; [by left|done|by right].
Qed.

Lemma putSignatures_ok `{HashIteration} caller i c : (forall p, caller = Some p -> package_name p) -> signatures_ok c ->
  signatures_ok (foldl (puts caller i) c (hash_order (ref_sigs pf cls i caller))).
Proof.
  intros Hc [Hmax Hok]. set (full := ref_sigs pf cls i caller).
  set (P := λ kv, kv.2 = ref_sigs pf cls kv.1.2 (if bool_decide (kv.1.1 = []) then None else Some kv.1.1)) in *.
  set (key := (bucket caller, i)). assert (forall kv, kv.1 = key -> P kv <-> kv.2 = full) as HP.
  { intros [k m] Ek. cbn in Ek. subst k. unfold P. cbn [fst snd key]. by rewrite bucket_caller. }
  set (e := default ∅ (lhm_find key (store c))).
  assert (e = ∅ \/ e = full) as He.
  { unfold e. destruct (lhm_find key (store c)) as [m|] eqn:E; [right|by left]. by apply (HP (key, m)), (lhm_find_Forall P _ _ _ Hok E). }
  destruct (putSignatures_spec caller i (hash_order full) c e P) as (E1 & E2 & E3); fold key; [done| | |done|].
  - eapply list.Forall_impl; [exact Hok|]. done.
  - apply list.Forall_forall. intros [k m] Hin Ek. cbn in Ek. subst k. rewrite list.Forall_forall in Hok.
    pose proof (proj1 (HP (key, m) eq_refl) (Hok _ Hin)) as Em. cbn in Em |- *. subst m.
    destruct (lhm_find_some _ _ _ Hin) as [m E]. unfold e. rewrite E. cbn.
    symmetry. apply (HP (key, m) eq_refl). apply (lhm_find_Forall P _ _ _) with (2 := E). by apply list.Forall_forall.
  - split; [lia|]. fold P. rewrite (inserts_all full) in E3.
    + apply list.Forall_forall. intros kv Hin. rewrite list.Forall_forall in E2, E3.
      destruct (decide (kv.1 = key)) as [Ek|Hne]; [by apply HP; [|apply E3]|by apply E2].
    + intros n s. apply ref_sigs_named.
    + destruct He as [->| ->]; [apply map_empty_subseteq|done].
    + intros n s. apply hash_order_elem.
    + intros n s Hs. right. by apply hash_order_elem.
Qed.
Lemma sendOp_ok op c : persistent_ok c -> op_fresh op -> persistent_ok (sendOp op c).
Proof. intros [Hh Hq Ho Hd] Hop. constructor; cbn; [done| |done|done]. apply list.Forall_app. by split; [|constructor]. Qed.

Lemma putCached_ok p i v t c : meta_ok (MkMeta v t) -> persistent_ok c -> persistent_ok (putCached p i v t (ref_sigs pf cls i (Some p)) c).
Proof. intros Hm Hc. unfold putCached. case_bool_decide; [done|]. apply sendOp_ok; [done|]. split_and!; [done..|]. by apply ref_sigs_ok. Qed.

Lemma load_signatures_spec i caller name meta c r : (forall p, caller = Some p -> package_name p) ->
  (forall p m, meta = Some (p, m) -> caller = Some p /\ meta_ok m) -> resolver_ok r -> persistent_ok c ->
  let '(s, r') := load_signatures pf i caller name meta c r in
  s = Some (default (MkSignature name [] None) (ref_sigs pf cls i caller !! name)) /\ resolver_ok r' /\ negativeCache r' = negativeCache r.
Proof.
  intros Hc Hmeta [Hg Hr Hs Hn Hp] Hpc. unfold load_signatures. rewrite load_ref by done.
  pose proof (getOrLoad_spec caller i (signatureCache r) Hc Hs) as Hl. destruct (getOrLoad _ _ _ _) as [sigs sc].
  destruct Hl as [-> Hsc]. split_and!; [done| |done]. constructor; cbn; [done..|].
  destruct meta as [[p m]|]; [|done]. destruct (Hmeta p m eq_refl) as [-> Hm]. apply putCached_ok; [by destruct m|done].
Qed.

Lemma resolveSingleCandidate_spec `{HashIteration} i code caller r : (forall p, caller = Some p -> package_name p) -> resolver_ok r ->
  let '(s, r') := resolveSingleCandidate pf i code caller r in
  s = ref_single pf cls i code caller /\ resolver_ok r' /\ negativeCache r' = negativeCache r.
Proof.
  intros Hc Hr. unfold resolveSingleCandidate, ref_single. pose proof (getMethodName_spec i code caller r Hc Hr) as H1.
  destruct (getMethodName _ _ _ _ _) as [name r1]. destruct H1 as (-> & Hr1 & En & Es & Ep & Em).
  set (name := ref_name pf cls i code caller). destruct (HasPrefix name _); [done|]. rewrite <- En.
  destruct caller as [p|]; cbn [mbind option_bind]; [|by apply load_signatures_spec; [..|apply Hr1]].
  destruct (packageMeta (registry r1) !! p) as [m|] eqn:Epm; cbn [mbind option_bind]; [|by apply load_signatures_spec; [..|apply Hr1]].
  assert (forall q m', Some (p, m) = Some (q, m') -> Some p = Some q /\ meta_ok m') as Hmeta.
  { intros ? ? [= -> <-]. split; [done|]. by eapply (ro_meta _ (rk_registry _ Hr1)). }
  destruct (getCached p i _ _ _) as [sigs|] eqn:Eg.
  - case_bool_decide; [by apply load_signatures_spec; [..|apply Hr1]|].
    assert (sigs = ref_sigs pf cls i (Some p)) as ->.
    { apply (po_get _ (rk_persistent _ Hr1)). unfold getCached in Eg. destruct (hc_meta _ !! p); [|done]. by destruct (_ || _). }
    split_and!; [done| |done]. destruct Hr1 as [Hg1 Hr1 Hs1 Hn1 Hp1]. constructor; cbn; [done..| |done|done].
    by apply putSignatures_ok.
  - apply load_signatures_spec; [done..|]. pose proof (rk_persistent _ Hr1) as Hpc.
    destruct (hot_get p i _) as [raw|]; [|done]. case_bool_decide; [done|]. by apply sendOp_ok.
Qed.

(** ** Candidates *)

Definition skipped (r : MethodResolver) (i : bytes) (now : Z) (p : bytes) : Prop :=
  exists ts, lhm_find (p, i) (negativeCache r) = Some ts /\ s64 (now - ts) <= 60000.

Lemma set_negative_ok n r : resolver_ok r -> NoDup n.*1 -> resolver_ok (set_negative n r).
Proof. intros [Hg Hr Hs Hn Hp] Hn'. constructor; cbn; [exact Hg|exact Hr|exact Hs|exact Hn'|exact Hp]. Qed.

Lemma isNegativeCached_spec p i now r : resolver_ok r ->
  let '(b, r') := isNegativeCached p i now r in
  resolver_ok r' /\ (b = true -> skipped r i now p) /\
  forall k ts, lhm_find k (negativeCache r') = Some ts -> lhm_find k (negativeCache r) = Some ts.
Proof.
  intros Hr. unfold isNegativeCached, lhm_get. destruct (lhm_find (p, i) (negativeCache r)) as [ts|] eqn:E; [|done].
  assert (forall k ts', lhm_find k (lhm_put (p, i) ts (negativeCache r)) = Some ts' -> lhm_find k (negativeCache r) = Some ts') as Hput.
  { intros k ts'. destruct (decide (k = (p, i))) as [->|Hne]; [rewrite lhm_find_put; congruence|by rewrite lhm_find_put_ne]. }
  pose proof (lhm_put_nodup (p, i) ts _ (rk_negative _ Hr)) as Hd.
  destruct (Z.ltb_spec 60000 (s64 (now - ts))) as [Hlt|Hle].
  - split_and!; [by apply set_negative_ok, lhm_remove_nodup|done|]. cbn [negativeCache]. intros k ts' E'. apply Hput.
    destruct (decide (k = (p, i))) as [->|Hne]; [|by rewrite lhm_find_remove in E'].
    rewrite lhm_find_none in E' by (intros [? _]%lhm_remove_keys; done). done.
  - split_and!; [by apply set_negative_ok| |done]. intros _. by exists ts.
Qed.

Lemma putNegativeCache_spec p i now r : resolver_ok r ->
  resolver_ok (putNegativeCache p i now r) /\
  forall k ts, k <> (p, i) -> lhm_find k (negativeCache (putNegativeCache p i now r)) = Some ts -> lhm_find k (negativeCache r) = Some ts.
Proof.
  intros Hr. pose proof (lhm_put_nodup (p, i) now _ (rk_negative _ Hr)) as Hd. split; [by apply set_negative_ok, lhm_evict_nodup|].
  intros k ts Hne. cbn [putNegativeCache negativeCache]. destruct (lhm_find_evict k NEGATIVE_CACHE_MAX _ Hd) as [-> | ->]; [done|].
  by rewrite lhm_find_put_ne.
Qed.
Lemma ref_single_class i code caller s : ref_single pf cls i code caller = Some s ->
  classify s = if bool_decide (sg_paramTypes s = []) then WEAK else STRONG.
Proof.
  unfold ref_single, classify. set (name := ref_name _ _ _ _ _). destruct (HasPrefix name _) eqn:E; [done|]. intros [= <-].
  assert (sg_methodName (default (MkSignature name [] None) (ref_sigs pf cls i caller !! name)) = name) as ->.
  { destruct (ref_sigs pf cls i caller !! name) as [s|] eqn:Es; [|done]. by apply ref_sigs_named in Es. }
  rewrite E. by destruct (sg_paramTypes _).
Qed.

Abbreviation strong := (λ s, negb (bool_decide (sg_paramTypes s = []))) (only parsing).

Lemma try_candidates_spec `{HashIteration} i code now cands best r : Forall package_name cands -> resolver_ok r ->
  let '(s, r') := try_candidates pf i code now cands best r in
  resolver_ok r' /\ exists tried, tried `sublist_of` cands /\
    (forall p, p ∈ cands -> p ∉ tried -> skipped r i now p) /\
    let sigs := omap (λ p, ref_single pf cls i code (Some p)) tried in
    s = match List.find strong sigs with Some s => Some s | None => match best with Some w => Some w | None => head sigs end end.
Proof.
  intros Hc. revert best r. induction Hc as [|p cands Hp Hc IH]; intros best r Hr; cbn [try_candidates].
  { split; [done|]. exists []. split_and!; [done|by intros ? ?%elem_of_nil|]. by destruct best. }
  pose proof (isNegativeCached_spec p i now r Hr) as H1. destruct (isNegativeCached p i now r) as [b r1]. destruct H1 as (Hr1 & Hb & Hn1).
  destruct b.
  { specialize (IH best r1 Hr1). destruct (try_candidates _ _ _ _ _ _ _) as [s r']. destruct IH as (Hr' & tried & Ht & Hs & E).
    split; [done|]. exists tried. split_and!; [by apply sublist_cons| |done]. intros q [->|Hq]%elem_of_cons Hnt; [by apply Hb|].
    destruct (Hs q Hq Hnt) as (ts & Ets & ?). exists ts. split; [by apply Hn1|done]. }
  assert (forall q, Some p = Some q -> package_name q) as Hp' by (by intros q [= <-]).
  pose proof (resolveSingleCandidate_spec i code (Some p) r1 Hp' Hr1) as H2.
  destruct (resolveSingleCandidate _ _ _ _ _) as [sig r2]. destruct H2 as (-> & Hr2 & En2).
  destruct (ref_single pf cls i code (Some p)) as [s0|] eqn:E0.
  - cbn [fmap option_fmap option_map]. rewrite (ref_single_class _ _ _ _ E0). case_bool_decide as Hw.
    + set (best' := match best with None => Some s0 | _ => best end). specialize (IH best' r2 Hr2).
      destruct (try_candidates _ _ _ _ _ _ _) as [s r']. destruct IH as (Hr' & tried & Ht & Hs & E). split; [done|]. exists (p :: tried).
      split_and!; [by apply sublist_skip| |].
      * intros q [->|Hq]%elem_of_cons Hnt; [destruct Hnt; by left|]. destruct (Hs q Hq) as (ts & Ets & ?); [intros ?; apply Hnt; by right|].
        exists ts. split; [|done]. apply Hn1. by rewrite <- En2.
      * cbn [omap list_omap]. rewrite E0. cbn [List.find head]. rewrite bool_decide_true by done. cbn [negb]. rewrite E.
        destruct (List.find _ _); [done|]. by destruct best.
    + split; [done|]. exists (p :: cands). split_and!; [done| |].
      * intros q Hq Hnt. by destruct Hnt.
      * cbn [omap list_omap]. rewrite E0. cbn [List.find]. by rewrite bool_decide_false.
  - cbn [fmap option_fmap option_map]. destruct (putNegativeCache_spec p i now r2 Hr2) as [Hr3 Hn3]. specialize (IH best _ Hr3).
    destruct (try_candidates _ _ _ _ _ _ _) as [s r']. destruct IH as (Hr' & tried & Ht & Hs & E). split; [done|]. exists (p :: tried).
    split_and!; [by apply sublist_skip| |].
    + intros q [->|Hq]%elem_of_cons Hnt; [destruct Hnt; by left|]. rewrite elem_of_cons in Hnt.
      destruct (Hs q Hq) as (ts & Ets & ?); [tauto|]. exists ts. split; [|done]. apply Hn1. rewrite <- En2. apply Hn3; [|done]. intros [= ->]. tauto.
    + cbn [omap list_omap]. by rewrite E0.
Qed.

(** ** The coroutine of the persistent cache *)

Lemma evict_packages_hot over keys o h p i m : hot_get p i (evict_packages over keys o h).2 = Some m -> hot_get p i h = Some m.
Proof.
  revert o h. induction keys as [|k keys IH]; intros o h; cbn [evict_packages]; [done|]. destruct (over o); [|done]. intros E%IH.
  unfold hot_get in *. cbn in E. destruct (decide (p = k)) as [->|Hne]; [by rewrite lookup_delete_eq in E|by rewrite lookup_delete_ne in E].
Qed.

Lemma flush_pending_ok `{HashIteration} limits c : persistent_ok c -> persistent_ok (flush_pending limits c).
Proof.
  intros [Hh Hq Ho [Hd Hf]]. unfold flush_pending. destruct (ps_pendingDirty c) as [|x dirty] eqn:Ed; [done|]. rewrite <- Ed. clear Ed.
  pose proof (flushToDisk_spec limits (ps_pendingDirty c) (ps_hot c) (ps_disk c) Ho Hd) as Hs.
  destruct (flushToDisk limits (ps_pendingDirty c) (ps_hot c) (ps_disk c)) as [h disk] eqn:E. destruct Hs as (Ho' & Hd' & Hs).
  constructor; cbn; [|done|done|split; [done|]].
  - intros p i m Hm. apply Hh. unfold flushToDisk in E. set (o := foldl _ _ _) in E.
    destruct (evictPackagesIfOverflow limits o (ps_hot c)) as [o1 h1] eqn:E1.
    destruct (evictTotalIfOverflow limits o1 h1) as [o2 h2] eqn:E2. injection E as <- _.
    eapply evict_packages_hot. unfold evictPackagesIfOverflow in E1. rewrite E1. cbn. eapply evict_packages_hot.
    unfold evictTotalIfOverflow in E2. by rewrite E2.
  - intros p d Hp i m Hi. destruct (Hs p) as [[? _]|[_ Ep]]; [congruence|]. rewrite Hp in Ep. case_bool_decide; [|by eapply (Hf p d)].
    destruct (entry limits (ps_hot c) p) as [v|] eqn:Ev; [|done].
    destruct (entry_covers limits _ _ _ d Ho Ev) as [[_ Hc] _]; [done|]. by apply Hh, Hc.
Qed.

Lemma handle_op_ok `{HashIteration} limits now op c : persistent_ok c -> op_fresh op -> persistent_ok (handle_op limits now op c).
Proof.
  intros Hc Hop. pose proof Hc as [Hh Hq Ho Hd]. pose proof (flush_pending_ok limits) as Hflush. unfold handle_op.
  destruct op as [p i ver t m|p|staging|ack].
  - set (c1 := mark_dirty _ _ _ _). enough (persistent_ok c1) by (destruct (_ <=? _); auto). destruct Hop as (Em & Hmeta & Hm).
    constructor; [|done|by apply applyPut_ok|done]. intros p' i' m'. cbn. rewrite hot_get_put.
    case_bool_decide as Hpi; [destruct Hpi as [-> ->]; intros [= <-]; exact Em|]. apply Hh.
  - set (c1 := mark_dirty _ _ _ _). enough (persistent_ok c1) by (destruct (_ <=? _); auto).
    constructor; [|done|by apply removePackage_ok|done]. intros p' i' m' E. apply Hh. unfold hot_get in *. cbn in E.
    destruct (decide (p' = p)) as [->|Hne]; [by rewrite lookup_delete_eq in E|by rewrite lookup_delete_ne in E].
  - set (c1 := MkPersistent _ _ _ _ _ _ _). enough (persistent_ok c1) by (destruct (_ <=? _); auto). destruct Hop as [Hf Hst].
    constructor; [|done|by apply applyLoadComplete_ok|done]. cbn. intros p i m.
    destruct (applyLoadComplete_get staging now (ps_hot c)) as [-> _]. destruct (hot_get p i (ps_hot c)) eqn:E; [intros [= <-]; by apply Hh|].
    destruct (staging !! p) as [d|] eqn:Ed; [|done]. by apply (Hf p d).
  - destruct (Hflush c Hc) as [Hh' Hq' Ho' Hd']. by constructor.
Qed.

Lemma actor_round_ok `{HashIteration} limits now c : persistent_ok c -> persistent_ok (actor_round limits now c).
Proof.
  intros Hc. unfold actor_round. destruct (ps_queue c) as [|op q] eqn:Eq.
  { destruct (_ && _); [by apply flush_pending_ok|done]. }
  destruct Hc as [Hh Hq Ho Hd]. rewrite Eq in Hq. apply list.Forall_cons in Hq as [Hop Hq]. by apply handle_op_ok.
Qed.

(** A new process loads what is on disk. *)
Lemma startActor_ok disk : disk_fresh disk -> persistent_ok (startActor (newPersistent disk)).
Proof.
  intros [Hd Hf]. constructor; cbn; [|constructor; [|by constructor]|split|by split].
  - intros p i m. unfold hot_get. cbn. by rewrite lookup_empty.
  - split; [done|]. apply Hd.
  - intros p i m. unfold hot_get. cbn. by rewrite lookup_empty.
  - apply map_Forall_empty.
Qed.
End Settled.

(** ** Queries *)

(** A query, a round of the persistent cache, or a new process.  It finds one of
    the texts that were written to the preferences, the newest or an older one:
    apply() returns before the text is on disk. *)
Inductive resolver_step :=
  | Query (i : bytes) (code : Z) (candidates : list bytes) (now : Z)
  | CacheRound (now : Z)
  | NewProcess (k : nat).

Section Queries.
Context `{OrgJson} `{HashIteration} (limits : sig_limits) (pf : platform) (capacity : nat) (g : AppClassLoaderRegistry).

(** A resolver as the app starts, with the loaders of [g] and the preferences
    [disk] *)
Definition newResolver (disk : option bytes) : MethodResolver :=
  MkResolver ∅ [] (MkSigCache capacity []) g (startActor (newPersistent disk)).

(** The resolver, and the texts written to the preferences, the newest first *)
Definition resolver_step_of (s : MethodResolver * list (option bytes)) (x : resolver_step) : MethodResolver * list (option bytes) :=
  let '(r, written) := s in
  match x with
  | Query i code candidates now => ((getMethodSignature pf i code candidates now r).2, written)
  | CacheRound now =>
      let c := actor_round limits now (persistentCache r) in
      (MkResolver (reflectionCache r) (negativeCache r) (signatureCache r) (registry r) c,
       if bool_decide (ps_disk c = ps_disk (persistentCache r)) then written else ps_disk c :: written)
  | NewProcess k => match written !! k with Some disk => (newResolver disk, written) | None => s end
  end.

Definition run_resolver (disk : option bytes) (l : list resolver_step) : MethodResolver :=
  (foldl resolver_step_of (newResolver disk, [disk]) l).1.

Definition query_ok (x : resolver_step) : Prop := match x with Query _ _ candidates _ => Forall package_name candidates | _ => True end.

Context (Hcap : (0 < capacity)%nat) (Hstubs : stubMaps g = ∅).
Context (Hsettled : forall p m s, packageMeta g !! p = Some m -> packageInfo pf p = Some s -> m = s).
Context (Hmeta : forall p m, packageMeta g !! p = Some m -> meta_ok m).
Context (Hindex : forall i, Forall package_name (index_lookup pf i)) (Hnamed : classes_named pf (classLoaders g)).
Local Abbreviation cls := (classLoaders g) (only parsing).

Lemma getMethodSignature_spec i code candidates now r : Forall package_name candidates -> resolver_ok pf cls r ->
  let '(s, r') := getMethodSignature pf i code candidates now r in
  resolver_ok pf cls r' /\
  match candidates with
  | [] => s = ref_single pf cls i code None
  | _ => exists tried, tried `sublist_of` candidates /\ (forall p, p ∈ candidates -> p ∉ tried -> skipped r i now p) /\
      s = ref_best pf cls i code tried
  end.
Proof.
  intros Hc Hr. unfold getMethodSignature. destruct candidates as [|p l].
  - assert (forall p : bytes, None = Some p -> package_name p) as Hn by done.
    pose proof (resolveSingleCandidate_spec pf cls Hindex Hnamed i code None r Hn Hr) as H1.
    destruct (resolveSingleCandidate _ _ _ _ _) as [s r']. destruct H1 as (-> & Hr' & _). split; [done|].
    destruct (ref_single pf cls i code None) as [s|] eqn:E; [|done]. cbn [mbind option_bind].
    rewrite (ref_single_class _ _ _ _ _ _ E). by case_bool_decide.
  - pose proof (try_candidates_spec pf cls Hindex Hnamed i code now (p :: l) None r Hc Hr) as H1.
    destruct (try_candidates _ _ _ _ _ _ _) as [s r']. destruct H1 as (Hr' & tried & Ht & Hs & E). split; [done|]. by exists tried.
Qed.

Lemma newResolver_ok disk : disk_fresh pf cls disk -> resolver_ok pf cls (newResolver disk).
Proof.
  intros Hd. constructor; cbn.
  - constructor; [done| |done|done]. intros p i m _. by rewrite Hstubs, lookup_empty.
  - intros i m. by rewrite lookup_empty.
  - split; [done|by constructor].
  - constructor.
  - by apply startActor_ok.
Qed.

Lemma resolver_step_ok x s : query_ok x ->
  resolver_ok pf cls s.1 /\ Forall (disk_fresh pf cls) s.2 ->
  resolver_ok pf cls (resolver_step_of s x).1 /\ Forall (disk_fresh pf cls) (resolver_step_of s x).2.
Proof.
  destruct s as [r written]. cbn [fst snd]. intros Hx [Hr Hw]. destruct x as [i code c now|now|k]; cbn [resolver_step_of].
  - pose proof (getMethodSignature_spec i code c now r Hx Hr) as H1. by destruct (getMethodSignature _ _ _ _ _ _) as [s r'], H1.
  - destruct Hr as [Hg Hr Hs Hn Hp]. apply (actor_round_ok pf cls limits now) in Hp. split; [by constructor|].
    case_bool_decide; [done|]. constructor; [apply Hp|done].
  - destruct (written !! k) as [disk|] eqn:Ek; [|done]. split; [|done]. apply newResolver_ok. by eapply list.Forall_lookup_1.
Qed.

Lemma run_resolver_ok disk l : disk_fresh pf cls disk -> Forall query_ok l -> resolver_ok pf cls (run_resolver disk l).
Proof.
  intros Hd Hl. unfold run_resolver.
  enough (forall s, resolver_ok pf cls s.1 /\ Forall (disk_fresh pf cls) s.2 -> resolver_ok pf cls (foldl resolver_step_of s l).1) as H1.
  { apply H1. split; [by apply newResolver_ok|by constructor]. }
  induction Hl as [|x l Hx Hl IH]; intros s Hs; [apply Hs|]. cbn [foldl]. by apply IH, resolver_step_ok.
Qed.
End Queries.


(** An unknown code hides a whole interface: when a query for one code of an
    interface finds no method in a package, then for the next minute no code of
    the interface is found in it, whatever its classes say. *)
Theorem unknown_code_hides_interface `{HashIteration} pf r p i code now r1 pf' code' now' :
  getMethodSignature pf i code [p] now r = (None, r1) -> ~ skipped r i now p ->
  0 <= now <= now' -> now' <= now + 60000 < 2 ^ 63 ->
  (getMethodSignature pf' i code' [p] now' r1).1 = None.
Proof.
  intros E Hns Hnow Hnow'. assert (lhm_find (p, i) (negativeCache r1) = Some now) as Hf.
  { unfold getMethodSignature in E. cbn [try_candidates] in E.
    assert ((isNegativeCached p i now r).1 = false) as Hb.
    { unfold isNegativeCached, lhm_get. destruct (lhm_find (p, i) (negativeCache r)) as [ts|] eqn:Ef; [|done].
      destruct (Z.ltb_spec 60000 (s64 (now - ts))); [done|]. destruct Hns. by exists ts. }
    destruct (isNegativeCached p i now r) as [b r2]. cbn in Hb. subst b.
    destruct (resolveSingleCandidate pf i code (Some p) r2) as [sig r3].
    assert (r1 = putNegativeCache p i now r3) as -> by (destruct sig as [s|]; cbn in E; [destruct (classify s)|]; congruence).
    cbn [putNegativeCache negativeCache]. unfold lhm_put.
    destruct (lhm_evict_last NEGATIVE_CACHE_MAX (lhm_remove (p, i) (negativeCache r3)) ((p, i), now)) as (m' & -> & Hs); [lia|].
    rewrite lhm_find_app, lhm_find_none; [by rewrite lhm_find_cons, bool_decide_true|].
    intros (kv & Ek & Hin)%list_elem_of_fmap. eapply elem_of_suffix in Hin; [|exact Hs]. apply list_elem_of_filter in Hin as [Hne _]. done. }
  unfold getMethodSignature. cbn [try_candidates]. unfold isNegativeCached, lhm_get. rewrite Hf.
  destruct (Z.ltb_spec 60000 (s64 (now' - now))) as [Hlt|_]; [|done].
  unfold s64, signed, wrap in Hlt. rewrite Z.mod_small in Hlt by lia. destruct (Z.ltb_spec (now' - now) (2 ^ (64 - 1))); lia.
Qed.

(** Signatures of an old version are served for the new one: when the
    persistent cache still holds an interface of a package from before its
    update, it refuses to answer for the updated package; but once another
    interface of the package, which it does not hold, has been resolved and
    written to it, it answers for the updated package with the old
    signatures. *)
Theorem old_signatures_relabelled `{OrgJson} `{HashIteration} limits pf r p i j code name old oldMeta meta now :
  packageMeta (registry r) !! p = Some meta -> oldMeta <> meta ->
  let c := persistentCache r in
  ps_queue c = [] -> hc_meta (ps_hot c) !! p = Some oldMeta -> hot_get p i (ps_hot c) = Some old -> hot_get p j (ps_hot c) = None ->
  reflectionCache r !! j = Some {[code := name]} -> HasPrefix name (str "code=") = false ->
  lhm_find (p, j) (store (signatureCache r)) = None -> loadInterfaceSignatures pf j (Some p) (registry r) <> ∅ ->
  Z.of_nat (length (ps_pendingDirty c)) + 1 < debounceMaxBatch limits ->
  let c' := actor_round limits now (persistentCache (resolveSingleCandidate pf j code (Some p) r).2) in
  getCached p i (pm_versionCode meta) (pm_lastUpdateTime meta) c = None /\
  getCached p i (pm_versionCode meta) (pm_lastUpdateTime meta) c' = Some old.
Proof.
  intros Hm Hne c Hq Hmeta Hi Hj Hr Hn Hf Hload Hlen.
  assert (forall k, getCached p k (pm_versionCode meta) (pm_lastUpdateTime meta) c = None) as Hnone.
  { intros k. unfold getCached. rewrite Hmeta. destruct (Z.eqb_spec (pm_versionCode oldMeta) (pm_versionCode meta)) as [E1|]; [|done].
    destruct (Z.eqb_spec (pm_lastUpdateTime oldMeta) (pm_lastUpdateTime meta)) as [E2|]; [|done]. destruct Hne. destruct oldMeta, meta. cbn in *. congruence. }
  split; [done|]. unfold resolveSingleCandidate, getMethodName. rewrite Hr, lookup_singleton_eq, Hn. cbn [registry persistentCache mbind option_bind].
  rewrite Hm. cbn [mbind option_bind]. fold c. rewrite Hnone, Hj. unfold load_signatures, getOrLoad, lhm_get.
  cbn [signatureCache registry]. change (default [] (Some p)) with p. rewrite Hf, bool_decide_false by done. cbn [snd persistentCache]. unfold putCached. rewrite bool_decide_false by done.
  unfold actor_round. cbn [ps_queue]. rewrite Hq. cbn [app ps_hot ps_pendingDirty ps_firstDirtyAt ps_loadCompleted ps_acks ps_disk handle_op].
  set (c1 := mark_dirty _ _ _ _). destruct (Z.leb_spec (debounceMaxBatch limits) (Z.of_nat (length (ps_pendingDirty c1)))) as [Hle|_].
  { unfold c1 in Hle. cbn in Hle. case_bool_decide; rewrite ?length_app in Hle; cbn in Hle; lia. }
  assert (i <> j) as Hij by congruence. unfold getCached, c1. cbn [mark_dirty ps_hot]. cbn [hot_put hc_meta].
  rewrite lookup_insert_eq. cbn [pm_versionCode pm_lastUpdateTime]. rewrite !Z.eqb_refl. cbn [negb orb].
  rewrite <- Hi. change (hot_get p i (hot_put p j (loadInterfaceSignatures pf j (Some p) (registry r)) now
    (putPackageMeta p (pm_versionCode meta) (pm_lastUpdateTime meta) (ps_hot c))) = hot_get p i (ps_hot c)).
  rewrite hot_get_put, bool_decide_false by (intros [_ ?]; done). done.
Qed.

(** ** A device to try it on: one package with one interface of two methods, of
    which the system's loader knows nothing *)

Definition sample_stub : jclass :=
  MkClass [MkField (str "TRANSACTION_bar") true true (Some 1); MkField (str "TRANSACTION_baz") true true (Some 2);
           MkField (str "DESCRIPTOR") true false None] None None.
Definition sample_interface : jclass :=
  MkClass [] None (Some [MkMethod (str "bar") (Some [JPrimitive (str "int")]) (Some (JClassType (str "java.lang.String")));
                         MkMethod (str "baz") (Some []) None]).
Definition sample_loader : bytes -> option jclass := λ n,
  if bool_decide (n = str "a.IFoo$Stub") then Some sample_stub else if bool_decide (n = str "a.IFoo") then Some sample_interface else None.
Definition sample_platform : platform :=
  MkPlatform (λ _, None) (λ _, Some (MkMeta 7 1000)) (λ _, []) (λ _ _, None) 0.
Definition sample_registry : AppClassLoaderRegistry := MkRegistry {[str "a" := sample_loader]} {[str "a" := MkMeta 7 1000]} ∅ [] [].
Definition sample_limits : sig_limits := MkLimits 64 4096 262144 100 16.

Lemma sublist_singleton (x : bytes) l : l `sublist_of` [x] -> x ∈ l -> l = [x].
Proof. intros [Hl|(l' & -> & Hl)]%sublist_cons_r; apply sublist_nil_r in Hl as ->; [by intros ?%elem_of_nil|done]. Qed.

Lemma sample_named : classes_named sample_platform (classLoaders sample_registry).
Proof.
  split; [done|]. intros p cl i c. unfold sample_registry. cbn [classLoaders]. intros [<- <-]%lookup_singleton_Some. unfold sample_loader.
  repeat case_bool_decide; intros [= <-]; repeat constructor; by vm_compute.
Qed.

Lemma empty_fresh `{OrgJson} pf cls : disk_fresh pf cls None.
Proof. split; [split; [reflexivity|apply map_Forall_empty]|]. intros p d. change (parseJsonFromDisk None) with (∅ : gmap bytes PackageData). by rewrite lookup_empty. Qed.


(** Code 1 is known, but not after code 99 was asked for *)
Lemma unknown_code_hides_interface_witness :
  let J := number_json in let I := listed_hash in
  let r := newResolver 256 sample_registry None in
  (getMethodSignature sample_platform (str "a.IFoo") 1 [str "a"] 1000 r).1 =
    Some (MkSignature (str "bar") [str "int"] (Some (str "String"))) /\
  (getMethodSignature sample_platform (str "a.IFoo") 1 [str "a"] 61000
    (getMethodSignature sample_platform (str "a.IFoo") 99 [str "a"] 1000 r).2).1 = None.
Proof.
  intros J I r. split; [by vm_compute|].
  refine (unknown_code_hides_interface sample_platform r (str "a") (str "a.IFoo") 99 1000 _ sample_platform 1 61000 _ _ _ _).
  - apply surjective_pairing.
  - intros (ts & Ets & _). discriminate Ets.
  - lia.
  - lia.
Defined.

(** The package was updated from version 6 to 7 while the app was not running. *)
Lemma old_signatures_relabelled_witness :
  let J := number_json in let I := listed_hash in
  let old : gmap bytes MethodSignature := {[str "get" := MkSignature (str "get") [str "long"] None]} in
  let h := MkHot {[str "a" := {[str "a.IOld" := old]}]} {[str "a" := MkMeta 6 500]} ∅ in
  let c := MkPersistent h [] [] 0 true [] None in
  let r := MkResolver {[str "a.IFoo" := {[1 := str "bar"]}]} [] (MkSigCache 256 []) sample_registry c in
  let c' := actor_round sample_limits 10 (persistentCache (resolveSingleCandidate sample_platform (str "a.IFoo") 1 (Some (str "a")) r).2) in
  getCached (str "a") (str "a.IOld") 7 1000 c = None /\ getCached (str "a") (str "a.IOld") 7 1000 c' = Some old.
Proof.
  intros J I old h c r.
  apply (old_signatures_relabelled sample_limits sample_platform r (str "a") (str "a.IOld") (str "a.IFoo") 1 (str "bar") old
    (MkMeta 6 500) (MkMeta 7 1000) 10); by vm_compute.
Defined.
