(* ===== verification/AppArguments.v ===== *)
(** * Values of arguments (app, parser/ParcelArgumentDecoder.kt)

    A Kotlin String is the list of its UTF-16 code units.  android.os.Parcel is
    the class [AndroidParcel]: a read gives a value, or the message of an
    exception, and the parcel as it is afterwards. *)

From S2P Require Import Prelude GoLang GoStd AppWire AppParcel AppEvents AppClassLoaders.

(** The code units of a literal, which is UTF-8 in the source; the characters here
    take one byte or three *)
Fixpoint utf16_of (s : bytes) : bytes :=
  match s with
  | [] => []
  | a :: s' =>
      if a <? 0x80 then a :: utf16_of s'
      else match s' with b :: c :: t => (a - 0xE0) * 0x1000 + (b - 0x80) * 0x40 + (c - 0x80) :: utf16_of t | _ => [] end
  end.
Abbreviation text s := (utf16_of (str s)) (only parsing).

(** ** android.os.Parcel *)

Inductive exn A := Value (a : A) | Thrown (message : bytes).
Arguments Value {A}.
Arguments Thrown {A}.

(** The objects whose text is shown: what [Object fqn] reads is what the class's
    CREATOR makes *)
Inductive framework_read := CharSequenceText | BinderName | IntentUri | UriText | ComponentShort | Object (fqn : bytes).

(** The values of a Bundle that are told apart *)
#[warnings="-register-all"]
Inductive bundle_value :=
  | BNull | BString (s : bytes) | BByteArray (size : Z) | BIntArray (l : list Z) | BArray (l : list bundle_value) | BOther (toString : bytes).

Class AndroidParcel := {
  parcel : Type;
  parcel_at : bytes -> Z -> parcel;
  dataPosition : parcel -> Z;
  readInt : parcel -> Z * parcel;
  readLong : parcel -> Z * parcel;
  readByte : parcel -> Z * parcel;
  readFloat : parcel -> bytes * parcel;
  readDouble : parcel -> bytes * parcel;
  readString : parcel -> option bytes * parcel;
  createIntArray : parcel -> exn (option (list Z)) * parcel;
  createLongArray : parcel -> exn (option (list Z)) * parcel;
  createByteArray : parcel -> exn (option bytes) * parcel;
  createStringArray : parcel -> exn (option (list (option bytes))) * parcel;
  createStringArrayList : parcel -> exn (option (list (option bytes))) * parcel;
  createBinderArrayList : parcel -> exn (option (list (option bytes))) * parcel;
  createTypedArrayList : bytes -> parcel -> exn (option (list (option bytes))) * parcel;
  readFramework : framework_read -> parcel -> exn (option bytes) * parcel;
  readBundle : parcel -> exn (option (exn (list (bytes * exn bundle_value)))) * parcel;
  creatorOf : bytes -> bool }.

(** ** Formatting *)

Definition quote (s : option bytes) : bytes :=
  match s with
  | None => str "null"
  | Some s => [34] ++ (s ≫= λ c, if c =? 10 then text "⏎" else if c =? 13 then [] else [c]) ++ [34]
  end.

Definition truncate (s : bytes) : bytes := if len s <=? 256 then s else take 256 s ++ text "…".

(** joinToString with its prefix and postfix *)
Definition bracketed (l : list bytes) : bytes := str "[" ++ Join (str ", ") l ++ str "]".

Definition or_null {A} (f : A -> bytes) (x : option A) : bytes := match x with Some x => f x | None => str "null" end.

(** ** Decoding *)

Record ParcelDecodeResult := MkParcelResult {
  pr_args : list DecodedArgument; pr_consumed : Z; pr_remaining : Z; pr_fullySuccessful : bool }.

Definition PARCELABLE_WHITELIST : list (bytes * bytes) :=
  [(str "Notification", str "android.app.Notification"); (str "PendingIntent", str "android.app.PendingIntent");
   (str "UserHandle", str "android.os.UserHandle"); (str "WorkSource", str "android.os.WorkSource");
   (str "Account", str "android.accounts.Account"); (str "Bitmap", str "android.graphics.Bitmap");
   (str "Rect", str "android.graphics.Rect"); (str "RectF", str "android.graphics.RectF");
   (str "Point", str "android.graphics.Point"); (str "PointF", str "android.graphics.PointF");
   (str "Location", str "android.location.Location"); (str "Messenger", str "android.os.Messenger");
   (str "ParcelFileDescriptor", str "android.os.ParcelFileDescriptor"); (str "ClipData", str "android.content.ClipData");
   (str "ApplicationInfo", str "android.content.pm.ApplicationInfo"); (str "PackageInfo", str "android.content.pm.PackageInfo");
   (str "ActivityInfo", str "android.content.pm.ActivityInfo"); (str "ServiceInfo", str "android.content.pm.ServiceInfo");
   (str "Configuration", str "android.content.res.Configuration")].

Abbreviation whitelisted name other := (match lhm_find name PARCELABLE_WHITELIST with Some fqn => Some fqn | None => lhm_find other PARCELABLE_WHITELIST end) (only parsing).

(** substringBefore, and substringAfter with an empty default *)
Definition before (c : Z) (s : bytes) : bytes := match IndexByte c s with Some i => take i s | None => s end.
Definition after (c : Z) (s : bytes) : bytes := match IndexByte c s with Some i => drop (S i) s | None => [] end.
(** trim, for the spaces that occur in types *)
Fixpoint skip_spaces (s : bytes) : bytes := match s with c :: t => if c =? 32 then skip_spaces t else s | [] => [] end.
Definition trim (s : bytes) : bytes := reverse (skip_spaces (reverse (skip_spaces s))).
Fixpoint split_on (c : Z) (cur s : bytes) : list bytes :=
  match s with
  | [] => [cur]
  | x :: s => if x =? c then cur :: split_on c [] s else split_on c (cur ++ [x]) s
  end.

Abbreviation skip_arguments index types := (imap (λ k type, MkArg (index + Z.of_nat k) type (text "<已跳过:前一个参数解析失败>") UNPARSED (Some (text "因前一参数解析失败而跳过"))) types) (only parsing).

Section Decode.
Context `{AndroidParcel}.

(** A read that may throw, and its text *)
Definition show {A} (f : A -> bytes) (x : exn A * parcel) : exn bytes * parcel :=
  match x with (Value a, p) => (Value (f a), p) | (Thrown m, p) => (Thrown m, p) end.

Fixpoint shortValue (v : bundle_value) : bytes :=
  match v with
  | BNull => str "null"
  | BString s => quote (Some s)
  | BByteArray n => str "bytes[" ++ Itoa n ++ str "]"
  | BIntArray l => bracketed (Itoa <$> l)
  | BArray l => bracketed (map shortValue l)
  | BOther s => s
  end.

Definition formatBundle (b : option (exn (list (bytes * exn bundle_value)))) : bytes :=
  match b with
  | None => str "null"
  | Some (Thrown m) => text "Bundle(无法读取: " ++ m ++ str ")"
  | Some (Value []) => str "Bundle{}"
  | Some (Value kvs) =>
      let part '(k, v) := k ++ str "=" ++ match v with Value v => shortValue v | Thrown _ => quote (Some (text "<错误>")) end in
      let suffix := if (6 <? length kvs)%nat then text ", …(+" ++ Itoa (Z.of_nat (length kvs) - 6) ++ str ")" else [] in
      str "Bundle{" ++ Join (str ", ") (map part (take 6 kvs)) ++ suffix ++ str "}"
  end.

(** The entries of a map, of which eight are shown *)
Fixpoint read_pairs (n : nat) (p : parcel) : list bytes * parcel :=
  match n with
  | O => ([], p)
  | S n =>
      let '(k, p) := readString p in
      let '(v, p) := readString p in
      let '(l, p) := read_pairs n p in ((quote k ++ str ":" ++ quote v) :: l, p)
  end.

Definition decodeStringMap (p : parcel) (type : bytes) : exn bytes * parcel :=
  let parts := (λ s, after_last 46 (trim s)) <$> split_on 44 [] (before 62 (after 60 type)) in
  if negb (bool_decide (parts = [str "String"; str "String"]))
  then (Thrown (str "Map<" ++ Join (str ",") parts ++ text "> 暂未支持"), p)
  else
    let '(n, p) := readInt p in
    if n =? -1 then (Value (str "null"), p)
    else if negb ((0 <=? n) && (n <=? 10000)) then (Thrown (text "Map size 不合理: " ++ Itoa n), p)
    else
      let '(l, p) := read_pairs (Z.to_nat n) p in
      (Value (str "{" ++ Join (str ", ") (take 8 l) ++ (if 8 <? n then text ", …(+" ++ Itoa (n - 8) ++ str ")" else []) ++ str "}"), p).

Definition decodeFrameworkParcelable (p : parcel) (fqn : bytes) : exn bytes * parcel :=
  let '(hasValue, p) := readInt p in
  if hasValue =? 0 then (Value (str "null"), p)
  else if negb (creatorOf fqn) then (Thrown (fqn ++ text " CREATOR 不可用"), p)
  else show (or_null id) (readFramework (Object fqn) p).

Definition decodeValue (p : parcel) (type : bytes) : exn bytes * parcel :=
  let outerType := before 60 type in
  let head := after_last 46 outerType in
  let named s := bool_decide (head = str s) in
  let number (x : Z * parcel) := (Value (Itoa x.1), x.2) in
  if named "int" then number (readInt p)
  else if named "long" then number (readLong p)
  else if named "boolean" then let '(v, p) := readInt p in (Value (if v =? 0 then str "false" else str "true"), p)
  else if named "float" then let '(s, p) := readFloat p in (Value s, p)
  else if named "double" then let '(s, p) := readDouble p in (Value s, p)
  else if named "byte" then number (readByte p)
  else if named "short" then number (readInt p)
  else if named "char" then let '(v, p) := readInt p in (Value [u16 v], p)
  else if named "String" then let '(s, p) := readString p in (Value (quote s), p)
  else if named "CharSequence" then show quote (readFramework CharSequenceText p)
  else if named "IBinder" then show (or_null (λ d, str "IBinder(" ++ d ++ str ")")) (readFramework BinderName p)
  else if named "Bundle" then show formatBundle (readBundle p)
  else if named "Intent" then
    let '(hasValue, p) := readInt p in
    if hasValue =? 0 then (Value (str "null"), p) else show (or_null id) (readFramework IntentUri p)
  else if named "Uri" then show (or_null id) (readFramework UriText p)
  else if named "ComponentName" then
    let '(hasValue, p) := readInt p in
    if hasValue =? 0 then (Value (str "null"), p) else show (or_null id) (readFramework ComponentShort p)
  else if named "int[]" then show (or_null (λ l, bracketed (Itoa <$> l))) (createIntArray p)
  else if named "long[]" then show (or_null (λ l, bracketed (Itoa <$> l))) (createLongArray p)
  else if named "String[]" then show (or_null (λ l, bracketed (quote <$> l))) (createStringArray p)
  else if named "byte[]" then show (or_null (λ b : bytes, str "bytes[" ++ Itoa (len b) ++ str "]")) (createByteArray p)
  else if named "Map" || named "HashMap" then decodeStringMap p type
  else if named "List" then
    let inner := trim (before 62 (after 60 type)) in
    let innerHead := after_last 46 inner in
    if bool_decide (innerHead = str "String") then show (or_null (λ l, bracketed (quote <$> l))) (createStringArrayList p)
    else if bool_decide (innerHead = str "IBinder") then show (or_null (λ l, bracketed (or_null id <$> l))) (createBinderArrayList p)
    else
      match whitelisted innerHead inner with
      | None => (Thrown (str "List<" ++ inner ++ text "> 暂未支持"), p)
      | Some fqn =>
          if negb (creatorOf fqn) then (Thrown (fqn ++ text " CREATOR 不可用"), p)
          else show (or_null (λ l, bracketed (or_null id <$> l))) (createTypedArrayList fqn p)
      end
  else
    match whitelisted head outerType with
    | Some fqn => decodeFrameworkParcelable p fqn
    | None => (Thrown (text "未识别的类型: " ++ type), p)
    end.

Definition tryDecodeOne (p : parcel) (index : Z) (type : bytes) : DecodedArgument * parcel :=
  match decodeValue p type with
  | (Value v, p) => (MkArg index type (truncate v) SUCCESS None, p)
  | (Thrown m, p) => (MkArg index type (text "<解析失败>") UNPARSED (Some m), p)
  end.

(** The arguments after one that could not be read *)

Fixpoint decode_arguments (p : parcel) (index : Z) (types : list bytes) : list DecodedArgument * bool * parcel :=
  match types with
  | [] => ([], true, p)
  | type :: types =>
      let '(arg, p) := tryDecodeOne p index type in
      match da_status arg with
      | SUCCESS => let '(args, ok, p) := decode_arguments p (index + 1) types in (arg :: args, ok, p)
      | UNPARSED => (arg :: skip_arguments (index + 1) types, false, p)
      end
  end.

(** decode with decodeFromParcel; [None] where computeArgStart throws *)
Definition decodeParcel (rawParcel : bytes) (paramTypes : list bytes) : option ParcelDecodeResult :=
  match rawParcel, paramTypes with
  | [], _ | _, [] => Some (MkParcelResult [] 0 (len rawParcel) (bool_decide (paramTypes = [])))
  | _, _ =>
      match computeArgStart rawParcel with
      | None => None
      | Some None => Some (MkParcelResult [] 0 (len rawParcel) false)
      | Some (Some argStart) =>
          let '(args, ok, p) := decode_arguments (parcel_at rawParcel argStart) 0 paramTypes in
          Some (MkParcelResult args (dataPosition p) (Z.max 0 (len rawParcel - dataPosition p)) ok)
      end
  end.
End Decode.
