(* ===== verification/AppArgumentsSpec.v ===== *)
(** * Values of arguments: theorems on AppArguments *)

From S2P Require Import Prelude GoLang GoStd AppWire AppParcel AppEvents AppReply AppTokens AppReplySpec AppClassLoaders AppArguments.

(** ** What android.os.Parcel promises

    A read at bytes that were written by the matching write gives what was
    written, and leaves the position behind them. *)

Section Laws.
Context `{AndroidParcel} (rest : parcel -> bytes).

Definition reads {A} (op : parcel -> A * parcel) (a : A) (bs : bytes) : Prop :=
  forall p t, rest p = bs ++ t -> exists p', op p = (a, p') /\ rest p' = t /\ dataPosition p' = dataPosition p + len bs.

(** writeInt, writeLong and writeString; an array is its length and its
    elements, or the length -1 *)
Definition write_array {A} (f : A -> bytes) (l : option (list A)) : bytes :=
  match l with None => le_bytes 4 (-1) | Some l => le_bytes 4 (Z.of_nat (length l)) ++ (l ≫= f) end.
Definition write_bytes (b : option bytes) : bytes :=
  match b with None => le_bytes 4 (-1) | Some b => le_bytes 4 (len b) ++ b ++ replicate (Z.to_nat (- len b mod 4)) 0 end.
End Laws.

Class ParcelLaws `{AndroidParcel} := {
  rest : parcel -> bytes;
  rest_at data pos : 0 <= pos <= len data -> rest (parcel_at data pos) = drop (Z.to_nat pos) data /\ dataPosition (parcel_at data pos) = pos;
  readInt_law v : - 2 ^ 31 <= v < 2 ^ 31 -> reads rest readInt v (le_bytes 4 v);
  readLong_law v : - 2 ^ 63 <= v < 2 ^ 63 -> reads rest readLong v (le_bytes 8 v);
  readByte_law v : - 2 ^ 7 <= v < 2 ^ 7 -> reads rest readByte v (le_bytes 4 v);
  readString_law s : string_ok s -> reads rest readString s (write_string s);
  createIntArray_law l : from_option (λ l, Z.of_nat (length l) < 2 ^ 31 /\ Forall (λ v, - 2 ^ 31 <= v < 2 ^ 31) l) True l ->
    reads rest createIntArray (Value l) (write_array (le_bytes 4) l);
  createLongArray_law l : from_option (λ l, Z.of_nat (length l) < 2 ^ 31 /\ Forall (λ v, - 2 ^ 63 <= v < 2 ^ 63) l) True l ->
    reads rest createLongArray (Value l) (write_array (le_bytes 8) l);
  createByteArray_law b : from_option (λ b, len b < 2 ^ 31 /\ is_bytes b) True b -> reads rest createByteArray (Value b) (write_bytes b);
  createStringArray_law l : from_option (λ l, Z.of_nat (length l) < 2 ^ 31 /\ Forall string_ok l) True l ->
    reads rest createStringArray (Value l) (write_array write_string l);
  createStringArrayList_law l : from_option (λ l, Z.of_nat (length l) < 2 ^ 31 /\ Forall string_ok l) True l ->
    reads rest createStringArrayList (Value l) (write_array write_string l) }.

(** ** Arguments as a caller writes them *)

Inductive argument :=
  | AInt (v : Z) | ALong (v : Z) | ABoolean (b : bool) | AByte (v : Z) | AShort (v : Z) | AChar (c : Z) | AString (s : option bytes)
  | AIntArray (l : option (list Z)) | ALongArray (l : option (list Z)) | AByteArray (b : option bytes)
  | AStringArray (l : option (list (option bytes))) | AStringList (l : option (list (option bytes)))
  | AStringMap (l : option (list (option bytes * option bytes))).

(** The type, as MethodResolver gives it *)
Definition type_of (a : argument) : bytes :=
  match a with
  | AInt _ => str "int" | ALong _ => str "long" | ABoolean _ => str "boolean" | AByte _ => str "byte" | AShort _ => str "short"
  | AChar _ => str "char" | AString _ => str "String" | AIntArray _ => str "int[]" | ALongArray _ => str "long[]"
  | AByteArray _ => str "byte[]" | AStringArray _ => str "String[]" | AStringList _ => str "List<String>"
  | AStringMap _ => str "Map<String,String>"
  end.

Definition write_argument (a : argument) : bytes :=
  match a with
  | AInt v | AByte v | AShort v | AChar v => le_bytes 4 v
  | ALong v => le_bytes 8 v
  | ABoolean b => le_bytes 4 (Z.b2z b)
  | AString s => write_string s
  | AIntArray l => write_array (le_bytes 4) l
  | ALongArray l => write_array (le_bytes 8) l
  | AByteArray b => write_bytes b
  | AStringArray l | AStringList l => write_array write_string l
  | AStringMap l => write_array (λ kv, write_string kv.1 ++ write_string kv.2) l
  end.

Definition show_pair (kv : option bytes * option bytes) : bytes := quote kv.1 ++ str ":" ++ quote kv.2.

Definition show_argument (a : argument) : bytes :=
  match a with
  | AInt v | AByte v | AShort v | ALong v => Itoa v
  | ABoolean b => if b then str "true" else str "false"
  | AChar c => [c]
  | AString s => quote s
  | AIntArray l | ALongArray l => or_null (λ l, bracketed (Itoa <$> l)) l
  | AByteArray b => or_null (λ b : bytes, str "bytes[" ++ Itoa (len b) ++ str "]") b
  | AStringArray l | AStringList l => or_null (λ l, bracketed (quote <$> l)) l
  | AStringMap l =>
      or_null (λ l, str "{" ++ Join (str ", ") (take 8 (show_pair <$> l)) ++
        (if 8 <? Z.of_nat (length l) then text ", …(+" ++ Itoa (Z.of_nat (length l) - 8) ++ str ")" else []) ++ str "}") l
  end.

Definition argument_ok (a : argument) : Prop :=
  match a with
  | AInt v => - 2 ^ 31 <= v < 2 ^ 31
  | ALong v => - 2 ^ 63 <= v < 2 ^ 63
  | AByte v => - 2 ^ 7 <= v < 2 ^ 7
  | AShort v => - 2 ^ 15 <= v < 2 ^ 15
  | AChar c => fits 16 c
  | ABoolean _ => True
  | AString s => string_ok s
  | AIntArray l => from_option (λ l, Z.of_nat (length l) < 2 ^ 31 /\ Forall (λ v, - 2 ^ 31 <= v < 2 ^ 31) l) True l
  | ALongArray l => from_option (λ l, Z.of_nat (length l) < 2 ^ 31 /\ Forall (λ v, - 2 ^ 63 <= v < 2 ^ 63) l) True l
  | AByteArray b => from_option (λ b, len b < 2 ^ 31 /\ is_bytes b) True b
  | AStringArray l | AStringList l => from_option (λ l, Z.of_nat (length l) < 2 ^ 31 /\ Forall string_ok l) True l
  | AStringMap l => from_option (λ l, Z.of_nat (length l) <= 10000 /\ Forall (λ kv, string_ok kv.1 /\ string_ok kv.2) l) True l
  end.

Section Shown.
Context `{ParcelLaws}.

(** Evaluates the tests on a type that is written out. *)
Ltac type_tests :=
  repeat match goal with
         | |- context [bool_decide ?P] => let b := eval vm_compute in (bool_decide P) in change (bool_decide P) with b; cbv iota
         end.

Lemma read_pairs_written l : Forall (λ kv, string_ok kv.1 /\ string_ok kv.2) l ->
  reads rest (read_pairs (length l)) (show_pair <$> l) (l ≫= λ kv, write_string kv.1 ++ write_string kv.2).
Proof.
  induction 1 as [|[k v] l [Hk Hv] Hl IH]; intros p t E.
  - exists p. split; [done|]. split; [done|]. change (len _) with 0. lia.
  - cbn [mbind list_bind fst snd length read_pairs] in *. rewrite <- !app_assoc in E.
    destruct (readString_law k Hk _ _ E) as (p1 & -> & E1 & P1). destruct (readString_law v Hv _ _ E1) as (p2 & -> & E2 & P2).
    destruct (IH _ _ E2) as (p3 & -> & E3 & P3). exists p3. split; [done|]. split; [done|]. rewrite P3, P2, P1, !len_app. cbn [fst snd]. lia.
Qed.

Lemma reads_show {A} (op : parcel -> exn A * parcel) (f : A -> bytes) a bs :
  reads rest op (Value a) bs -> reads rest (λ p, show f (op p)) (Value (f a)) bs.
Proof. intros Ha p t E. destruct (Ha p t E) as (p' & -> & ? & ?). by exists p'. Qed.

Lemma decodeValue_written a : argument_ok a -> reads rest (λ p, decodeValue p (type_of a)) (Value (show_argument a)) (write_argument a).
Proof.
  intros Ha p t E. destruct a as [v|v|b|v|v|c|s|l|l|b|l|l|l]; unfold decodeValue; cbn [type_of show_argument write_argument argument_ok] in *;
    cbv zeta; type_tests; cbn [orb].
  - destruct (readInt_law v Ha p t E) as (p' & -> & ? & ?). by exists p'.
  - destruct (readLong_law v Ha p t E) as (p' & -> & ? & ?). by exists p'.
  - destruct (readInt_law (Z.b2z b)) with (2 := E) as (p' & -> & ? & ?); [by destruct b|]. exists p'. by destruct b.
  - destruct (readByte_law v Ha p t E) as (p' & -> & ? & ?). by exists p'.
  - destruct (readInt_law v) with (2 := E) as (p' & -> & ? & ?); [lia|]. by exists p'.
  - unfold fits in Ha. destruct (readInt_law c) with (2 := E) as (p' & -> & ? & ?); [lia|]. exists p'. unfold u16. by rewrite wrap_small.
  - destruct (readString_law s Ha p t E) as (p' & -> & ? & ?). by exists p'.
  - by apply (reads_show _ _ _ _ (createIntArray_law l Ha)).
  - by apply (reads_show _ _ _ _ (createLongArray_law l Ha)).
  - by apply (reads_show _ _ _ _ (createByteArray_law b Ha)).
  - by apply (reads_show _ _ _ _ (createStringArray_law l Ha)).
  - by apply (reads_show _ _ _ _ (createStringArrayList_law l Ha)).
  - unfold decodeStringMap. type_tests. cbn [negb]. destruct l as [l|]; cbn [write_array from_option or_null] in *.
    + destruct Ha as [Hn Hl]. rewrite <- app_assoc in E.
      destruct (readInt_law (Z.of_nat (length l))) with (2 := E) as (p1 & -> & E1 & P1); [lia|].
      destruct (Z.eqb_spec (Z.of_nat (length l)) (-1)); [lia|].
      destruct (Z.leb_spec 0 (Z.of_nat (length l))), (Z.leb_spec (Z.of_nat (length l)) 10000); try lia. cbn [andb negb].
      rewrite Nat2Z.id. destruct (read_pairs_written l Hl _ _ E1) as (p2 & -> & E2 & P2). exists p2. split; [done|].
      split; [done|]. rewrite len_app. lia.
    + destruct (readInt_law (-1)) with (2 := E) as (p1 & -> & ? & ?); [lia|]. by exists p1.
Qed.

Definition shown (index : Z) (vs : list argument) : list DecodedArgument :=
  imap (λ k a, MkArg (index + Z.of_nat k) (type_of a) (truncate (show_argument a)) SUCCESS None) vs.

(** What follows the arguments that are read: an argument of a type that cannot be, and those after it *)
Definition unshown (index : Z) (types : list (bytes * bytes)) : list DecodedArgument :=
  match types with
  | [] => []
  | (t, m) :: types => MkArg index t (text "<解析失败>") UNPARSED (Some m) :: skip_arguments (index + 1) types.*1
  end.
Definition unsupported (t m : bytes) : Prop := forall p, decodeValue p t = (Thrown m, p).

Lemma imap_shift {A} (f : Z -> A -> DecodedArgument) index l :
  imap (λ k a, f (index + Z.of_nat (S k)) a) l = imap (λ k a, f (index + 1 + Z.of_nat k) a) l.
Proof. apply imap_ext. intros k a _. f_equal. lia. Qed.

Lemma decode_arguments_written types vs : forall index p t,
  Forall argument_ok vs -> from_option (uncurry unsupported) True (head types) -> rest p = (vs ≫= write_argument) ++ t ->
  exists p', decode_arguments p index ((type_of <$> vs) ++ types.*1) =
    (shown index vs ++ unshown (index + Z.of_nat (length vs)) types, bool_decide (types = []), p') /\
    dataPosition p' = dataPosition p + len (vs ≫= write_argument).
Proof.
  induction vs as [|a vs IH]; intros index p t Hvs Ht E.
  - exists p. split; [|change (len _) with 0; lia]. cbn [fmap list_fmap app length shown imap]. rewrite Z.add_0_r.
    destruct types as [|[u m] types]; [done|]. cbn [head from_option uncurry] in Ht. cbn [fmap list_fmap decode_arguments fst unshown].
    unfold tryDecodeOne. by rewrite Ht.
  - apply list.Forall_cons in Hvs as [Ha Hvs]. cbn [mbind list_bind] in E. rewrite <- app_assoc in E.
    destruct (decodeValue_written a Ha _ _ E) as (p1 & E1 & R1 & P1). destruct (IH (index + 1) p1 t Hvs Ht R1) as (p2 & E2 & P2).
    exists p2. cbn [fmap list_fmap app decode_arguments mbind list_bind]. unfold tryDecodeOne. rewrite E1. cbn [da_status].
    rewrite E2. split; [|rewrite P2, P1, len_app; lia]. unfold shown. cbn [imap app length]. rewrite Z.add_0_r.
    unfold compose. rewrite (imap_shift (λ i a, MkArg i (type_of a) (truncate (show_argument a)) SUCCESS None)). do 5 f_equal. lia.
Qed.

(** C11: The arguments of a request are shown as the caller wrote them.  A
    request of the layout with the SYST mark whose arguments are ints, longs,
    booleans, bytes, shorts, chars, strings, arrays of ints, longs, bytes or
    strings, lists of strings or maps of strings, with strings of at most 4096
    characters and maps of at most 10000 entries, possibly followed by an
    argument of a type the decoder does not support and by any others, decodes
    to the values in order, each with its index and declared type and cut to
    256 characters, of an array of bytes the length and of a map the first
    eight entries, then to one entry that names the unsupported type and to one
    skipped entry for each argument after it.  The bytes counted as consumed
    are those of the header and of the values shown; the result is fully
    successful exactly when no type was unsupported. *)
Theorem arguments_shown words name vs types others :
  token_ok LayoutQ words name -> Forall argument_ok vs -> from_option (uncurry unsupported) True (head types) ->
  (vs ≫= write_argument) ++ others <> [] -> (type_of <$> vs) ++ types.*1 <> [] ->
  let data := token_parcel LayoutQ words name ((vs ≫= write_argument) ++ others) in
  decodeParcel data ((type_of <$> vs) ++ types.*1) =
    Some (MkParcelResult (shown 0 vs ++ unshown (Z.of_nat (length vs)) types) (len data - len others) (len others) (bool_decide (types = []))).
Proof.
  intros Hn Hvs Ht Hne Hty. cbv zeta. set (args := (vs ≫= write_argument) ++ others) in *.
  set (data := token_parcel LayoutQ words name args). set (start := len (token_header LayoutQ words ++ string16 name)).
  pose proof (computeArgStart_Q words name args Hn Hne) as Es. fold data start in Es.
  assert (data = (token_header LayoutQ words ++ string16 name) ++ args) as Ed by (unfold data, token_parcel; by rewrite app_assoc).
  assert (len data = start + len (vs ≫= write_argument) + len others) as El by (rewrite Ed, len_app; fold start; unfold args; rewrite len_app; lia).
  pose proof (len_nonneg (vs ≫= write_argument)). pose proof (len_nonneg others).
  destruct (rest_at data start) as [Er Ep]; [split; [apply len_nonneg|lia]|].
  assert (rest (parcel_at data start) = args) as Er'.
  { rewrite Er, Ed. unfold start, len. by rewrite Nat2Z.id, drop_app_length. }
  destruct (decode_arguments_written types vs 0 _ _ Hvs Ht Er') as (p' & E & P).
  unfold decodeParcel. destruct data as [|b data'] eqn:Hd; [destruct args; [done|]; by destruct (token_header LayoutQ words ++ string16 name)|].
  rewrite <- Hd in *. destruct ((type_of <$> vs) ++ types.*1) eqn:Hts; [done|]. rewrite <- Hts in *.
  rewrite Es, E, Z.add_0_l. do 2 f_equal; lia.
Qed.
End Shown.

(** ** A parcel over the bytes themselves *)

Module BytesParcel.
(** The position, and the bytes from it on *)
Abbreviation bp := (Z * bytes)%type (only parsing).

Definition word (n : nat) (p : bp) : Z * bp := (le_val (take n p.2), (p.1 + Z.of_nat n, drop n p.2)).
Definition int (p : bp) : Z * bp := let '(v, p) := word 4 p in (s32 v, p).
Definition long (p : bp) : Z * bp := let '(v, p) := word 8 p in (s64 v, p).
Definition byte (p : bp) : Z * bp := let '(v, p) := int p in (signed 8 v, p).

Fixpoint many {A} (f : bp -> A * bp) (n : nat) (p : bp) : list A * bp :=
  match n with O => ([], p) | S n => let '(a, p) := f p in let '(l, p) := many f n p in (a :: l, p) end.

Definition skip (n : Z) (p : bp) : bp := (p.1 + n, drop (Z.to_nat n) p.2).
Definition string (p : bp) : option bytes * bp :=
  let '(n, p) := int p in
  if n <? 0 then (None, p) else let '(s, p) := many (word 2) (Z.to_nat n) p in (Some s, skip (if Z.even n then 4 else 2) p).
Definition array {A} (f : bp -> A * bp) (p : bp) : exn (option (list A)) * bp :=
  let '(n, p) := int p in if n <? 0 then (Value None, p) else let '(l, p) := many f (Z.to_nat n) p in (Value (Some l), p).
Definition byte_array (p : bp) : exn (option bytes) * bp :=
  let '(n, p) := int p in
  if n <? 0 then (Value None, p) else (Value (Some (take (Z.to_nat n) p.2)), skip (n + - n mod 4) p).

#[local] Instance bytes_parcel : AndroidParcel := {
  parcel := bp; parcel_at data pos := (pos, drop (Z.to_nat pos) data); dataPosition := fst;
  readInt := int; readLong := long; readByte := byte; readFloat p := ([], p); readDouble p := ([], p); readString := string;
  createIntArray := array int; createLongArray := array long; createByteArray := byte_array;
  createStringArray := array string; createStringArrayList := array string;
  createBinderArrayList p := (Value None, p); createTypedArrayList _ p := (Value None, p);
  readFramework _ p := (Value None, p); readBundle p := (Value None, p); creatorOf _ := false }.

Abbreviation breads := (reads (H := bytes_parcel) snd) (only parsing).

Lemma reads_word n v : breads (word n) (wrap (8 * Z.of_nat n) v) (le_bytes n v).
Proof.
  intros p t E. eexists. unfold word. rewrite E, take_app_length', drop_app_length' by (symmetry; apply length_le_bytes).
  rewrite le_val_bytes. split; [done|]. cbn [snd fst dataPosition bytes_parcel]. split; [done|]. unfold len. by rewrite length_le_bytes.
Qed.

Lemma reads_then {A B} (f : bp -> A * bp) (g : A -> bp -> B * bp) a b s t :
  breads f a s -> breads (g a) b t -> breads (λ p, let '(a, p) := f p in g a p) b (s ++ t).
Proof.
  intros Hf Hg p u E. rewrite <- app_assoc in E. destruct (Hf _ _ E) as (p1 & -> & E1 & P1). destruct (Hg _ _ E1) as (p2 & -> & E2 & P2).
  exists p2. split; [done|]. split; [done|]. rewrite P2, P1, len_app. lia.
Qed.

Lemma reads_ret {A} (a : A) : breads (λ p, (a, p)) a [].
Proof. intros p t E. exists p. split; [done|]. split; [done|]. change (len _) with 0. lia. Qed.

Lemma reads_map {A B} (f : bp -> A * bp) (g : A -> B) a s : breads f a s -> breads (λ p, let '(a, p) := f p in (g a, p)) (g a) s.
Proof. intros Hf. rewrite <- (app_nil_r s). apply (reads_then f (λ a p, (g a, p)) a); [done|apply reads_ret]. Qed.

Lemma reads_many {A} (f : bp -> A * bp) (w : A -> bytes) l : Forall (λ a, breads f a (w a)) l -> breads (many f (length l)) l (l ≫= w).
Proof.
  induction 1 as [|a l Ha Hl IH]; [apply reads_ret|]. cbn [length many mbind list_bind].
  apply (reads_then f (λ a p, let '(l, p) := many f (length l) p in (a :: l, p)) a); [done|]. by apply (reads_map _ (cons a)).
Qed.

Lemma reads_int v : - 2 ^ 31 <= v < 2 ^ 31 -> breads int v (le_bytes 4 v).
Proof. intros Hv. pose proof (reads_map _ s32 _ _ (reads_word 4 v)) as Hr. by rewrite (signed_wrap 32 v ltac:(lia) Hv : s32 (wrap (8 * Z.of_nat 4) v) = v) in Hr. Qed.
Lemma reads_long v : - 2 ^ 63 <= v < 2 ^ 63 -> breads long v (le_bytes 8 v).
Proof. intros Hv. pose proof (reads_map _ s64 _ _ (reads_word 8 v)) as Hr. by rewrite (signed_wrap 64 v ltac:(lia) Hv : s64 (wrap (8 * Z.of_nat 8) v) = v) in Hr. Qed.
Lemma reads_byte v : - 2 ^ 7 <= v < 2 ^ 7 -> breads byte v (le_bytes 4 v).
Proof.
  intros Hv. assert (signed 8 v = v) as E by (rewrite <- (signed_wrap 8 v) at 2 by lia; unfold signed; by rewrite wrap_idemp).
  rewrite <- E at 1. apply (reads_map int (signed 8)), reads_int. lia.
Qed.

Lemma reads_skip {A} (a : A) bs : breads (λ p, (a, skip (len bs) p)) a bs.
Proof.
  intros p t E. eexists. split; [done|]. cbn [skip snd fst dataPosition bytes_parcel]. rewrite E. unfold len. by rewrite Nat2Z.id, drop_app_length.
Qed.

Lemma reads_string s : string_ok s -> breads string s (write_string s).
Proof.
  destruct s as [s|]; cbn [string_ok write_string]; [intros [Hl Hs]|intros _].
  - apply (reads_then int _ (len s)); [apply reads_int; pose proof (len_nonneg s); lia|].
    pose proof (len_nonneg s). destruct (Z.ltb_spec (len s) 0); [lia|].
    replace (Z.to_nat (len s)) with (length s) by (unfold len; lia).
    apply (reads_then (many (word 2) (length s)) (λ s p, (Some s, skip _ p)) s).
    + apply reads_many. eapply list.Forall_impl; [exact Hs|]. intros c Hc. pose proof (reads_word 2 c) as Hr.
      by rewrite (wrap_small 16 c Hc : wrap (8 * Z.of_nat 2) c = c) in Hr.
    + destruct (Z.even (len s)); apply (reads_skip (Some s)).
  - rewrite <- (app_nil_r (le_bytes 4 (-1))). apply (reads_then int _ (-1)); [by apply reads_int|]. apply reads_ret.
Qed.

Lemma reads_array {A} (f : bp -> A * bp) (w : A -> bytes) (P : A -> Prop) l :
  (forall a, P a -> breads f a (w a)) -> from_option (λ l, Z.of_nat (length l) < 2 ^ 31 /\ Forall P l) True l ->
  breads (array f) (Value l) (write_array w l).
Proof.
  intros Hf. destruct l as [l|]; cbn [from_option write_array]; [intros [Hl Hs]|intros _].
  - apply (reads_then int _ (Z.of_nat (length l))); [apply reads_int; lia|]. destruct (Z.ltb_spec (Z.of_nat (length l)) 0); [lia|].
    rewrite Nat2Z.id. apply (reads_map _ (λ l, Value (Some l))), reads_many. by eapply list.Forall_impl.
  - rewrite <- (app_nil_r (le_bytes 4 (-1))). apply (reads_then int _ (-1)); [by apply reads_int|]. apply reads_ret.
Qed.

Lemma reads_byte_array b : from_option (λ b, len b < 2 ^ 31 /\ is_bytes b) True b -> breads byte_array (Value b) (write_bytes b).
Proof.
  destruct b as [b|]; cbn [from_option write_bytes]; [intros [Hl _]|intros _].
  - pose proof (len_nonneg b). apply (reads_then int _ (len b)); [apply reads_int; lia|]. destruct (Z.ltb_spec (len b) 0); [lia|].
    pose proof (Z.mod_pos_bound (- len b) 4 ltac:(lia)).
    assert (len b + - len b mod 4 = len (b ++ replicate (Z.to_nat (- len b mod 4)) 0)) as ->.
    { rewrite len_app. f_equal. unfold len at 2. rewrite length_replicate. lia. }
    intros p t E. destruct (reads_skip (Value (A := option bytes) (Some b)) (b ++ replicate (Z.to_nat (- len b mod 4)) 0) p t E) as (p' & E' & R & P).
    exists p'. split; [|done]. replace (Z.to_nat (len b)) with (length b) by (unfold len; lia). rewrite E, <- app_assoc, take_app_length. exact E'.
  - rewrite <- (app_nil_r (le_bytes 4 (-1))). apply (reads_then int _ (-1)); [by apply reads_int|]. apply reads_ret.
Qed.

#[local] Instance bytes_laws : ParcelLaws.
Proof.
  refine {| rest := (snd : @parcel bytes_parcel -> bytes) |}.
  - done.
  - apply reads_int.
  - apply reads_long.
  - apply reads_byte.
  - apply reads_string.
  - intros l. apply reads_array, reads_int.
  - intros l. apply reads_array, reads_long.
  - apply reads_byte_array.
  - intros l. apply reads_array, reads_string.
  - intros l. apply reads_array, reads_string.
Defined.

(** setComponentEnabled("a\nb", [3, -4], Widget, 7): the Widget cannot be read *)
Definition sample_args : list argument :=
  [AString (Some [97; 10; 98]); AIntArray (Some [3; -4]); AStringMap (Some [(Some (str "k"), None)])].

Lemma arguments_shown_witness :
  decodeParcel (token_parcel LayoutQ (replicate 8 0) (str "a.IThing") ((sample_args ≫= write_argument) ++ [1; 0; 0; 0]))
    ((type_of <$> sample_args) ++ [str "Widget"; str "int"]) =
  Some (MkParcelResult
    ([MkArg 0 (str "String") ([34; 97; 0x23CE; 98; 34]) SUCCESS None; MkArg 1 (str "int[]") (str "[3, -4]") SUCCESS None;
      MkArg 2 (str "Map<String,String>") (str "{" ++ [34] ++ str "k" ++ [34] ++ str ":null}") SUCCESS None] ++
     [MkArg 3 (str "Widget") (text "<解析失败>") UNPARSED (Some (text "未识别的类型: Widget"));
      MkArg 4 (str "int") (text "<已跳过:前一个参数解析失败>") UNPARSED (Some (text "因前一参数解析失败而跳过"))])
    76 4 false).
Proof.
  assert (token_ok LayoutQ (replicate 8 0) (str "a.IThing")) as H1 by (by split).
  assert (Forall argument_ok sample_args) as H2.
  { repeat constructor; vm_compute; by intros ?. }
  etransitivity; [apply (arguments_shown (replicate 8 0) (str "a.IThing") sample_args [(str "Widget", text "未识别的类型: Widget"); (str "int", [])] [1; 0; 0; 0] H1 H2)|].
  - intros p. reflexivity.
  - by vm_compute.
  - by vm_compute.
  - vm_compute. reflexivity.
Defined.
End BytesParcel.
