(* ===== verification/AppExport.v ===== *)
(** * The exported trace (app, data/TraceJsonWriter.kt and exportJson of
    data/EventRepository.kt)

    The text is written piece by piece around the objects of the events.  A
    JSONObject is the list of its members in order of insertion. *)

From S2P Require Import Prelude GoLang GoStd AppWire AppPairer AppParcel AppReply AppEvents AppCodec AppStore AppClassLoaders AppArguments.

(** What the platform formats: the local time of a Date, the number a Double is
    written as (given the nanoseconds that are divided by 10^6), the present
    Instant, JSONObject.quote and JSONObject.toString(2) *)
Class Formatter := {
  fullTime : Z -> bytes;
  doubleMillis : Z -> json;
  instantNow : bytes;
  json_quote : bytes -> bytes;
  toString2 : list (bytes * json) -> bytes }.

(** ** Numbers and bytes as text *)

(** java.lang.Long.toUnsignedString(value, 16) *)
Definition hex (value : Z) : bytes := str "0x" ++ FormatUint (u64 value) 16.
(** Long.toString(16) *)
Definition toHex (z : Z) : bytes := if z <? 0 then 45 :: FormatUint (- z) 16 else FormatUint z 16.

Definition padStart (n : nat) (c : Z) (s : bytes) : bytes := replicate (n - length s) c ++ s.

Definition base64_char (d : Z) : Z :=
  if d <? 26 then 65 + d else if d <? 52 then 97 + (d - 26) else if d <? 62 then 48 + (d - 52) else if d =? 62 then 43 else 47.

(** Base64.getEncoder().encodeToString *)
Fixpoint base64 (s : bytes) : bytes :=
  match s with
  | [] => []
  | [a] => [base64_char (a / 4); base64_char (a mod 4 * 16); 61; 61]
  | [a; b] => [base64_char (a / 4); base64_char (a mod 4 * 16 + b / 16); base64_char (b mod 16 * 4); 61]
  | a :: b :: c :: s =>
      base64_char (a / 4) :: base64_char (a mod 4 * 16 + b / 16) :: base64_char (b mod 16 * 4 + c / 64) :: base64_char (c mod 64) :: base64 s
  end.

(** ** Events *)

Definition directionLabel (e : app_event) : bytes :=
  let resolved :=
    match ae_direction e with DIR_UNKNOWN => if ke_isReply (ae_event e) then INCOMING_REPLY else OUTGOING_REQUEST | d => d end in
  match resolved with
  | OUTGOING_REQUEST => text "→ 请求 (出向)"
  | INCOMING_REQUEST => text "← 请求 (入向)"
  | OUTGOING_REPLY => text "→ 回复 (出向)"
  | INCOMING_REPLY => text "← 回复 (入向)"
  | DIR_UNKNOWN => text "未知"
  end.

Definition displayText (f : @kt_StackFrame bytes) : bytes :=
  let last := after_last 47 (kf_module f) in
  let mod_ := match last with [] => kf_module f | _ => last end in
  match kf_symbol f, mod_ with
  | _ :: _, _ => mod_ ++ str "!" ++ kf_symbol f ++ str " + 0x" ++ toHex (kf_offset f)
  | [], _ :: _ => mod_ ++ str " + 0x" ++ toHex (kf_offset f)
  | [], [] => str "0x" ++ toHex (kf_pc f)
  end.

(** [x ?: JSONObject.NULL] *)
Definition or_NULL (v : option json) : json := default JNull v.
Abbreviation text_or_NULL s := (or_NULL (JStr <$> s)) (only parsing).

Definition args (l : list DecodedArgument) : json :=
  JArr ((λ arg, JObj [(str "index", JNum (da_index arg)); (str "declaredType", JStr (da_declaredType arg));
    (str "displayValue", JStr (da_displayValue arg)); (str "status", JStr (enum_name (da_status arg)));
    (str "errorMessage", text_or_NULL (da_errorMessage arg))]) <$> l).

Definition reply (r : ReplyDecodeResult) : json :=
  JObj [(str "exception", text_or_NULL (rr_exception r)); (str "value", text_or_NULL (rr_value r));
    (str "rawHexHint", text_or_NULL (rr_rawHexHint r))].

Definition frames (l : list (@kt_StackFrame bytes)) : json :=
  JArr ((λ f, JObj [(str "displayText", JStr (displayText f)); (str "pc", JStr (hex (kf_pc f)));
    (str "module", JStr (kf_module f)); (str "symbol", JStr (kf_symbol f)); (str "offset", JStr (hex (kf_offset f)))]) <$> l).

Abbreviation stack_json st := (JObj [(str "quality", JStr (enum_name (ks_quality st))); (str "truncated", JNum (ks_truncated st));
    (str "failureReason", JStr (ks_failureReason st)); (str "kernelFrames", frames (ks_kFrames st));
    (str "userFrames", frames (ks_uFrames st))]) (only parsing).

Abbreviation request_json req := (JObj [(str "eventId", JStr (Itoa (ke_id (ae_event req)))); (str "interfaceName", JStr (interfaceName req));
    (str "methodName", JStr (methodName req)); (str "parsedArgs", args (ae_parsedArgs req));
    (str "sniffedSignature", JArr (JStr <$> ae_sniffedSignature req)); (str "parcelSize", JNum (len (ke_rawParcel (ae_event req))))]) (only parsing).

Abbreviation response_json request res := (let latency (req : app_event) := doubleMillis (s64 (ke_timestamp (ae_event res) - ke_timestamp (ae_event req))) in
  JObj [(str "eventId", JStr (Itoa (ke_id (ae_event res)))); (str "parsedReply", or_NULL (reply <$> ae_parsedReply res));
    (str "parcelSize", JNum (len (ke_rawParcel (ae_event res)))); (str "latencyMs", or_NULL (latency <$> request))]) (only parsing).

Section TraceExport.
Context `{Formatter}.



Definition toJson (e : app_event) (linkedEvent : option app_event) : list (bytes * json) :=
  let w := ae_event e in
  let request := if ke_isReply w then linkedEvent else Some e in
  let response := if ke_isReply w then Some e else linkedEvent in
  [(str "id", JStr (Itoa (ke_id w))); (str "timestampNs", JStr (Itoa (ke_timestamp w)));
   (str "formattedTime", JStr (fullTime (Z.quot (ke_timestamp w) 1000000)));
   (str "pairId", JStr (Itoa (ke_pairId w))); (str "pid", JNum (ke_pid w)); (str "uid", JNum (ke_uid w));
   (str "toPid", JNum (ke_toPid w)); (str "toUid", JNum (ke_toUid w)); (str "code", JNum (ke_code w));
   (str "flags", JNum (ke_flags w)); (str "isReply", JBool (ke_isReply w));
   (str "binderDev", JStr (enum_name (ke_binderDev w))); (str "targetKind", JStr (enum_name (ke_targetKind w)));
   (str "targetRef", JStr (hex (ke_targetRef w))); (str "interfaceName", JStr (interfaceName e));
   (str "methodName", JStr (methodName e)); (str "callerPackage", JStr (callerPackage e));
   (str "toPackage", text_or_NULL (ae_toPackage e)); (str "direction", JStr (enum_name (ae_direction e)));
   (str "directionLabel", JStr (directionLabel e));
   (str "callMode", JStr (if ke_isReply w then str "reply" else if isOneway (ke_flags w) then str "oneway" else str "twoway"));
   (str "flagsHex", JStr (str "0x" ++ padStart 8 48 (FormatUint (u32 (ke_flags w)) 16)));
   (str "decodeSource", text_or_NULL (enum_name <$> ae_decodeSource e));
   (str "confidence", text_or_NULL (enum_name <$> ae_confidence e));
   (str "parcelSize", JNum (len (ke_rawParcel w))); (str "parsedArgs", args (ae_parsedArgs e));
   (str "parsedReply", or_NULL (reply <$> ae_parsedReply e));
   (str "sniffedSignature", JArr (JStr <$> ae_sniffedSignature e));
   (str "resolveCandidates", JArr (JStr <$> ae_resolveCandidates e));
   (str "request", or_NULL ((λ req, request_json req) <$> request)); (str "response", or_NULL ((λ res, response_json request res) <$> response));
   (str "responseStatus", JStr (match response with
      | Some _ => str "received"
      | None => if isOneway (ke_flags w) then str "oneway" else if ke_pairId w =? 0 then str "unpaired" else str "notCaptured" end));
   (str "stackTrace", or_NULL ((λ st, stack_json st) <$> ke_stackTrace w)); (str "rawParcelBase64", JStr (base64 (ke_rawParcel w)))].

(** ** The file *)

(** TraceJsonWriter: firstEvent, and what has been written *)
Record TraceJsonWriter := MkWriter { firstEvent : bool; written : bytes }.

Abbreviation nl := [10%Z] (only parsing).
(** A name in quotes *)
Abbreviation key s := ([34%Z] ++ str s ++ [34%Z]) (only parsing).

Definition newTraceJsonWriter : TraceJsonWriter :=
  MkWriter true
    ((str "{" ++ nl ++ str "  " ++ key "format" ++ str ": " ++ key "BinderTracer" ++ str "," ++ nl ++
      str "  " ++ key "version" ++ str ": 1," ++ nl) ++
     (str "  " ++ key "exportedAt" ++ str ": " ++ json_quote instantNow ++ str "," ++ nl) ++
     (str "  " ++ key "events" ++ str ": [" ++ nl)).

Definition writeEvent (event : app_event) (linkedEvent : option app_event) (w : TraceJsonWriter) : TraceJsonWriter :=
  MkWriter false (written w ++ (if negb (firstEvent w) then str "," ++ nl else []) ++ toString2 (toJson event linkedEvent)).

Definition finish (count : Z) (w : TraceJsonWriter) : TraceJsonWriter :=
  MkWriter (firstEvent w)
    (written w ++ nl ++ str "  ]," ++ nl ++ str "  " ++ key "eventCount" ++ str ": " ++ Itoa count ++ nl ++ str "}" ++ nl).

(** exportJson: the text, and the count or an exception: there is no store, the
    store gives no snapshot, the events were cleared, or there were none *)
Definition exportJson (view : nat -> list app_event) (coldStore : option (option ExportSnapshot)) : bytes * option Z :=
  match coldStore with
  | None => ([], None)
  | Some None => (written newTraceJsonWriter, None)
  | Some (Some snapshot) =>
      let '(consumed, result) := forEachExportEvent view snapshot in
      let w := foldl (λ w '(event, linked), writeEvent event linked w) newTraceJsonWriter consumed in
      match result with
      | Some count => if 0 <? count then (written (finish count w), Some count) else (written w, None)
      | None => (written w, None)
      end
  end.
End TraceExport.
