(* ===== verification/AppExportSpec.v ===== *)
(** * The exported trace: theorems on AppExport

    The texts of JSON (RFC 8259) as a relation, that an export is such a text,
    and that nothing of an event is lost in it. *)

From S2P Require Import Prelude GoLang GoStd AppWire AppPairer AppParcel AppReply AppTokens AppReplySpec AppEvents AppCodec AppStore AppClassLoaders AppArguments AppExport.

(** ** JSON texts *)

Definition is_ws (s : bytes) : Prop := Forall (λ c, c ∈ [32; 10; 13; 9]) s.

(** The characters of a string, and what they stand for *)
Inductive json_chars : bytes -> bytes -> Prop :=
  | jc_nil : json_chars [] []
  | jc_plain c s t : ~ (0 <= c <= 0x1F) -> c <> 34 -> c <> 92 -> json_chars s t -> json_chars (c :: s) (c :: t)
  | jc_escape x c s t : (x, c) ∈ [(34, 34); (92, 92); (47, 47); (98, 8); (102, 12); (110, 10); (114, 13); (116, 9)] ->
      json_chars s t -> json_chars (92 :: x :: s) (c :: t)
  | jc_unicode ds c s t : length ds = 4%nat -> digits_val 16 0 ds = Some c -> json_chars s t -> json_chars (92 :: 117 :: ds ++ s) (c :: t).

Inductive json_string : bytes -> bytes -> Prop :=
  | js_string s t : json_chars s t -> json_string ([34] ++ s ++ [34]) t.

(** Numbers with a fraction or an exponent, which [JOther] has as they are written *)
Fixpoint digits (s : bytes) : bytes * bytes :=
  match s with c :: t => if (48 <=? c) && (c <=? 57) then (c :: (digits t).1, (digits t).2) else ([], s) | [] => ([], []) end.
Definition is_exponent (s : bytes) : bool :=
  match s with
  | [] => true
  | c :: s =>
      ((c =? 69) || (c =? 101)) &&
      match digits (match s with d :: t => if (d =? 43) || (d =? 45) then t else s | [] => [] end) with (_ :: _, []) => true | _ => false end
  end.
Definition is_number (s : bytes) : bool :=
  match digits (match s with d :: t => if d =? 45 then t else s | [] => [] end) with
  | ([], _) => false
  | (c :: i, r) =>
      (negb (c =? 48) || bool_decide (i = [])) &&
      match r with
      | d :: t => if d =? 46 then match digits t with (_ :: _, r) => is_exponent r | _ => false end else is_exponent r
      | [] => true
      end
  end.

Inductive json_value : bytes -> json -> Prop :=
  | jv_num z : json_value (Itoa z) (JNum z)
  | jv_other s : is_number s = true -> json_value s (JOther s)
  | jv_str s t : json_string s t -> json_value s (JStr t)
  | jv_null : json_value (str "null") JNull
  | jv_bool (b : bool) : json_value (if b then str "true" else str "false") (JBool b)
  | jv_arr w : is_ws w -> json_value (str "[" ++ w ++ str "]") (JArr [])
  | jv_arr_items s l : json_items s l -> json_value (str "[" ++ s ++ str "]") (JArr l)
  | jv_obj w : is_ws w -> json_value (str "{" ++ w ++ str "}") (JObj [])
  | jv_obj_members s o : json_pairs s o -> json_value (str "{" ++ s ++ str "}") (JObj o)
with json_items : bytes -> list json -> Prop :=
  | ji_one w v w' j : is_ws w -> json_value v j -> is_ws w' -> json_items (w ++ v ++ w') [j]
  | ji_more w v w' j s l : is_ws w -> json_value v j -> is_ws w' -> json_items s l ->
      json_items ((w ++ v ++ w') ++ str "," ++ s) (j :: l)
with json_pairs : bytes -> list (bytes * json) -> Prop :=
  | jm_one m k j : json_pair m k j -> json_pairs m [(k, j)]
  | jm_more m k j s o : json_pair m k j -> json_pairs s o -> json_pairs (m ++ str "," ++ s) ((k, j) :: o)
with json_pair : bytes -> bytes -> json -> Prop :=
  | jm_member w1 q w2 w3 v w4 k j : is_ws w1 -> json_string q k -> is_ws w2 -> is_ws w3 -> json_value v j -> is_ws w4 ->
      json_pair (w1 ++ q ++ w2 ++ str ":" ++ w3 ++ v ++ w4) k j.

(** A text: one value, with white space around it *)
Definition json_text (s : bytes) (j : json) : Prop := exists w v w', is_ws w /\ json_value v j /\ is_ws w' /\ s = w ++ v ++ w'.

(** What can be written: every key once, numbers of 64 bits *)
Fixpoint writable (v : json) : bool :=
  match v with
  | JNum z => (- 2 ^ 63 <=? z) && (z <? 2 ^ 63)
  | JArr l => forallb writable l
  | JObj o => bool_decide (NoDup o.*1) && forallb (λ '(_, v), writable v) o
  | JStr _ | JNull | JBool _ => true
  | JOther s => is_number s
  end.

(** What org.json promises: a text of the object, and of the string *)
Class FormatterLaws `{Formatter} := {
  toString2_text o : writable (JObj o) = true -> json_value (toString2 o) (JObj o);
  quote_text s : json_string (json_quote s) s;
  double_number d : writable (doubleMillis d) = true }.

(** ** Typed events *)

Definition wire_typed (w : event) : Prop :=
  Forall is_int [ke_pid w; ke_uid w; ke_code w; ke_flags w; ke_toPid w; ke_toUid w] /\
  Forall is_long [ke_id w; ke_timestamp w; ke_targetRef w; ke_pairId w] /\
  is_bytes (ke_rawParcel w) /\ is_int (len (ke_rawParcel w)) /\
  (forall st, ke_stackTrace w = Some st ->
    is_int (ks_truncated st) /\ Forall frame_typed (ks_kFrames st) /\ Forall frame_typed (ks_uFrames st)).
Definition export_typed (e : app_event) : Prop := wire_typed (ae_event e) /\ Forall (λ a, is_int (da_index a)) (ae_parsedArgs e).

Section Text.
Context `{FormatterLaws}.

Lemma forallb_fmap {A B} (f : A -> B) (P : B -> bool) l : (forall x, x ∈ l -> P (f x) = true) -> forallb P (f <$> l) = true.
Proof. intros Hf. apply forallb_forall. intros y Hy%list_elem_of_In. apply list_elem_of_fmap in Hy as (x & -> & Hx). by apply Hf. Qed.

(** Decides the keys of a written-out object and leaves its values. *)
Ltac members := cbn [writable]; rewrite bool_decide_true by (apply (bool_decide_unpack _); vm_compute; reflexivity); cbn [forallb andb writable].

Lemma writable_str_list l : writable (JArr (JStr <$> l)) = true.
Proof. cbn [writable]. by apply forallb_fmap. Qed.
Lemma writable_opt {A} (f : A -> json) x : (forall a, x = Some a -> writable (f a) = true) -> writable (or_NULL (f <$> x)) = true.
Proof. destruct x as [a|]; [intros Hf; by apply Hf|done]. Qed.
Lemma writable_int z : is_int z -> (- 2 ^ 63 <=? z) && (z <? 2 ^ 63) = true.
Proof. unfold is_int. lia. Qed.

Lemma writable_args l : Forall (λ a, is_int (da_index a)) l -> writable (args l) = true.
Proof.
  intros Hl. cbn [args writable]. apply forallb_fmap. intros a Ha. rewrite list.Forall_forall in Hl. members.
  rewrite writable_int by by apply Hl. cbn [andb]. rewrite writable_opt by done. done.
Qed.
Lemma writable_reply r : writable (reply r) = true.
Proof. unfold reply. members. by rewrite !writable_opt. Qed.
Lemma writable_frames l : writable (frames l) = true.
Proof. cbn [frames writable]. apply forallb_fmap. intros f _. by members. Qed.
Lemma writable_stack st : is_int (ks_truncated st) -> writable (stack_json st) = true.
Proof. intros Ht. members. rewrite writable_int by done. by rewrite !writable_frames. Qed.

Lemma writable_request req : export_typed req -> writable (request_json req) = true.
Proof.
  intros [(_ & _ & _ & Hp & _) Ha]. members. rewrite writable_args by done. rewrite writable_int by done.
  pose proof (writable_str_list (ae_sniffedSignature req)) as Hs. cbn [writable] in Hs. by rewrite Hs.
Qed.
Lemma writable_response req res : export_typed res -> writable (response_json req res) = true.
Proof.
  intros [(_ & _ & _ & Hp & _) Ha]. members. rewrite writable_int by done.
  rewrite !writable_opt; [done|intros; apply double_number|intros; apply writable_reply].
Qed.

Lemma writable_event e linked : export_typed e -> from_option export_typed True linked -> writable (JObj (toJson e linked)) = true.
Proof.
  intros He Hl. pose proof He as [(Hi & _ & _ & Hp & Hst) Ha]. unfold toJson. cbv zeta. members.
  repeat (apply list.Forall_cons in Hi as [? Hi]). rewrite !writable_int by done. rewrite writable_args by done.
  pose proof (writable_str_list (ae_sniffedSignature e)) as Hs. pose proof (writable_str_list (ae_resolveCandidates e)) as Hc.
  cbn [writable] in Hs, Hc. rewrite Hs, Hc. cbn [andb].
  rewrite !writable_opt; try done; intros x Ex.
  - apply writable_stack. by destruct (Hst x Ex).
  - apply writable_response. destruct (ke_isReply (ae_event e)); [by injection Ex as <-|]. by rewrite Ex in Hl.
  - apply writable_request. destruct (ke_isReply (ae_event e)); [by rewrite Ex in Hl|]. by injection Ex as <-.
  - apply writable_reply.
Qed.

(** ** The text of an export *)

Definition plain (s : bytes) : bool := forallb (λ c, (32 <=? c) && negb (c =? 34) && negb (c =? 92)) s.

Lemma json_string_plain s : plain s = true -> json_string ([34] ++ s ++ [34]) s.
Proof.
  intros Hs. constructor. induction s as [|c s IH]; [constructor|]. cbn in Hs. apply andb_prop in Hs as [Hc Hs].
  constructor; [lia..|by apply IH].
Qed.

Abbreviation event_text p := (toString2 (toJson p.1 p.2)) (only parsing).
Abbreviation event_json p := (JObj (toJson p.1 p.2)) (only parsing).
Definition both_typed (p : app_event * option app_event) : Prop := export_typed p.1 /\ from_option export_typed True p.2.

Lemma event_value p : both_typed p -> json_value (event_text p) (event_json p).
Proof. intros [? ?]. by apply toString2_text, writable_event. Qed.

Lemma write_events l : forall pre,
  foldl (λ w '(event, linked), writeEvent event linked w) (MkWriter false pre) l =
  MkWriter false (pre ++ (l ≫= λ p, str "," ++ [10] ++ event_text p)).
Proof.
  induction l as [|[e k] l IH]; intros pre; [by rewrite app_nil_r|]. cbn [foldl mbind list_bind fst snd].
  unfold writeEvent at 2. cbn [written firstEvent negb]. rewrite IH. f_equal. by rewrite <- !app_assoc.
Qed.

Lemma items_text l : forall p w w', is_ws w -> is_ws w' -> both_typed p -> Forall both_typed l ->
  json_items (w ++ event_text p ++ (l ≫= λ p, str "," ++ [10] ++ event_text p) ++ w') (event_json p :: ((λ p, event_json p) <$> l)).
Proof.
  induction l as [|q l IH]; intros p w w' Hw Hw' Hp Hl.
  - apply ji_one; [done|by apply event_value|done].
  - apply list.Forall_cons in Hl as [Hq Hl]. cbn [mbind list_bind]. rewrite fmap_cons.
    pose proof (ji_more w (event_text p) [] (event_json p) _ _ Hw (event_value p Hp) ltac:(constructor)
      (IH q [10] w' ltac:(repeat constructor) Hw' Hq Hl)) as Hi.
    rewrite app_nil_r, <- !app_assoc in Hi. by rewrite <- !app_assoc.
Qed.

Definition trace_json (n : Z) (l : list (app_event * option app_event)) : json :=
  JObj [(str "format", JStr (str "BinderTracer")); (str "version", JNum 1); (str "exportedAt", JStr instantNow);
    (str "events", JArr ((λ p, event_json p) <$> l)); (str "eventCount", JNum n)].

(** A member at the start of a line, its value right after the colon and a space *)
Lemma member_text key v w j : plain key = true -> json_value v j -> is_ws w ->
  json_pair ([10; 32; 32] ++ ([34] ++ key ++ [34]) ++ [] ++ str ":" ++ [32] ++ v ++ w) key j.
Proof. intros Hk Hv Hw. apply jm_member; [repeat constructor|by apply json_string_plain|constructor|repeat constructor|done|done]. Qed.

Lemma trace_text n p l : both_typed p -> Forall both_typed l ->
  json_text (written (finish n (foldl (λ w '(event, linked), writeEvent event linked w) newTraceJsonWriter (p :: l)))) (trace_json n (p :: l)).
Proof.
  intros Hp Hl. cbn [foldl]. destruct p as [e k]. unfold writeEvent at 2. cbn [written firstEvent newTraceJsonWriter negb]. rewrite write_events.
  cbn [finish written]. pose proof (items_text l (e, k) [10] [10; 32; 32] ltac:(repeat constructor) ltac:(repeat constructor) Hp Hl) as Hi.
  cbn [fst snd] in Hi.
  pose proof (member_text (str "format") _ [] _ eq_refl (jv_str _ _ (json_string_plain (str "BinderTracer") eq_refl)) ltac:(constructor)) as M1.
  pose proof (member_text (str "version") _ [] _ eq_refl (jv_num 1) ltac:(constructor)) as M2.
  pose proof (member_text (str "exportedAt") _ [] _ eq_refl (jv_str _ _ (quote_text instantNow)) ltac:(constructor)) as M3.
  pose proof (member_text (str "events") _ [] _ eq_refl (jv_arr_items _ _ Hi) ltac:(constructor)) as M4.
  pose proof (member_text (str "eventCount") _ [10] _ eq_refl (jv_num n) ltac:(repeat constructor)) as M5.
  exists []. eexists. exists [10]. split; [constructor|]. split; [|split; [repeat constructor|]].
  - exact (jv_obj_members _ _ (jm_more _ _ _ _ _ M1 (jm_more _ _ _ _ _ M2 (jm_more _ _ _ _ _ M3 (jm_more _ _ _ _ _ M4 (jm_one _ _ _ M5)))))).
  - rewrite <- !app_assoc. reflexivity.
Qed.
End Text.

(** ** Reading an export *)

Definition string_at (o : list (bytes * json)) (k : bytes) : option bytes := match json_get k o with Some (JStr s) => Some s | _ => None end.
Definition nullable_at (o : list (bytes * json)) (k : bytes) : option (option bytes) :=
  match json_get k o with Some (JStr s) => Some (Some s) | Some JNull => Some None | _ => None end.
Definition number_at (o : list (bytes * json)) (k : bytes) : option Z := match json_get k o with Some (JNum z) => Some z | _ => None end.
Definition bool_at (o : list (bytes * json)) (k : bytes) : option bool := match json_get k o with Some (JBool b) => Some b | _ => None end.
Definition list_at {A} (f : json -> option A) (o : list (bytes * json)) (k : bytes) : option (list A) :=
  match json_get k o with Some (JArr l) => mapM f l | _ => None end.
Definition object_at {A} (f : list (bytes * json) -> option A) (o : list (bytes * json)) (k : bytes) : option (option A) :=
  match json_get k o with Some (JObj x) => Some <$> f x | Some JNull => Some None | _ => None end.
Definition enum_at {T} `{KtEnum T} (o : list (bytes * json)) (k : bytes) : option T := string_at o k ≫= enumOrNull.
Definition nullable_enum_at {T} `{KtEnum T} (o : list (bytes * json)) (k : bytes) : option (option T) :=
  s ← nullable_at o k; match s with Some s => Some <$> enumOrNull s | None => Some None end.
Definition long_at (o : list (bytes * json)) (k : bytes) : option Z := string_at o k ≫= Atoi.
Definition unhex (s : bytes) : option Z :=
  match s with a :: b :: ds => if (a =? 48) && (b =? 120) then s64 <$> ParseUint ds 16 else None | _ => None end.
Definition hex_at (o : list (bytes * json)) (k : bytes) : option Z := string_at o k ≫= unhex.

Definition base64_val (c : Z) : option Z :=
  if (65 <=? c) && (c <=? 90) then Some (c - 65) else if (97 <=? c) && (c <=? 122) then Some (c - 97 + 26)
  else if (48 <=? c) && (c <=? 57) then Some (c - 48 + 52) else if c =? 43 then Some 62 else if c =? 47 then Some 63 else None.
Fixpoint unbase64 (s : bytes) : option bytes :=
  match s with
  | [] => Some []
  | a :: b :: c :: d :: s =>
      a ← base64_val a; b ← base64_val b;
      if c =? 61 then Some [a * 4 + b / 16]
      else
        c ← base64_val c;
        if d =? 61 then Some [a * 4 + b / 16; b mod 16 * 16 + c / 4]
        else d ← base64_val d; s ← unbase64 s; Some (a * 4 + b / 16 :: b mod 16 * 16 + c / 4 :: c mod 4 * 64 + d :: s)
  | _ => None
  end.

Definition as_text (v : json) : option bytes := match v with JStr s => Some s | _ => None end.
Definition read_argument (v : json) : option DecodedArgument :=
  o ← as_object v; i ← number_at o (str "index"); t ← string_at o (str "declaredType"); d ← string_at o (str "displayValue");
  st ← enum_at o (str "status"); m ← nullable_at o (str "errorMessage"); Some (MkArg i t d st m).
Definition read_reply (o : list (bytes * json)) : option ReplyDecodeResult :=
  e ← nullable_at o (str "exception"); v ← nullable_at o (str "value"); h ← nullable_at o (str "rawHexHint"); Some (MkReply e v h).
Definition read_frame (v : json) : option (@kt_StackFrame bytes) :=
  o ← as_object v; pc ← hex_at o (str "pc"); m ← string_at o (str "module"); s ← string_at o (str "symbol");
  off ← hex_at o (str "offset"); Some (KtFrame pc m s off).
Definition read_stack (o : list (bytes * json)) : option (@kt_StackTrace bytes) :=
  q ← enum_at o (str "quality"); t ← number_at o (str "truncated"); r ← string_at o (str "failureReason");
  k ← list_at read_frame o (str "kernelFrames"); u ← list_at read_frame o (str "userFrames"); Some (KtTrace q t k u r).

(** The event an exported object tells of *)
Definition read_wire (o : list (bytes * json)) : option event :=
  id ← long_at o (str "id"); ts ← long_at o (str "timestampNs"); pair ← long_at o (str "pairId");
  pid ← number_at o (str "pid"); uid ← number_at o (str "uid"); toPid ← number_at o (str "toPid"); toUid ← number_at o (str "toUid");
  code ← number_at o (str "code"); flags ← number_at o (str "flags"); rep ← bool_at o (str "isReply");
  dev ← enum_at o (str "binderDev"); kind ← enum_at o (str "targetKind"); ref ← hex_at o (str "targetRef");
  raw ← (string_at o (str "rawParcelBase64") ≫= unbase64); stack ← object_at read_stack o (str "stackTrace");
  Some (KtEvent id ts pid uid code flags raw rep dev kind toPid toUid ref pair stack).

Definition read_event (o : list (bytes * json)) : option app_event :=
  w ← read_wire o; i ← string_at o (str "interfaceName"); m ← string_at o (str "methodName"); c ← string_at o (str "callerPackage");
  to ← nullable_at o (str "toPackage"); d ← enum_at o (str "direction"); src ← nullable_enum_at o (str "decodeSource");
  conf ← nullable_enum_at o (str "confidence"); a ← list_at read_argument o (str "parsedArgs");
  r ← object_at read_reply o (str "parsedReply"); sn ← list_at as_text o (str "sniffedSignature");
  cs ← list_at as_text o (str "resolveCandidates"); Some (MkAppEvent w (Some i) (Some c) (Some m) to a sn d src conf r cs).

(** *** The codes *)

Lemma Atoi_Itoa z : is_long z -> Atoi (Itoa z) = Some z.
Proof.
  intros Hz. destruct (decide (0 <= z)) as [H0|H0]; [apply Itoa_Atoi; unfold fits, is_long in *; lia|].
  unfold is_long in Hz. unfold Itoa. destruct (Z.ltb_spec z 0); [|lia]. unfold Atoi. cbn [Z.eqb Pos.eqb].
  rewrite ParseUint_FormatUint by (unfold fits; lia). cbn [mbind option_bind]. destruct (Z.leb_spec (- z) (2 ^ 63)); [|lia]. f_equal. lia.
Qed.

Lemma unhex_hex z : is_long z -> unhex (hex z) = Some z.
Proof.
  intros Hz. unfold hex, unhex. change (str "0x") with [48; 120]. cbn [app Z.eqb Pos.eqb andb].
  rewrite ParseUint_FormatUint by (lia || apply wrap_fits; lia). cbn. f_equal. unfold is_long in Hz. apply (signed_wrap 64); lia.
Qed.

Lemma base64_val_char d : 0 <= d < 64 -> base64_val (base64_char d) = Some d /\ base64_char d <> 61.
Proof.
  intros Hd. unfold base64_val, base64_char.
  repeat match goal with |- context [Z.ltb ?a ?b] => destruct (Z.ltb_spec a b) | |- context [Z.leb ?a ?b] => destruct (Z.leb_spec a b)
                       | |- context [Z.eqb ?a ?b] => destruct (Z.eqb_spec a b) end; cbn [andb]; split; try lia; f_equal; lia.
Qed.

Ltac base64_chars :=
  repeat match goal with
         | |- context [base64_char ?d] =>
             let Hd := fresh in
             assert (0 <= d < 64) as Hd by (Z.to_euclidean_division_equations; lia);
             rewrite (proj1 (base64_val_char d Hd)) || rewrite (proj2 (Z.eqb_neq _ _) (proj2 (base64_val_char d Hd)));
             clear Hd; cbn [mbind option_bind]
         end.

Lemma unbase64_base64 s : is_bytes s -> unbase64 (base64 s) = Some s.
Proof.
  remember (length s) as n eqn:En. revert s En. induction (lt_wf n) as [n _ IH]. intros s -> Hs. unfold is_bytes in Hs.
  destruct s as [|a [|b [|c s]]]; [done| | |];
    repeat match goal with Hb : Forall _ (_ :: _) |- _ => apply list.Forall_cons in Hb as [? Hb] end; unfold fits in *;
    cbn [base64 unbase64]; base64_chars; cbn [Z.eqb Pos.eqb].
  - do 2 f_equal. Z.to_euclidean_division_equations. lia.
  - f_equal. repeat (apply f_equal2; [Z.to_euclidean_division_equations; lia|]). done.
  - rewrite (IH (length s)) by (done || cbn; lia). cbn [mbind option_bind].
    f_equal. repeat (apply f_equal2; [Z.to_euclidean_division_equations; lia|]). done.
Qed.

(** *** Members *)

Lemma mapM_back {A B} (f : B -> option A) (g : A -> B) l : (forall x, x ∈ l -> f (g x) = Some x) -> mapM f (g <$> l) = Some l.
Proof. intros Hf. apply (mapM_fmap_back f g (λ x, x ∈ l)); [done|]. by apply list.Forall_forall. Qed.

Lemma nullable_back k o (s : option bytes) : json_get k o = Some (or_NULL (JStr <$> s)) -> nullable_at o k = Some s.
Proof. unfold nullable_at. intros ->. by destruct s. Qed.
Lemma enum_back {T} `{KtEnum T} k o (x : T) : json_get k o = Some (JStr (enum_name x)) -> enum_at o k = Some x.
Proof. unfold enum_at, string_at. intros ->. apply enumOrNull_name. Qed.
Lemma nullable_enum_back {T} `{KtEnum T} k o (x : option T) :
  json_get k o = Some (or_NULL (JStr <$> (enum_name <$> x))) -> nullable_enum_at o k = Some x.
Proof. unfold nullable_enum_at. intros E. rewrite (nullable_back _ _ _ E). destruct x as [x|]; [|done]. cbn. by rewrite enumOrNull_name. Qed.
Lemma long_back k o z : json_get k o = Some (JStr (Itoa z)) -> is_long z -> long_at o k = Some z.
Proof. unfold long_at, string_at. intros -> Hz. by apply Atoi_Itoa. Qed.
Lemma hex_back k o z : json_get k o = Some (JStr (hex z)) -> is_long z -> hex_at o k = Some z.
Proof. unfold hex_at, string_at. intros -> Hz. by apply unhex_hex. Qed.
Lemma object_back {A} (f : list (bytes * json) -> option A) (g : A -> list (bytes * json)) k o (x : option A) :
  json_get k o = Some (or_NULL ((JObj ∘ g) <$> x)) -> (forall a, x = Some a -> f (g a) = Some a) -> object_at f o k = Some x.
Proof. unfold object_at. intros -> Hf. destruct x as [a|]; [|done]. cbn. by rewrite Hf. Qed.
Lemma texts_back k o l : json_get k o = Some (JArr (JStr <$> l)) -> list_at as_text o k = Some l.
Proof. unfold list_at. intros ->. by apply mapM_back. Qed.

Lemma args_back k o l : json_get k o = Some (args l) -> list_at read_argument o k = Some l.
Proof.
  unfold list_at, args. intros ->. apply mapM_back. intros [i t v st m] _. unfold read_argument.
  cbn [as_object mbind option_bind da_index da_declaredType da_displayValue da_status da_errorMessage].
  by rewrite (enum_back (str "status") _ st), (nullable_back (str "errorMessage") _ m) by reflexivity.
Qed.
Lemma frames_back k o l : Forall frame_typed l -> json_get k o = Some (frames l) -> list_at read_frame o k = Some l.
Proof.
  unfold list_at, frames. intros Hl ->. apply mapM_back. intros [pc m s off] Hf. rewrite list.Forall_forall in Hl.
  destruct (Hl _ Hf) as [? ?]. cbn [kf_pc kf_offset] in *. unfold read_frame. cbn [as_object mbind option_bind kf_module kf_symbol].
  by rewrite (hex_back (str "pc") _ pc), (hex_back (str "offset") _ off) by done.
Qed.

Lemma reply_back r : match reply r with JObj o => read_reply o | _ => None end = Some r.
Proof.
  destruct r as [e v h]. unfold reply, read_reply. cbn [rr_exception rr_value rr_rawHexHint].
  by rewrite (nullable_back (str "exception") _ e), (nullable_back (str "value") _ v), (nullable_back (str "rawHexHint") _ h) by reflexivity.
Qed.
Lemma stack_back st : Forall frame_typed (ks_kFrames st) -> Forall frame_typed (ks_uFrames st) ->
  match stack_json st with JObj o => read_stack o | _ => None end = Some st.
Proof.
  destruct st as [q t k u r]. cbn [ks_kFrames ks_uFrames]. intros Hk Hu. unfold read_stack.
  cbn [ks_quality ks_truncated ks_kFrames ks_uFrames ks_failureReason].
  by rewrite (enum_back (str "quality") _ q), (frames_back (str "kernelFrames") _ k Hk), (frames_back (str "userFrames") _ u Hu) by reflexivity.
Qed.

Section Complete.
Context `{FormatterLaws}.

Lemma read_wire_back e linked : export_typed e -> read_wire (toJson e linked) = Some (ae_event e).
Proof.
  intros [(_ & Hl & Hb & _ & Hst) _]. repeat (apply list.Forall_cons in Hl as [? Hl]). destruct e as [w i c m to a sn d src conf r cs].
  cbn [ae_event] in *. unfold read_wire.
  rewrite (long_back (str "id") _ (ke_id w)), (long_back (str "timestampNs") _ (ke_timestamp w)), (long_back (str "pairId") _ (ke_pairId w)) by done.
  rewrite (enum_back (str "binderDev") _ (ke_binderDev w)), (enum_back (str "targetKind") _ (ke_targetKind w)) by reflexivity.
  rewrite (hex_back (str "targetRef") _ (ke_targetRef w)) by done.
  change (string_at (toJson _ linked) (str "rawParcelBase64")) with (Some (base64 (ke_rawParcel w))). cbn [mbind option_bind].
  rewrite unbase64_base64 by done.
  rewrite (object_back read_stack (λ st, match stack_json st with JObj o => o | _ => [] end) (str "stackTrace") _ (ke_stackTrace w));
    [|reflexivity|intros st Es; destruct (Hst st Es) as (_ & ? & ?); by apply stack_back].
  by destruct w.
Qed.

Lemma read_event_back e linked : export_typed e -> read_event (toJson e linked) = Some (as_stored e).
Proof.
  intros He. unfold read_event. rewrite read_wire_back by done. cbn [mbind option_bind].
  change (string_at (toJson e linked) (str "interfaceName")) with (Some (interfaceName e)).
  change (string_at (toJson e linked) (str "methodName")) with (Some (methodName e)).
  change (string_at (toJson e linked) (str "callerPackage")) with (Some (callerPackage e)).
  rewrite (nullable_back (str "toPackage") _ (ae_toPackage e)), (enum_back (str "direction") _ (ae_direction e)),
    (nullable_enum_back (str "decodeSource") _ (ae_decodeSource e)), (nullable_enum_back (str "confidence") _ (ae_confidence e)),
    (args_back (str "parsedArgs") _ (ae_parsedArgs e)), (texts_back (str "sniffedSignature") _ (ae_sniffedSignature e)),
    (texts_back (str "resolveCandidates") _ (ae_resolveCandidates e)) by reflexivity.
  rewrite (object_back read_reply (λ r, match reply r with JObj o => o | _ => [] end) (str "parsedReply") _ (ae_parsedReply e));
    [done|reflexivity|intros r _; apply reply_back].
Qed.

(** C14: An export that succeeds is a complete JSON document.  When exportJson
    returns a count, the text that was written is one JSON value (RFC 8259), an
    object with the format, the version, the time of the export, the events and
    their number; the events are those the store gave, in order, as many as the
    count, at least one; and from the object of each event the event can be
    read back in every field: the 64-bit numbers that are written as decimal or
    hexadecimal text, the bytes of the parcel, the stack, the arguments and the
    reply. *)
Theorem exported_trace_complete view snapshot text n :
  exportJson view (Some (Some snapshot)) = (text, Some n) ->
  let consumed := (forEachExportEvent view snapshot).1 in
  Forall both_typed consumed ->
  json_text text (trace_json n consumed) /\ n = Z.of_nat (length consumed) /\ 0 < n /\
  mapM read_event ((λ p, toJson p.1 p.2) <$> consumed) = Some (as_stored <$> consumed.*1).
Proof.
  cbv zeta. unfold exportJson, forEachExportEvent. cbn [fst]. set (l := export_loop _ _ _ _ _ _).
  destruct (Z.eqb_spec (Z.of_nat (length l)) (count snapshot)) as [En|]; [|done].
  destruct (Z.ltb_spec 0 (count snapshot)); [|done]. intros [= <- <-] Hl.
  split; [|split; [done|split; [done|]]].
  - destruct l as [|p l'] eqn:E; [cbn in En; lia|]. apply list.Forall_cons in Hl as [? ?]. by apply trace_text.
  - clearbody l. clear -Hl. induction Hl as [|[e k] l [He Hk] Hl IH]; [done|]. cbn. cbn in He. rewrite read_event_back by done. cbn. by rewrite IH.
Qed.
End Complete.

(** ** A formatter: compact texts, whole milliseconds *)

Module PlainFormatter.
Definition escape (c : Z) : bytes :=
  if (c =? 34) || (c =? 92) then [92; c]
  else if (0 <=? c) && (c <=? 0x1F) then [92; 117; 48; 48; digit_char (c / 16); digit_char (c mod 16)] else [c].
Definition quoted (s : bytes) : bytes := [34] ++ (s ≫= escape) ++ [34].

Fixpoint print (j : json) : bytes :=
  match j with
  | JNum z => Itoa z
  | JStr s => quoted s
  | JArr l => str "[" ++ Join (str ",") (map print l) ++ str "]"
  | JObj o => str "{" ++ Join (str ",") (map (λ '(k, v), quoted k ++ str ":" ++ print v) o) ++ str "}"
  | JNull => str "null"
  | JBool b => if b then str "true" else str "false"
  | JOther s => s
  end.

#[local] Instance plain_formatter : Formatter := {
  fullTime := Itoa; doubleMillis d := JNum (s64 (d / 1000000)); instantNow := str "2026-01-01T00:00:00Z";
  json_quote := quoted; toString2 o := print (JObj o) }.

Lemma quoted_string s : json_string (quoted s) s.
Proof.
  constructor. induction s as [|c s IH]; [constructor|]. cbn [mbind list_bind]. unfold escape at 1.
  destruct (_ || _) eqn:Eq; [|destruct (_ && _) eqn:Ec].
  - apply jc_escape; [|done]. apply orb_true_iff in Eq as [->%Z.eqb_eq| ->%Z.eqb_eq]; set_solver.
  - apply (jc_unicode [48; 48; digit_char (c / 16); digit_char (c mod 16)]); [done| |done].
    assert (0 <= c / 16 < 36 /\ 0 <= c mod 16 < 16) as [? ?] by (Z.to_euclidean_division_equations; lia).
    cbn [digits_val]. rewrite !digit_val_char by lia. cbn [mbind option_bind digit_val Z.leb Z.compare Pos.compare Pos.compare_cont andb].
    destruct (Z.ltb_spec (c / 16) 16); [|Z.to_euclidean_division_equations; lia]. destruct (Z.ltb_spec (c mod 16) 16); [|lia]. cbn.
    f_equal. Z.to_euclidean_division_equations. lia.
  - apply orb_false_iff in Eq as [?%Z.eqb_neq ?%Z.eqb_neq]. constructor; [lia|done|done|done].
Qed.

Lemma print_items l : Forall (λ v, json_value (print v) v) l -> json_value (print (JArr l)) (JArr l).
Proof.
  intros Hl. destruct l as [|v l]; [apply (jv_arr []); constructor|]. apply jv_arr_items. revert v Hl.
  induction l as [|u l IH]; intros v Hl; apply list.Forall_cons in Hl as [Hv Hl]; cbn [map Join].
  - pose proof (ji_one [] _ [] _ ltac:(constructor) Hv ltac:(constructor)) as Hi. by rewrite app_nil_r in Hi.
  - pose proof (ji_more [] _ [] _ _ _ ltac:(constructor) Hv ltac:(constructor) (IH u Hl)) as Hi. by rewrite app_nil_r in Hi.
Qed.

Lemma print_members o : Forall (λ kv, json_value (print kv.2) kv.2) o -> json_value (print (JObj o)) (JObj o).
Proof.
  assert (forall k v, json_value (print v) v -> json_pair (quoted k ++ str ":" ++ print v) k v) as Hm.
  { intros k v Hv. pose proof (jm_member [] _ [] [] _ [] _ _ ltac:(constructor) (quoted_string k) ltac:(constructor) ltac:(constructor) Hv
      ltac:(constructor)) as Hp. by rewrite app_nil_r in Hp. }
  intros Ho. destruct o as [|[k v] o]; [apply (jv_obj []); constructor|]. apply jv_obj_members. revert k v Ho.
  induction o as [|[k' u] o IH]; intros k v Ho; apply list.Forall_cons in Ho as [Hv Ho]; cbn [map Join].
  - by apply jm_one, Hm.
  - apply jm_more; [by apply Hm|by apply IH].
Qed.

Lemma print_value : forall j, writable j = true -> json_value (print j) j.
Proof.
  fix IH 1. intros [z|s|l|o| |b|s] Hw.
  - constructor.
  - constructor. apply quoted_string.
  - apply print_items. cbn [writable] in Hw. induction l as [|v l IHl]; [constructor|]. cbn in Hw. apply andb_prop in Hw as [Hv Hl].
    constructor; [by apply IH|by apply IHl].
  - apply print_members. cbn [writable] in Hw. apply andb_prop in Hw as [_ Hw]. induction o as [|[k v] o IHo]; [constructor|].
    cbn in Hw. apply andb_prop in Hw as [Hv Hl]. constructor; [by apply IH|by apply IHo].
  - constructor.
  - constructor.
  - by constructor.
Qed.

#[local] Instance plain_laws : FormatterLaws.
Proof.
  split.
  - intros o. apply print_value.
  - apply quoted_string.
  - intros d. cbn [doubleMillis plain_formatter writable]. pose proof (Z.mod_pos_bound (d / 1000000) (2 ^ 64) ltac:(lia)).
    unfold s64, signed, wrap. cbv zeta. destruct (_ <? 2 ^ (64 - 1)) eqn:E; lia.
Qed.

(** A request and its reply *)
Definition sample_request : app_event :=
  let st := KtTrace FULL 1 [] [KtFrame (-16) (str "/system/lib64/libbinder.so") (str "transact") 24] [] in
  MkAppEvent (KtEvent 3 99000000 1200 10123 7 0x10 [1; 2; 255; 0] false BINDER HANDLE 1500 1000 (-1) 77 (Some st))
    (Some (str "a.IFoo")) None (Some (str "bar")) (Some (str "system"))
    [MkArg 0 (str "int") (str "5") SUCCESS None; MkArg 1 (str "Foo") [] UNPARSED (Some (str "type"))]
    [] OUTGOING_REQUEST (Some AIDL_Q) (Some HIGH) None [str "a"; str "b"].
Definition sample_reply : app_event :=
  MkAppEvent (KtEvent 4 103000000 1500 1000 0 0 [] true BINDER HANDLE 1200 10123 0 77 None)
    (Some (str "a.IFoo")) None (Some (str "bar")) None [] [] INCOMING_REPLY (Some REPLY) (Some HIGH)
    (Some (MkReply None (Some (str "7")) None)) [].

Ltac ranges := repeat (constructor; [vm_compute; split; congruence|]); constructor.
Lemma samples_typed : export_typed sample_request /\ export_typed sample_reply.
Proof.
  split; (split; [split; [ranges|split; [ranges|split; [ranges|split; [vm_compute; split; congruence|]]]]|ranges]).
  - intros st [= <-]. split; [vm_compute; split; congruence|]. split; [constructor|]. constructor; [|constructor].
    split; vm_compute; split; congruence.
  - done.
Qed.

Lemma exported_trace_complete_witness :
  let rows := [sample_request; sample_reply] in
  let out := exportJson (λ _, rows) (Some (Some (MkSnapshot 4 2))) in
  json_text out.1 (trace_json 2 [(sample_request, Some sample_reply); (sample_reply, Some sample_request)]) /\
  mapM read_event [toJson sample_request (Some sample_reply); toJson sample_reply (Some sample_request)] = Some (as_stored <$> rows).
Proof.
  intros rows out. destruct samples_typed as [H1 H2].
  assert ((forEachExportEvent (λ _, rows) (MkSnapshot 4 2)).1 = [(sample_request, Some sample_reply); (sample_reply, Some sample_request)]) as Ec
    by (vm_compute; reflexivity).
  assert (out = (out.1, Some 2)) as Eo by (vm_compute; reflexivity).
  pose proof (exported_trace_complete (λ _, rows) (MkSnapshot 4 2) out.1 2 Eo) as Ht. cbv zeta in Ht. rewrite Ec in Ht.
  clearbody out.
  destruct Ht as (Ht & _ & _ & Hr); [|exact (conj Ht Hr)].
  constructor; [exact (conj H1 H2)|]. constructor; [exact (conj H2 H1)|constructor].
Defined.
End PlainFormatter.
