(* ===== verification/AppTyped.v ===== *)
(** * Events have the types of their Kotlin declarations

    From the bytes of a frame to the event in the store: what fromPayload,
    StackTraceCodec, ParcelArgumentDecoder and parseEvent make is in the range
    of an Int, a Long or a Byte where the class says so. *)

From S2P Require Import Prelude GoLang GoStd Protocol AppWire AppPairer AppParcel AppReply AppTokens AppReplySpec AppBuffer AppEvents AppCodec AppStore AppRepository AppClassLoaders AppArguments AppArgumentsSpec AppExport AppExportSpec.

(** ** The getters of ByteBuffer *)

Lemma signed_range w z : 0 < w -> - 2 ^ (w - 1) <= signed w z < 2 ^ (w - 1).
Proof.
  intros Hw. unfold signed. pose proof (wrap_fits w z ltac:(lia)) as [H1 H2]. unfold fits in *.
  assert (2 ^ w = 2 * 2 ^ (w - 1)) as E by (rewrite <- Z.pow_succ_r by lia; f_equal; lia).
  destruct (Z.ltb_spec (wrap w z) (2 ^ (w - 1))); lia.
Qed.

Lemma getInt_typed buf v buf' : getInt buf = Some (v, buf') -> is_bytes buf -> is_int v /\ is_bytes buf'.
Proof.
  unfold getInt, get_be. destruct (_ <=? _)%nat; [|done]. intros [= <- <-] Hb. split; [apply (signed_range 32); lia|by apply Forall_drop].
Qed.
Lemma getLong_typed buf v buf' : getLong buf = Some (v, buf') -> is_bytes buf -> is_long v /\ is_bytes buf'.
Proof.
  unfold getLong, get_be. destruct (_ <=? _)%nat; [|done]. intros [= <- <-] Hb. split; [apply (signed_range 64); lia|by apply Forall_drop].
Qed.
Lemma getShort_bytes buf v buf' : getShort buf = Some (v, buf') -> is_bytes buf -> is_bytes buf'.
Proof. unfold getShort, get_be. destruct (_ <=? _)%nat; [|done]. intros [= <- <-] Hb. by apply Forall_drop. Qed.
Lemma get_bytes buf v buf' : get buf = Some (v, buf') -> is_bytes buf -> is_bytes buf'.
Proof. unfold get, get_be. destruct (_ <=? _)%nat; [|done]. intros [= <- <-] Hb. by apply Forall_drop. Qed.
Lemma getBytes_bytes n buf v buf' : getBytes n buf = Some (v, buf') -> is_bytes buf -> (is_bytes v /\ length v = n) /\ is_bytes buf'.
Proof.
  unfold getBytes. destruct (Nat.leb_spec n (length buf)); [|done]. intros [= <- <-] Hb.
  split; [split; [by apply Forall_take|rewrite length_take; lia]|by apply Forall_drop].
Qed.

(** Goes through the getters of a decoder, with what is known of each value read. *)
Ltac read_step :=
  match goal with
  | E : _ ≫= _ = Some _ |- _ => apply bind_Some in E as ([? ?] & ? & E)
  | E : getInt ?b = Some _, Hb : is_bytes ?b |- _ => apply getInt_typed in E as [? ?]; [|exact Hb]
  | E : getLong ?b = Some _, Hb : is_bytes ?b |- _ => apply getLong_typed in E as [? ?]; [|exact Hb]
  | E : getShort ?b = Some _, Hb : is_bytes ?b |- _ => apply getShort_bytes in E; [|exact Hb]
  | E : get ?b = Some _, Hb : is_bytes ?b |- _ => apply get_bytes in E; [|exact Hb]
  | E : getBytes _ ?b = Some _, Hb : is_bytes ?b |- _ => apply getBytes_bytes in E as [[? ?] ?]; [|exact Hb]
  end.

(** ** Stacks *)

Section Typed.
Context (utf8 : bytes -> bytes).

Lemma parseFrames_typed n : forall buf fs buf', is_bytes buf ->
  StackTraceCodec_parseFrames utf8 n buf = Some (Some (fs, buf')) -> Forall frame_typed fs /\ is_bytes buf'.
Proof.
  induction n as [|n IH]; intros buf fs buf' Hb E; cbn [StackTraceCodec_parseFrames] in E; [by injection E as <- <-|].
  destruct (len buf <? 20); [done|]. repeat read_step.
  match type of E with context [if ?c then _ else _] => destruct c; [done|] end. repeat read_step.
  apply bind_Some in E as (r & Er & E). destruct r as [[out b]|]; [|done]. injection E as <- <-.
  edestruct IH as [? ?]; [|exact Er|]; [done|]. split; [|done]. constructor; [by split|done].
Qed.

Lemma stack_typed data start n st : is_bytes data -> StackTraceCodec_decode utf8 data start n = Some (Some st) ->
  is_int (ks_truncated st) /\ Forall frame_typed (ks_kFrames st) /\ Forall frame_typed (ks_uFrames st).
Proof.
  intros Hd E. unfold StackTraceCodec_decode in E. destruct (_ <? 8); [done|]. destruct (_ || _); [done|].
  apply bind_Some in E as (buf & Eb & E).
  assert (is_bytes buf) as Hb.
  { unfold wrap_at in Eb. destruct (_ && _); [|done]. injection Eb as <-. by apply Forall_take, Forall_drop. }
  destruct (len buf <? 8); [done|]. repeat read_step. apply bind_Some in E as (k & Ek & E). destruct k as [[ks b1]|]; [|done].
  apply parseFrames_typed in Ek as [Hk Hb1]; [|done]. apply bind_Some in E as (u & Eu & E). destruct u as [[us b2]|]; [|done].
  apply parseFrames_typed in Eu as [Hu _]; [|done]. apply bind_Some in E as (r & _ & E). injection E as <-.
  split; [|done]. cbn [ks_truncated]. match goal with |- is_int (Z.land ?z 0xff) => pose proof (Z.land_ones z 8 ltac:(lia)) as El end.
  change (Z.ones 8) with 0xff in El. rewrite El. unfold is_int. match goal with |- context [?z mod _] => pose proof (Z.mod_pos_bound z (2 ^ 8)) end. lia.
Qed.

Lemma tlv_typed payload off flags s st s' : is_bytes payload -> parseStackTraceTLV utf8 payload off flags s = Some (st, s') ->
  idCounter s' = idCounter s /\
  (forall t, st = Some t -> is_int (ks_truncated t) /\ Forall frame_typed (ks_kFrames t) /\ Forall frame_typed (ks_uFrames t)).
Proof.
  intros Hp E. unfold parseStackTraceTLV in E. destruct (_ =? 0); [by injection E as <- <-|]. destruct (_ <? _); [by injection E as <- <-|].
  apply bind_Some in E as (ty & _ & E). apply bind_Some in E as (tl & _ & E). apply bind_Some in E as ([v b] & _ & E).
  destruct (negb _); [by injection E as <- <-|]. destruct (_ <? _); [by injection E as <- <-|].
  destruct (StackTraceCodec_decode _ _ _ _) as [r|] eqn:Es; injection E as <- <-; [|done]. split; [done|].
  intros t ->. by eapply stack_typed.
Qed.

(** ** Events *)

Lemma fromPayload_typed payload s w s' : is_bytes payload -> is_int (len payload) -> is_long (idCounter s) ->
  fromPayload utf8 payload s = Some (Some w, s') -> wire_typed w /\ is_long (idCounter s').
Proof.
  intros Hp Hl Hi E. unfold fromPayload in E. destruct (_ <? _); [done|]. read_step. read_step.
  destruct (negb _); [done|]. repeat read_step.
  match type of E with context [if ?c then _ else _] => destruct c eqn:Eg; [done|] end.
  apply bind_Some in E as ([raw b] & Er & E). apply bind_Some in E as ([st s1] & Et & E). injection E as <- <-.
  apply tlv_typed in Et as [Ei Hst]; [|done].
  split; [|cbn [idCounter]; apply (signed_range 64); lia].
  assert (is_bytes raw /\ is_int (len raw)) as [Hr Hn].
  { destruct (0 <? _) eqn:E0; [|injection Er as <- <-; split; [constructor|by vm_compute]].
    apply getBytes_bytes in Er as [[? Hlen] _]; [|done]. split; [done|]. unfold len. rewrite Hlen. unfold is_int in *. lia. }
  unfold wire_typed. cbn. rewrite Ei.
  split; [repeat (constructor; [done|]); constructor|]. split; [repeat (constructor; [done|]); constructor|]. done.
Qed.
End Typed.

(** *** Arguments *)

Lemma skip_indices k l : Forall (λ a, k <= da_index a < k + Z.of_nat (length l)) (skip_arguments k l).
Proof.
  apply list.Forall_forall. intros a Ha. apply list_elem_of_lookup in Ha as [i Ha].
  rewrite list_lookup_imap in Ha. destruct (l !! i) eqn:El; [|done]. apply lookup_lt_Some in El. injection Ha as <-. cbn. lia.
Qed.

Lemma decoded_indices `{AndroidParcel} l : forall p k,
  Forall (λ a, k <= da_index a < k + Z.of_nat (length l)) (decode_arguments p k l).1.1.
Proof.
  induction l as [|t l IH]; intros p k; [constructor|]. cbn [decode_arguments length].
  destruct (tryDecodeOne p k t) as [a p1] eqn:E.
  assert (da_index a = k) as Ha by (unfold tryDecodeOne in E; by destruct (decodeValue p t) as [[?|?] ?]; injection E as <- <-).
  destruct (da_status a).
  - specialize (IH p1 (k + 1)). destruct (decode_arguments p1 (k + 1) l) as [[args ok] p2]. cbn [fst] in *.
    constructor; [lia|]. eapply list.Forall_impl; [exact IH|]. cbn. lia.
  - cbn [fst]. constructor; [lia|]. eapply list.Forall_impl; [apply skip_indices|]. cbn. lia.
Qed.

Lemma decodeParcel_indices `{AndroidParcel} data l r : Z.of_nat (length l) < 2 ^ 31 -> decodeParcel data l = Some r ->
  Forall (λ a, is_int (da_index a)) (pr_args r).
Proof.
  intros Hl E. unfold decodeParcel in E. destruct data as [|b data]; [injection E as <-; constructor|].
  destruct l as [|t l]; [injection E as <-; constructor|].
  destruct (computeArgStart _) as [[start|]|]; [|injection E as <-; constructor|done].
  pose proof (decoded_indices (t :: l) (parcel_at (b :: data) start) 0) as Hi.
  destruct (decode_arguments _ 0 _) as [[args ok] p]. injection E as <-. cbn [fst pr_args] in *.
  eapply list.Forall_impl; [exact Hi|]. unfold is_int. cbn beta. lia.
Qed.

(** The services, with ParcelArgumentDecoder as it is modelled *)
Definition decoding `{AndroidParcel} (sv : services) : Prop :=
  forall raw types, decodeArguments sv raw types = pr_args <$> decodeParcel raw types.
(** A method has at most 255 parameters (the class file format). *)
Definition small_signatures (sv : services) : Prop :=
  forall i c cs sg, getMethodSignature sv i c cs = Some (Some sg) -> Z.of_nat (length (sg_paramTypes sg)) <= 255.

Lemma name_event_typed `{AndroidParcel} sv w to cands result i m l sn : decoding sv -> small_signatures sv ->
  name_event sv w to cands result = Some (i, m, l, sn) -> Forall (λ a, is_int (da_index a)) l.
Proof.
  intros Hd Hs E. unfold name_event in E.
  destruct (dr_source result); try (destruct (getMethodSignature _ _ _ _) as [[sg|]|] eqn:Eg; [| |done]); cbv zeta in E;
    try (destruct (sniffArgumentTypes _ _); [|done]);
    try (destruct (lookupByCode _ _ _) as [[? ?]|]); try (injection E as _ _ <- _; constructor).
  all: apply Hs in Eg; destruct (sg_paramTypes sg) as [|t ts] eqn:Et; [injection E as _ _ <- _; constructor|].
  all: rewrite Hd in E; destruct (decodeParcel _ _) as [r|] eqn:Ed; [|done]; cbn in E; injection E as _ _ <- _.
  all: eapply decodeParcel_indices; [|exact Ed]; lia.
Qed.

(** What the app makes of a frame has the types its classes declare.  Take
    the payload of a frame, up to the length of an Int, an id counter that is a
    Long, the argument decoder as it is, and methods of at most 255 parameters.
    If fromPayload makes an event of it and parseEvent completes the event, then
    pids, uids, code and flags are Ints, the timestamp, the id, the target and
    the pair id are Longs, the parcel is bytes, the words of the stack frames
    are Longs and the indices of the arguments Ints; the next id is a Long
    again.  So the event is one that the store and the export can write
    without loss. *)
Theorem received_event_typed `{AndroidParcel} (utf8 : bytes -> bytes) payload s w s' sv uid package current p e p' :
  is_bytes payload -> is_int (len payload) -> is_long (idCounter s) -> decoding sv -> small_signatures sv ->
  fromPayload utf8 payload s = Some (Some w, s') -> parseEvent sv uid package current w p = (Some e, p') ->
  export_typed e /\ event_typed e /\ is_long (idCounter s').
Proof.
  intros Hp Hl Hi Hd Hs Ew Ee. destruct (fromPayload_typed utf8 _ _ _ _ Hp Hl Hi Ew) as [Hw Hc].
  unfold parseEvent in Ee. destruct (decodePipeline _ _ _ _ _ _) as [[[result reply]|] p1]; [|done]. cbv zeta in Ee.
  destruct (name_event _ _ _ _ _) as [[[[i m] l] sn]|] eqn:En; [|done]. injection Ee as <- <-. cbn [ae_event].
  apply name_event_typed in En; [|done..]. split; [by split|]. split; [|done]. destruct Hw as (? & _ & _ & _ & ?). by split.
Qed.

(** getService(String) with its argument, as the daemon sends it *)
Definition typed_services : services :=
  MkServices (λ _, None) (λ _, None) (λ _, []) (λ _ _, None) (λ _ _ _, Some (Some (MkSignature (str "getService") [str "String"] None)))
    (λ raw types, pr_args <$> decodeParcel (H := BytesParcel.bytes_parcel) raw types) (λ _ _, None) 0 0 0.
Definition typed_payload : bytes :=
  let raw := token_parcel LayoutQ (replicate 8 0) (str "a.IThing") (write_argument (AString (Some (str "power")))) in
  [2; 0; 0; 0] ++ be_bytes 8 99 ++ be_bytes 4 1200 ++ be_bytes 4 10123 ++ be_bytes 4 1 ++ be_bytes 4 0 ++ be_bytes 4 (len raw) ++
  [0; 1; 1; 0] ++ be_bytes 4 1500 ++ be_bytes 4 1000 ++ be_bytes 8 (2 ^ 64 - 1) ++ be_bytes 8 77 ++ raw.

Lemma received_event_typed_witness :
  exists w e p', fromPayload (λ b, b) typed_payload (AppState 0 (MkGuards 0 0 0 0)) = Some (Some w, AppState 1 (MkGuards 0 0 0 0)) /\
    parseEvent typed_services 10123 None 10123 w newPairer = (Some e, p') /\ ke_targetRef (ae_event e) = -1 /\
    length (ae_parsedArgs e) = 1%nat /\ export_typed e.
Proof.
  eexists. eexists. eexists.
  split; [vm_compute; reflexivity|]. split; [vm_compute; reflexivity|]. split; [reflexivity|]. split; [reflexivity|].
  eapply (received_event_typed (H := BytesParcel.bytes_parcel) (λ b, b) typed_payload (AppState 0 (MkGuards 0 0 0 0)) _ _ typed_services 10123 None 10123 newPairer).
  - repeat constructor; vm_compute; congruence.
  - vm_compute. split; congruence.
  - vm_compute. split; congruence.
  - intros ? ?. reflexivity.
  - intros ? ? ? ? [= <-]. vm_compute. congruence.
  - vm_compute. reflexivity.
  - vm_compute. reflexivity.
Defined.
