(* ===== verification/BpfEndian.v ===== *)
(** * Byte order (daemon/headers/bpf_endian.h)

    The constant-expression byte swaps built from shifts, the run-time ones
    that are compiler built-ins, and the choice between them. *)

From S2P Require Import Prelude.

(** ** The shifts *)

(** ___bpf_mvb(x, b, n, m): byte [n] of the [b]-bit [x], at position [m]. The
    operand is a [b]-bit unsigned integer, computed with at the width of an
    int when that is wider. *)
Definition bpf_mvb (x b n m : Z) : Z :=
  let w := Z.max b 32 in
  let t := wrap w (Z.shiftl (wrap b x) (b - (n + 1) * 8)) in
  wrap w (Z.shiftl (Z.shiftr t (b - 8)) (m * 8)).

Definition bpf_swab16 (x : Z) : Z :=
  u16 (Z.lor (bpf_mvb x 16 0 1) (bpf_mvb x 16 1 0)).

Definition bpf_swab32 (x : Z) : Z :=
  u32 (Z.lor (Z.lor (Z.lor (bpf_mvb x 32 0 3) (bpf_mvb x 32 1 2)) (bpf_mvb x 32 2 1))
    (bpf_mvb x 32 3 0)).

Definition bpf_swab64 (x : Z) : Z :=
  u64 (Z.lor (Z.lor (Z.lor (Z.lor (Z.lor (Z.lor (Z.lor
    (bpf_mvb x 64 0 7) (bpf_mvb x 64 1 6)) (bpf_mvb x 64 2 5)) (bpf_mvb x 64 3 4))
    (bpf_mvb x 64 4 3)) (bpf_mvb x 64 5 2)) (bpf_mvb x 64 6 1)) (bpf_mvb x 64 7 0)).

(** ** The built-ins *)

(** __builtin_bswap16, 32, 64: the bytes of an [n]-byte integer, reversed. *)
Definition builtin_bswap (n : nat) (x : Z) : Z := le_val (rev (le_bytes n x)).

(** ** The conversions *)

Inductive byte_order := LittleEndian | BigEndian.

Section Conversions.
(** __BYTE_ORDER__, and what __builtin_constant_p says of the argument *)
Context (order : byte_order) (constant_p : bool).

Definition bpf_convert (swab builtin : Z -> Z) (x : Z) : Z :=
  match order with
  | LittleEndian => if constant_p then swab x else builtin x
  | BigEndian => x
  end.

Definition bpf_htons : Z -> Z := bpf_convert bpf_swab16 (builtin_bswap 2).
Definition bpf_ntohs : Z -> Z := bpf_convert bpf_swab16 (builtin_bswap 2).
Definition bpf_htonl : Z -> Z := bpf_convert bpf_swab32 (builtin_bswap 4).
Definition bpf_ntohl : Z -> Z := bpf_convert bpf_swab32 (builtin_bswap 4).
Definition bpf_cpu_to_be64 : Z -> Z := bpf_convert bpf_swab64 (builtin_bswap 8).
Definition bpf_be64_to_cpu : Z -> Z := bpf_convert bpf_swab64 (builtin_bswap 8).

(** The bytes of an [n]-byte integer in the memory of such a machine. *)
Definition in_memory (n : nat) (x : Z) : list Z :=
  match order with LittleEndian => le_bytes n x | BigEndian => be_bytes n x end.

End Conversions.

(** ** Lemmas *)

Definition byte_at (x n : Z) : Z := (x / 2 ^ (8 * n)) mod 256.

Lemma byte_at_fits x n : fits 8 (byte_at x n).
Proof. apply Z.mod_pos_bound. done. Qed.

#[export] Hint Resolve byte_at_fits : btrace.

(** Moving a byte of a 32- or 64-bit integer. *)
Lemma mvb_byte x b n m :
  b = 32 \/ b = 64 -> 0 <= n -> 8 * n + 8 <= b -> 0 <= m -> 8 * m + 8 <= b ->
  bpf_mvb x b n m = Z.shiftl (byte_at x n) (8 * m).
Proof.
  intros Hb Hn Hnb Hm Hmb. unfold bpf_mvb. rewrite Z.max_l by lia.
  assert (Hs : Z.shiftr (wrap b (Z.shiftl (wrap b x) (b - (n + 1) * 8))) (b - 8) = byte_at x n).
  { apply Z.bits_inj'. intros i Hi. unfold byte_at. change 256 with (2 ^ 8).
    rewrite Z.shiftr_spec, <- Z.shiftr_div_pow2 by lia. unfold wrap.
    destruct (Z.lt_ge_cases i 8).
    - rewrite !Z.mod_pow2_bits_low by lia. rewrite Z.shiftl_spec, Z.mod_pow2_bits_low by lia.
      rewrite Z.shiftr_spec by lia. f_equal. lia.
    - by rewrite !Z.mod_pow2_bits_high by lia. }
  rewrite Hs, (Z.mul_comm m). apply wrap_small. pose proof (byte_at_fits x n) as Hf.
  rewrite Z.shiftl_mul_pow2 by lia. unfold fits in *.
  assert (2 ^ (8 * m + 8) <= 2 ^ b) as Hp by (apply Z.pow_le_mono_r; lia).
  rewrite Z.pow_add_r in Hp by lia. nia.
Qed.

(** Appending a byte below what has been packed. *)
Lemma lor_byte h k b n :
  0 <= n -> k = n + 8 -> fits 8 b ->
  Z.lor (Z.shiftl h k) (Z.shiftl b n) = Z.shiftl (h * 256 + b) n.
Proof.
  intros Hn -> Hb. rewrite Z.add_comm, <- Z.shiftl_shiftl, <- Z.shiftl_lor by lia. f_equal.
  by rewrite lor_shiftl_add.
Qed.

Lemma le_bytes_byte_at n x : le_bytes n x = (λ i, byte_at x (Z.of_nat i)) <$> seq 0 n.
Proof.
  revert x. induction n as [|n IH]; intros x; [done|]. cbn [le_bytes seq fmap list_fmap].
  f_equal; [unfold byte_at; by rewrite Z.mul_0_r, Z.div_1_r|].
  rewrite IH, <- fmap_S_seq, <- list_fmap_compose. apply list_fmap_ext. intros ? i _. cbn.
  unfold byte_at. rewrite Z.div_div by lia. do 2 f_equal. change 256 with (2 ^ 8).
  rewrite <- Z.pow_add_r by lia. f_equal. lia.
Qed.

(** At 16 bits the shifts do not cut the high byte off; the final cast does. *)
Lemma mvb_16 x :
  bpf_mvb x 16 0 1 = Z.shiftl (u16 x) 8 /\ bpf_mvb x 16 1 0 = Z.shiftr (u16 x) 8.
Proof.
  pose proof (wrap_fits 16 x ltac:(lia)) as Hx. unfold bpf_mvb, u16. fold (fits 16 (wrap 16 x)) in Hx.
  set (y := wrap 16 x) in *. unfold fits in Hx. change (Z.max 16 32) with 32.
  change (16 - (0 + 1) * 8) with 8. change (16 - (1 + 1) * 8) with 0. change (16 - 8) with 8.
  change (1 * 8) with 8. change (0 * 8) with 0. rewrite !Z.shiftl_0_r.
  assert (fits 32 (Z.shiftl y 8)) by (rewrite Z.shiftl_mul_pow2 by lia; unfold fits; lia).
  assert (fits 32 (Z.shiftr y 8)).
  { rewrite Z.shiftr_div_pow2 by lia. split; [apply Z.div_pos; lia|apply Z.div_lt_upper_bound; lia]. }
  rewrite (wrap_small 32 (Z.shiftl y 8)), Z.shiftr_shiftl_l, Z.sub_diag, Z.shiftl_0_r by (done || lia).
  rewrite (wrap_small 32 y), !(wrap_small 32) by (done || unfold fits; lia). done.
Qed.

Lemma swab16_builtin x : bpf_swab16 x = builtin_bswap 2 x.
Proof.
  unfold bpf_swab16, builtin_bswap. destruct (mvb_16 x) as [-> ->].
  cbn [le_bytes rev app le_val]. rewrite Z.mul_0_r, Z.add_0_r.
  assert (Hx : u16 x = x mod 256 + 256 * ((x / 256) mod 256))
    by (unfold u16, wrap; change (2 ^ 16) with (256 * 256); by rewrite Z.rem_mul_r).
  pose proof (Z.mod_pos_bound x 256 ltac:(done)). pose proof (Z.mod_pos_bound (x / 256) 256 ltac:(done)).
  set (l := x mod 256) in *. set (h := (x / 256) mod 256) in *.
  assert (Z.shiftr (u16 x) 8 = h) as ->.
  { rewrite Hx, Z.shiftr_div_pow2, Z.add_comm, Z.mul_comm by lia. change (2 ^ 8) with 256.
    rewrite Z.div_add_l, (Z.div_small l) by lia. lia. }
  rewrite lor_shiftl_add, Hx by (done || lia). unfold u16, wrap. change (2 ^ 16) with (256 * 256).
  change (2 ^ 8) with 256.
  replace ((l + 256 * h) * 256 + h) with (h + 256 * l + h * (256 * 256)) by lia.
  rewrite Z.mod_add, Z.mod_small by lia. done.
Qed.

Lemma swab32_builtin x : bpf_swab32 x = builtin_bswap 4 x.
Proof.
  unfold bpf_swab32, builtin_bswap. rewrite le_bytes_byte_at, !mvb_byte by lia.
  rewrite (lor_byte _ (8 * 3) _ (8 * 2)), (lor_byte _ (8 * 2) _ (8 * 1)), (lor_byte _ (8 * 1) _ (8 * 0))
    by (lia || auto with btrace).
  cbn [seq fmap list_fmap rev app le_val]. rewrite Z.shiftl_0_r.
  pose proof (byte_at_fits x) as Hf. unfold fits in Hf.
  change (Z.of_nat 0) with 0. change (Z.of_nat 1) with 1. change (Z.of_nat 2) with 2.
  change (Z.of_nat 3) with 3. pose proof (Hf 0). pose proof (Hf 1). pose proof (Hf 2). pose proof (Hf 3).
  unfold u32. rewrite wrap_small by (unfold fits; lia). lia.
Qed.

Lemma swab64_builtin x : bpf_swab64 x = builtin_bswap 8 x.
Proof.
  unfold bpf_swab64, builtin_bswap. rewrite le_bytes_byte_at, !mvb_byte by lia.
  rewrite (lor_byte _ (8 * 7) _ (8 * 6)), (lor_byte _ (8 * 6) _ (8 * 5)), (lor_byte _ (8 * 5) _ (8 * 4)),
    (lor_byte _ (8 * 4) _ (8 * 3)), (lor_byte _ (8 * 3) _ (8 * 2)), (lor_byte _ (8 * 2) _ (8 * 1)),
    (lor_byte _ (8 * 1) _ (8 * 0)) by (lia || auto with btrace).
  cbn [seq fmap list_fmap rev app le_val]. rewrite Z.shiftl_0_r.
  pose proof (byte_at_fits x) as Hf. unfold fits in Hf.
  change (Z.of_nat 0) with 0. change (Z.of_nat 1) with 1. change (Z.of_nat 2) with 2.
  change (Z.of_nat 3) with 3. change (Z.of_nat 4) with 4. change (Z.of_nat 5) with 5.
  change (Z.of_nat 6) with 6. change (Z.of_nat 7) with 7.
  pose proof (Hf 0). pose proof (Hf 1). pose proof (Hf 2). pose proof (Hf 3).
  pose proof (Hf 4). pose proof (Hf 5). pose proof (Hf 6). pose proof (Hf 7).
  unfold u64. rewrite wrap_small by (unfold fits; lia). lia.
Qed.

Lemma builtin_bswap_fits n x : fits (8 * Z.of_nat n) (builtin_bswap n x).
Proof.
  unfold builtin_bswap. rewrite <- (length_le_bytes n x) at 1. rewrite <- length_rev.
  apply le_val_fits, Forall_rev, le_bytes_is_bytes.
Qed.

Lemma bswap_bytes n x : le_bytes n (builtin_bswap n x) = be_bytes n x.
Proof.
  unfold builtin_bswap, be_bytes. rewrite <- (length_le_bytes n x) at 1. rewrite <- length_rev.
  apply le_bytes_val, Forall_rev, le_bytes_is_bytes.
Qed.

(** A conversion whose two implementations swap [n] bytes puts them in
    network order in memory. *)
Lemma convert_in_memory order constant_p n swab x :
  (forall y, swab y = builtin_bswap n y) ->
  in_memory order n (bpf_convert order constant_p swab (builtin_bswap n) x) = be_bytes n x.
Proof.
  intros Hs. unfold bpf_convert, in_memory. destruct order; [|done].
  destruct constant_p; rewrite ?Hs; apply bswap_bytes.
Qed.

(** ** Properties *)

(** On a machine of either byte order, and whether or not the compiler
    knows the argument, bpf_htons, bpf_htonl and bpf_cpu_to_be64 give the
    integer whose bytes in memory are the big-endian encoding of the argument:
    the shift-based swaps and the built-in ones agree. *)
Theorem host_to_network_order order constant_p x :
  in_memory order 2 (bpf_htons order constant_p x) = be_bytes 2 x /\
  in_memory order 4 (bpf_htonl order constant_p x) = be_bytes 4 x /\
  in_memory order 8 (bpf_cpu_to_be64 order constant_p x) = be_bytes 8 x.
Proof.
  split_and!; apply convert_in_memory; [apply swab16_builtin|apply swab32_builtin|apply swab64_builtin].
Qed.
