(* ===== verification/BpfBitfield.v ===== *)
(** * Relocatable bitfields (daemon/headers/bpf_core_read.h)

    The macros that read and write a bitfield through the shifts libbpf puts
    into a program for the running kernel's layout. A struct is its image in
    memory, a list of bytes on a little-endian target. *)

From S2P Require Import Prelude.

(** ** What __builtin_preserve_field_info answers *)

(** enum bpf_field_info_kind, without BPF_FIELD_EXISTS *)
Record field_info := FieldInfo {
  BYTE_OFFSET : nat; BYTE_SIZE : nat; SIGNED : bool; LSHIFT_U64 : Z; RSHIFT_U64 : Z }.

(** ** The macros *)

(** The sizes of the switch statements; the result of any other is not
    initialised. *)
Abbreviation load_size n := (bool_decide (n ∈ [1; 2; 4; 8]%nat)) (only parsing).

Definition load (fi : field_info) (s : list Z) : option Z :=
  if load_size (BYTE_SIZE fi) then Some (le_val (slice (BYTE_OFFSET fi) (BYTE_SIZE fi) s)) else None.

(** val <<= LSHIFT; val >>= RSHIFT, arithmetically for a signed field *)
Definition shift_out (fi : field_info) (val : Z) : Z :=
  let val := u64 (Z.shiftl val (LSHIFT_U64 fi)) in
  if SIGNED fi then u64 (Z.shiftr (s64 val) (RSHIFT_U64 fi))
  else Z.shiftr val (RSHIFT_U64 fi).

(** __CORE_BITFIELD_PROBE_READ into the low bytes of [val] *)
Definition BPF_CORE_READ_BITFIELD_PROBED (fi : field_info) (s : list Z) : Z :=
  let val := splice 0 (slice (BYTE_OFFSET fi) (BYTE_SIZE fi) s) (replicate 8 0) in
  shift_out fi (le_val val).

Definition BPF_CORE_READ_BITFIELD (fi : field_info) (s : list Z) : option Z :=
  val ← load fi s; Some (shift_out fi val).

Abbreviation write_mask fi := (Z.shiftr (u64 (Z.shiftl (Z.ones 64) (RSHIFT_U64 fi))) (LSHIFT_U64 fi)) (only parsing).

Definition BPF_CORE_WRITE_BITFIELD (fi : field_info) (new_val : Z) (s : list Z) : option (list Z) :=
  let nval := u64 new_val in
  let rpad := u32 (RSHIFT_U64 fi - LSHIFT_U64 fi) in
  val ← load fi s;
  let mask := write_mask fi in
  let val := Z.lor (Z.land val (Z.lxor (Z.ones 64) mask)) (Z.land (u64 (Z.shiftl nval rpad)) mask) in
  Some (splice (BYTE_OFFSET fi) (le_bytes (BYTE_SIZE fi) val) s).

(** ** What libbpf documents of the answers

    A field of [w] bits at bit [o] of its container: shifting left by LSHIFT
    brings its top bit to bit 63, shifting right by RSHIFT brings its bottom
    bit to bit 0. *)
Record describes (fi : field_info) (o w : Z) : Prop := Describes {
  d_size : load_size (BYTE_SIZE fi) = true;
  d_off : 0 <= o;
  d_width : 0 < w;
  d_inside : o + w <= 8 * Z.of_nat (BYTE_SIZE fi);
  d_lshift : LSHIFT_U64 fi = 64 - (o + w);
  d_rshift : RSHIFT_U64 fi = 64 - w }.

(** The container of the field, and the field in it. *)
Definition container (fi : field_info) (s : list Z) : Z :=
  le_val (slice (BYTE_OFFSET fi) (BYTE_SIZE fi) s).
Definition bitfield (fi : field_info) (o w val : Z) : Z :=
  if SIGNED fi then u64 (signed w (Z.shiftr val o)) else wrap w (Z.shiftr val o).

(** ** Lemmas *)

Lemma le_val_zeros bs n : le_val (bs ++ replicate n 0) = le_val bs.
Proof.
  induction bs as [|b bs IH]; cbn [app le_val]; [|by rewrite IH].
  induction n as [|n IH]; cbn [replicate le_val]; [done|]. by rewrite IH.
Qed.

Section Bits.
Context (fi : field_info) (o w : Z) (Hd : describes fi o w).

Lemma d_size_le : (1 <= BYTE_SIZE fi <= 8)%nat.
Proof.
  pose proof (d_size _ _ _ Hd) as H. apply bool_decide_eq_true in H.
  rewrite !elem_of_cons, elem_of_nil in H. lia.
Qed.

Lemma unsigned_bits val :
  Z.shiftr (u64 (Z.shiftl val (LSHIFT_U64 fi))) (RSHIFT_U64 fi) = wrap w (Z.shiftr val o).
Proof.
  destruct Hd as [_ Ho Hw Hin -> ->]. pose proof d_size_le. apply Z.bits_inj'. intros i Hi.
  rewrite Z.shiftr_spec by lia. unfold u64, wrap. destruct (Z.lt_ge_cases i w).
  - rewrite !Z.mod_pow2_bits_low by lia. rewrite Z.shiftl_spec, Z.shiftr_spec by lia. f_equal. lia.
  - by rewrite !Z.mod_pow2_bits_high by lia.
Qed.

Lemma signed_bits val :
  Z.shiftr (s64 (u64 (Z.shiftl val (LSHIFT_U64 fi)))) (RSHIFT_U64 fi) = signed w (Z.shiftr val o).
Proof.
  pose proof (unsigned_bits val) as Hu. destruct Hd as [_ Ho Hw Hin _ Hr]. pose proof d_size_le.
  rewrite Z.shiftr_div_pow2 in * by lia. unfold s64, signed.
  rewrite (wrap_small 64) by (by apply wrap_fits). rewrite <- Hu.
  pose proof (wrap_fits 64 (Z.shiftl val (LSHIFT_U64 fi)) ltac:(lia)) as Hv.
  fold (u64 (Z.shiftl val (LSHIFT_U64 fi))) in Hv. set (v := u64 _) in *. unfold fits in Hv.
  assert (H64 : 2 ^ 64 = 2 ^ w * 2 ^ RSHIFT_U64 fi) by (rewrite <- Z.pow_add_r by lia; f_equal; lia).
  assert (H63 : 2 ^ (64 - 1) = 2 ^ (w - 1) * 2 ^ RSHIFT_U64 fi)
    by (rewrite <- Z.pow_add_r by lia; f_equal; lia).
  assert (0 < 2 ^ RSHIFT_U64 fi) by (apply Z.pow_pos_nonneg; lia).
  pose proof (Z.div_mod v (2 ^ RSHIFT_U64 fi) ltac:(lia)).
  pose proof (Z.mod_pos_bound v (2 ^ RSHIFT_U64 fi) ltac:(lia)).
  destruct (Z.ltb_spec v (2 ^ (64 - 1))), (Z.ltb_spec (v / 2 ^ RSHIFT_U64 fi) (2 ^ (w - 1))).
  - done.
  - nia.
  - nia.
  - rewrite H64. replace (v - 2 ^ w * 2 ^ RSHIFT_U64 fi) with (v + - 2 ^ w * 2 ^ RSHIFT_U64 fi) by lia.
    rewrite Z.div_add by lia. lia.
Qed.

Lemma shift_out_bitfield val : shift_out fi val = bitfield fi o w val.
Proof. unfold shift_out, bitfield. by rewrite unsigned_bits, signed_bits. Qed.

Lemma mask_bits i : 0 <= i -> Z.testbit (write_mask fi) i = (o <=? i) && (i <? o + w).
Proof.
  intros Hi. destruct Hd as [_ Ho Hw Hin Hl Hr]. pose proof d_size_le. unfold u64, wrap.
  rewrite Z.shiftr_spec by lia. destruct (Z.ltb_spec i (o + w)).
  - rewrite Z.mod_pow2_bits_low, Z.shiftl_spec by lia. destruct (Z.leb_spec o i).
    + rewrite Z.ones_spec_low by lia. done.
    + rewrite Z.testbit_neg_r by lia. done.
  - rewrite Z.mod_pow2_bits_high by lia. by rewrite andb_false_r.
Qed.

(** The new container, bit by bit. *)
Lemma written_bits val nval i :
  fits (8 * Z.of_nat (BYTE_SIZE fi)) val -> 0 <= i ->
  Z.testbit (Z.lor (Z.land val (Z.lxor (Z.ones 64) (write_mask fi)))
    (Z.land (u64 (Z.shiftl nval (u32 (RSHIFT_U64 fi - LSHIFT_U64 fi)))) (write_mask fi))) i =
  if (o <=? i) && (i <? o + w) then Z.testbit nval (i - o) else Z.testbit val i.
Proof.
  intros Hv Hi. pose proof d_size_le. pose proof (mask_bits i Hi) as Hm. destruct Hd as [_ Ho Hw Hin Hl Hr].
  rewrite Z.lor_spec, !Z.land_spec, Z.lxor_spec, Hm.
  replace (u32 (RSHIFT_U64 fi - LSHIFT_U64 fi)) with o
    by (unfold u32; rewrite wrap_small by (unfold fits; lia); lia).
  destruct (Z.lt_ge_cases i 64).
  - rewrite Z.ones_spec_low by lia. unfold u64, wrap. rewrite Z.mod_pow2_bits_low, Z.shiftl_spec by lia.
    destruct ((o <=? i) && (i <? o + w)); cbn.
    + by rewrite andb_false_r, andb_true_r.
    + by rewrite andb_true_r, andb_false_r, orb_false_r.
  - assert (Z.testbit val i = false) as ->.
    { rewrite <- (wrap_small _ _ Hv). unfold wrap. apply Z.mod_pow2_bits_high. lia. }
    destruct (Z.ltb_spec i (o + w)); [lia|]. by rewrite !andb_false_r.
Qed.

Lemma load_container s : load fi s = Some (container fi s).
Proof. unfold load. by rewrite (d_size _ _ _ Hd). Qed.

(** The image after a write. *)
Lemma write_spec nv s :
  is_bytes s -> (BYTE_OFFSET fi + BYTE_SIZE fi <= length s)%nat ->
  exists s', BPF_CORE_WRITE_BITFIELD fi nv s = Some s' /\ length s' = length s /\
    (forall i, 0 <= i -> Z.testbit (container fi s') i =
       if (o <=? i) && (i <? o + w) then Z.testbit (u64 nv) (i - o) else Z.testbit (container fi s) i) /\
    (forall off n, (off + n <= BYTE_OFFSET fi \/ BYTE_OFFSET fi + BYTE_SIZE fi <= off)%nat ->
       slice off n s' = slice off n s).
Proof.
  intros Hs Hl. unfold BPF_CORE_WRITE_BITFIELD. rewrite load_container. cbn [mbind option_bind].
  assert (Hc : fits (8 * Z.of_nat (BYTE_SIZE fi)) (container fi s)).
  { unfold container. rewrite <- (length_slice (BYTE_OFFSET fi) (BYTE_SIZE fi) s) at 1 by done.
    by apply le_val_fits, Forall_take, Forall_drop. }
  set (val := Z.lor _ _). eexists. split; [reflexivity|].
  pose proof (length_le_bytes (BYTE_SIZE fi) val) as Hlb.
  split; [apply length_splice; rewrite Hlb; lia|]. split.
  - intros i Hi. rewrite <- (written_bits _ (u64 nv) i Hc Hi). fold val. unfold container.
    rewrite <- Hlb at 1. rewrite slice_splice_same, le_val_bytes by lia. unfold wrap.
    destruct (Z.lt_ge_cases i (8 * Z.of_nat (BYTE_SIZE fi))).
    + apply Z.mod_pow2_bits_low. lia.
    + rewrite Z.mod_pow2_bits_high by lia. unfold val. rewrite (written_bits _ (u64 nv) i Hc Hi).
      pose proof (d_inside _ _ _ Hd). destruct (Z.ltb_spec i (o + w)); [lia|]. rewrite andb_false_r.
      symmetry. rewrite <- (wrap_small _ _ Hc). unfold wrap. apply Z.mod_pow2_bits_high. lia.
  - intros off n [H|H]; [apply slice_splice_before|apply slice_splice_after]; lia.
Qed.

(** A container whose field bits are those of [nv]. *)
Lemma bitfield_of_bits val nv :
  (forall i, o <= i < o + w -> Z.testbit val i = Z.testbit (u64 nv) (i - o)) ->
  bitfield fi o w val = bitfield fi 0 w nv.
Proof.
  intros Hb. pose proof d_size_le. destruct Hd as [_ Ho Hw Hin _ _].
  assert (wrap w (Z.shiftr val o) = wrap w (Z.shiftr nv 0)) as E.
  { apply Z.bits_inj'. intros i Hi. unfold wrap. destruct (Z.lt_ge_cases i w).
    - rewrite !Z.mod_pow2_bits_low, !Z.shiftr_spec, Hb by lia. unfold u64, wrap.
      rewrite Z.mod_pow2_bits_low by lia. f_equal. lia.
    - by rewrite !Z.mod_pow2_bits_high by lia. }
  unfold bitfield, signed. by rewrite E.
Qed.

End Bits.

(** ** Properties *)

(** Reading a bitfield gives the field's bits, sign-extended for a signed
    field, through either macro: the one that probes the kernel's memory and
    the one that loads from it agree. *)
Theorem bitfield_reads_agree fi o w s :
  describes fi o w -> (BYTE_OFFSET fi + BYTE_SIZE fi <= length s)%nat ->
  BPF_CORE_READ_BITFIELD fi s = Some (bitfield fi o w (container fi s)) /\
  BPF_CORE_READ_BITFIELD_PROBED fi s = bitfield fi o w (container fi s).
Proof.
  intros Hd Hl. unfold BPF_CORE_READ_BITFIELD, BPF_CORE_READ_BITFIELD_PROBED.
  rewrite (load_container fi o w Hd). cbn [mbind option_bind].
  rewrite !(shift_out_bitfield fi o w Hd). split; [done|]. f_equal. unfold splice.
  cbn [take firstn app Nat.add]. rewrite drop_replicate. apply le_val_zeros.
Qed.

(** An unsigned 3-bit field at bit 2 of the byte at offset 1. *)
Definition sample_field : field_info := FieldInfo 1 1 false 59 61.

Lemma sample_describes : describes sample_field 2 3.
Proof. split; (reflexivity || cbn; lia). Qed.

Lemma bitfield_reads_agree_witness :
  BPF_CORE_READ_BITFIELD sample_field [7; 0xb7; 9] = Some 5 /\
  BPF_CORE_READ_BITFIELD_PROBED sample_field [7; 0xb7; 9] = 5.
Proof.
  destruct (bitfield_reads_agree sample_field 2 3 [7; 0xb7; 9] sample_describes) as [-> ->]; [cbn; lia|].
  split; vm_compute; reflexivity.
Defined.

(** Writing a bitfield changes that field and nothing else: the write
    succeeds, a read gives back the low bits of the new value, sign-extended
    for a signed field, every other bit of the container is kept, and so is
    every byte outside it. *)
Theorem bitfield_write_read fi o w nv s :
  describes fi o w -> is_bytes s -> (BYTE_OFFSET fi + BYTE_SIZE fi <= length s)%nat ->
  exists s', BPF_CORE_WRITE_BITFIELD fi nv s = Some s' /\ length s' = length s /\
    BPF_CORE_READ_BITFIELD fi s' = Some (bitfield fi 0 w nv) /\
    (forall i, 0 <= i -> i < o \/ o + w <= i ->
       Z.testbit (container fi s') i = Z.testbit (container fi s) i) /\
    (forall off n, (off + n <= BYTE_OFFSET fi \/ BYTE_OFFSET fi + BYTE_SIZE fi <= off)%nat ->
       slice off n s' = slice off n s).
Proof.
  intros Hd Hs Hl. destruct (write_spec fi o w Hd nv s Hs Hl) as (s' & Hw & Hl' & Hb & Ho).
  exists s'. split_and!; [exact Hw|exact Hl'| | |exact Ho].
  - unfold BPF_CORE_READ_BITFIELD. rewrite (load_container fi o w Hd). cbn [mbind option_bind].
    rewrite (shift_out_bitfield fi o w Hd). f_equal. apply (bitfield_of_bits fi o w Hd).
    intros i Hi. pose proof (d_off _ _ _ Hd). rewrite Hb by lia.
    destruct (Z.leb_spec o i), (Z.ltb_spec i (o + w)); (done || lia).
  - intros i Hi Hout. rewrite Hb by done. destruct (Z.leb_spec o i), (Z.ltb_spec i (o + w)); (done || lia).
Qed.

Lemma bitfield_write_read_witness :
  exists s', BPF_CORE_WRITE_BITFIELD sample_field 10 [7; 0xb7; 9] = Some s' /\
    BPF_CORE_READ_BITFIELD sample_field s' = Some 2 /\ slice 2 1 s' = [9].
Proof.
  destruct (bitfield_write_read sample_field 2 3 10 [7; 0xb7; 9] sample_describes) as
    (s' & Hw & _ & Hr & _ & Ho).
  - repeat (apply Forall_cons; [unfold fits; lia|]). apply Forall_nil.
  - cbn. lia.
  - exists s'. split; [exact Hw|]. split; [exact Hr|]. rewrite Ho by (cbn; lia). reflexivity.
Defined.
