(* ===== verification/BpfHelpers.v ===== *)
(** * Helper macros (daemon/headers/bpf_helpers.h)

    The macros every program includes: versions, container_of, the static
    tail call, and the variadic wrappers that pass format arguments to the
    tracing helpers. *)

From S2P Require Import Prelude CLayout.

(** ** Integers and pointers *)

Definition KERNEL_VERSION (a b c : Z) : Z :=
  Z.shiftl a 16 + Z.shiftl b 8 + (if 255 <? c then 255 else c).

(** container_of(ptr, type, member), with offsetof from the layout *)
Definition container_of (ptr : Z) (t : ctype) (member : string) : Z :=
  u64 (ptr - offset t [member]).

(** struct bpf_map_def *)
Definition struct_bpf_map_def : ctype :=
  CStruct [fld "type" c_u32; fld "key_size" c_u32; fld "value_size" c_u32; fld "max_entries" c_u32;
           fld "map_flags" c_u32].

Inductive libbpf_pin_type := LIBBPF_PIN_NONE | LIBBPF_PIN_BY_NAME.

Abbreviation pin_type_val p := (match p with LIBBPF_PIN_NONE => 0 | LIBBPF_PIN_BY_NAME => 1 end)%Z (only parsing).

Inductive libbpf_tristate := TRI_NO | TRI_YES | TRI_MODULE.

Abbreviation tristate_val t := (match t with TRI_NO => 0 | TRI_YES => 1 | TRI_MODULE => 2 end)%Z (only parsing).

(** ** Calls *)

(** A call of the helper with the given number. *)
Record helper_call := HelperCall { call_id : Z; call_args : list Z }.

(** bpf_tail_call_static: a slot that is not a compile-time constant is a
    build error. *)
Definition bpf_tail_call_static (constant_p : bool) (ctx map slot : Z) : option helper_call :=
  if negb constant_p then None else Some (HelperCall 12 [ctx; map; slot]).

(** ** Counting arguments *)

(** ___bpf_nth: its fourteenth argument *)
Abbreviation bpf_nth args := (args !! 13%nat) (only parsing).

Definition bpf_narg {A} (args : list A) : option nat :=
  match bpf_nth (None :: (Some ∘ inl <$> args) ++
         (Some ∘ inr <$> [12; 11; 10; 9; 8; 7; 6; 5; 4; 3; 2; 1; 0]%nat)) with
  | Some (Some (inr n)) => Some n
  | _ => None
  end.

(** ** Format arguments *)

(** ___bpf_fill0 to ___bpf_fill12: arr[p] = x for the arguments in order *)
Fixpoint bpf_fill_n (n : nat) (arr : list Z) (p : nat) (args : list Z) : option (list Z) :=
  match n, args with
  | O, _ => Some arr
  | 1%nat, [x] => Some (<[p := x]> arr)
  | S n, x :: args => bpf_fill_n n (<[p := x]> arr) (p + 1) args
  | _, _ => None
  end.

Abbreviation bpf_fill arr args := (n ← bpf_narg args; bpf_fill_n n arr 0 args) (only parsing).

(** unsigned long long ___param[___bpf_narg(args)], whose elements are not
    initialised *)
Abbreviation param_array junk args := (n ← bpf_narg args; bpf_fill (junk <$> seq 0 n) args) (only parsing).

(** The helpers the wrappers call. *)
Inductive print_call :=
| trace_printk (fmt : string) (fmt_size : Z) (args : list Z)
| trace_vprintk (fmt : string) (fmt_size : Z) (param : list Z) (param_size : Z)
| seq_printf (fmt : string) (fmt_size : Z) (param : list Z) (param_size : Z)
| snprintf (out out_size : Z) (fmt : string) (param : list Z) (param_size : Z).

(** sizeof of a string literal counts its terminator *)
Definition sizeof_fmt (fmt : string) : Z := Z.of_nat (String.length fmt) + 1.
Definition sizeof_param (param : list Z) : Z := 8 * Z.of_nat (length param).

Abbreviation bpf_printk_ fmt args := (Some (trace_printk fmt (sizeof_fmt fmt) args)) (only parsing).

Abbreviation pick_printk args := (match bpf_nth (None :: (Some ∘ inl <$> args) ++
         (Some ∘ inr <$> (replicate 9 true ++ replicate 4 false))) with
  | Some (Some (inr v)) => Some v
  | _ => None
  end) (only parsing).

Section Print.
Context (junk : nat -> Z).

Definition BPF_SEQ_PRINTF (fmt : string) (args : list Z) : option print_call :=
  param ← param_array junk args;
  Some (seq_printf fmt (sizeof_fmt fmt) param (sizeof_param param)).

Definition BPF_SNPRINTF (out out_size : Z) (fmt : string) (args : list Z) : option print_call :=
  param ← param_array junk args;
  Some (snprintf out out_size fmt param (sizeof_param param)).


Definition bpf_vprintk_ (fmt : string) (args : list Z) : option print_call :=
  param ← param_array junk args;
  Some (trace_vprintk fmt (sizeof_fmt fmt) param (sizeof_param param)).

(** ___bpf_pick_printk: three or fewer arguments fit the registers *)

Definition bpf_printk (fmt : string) (args : list Z) : option print_call :=
  v ← pick_printk args;
  if (v : bool) then bpf_vprintk_ fmt args else bpf_printk_ fmt args.

End Print.

(** ** Lemmas *)

Lemma bpf_narg_length {A} (args : list A) : (length args <= 12)%nat -> bpf_narg args = Some (length args).
Proof. intros Hl. do 13 (destruct args as [|? args]; [reflexivity|]). cbn in Hl. lia. Qed.

Lemma fill_n_spec args : forall pre arr,
  length arr = length args -> args <> [] ->
  bpf_fill_n (length args) (pre ++ arr) (length pre) args = Some (pre ++ args).
Proof.
  induction args as [|x args IH]; intros pre arr Hl Hne; [done|].
  destruct arr as [|y arr]; [done|]. injection Hl as Hl.
  assert (Hi : <[length pre := x]> (pre ++ y :: arr) = (pre ++ [x]) ++ arr).
  { rewrite insert_app_r_alt, Nat.sub_diag by lia. by rewrite <- app_assoc. }
  destruct args as [|z args].
  - destruct arr; [|done]. cbn [length bpf_fill_n]. rewrite Hi. by rewrite app_nil_r.
  - change (bpf_fill_n (length (z :: args)) (<[length pre := x]> (pre ++ y :: arr)) (length pre + 1)
              (z :: args) = Some (pre ++ x :: z :: args)). rewrite Hi. replace (length pre + 1)%nat with (length (pre ++ [x])) by (rewrite length_app; done).
    rewrite (IH (pre ++ [x]) arr Hl) by done. by rewrite <- app_assoc.
Qed.

Lemma param_array_args junk args : (length args <= 12)%nat -> param_array junk args = Some args.
Proof.
  intros Hl. unfold bpf_fill. rewrite bpf_narg_length by done. cbn [mbind option_bind].
  destruct args as [|x args]; [done|].
  set (arr := junk <$> seq 0 (length (x :: args))).
  assert (length arr = length (x :: args)) as Ha by (unfold arr; by rewrite length_fmap, length_seq).
  exact (fill_n_spec (x :: args) [] arr Ha ltac:(done)).
Qed.

(** ** Properties *)

(** bpf_printk carries every argument: with up to three it calls
    bpf_trace_printk with them, with four to twelve it calls bpf_trace_vprintk
    with an array that holds them in order, whatever the array held before. *)
Theorem bpf_printk_carries_arguments junk fmt args :
  (length args <= 12)%nat ->
  bpf_printk junk fmt args =
  Some (if (length args <=? 3)%nat then trace_printk fmt (sizeof_fmt fmt) args
        else trace_vprintk fmt (sizeof_fmt fmt) args (8 * Z.of_nat (length args))).
Proof.
  intros Hl. unfold bpf_printk.
  assert (pick_printk args = Some (negb (length args <=? 3)%nat)) as ->.
  { do 13 (destruct args as [|? args]; [reflexivity|]). cbn in Hl. lia. }
  cbn [mbind option_bind]. destruct (length args <=? 3)%nat; [done|]. cbn [negb].
  unfold bpf_vprintk_. by rewrite param_array_args.
Qed.

Lemma bpf_printk_carries_arguments_witness :
  bpf_printk (λ _, 99) "%d %d %d %d" [1; 2; 3; 4] =
  Some (trace_vprintk "%d %d %d %d" 12 [1; 2; 3; 4] 32).
Proof. apply (bpf_printk_carries_arguments (λ _, 99) "%d %d %d %d" [1; 2; 3; 4]). cbn. lia. Defined.

(** Versions compare in order: for minor versions below 256, comparing
    two KERNEL_VERSION values compares major, minor and patch level in that
    order, where patch levels above 255 count as 255. *)
Lemma kernel_version_order a b c a' b' c' :
  0 <= b < 256 -> 0 <= b' < 256 -> 0 <= c -> 0 <= c' ->
  KERNEL_VERSION a b c <= KERNEL_VERSION a' b' c' <->
  a < a' \/ a = a' /\ (b < b' \/ b = b' /\ Z.min c 255 <= Z.min c' 255).
Proof.
  intros Hb Hb' Hc Hc'. unfold KERNEL_VERSION. rewrite !Z.shiftl_mul_pow2 by lia.
  change (2 ^ 16) with 65536. change (2 ^ 8) with 256.
  destruct (Z.ltb_spec 255 c), (Z.ltb_spec 255 c'); lia.
Qed.
