(* ===== verification/BpfHelperDefs.v ===== *)
(** * The helper table (daemon/headers/bpf_helper_defs.h)

    A helper is called through a pointer whose value is the helper's number.
    The table of all declarations, and enum bpf_func_id of the kernel the
    programs are built for (daemon/headers/vmlinux.h). *)

From S2P Require Import Prelude BpfHelpers.

(** ** Declarations *)

Inductive hty := HBase (name : string) | HConst (t : hty) | HPtr (t : hty).

Definition pvoid := HPtr (HBase "void").
Definition pcvoid := HPtr (HConst (HBase "void")).
Definition pchar := HPtr (HBase "char").
Definition pcchar := HPtr (HConst (HBase "char")).
Definition hu64 := HBase "__u64".
Definition hu32 := HBase "__u32".
Definition hs64 := HBase "__s64".
Definition hlong := HBase "long".
Definition hulong := HBase "unsigned long".
Definition hint := HBase "int".

(** static h_ret ( *h_name )(h_params) = (void * ) h_id *)
Record helper_decl := Decl {
  h_id : Z; h_name : string; h_ret : hty; h_params : list (hty * string); h_variadic : bool }.

Definition helper_defs_1 : list helper_decl := [
  Decl 1 "bpf_map_lookup_elem" pvoid
    [(pvoid, "map"); (pcvoid, "key")] false;
  Decl 2 "bpf_map_update_elem" hlong
    [(pvoid, "map"); (pcvoid, "key"); (pcvoid, "value"); (hu64, "flags")] false;
  Decl 3 "bpf_map_delete_elem" hlong
    [(pvoid, "map"); (pcvoid, "key")] false;
  Decl 4 "bpf_probe_read" hlong
    [(pvoid, "dst"); (hu32, "size"); (pcvoid, "unsafe_ptr")] false;
  Decl 5 "bpf_ktime_get_ns" hu64
    [] false;
  Decl 6 "bpf_trace_printk" hlong
    [(pcchar, "fmt"); (hu32, "fmt_size")] true;
  Decl 7 "bpf_get_prandom_u32" hu32
    [] false].

Definition helper_defs_2 : list helper_decl := [
  Decl 8 "bpf_get_smp_processor_id" hu32
    [] false;
  Decl 9 "bpf_skb_store_bytes" hlong
    [(HPtr (HBase "struct __sk_buff"), "skb"); (hu32, "offset"); (pcvoid, "from"); (hu32, "len");
     (hu64, "flags")] false;
  Decl 10 "bpf_l3_csum_replace" hlong
    [(HPtr (HBase "struct __sk_buff"), "skb"); (hu32, "offset"); (hu64, "from"); (hu64, "to");
     (hu64, "size")] false;
  Decl 11 "bpf_l4_csum_replace" hlong
    [(HPtr (HBase "struct __sk_buff"), "skb"); (hu32, "offset"); (hu64, "from"); (hu64, "to");
     (hu64, "flags")] false;
  Decl 12 "bpf_tail_call" hlong
    [(pvoid, "ctx"); (pvoid, "prog_array_map"); (hu32, "index")] false].

Definition helper_defs_3 : list helper_decl := [
  Decl 13 "bpf_clone_redirect" hlong
    [(HPtr (HBase "struct __sk_buff"), "skb"); (hu32, "ifindex"); (hu64, "flags")] false;
  Decl 14 "bpf_get_current_pid_tgid" hu64
    [] false;
  Decl 15 "bpf_get_current_uid_gid" hu64
    [] false;
  Decl 16 "bpf_get_current_comm" hlong
    [(pvoid, "buf"); (hu32, "size_of_buf")] false;
  Decl 17 "bpf_get_cgroup_classid" hu32
    [(HPtr (HBase "struct __sk_buff"), "skb")] false;
  Decl 18 "bpf_skb_vlan_push" hlong
    [(HPtr (HBase "struct __sk_buff"), "skb"); (HBase "__be16", "vlan_proto");
     (HBase "__u16", "vlan_tci")] false;
  Decl 19 "bpf_skb_vlan_pop" hlong
    [(HPtr (HBase "struct __sk_buff"), "skb")] false].

Definition helper_defs_4 : list helper_decl := [
  Decl 20 "bpf_skb_get_tunnel_key" hlong
    [(HPtr (HBase "struct __sk_buff"), "skb"); (HPtr (HBase "struct bpf_tunnel_key"), "key");
     (hu32, "size"); (hu64, "flags")] false;
  Decl 21 "bpf_skb_set_tunnel_key" hlong
    [(HPtr (HBase "struct __sk_buff"), "skb"); (HPtr (HBase "struct bpf_tunnel_key"), "key");
     (hu32, "size"); (hu64, "flags")] false;
  Decl 22 "bpf_perf_event_read" hu64
    [(pvoid, "map"); (hu64, "flags")] false].

Definition helper_defs_5 : list helper_decl := [
  Decl 23 "bpf_redirect" hlong
    [(hu32, "ifindex"); (hu64, "flags")] false;
  Decl 24 "bpf_get_route_realm" hu32
    [(HPtr (HBase "struct __sk_buff"), "skb")] false;
  Decl 25 "bpf_perf_event_output" hlong
    [(pvoid, "ctx"); (pvoid, "map"); (hu64, "flags"); (pvoid, "data"); (hu64, "size")] false;
  Decl 26 "bpf_skb_load_bytes" hlong
    [(pcvoid, "skb"); (hu32, "offset"); (pvoid, "to"); (hu32, "len")] false].

Definition helper_defs_6 : list helper_decl := [
  Decl 27 "bpf_get_stackid" hlong
    [(pvoid, "ctx"); (pvoid, "map"); (hu64, "flags")] false;
  Decl 28 "bpf_csum_diff" hs64
    [(HPtr (HBase "__be32"), "from"); (hu32, "from_size"); (HPtr (HBase "__be32"), "to");
     (hu32, "to_size"); (HBase "__wsum", "seed")] false;
  Decl 29 "bpf_skb_get_tunnel_opt" hlong
    [(HPtr (HBase "struct __sk_buff"), "skb"); (pvoid, "opt"); (hu32, "size")] false;
  Decl 30 "bpf_skb_set_tunnel_opt" hlong
    [(HPtr (HBase "struct __sk_buff"), "skb"); (pvoid, "opt"); (hu32, "size")] false;
  Decl 31 "bpf_skb_change_proto" hlong
    [(HPtr (HBase "struct __sk_buff"), "skb"); (HBase "__be16", "proto"); (hu64, "flags")] false].

Definition helper_defs_7 : list helper_decl := [
  Decl 32 "bpf_skb_change_type" hlong
    [(HPtr (HBase "struct __sk_buff"), "skb"); (hu32, "type")] false;
  Decl 33 "bpf_skb_under_cgroup" hlong
    [(HPtr (HBase "struct __sk_buff"), "skb"); (pvoid, "map"); (hu32, "index")] false;
  Decl 34 "bpf_get_hash_recalc" hu32
    [(HPtr (HBase "struct __sk_buff"), "skb")] false;
  Decl 35 "bpf_get_current_task" hu64
    [] false;
  Decl 36 "bpf_probe_write_user" hlong
    [(pvoid, "dst"); (pcvoid, "src"); (hu32, "len")] false;
  Decl 37 "bpf_current_task_under_cgroup" hlong
    [(pvoid, "map"); (hu32, "index")] false;
  Decl 38 "bpf_skb_change_tail" hlong
    [(HPtr (HBase "struct __sk_buff"), "skb"); (hu32, "len"); (hu64, "flags")] false].

Definition helper_defs_8 : list helper_decl := [
  Decl 39 "bpf_skb_pull_data" hlong
    [(HPtr (HBase "struct __sk_buff"), "skb"); (hu32, "len")] false;
  Decl 40 "bpf_csum_update" hs64
    [(HPtr (HBase "struct __sk_buff"), "skb"); (HBase "__wsum", "csum")] false;
  Decl 41 "bpf_set_hash_invalid" (HBase "void")
    [(HPtr (HBase "struct __sk_buff"), "skb")] false;
  Decl 42 "bpf_get_numa_node_id" hlong
    [] false;
  Decl 43 "bpf_skb_change_head" hlong
    [(HPtr (HBase "struct __sk_buff"), "skb"); (hu32, "len"); (hu64, "flags")] false;
  Decl 44 "bpf_xdp_adjust_head" hlong
    [(HPtr (HBase "struct xdp_md"), "xdp_md"); (hint, "delta")] false;
  Decl 45 "bpf_probe_read_str" hlong
    [(pvoid, "dst"); (hu32, "size"); (pcvoid, "unsafe_ptr")] false].

Definition helper_defs_9 : list helper_decl := [
  Decl 46 "bpf_get_socket_cookie" hu64
    [(pvoid, "ctx")] false;
  Decl 47 "bpf_get_socket_uid" hu32
    [(HPtr (HBase "struct __sk_buff"), "skb")] false;
  Decl 48 "bpf_set_hash" hlong
    [(HPtr (HBase "struct __sk_buff"), "skb"); (hu32, "hash")] false;
  Decl 49 "bpf_setsockopt" hlong
    [(pvoid, "bpf_socket"); (hint, "level"); (hint, "optname"); (pvoid, "optval"); (hint, "optlen")] false;
  Decl 50 "bpf_skb_adjust_room" hlong
    [(HPtr (HBase "struct __sk_buff"), "skb"); (HBase "__s32", "len_diff"); (hu32, "mode");
     (hu64, "flags")] false].

Definition helper_defs_10 : list helper_decl := [
  Decl 51 "bpf_redirect_map" hlong
    [(pvoid, "map"); (hu32, "key"); (hu64, "flags")] false;
  Decl 52 "bpf_sk_redirect_map" hlong
    [(HPtr (HBase "struct __sk_buff"), "skb"); (pvoid, "map"); (hu32, "key"); (hu64, "flags")] false;
  Decl 53 "bpf_sock_map_update" hlong
    [(HPtr (HBase "struct bpf_sock_ops"), "skops"); (pvoid, "map"); (pvoid, "key"); (hu64, "flags")] false;
  Decl 54 "bpf_xdp_adjust_meta" hlong
    [(HPtr (HBase "struct xdp_md"), "xdp_md"); (hint, "delta")] false].

Definition helper_defs_11 : list helper_decl := [
  Decl 55 "bpf_perf_event_read_value" hlong
    [(pvoid, "map"); (hu64, "flags"); (HPtr (HBase "struct bpf_perf_event_value"), "buf");
     (hu32, "buf_size")] false;
  Decl 56 "bpf_perf_prog_read_value" hlong
    [(HPtr (HBase "struct bpf_perf_event_data"), "ctx");
     (HPtr (HBase "struct bpf_perf_event_value"), "buf"); (hu32, "buf_size")] false;
  Decl 57 "bpf_getsockopt" hlong
    [(pvoid, "bpf_socket"); (hint, "level"); (hint, "optname"); (pvoid, "optval"); (hint, "optlen")] false;
  Decl 58 "bpf_override_return" hlong
    [(HPtr (HBase "struct pt_regs"), "regs"); (hu64, "rc")] false].

Definition helper_defs_12 : list helper_decl := [
  Decl 59 "bpf_sock_ops_cb_flags_set" hlong
    [(HPtr (HBase "struct bpf_sock_ops"), "bpf_sock"); (hint, "argval")] false;
  Decl 60 "bpf_msg_redirect_map" hlong
    [(HPtr (HBase "struct sk_msg_md"), "msg"); (pvoid, "map"); (hu32, "key"); (hu64, "flags")] false;
  Decl 61 "bpf_msg_apply_bytes" hlong
    [(HPtr (HBase "struct sk_msg_md"), "msg"); (hu32, "bytes")] false;
  Decl 62 "bpf_msg_cork_bytes" hlong
    [(HPtr (HBase "struct sk_msg_md"), "msg"); (hu32, "bytes")] false].

Definition helper_defs_13 : list helper_decl := [
  Decl 63 "bpf_msg_pull_data" hlong
    [(HPtr (HBase "struct sk_msg_md"), "msg"); (hu32, "start"); (hu32, "end"); (hu64, "flags")] false;
  Decl 64 "bpf_bind" hlong
    [(HPtr (HBase "struct bpf_sock_addr"), "ctx"); (HPtr (HBase "struct sockaddr"), "addr");
     (hint, "addr_len")] false;
  Decl 65 "bpf_xdp_adjust_tail" hlong
    [(HPtr (HBase "struct xdp_md"), "xdp_md"); (hint, "delta")] false;
  Decl 66 "bpf_skb_get_xfrm_state" hlong
    [(HPtr (HBase "struct __sk_buff"), "skb"); (hu32, "index");
     (HPtr (HBase "struct bpf_xfrm_state"), "xfrm_state"); (hu32, "size"); (hu64, "flags")] false;
  Decl 67 "bpf_get_stack" hlong
    [(pvoid, "ctx"); (pvoid, "buf"); (hu32, "size"); (hu64, "flags")] false].

Definition helper_defs_14 : list helper_decl := [
  Decl 68 "bpf_skb_load_bytes_relative" hlong
    [(pcvoid, "skb"); (hu32, "offset"); (pvoid, "to"); (hu32, "len"); (hu32, "start_header")] false;
  Decl 69 "bpf_fib_lookup" hlong
    [(pvoid, "ctx"); (HPtr (HBase "struct bpf_fib_lookup"), "params"); (hint, "plen");
     (hu32, "flags")] false;
  Decl 70 "bpf_sock_hash_update" hlong
    [(HPtr (HBase "struct bpf_sock_ops"), "skops"); (pvoid, "map"); (pvoid, "key"); (hu64, "flags")] false;
  Decl 71 "bpf_msg_redirect_hash" hlong
    [(HPtr (HBase "struct sk_msg_md"), "msg"); (pvoid, "map"); (pvoid, "key"); (hu64, "flags")] false;
  Decl 72 "bpf_sk_redirect_hash" hlong
    [(HPtr (HBase "struct __sk_buff"), "skb"); (pvoid, "map"); (pvoid, "key"); (hu64, "flags")] false].

Definition helper_defs_15 : list helper_decl := [
  Decl 73 "bpf_lwt_push_encap" hlong
    [(HPtr (HBase "struct __sk_buff"), "skb"); (hu32, "type"); (pvoid, "hdr"); (hu32, "len")] false;
  Decl 74 "bpf_lwt_seg6_store_bytes" hlong
    [(HPtr (HBase "struct __sk_buff"), "skb"); (hu32, "offset"); (pcvoid, "from"); (hu32, "len")] false;
  Decl 75 "bpf_lwt_seg6_adjust_srh" hlong
    [(HPtr (HBase "struct __sk_buff"), "skb"); (hu32, "offset"); (HBase "__s32", "delta")] false;
  Decl 76 "bpf_lwt_seg6_action" hlong
    [(HPtr (HBase "struct __sk_buff"), "skb"); (hu32, "action"); (pvoid, "param");
     (hu32, "param_len")] false;
  Decl 77 "bpf_rc_repeat" hlong
    [(pvoid, "ctx")] false].

Definition helper_defs_16 : list helper_decl := [
  Decl 78 "bpf_rc_keydown" hlong
    [(pvoid, "ctx"); (hu32, "protocol"); (hu64, "scancode"); (hu32, "toggle")] false;
  Decl 79 "bpf_skb_cgroup_id" hu64
    [(HPtr (HBase "struct __sk_buff"), "skb")] false;
  Decl 80 "bpf_get_current_cgroup_id" hu64
    [] false;
  Decl 81 "bpf_get_local_storage" pvoid
    [(pvoid, "map"); (hu64, "flags")] false;
  Decl 82 "bpf_sk_select_reuseport" hlong
    [(HPtr (HBase "struct sk_reuseport_md"), "reuse"); (pvoid, "map"); (pvoid, "key");
     (hu64, "flags")] false;
  Decl 83 "bpf_skb_ancestor_cgroup_id" hu64
    [(HPtr (HBase "struct __sk_buff"), "skb"); (hint, "ancestor_level")] false].

Definition helper_defs_17 : list helper_decl := [
  Decl 84 "bpf_sk_lookup_tcp" (HPtr (HBase "struct bpf_sock"))
    [(pvoid, "ctx"); (HPtr (HBase "struct bpf_sock_tuple"), "tuple"); (hu32, "tuple_size");
     (hu64, "netns"); (hu64, "flags")] false;
  Decl 85 "bpf_sk_lookup_udp" (HPtr (HBase "struct bpf_sock"))
    [(pvoid, "ctx"); (HPtr (HBase "struct bpf_sock_tuple"), "tuple"); (hu32, "tuple_size");
     (hu64, "netns"); (hu64, "flags")] false;
  Decl 86 "bpf_sk_release" hlong
    [(pvoid, "sock")] false;
  Decl 87 "bpf_map_push_elem" hlong
    [(pvoid, "map"); (pcvoid, "value"); (hu64, "flags")] false;
  Decl 88 "bpf_map_pop_elem" hlong
    [(pvoid, "map"); (pvoid, "value")] false;
  Decl 89 "bpf_map_peek_elem" hlong
    [(pvoid, "map"); (pvoid, "value")] false;
  Decl 90 "bpf_msg_push_data" hlong
    [(HPtr (HBase "struct sk_msg_md"), "msg"); (hu32, "start"); (hu32, "len"); (hu64, "flags")] false].

Definition helper_defs_18 : list helper_decl := [
  Decl 91 "bpf_msg_pop_data" hlong
    [(HPtr (HBase "struct sk_msg_md"), "msg"); (hu32, "start"); (hu32, "len"); (hu64, "flags")] false;
  Decl 92 "bpf_rc_pointer_rel" hlong
    [(pvoid, "ctx"); (HBase "__s32", "rel_x"); (HBase "__s32", "rel_y")] false;
  Decl 93 "bpf_spin_lock" hlong
    [(HPtr (HBase "struct bpf_spin_lock"), "lock")] false;
  Decl 94 "bpf_spin_unlock" hlong
    [(HPtr (HBase "struct bpf_spin_lock"), "lock")] false;
  Decl 95 "bpf_sk_fullsock" (HPtr (HBase "struct bpf_sock"))
    [(HPtr (HBase "struct bpf_sock"), "sk")] false;
  Decl 96 "bpf_tcp_sock" (HPtr (HBase "struct bpf_tcp_sock"))
    [(HPtr (HBase "struct bpf_sock"), "sk")] false;
  Decl 97 "bpf_skb_ecn_set_ce" hlong
    [(HPtr (HBase "struct __sk_buff"), "skb")] false;
  Decl 98 "bpf_get_listener_sock" (HPtr (HBase "struct bpf_sock"))
    [(HPtr (HBase "struct bpf_sock"), "sk")] false].

Definition helper_defs_19 : list helper_decl := [
  Decl 99 "bpf_skc_lookup_tcp" (HPtr (HBase "struct bpf_sock"))
    [(pvoid, "ctx"); (HPtr (HBase "struct bpf_sock_tuple"), "tuple"); (hu32, "tuple_size");
     (hu64, "netns"); (hu64, "flags")] false;
  Decl 100 "bpf_tcp_check_syncookie" hlong
    [(pvoid, "sk"); (pvoid, "iph"); (hu32, "iph_len"); (HPtr (HBase "struct tcphdr"), "th");
     (hu32, "th_len")] false;
  Decl 101 "bpf_sysctl_get_name" hlong
    [(HPtr (HBase "struct bpf_sysctl"), "ctx"); (pchar, "buf"); (hulong, "buf_len"); (hu64, "flags")] false;
  Decl 102 "bpf_sysctl_get_current_value" hlong
    [(HPtr (HBase "struct bpf_sysctl"), "ctx"); (pchar, "buf"); (hulong, "buf_len")] false;
  Decl 103 "bpf_sysctl_get_new_value" hlong
    [(HPtr (HBase "struct bpf_sysctl"), "ctx"); (pchar, "buf"); (hulong, "buf_len")] false;
  Decl 104 "bpf_sysctl_set_new_value" hlong
    [(HPtr (HBase "struct bpf_sysctl"), "ctx"); (pcchar, "buf"); (hulong, "buf_len")] false].

Definition helper_defs_20 : list helper_decl := [
  Decl 105 "bpf_strtol" hlong
    [(pcchar, "buf"); (hulong, "buf_len"); (hu64, "flags"); (HPtr (hlong), "res")] false;
  Decl 106 "bpf_strtoul" hlong
    [(pcchar, "buf"); (hulong, "buf_len"); (hu64, "flags"); (HPtr (hulong), "res")] false;
  Decl 107 "bpf_sk_storage_get" pvoid
    [(pvoid, "map"); (pvoid, "sk"); (pvoid, "value"); (hu64, "flags")] false;
  Decl 108 "bpf_sk_storage_delete" hlong
    [(pvoid, "map"); (pvoid, "sk")] false;
  Decl 109 "bpf_send_signal" hlong
    [(hu32, "sig")] false].

Definition helper_defs_21 : list helper_decl := [
  Decl 110 "bpf_tcp_gen_syncookie" hs64
    [(pvoid, "sk"); (pvoid, "iph"); (hu32, "iph_len"); (HPtr (HBase "struct tcphdr"), "th");
     (hu32, "th_len")] false;
  Decl 111 "bpf_skb_output" hlong
    [(pvoid, "ctx"); (pvoid, "map"); (hu64, "flags"); (pvoid, "data"); (hu64, "size")] false;
  Decl 112 "bpf_probe_read_user" hlong
    [(pvoid, "dst"); (hu32, "size"); (pcvoid, "unsafe_ptr")] false;
  Decl 113 "bpf_probe_read_kernel" hlong
    [(pvoid, "dst"); (hu32, "size"); (pcvoid, "unsafe_ptr")] false;
  Decl 114 "bpf_probe_read_user_str" hlong
    [(pvoid, "dst"); (hu32, "size"); (pcvoid, "unsafe_ptr")] false;
  Decl 115 "bpf_probe_read_kernel_str" hlong
    [(pvoid, "dst"); (hu32, "size"); (pcvoid, "unsafe_ptr")] false;
  Decl 116 "bpf_tcp_send_ack" hlong
    [(pvoid, "tp"); (hu32, "rcv_nxt")] false].

Definition helper_defs_22 : list helper_decl := [
  Decl 117 "bpf_send_signal_thread" hlong
    [(hu32, "sig")] false;
  Decl 118 "bpf_jiffies64" hu64
    [] false;
  Decl 119 "bpf_read_branch_records" hlong
    [(HPtr (HBase "struct bpf_perf_event_data"), "ctx"); (pvoid, "buf"); (hu32, "size");
     (hu64, "flags")] false;
  Decl 120 "bpf_get_ns_current_pid_tgid" hlong
    [(hu64, "dev"); (hu64, "ino"); (HPtr (HBase "struct bpf_pidns_info"), "nsdata"); (hu32, "size")] false;
  Decl 121 "bpf_xdp_output" hlong
    [(pvoid, "ctx"); (pvoid, "map"); (hu64, "flags"); (pvoid, "data"); (hu64, "size")] false;
  Decl 122 "bpf_get_netns_cookie" hu64
    [(pvoid, "ctx")] false;
  Decl 123 "bpf_get_current_ancestor_cgroup_id" hu64
    [(hint, "ancestor_level")] false].

Definition helper_defs_23 : list helper_decl := [
  Decl 124 "bpf_sk_assign" hlong
    [(pvoid, "ctx"); (pvoid, "sk"); (hu64, "flags")] false;
  Decl 125 "bpf_ktime_get_boot_ns" hu64
    [] false;
  Decl 126 "bpf_seq_printf" hlong
    [(HPtr (HBase "struct seq_file"), "m"); (pcchar, "fmt"); (hu32, "fmt_size"); (pcvoid, "data");
     (hu32, "data_len")] false;
  Decl 127 "bpf_seq_write" hlong
    [(HPtr (HBase "struct seq_file"), "m"); (pcvoid, "data"); (hu32, "len")] false;
  Decl 128 "bpf_sk_cgroup_id" hu64
    [(pvoid, "sk")] false;
  Decl 129 "bpf_sk_ancestor_cgroup_id" hu64
    [(pvoid, "sk"); (hint, "ancestor_level")] false].

Definition helper_defs_24 : list helper_decl := [
  Decl 130 "bpf_ringbuf_output" hlong
    [(pvoid, "ringbuf"); (pvoid, "data"); (hu64, "size"); (hu64, "flags")] false;
  Decl 131 "bpf_ringbuf_reserve" pvoid
    [(pvoid, "ringbuf"); (hu64, "size"); (hu64, "flags")] false;
  Decl 132 "bpf_ringbuf_submit" (HBase "void")
    [(pvoid, "data"); (hu64, "flags")] false;
  Decl 133 "bpf_ringbuf_discard" (HBase "void")
    [(pvoid, "data"); (hu64, "flags")] false;
  Decl 134 "bpf_ringbuf_query" hu64
    [(pvoid, "ringbuf"); (hu64, "flags")] false;
  Decl 135 "bpf_csum_level" hlong
    [(HPtr (HBase "struct __sk_buff"), "skb"); (hu64, "level")] false;
  Decl 136 "bpf_skc_to_tcp6_sock" (HPtr (HBase "struct tcp6_sock"))
    [(pvoid, "sk")] false;
  Decl 137 "bpf_skc_to_tcp_sock" (HPtr (HBase "struct tcp_sock"))
    [(pvoid, "sk")] false].

Definition helper_defs_25 : list helper_decl := [
  Decl 138 "bpf_skc_to_tcp_timewait_sock" (HPtr (HBase "struct tcp_timewait_sock"))
    [(pvoid, "sk")] false;
  Decl 139 "bpf_skc_to_tcp_request_sock" (HPtr (HBase "struct tcp_request_sock"))
    [(pvoid, "sk")] false;
  Decl 140 "bpf_skc_to_udp6_sock" (HPtr (HBase "struct udp6_sock"))
    [(pvoid, "sk")] false;
  Decl 141 "bpf_get_task_stack" hlong
    [(HPtr (HBase "struct task_struct"), "task"); (pvoid, "buf"); (hu32, "size"); (hu64, "flags")] false;
  Decl 142 "bpf_load_hdr_opt" hlong
    [(HPtr (HBase "struct bpf_sock_ops"), "skops"); (pvoid, "searchby_res"); (hu32, "len");
     (hu64, "flags")] false].

Definition helper_defs_26 : list helper_decl := [
  Decl 143 "bpf_store_hdr_opt" hlong
    [(HPtr (HBase "struct bpf_sock_ops"), "skops"); (pcvoid, "from"); (hu32, "len"); (hu64, "flags")] false;
  Decl 144 "bpf_reserve_hdr_opt" hlong
    [(HPtr (HBase "struct bpf_sock_ops"), "skops"); (hu32, "len"); (hu64, "flags")] false;
  Decl 145 "bpf_inode_storage_get" pvoid
    [(pvoid, "map"); (pvoid, "inode"); (pvoid, "value"); (hu64, "flags")] false;
  Decl 146 "bpf_inode_storage_delete" hint
    [(pvoid, "map"); (pvoid, "inode")] false;
  Decl 147 "bpf_d_path" hlong
    [(HPtr (HBase "struct path"), "path"); (pchar, "buf"); (hu32, "sz")] false;
  Decl 148 "bpf_copy_from_user" hlong
    [(pvoid, "dst"); (hu32, "size"); (pcvoid, "user_ptr")] false].

Definition helper_defs_27 : list helper_decl := [
  Decl 149 "bpf_snprintf_btf" hlong
    [(pchar, "str"); (hu32, "str_size"); (HPtr (HBase "struct btf_ptr"), "ptr"); (hu32, "btf_ptr_size");
     (hu64, "flags")] false;
  Decl 150 "bpf_seq_printf_btf" hlong
    [(HPtr (HBase "struct seq_file"), "m"); (HPtr (HBase "struct btf_ptr"), "ptr"); (hu32, "ptr_size");
     (hu64, "flags")] false;
  Decl 151 "bpf_skb_cgroup_classid" hu64
    [(HPtr (HBase "struct __sk_buff"), "skb")] false;
  Decl 152 "bpf_redirect_neigh" hlong
    [(hu32, "ifindex"); (HPtr (HBase "struct bpf_redir_neigh"), "params"); (hint, "plen");
     (hu64, "flags")] false;
  Decl 153 "bpf_per_cpu_ptr" pvoid
    [(pcvoid, "percpu_ptr"); (hu32, "cpu")] false;
  Decl 154 "bpf_this_cpu_ptr" pvoid
    [(pcvoid, "percpu_ptr")] false;
  Decl 155 "bpf_redirect_peer" hlong
    [(hu32, "ifindex"); (hu64, "flags")] false].

Definition helper_defs_28 : list helper_decl := [
  Decl 156 "bpf_task_storage_get" pvoid
    [(pvoid, "map"); (HPtr (HBase "struct task_struct"), "task"); (pvoid, "value"); (hu64, "flags")] false;
  Decl 157 "bpf_task_storage_delete" hlong
    [(pvoid, "map"); (HPtr (HBase "struct task_struct"), "task")] false;
  Decl 158 "bpf_get_current_task_btf" (HPtr (HBase "struct task_struct"))
    [] false;
  Decl 159 "bpf_bprm_opts_set" hlong
    [(HPtr (HBase "struct linux_binprm"), "bprm"); (hu64, "flags")] false;
  Decl 160 "bpf_ktime_get_coarse_ns" hu64
    [] false;
  Decl 161 "bpf_ima_inode_hash" hlong
    [(HPtr (HBase "struct inode"), "inode"); (pvoid, "dst"); (hu32, "size")] false;
  Decl 162 "bpf_sock_from_file" (HPtr (HBase "struct socket"))
    [(HPtr (HBase "struct file"), "file")] false].

Definition helper_defs_29 : list helper_decl := [
  Decl 163 "bpf_check_mtu" hlong
    [(pvoid, "ctx"); (hu32, "ifindex"); (HPtr (hu32), "mtu_len"); (HBase "__s32", "len_diff");
     (hu64, "flags")] false;
  Decl 164 "bpf_for_each_map_elem" hlong
    [(pvoid, "map"); (pvoid, "callback_fn"); (pvoid, "callback_ctx"); (hu64, "flags")] false;
  Decl 165 "bpf_snprintf" hlong
    [(pchar, "str"); (hu32, "str_size"); (pcchar, "fmt"); (HPtr (hu64), "data"); (hu32, "data_len")] false;
  Decl 166 "bpf_sys_bpf" hlong
    [(hu32, "cmd"); (pvoid, "attr"); (hu32, "attr_size")] false].

Definition helper_defs_30 : list helper_decl := [
  Decl 167 "bpf_btf_find_by_name_kind" hlong
    [(pchar, "name"); (hint, "name_sz"); (hu32, "kind"); (hint, "flags")] false;
  Decl 168 "bpf_sys_close" hlong
    [(hu32, "fd")] false;
  Decl 169 "bpf_timer_init" hlong
    [(HPtr (HBase "struct bpf_timer"), "timer"); (pvoid, "map"); (hu64, "flags")] false;
  Decl 170 "bpf_timer_set_callback" hlong
    [(HPtr (HBase "struct bpf_timer"), "timer"); (pvoid, "callback_fn")] false;
  Decl 171 "bpf_timer_start" hlong
    [(HPtr (HBase "struct bpf_timer"), "timer"); (hu64, "nsecs"); (hu64, "flags")] false;
  Decl 172 "bpf_timer_cancel" hlong
    [(HPtr (HBase "struct bpf_timer"), "timer")] false;
  Decl 173 "bpf_get_func_ip" hu64
    [(pvoid, "ctx")] false;
  Decl 174 "bpf_get_attach_cookie" hu64
    [(pvoid, "ctx")] false;
  Decl 175 "bpf_task_pt_regs" hlong
    [(HPtr (HBase "struct task_struct"), "task")] false].

Definition helper_defs_31 : list helper_decl := [
  Decl 176 "bpf_get_branch_snapshot" hlong
    [(pvoid, "entries"); (hu32, "size"); (hu64, "flags")] false;
  Decl 177 "bpf_trace_vprintk" hlong
    [(pcchar, "fmt"); (hu32, "fmt_size"); (pcvoid, "data"); (hu32, "data_len")] false;
  Decl 178 "bpf_skc_to_unix_sock" (HPtr (HBase "struct unix_sock"))
    [(pvoid, "sk")] false;
  Decl 179 "bpf_kallsyms_lookup_name" hlong
    [(pcchar, "name"); (hint, "name_sz"); (hint, "flags"); (HPtr (hu64), "res")] false;
  Decl 180 "bpf_find_vma" hlong
    [(HPtr (HBase "struct task_struct"), "task"); (hu64, "addr"); (pvoid, "callback_fn");
     (pvoid, "callback_ctx"); (hu64, "flags")] false].

Definition helper_defs : list helper_decl :=
  helper_defs_1 ++ helper_defs_2 ++ helper_defs_3 ++ helper_defs_4 ++ helper_defs_5 ++ helper_defs_6 ++
  helper_defs_7 ++ helper_defs_8 ++ helper_defs_9 ++ helper_defs_10 ++ helper_defs_11 ++
  helper_defs_12 ++ helper_defs_13 ++ helper_defs_14 ++ helper_defs_15 ++ helper_defs_16 ++
  helper_defs_17 ++ helper_defs_18 ++ helper_defs_19 ++ helper_defs_20 ++ helper_defs_21 ++
  helper_defs_22 ++ helper_defs_23 ++ helper_defs_24 ++ helper_defs_25 ++ helper_defs_26 ++
  helper_defs_27 ++ helper_defs_28 ++ helper_defs_29 ++ helper_defs_30 ++ helper_defs_31.

(** ** enum bpf_func_id *)

Definition bpf_func_id_1 : list (string * Z) := [
  ("BPF_FUNC_unspec", 0);
  ("BPF_FUNC_map_lookup_elem", 1);
  ("BPF_FUNC_map_update_elem", 2);
  ("BPF_FUNC_map_delete_elem", 3);
  ("BPF_FUNC_probe_read", 4);
  ("BPF_FUNC_ktime_get_ns", 5);
  ("BPF_FUNC_trace_printk", 6);
  ("BPF_FUNC_get_prandom_u32", 7);
  ("BPF_FUNC_get_smp_processor_id", 8);
  ("BPF_FUNC_skb_store_bytes", 9);
  ("BPF_FUNC_l3_csum_replace", 10);
  ("BPF_FUNC_l4_csum_replace", 11);
  ("BPF_FUNC_tail_call", 12);
  ("BPF_FUNC_clone_redirect", 13);
  ("BPF_FUNC_get_current_pid_tgid", 14);
  ("BPF_FUNC_get_current_uid_gid", 15);
  ("BPF_FUNC_get_current_comm", 16);
  ("BPF_FUNC_get_cgroup_classid", 17);
  ("BPF_FUNC_skb_vlan_push", 18);
  ("BPF_FUNC_skb_vlan_pop", 19);
  ("BPF_FUNC_skb_get_tunnel_key", 20);
  ("BPF_FUNC_skb_set_tunnel_key", 21);
  ("BPF_FUNC_perf_event_read", 22);
  ("BPF_FUNC_redirect", 23);
  ("BPF_FUNC_get_route_realm", 24);
  ("BPF_FUNC_perf_event_output", 25);
  ("BPF_FUNC_skb_load_bytes", 26);
  ("BPF_FUNC_get_stackid", 27);
  ("BPF_FUNC_csum_diff", 28);
  ("BPF_FUNC_skb_get_tunnel_opt", 29);
  ("BPF_FUNC_skb_set_tunnel_opt", 30);
  ("BPF_FUNC_skb_change_proto", 31);
  ("BPF_FUNC_skb_change_type", 32);
  ("BPF_FUNC_skb_under_cgroup", 33);
  ("BPF_FUNC_get_hash_recalc", 34);
  ("BPF_FUNC_get_current_task", 35);
  ("BPF_FUNC_probe_write_user", 36);
  ("BPF_FUNC_current_task_under_cgroup", 37);
  ("BPF_FUNC_skb_change_tail", 38);
  ("BPF_FUNC_skb_pull_data", 39);
  ("BPF_FUNC_csum_update", 40);
  ("BPF_FUNC_set_hash_invalid", 41);
  ("BPF_FUNC_get_numa_node_id", 42);
  ("BPF_FUNC_skb_change_head", 43);
  ("BPF_FUNC_xdp_adjust_head", 44);
  ("BPF_FUNC_probe_read_str", 45);
  ("BPF_FUNC_get_socket_cookie", 46);
  ("BPF_FUNC_get_socket_uid", 47);
  ("BPF_FUNC_set_hash", 48);
  ("BPF_FUNC_setsockopt", 49);
  ("BPF_FUNC_skb_adjust_room", 50);
  ("BPF_FUNC_redirect_map", 51);
  ("BPF_FUNC_sk_redirect_map", 52);
  ("BPF_FUNC_sock_map_update", 53);
  ("BPF_FUNC_xdp_adjust_meta", 54);
  ("BPF_FUNC_perf_event_read_value", 55);
  ("BPF_FUNC_perf_prog_read_value", 56);
  ("BPF_FUNC_getsockopt", 57);
  ("BPF_FUNC_override_return", 58);
  ("BPF_FUNC_sock_ops_cb_flags_set", 59);
  ("BPF_FUNC_msg_redirect_map", 60);
  ("BPF_FUNC_msg_apply_bytes", 61);
  ("BPF_FUNC_msg_cork_bytes", 62);
  ("BPF_FUNC_msg_pull_data", 63);
  ("BPF_FUNC_bind", 64);
  ("BPF_FUNC_xdp_adjust_tail", 65);
  ("BPF_FUNC_skb_get_xfrm_state", 66);
  ("BPF_FUNC_get_stack", 67);
  ("BPF_FUNC_skb_load_bytes_relative", 68);
  ("BPF_FUNC_fib_lookup", 69);
  ("BPF_FUNC_sock_hash_update", 70);
  ("BPF_FUNC_msg_redirect_hash", 71);
  ("BPF_FUNC_sk_redirect_hash", 72);
  ("BPF_FUNC_lwt_push_encap", 73);
  ("BPF_FUNC_lwt_seg6_store_bytes", 74);
  ("BPF_FUNC_lwt_seg6_adjust_srh", 75);
  ("BPF_FUNC_lwt_seg6_action", 76);
  ("BPF_FUNC_rc_repeat", 77);
  ("BPF_FUNC_rc_keydown", 78);
  ("BPF_FUNC_skb_cgroup_id", 79);
  ("BPF_FUNC_get_current_cgroup_id", 80);
  ("BPF_FUNC_get_local_storage", 81);
  ("BPF_FUNC_sk_select_reuseport", 82);
  ("BPF_FUNC_skb_ancestor_cgroup_id", 83);
  ("BPF_FUNC_sk_lookup_tcp", 84);
  ("BPF_FUNC_sk_lookup_udp", 85);
  ("BPF_FUNC_sk_release", 86);
  ("BPF_FUNC_map_push_elem", 87);
  ("BPF_FUNC_map_pop_elem", 88);
  ("BPF_FUNC_map_peek_elem", 89);
  ("BPF_FUNC_msg_push_data", 90);
  ("BPF_FUNC_msg_pop_data", 91);
  ("BPF_FUNC_rc_pointer_rel", 92);
  ("BPF_FUNC_spin_lock", 93);
  ("BPF_FUNC_spin_unlock", 94);
  ("BPF_FUNC_sk_fullsock", 95);
  ("BPF_FUNC_tcp_sock", 96);
  ("BPF_FUNC_skb_ecn_set_ce", 97);
  ("BPF_FUNC_get_listener_sock", 98);
  ("BPF_FUNC_skc_lookup_tcp", 99)].

Definition bpf_func_id_2 : list (string * Z) := [
  ("BPF_FUNC_tcp_check_syncookie", 100);
  ("BPF_FUNC_sysctl_get_name", 101);
  ("BPF_FUNC_sysctl_get_current_value", 102);
  ("BPF_FUNC_sysctl_get_new_value", 103);
  ("BPF_FUNC_sysctl_set_new_value", 104);
  ("BPF_FUNC_strtol", 105);
  ("BPF_FUNC_strtoul", 106);
  ("BPF_FUNC_sk_storage_get", 107);
  ("BPF_FUNC_sk_storage_delete", 108);
  ("BPF_FUNC_send_signal", 109);
  ("BPF_FUNC_tcp_gen_syncookie", 110);
  ("BPF_FUNC_skb_output", 111);
  ("BPF_FUNC_probe_read_user", 112);
  ("BPF_FUNC_probe_read_kernel", 113);
  ("BPF_FUNC_probe_read_user_str", 114);
  ("BPF_FUNC_probe_read_kernel_str", 115);
  ("BPF_FUNC_tcp_send_ack", 116);
  ("BPF_FUNC_send_signal_thread", 117);
  ("BPF_FUNC_jiffies64", 118);
  ("BPF_FUNC_read_branch_records", 119);
  ("BPF_FUNC_get_ns_current_pid_tgid", 120);
  ("BPF_FUNC_xdp_output", 121);
  ("BPF_FUNC_get_netns_cookie", 122);
  ("BPF_FUNC_get_current_ancestor_cgroup_id", 123);
  ("BPF_FUNC_sk_assign", 124);
  ("BPF_FUNC_ktime_get_boot_ns", 125);
  ("BPF_FUNC_seq_printf", 126);
  ("BPF_FUNC_seq_write", 127);
  ("BPF_FUNC_sk_cgroup_id", 128);
  ("BPF_FUNC_sk_ancestor_cgroup_id", 129);
  ("BPF_FUNC_ringbuf_output", 130);
  ("BPF_FUNC_ringbuf_reserve", 131);
  ("BPF_FUNC_ringbuf_submit", 132);
  ("BPF_FUNC_ringbuf_discard", 133);
  ("BPF_FUNC_ringbuf_query", 134);
  ("BPF_FUNC_csum_level", 135);
  ("BPF_FUNC_skc_to_tcp6_sock", 136);
  ("BPF_FUNC_skc_to_tcp_sock", 137);
  ("BPF_FUNC_skc_to_tcp_timewait_sock", 138);
  ("BPF_FUNC_skc_to_tcp_request_sock", 139);
  ("BPF_FUNC_skc_to_udp6_sock", 140);
  ("BPF_FUNC_get_task_stack", 141);
  ("BPF_FUNC_load_hdr_opt", 142);
  ("BPF_FUNC_store_hdr_opt", 143);
  ("BPF_FUNC_reserve_hdr_opt", 144);
  ("BPF_FUNC_inode_storage_get", 145);
  ("BPF_FUNC_inode_storage_delete", 146);
  ("BPF_FUNC_d_path", 147);
  ("BPF_FUNC_copy_from_user", 148);
  ("BPF_FUNC_snprintf_btf", 149);
  ("BPF_FUNC_seq_printf_btf", 150);
  ("BPF_FUNC_skb_cgroup_classid", 151);
  ("BPF_FUNC_redirect_neigh", 152);
  ("BPF_FUNC_per_cpu_ptr", 153);
  ("BPF_FUNC_this_cpu_ptr", 154);
  ("BPF_FUNC_redirect_peer", 155);
  ("BPF_FUNC_task_storage_get", 156);
  ("BPF_FUNC_task_storage_delete", 157);
  ("BPF_FUNC_get_current_task_btf", 158);
  ("BPF_FUNC_bprm_opts_set", 159);
  ("BPF_FUNC_ktime_get_coarse_ns", 160);
  ("BPF_FUNC_ima_inode_hash", 161);
  ("BPF_FUNC_sock_from_file", 162);
  ("BPF_FUNC_check_mtu", 163);
  ("BPF_FUNC_for_each_map_elem", 164);
  ("BPF_FUNC_snprintf", 165);
  ("BPF_FUNC_sys_bpf", 166);
  ("BPF_FUNC_btf_find_by_name_kind", 167);
  ("BPF_FUNC_sys_close", 168);
  ("BPF_FUNC_timer_init", 169);
  ("BPF_FUNC_timer_set_callback", 170);
  ("BPF_FUNC_timer_start", 171);
  ("BPF_FUNC_timer_cancel", 172);
  ("BPF_FUNC_get_func_ip", 173);
  ("BPF_FUNC_get_attach_cookie", 174);
  ("BPF_FUNC_task_pt_regs", 175);
  ("__BPF_FUNC_MAX_ID", 176)].

Definition bpf_func_id : list (string * Z) := bpf_func_id_1 ++ bpf_func_id_2.

(** ** What the programs call *)

(** Per source file; BPF_CORE_READ calls bpf_probe_read_kernel and
    bpf_printk, with at most one format argument, bpf_trace_printk. *)
Definition main_program_calls : list string :=
  ["bpf_ktime_get_ns"; "bpf_map_lookup_elem"; "bpf_trace_printk"; "bpf_probe_read_kernel";
   "bpf_get_current_uid_gid"; "bpf_get_current_pid_tgid"; "bpf_probe_read"; "bpf_map_update_elem";
   "bpf_ringbuf_reserve"; "bpf_get_stack"; "bpf_ringbuf_submit"; "bpf_probe_read_user"].

Definition cookie_program_calls : list string :=
  ["bpf_map_lookup_elem"; "bpf_get_current_uid_gid"; "bpf_get_current_pid_tgid"; "bpf_ktime_get_ns";
   "bpf_get_smp_processor_id"; "bpf_map_update_elem"; "bpf_ringbuf_reserve"; "bpf_ringbuf_submit"].

Definition raw_tp_program_calls : list string :=
  ["bpf_map_lookup_elem"; "bpf_get_current_pid_tgid"; "bpf_map_delete_elem"; "bpf_probe_read_kernel";
   "bpf_ringbuf_reserve"; "bpf_ringbuf_submit"].

(** ** Lookups *)

Definition find_helper (name : string) : option helper_decl :=
  find (λ d, (h_name d =? name)%string) helper_defs.

Definition func_id (name : string) : option Z :=
  snd <$> find (λ e, (e.1 =? name)%string) bpf_func_id.

(** BPF_FUNC_xxx of the helper bpf_xxx *)
Definition func_name (helper : string) : string :=
  String.append "BPF_FUNC_" (String.substring 4 (String.length helper - 4) helper).

(** A type one register can hold: a pointer or an integer. *)
Definition register_type (t : hty) : bool :=
  match t with
  | HPtr _ => true
  | HConst _ => false
  | HBase name => bool_decide (name ∈ ["int"; "long"; "unsigned long"; "__u64"; "__u32"; "__u16"; "__s64";
                                       "__s32"; "__be16"; "__be32"; "__wsum"])
  end.

(** ** Lemmas *)

(** A boolean check of every row is a statement about every row. *)
Lemma table_check (P : helper_decl -> bool) d :
  forallb P helper_defs = true -> d ∈ helper_defs -> P d = true.
Proof. intros H Hin. rewrite forallb_forall in H. apply H. by apply list_elem_of_In. Qed.

Definition row_ids (d : helper_decl) : bool :=
  bool_decide (func_id (func_name (h_name d)) = if h_id d <? 176 then Some (h_id d) else None).

Lemma rows_ids_ok : forallb row_ids helper_defs = true.
Proof. vm_compute. reflexivity. Qed.

Definition row_registers (d : helper_decl) : bool :=
  (length (h_params d) <=? 5)%nat && forallb (register_type ∘ fst) (h_params d).

Lemma rows_registers_ok : forallb row_registers helper_defs = true.
Proof. vm_compute. reflexivity. Qed.

Definition known_to_kernel (name : string) : bool :=
  match find_helper name with Some d => bool_decide (func_id (func_name name) = Some (h_id d)) | None => false end.

(** ** Properties *)

(** The helper numbers compiled into the programs are the kernel's. The
    table declares the helpers 1 to 180 once each in order; a helper below
    176 has the number enum bpf_func_id gives it, and the five above, among
    them the bpf_trace_vprintk that bpf_printk uses for more than three
    arguments, are unknown to that kernel. Every helper the three programs
    call is known to it, and bpf_tail_call_static calls bpf_tail_call. *)
Theorem helper_numbers_match_kernel :
  h_id <$> helper_defs = Z.of_nat <$> seq 1 180 /\
  (forall d, d ∈ helper_defs ->
     func_id (func_name (h_name d)) = if h_id d <? 176 then Some (h_id d) else None) /\
  forallb known_to_kernel (main_program_calls ++ cookie_program_calls ++ raw_tp_program_calls) = true /\
  forall ctx map slot,
    bpf_tail_call_static true ctx map slot =
    (λ d, HelperCall (h_id d) [ctx; map; slot]) <$> find_helper "bpf_tail_call".
Proof.
  split_and!; [vm_compute; reflexivity| |vm_compute; reflexivity|intros; vm_compute; reflexivity].
  intros d Hd. apply (table_check row_ids d rows_ids_ok) in Hd. by apply bool_decide_eq_true in Hd.
Qed.

(** Every helper obeys the BPF calling convention: at most five named
    parameters, each a pointer or an integer that fits a register. *)
Lemma helper_calls_fit_registers d :
  d ∈ helper_defs -> (length (h_params d) <= 5)%nat /\ Forall (λ p, register_type p.1 = true) (h_params d).
Proof.
  intros Hd. apply (table_check row_registers d rows_registers_ok) in Hd.
  apply andb_true_iff in Hd as [Hn Hf]. apply Nat.leb_le in Hn. split; [done|].
  rewrite forallb_forall in Hf. apply list.Forall_forall. intros p Hp. apply Hf. by apply list_elem_of_In.
Qed.
