(* ===== verification/BpfRuntime.v ===== *)
(** * The BPF runtime the programs run on

    The kernel side of the BPF programs (maps, ring buffer, clock, probe
    reads, CO-RE relocation) is not part of the repository: it is the class
    [BpfKernel] of helper operations, the record [probe_ctx] of what one
    invocation sees, and the class [CoreTarget] of relocated member offsets.
    [BpfKernelLaws] and [ctx_ok] state what the helper documentation in
    daemon/headers/bpf_helper_defs.h and the map declarations promise, and
    nothing else.  SimKernel.v has a concrete kernel that meets them, on which
    the witnesses run the programs. *)

From S2P Require Import Prelude CLayout Records.

(** ** Maps, ring buffer, clock *)

Class BpfKernel := {
  (** hash maps with u32 keys and integer values *)
  hmap : Type;
  map_lookup : hmap -> Z -> option Z;
  map_update : hmap -> Z -> Z -> hmap;       (* flags = BPF_ANY *)
  map_delete : hmap -> Z -> hmap;
  (** per-CPU arrays: cpu, slot *)
  percpu : Type;
  percpu_lookup : percpu -> Z -> Z -> option Z;
  percpu_store : percpu -> Z -> Z -> Z -> percpu;
  (** ring buffer: reserve gives the uninitialised bytes of the reservation,
      or nothing when the buffer is full *)
  ring : Type;
  ringbuf_reserve : ring -> Z -> option (list Z) * ring;
  ringbuf_submit : ring -> list Z -> ring;
  ring_records : ring -> list (list Z);      (* submitted so far, oldest first *)
  (** bpf_ktime_get_ns *)
  clock : Type;
  ktime_get_ns : clock -> Z * clock
}.

Class BpfKernelLaws `{K : BpfKernel} : Prop := {
  (** an update of an LRU or one-entry hash map always takes effect; other
      entries stay or are evicted *)
  update_same m k v : map_lookup (map_update m k v) k = Some v;
  update_other m k v k' : k' <> k ->
    map_lookup (map_update m k v) k' = map_lookup m k' \/
    map_lookup (map_update m k v) k' = None;
  delete_same m k : map_lookup (map_delete m k) k = None;
  delete_other m k k' : k' <> k -> map_lookup (map_delete m k) k' = map_lookup m k';
  (** a store changes one slot of one CPU *)
  store_same p c s v w : percpu_lookup p c s = Some w ->
    percpu_lookup (percpu_store p c s v) c s = Some v;
  store_other p c s v c' s' : (c', s') <> (c, s) ->
    percpu_lookup (percpu_store p c s v) c' s' = percpu_lookup p c' s';
  (** a reservation has the requested size and submits nothing *)
  reserve_length r n buf r' : 0 <= n -> ringbuf_reserve r n = (Some buf, r') ->
    Z.of_nat (length buf) = n;
  reserve_records r n : ring_records (ringbuf_reserve r n).2 = ring_records r;
  submit_records r b : ring_records (ringbuf_submit r b) = ring_records r ++ [b];
  (** time is a 64-bit count *)
  ktime_range c : fits 64 (ktime_get_ns c).1
}.

(** ** What one invocation sees *)

Record probe_ctx := ProbeCtx {
  ctx_regs : list Z;                   (* struct user_pt_regs.regs *)
  ctx_args : list Z;                   (* bpf_raw_tracepoint_args.args *)
  cur_tgid : Z; cur_pid : Z;           (* current task *)
  cur_gid : Z; cur_uid : Z;
  cur_cpu : Z;
  (** the bytes bpf_probe_read_kernel / bpf_probe_read leave in a destination
      of the given size *)
  kread : Z -> nat -> list Z;
  (** bpf_probe_read_user addr size dst: the destination afterwards *)
  uread : Z -> nat -> list Z -> list Z;
  (** bpf_get_stack(BPF_F_USER_STACK): return value and buffer afterwards *)
  get_stack : list Z -> Z * list Z
}.

(** bpf_helper_defs.h:352-372 *)
Definition bpf_get_current_pid_tgid (c : probe_ctx) : Z :=
  Z.lor (Z.shiftl (cur_tgid c) 32) (cur_pid c).
Definition bpf_get_current_uid_gid (c : probe_ctx) : Z :=
  Z.lor (Z.shiftl (cur_gid c) 32) (cur_uid c).

Record ctx_ok (c : probe_ctx) : Prop := CtxOk {
  tgid_range : fits 32 (cur_tgid c);
  pid_range : fits 32 (cur_pid c);
  gid_range : fits 32 (cur_gid c);
  uid_range : fits 32 (cur_uid c);
  cpu_range : fits 32 (cur_cpu c);
  regs_range : Forall (fits 64) (ctx_regs c);
  kread_length a n : length (kread c a n) = n;
  kread_bytes a n : is_bytes (kread c a n);
  (** a user read fills at most [size] bytes of the destination *)
  uread_length a n dst : length (uread c a n dst) = length dst;
  uread_rest a n dst : drop n (uread c a n dst) = drop n dst;
  (** bpf_helper_defs.h:1748-1750 *)
  get_stack_length dst : length (get_stack c dst).2 = length dst;
  get_stack_ret dst : (get_stack c dst).1 <= Z.of_nat (length dst)
}.

(** ** CO-RE *)

(** Byte offset of a member path of a kernel struct, and whether a member
    exists, on the running kernel (after libbpf's relocation). *)
Class CoreTarget := {
  core_offset : string -> list string -> Z;
  core_field_exists : string -> string -> bool
}.

(** ** State shared by the programs *)

Record bpf_state `{K : BpfKernel} := BpfState {
  trace_config_map : hmap;
  pending_map : hmap;
  tid_to_txid_map : hmap;
  ringbuf_overflow_map : percpu;
  trace_event_map : ring;
  kclock : clock
}.

Section State.
Context `{K : BpfKernel}.

Definition with_pending (s : bpf_state) (m : hmap) : bpf_state :=
  BpfState _ (trace_config_map s) m (tid_to_txid_map s) (ringbuf_overflow_map s)
    (trace_event_map s) (kclock s).
Definition with_txid (s : bpf_state) (m : hmap) : bpf_state :=
  BpfState _ (trace_config_map s) (pending_map s) m (ringbuf_overflow_map s)
    (trace_event_map s) (kclock s).
Definition with_overflow (s : bpf_state) (p : percpu) : bpf_state :=
  BpfState _ (trace_config_map s) (pending_map s) (tid_to_txid_map s) p
    (trace_event_map s) (kclock s).
Definition with_ring (s : bpf_state) (r : ring) : bpf_state :=
  BpfState _ (trace_config_map s) (pending_map s) (tid_to_txid_map s)
    (ringbuf_overflow_map s) r (kclock s).
Definition with_clock (s : bpf_state) (c : clock) : bpf_state :=
  BpfState _ (trace_config_map s) (pending_map s) (tid_to_txid_map s)
    (ringbuf_overflow_map s) (trace_event_map s) c.

Definition records (s : bpf_state) : list (list Z) := ring_records (trace_event_map s).

(** [reserve t s]: bpf_ringbuf_reserve(&trace_event_map, sizeof(t), 0). *)
Definition reserve (t : ctype) (s : bpf_state) : option (list Z) * bpf_state :=
  let '(b, r) := ringbuf_reserve (trace_event_map s) (csize t) in (b, with_ring s r).

Definition submit (buf : list Z) (s : bpf_state) : bpf_state :=
  with_ring s (ringbuf_submit (trace_event_map s) buf).

Definition read_clock (s : bpf_state) : Z * bpf_state :=
  let '(t, c) := ktime_get_ns (kclock s) in (t, with_clock s c).
End State.
