(* ===== verification/Vmlinux.v ===== *)
(** * Kernel types (daemon/headers/vmlinux.h)

    The kernel structs the BPF programs read through, with every type they
    embed, transcribed member by member from the BTF dump in
    daemon/headers/vmlinux.h: [struct_x] for struct x, [td_x] for typedef x (a
    notation where the typedef only renames a type).
    Enumerations are 4-byte unsigned; unnamed bit-fields ([pad_bits]) are the
    padding the dump writes out so that offsets match the kernel's.
    [VmlinuxTarget] is the CO-RE target whose running kernel is this one. *)

From S2P Require Import Prelude CLayout Records BpfRuntime.

Abbreviation struct_hlist_node :=
  (CStruct [fld "next" CPtr; fld "pprev" CPtr]) (only parsing).

Abbreviation struct_rb_root := (CStruct [fld "rb_node" CPtr]) (only parsing).

Abbreviation struct_list_head :=
  (CStruct [fld "next" CPtr; fld "prev" CPtr]) (only parsing).

Abbreviation td_atomic_t := (CStruct [fld "counter" c_s32]) (only parsing).

Abbreviation td___u8 := c_u8 (only parsing).

Abbreviation td_u8 := td___u8 (only parsing).

Abbreviation td___u16 := c_u16 (only parsing).

Abbreviation td_u16 := td___u16 (only parsing).

Abbreviation struct_qspinlock := (CStruct [anon (CUnion [fld "val" td_atomic_t; anon (CStruct [fld "locked" td_u8;
  fld "pending" td_u8]); anon (CStruct [fld "locked_pending" td_u16; fld "tail" td_u16])])]) (only parsing).

Abbreviation td_arch_spinlock_t := struct_qspinlock (only parsing).

Abbreviation struct_raw_spinlock := (CStruct [fld "raw_lock" td_arch_spinlock_t]) (only parsing).

Abbreviation struct_spinlock :=
  (CStruct [anon (CUnion [fld "rlock" struct_raw_spinlock])]) (only parsing).

Abbreviation td_spinlock_t := struct_spinlock (only parsing).

Abbreviation struct_wait_queue_head :=
  (CStruct [fld "lock" td_spinlock_t; fld "head" struct_list_head]) (only parsing).

Abbreviation td_wait_queue_head_t := struct_wait_queue_head (only parsing).

Abbreviation struct_binder_stats := (CStruct [fld "br" (CArray td_atomic_t 20); fld "bc" (CArray td_atomic_t 19);
  fld "obj_created" (CArray td_atomic_t 7); fld "obj_deleted" (CArray td_atomic_t 7)]) (only parsing).

Abbreviation struct_binder_priority := (CStruct [fld "sched_policy" c_u32; fld "prio" c_s32]) (only parsing).

Abbreviation td___s64 := c_s64 (only parsing).

Abbreviation td_s64 := td___s64 (only parsing).

Abbreviation td_atomic64_t := (CStruct [fld "counter" td_s64]) (only parsing).

Abbreviation td_atomic_long_t := td_atomic64_t (only parsing).

Abbreviation td_raw_spinlock_t := struct_raw_spinlock (only parsing).

Abbreviation struct_optimistic_spin_queue := (CStruct [fld "tail" td_atomic_t]) (only parsing).

Abbreviation td___u64 := c_u64 (only parsing).

Abbreviation td_u64 := td___u64 (only parsing).

Abbreviation struct_mutex := (CStruct [fld "owner" td_atomic_long_t; fld "wait_lock" td_raw_spinlock_t;
  fld "osq" struct_optimistic_spin_queue; fld "wait_list" struct_list_head;
  fld "android_oem_data1" (CArray td_u64 2)]) (only parsing).

Abbreviation td___kernel_ulong_t := c_u64 (only parsing).

Abbreviation td___kernel_size_t := td___kernel_ulong_t (only parsing).

Abbreviation td_size_t := td___kernel_size_t (only parsing).

Abbreviation td___u32 := c_u32 (only parsing).

Abbreviation td_u32 := td___u32 (only parsing).

Abbreviation td_uint32_t := td_u32 (only parsing).

Abbreviation struct_binder_alloc := (CStruct [fld "mutex" struct_mutex; fld "vma" CPtr; fld "vma_vm_mm" CPtr; fld "buffer" CPtr;
  fld "buffers" struct_list_head; fld "free_buffers" struct_rb_root;
  fld "allocated_buffers" struct_rb_root; fld "free_async_space" td_size_t; fld "pages" CPtr;
  fld "buffer_size" td_size_t; fld "buffer_free" td_uint32_t; fld "pid" c_s32;
  fld "pages_high" td_size_t; fld "oneway_spam_detected" c_u8]) (only parsing).

Definition struct_binder_proc : ctype :=
  CStruct [fld "proc_node" struct_hlist_node; fld "threads" struct_rb_root;
  fld "nodes" struct_rb_root; fld "refs_by_desc" struct_rb_root;
  fld "refs_by_node" struct_rb_root; fld "waiting_threads" struct_list_head; fld "pid" c_s32;
  fld "tsk" CPtr; fld "cred" CPtr; fld "deferred_work_node" struct_hlist_node;
  fld "deferred_work" c_s32; fld "outstanding_txns" c_s32; fld "is_dead" c_u8;
  fld "is_frozen" c_u8; fld "sync_recv" c_u8; fld "async_recv" c_u8;
  fld "freeze_wait" td_wait_queue_head_t; fld "todo" struct_list_head;
  fld "stats" struct_binder_stats; fld "delivered_death" struct_list_head;
  fld "max_threads" c_s32; fld "requested_threads" c_s32; fld "requested_threads_started" c_s32;
  fld "tmp_ref" c_s32; fld "default_priority" struct_binder_priority; fld "debugfs_entry" CPtr;
  fld "alloc" struct_binder_alloc; fld "context" CPtr; fld "inner_lock" td_spinlock_t;
  fld "outer_lock" td_spinlock_t; fld "binderfs_entry" CPtr;
  fld "oneway_spam_detection_enabled" c_u8].

Abbreviation struct_rb_node :=
  (CStruct [fld "__rb_parent_color" c_u64; fld "rb_right" CPtr; fld "rb_left" CPtr]) (only parsing).

Abbreviation struct_binder_work := (CStruct [fld "entry" struct_list_head; fld "type" c_u32]) (only parsing).

Abbreviation struct_binder_error := (CStruct [fld "work" struct_binder_work; fld "cmd" td_uint32_t]) (only parsing).

Definition struct_binder_thread : ctype :=
  CStruct [fld "proc" CPtr; fld "rb_node" struct_rb_node;
  fld "waiting_thread_node" struct_list_head; fld "pid" c_s32; fld "looper" c_s32;
  fld "looper_need_return" c_u8; fld "transaction_stack" CPtr; fld "todo" struct_list_head;
  fld "process_todo" c_u8; fld "return_error" struct_binder_error;
  fld "reply_error" struct_binder_error; fld "wait" td_wait_queue_head_t;
  fld "stats" struct_binder_stats; fld "tmp_ref" td_atomic_t; fld "is_dead" c_u8;
  fld "task" CPtr; fld "prio_lock" td_spinlock_t; fld "prio_next" struct_binder_priority;
  fld "prio_state" c_u32].

Abbreviation td___kernel_uid32_t := c_u32 (only parsing).

Abbreviation td_uid_t := td___kernel_uid32_t (only parsing).

Abbreviation td_kuid_t := (CStruct [fld "val" td_uid_t]) (only parsing).

Abbreviation td_binder_uintptr_t := td___u64 (only parsing).

Definition struct_binder_transaction : ctype :=
  CStruct [fld "debug_id" c_s32; fld "work" struct_binder_work; fld "from" CPtr;
  fld "from_parent" CPtr; fld "to_proc" CPtr; fld "to_thread" CPtr; fld "to_parent" CPtr; bits
  "need_reply" c_u32 1; fld "buffer" CPtr; fld "code" c_u32; fld "flags" c_u32;
  fld "priority" struct_binder_priority; fld "saved_priority" struct_binder_priority;
  fld "set_priority_called" c_u8; fld "is_nested" c_u8; fld "sender_euid" td_kuid_t;
  fld "fd_fixups" struct_list_head; fld "security_ctx" td_binder_uintptr_t;
  fld "lock" td_spinlock_t; fld "android_vendor_data1" td_u64].

Abbreviation struct_binder_context := (CStruct [fld "binder_context_mgr_node" CPtr; fld "context_mgr_node_lock" struct_mutex;
  fld "binder_context_mgr_uid" td_kuid_t; fld "name" CPtr]) (only parsing).

Abbreviation td___kernel_pid_t := c_s32 (only parsing).

Abbreviation td_pid_t := td___kernel_pid_t (only parsing).

Abbreviation td_binder_size_t := td___u64 (only parsing).

Definition struct_binder_transaction_data : ctype :=
  CStruct [fld "target" (CUnion [fld "handle" td___u32; fld "ptr" td_binder_uintptr_t]);
  fld "cookie" td_binder_uintptr_t; fld "code" td___u32; fld "flags" td___u32;
  fld "sender_pid" td_pid_t; fld "sender_euid" td_uid_t; fld "data_size" td_binder_size_t;
  fld "offsets_size" td_binder_size_t; fld "data" (CUnion
  [fld "ptr" (CStruct [fld "buffer" td_binder_uintptr_t; fld "offsets" td_binder_uintptr_t]);
  fld "buf" (CArray td___u8 8)])].

Abbreviation struct_thread_info := (CStruct [fld "flags" c_u64; fld "ttbr0" td_u64; anon (CUnion [fld "preempt_count" td_u64;
  fld "preempt" (CStruct [fld "count" td_u32; fld "need_resched" td_u32])]);
  fld "scs_base" CPtr; fld "scs_sp" CPtr]) (only parsing).

Abbreviation struct_refcount_struct := (CStruct [fld "refs" td_atomic_t]) (only parsing).

Abbreviation td_refcount_t := struct_refcount_struct (only parsing).

Abbreviation struct_llist_node := (CStruct [fld "next" CPtr]) (only parsing).

Abbreviation struct___call_single_node := (CStruct [fld "llist" struct_llist_node; anon (CUnion [fld "u_flags" c_u32;
  fld "a_flags" td_atomic_t]); fld "src" td_u16; fld "dst" td_u16]) (only parsing).

Abbreviation struct_load_weight :=
  (CStruct [fld "weight" c_u64; fld "inv_weight" td_u32]) (only parsing).

Abbreviation struct_sched_statistics := (CStruct [fld "wait_start" td_u64; fld "wait_max" td_u64; fld "wait_count" td_u64;
  fld "wait_sum" td_u64; fld "iowait_count" td_u64; fld "iowait_sum" td_u64;
  fld "sleep_start" td_u64; fld "sleep_max" td_u64; fld "sum_sleep_runtime" td_s64;
  fld "block_start" td_u64; fld "block_max" td_u64; fld "exec_max" td_u64;
  fld "slice_max" td_u64; fld "nr_migrations_cold" td_u64;
  fld "nr_failed_migrations_affine" td_u64; fld "nr_failed_migrations_running" td_u64;
  fld "nr_failed_migrations_hot" td_u64; fld "nr_forced_migrations" td_u64;
  fld "nr_wakeups" td_u64; fld "nr_wakeups_sync" td_u64; fld "nr_wakeups_migrate" td_u64;
  fld "nr_wakeups_local" td_u64; fld "nr_wakeups_remote" td_u64; fld "nr_wakeups_affine" td_u64;
  fld "nr_wakeups_affine_attempts" td_u64; fld "nr_wakeups_passive" td_u64;
  fld "nr_wakeups_idle" td_u64]) (only parsing).

Abbreviation struct_util_est :=
  (CStruct [fld "enqueued" c_u32; fld "ewma" c_u32]) (only parsing).

Abbreviation struct_sched_avg := (CStruct [fld "last_update_time" td_u64; fld "load_sum" td_u64; fld "runnable_sum" td_u64;
  fld "util_sum" td_u32; fld "period_contrib" td_u32; fld "load_avg" c_u64;
  fld "runnable_avg" c_u64; fld "util_avg" c_u64; fld "util_est" struct_util_est]) (only parsing).

Definition struct_sched_entity : ctype :=
  CStruct [fld "load" struct_load_weight; fld "run_node" struct_rb_node;
  fld "group_node" struct_list_head; fld "on_rq" c_u32; fld "exec_start" td_u64;
  fld "sum_exec_runtime" td_u64; fld "vruntime" td_u64; fld "prev_sum_exec_runtime" td_u64;
  fld "nr_migrations" td_u64; fld "statistics" struct_sched_statistics; fld "depth" c_s32;
  fld "parent" CPtr; fld "cfs_rq" CPtr; fld "my_q" CPtr; fld "runnable_weight" c_u64; pad_bits
  c_s64 64; pad_bits c_s64 64; pad_bits c_s64 64; fld "avg" struct_sched_avg;
  fld "android_kabi_reserved1" td_u64; fld "android_kabi_reserved2" td_u64;
  fld "android_kabi_reserved3" td_u64; fld "android_kabi_reserved4" td_u64; pad_bits c_s64 64;
  pad_bits c_s64 64; pad_bits c_s64 64; pad_bits c_s64 64].

Abbreviation struct_sched_rt_entity := (CStruct [fld "run_list" struct_list_head; fld "timeout" c_u64; fld "watchdog_stamp" c_u64;
  fld "time_slice" c_u32; fld "on_rq" c_u16; fld "on_list" c_u16; fld "back" CPtr;
  fld "android_kabi_reserved1" td_u64; fld "android_kabi_reserved2" td_u64;
  fld "android_kabi_reserved3" td_u64; fld "android_kabi_reserved4" td_u64]) (only parsing).

Abbreviation td_ktime_t := td_s64 (only parsing).

Abbreviation struct_timerqueue_node :=
  (CStruct [fld "node" struct_rb_node; fld "expires" td_ktime_t]) (only parsing).

Abbreviation struct_hrtimer := (CStruct [fld "node" struct_timerqueue_node; fld "_softexpires" td_ktime_t;
  fld "function" CPtr; fld "base" CPtr; fld "state" td_u8; fld "is_rel" td_u8;
  fld "is_soft" td_u8; fld "is_hard" td_u8; fld "android_kabi_reserved1" td_u64]) (only parsing).

Abbreviation struct_sched_dl_entity := (CStruct [fld "rb_node" struct_rb_node; fld "dl_runtime" td_u64; fld "dl_deadline" td_u64;
  fld "dl_period" td_u64; fld "dl_bw" td_u64; fld "dl_density" td_u64; fld "runtime" td_s64;
  fld "deadline" td_u64; fld "flags" c_u32; bits "dl_throttled" c_u32 1; bits "dl_yielded" c_u32
  1; bits "dl_non_contending" c_u32 1; bits "dl_overrun" c_u32 1; fld "dl_timer" struct_hrtimer;
  fld "inactive_timer" struct_hrtimer; fld "pi_se" CPtr]) (only parsing).

Abbreviation struct_uclamp_se :=
  (CStruct [bits "value" c_u32 11; bits "bucket_id" c_u32 5; bits "active" c_u32 1; bits
  "user_defined" c_u32 1]) (only parsing).

Abbreviation struct_hlist_head := (CStruct [fld "first" CPtr]) (only parsing).

Abbreviation struct_cpumask := (CStruct [fld "bits" (CArray c_u64 1)]) (only parsing).

Abbreviation td_cpumask_t := struct_cpumask (only parsing).

Abbreviation union_rcu_special := (CUnion
  [fld "b" (CStruct [fld "blocked" td_u8; fld "need_qs" td_u8; fld "exp_hint" td_u8; fld "need_mb" td_u8]);
  fld "s" td_u32]) (only parsing).

Abbreviation struct_sched_info :=
  (CStruct [fld "pcount" c_u64; fld "run_delay" c_u64; fld "last_arrival" c_u64;
  fld "last_queued" c_u64]) (only parsing).

Abbreviation struct_plist_node :=
  (CStruct [fld "prio" c_s32; fld "prio_list" struct_list_head; fld "node_list" struct_list_head]) (only parsing).

Abbreviation struct_vmacache :=
  (CStruct [fld "seqnum" td_u64; fld "vmas" (CArray CPtr 4)]) (only parsing).

Abbreviation struct_task_rss_stat :=
  (CStruct [fld "events" c_s32; fld "count" (CArray c_s32 4)]) (only parsing).

Abbreviation td___kernel_clockid_t := c_s32 (only parsing).

Abbreviation td_clockid_t := td___kernel_clockid_t (only parsing).

Abbreviation struct_restart_block := (CStruct [fld "arch_data" c_u64; fld "fn" CPtr; anon (CUnion
  [fld "futex" (CStruct [fld "uaddr" CPtr; fld "val" td_u32; fld "flags" td_u32; fld "bitset" td_u32; fld "time" td_u64; fld "uaddr2" CPtr]);
  fld "nanosleep" (CStruct [fld "clockid" td_clockid_t; fld "type" c_u32; anon (CUnion
  [fld "rmtp" CPtr; fld "compat_rmtp" CPtr]); fld "expires" td_u64]);
  fld "poll" (CStruct [fld "ufds" CPtr; fld "nfds" c_s32; fld "has_timeout" c_s32; fld "tv_sec" c_u64; fld "tv_nsec" c_u64])])]) (only parsing).

Abbreviation struct_prev_cputime :=
  (CStruct [fld "utime" td_u64; fld "stime" td_u64; fld "lock" td_raw_spinlock_t]) (only parsing).

Abbreviation struct_rb_root_cached :=
  (CStruct [fld "rb_root" struct_rb_root; fld "rb_leftmost" CPtr]) (only parsing).

Abbreviation struct_timerqueue_head := (CStruct [fld "rb_root" struct_rb_root_cached]) (only parsing).

Abbreviation struct_posix_cputimer_base :=
  (CStruct [fld "nextevt" td_u64; fld "tqhead" struct_timerqueue_head]) (only parsing).

Abbreviation struct_posix_cputimers :=
  (CStruct [fld "bases" (CArray struct_posix_cputimer_base 3); fld "timers_active" c_u32;
  fld "expiry_active" c_u32]) (only parsing).

Abbreviation td_sigset_t := (CStruct [fld "sig" (CArray c_u64 1)]) (only parsing).

Abbreviation struct_sigpending :=
  (CStruct [fld "list" struct_list_head; fld "signal" td_sigset_t]) (only parsing).

Abbreviation struct_seccomp :=
  (CStruct [fld "mode" c_s32; fld "filter_count" td_atomic_t; fld "filter" CPtr]) (only parsing).

Abbreviation struct_syscall_user_dispatch := (CStruct []) (only parsing).

Abbreviation struct_wake_q_node := (CStruct [fld "next" CPtr]) (only parsing).

Abbreviation struct_task_io_accounting := (CStruct [fld "rchar" td_u64; fld "wchar" td_u64; fld "syscr" td_u64; fld "syscw" td_u64;
  fld "syscfs" td_u64; fld "read_bytes" td_u64; fld "write_bytes" td_u64;
  fld "cancelled_write_bytes" td_u64]) (only parsing).

Abbreviation td_nodemask_t := (CStruct [fld "bits" (CArray c_u64 1)]) (only parsing).

Abbreviation struct_seqcount := (CStruct [fld "sequence" c_u32]) (only parsing).

Abbreviation td_seqcount_t := struct_seqcount (only parsing).

Abbreviation struct_seqcount_spinlock := (CStruct [fld "seqcount" td_seqcount_t]) (only parsing).

Abbreviation td_seqcount_spinlock_t := struct_seqcount_spinlock (only parsing).

Abbreviation struct_tlbflush_unmap_batch := (CStruct []) (only parsing).

Abbreviation struct_callback_head :=
  (CStruct [fld "next" CPtr; fld "func" CPtr]) (only parsing).

Abbreviation struct_page_frag :=
  (CStruct [fld "page" CPtr; fld "offset" td___u32; fld "size" td___u32]) (only parsing).

Abbreviation td_gfp_t := c_u32 (only parsing).

Abbreviation struct_kmap_ctrl := (CStruct []) (only parsing).

Abbreviation struct_timer_list := (CStruct [fld "entry" struct_hlist_node; fld "expires" c_u64; fld "function" CPtr;
  fld "flags" td_u32; fld "android_kabi_reserved1" td_u64; fld "android_kabi_reserved2" td_u64]) (only parsing).

Abbreviation struct_llist_head := (CStruct [fld "first" CPtr]) (only parsing).

Abbreviation struct_cpu_context := (CStruct [fld "x19" c_u64; fld "x20" c_u64; fld "x21" c_u64; fld "x22" c_u64; fld "x23" c_u64;
  fld "x24" c_u64; fld "x25" c_u64; fld "x26" c_u64; fld "x27" c_u64; fld "x28" c_u64;
  fld "fp" c_u64; fld "sp" c_u64; fld "pc" c_u64]) (only parsing).

Abbreviation td___uint128_t := c_u128 (only parsing).

Abbreviation struct_user_fpsimd_state :=
  (CStruct [fld "vregs" (CArray td___uint128_t 32); fld "fpsr" td___u32; fld "fpcr" td___u32;
  fld "__reserved" (CArray td___u32 2)]) (only parsing).

Abbreviation struct_debug_info := (CStruct [fld "suspended_step" c_s32; fld "bps_disabled" c_s32; fld "wps_disabled" c_s32;
  fld "hbp_break" (CArray CPtr 16); fld "hbp_watch" (CArray CPtr 16)]) (only parsing).

Abbreviation struct_ptrauth_key :=
  (CStruct [fld "lo" c_u64; fld "hi" c_u64]) (only parsing).

Abbreviation struct_ptrauth_keys_user := (CStruct [fld "apia" struct_ptrauth_key; fld "apib" struct_ptrauth_key;
  fld "apda" struct_ptrauth_key; fld "apdb" struct_ptrauth_key; fld "apga" struct_ptrauth_key]) (only parsing).

Abbreviation struct_ptrauth_keys_kernel := (CStruct [fld "apia" struct_ptrauth_key]) (only parsing).

Definition struct_thread_struct : ctype :=
  CStruct [fld "cpu_context" struct_cpu_context; pad_bits c_s64 64;
  fld "uw" (CStruct [fld "tp_value" c_u64; fld "tp2_value" c_u64; fld "fpsimd_state" struct_user_fpsimd_state]);
  fld "android_vendor_data1" td_u64; fld "fpsimd_cpu" c_u32; fld "sve_state" CPtr;
  fld "sve_vl" c_u32; fld "sve_vl_onexec" c_u32; fld "fault_address" c_u64;
  fld "fault_code" c_u64; fld "debug" struct_debug_info;
  fld "keys_user" struct_ptrauth_keys_user; fld "keys_kernel" struct_ptrauth_keys_kernel;
  fld "mte_ctrl" td_u64; fld "sctlr_user" td_u64].

Definition task_struct_members_1 : list cmember := [
  fld "thread_info" struct_thread_info; fld "__state" c_u32; fld "stack" CPtr;
  fld "usage" td_refcount_t; fld "flags" c_u32; fld "ptrace" c_u32; fld "on_cpu" c_s32;
  fld "wake_entry" struct___call_single_node; fld "cpu" c_u32; fld "wakee_flips" c_u32;
  fld "wakee_flip_decay_ts" c_u64; fld "last_wakee" CPtr; fld "recent_used_cpu" c_s32;
  fld "wake_cpu" c_s32; fld "on_rq" c_s32; fld "prio" c_s32; fld "static_prio" c_s32;
  fld "normal_prio" c_s32; fld "rt_priority" c_u32; fld "sched_class" CPtr; pad_bits c_s64 64;
  pad_bits c_s64 64; pad_bits c_s64 64; pad_bits c_s64 64; pad_bits c_s64 64;
  fld "se" struct_sched_entity; fld "rt" struct_sched_rt_entity;
  fld "dl" struct_sched_dl_entity; fld "sched_task_group" CPtr;
  fld "uclamp_req" (CArray struct_uclamp_se 2); fld "uclamp" (CArray struct_uclamp_se 2);
  fld "preempt_notifiers" struct_hlist_head; fld "policy" c_u32; fld "nr_cpus_allowed" c_s32;
  fld "cpus_ptr" CPtr; fld "user_cpus_ptr" CPtr; fld "cpus_mask" td_cpumask_t;
  fld "migration_pending" CPtr; fld "migration_disabled" c_u16; fld "migration_flags" c_u16;
  fld "rcu_read_lock_nesting" c_s32; fld "rcu_read_unlock_special" union_rcu_special;
  fld "rcu_node_entry" struct_list_head; fld "rcu_blocked_node" CPtr;
  fld "rcu_tasks_nvcsw" c_u64; fld "rcu_tasks_holdout" td_u8; fld "rcu_tasks_idx" td_u8;
  fld "rcu_tasks_idle_cpu" c_s32; fld "rcu_tasks_holdout_list" struct_list_head;
  fld "trc_reader_nesting" c_s32; fld "trc_ipi_to_cpu" c_s32;
  fld "trc_reader_special" union_rcu_special; fld "trc_reader_checked" c_u8;
  fld "trc_holdout_list" struct_list_head; fld "sched_info" struct_sched_info;
  fld "tasks" struct_list_head; fld "pushable_tasks" struct_plist_node;
  fld "pushable_dl_tasks" struct_rb_node; fld "mm" CPtr; fld "active_mm" CPtr;
  fld "vmacache" struct_vmacache; fld "rss_stat" struct_task_rss_stat; fld "exit_state" c_s32;
  fld "exit_code" c_s32; fld "exit_signal" c_s32; fld "pdeath_signal" c_s32; fld "jobctl" c_u64;
  fld "personality" c_u32; bits "sched_reset_on_fork" c_u32 1; bits "sched_contributes_to_load"
  c_u32 1; bits "sched_migrated" c_u32 1; bits "sched_psi_wake_requeue" c_u32 1; pad_bits c_s64
  28; bits "sched_remote_wakeup" c_u32 1; bits "in_execve" c_u32 1; bits "in_iowait" c_u32 1;
  bits "in_user_fault" c_u32 1; bits "in_lru_fault" c_u32 1; bits "no_cgroup_migration" c_u32 1;
  bits "frozen" c_u32 1; bits "use_memdelay" c_u32 1; bits "in_memstall" c_u32 1; bits
  "in_page_owner" c_u32 1; bits "in_eventfd_signal" c_u32 1 ].

Definition task_struct_members_2 : list cmember := [
  fld "atomic_flags" c_u64; fld "restart_block" struct_restart_block; fld "pid" td_pid_t;
  fld "tgid" td_pid_t; fld "stack_canary" c_u64; fld "real_parent" CPtr; fld "parent" CPtr;
  fld "children" struct_list_head; fld "sibling" struct_list_head; fld "group_leader" CPtr;
  fld "ptraced" struct_list_head; fld "ptrace_entry" struct_list_head; fld "thread_pid" CPtr;
  fld "pid_links" (CArray struct_hlist_node 4); fld "thread_group" struct_list_head;
  fld "thread_node" struct_list_head; fld "vfork_done" CPtr; fld "set_child_tid" CPtr;
  fld "clear_child_tid" CPtr; fld "pf_io_worker" CPtr; fld "utime" td_u64; fld "stime" td_u64;
  fld "gtime" td_u64; fld "time_in_state" CPtr; fld "max_state" c_u32;
  fld "prev_cputime" struct_prev_cputime; fld "nvcsw" c_u64; fld "nivcsw" c_u64;
  fld "start_time" td_u64; fld "start_boottime" td_u64; fld "min_flt" c_u64;
  fld "maj_flt" c_u64; fld "posix_cputimers" struct_posix_cputimers; fld "ptracer_cred" CPtr;
  fld "real_cred" CPtr; fld "cred" CPtr; fld "cached_requested_key" CPtr;
  fld "comm" (CArray c_s8 16); fld "nameidata" CPtr; fld "last_switch_count" c_u64;
  fld "last_switch_time" c_u64; fld "fs" CPtr; fld "files" CPtr; fld "io_uring" CPtr;
  fld "nsproxy" CPtr; fld "signal" CPtr; fld "sighand" CPtr; fld "blocked" td_sigset_t;
  fld "real_blocked" td_sigset_t; fld "saved_sigmask" td_sigset_t;
  fld "pending" struct_sigpending; fld "sas_ss_sp" c_u64; fld "sas_ss_size" td_size_t;
  fld "sas_ss_flags" c_u32; fld "task_works" CPtr; fld "audit_context" CPtr;
  fld "loginuid" td_kuid_t; fld "sessionid" c_u32; fld "seccomp" struct_seccomp;
  fld "syscall_dispatch" struct_syscall_user_dispatch; fld "parent_exec_id" td_u64;
  fld "self_exec_id" td_u64; fld "alloc_lock" td_spinlock_t; fld "pi_lock" td_raw_spinlock_t;
  fld "wake_q" struct_wake_q_node; fld "wake_q_count" c_s32;
  fld "pi_waiters" struct_rb_root_cached; fld "pi_top_task" CPtr; fld "pi_blocked_on" CPtr;
  fld "journal_info" CPtr; fld "bio_list" CPtr; fld "plug" CPtr; fld "reclaim_state" CPtr;
  fld "backing_dev_info" CPtr; fld "io_context" CPtr; fld "capture_control" CPtr;
  fld "ptrace_message" c_u64; fld "last_siginfo" CPtr; fld "ioac" struct_task_io_accounting;
  fld "psi_flags" c_u32; fld "acct_rss_mem1" td_u64; fld "acct_vm_mem1" td_u64;
  fld "acct_timexpd" td_u64; fld "mems_allowed" td_nodemask_t;
  fld "mems_allowed_seq" td_seqcount_spinlock_t; fld "cpuset_mem_spread_rotor" c_s32;
  fld "cpuset_slab_spread_rotor" c_s32; fld "cgroups" CPtr; fld "cg_list" struct_list_head;
  fld "robust_list" CPtr; fld "compat_robust_list" CPtr; fld "pi_state_list" struct_list_head;
  fld "pi_state_cache" CPtr; fld "futex_exit_mutex" struct_mutex; fld "futex_state" c_u32;
  fld "perf_event_ctxp" (CArray CPtr 2); fld "perf_event_mutex" struct_mutex;
  fld "perf_event_list" struct_list_head; fld "tlb_ubc" struct_tlbflush_unmap_batch; anon
  (CUnion [fld "rcu_users" td_refcount_t; fld "rcu" struct_callback_head]);
  fld "splice_pipe" CPtr; fld "task_frag" struct_page_frag; fld "nr_dirtied" c_s32;
  fld "nr_dirtied_pause" c_s32; fld "dirty_paused_when" c_u64; fld "timer_slack_ns" td_u64;
  fld "default_timer_slack_ns" td_u64; fld "kunit_test" CPtr; fld "trace" c_u64;
  fld "trace_recursion" c_u64; fld "memcg_in_oom" CPtr; fld "memcg_oom_gfp_mask" td_gfp_t;
  fld "memcg_oom_order" c_s32; fld "memcg_nr_pages_over_high" c_u32; fld "active_memcg" CPtr;
  fld "throttle_queue" CPtr; fld "utask" CPtr; fld "kmap_ctrl" struct_kmap_ctrl;
  fld "pagefault_disabled" c_s32; fld "oom_reaper_list" CPtr;
  fld "oom_reaper_timer" struct_timer_list; fld "stack_vm_area" CPtr;
  fld "stack_refcount" td_refcount_t; fld "security" CPtr; fld "bpf_storage" CPtr;
  fld "bpf_ctx" CPtr; fld "android_vendor_data1" (CArray td_u64 64);
  fld "android_oem_data1" (CArray td_u64 6); fld "kretprobe_instances" struct_llist_head;
  fld "android_kabi_reserved1" td_u64; fld "android_kabi_reserved2" td_u64;
  fld "android_kabi_reserved3" td_u64; fld "android_kabi_reserved4" td_u64;
  fld "android_kabi_reserved5" td_u64; fld "android_kabi_reserved6" td_u64;
  fld "android_kabi_reserved7" td_u64; fld "android_kabi_reserved8" td_u64; pad_bits c_s64 64;
  fld "thread" struct_thread_struct ].

Abbreviation struct_task_struct := (CStruct (task_struct_members_1 ++ task_struct_members_2)) (only parsing).

Abbreviation td___kernel_gid32_t := c_u32 (only parsing).

Abbreviation td_gid_t := td___kernel_gid32_t (only parsing).

Abbreviation td_kgid_t := (CStruct [fld "val" td_gid_t]) (only parsing).

Abbreviation struct_kernel_cap_struct := (CStruct [fld "cap" (CArray td___u32 2)]) (only parsing).

Abbreviation td_kernel_cap_t := struct_kernel_cap_struct (only parsing).

Definition struct_cred : ctype :=
  CStruct [fld "usage" td_atomic_t; fld "uid" td_kuid_t; fld "gid" td_kgid_t;
  fld "suid" td_kuid_t; fld "sgid" td_kgid_t; fld "euid" td_kuid_t; fld "egid" td_kgid_t;
  fld "fsuid" td_kuid_t; fld "fsgid" td_kgid_t; fld "securebits" c_u32;
  fld "cap_inheritable" td_kernel_cap_t; fld "cap_permitted" td_kernel_cap_t;
  fld "cap_effective" td_kernel_cap_t; fld "cap_bset" td_kernel_cap_t;
  fld "cap_ambient" td_kernel_cap_t; fld "jit_keyring" c_u8; fld "session_keyring" CPtr;
  fld "process_keyring" CPtr; fld "thread_keyring" CPtr; fld "request_key_auth" CPtr;
  fld "security" CPtr; fld "user" CPtr; fld "user_ns" CPtr; fld "ucounts" CPtr;
  fld "group_info" CPtr; anon (CUnion [fld "non_rcu" c_s32; fld "rcu" struct_callback_head])].

Abbreviation struct_user_pt_regs := (CStruct [fld "regs" (CArray td___u64 31); fld "sp" td___u64; fld "pc" td___u64;
  fld "pstate" td___u64]) (only parsing).

Abbreviation td___s32 := c_s32 (only parsing).

Abbreviation td_s32 := td___s32 (only parsing).

Definition struct_pt_regs : ctype :=
  CStruct [anon (CUnion [fld "user_regs" struct_user_pt_regs; anon (CStruct
  [fld "regs" (CArray td_u64 31); fld "sp" td_u64; fld "pc" td_u64; fld "pstate" td_u64])]);
  fld "orig_x0" td_u64; fld "syscallno" td_s32; fld "unused2" td_u32; fld "sdei_ttbr1" td_u64;
  fld "pmr_save" td_u64; fld "stackframe" (CArray td_u64 2); fld "lockdep_hardirqs" td_u64;
  fld "exit_rcu" td_u64].

Abbreviation struct_bpf_raw_tracepoint_args := (CStruct [fld "args" (CArray td___u64 0)]) (only parsing).

(** ** The CO-RE target described by the dump *)

Definition vmlinux_struct (name : string) : option ctype :=
  if String.eqb name "binder_proc" then Some struct_binder_proc
  else if String.eqb name "binder_thread" then Some struct_binder_thread
  else if String.eqb name "binder_transaction" then Some struct_binder_transaction
  else if String.eqb name "binder_context" then Some struct_binder_context
  else if String.eqb name "binder_transaction_data" then Some struct_binder_transaction_data
  else if String.eqb name "task_struct" then Some struct_task_struct
  else if String.eqb name "cred" then Some struct_cred
  else None.

#[export] Instance VmlinuxTarget : CoreTarget := {
  core_offset name path :=
    match vmlinux_struct name with Some t => offset t path | None => 0 end;
  core_field_exists name f :=
    match vmlinux_struct name with
    | Some t => match find_member t f with Some _ => true | None => false end
    | None => false
    end
}.
