(* ===== verification/BpfCoreQuery.v ===== *)
(** * Queries of the target kernel (daemon/headers/bpf_core_read.h)

    The macros that ask the loader about fields, types and enumerators of the
    running kernel.  What the compiler's built-ins answer is the class
    [CoreBuiltins]; its instance for a kernel known by its types follows the
    comments of the macros, and agrees with the [CoreTarget] the programs are
    proved for. *)

From S2P Require Import Prelude CLayout BpfRuntime Vmlinux.

(** Second arguments of the built-ins *)
Abbreviation BPF_FIELD_BYTE_OFFSET := 0%Z (only parsing).
Abbreviation BPF_FIELD_BYTE_SIZE := 1%Z (only parsing).
Abbreviation BPF_FIELD_EXISTS := 2%Z (only parsing).
Abbreviation BPF_TYPE_ID_LOCAL := 0%Z (only parsing).
Abbreviation BPF_TYPE_ID_TARGET := 1%Z (only parsing).
Abbreviation BPF_TYPE_EXISTS := 0%Z (only parsing).
Abbreviation BPF_TYPE_SIZE := 1%Z (only parsing).
Abbreviation BPF_TYPE_MATCHES := 2%Z (only parsing).
Abbreviation BPF_ENUMVAL_EXISTS := 0%Z (only parsing).
Abbreviation BPF_ENUMVAL_VALUE := 1%Z (only parsing).

(** A field: the struct's name and the path to the member *)
Record field_designator := Designator { fd_struct : string; fd_path : list string }.

(** The two forms of the argument: an access through a variable, whose type
    the compiler knows, or a type and a field *)
Inductive field_arg :=
  | FieldAccess (var_type : string) (path : list string)
  | FieldOfType (type field : string).

Class CoreBuiltins := {
  builtin_preserve_field_info : field_designator -> Z -> Z;
  builtin_btf_type_id : string -> Z -> Z;
  builtin_preserve_type_info : string -> Z -> Z;
  builtin_preserve_enum_value : string -> string -> Z -> Z }.

(** ___bpf_typeof and ___bpf_field_ref: the built-in sees the field through a
    null pointer of the type, or, with GCC, its address through an extern one *)
Definition bpf_field_ref (arg : field_arg) : field_designator :=
  match arg with
  | FieldAccess t path => Designator t path
  | FieldOfType t f => Designator t [f]
  end.

Inductive core_macro :=
  | bpf_core_field_exists (f : field_arg) | bpf_core_field_size (f : field_arg) | bpf_core_field_offset (f : field_arg)
  | bpf_core_type_id_local (t : string) | bpf_core_type_id_kernel (t : string)
  | bpf_core_type_exists (t : string) | bpf_core_type_matches (t : string) | bpf_core_type_size (t : string)
  | bpf_core_enum_value_exists (t v : string) | bpf_core_enum_value (t v : string).

Definition core_query `{CoreBuiltins} (m : core_macro) : Z :=
  match m with
  | bpf_core_field_exists f => builtin_preserve_field_info (bpf_field_ref f) BPF_FIELD_EXISTS
  | bpf_core_field_size f => builtin_preserve_field_info (bpf_field_ref f) BPF_FIELD_BYTE_SIZE
  | bpf_core_field_offset f => builtin_preserve_field_info (bpf_field_ref f) BPF_FIELD_BYTE_OFFSET
  | bpf_core_type_id_local t => builtin_btf_type_id t BPF_TYPE_ID_LOCAL
  | bpf_core_type_id_kernel t => builtin_btf_type_id t BPF_TYPE_ID_TARGET
  | bpf_core_type_exists t => builtin_preserve_type_info t BPF_TYPE_EXISTS
  | bpf_core_type_matches t => builtin_preserve_type_info t BPF_TYPE_MATCHES
  | bpf_core_type_size t => builtin_preserve_type_info t BPF_TYPE_SIZE
  | bpf_core_enum_value_exists t v => builtin_preserve_enum_value t v BPF_ENUMVAL_EXISTS
  | bpf_core_enum_value t v => builtin_preserve_enum_value t v BPF_ENUMVAL_VALUE
  end.

(** ** A kernel known by its types *)

Section Target.
Context (types : string -> option ctype) (enums : string -> string -> option Z).
Context (local_id target_id : string -> Z).

(** What the comments of the macros promise: 1 or 0 for existence, sizes and
    offsets in bytes, 0 for what is not there *)
Definition target_builtins : CoreBuiltins := {|
  builtin_preserve_field_info d kind :=
    match t ← types (fd_struct d); offset_of t (fd_path d) with
    | Some (off, t) =>
        if kind =? BPF_FIELD_EXISTS then 1 else if kind =? BPF_FIELD_BYTE_SIZE then csize t
        else if kind =? BPF_FIELD_BYTE_OFFSET then off else 0
    | None => 0
    end;
  builtin_btf_type_id t kind := if kind =? BPF_TYPE_ID_LOCAL then local_id t else target_id t;
  builtin_preserve_type_info t kind :=
    match types t with Some t => if kind =? BPF_TYPE_SIZE then csize t else 1 | None => 0 end;
  builtin_preserve_enum_value t v kind :=
    match enums t v with Some n => if kind =? BPF_ENUMVAL_EXISTS then 1 else n | None => 0 end |}.
End Target.

Definition vmlinux_builtins : CoreBuiltins := target_builtins vmlinux_struct (λ _ _, None) (λ _, 0) (λ _, 0).

(** Both forms of a field argument, and the offsets and existence tests of the
    programs' [CoreTarget], are answers to these queries. *)
Theorem vmlinux_queries_agree t f :
  core_query (H := vmlinux_builtins) (bpf_core_field_exists (FieldOfType t f)) =
    core_query (H := vmlinux_builtins) (bpf_core_field_exists (FieldAccess t [f])) /\
  (forall path, core_query (H := vmlinux_builtins) (bpf_core_field_exists (FieldAccess t path)) = 1 ->
     core_query (H := vmlinux_builtins) (bpf_core_field_offset (FieldAccess t path)) = core_offset t path) /\
  (core_field_exists t f = true ->
   core_query (H := vmlinux_builtins) (bpf_core_type_exists t) = 1).
Proof.
  split; [done|]. split.
  - intros path. cbn -[offset_of vmlinux_struct]. unfold offset. destruct (vmlinux_struct t) as [c|]; [|done].
    cbn [mbind option_bind]. by destruct (offset_of c path) as [[o ?]|].
  - cbn -[vmlinux_struct find_member]. by destruct (vmlinux_struct t).
Qed.
