(* ===== verification/CommonHeaders.v ===== *)
(** * The small headers (daemon/headers/common.h, binder_transaction_data.h)

    common.h is a compact stand-in for vmlinux.h and
    binder_transaction_data.h a copy of the binder driver's structure; the
    parts of vmlinux.h they repeat are here beside them. *)

From S2P Require Import Prelude CLayout Records Vmlinux.

(** ** The parts of vmlinux.h *)

Definition vmlinux_bpf_map_type : list (string * Z) := [
  ("BPF_MAP_TYPE_UNSPEC", 0); ("BPF_MAP_TYPE_HASH", 1); ("BPF_MAP_TYPE_ARRAY", 2);
  ("BPF_MAP_TYPE_PROG_ARRAY", 3); ("BPF_MAP_TYPE_PERF_EVENT_ARRAY", 4);
  ("BPF_MAP_TYPE_PERCPU_HASH", 5); ("BPF_MAP_TYPE_PERCPU_ARRAY", 6); ("BPF_MAP_TYPE_STACK_TRACE", 7);
  ("BPF_MAP_TYPE_CGROUP_ARRAY", 8); ("BPF_MAP_TYPE_LRU_HASH", 9); ("BPF_MAP_TYPE_LRU_PERCPU_HASH", 10);
  ("BPF_MAP_TYPE_LPM_TRIE", 11); ("BPF_MAP_TYPE_ARRAY_OF_MAPS", 12); ("BPF_MAP_TYPE_HASH_OF_MAPS", 13);
  ("BPF_MAP_TYPE_DEVMAP", 14); ("BPF_MAP_TYPE_SOCKMAP", 15); ("BPF_MAP_TYPE_CPUMAP", 16);
  ("BPF_MAP_TYPE_XSKMAP", 17); ("BPF_MAP_TYPE_SOCKHASH", 18); ("BPF_MAP_TYPE_CGROUP_STORAGE", 19);
  ("BPF_MAP_TYPE_REUSEPORT_SOCKARRAY", 20); ("BPF_MAP_TYPE_PERCPU_CGROUP_STORAGE", 21);
  ("BPF_MAP_TYPE_QUEUE", 22); ("BPF_MAP_TYPE_STACK", 23); ("BPF_MAP_TYPE_SK_STORAGE", 24);
  ("BPF_MAP_TYPE_DEVMAP_HASH", 25); ("BPF_MAP_TYPE_STRUCT_OPS", 26); ("BPF_MAP_TYPE_RINGBUF", 27);
  ("BPF_MAP_TYPE_INODE_STORAGE", 28); ("BPF_MAP_TYPE_TASK_STORAGE", 29)].

Abbreviation vmlinux_xdp_action := ([
  ("XDP_ABORTED", 0); ("XDP_DROP", 1); ("XDP_PASS", 2); ("XDP_TX", 3); ("XDP_REDIRECT", 4)]) (only parsing).

Abbreviation vmlinux_update_flags := ([
  ("BPF_ANY", 0); ("BPF_NOEXIST", 1); ("BPF_EXIST", 2); ("BPF_F_LOCK", 4)]) (only parsing).

Abbreviation td___be16 := td___u16 (only parsing).
Abbreviation td___be32 := td___u32 (only parsing).
Abbreviation td___sum16 := td___u16 (only parsing).

Abbreviation struct_xdp_md := (CStruct [fld "data" td___u32; fld "data_end" td___u32; fld "data_meta" td___u32;
           fld "ingress_ifindex" td___u32; fld "rx_queue_index" td___u32; fld "egress_ifindex" td___u32]) (only parsing).

Abbreviation struct_ethhdr := (CStruct [fld "h_dest" (CArray c_u8 6); fld "h_source" (CArray c_u8 6); fld "h_proto" td___be16]) (only parsing).

Abbreviation struct_iphdr := (CStruct [bits "ihl" td___u8 4; bits "version" td___u8 4; fld "tos" td___u8; fld "tot_len" td___be16;
           fld "id" td___be16; fld "frag_off" td___be16; fld "ttl" td___u8; fld "protocol" td___u8;
           fld "check" td___sum16; fld "saddr" td___be32; fld "daddr" td___be32]) (only parsing).

(** ** common.h *)

Module Common.

Abbreviation u8_t := c_u8 (only parsing).
Abbreviation s16_t := c_s16 (only parsing).
Abbreviation u16_t := c_u16 (only parsing).
Abbreviation s32_t := c_s32 (only parsing).
Abbreviation u32_t := c_u32 (only parsing).
Abbreviation s64_t := c_s64 (only parsing).
Abbreviation u64_t := c_u64 (only parsing).
Abbreviation be16_t := u16_t (only parsing).
Abbreviation be32_t := u32_t (only parsing).
Abbreviation sum16_t := u16_t (only parsing).

Definition bpf_map_type : list (string * Z) := [
  ("BPF_MAP_TYPE_UNSPEC", 0); ("BPF_MAP_TYPE_HASH", 1); ("BPF_MAP_TYPE_ARRAY", 2);
  ("BPF_MAP_TYPE_PROG_ARRAY", 3); ("BPF_MAP_TYPE_PERF_EVENT_ARRAY", 4);
  ("BPF_MAP_TYPE_PERCPU_HASH", 5); ("BPF_MAP_TYPE_PERCPU_ARRAY", 6); ("BPF_MAP_TYPE_STACK_TRACE", 7);
  ("BPF_MAP_TYPE_CGROUP_ARRAY", 8); ("BPF_MAP_TYPE_LRU_HASH", 9); ("BPF_MAP_TYPE_LRU_PERCPU_HASH", 10);
  ("BPF_MAP_TYPE_LPM_TRIE", 11); ("BPF_MAP_TYPE_ARRAY_OF_MAPS", 12); ("BPF_MAP_TYPE_HASH_OF_MAPS", 13);
  ("BPF_MAP_TYPE_DEVMAP", 14); ("BPF_MAP_TYPE_SOCKMAP", 15); ("BPF_MAP_TYPE_CPUMAP", 16);
  ("BPF_MAP_TYPE_XSKMAP", 17); ("BPF_MAP_TYPE_SOCKHASH", 18); ("BPF_MAP_TYPE_CGROUP_STORAGE", 19);
  ("BPF_MAP_TYPE_REUSEPORT_SOCKARRAY", 20); ("BPF_MAP_TYPE_PERCPU_CGROUP_STORAGE", 21);
  ("BPF_MAP_TYPE_QUEUE", 22); ("BPF_MAP_TYPE_STACK", 23); ("BPF_MAP_TYPE_SK_STORAGE", 24);
  ("BPF_MAP_TYPE_DEVMAP_HASH", 25); ("BPF_MAP_TYPE_STRUCT_OPS", 26); ("BPF_MAP_TYPE_RINGBUF", 27);
  ("BPF_MAP_TYPE_INODE_STORAGE", 28)].

Abbreviation xdp_action := ([
  ("XDP_ABORTED", 0); ("XDP_DROP", 1); ("XDP_PASS", 2); ("XDP_TX", 3); ("XDP_REDIRECT", 4)]) (only parsing).

Abbreviation xdp_md := (CStruct [fld "data" u32_t; fld "data_end" u32_t; fld "data_meta" u32_t;
           fld "ingress_ifindex" u32_t; fld "rx_queue_index" u32_t; fld "egress_ifindex" u32_t]) (only parsing).

Abbreviation ETH_P_IP := (0x0800) (only parsing).

Abbreviation ethhdr := (CStruct [fld "h_dest" (CArray c_u8 6); fld "h_source" (CArray c_u8 6); fld "h_proto" be16_t]) (only parsing).

Abbreviation iphdr := (CStruct [bits "ihl" u8_t 4; bits "version" u8_t 4; fld "tos" u8_t; fld "tot_len" be16_t;
           fld "id" be16_t; fld "frag_off" be16_t; fld "ttl" u8_t; fld "protocol" u8_t;
           fld "check" sum16_t; fld "saddr" be32_t; fld "daddr" be32_t]) (only parsing).

Abbreviation update_flags := ([
  ("BPF_ANY", 0); ("BPF_NOEXIST", 1); ("BPF_EXIST", 2); ("BPF_F_LOCK", 4)]) (only parsing).

Abbreviation BPF_F_INDEX_MASK := (0xffffffff) (only parsing).
Abbreviation BPF_F_CURRENT_CPU := (BPF_F_INDEX_MASK) (only parsing).

(** struct pt_regs of x86 *)
Definition x86_pt_regs : ctype :=
  CStruct ((λ r, fld r c_u64) <$>
    ["r15"; "r14"; "r13"; "r12"; "rbp"; "rbx"; "r11"; "r10"; "r9"; "r8"; "rax"; "rcx"; "rdx"; "rsi"; "rdi";
     "orig_rax"; "rip"; "cs"; "eflags"; "rsp"; "ss"]).

End Common.

(** ** binder_transaction_data.h *)

Module BinderData.

Abbreviation kernel_pid_t := c_s32 (only parsing).
Abbreviation kernel_uid32_t := c_u32 (only parsing).
Abbreviation binder_uintptr_t := c_u64 (only parsing).
Abbreviation binder_size_t := c_u64 (only parsing).

Definition binder_transaction_data : ctype :=
  CStruct [fld "target" (CUnion [fld "handle" c_u32; fld "ptr" binder_uintptr_t]);
           fld "cookie" binder_uintptr_t; fld "code" c_u32; fld "flags" c_u32;
           fld "sender_pid" kernel_pid_t; fld "sender_euid" kernel_uid32_t;
           fld "data_size" binder_size_t; fld "offsets_size" binder_size_t;
           fld "data" (CUnion [fld "ptr" (CStruct [fld "buffer" binder_uintptr_t;
                                                   fld "offsets" binder_uintptr_t]);
                               fld "buf" (CArray c_u8 8)])].

End BinderData.

(** ** Lookups *)

Definition enum_val (e : list (string * Z)) (name : string) : option Z :=
  snd <$> find (λ x, (x.1 =? name)%string) e.

(** Every enumerator of [e] is in [e'] with the same value. *)
Definition enum_sub (e e' : list (string * Z)) : bool :=
  forallb (λ x, bool_decide (enum_val e' x.1 = Some x.2)) e.

Lemma enum_sub_spec e e' name z :
  enum_sub e e' = true -> (name, z) ∈ e -> enum_val e' name = Some z.
Proof.
  unfold enum_sub. rewrite forallb_forall. intros H Hin%list_elem_of_In.
  specialize (H _ Hin). by apply bool_decide_eq_true in H.
Qed.

Definition map_kind_name (k : bpf_map_kind) : string :=
  match k with
  | MAP_HASH => "BPF_MAP_TYPE_HASH"
  | MAP_LRU_HASH => "BPF_MAP_TYPE_LRU_HASH"
  | MAP_PERCPU_ARRAY => "BPF_MAP_TYPE_PERCPU_ARRAY"
  | MAP_RINGBUF => "BPF_MAP_TYPE_RINGBUF"
  end.

(** ** Properties *)

(** The compact headers agree with the kernel's: every map type, XDP
    action and update flag of common.h has the value vmlinux.h gives it, the
    structures of common.h and struct binder_transaction_data have the layout
    they have in vmlinux.h, and the four map types the programs declare are
    enumerators of both. *)
Theorem compact_headers_agree :
  (forall name z, (name, z) ∈ Common.bpf_map_type -> enum_val vmlinux_bpf_map_type name = Some z) /\
  (forall name z, (name, z) ∈ Common.xdp_action -> enum_val vmlinux_xdp_action name = Some z) /\
  (forall name z, (name, z) ∈ Common.update_flags -> enum_val vmlinux_update_flags name = Some z) /\
  Common.xdp_md = struct_xdp_md /\ Common.ethhdr = struct_ethhdr /\ Common.iphdr = struct_iphdr /\
  BinderData.binder_transaction_data = struct_binder_transaction_data /\
  (forall k, exists z, enum_val Common.bpf_map_type (map_kind_name k) = Some z /\
     enum_val vmlinux_bpf_map_type (map_kind_name k) = Some z).
Proof.
  split_and!; try reflexivity.
  1-3: intros name z; apply enum_sub_spec; vm_compute; reflexivity.
  intros []; eexists; split; vm_compute; reflexivity.
Qed.
