(* ===== verification/SimKernel.v ===== *)
(** * A concrete kernel

    An executable instance of [BpfKernel] and of one probe invocation, which
    meets [BpfKernelLaws] and [ctx_ok]: LRU maps as association lists with
    the most recently written entry first, a ring buffer with a byte budget,
    a counting clock, and probe reads from byte memories.  It shows that the
    laws can hold together, and it is what concrete runs are evaluated on. *)

From S2P Require Import Prelude CLayout Records BpfRuntime Vmlinux.

(** ** Maps, ring, clock *)

Definition sim_lookup (m : list (Z * Z)) (k : Z) : option Z :=
  snd <$> find (λ kv, kv.1 =? k) m.

Definition sim_delete (m : list (Z * Z)) (k : Z) : list (Z * Z) :=
  List.filter (λ kv, negb (kv.1 =? k)) m.

(** The least recently written entry goes when 4096 are in use. *)
Definition sim_update (m : list (Z * Z)) (k v : Z) : list (Z * Z) :=
  (k, v) :: take 4095 (sim_delete m k).

Record sim_ring := SimRing { sim_free : Z; sim_records : list (list Z) }.

(** A record takes an 8-byte header and its size rounded up to 8. *)
Definition sim_reserve (r : sim_ring) (n : Z) : option (list Z) * sim_ring :=
  let need := 8 + align_up n 8 in
  if need <=? sim_free r
  then (Some (replicate (Z.to_nat n) 0xAA), SimRing (sim_free r - need) (sim_records r))
  else (None, r).

#[export] Instance SimKernel : BpfKernel := {
  hmap := list (Z * Z);
  map_lookup := sim_lookup;
  map_update := sim_update;
  map_delete := sim_delete;
  percpu := Z -> Z -> option Z;
  percpu_lookup p c s := p c s;
  percpu_store p c s v := λ c' s', if (c' =? c) && (s' =? s) then Some v else p c' s';
  ring := sim_ring;
  ringbuf_reserve := sim_reserve;
  ringbuf_submit r b := SimRing (sim_free r) (sim_records r ++ [b]);
  ring_records := sim_records;
  clock := Z;
  ktime_get_ns t := (u64 t, t + 1)
}.

Lemma sim_lookup_delete m k k' :
  sim_lookup (sim_delete m k) k' = if k' =? k then None else sim_lookup m k'.
Proof.
  unfold sim_lookup, sim_delete. induction m as [|[a v] m IH]; cbn; [by case_match|].
  destruct (Z.eqb_spec a k); cbn.
  - rewrite IH. bdestr; [done|]. destruct (Z.eqb_spec a k'); [lia|done].
  - destruct (Z.eqb_spec a k'); cbn; [bdestr; [lia|done]|done].
Qed.

Lemma sim_lookup_take n m k :
  sim_lookup (take n m) k = sim_lookup m k \/ sim_lookup (take n m) k = None.
Proof.
  unfold sim_lookup. revert n. induction m as [|[a v] m IH]; intros [|n]; cbn; auto.
  destruct (Z.eqb_spec a k); cbn; auto.
Qed.

#[export] Instance SimKernelLaws : BpfKernelLaws (K := SimKernel).
Proof.
  split.
  - intros m k v. cbn. unfold sim_lookup, sim_update. cbn. by rewrite Z.eqb_refl.
  - intros m k v k' Hk. cbn [map_lookup map_update SimKernel].
    assert (sim_lookup (sim_update m k v) k' = sim_lookup (take 4095 (sim_delete m k)) k') as ->.
    { unfold sim_update, sim_lookup. cbn. destruct (Z.eqb_spec k k'); [lia|done]. }
    destruct (sim_lookup_take 4095 (sim_delete m k) k') as [-> | ->]; [|auto].
    rewrite sim_lookup_delete. destruct (Z.eqb_spec k' k); auto.
  - intros m k. cbn [map_lookup map_delete SimKernel]. rewrite sim_lookup_delete. by rewrite Z.eqb_refl.
  - intros m k k' Hk. cbn [map_lookup map_delete SimKernel]. rewrite sim_lookup_delete. destruct (Z.eqb_spec k' k); [lia|done].
  - intros p c s v w _. cbn. by rewrite !Z.eqb_refl.
  - intros p c s v c' s' Hne. cbn.
    destruct (Z.eqb_spec c' c), (Z.eqb_spec s' s); cbn; congruence.
  - intros r n buf r' Hn. cbn. unfold sim_reserve. case_match; [|done].
    intros [= <- <-]. rewrite length_replicate. lia.
  - intros r n. cbn. unfold sim_reserve. by case_match.
  - done.
  - intros c. cbn. auto with btrace.
Qed.

(** ** A probe invocation over byte memories *)

(** [mem_of ws]: the memory that holds the 64-bit words [ws], 0 elsewhere. *)
Fixpoint mem_of (ws : list (Z * Z)) (a : Z) : Z :=
  match ws with
  | [] => 0
  | (b, w) :: ws =>
      if (b <=? a) && (a <? b + 8) then wrap 8 (Z.shiftr w (8 * (a - b))) else mem_of ws a
  end.

Definition sim_uread (m : Z -> Z) (a : Z) (n : nat) (dst : list Z) : list Z :=
  mem_bytes m a (Nat.min n (length dst)) ++ drop n dst.

(** The user stack is not unwindable: -EFAULT, buffer untouched. *)
Definition sim_get_stack (dst : list Z) : Z * list Z := (-14, dst).

Definition sim_ctx (regs args : list Z) (tgid pid gid uid cpu : Z)
    (kmem : list (Z * Z)) (umem : Z -> Z) : probe_ctx :=
  ProbeCtx (u64 <$> regs) args (u32 tgid) (u32 pid) (u32 gid) (u32 uid) (u32 cpu)
    (mem_bytes (mem_of kmem)) (sim_uread umem) sim_get_stack.

Lemma mem_of_byte ws a : 0 <= mem_of ws a < 256.
Proof.
  induction ws as [|[b w] ws IH]; cbn; [lia|]. case_match; [|done].
  by apply (wrap_fits 8).
Qed.

Lemma sim_ctx_ok regs args tgid pid gid uid cpu kmem umem :
  ctx_ok (sim_ctx regs args tgid pid gid uid cpu kmem umem).
Proof.
  split; cbn; unfold u32; auto with btrace.
  - apply list.Forall_fmap, list.Forall_forall. intros x _. apply wrap_fits. lia.
  - intros a n. apply length_mem_bytes.
  - intros a n. unfold mem_bytes, is_bytes. apply list.Forall_fmap, list.Forall_forall.
    intros x _. apply mem_of_byte.
  - intros a n dst. unfold sim_uread. rewrite length_app, length_mem_bytes, length_drop. lia.
  - intros a n dst. unfold sim_uread. rewrite drop_app, length_mem_bytes, drop_drop.
    destruct (Nat.le_gt_cases n (length dst)).
    + rewrite drop_ge by (rewrite length_mem_bytes; lia). cbn. f_equal. lia.
    + rewrite (drop_ge (mem_bytes _ _ _)) by (rewrite length_mem_bytes; lia).
      rewrite !drop_ge by lia. done.
Qed.

(** ** A freshly loaded set of maps, filtering on [conf_uid] *)

Definition sim_state (conf_uid t : Z) : bpf_state :=
  BpfState _ [(0, conf_uid)] [] [] (λ c s, if (0 <=? s) && (s <? RB_OVF_SLOT_COUNT) then Some 0 else None)
    (SimRing (map_max_entries trace_event_map_decl) []) t.

(** The call binder_transaction(proc, thread, tr, reply) made by thread
    [pid] of process [tgid]: [tr] describes a parcel of [size] bytes at
    [buffer], with transaction code 7 and flags [flags]; [kmem] is the rest of
    kernel memory. *)
Definition sim_transaction (flags reply size buffer gid pid : Z) (kmem : list (Z * Z)) : probe_ctx :=
  let tr := 0xffffff8000001000 in
  sim_ctx [0xffffff8000002000; 0xffffff8000003000; tr; reply]
    [] 1200 pid gid 10123 3
    ([(tr + offset struct_binder_transaction_data ["code"], 7 + flags * 2 ^ 32);
      (tr + offset struct_binder_transaction_data ["data_size"], size);
      (tr + offset struct_binder_transaction_data ["data"], buffer)] ++ kmem) (λ a, wrap 8 (a * 7)).

Definition sim_call (reply size buffer gid pid : Z) : probe_ctx :=
  sim_transaction 0 reply size buffer gid pid [].

(** The same call for a reply to the transaction with debug id 77 that uid
    10123 sent. *)
Definition sim_reply (size buffer gid pid : Z) : probe_ctx :=
  let thread := 0xffffff8000003000 in
  let t := 0xffffff8000004000 in
  sim_transaction 0 1 size buffer gid pid
    [(thread + offset struct_binder_thread ["transaction_stack"], t);
     (t + offset struct_binder_transaction ["debug_id"], 77);
     (t + offset struct_binder_transaction ["sender_euid"; "val"], 10123)].

(** The tracepoint trace_binder_transaction(reply, t, node) on that thread,
    where t->debug_id is 77 and t->to_proc->tsk->pid is 1500. *)
Definition sim_tracepoint (reply gid pid : Z) : probe_ctx :=
  let t := 0xffffff8000004000 in
  let proc := 0xffffff8000005000 in
  let tsk := 0xffffff8000006000 in
  let cred := 0xffffff8000007000 in
  sim_ctx [] [reply; t; 0] 1200 pid gid 10123 3
    [(t + offset struct_binder_transaction ["debug_id"], 77);
     (t + offset struct_binder_transaction ["to_proc"], proc);
     (proc + offset struct_binder_proc ["tsk"], tsk);
     (proc + offset struct_binder_proc ["cred"], cred);
     (tsk + offset struct_task_struct ["pid"], 1500);
     (cred + offset struct_cred ["euid"; "val"], 1000)] (λ _, 0).
