(* ===== verification/BpfCoreRead.v ===== *)
(** * Relocatable reads (daemon/headers/bpf_core_read.h)

    [BPF_CORE_READ(src, a, b, ..., z)] expands to a sequence of
    bpf_probe_read_kernel calls that chase one pointer per accessor and read
    the last member; each address is the previous pointer plus the relocated
    offset of the accessor. *)

From S2P Require Import Prelude CLayout Records BpfRuntime.

(** ___read: read_fn(dst, sizeof( *dst), &((src_type)(src))->accessor) *)
Abbreviation core_read1 c size src off := (kread c (u64 (src + off)) size) (only parsing).

(** ___read_ptrs: "recursively" read a sequence of inner pointers. *)
Definition core_read_ptrs (c : probe_ctx) (src : Z) (offs : list Z) : Z :=
  foldl (λ p off, le_val (core_read1 c 8 p off)) src offs.

(** ___core_read: the inner pointers, then the last accessor. *)
Definition core_read (c : probe_ctx) (size : nat) (src : Z) (offs : list Z) (last : Z) : list Z :=
  core_read1 c size (core_read_ptrs c src offs) last.

(** BPF_CORE_READ of an unsigned integer member. *)
Definition BPF_CORE_READ (c : probe_ctx) (size : nat) (src : Z) (offs : list Z) (last : Z) : Z :=
  le_val (core_read c size src offs last).
