(* ===== verification/BpfCoreMacros.v ===== *)
(** * The variadic read macros (daemon/headers/bpf_core_read.h)

    BPF_CORE_READ and its variants are families of numbered macros selected
    by counting arguments. Their expansion is a list of read calls; [expand]
    follows the macros, and executing its result is the pointer chase that
    [BpfCoreRead.core_read] describes. *)

From S2P Require Import Prelude CLayout Records BpfRuntime BpfCoreRead.

(** ** Counting arguments *)

(** A macro argument, a number or the letter N pasted by ___nth. *)
Inductive token := Arg (z : Z) | Num (n : nat) | N_.

(** ___nth: its twelfth argument *)
Abbreviation nth_ args := (args !! 11%nat) (only parsing).

Definition narg (args : list token) : option nat :=
  match nth_ (Num 0 :: args ++ (Num <$> [10; 9; 8; 7; 6; 5; 4; 3; 2; 1; 0]%nat)) with
  | Some (Num n) => Some n
  | _ => None
  end.

(** ___empty: 0 or N *)
Abbreviation empty_ args := (nth_ (Num 0 :: args ++ replicate 10 N_ ++ [Num 0])) (only parsing).

(** ___last1 to ___last10, ___nolast2 to ___nolast10: defined for exactly as
    many arguments as their number says. *)
Definition last_ (args : list token) : option token :=
  n ← narg args;
  if bool_decide (length args = n /\ (1 <= n <= 10)%nat) then args !! (n - 1)%nat else None.

Definition nolast (args : list token) : option (list token) :=
  n ← narg args;
  if bool_decide (length args = n /\ (2 <= n <= 10)%nat) then Some (take (n - 1) args) else None.

(** ___arrow1 to ___arrow10: the member chain whose type the macro takes. *)
Definition arrow (args : list token) : option (list token) :=
  n ← narg args;
  if bool_decide (length args = n /\ (1 <= n <= 10)%nat) then Some args else None.

(** ** Reads *)

Inductive read_fn :=
| bpf_core_read | bpf_core_read_user | bpf_core_read_str | bpf_core_read_user_str
| bpf_probe_read_kernel | bpf_probe_read_user | bpf_probe_read_kernel_str | bpf_probe_read_user_str.

(** ___read(fn, dst, src_type, src, accessor): from the source expression or
    from __t, into dst or into __t. *)
Inductive source := FromSrc (a : Z) | FromT.
Record read_call := ReadCall { rc_fn : read_fn; rc_to_t : bool; rc_src : source; rc_accessor : Z }.

Definition arg_val (t : token) : option Z := match t with Arg z => Some z | _ => None end.

(** ___rd_first, ___rd_last *)
Abbreviation rd_first fn args := (match args with
  | [Arg src; Arg a] => Some [ReadCall fn true (FromSrc src) a]
  | _ => None
  end) (only parsing).

Definition rd_last (fn : read_fn) (args : list token) : option (list read_call) :=
  _ ← (t ← nolast args; arrow t); x ← last_ args; a ← arg_val x;
  Some [ReadCall fn true FromT a].

(** ___rd_p1 to ___rd_p9 *)
Fixpoint rd_p (n : nat) (fn : read_fn) (args : list token) : option (list read_call) :=
  match n with
  | O => None
  | 1%nat => rd_first fn args
  | S n => args' ← nolast args; l ← rd_p n fn args'; r ← rd_last fn args; Some (l ++ r)
  end.

Abbreviation read_ptrs fn src accessors := (n ← narg accessors;
  if (n <=? 9)%nat then rd_p n fn (Arg src :: accessors) else None) (only parsing).

(** ___core_read0, ___core_readN *)
Abbreviation core_read0 fn src args := (match args with [Arg a] => Some [ReadCall fn false (FromSrc src) a] | _ => None end) (only parsing).

Definition core_readN (fn fn_ptr : read_fn) (src : Z) (args : list token) : option (list read_call) :=
  inner ← nolast args;
  l ← read_ptrs fn_ptr src inner;
  _ ← arrow (Arg src :: inner);
  x ← last_ args; a ← arg_val x;
  Some (l ++ [ReadCall fn false FromT a]).

Definition core_read_ (fn fn_ptr : read_fn) (src : Z) (args : list token) : option (list read_call) :=
  match args with
  | [] => None
  | _ :: rest =>
      match empty_ rest with
      | Some (Num 0) => core_read0 fn src args
      | Some N_ => core_readN fn fn_ptr src args
      | _ => None
      end
  end.

(** The read functions of each ..._INTO macro: of the last member, and of the
    pointers on the way. *)
Inductive read_into :=
| BPF_CORE_READ_INTO | BPF_CORE_READ_USER_INTO | BPF_PROBE_READ_INTO | BPF_PROBE_READ_USER_INTO
| BPF_CORE_READ_STR_INTO | BPF_CORE_READ_USER_STR_INTO | BPF_PROBE_READ_STR_INTO
| BPF_PROBE_READ_USER_STR_INTO.

Definition into_fns (m : read_into) : read_fn * read_fn :=
  match m with
  | BPF_CORE_READ_INTO => (bpf_core_read, bpf_core_read)
  | BPF_CORE_READ_USER_INTO => (bpf_core_read_user, bpf_core_read_user)
  | BPF_PROBE_READ_INTO => (bpf_probe_read_kernel, bpf_probe_read_kernel)
  | BPF_PROBE_READ_USER_INTO => (bpf_probe_read_user, bpf_probe_read_user)
  | BPF_CORE_READ_STR_INTO => (bpf_core_read_str, bpf_core_read)
  | BPF_CORE_READ_USER_STR_INTO => (bpf_core_read_user_str, bpf_core_read_user)
  | BPF_PROBE_READ_STR_INTO => (bpf_probe_read_kernel_str, bpf_probe_read_kernel)
  | BPF_PROBE_READ_USER_STR_INTO => (bpf_probe_read_user_str, bpf_probe_read_user)
  end.

Definition expand_into (m : read_into) (src : Z) (accessors : list Z) : option (list read_call) :=
  core_read_ (into_fns m).1 (into_fns m).2 src (Arg <$> accessors).

(** BPF_CORE_READ, BPF_CORE_READ_USER, BPF_PROBE_READ, BPF_PROBE_READ_USER:
    a local of the member's type, and the ..._INTO macro. *)
Definition expand (m : read_into) (src : Z) (accessors : list Z) : option (list read_call) :=
  _ ← arrow (Arg src :: (Arg <$> accessors)); expand_into m src accessors.

(** ** Execution *)

Section Exec.
Context (rd : read_fn -> Z -> nat -> list Z) (size : nat).

(** The calls in order, with __t and dst. *)
Fixpoint exec (calls : list read_call) (t : Z) (dst : list Z) : list Z :=
  match calls with
  | [] => dst
  | rc :: calls =>
      let base := match rc_src rc with FromSrc a => a | FromT => t end in
      let addr := u64 (base + rc_accessor rc) in
      if rc_to_t rc then exec calls (le_val (rd (rc_fn rc) addr 8)) dst
      else exec calls t (rd (rc_fn rc) addr size)
  end.

Definition chase (fn : read_fn) (src : Z) (offs : list Z) : Z :=
  foldl (λ p off, le_val (rd fn (u64 (p + off)) 8)) src offs.

(** ** Lemmas *)

Lemma narg_length args : (length args <= 10)%nat -> narg args = Some (length args).
Proof. intros Hl. do 11 (destruct args as [|? args]; [reflexivity|]). cbn in Hl. lia. Qed.

Lemma narg_too_many (zs : list Z) : (10 < length zs)%nat -> narg (Arg <$> zs) = None.
Proof. intros Hl. do 11 (destruct zs as [|? zs]; [cbn in Hl; lia|]). reflexivity. Qed.

Lemma nolast_snoc l x : (1 <= length l <= 9)%nat -> nolast (l ++ [x]) = Some l.
Proof.
  intros Hl. unfold nolast. rewrite narg_length by (rewrite length_app; cbn; lia).
  cbn [mbind option_bind]. rewrite length_app, bool_decide_eq_true_2 by (cbn; lia). f_equal.
  cbn. by rewrite Nat.add_sub, take_app_length.
Qed.

Lemma last_snoc l x : (length l <= 9)%nat -> last_ (l ++ [x]) = Some x.
Proof.
  intros Hl. unfold last_. rewrite narg_length by (rewrite length_app; cbn; lia).
  cbn [mbind option_bind]. rewrite length_app, bool_decide_eq_true_2 by (cbn; lia).
  cbn. by rewrite Nat.add_sub, lookup_app_r, Nat.sub_diag.
Qed.

Lemma arrow_ok args : (1 <= length args <= 10)%nat -> arrow args = Some args.
Proof.
  intros Hl. unfold arrow. rewrite narg_length by lia. cbn [mbind option_bind].
  by rewrite bool_decide_eq_true_2.
Qed.

Lemma chase_snoc fn src offs a :
  chase fn src (offs ++ [a]) = le_val (rd fn (u64 (chase fn src offs + a)) 8).
Proof. unfold chase. by rewrite foldl_app. Qed.

(** The reads of the inner pointers leave the chased pointer in __t. *)
Lemma rd_p_chases fn src offs :
  (1 <= length offs <= 9)%nat ->
  exists calls, rd_p (length offs) fn (Arg src :: (Arg <$> offs)) = Some calls /\
    forall rest t dst, exec (calls ++ rest) t dst = exec rest (chase fn src offs) dst.
Proof.
  induction offs as [|a offs IH] using rev_ind; intros Hl; [cbn in Hl; lia|].
  rewrite length_app in *. cbn [length] in *. destruct offs as [|b offs].
  { eexists. split; [reflexivity|]. intros. reflexivity. }
  destruct IH as (calls & E & Hex); [cbn in *; lia|]. set (bs := b :: offs) in *.
  rewrite Nat.add_1_r. replace (length bs) with (S (length offs)) in * by done.
  cbn [rd_p]. cbn [rd_p] in E. rewrite fmap_app, app_comm_cons.
  assert (Hb : (1 <= length (Arg src :: (Arg <$> bs)) <= 9)%nat)
    by (cbn [length]; rewrite length_fmap; unfold bs in *; cbn [length] in *; lia).
  change (Arg <$> [a]) with [Arg a]. rewrite nolast_snoc by exact Hb. cbn [mbind option_bind].
  rewrite E. cbn [mbind option_bind]. unfold rd_last.
  rewrite nolast_snoc, last_snoc by (exact Hb || lia). cbn [mbind option_bind].
  rewrite arrow_ok by lia. cbn [mbind option_bind arg_val]. eexists. split; [reflexivity|].
  intros rest t dst. rewrite <- app_assoc, Hex, chase_snoc. reflexivity.
Qed.

Lemma core_read_chases fn fn_ptr src offs a :
  (length offs <= 8)%nat ->
  exists calls, core_read_ fn fn_ptr src (Arg <$> (offs ++ [a])) = Some calls /\
    forall t dst, exec calls t dst = rd fn (u64 (chase fn_ptr src offs + a)) size.
Proof.
  intros Hl. destruct offs as [|b offs].
  { eexists. split; [reflexivity|]. intros. reflexivity. }
  set (bs := b :: offs) in *.
  destruct (rd_p_chases fn_ptr src bs) as (calls & E & Hex); [unfold bs in *; cbn in *; lia|].
  exists (calls ++ [ReadCall fn false FromT a]). split; [|intros t dst; by rewrite Hex].
  assert (Hb : (1 <= length (Arg <$> bs) <= 8)%nat)
    by (rewrite length_fmap; unfold bs in *; cbn in *; lia).
  assert (Hc : core_readN fn fn_ptr src ((Arg <$> bs) ++ [Arg a]) = Some (calls ++ [ReadCall fn false FromT a])).
  { unfold core_readN. rewrite nolast_snoc, last_snoc by lia. cbn [mbind option_bind].
    unfold read_ptrs. rewrite narg_length, length_fmap by lia. cbn [mbind option_bind].
    rewrite length_fmap in Hb. destruct (Nat.leb_spec (length bs) 9); [|lia]. rewrite E.
    cbn [mbind option_bind]. rewrite arrow_ok by (cbn [length]; rewrite length_fmap; lia). reflexivity. }
  rewrite fmap_app. change (Arg <$> [a]) with [Arg a]. unfold core_read_. rewrite Hc. unfold bs.
  cbn [fmap list_fmap app]. do 8 (destruct offs as [|? offs]; [reflexivity|]).
  unfold bs in Hl. cbn in Hl. lia.
Qed.

End Exec.

(** ** Properties *)

(** The read macros chase pointers. With one to nine accessors each
    variant expands, and its calls read one pointer after the other with the
    pointer function and then the last member with the final function,
    whatever __t and the destination hold before; BPF_CORE_READ over kernel
    memory is the [core_read] of the programs. With ten or more accessors the
    macros do not expand. *)
Theorem read_macros_chase rd size m src offs a :
  (length offs <= 8)%nat ->
  (exists calls, expand m src (offs ++ [a]) = Some calls /\
     (forall t dst, exec rd size calls t dst =
        rd (into_fns m).1 (u64 (chase rd (into_fns m).2 src offs + a)) size) /\
     (forall c t dst, exec (λ _, kread c) size calls t dst = core_read c size src offs a)) /\
  forall accessors, (9 < length accessors)%nat -> expand m src accessors = None.
Proof.
  intros Hl. split.
  - unfold expand. rewrite arrow_ok by (cbn; rewrite length_fmap, length_app; cbn; lia).
    cbn [mbind option_bind]. unfold expand_into.
    destruct (core_read_chases rd size (into_fns m).1 (into_fns m).2 src offs a Hl) as (calls & E & Hex).
    exists calls. split; [exact E|]. split; [exact Hex|]. intros c t dst.
    destruct (core_read_chases (λ _, kread c) size (into_fns m).1 (into_fns m).2 src offs a Hl)
      as (calls' & E' & Hex'). rewrite E in E'. injection E' as <-. apply Hex'.
  - intros accs Ha. unfold expand, arrow. change (Arg src :: (Arg <$> accs)) with (Arg <$> (src :: accs)).
    rewrite narg_too_many by (cbn; lia). reflexivity.
Qed.

Lemma read_macros_chase_witness :
  exists calls, expand BPF_CORE_READ_INTO 0x1000 [0x18; 0x20; 8] = Some calls /\
    exec (λ _ a n, le_bytes n (a + 1)) 4 calls 0 [] = le_bytes 4 0x1043.
Proof.
  destruct (read_macros_chase (λ _ a n, le_bytes n (a + 1)) 4 BPF_CORE_READ_INTO 0x1000 [0x18; 0x20] 8)
    as [(calls & E & Hex & _) _]; [cbn; lia|].
  exists calls. split; [exact E|]. rewrite Hex. vm_compute. reflexivity.
Defined.
