(* ===== verification/BpfPrograms.v ===== *)
(** * The three BPF programs

    [kprobe_binder_transaction] (daemon/binder_transaction.byte.c),
    [kprobe_binder_transaction_cookie]
    (daemon/cookie_kprobe_binder_transaction.byte.c) and
    [raw_tp_binder_transaction] (daemon/raw_tp_binder_transaction.byte.c) as
    functions on the shared BPF state.  Every program returns 0, so a program
    is the state it leaves behind.  bpf_printk calls are not modelled: they
    write to the kernel trace log only. *)

From S2P Require Import Prelude CLayout Records BpfRuntime BpfCoreRead.

Abbreviation get_transaction_id s := (read_clock s) (only parsing).

Abbreviation current_pid c := (u32 (Z.shiftr (bpf_get_current_pid_tgid c) 32)) (only parsing).

Abbreviation chunk_size data_size i := (if data_size <? u32 (u32 (i + 1) * CHUNK_SIZE) then u64 (data_size - u32 (i * CHUNK_SIZE))
  else CHUNK_SIZE) (only parsing).

Abbreviation current_uid c := (u32 (Z.shiftr (bpf_get_current_uid_gid c) 32)) (only parsing).

Abbreviation probe_read_size data_size i := (if chunk_size data_size i <? CHUNK_SIZE then u32 (chunk_size data_size i) else CHUNK_SIZE) (only parsing).

Abbreviation PT_REGS_PARM n c := (default 0 (ctx_regs c !! (n - 1)%nat)) (only parsing).

Section Programs.
Context `{K : BpfKernel} `{T : CoreTarget}.

(** PT_REGS_PARM1..5 on arm64 (bpf_tracing.h:212-217): regs[n-1]. *)


Definition inc_overflow (cpu slot : Z) (s : bpf_state) : bpf_state :=
  match percpu_lookup (ringbuf_overflow_map s) cpu slot with
  | Some cnt => with_overflow s (percpu_store (ringbuf_overflow_map s) cpu slot (u64 (cnt + 1)))
  | None => s
  end.

(** bpf_map_lookup_elem(&trace_config_map, &config_key)->uid *)
Definition config_uid (s : bpf_state) : option Z := map_lookup (trace_config_map s) 0.

Definition current_tid (c : probe_ctx) : Z :=
  u32 (Z.land (bpf_get_current_pid_tgid c) 0xFFFFFFFF).

(** (conf->uid != 0) && (conf->uid != effective_uid) *)
Definition filtered_out (conf_uid effective_uid : Z) : bool :=
  negb (conf_uid =? 0) && negb (conf_uid =? effective_uid).

(** *** kprobe/binder_transaction *)

(** Lines 268-285: the pairing id and the sender of the transaction a reply
    answers, (0, 0) for a request or when a pointer is null. *)
Definition reply_origin (c : probe_ctx) (reply : Z) : Z * Z :=
  if reply =? 0 then (0, 0)
  else
    let thread := PT_REGS_PARM 2 c in
    if thread =? 0 then (0, 0)
    else
      let in_reply_to :=
        BPF_CORE_READ c 8 thread [] (core_offset "binder_thread" ["transaction_stack"]) in
      if in_reply_to =? 0 then (0, 0)
      else
        (u64 (s32 (BPF_CORE_READ c 4 in_reply_to []
                     (core_offset "binder_transaction" ["debug_id"]))),
         BPF_CORE_READ c 4 in_reply_to []
           (core_offset "binder_transaction" ["sender_euid"])).

(** Lines 311-326: the first character of proc->context->name. *)
Definition binder_dev_of (c : probe_ctx) : Z :=
  let sender_proc := PT_REGS_PARM 1 c in
  if sender_proc =? 0 then BINDER_DEV_UNKNOWN
  else
    let ctx_name := BPF_CORE_READ c 8 sender_proc [core_offset "binder_proc" ["context"]]
                      (core_offset "binder_context" ["name"]) in
    if ctx_name =? 0 then BINDER_DEV_UNKNOWN
    else
      let first_ch := le_val (kread c ctx_name 1) in
      if first_ch =? 98 then BINDER_DEV_BINDER          (* 'b' *)
      else if first_ch =? 104 then BINDER_DEV_HWBINDER  (* 'h' *)
      else if first_ch =? 118 then BINDER_DEV_VNDBINDER (* 'v' *)
      else BINDER_DEV_UNKNOWN.

(** What the program has read before the chunk loop. *)
Record tx_info := TxInfo {
  ti_is_reply : Z; ti_binder_dev : Z; ti_pid : Z; ti_uid : Z; ti_code : Z; ti_flags : Z;
  ti_data_size : Z; ti_transaction_id : Z; ti_cookie : Z; ti_to_pid : Z; ti_to_uid : Z;
  ti_target_ref : Z; ti_pair_id : Z }.

(** Lines 399-429: the stack record; nothing happens when the ring is full. *)
Definition stack_depth (uret : Z) : Z := if uret <? 0 then -1 else s16 (uret / 8).

Definition fill_stack_record (c : probe_ctx) (transaction_id : Z) (st : list Z) : list Z :=
  let pidtgid := bpf_get_current_pid_tgid c in
  let st := stores stack_trace_event
    [("magic", STACK_RECORD_MAGIC); ("transaction_id", transaction_id);
     ("pid", Z.shiftr pidtgid 32); ("tid", u32 pidtgid); ("reserved", 0);
     ("kstack_depth", 0)] st in
  let '(uret, ustack) := get_stack c (get_bytes stack_trace_event "ustack" st) in
  let st := set_bytes stack_trace_event "ustack" ustack st in
  set_field stack_trace_event "ustack_depth" (stack_depth uret) st.

Definition submit_stack_record (c : probe_ctx) (transaction_id : Z) (s : bpf_state) : bpf_state :=
  match reserve stack_trace_event s with
  | (Some st, s) => submit (fill_stack_record c transaction_id st) s
  | (None, s) => s
  end.

(** Lines 452-473: one chunk record. *)
Definition chunk_addr (buffer i : Z) : Z :=
  Z.land (u64 (buffer + u32 (i * CHUNK_SIZE))) 0x00FFFFFFFFFFFFFF.

Definition main_stores (ti : tx_info) (i : Z) : list (string * Z) :=
  [("kind", EVT_KIND_MAIN); ("is_reply", ti_is_reply ti); ("binder_dev", ti_binder_dev ti);
   ("target_kind", TARGET_KIND_UNKNOWN); ("pid", ti_pid ti); ("uid", ti_uid ti);
   ("code", ti_code ti); ("flags", ti_flags ti); ("data_size", ti_data_size ti);
   ("transaction_id", ti_transaction_id ti); ("chunk_index", i); ("cookie", ti_cookie ti);
   ("to_pid", ti_to_pid ti); ("to_uid", ti_to_uid ti); ("reserved2", 0);
   ("target_ref", ti_target_ref ti); ("pair_id", ti_pair_id ti)].

Definition fill_main_record (c : probe_ctx) (ti : tx_info) (buffer i : Z) (ev : list Z) : list Z :=
  let ev := stores binder_trace_event (main_stores ti i) ev in
  set_bytes binder_trace_event "chunk_data"
    (uread c (chunk_addr buffer i) (Z.to_nat (probe_read_size (ti_data_size ti) i))
       (get_bytes binder_trace_event "chunk_data" ev)) ev.

(** Lines 431-476; [fuel] iterations are left, so [i] runs up to MAX_CHUNKS. *)
Fixpoint chunk_loop (c : probe_ctx) (ti : tx_info) (buffer total_chunks : Z)
    (fuel : nat) (i : Z) (s : bpf_state) : bpf_state :=
  match fuel with
  | O => s
  | S fuel =>
      if total_chunks <=? i then s
      else
        match reserve binder_trace_event s with
        | (None, s) => s
        | (Some ev, s) =>
            chunk_loop c ti buffer total_chunks fuel (i + 1)
              (submit (fill_main_record c ti buffer i ev) s)
        end
  end.

(** Line 379: u32 total_chunks = (data_size + CHUNK_SIZE - 1) / CHUNK_SIZE, with u64
    arithmetic and a u32 result. *)
Definition total_chunks_of (data_size : Z) : Z :=
  u32 (u64 (u64 (data_size + CHUNK_SIZE) - 1) / CHUNK_SIZE).

(** Lines 253-333: what is read from the arguments and the current task. *)
Abbreviation kprobe_reply c := (s32 (PT_REGS_PARM 4 c)) (only parsing).
Abbreviation kprobe_tr c := (PT_REGS_PARM 3 c) (only parsing).
Definition read_tr (c : probe_ctx) (size : nat) (f : string) : Z :=
  BPF_CORE_READ c size (kprobe_tr c) [] (core_offset "binder_transaction_data" [f]).

Definition tx_info_of (c : probe_ctx) (transaction_id : Z) : tx_info :=
  TxInfo (if kprobe_reply c =? 0 then 0 else 1) (binder_dev_of c)
    (current_pid c) (current_uid c) (read_tr c 4 "code") (read_tr c 4 "flags")
    (read_tr c 8 "data_size") transaction_id 0 0 0
    (read_tr c 8 "target") (reply_origin c (kprobe_reply c)).1.

(** Line 345. *)
Definition effective_uid (c : probe_ctx) : Z :=
  if kprobe_reply c =? 0 then current_uid c else (reply_origin c (kprobe_reply c)).2.

(** Lines 370-377: data.ptr.buffer, the first 8 of the 16 bytes at tr->data. *)
Definition data_buffer (c : probe_ctx) : Z :=
  le_val (take 8 (kread c (u64 (kprobe_tr c + core_offset "binder_transaction_data" ["data"])) 16)).

Definition kprobe_binder_transaction (c : probe_ctx) (s : bpf_state) : bpf_state :=
  match config_uid s with
  | None => s
  | Some conf_uid =>
      if kprobe_tr c =? 0 then s
      else
        let '(transaction_id, s) := get_transaction_id s in
        let ti := tx_info_of c transaction_id in
        if filtered_out conf_uid (effective_uid c) then s
        else
          let s := if kprobe_reply c =? 0
                   then with_txid s (map_update (tid_to_txid_map s) (current_tid c) transaction_id)
                   else s in
          let total_chunks := total_chunks_of (ti_data_size ti) in
          if MAX_CHUNKS <? total_chunks then s
          else
            let s := submit_stack_record c transaction_id s in
            chunk_loop c ti (data_buffer c) total_chunks (Z.to_nat MAX_CHUNKS) 0 s
  end.

(** *** kprobe/binder_transaction_cookie_path *)

Definition cookie_of (ts cpu : Z) : Z := Z.lor (u64 (Z.shiftl ts 8)) (Z.land cpu 0xff).

Definition fill_cookie_record (cookie transaction_id tid : Z) (e : list Z) : list Z :=
  stores binder_cookie_sideband
    [("kind", EVT_KIND_COOKIE); ("reserved0", 0); ("reserved1", 0); ("reserved2", 0);
     ("reserved3", 0); ("cookie", cookie); ("transaction_id_hint", transaction_id);
     ("tid", tid); ("reserved4", 0)] e.

Definition kprobe_binder_transaction_cookie (c : probe_ctx) (s : bpf_state) : bpf_state :=
  match config_uid s with
  | None => s
  | Some conf_uid =>
      if negb (kprobe_reply c =? 0) then s
      else if filtered_out conf_uid (current_uid c) then s
      else
        match map_lookup (tid_to_txid_map s) (current_tid c) with
        | None => s
        | Some transaction_id =>
            if transaction_id =? 0 then s
            else
              let '(ts, s) := read_clock s in
              let cookie := cookie_of ts (cur_cpu c) in
              if cookie =? 0 then s
              else
                let s := with_pending s (map_update (pending_map s) (current_tid c) cookie) in
                match reserve binder_cookie_sideband s with
                | (None, s) => inc_overflow (cur_cpu c) RB_OVF_SLOT_SIDEBAND s
                | (Some e, s) =>
                    submit (fill_cookie_record cookie transaction_id (current_tid c) e) s
                end
        end
  end.

(** *** raw_tracepoint/binder_transaction *)

Definition fill_sideband_record (to_uid_unsupported cookie kernel_debug_id to_pid to_uid : Z)
    (e : list Z) : list Z :=
  stores binder_sideband_event
    [("kind", EVT_KIND_SIDEBAND); ("to_uid_unsupported", to_uid_unsupported);
     ("reserved0", 0); ("reserved1", 0); ("reserved2", 0); ("cookie", cookie);
     ("kernel_debug_id", kernel_debug_id); ("to_pid", to_pid); ("to_uid", to_uid)] e.

(** Lines 67-80: debug_id, receiver pid, receiver uid and its support flag. *)
Definition sideband_fields (c : probe_ctx) (t : Z) : Z * Z * Z * Z :=
  let kernel_debug_id :=
    u64 (s32 (BPF_CORE_READ c 4 t [] (core_offset "binder_transaction" ["debug_id"]))) in
  let to_pid :=
    BPF_CORE_READ c 4 t [core_offset "binder_transaction" ["to_proc"];
                         core_offset "binder_proc" ["tsk"]]
      (core_offset "task_struct" ["pid"]) in
  if core_field_exists "binder_proc" "cred" then
    (kernel_debug_id, to_pid,
     BPF_CORE_READ c 4 t [core_offset "binder_transaction" ["to_proc"];
                          core_offset "binder_proc" ["cred"]]
       (core_offset "cred" ["euid"; "val"]), 0)
  else (kernel_debug_id, to_pid, 0, 1).

Definition raw_tp_binder_transaction (c : probe_ctx) (s : bpf_state) : bpf_state :=
  match config_uid s with
  | None => s
  | Some _ =>
      let reply := s32 (default 0 (ctx_args c !! 0%nat)) in
      if negb (reply =? 0) then s
      else
        let t := default 0 (ctx_args c !! 1%nat) in
        if t =? 0 then s
        else
          match map_lookup (pending_map s) (current_tid c) with
          | None => s
          | Some cookie =>
              if cookie =? 0 then s
              else
                let s := with_pending s (map_delete (pending_map s) (current_tid c)) in
                let '(kernel_debug_id, to_pid, to_uid, unsupported) := sideband_fields c t in
                match reserve binder_sideband_event s with
                | (None, s) => inc_overflow (cur_cpu c) RB_OVF_SLOT_SIDEBAND s
                | (Some e, s) =>
                    submit (fill_sideband_record unsupported cookie kernel_debug_id
                              to_pid to_uid e) s
                end
          end
  end.
End Programs.

Abbreviation kprobe_reply c := (s32 (PT_REGS_PARM 4 c)) (only parsing).
Abbreviation kprobe_tr c := (PT_REGS_PARM 3 c) (only parsing).
