(* ===== verification/BpfTracing.v ===== *)
(** * Probe arguments (daemon/headers/bpf_tracing.h)

    Which register of struct pt_regs each PT_REGS_* macro names on each
    target, in its plain and in its relocatable form, how the target is
    chosen, and the argument lists that BPF_PROG, BPF_KPROBE and BPF_KRETPROBE
    build from their context. *)

From S2P Require Import Prelude CLayout BpfHelpers Records BpfRuntime Vmlinux SimKernel BpfPrograms.

(** ** Targets *)

Inductive target := X86 | S390 | Arm | Arm64 | Mips | Powerpc | Sparc | Riscv.

#[global] Instance target_dec : EqDecision target.
Proof. solve_decision. Defined.

(** The first of the given macros that is defined. *)
Fixpoint first_defined (defined : string -> bool) (l : list (string * target)) : option target :=
  match l with
  | [] => None
  | (name, t) :: l => if defined name then Some t else first_defined defined l
  end.

(** __TARGET_ARCH_xxx, else what the compiler says *)
Definition bpf_target (defined : string -> bool) (riscv_xlen : Z) : option target :=
  match first_defined defined
    [("__TARGET_ARCH_x86", X86); ("__TARGET_ARCH_s390", S390); ("__TARGET_ARCH_arm", Arm);
     ("__TARGET_ARCH_arm64", Arm64); ("__TARGET_ARCH_mips", Mips); ("__TARGET_ARCH_powerpc", Powerpc);
     ("__TARGET_ARCH_sparc", Sparc); ("__TARGET_ARCH_riscv", Riscv)] with
  | Some t => Some t
  | None =>
      first_defined (λ name, defined name && (negb (name =? "__riscv")%string || (riscv_xlen =? 64)))
        [("__x86_64__", X86); ("__s390__", S390); ("__arm__", Arm); ("__aarch64__", Arm64);
         ("__mips__", Mips); ("__powerpc__", Powerpc); ("__sparc__", Sparc); ("__riscv", Riscv)]
  end.

(** ** Registers *)

Inductive pt_macro := PARM1 | PARM2 | PARM3 | PARM4 | PARM5 | RET | FP | RC | SP | IP.

#[global] Instance pt_macro_dec : EqDecision pt_macro.
Proof. solve_decision. Defined.

(** An array index: a number, or a constant of the target's kernel headers. *)
Inductive pt_index := At (n : Z) | Sym (name : string).

#[global] Instance pt_index_dec : EqDecision pt_index.
Proof. solve_decision. Defined.

(** A member of the context, read through a cast or not; the constant 0; the
    compile-time error of a missing target. *)
Inductive pt_expr :=
| Field (cast : option string) (path : list string) (index : option pt_index)
| Zero
| TargetMissing.

#[global] Instance pt_expr_dec : EqDecision pt_expr.
Proof. solve_decision. Defined.

Abbreviation PT_REGS_S390 := "user_pt_regs"%string (only parsing).
Abbreviation PT_REGS_ARM64 := "struct user_pt_regs"%string (only parsing).
Abbreviation PT_REGS_RV := "struct user_regs_struct"%string (only parsing).

(** One table per target, of the macros and of their _CORE forms, [None] for a
    macro the target does not define. *)

Definition x86_vmlinux_regs (core : bool) (m : pt_macro) : option pt_expr :=
  if negb core then
    match m with
    | PARM1 => Some (Field None ["di"] None)
    | PARM2 => Some (Field None ["si"] None)
    | PARM3 => Some (Field None ["dx"] None)
    | PARM4 => Some (Field None ["cx"] None)
    | PARM5 => Some (Field None ["r8"] None)
    | RET => Some (Field None ["sp"] None)
    | FP => Some (Field None ["bp"] None)
    | RC => Some (Field None ["ax"] None)
    | SP => Some (Field None ["sp"] None)
    | IP => Some (Field None ["ip"] None)
    end
  else
    match m with
    | PARM1 => Some (Field None ["di"] None)
    | PARM2 => Some (Field None ["si"] None)
    | PARM3 => Some (Field None ["dx"] None)
    | PARM4 => Some (Field None ["cx"] None)
    | PARM5 => Some (Field None ["r8"] None)
    | RET => Some (Field None ["sp"] None)
    | FP => Some (Field None ["bp"] None)
    | RC => Some (Field None ["ax"] None)
    | SP => Some (Field None ["sp"] None)
    | IP => Some (Field None ["ip"] None)
    end.

Definition x86_i386_regs (core : bool) (m : pt_macro) : option pt_expr :=
  if negb core then
    match m with
    | PARM1 => Some (Field None ["eax"] None)
    | PARM2 => Some (Field None ["edx"] None)
    | PARM3 => Some (Field None ["ecx"] None)
    | PARM4 => Some Zero
    | PARM5 => Some Zero
    | RET => Some (Field None ["esp"] None)
    | FP => Some (Field None ["ebp"] None)
    | RC => Some (Field None ["eax"] None)
    | SP => Some (Field None ["esp"] None)
    | IP => Some (Field None ["eip"] None)
    end
  else
    match m with
    | PARM1 => Some (Field None ["eax"] None)
    | PARM2 => Some (Field None ["edx"] None)
    | PARM3 => Some (Field None ["ecx"] None)
    | PARM4 => Some Zero
    | PARM5 => Some Zero
    | RET => Some (Field None ["esp"] None)
    | FP => Some (Field None ["ebp"] None)
    | RC => Some (Field None ["eax"] None)
    | SP => Some (Field None ["esp"] None)
    | IP => Some (Field None ["eip"] None)
    end.

Definition x86_user_regs (core : bool) (m : pt_macro) : option pt_expr :=
  if negb core then
    match m with
    | PARM1 => Some (Field None ["rdi"] None)
    | PARM2 => Some (Field None ["rsi"] None)
    | PARM3 => Some (Field None ["rdx"] None)
    | PARM4 => Some (Field None ["rcx"] None)
    | PARM5 => Some (Field None ["r8"] None)
    | RET => Some (Field None ["rsp"] None)
    | FP => Some (Field None ["rbp"] None)
    | RC => Some (Field None ["rax"] None)
    | SP => Some (Field None ["rsp"] None)
    | IP => Some (Field None ["rip"] None)
    end
  else
    match m with
    | PARM1 => Some (Field None ["rdi"] None)
    | PARM2 => Some (Field None ["rsi"] None)
    | PARM3 => Some (Field None ["rdx"] None)
    | PARM4 => Some (Field None ["rcx"] None)
    | PARM5 => Some (Field None ["r8"] None)
    | RET => Some (Field None ["rsp"] None)
    | FP => Some (Field None ["rbp"] None)
    | RC => Some (Field None ["rax"] None)
    | SP => Some (Field None ["rsp"] None)
    | IP => Some (Field None ["rip"] None)
    end.

Definition s390_regs (core : bool) (m : pt_macro) : option pt_expr :=
  if negb core then
    match m with
    | PARM1 => Some (Field (Some PT_REGS_S390) ["gprs"] (Some (At 2)))
    | PARM2 => Some (Field (Some PT_REGS_S390) ["gprs"] (Some (At 3)))
    | PARM3 => Some (Field (Some PT_REGS_S390) ["gprs"] (Some (At 4)))
    | PARM4 => Some (Field (Some PT_REGS_S390) ["gprs"] (Some (At 5)))
    | PARM5 => Some (Field (Some PT_REGS_S390) ["gprs"] (Some (At 6)))
    | RET => Some (Field (Some PT_REGS_S390) ["gprs"] (Some (At 14)))
    | FP => Some (Field (Some PT_REGS_S390) ["gprs"] (Some (At 11)))
    | RC => Some (Field (Some PT_REGS_S390) ["gprs"] (Some (At 2)))
    | SP => Some (Field (Some PT_REGS_S390) ["gprs"] (Some (At 15)))
    | IP => Some (Field (Some PT_REGS_S390) ["psw"; "addr"] None)
    end
  else
    match m with
    | PARM1 => Some (Field (Some PT_REGS_S390) ["gprs"] (Some (At 2)))
    | PARM2 => Some (Field (Some PT_REGS_S390) ["gprs"] (Some (At 3)))
    | PARM3 => Some (Field (Some PT_REGS_S390) ["gprs"] (Some (At 4)))
    | PARM4 => Some (Field (Some PT_REGS_S390) ["gprs"] (Some (At 5)))
    | PARM5 => Some (Field (Some PT_REGS_S390) ["gprs"] (Some (At 6)))
    | RET => Some (Field (Some PT_REGS_S390) ["gprs"] (Some (At 14)))
    | FP => Some (Field (Some PT_REGS_S390) ["gprs"] (Some (At 11)))
    | RC => Some (Field (Some PT_REGS_S390) ["gprs"] (Some (At 2)))
    | SP => Some (Field (Some PT_REGS_S390) ["gprs"] (Some (At 15)))
    | IP => Some (Field (Some PT_REGS_S390) ["psw"; "addr"] None)
    end.

Definition arm_regs (core : bool) (m : pt_macro) : option pt_expr :=
  if negb core then
    match m with
    | PARM1 => Some (Field None ["uregs"] (Some (At 0)))
    | PARM2 => Some (Field None ["uregs"] (Some (At 1)))
    | PARM3 => Some (Field None ["uregs"] (Some (At 2)))
    | PARM4 => Some (Field None ["uregs"] (Some (At 3)))
    | PARM5 => Some (Field None ["uregs"] (Some (At 4)))
    | RET => Some (Field None ["uregs"] (Some (At 14)))
    | FP => Some (Field None ["uregs"] (Some (At 11)))
    | RC => Some (Field None ["uregs"] (Some (At 0)))
    | SP => Some (Field None ["uregs"] (Some (At 13)))
    | IP => Some (Field None ["uregs"] (Some (At 12)))
    end
  else
    match m with
    | PARM1 => Some (Field None ["uregs"] (Some (At 0)))
    | PARM2 => Some (Field None ["uregs"] (Some (At 1)))
    | PARM3 => Some (Field None ["uregs"] (Some (At 2)))
    | PARM4 => Some (Field None ["uregs"] (Some (At 3)))
    | PARM5 => Some (Field None ["uregs"] (Some (At 4)))
    | RET => Some (Field None ["uregs"] (Some (At 14)))
    | FP => Some (Field None ["uregs"] (Some (At 11)))
    | RC => Some (Field None ["uregs"] (Some (At 0)))
    | SP => Some (Field None ["uregs"] (Some (At 13)))
    | IP => Some (Field None ["uregs"] (Some (At 12)))
    end.

Definition arm64_regs (core : bool) (m : pt_macro) : option pt_expr :=
  if negb core then
    match m with
    | PARM1 => Some (Field (Some PT_REGS_ARM64) ["regs"] (Some (At 0)))
    | PARM2 => Some (Field (Some PT_REGS_ARM64) ["regs"] (Some (At 1)))
    | PARM3 => Some (Field (Some PT_REGS_ARM64) ["regs"] (Some (At 2)))
    | PARM4 => Some (Field (Some PT_REGS_ARM64) ["regs"] (Some (At 3)))
    | PARM5 => Some (Field (Some PT_REGS_ARM64) ["regs"] (Some (At 4)))
    | RET => Some (Field (Some PT_REGS_ARM64) ["regs"] (Some (At 30)))
    | FP => Some (Field (Some PT_REGS_ARM64) ["regs"] (Some (At 29)))
    | RC => Some (Field (Some PT_REGS_ARM64) ["regs"] (Some (At 0)))
    | SP => Some (Field (Some PT_REGS_ARM64) ["sp"] None)
    | IP => Some (Field (Some PT_REGS_ARM64) ["pc"] None)
    end
  else
    match m with
    | PARM1 => Some (Field (Some PT_REGS_ARM64) ["regs"] (Some (At 0)))
    | PARM2 => Some (Field (Some PT_REGS_ARM64) ["regs"] (Some (At 1)))
    | PARM3 => Some (Field (Some PT_REGS_ARM64) ["regs"] (Some (At 2)))
    | PARM4 => Some (Field (Some PT_REGS_ARM64) ["regs"] (Some (At 3)))
    | PARM5 => Some (Field (Some PT_REGS_ARM64) ["regs"] (Some (At 4)))
    | RET => Some (Field (Some PT_REGS_ARM64) ["regs"] (Some (At 30)))
    | FP => Some (Field (Some PT_REGS_ARM64) ["regs"] (Some (At 29)))
    | RC => Some (Field (Some PT_REGS_ARM64) ["regs"] (Some (At 0)))
    | SP => Some (Field (Some PT_REGS_ARM64) ["sp"] None)
    | IP => Some (Field (Some PT_REGS_ARM64) ["pc"] None)
    end.

Definition mips_regs (core : bool) (m : pt_macro) : option pt_expr :=
  if negb core then
    match m with
    | PARM1 => Some (Field None ["regs"] (Some (At 4)))
    | PARM2 => Some (Field None ["regs"] (Some (At 5)))
    | PARM3 => Some (Field None ["regs"] (Some (At 6)))
    | PARM4 => Some (Field None ["regs"] (Some (At 7)))
    | PARM5 => Some (Field None ["regs"] (Some (At 8)))
    | RET => Some (Field None ["regs"] (Some (At 31)))
    | FP => Some (Field None ["regs"] (Some (At 30)))
    | RC => Some (Field None ["regs"] (Some (At 2)))
    | SP => Some (Field None ["regs"] (Some (At 29)))
    | IP => Some (Field None ["cp0_epc"] None)
    end
  else
    match m with
    | PARM1 => Some (Field None ["regs"] (Some (At 4)))
    | PARM2 => Some (Field None ["regs"] (Some (At 5)))
    | PARM3 => Some (Field None ["regs"] (Some (At 6)))
    | PARM4 => Some (Field None ["regs"] (Some (At 7)))
    | PARM5 => Some (Field None ["regs"] (Some (At 8)))
    | RET => Some (Field None ["regs"] (Some (At 31)))
    | FP => Some (Field None ["regs"] (Some (At 30)))
    | RC => Some (Field None ["regs"] (Some (At 2)))
    | SP => Some (Field None ["regs"] (Some (At 29)))
    | IP => Some (Field None ["cp0_epc"] None)
    end.

Definition powerpc_regs (core : bool) (m : pt_macro) : option pt_expr :=
  if negb core then
    match m with
    | PARM1 => Some (Field None ["gpr"] (Some (At 3)))
    | PARM2 => Some (Field None ["gpr"] (Some (At 4)))
    | PARM3 => Some (Field None ["gpr"] (Some (At 5)))
    | PARM4 => Some (Field None ["gpr"] (Some (At 6)))
    | PARM5 => Some (Field None ["gpr"] (Some (At 7)))
    | RC => Some (Field None ["gpr"] (Some (At 3)))
    | SP => Some (Field None ["sp"] None)
    | IP => Some (Field None ["nip"] None)
    | RET | FP => None
    end
  else
    match m with
    | PARM1 => Some (Field None ["gpr"] (Some (At 3)))
    | PARM2 => Some (Field None ["gpr"] (Some (At 4)))
    | PARM3 => Some (Field None ["gpr"] (Some (At 5)))
    | PARM4 => Some (Field None ["gpr"] (Some (At 6)))
    | PARM5 => Some (Field None ["gpr"] (Some (At 7)))
    | RC => Some (Field None ["gpr"] (Some (At 3)))
    | SP => Some (Field None ["sp"] None)
    | IP => Some (Field None ["nip"] None)
    | RET | FP => None
    end.

Definition sparc_regs (core : bool) (m : pt_macro) : option pt_expr :=
  if negb core then
    match m with
    | PARM1 => Some (Field None ["u_regs"] (Some (Sym "UREG_I0")))
    | PARM2 => Some (Field None ["u_regs"] (Some (Sym "UREG_I1")))
    | PARM3 => Some (Field None ["u_regs"] (Some (Sym "UREG_I2")))
    | PARM4 => Some (Field None ["u_regs"] (Some (Sym "UREG_I3")))
    | PARM5 => Some (Field None ["u_regs"] (Some (Sym "UREG_I4")))
    | RET => Some (Field None ["u_regs"] (Some (Sym "UREG_I7")))
    | RC => Some (Field None ["u_regs"] (Some (Sym "UREG_I0")))
    | SP => Some (Field None ["u_regs"] (Some (Sym "UREG_FP")))
    | FP | IP => None
    end
  else
    match m with
    | PARM1 => Some (Field None ["u_regs"] (Some (Sym "UREG_I0")))
    | PARM2 => Some (Field None ["u_regs"] (Some (Sym "UREG_I1")))
    | PARM3 => Some (Field None ["u_regs"] (Some (Sym "UREG_I2")))
    | PARM4 => Some (Field None ["u_regs"] (Some (Sym "UREG_I3")))
    | PARM5 => Some (Field None ["u_regs"] (Some (Sym "UREG_I4")))
    | RET => Some (Field None ["u_regs"] (Some (Sym "UREG_I7")))
    | RC => Some (Field None ["u_regs"] (Some (Sym "UREG_I0")))
    | SP => Some (Field None ["u_regs"] (Some (Sym "UREG_FP")))
    | FP | IP => None
    end.

Definition riscv_regs (core : bool) (m : pt_macro) : option pt_expr :=
  if negb core then
    match m with
    | PARM1 => Some (Field (Some PT_REGS_RV) ["a0"] None)
    | PARM2 => Some (Field (Some PT_REGS_RV) ["a1"] None)
    | PARM3 => Some (Field (Some PT_REGS_RV) ["a2"] None)
    | PARM4 => Some (Field (Some PT_REGS_RV) ["a3"] None)
    | PARM5 => Some (Field (Some PT_REGS_RV) ["a4"] None)
    | RET => Some (Field (Some PT_REGS_RV) ["ra"] None)
    | FP => Some (Field (Some PT_REGS_RV) ["s5"] None)
    | RC => Some (Field (Some PT_REGS_RV) ["a5"] None)
    | SP => Some (Field (Some PT_REGS_RV) ["sp"] None)
    | IP => Some (Field (Some PT_REGS_RV) ["epc"] None)
    end
  else
    match m with
    | PARM1 => Some (Field (Some PT_REGS_RV) ["a0"] None)
    | PARM2 => Some (Field (Some PT_REGS_RV) ["a1"] None)
    | PARM3 => Some (Field (Some PT_REGS_RV) ["a2"] None)
    | PARM4 => Some (Field (Some PT_REGS_RV) ["a3"] None)
    | PARM5 => Some (Field (Some PT_REGS_RV) ["a4"] None)
    | RET => Some (Field (Some PT_REGS_RV) ["ra"] None)
    | FP => Some (Field (Some PT_REGS_RV) ["fp"] None)
    | RC => Some (Field (Some PT_REGS_RV) ["a5"] None)
    | SP => Some (Field (Some PT_REGS_RV) ["sp"] None)
    | IP => Some (Field (Some PT_REGS_RV) ["epc"] None)
    end.

(** PT_REGS_IP of sparc, both forms *)
Abbreviation sparc_ip arch64 := (Field None [if arch64 then "tpc" else "pc"] None) (only parsing).

(** What the preprocessor sees. *)
Record build := Build {
  b_target : option target; b_vmlinux : bool; b_i386 : bool; b_arch64 : bool }.

Definition pt_regs (b : build) (m : pt_macro) : option pt_expr :=
  match b_target b with
  | Some X86 => if b_vmlinux b then x86_vmlinux_regs false m
                else if b_i386 b then x86_i386_regs false m else x86_user_regs false m
  | Some S390 => s390_regs false m
  | Some Arm => arm_regs false m
  | Some Arm64 => arm64_regs false m
  | Some Mips => mips_regs false m
  | Some Powerpc => powerpc_regs false m
  | Some Sparc => if decide (m = IP) then Some (sparc_ip (b_arch64 b)) else sparc_regs false m
  | Some Riscv => riscv_regs false m
  | None => Some TargetMissing
  end.

Definition pt_regs_core (b : build) (m : pt_macro) : option pt_expr :=
  match b_target b with
  | Some X86 => if b_vmlinux b then x86_vmlinux_regs true m
                else if b_i386 b then x86_i386_regs true m else x86_user_regs true m
  | Some S390 => s390_regs true m
  | Some Arm => arm_regs true m
  | Some Arm64 => arm64_regs true m
  | Some Mips => mips_regs true m
  | Some Powerpc => powerpc_regs true m
  | Some Sparc => if decide (m = IP) then Some (sparc_ip (b_arch64 b)) else sparc_regs true m
  | Some Riscv => riscv_regs true m
  | None => Some TargetMissing
  end.

(** ** Return addresses *)

Inductive ret_ip :=
| Assign (e : option pt_expr)                  (* ip = e *)
| ProbeRead (e : option pt_expr) (plus : Z).   (* read at e + plus *)

(** sizeof(ip), for an ip of type unsigned long long *)
Definition sizeof_ip : Z := 8.

Definition BPF_KPROBE_READ_RET_IP (b : build) : ret_ip :=
  match b_target b with
  | Some Powerpc => Assign (Some (Field None ["link"] None))
  | Some Sparc => Assign (pt_regs b RET)
  | Some _ => ProbeRead (pt_regs b RET) 0
  | None => Assign (Some TargetMissing)
  end.

Abbreviation BPF_KRETPROBE_READ_RET_IP b := (match b_target b with
  | Some Powerpc | Some Sparc => BPF_KPROBE_READ_RET_IP b
  | Some _ => ProbeRead (pt_regs b FP) sizeof_ip
  | None => Assign (Some TargetMissing)
  end) (only parsing).

(** ** Argument lists *)

(** What a wrapper passes on: the context, a word of it, or a register. *)
Inductive passed := Ctx | Word (i : nat) | Register (m : pt_macro).

(** ___bpf_ctx_cast0 to ___bpf_ctx_cast12 *)
Fixpoint ctx_cast_n {A} (n : nat) (args : list A) : option (list passed) :=
  match n, args with
  | O, [] => Some [Ctx]
  | S n, _ :: args => l ← ctx_cast_n n args; Some (l ++ [Word n])
  | _, _ => None
  end.

Definition bpf_ctx_cast {A} (args : list A) : option (list passed) :=
  n ← bpf_narg args; if (n <=? 12)%nat then ctx_cast_n n args else None.

(** The registers PT_REGS_PARM1 to PT_REGS_PARM5 *)
Definition parm (n : nat) : option pt_macro := [PARM1; PARM2; PARM3; PARM4; PARM5] !! n.

(** ___bpf_kprobe_args0 to ___bpf_kprobe_args5 *)
Fixpoint kprobe_args_n {A} (n : nat) (args : list A) : option (list passed) :=
  match n, args with
  | O, [] => Some [Ctx]
  | S n, _ :: args => l ← kprobe_args_n n args; r ← parm n; Some (l ++ [Register r])
  | _, _ => None
  end.

Definition bpf_kprobe_args {A} (args : list A) : option (list passed) :=
  n ← bpf_narg args; kprobe_args_n n args.

(** ___bpf_kretprobe_args0, ___bpf_kretprobe_args1 *)
Definition bpf_kretprobe_args {A} (args : list A) : option (list passed) :=
  n ← bpf_narg args;
  match n, args with
  | 0%nat, [] => Some [Ctx]
  | 1%nat, [_] => Some [Ctx; Register RC]
  | _, _ => None
  end.

(** ** Lemmas *)

Lemma ctx_cast_words {A} (args : list A) :
  ctx_cast_n (length args) args = Some (Ctx :: (Word <$> seq 0 (length args))).
Proof.
  induction args as [|x args IH]; [done|]. cbn [length ctx_cast_n]. rewrite IH. cbn [mbind option_bind].
  by rewrite seq_S, fmap_app.
Qed.

Lemma kprobe_args_registers {A} (args : list A) :
  (length args <= 5)%nat ->
  kprobe_args_n (length args) args =
  Some (Ctx :: (Register <$> take (length args) [PARM1; PARM2; PARM3; PARM4; PARM5])).
Proof. intros Hl. do 6 (destruct args as [|? args]; [reflexivity|]). cbn in Hl. lia. Qed.

(** The arm64 build of the daemon's programs *)
Definition daemon_build : build := Build (Some Arm64) true false false.

(** A member of the context, as a byte offset into struct pt_regs behind its
    cast to struct user_pt_regs. *)
Definition arm64_offset (e : option pt_expr) : option Z :=
  match e with
  | Some (Field (Some _) path None) => Some (offset struct_user_pt_regs path)
  | Some (Field (Some _) path (Some (At i))) => Some (offset struct_user_pt_regs path + 8 * i)
  | _ => None
  end.

(** The registers as they lie in memory. *)
Definition regs_image (regs : list Z) : list Z := concat (le_bytes 8 <$> regs).

Lemma slice_regs_image regs n r :
  Forall (fits 64) regs -> regs !! n = Some r -> le_val (slice (8 * n) 8 (regs_image regs)) = r.
Proof.
  intros Hf. revert n. induction Hf as [|x regs Hx _ IH]; intros n Hn; [done|].
  unfold regs_image, slice in *. cbn [fmap list_fmap concat]. destruct n as [|n].
  - injection Hn as ->. rewrite Nat.mul_0_r, drop_0, take_app_length' by (by rewrite length_le_bytes).
    by apply le_val_bytes_fits.
  - replace (8 * S n)%nat with (8 + 8 * n)%nat by lia. rewrite <- drop_drop.
    rewrite drop_app_length' by (by rewrite length_le_bytes). by apply IH.
Qed.

(** ** Properties *)

(** On every target the relocatable PT_REGS_*_CORE macro names the same
    register as the plain one, with one exception: on riscv PT_REGS_FP reads
    s5 and PT_REGS_FP_CORE reads fp. *)
Theorem core_registers_agree b m :
  pt_regs_core b m = pt_regs b m <-> ~ (b_target b = Some Riscv /\ m = FP).
Proof.
  destruct b as [[t|] v i a]; [|cbn; intuition congruence].
  destruct t, v, i, a, m; cbn; intuition congruence.
Qed.

(** The wrappers pass the context and then the declared parameters in
    order: BPF_PROG up to twelve words of the raw context, BPF_KPROBE up to
    five argument registers. *)
Lemma wrappers_pass_in_order {A} (args : list A) :
  ((length args <= 12)%nat ->
     bpf_ctx_cast args = Some (Ctx :: (Word <$> seq 0 (length args)))) /\
  ((length args <= 5)%nat ->
     bpf_kprobe_args args =
     Some (Ctx :: (Register <$> take (length args) [PARM1; PARM2; PARM3; PARM4; PARM5]))).
Proof.
  split; intros Hl.
  - unfold bpf_ctx_cast. rewrite bpf_narg_length by lia. cbn [mbind option_bind].
    destruct (Nat.leb_spec (length args) 12); [|lia]. apply ctx_cast_words.
  - unfold bpf_kprobe_args. rewrite bpf_narg_length by lia. cbn [mbind option_bind].
    by apply kprobe_args_registers.
Qed.

(** On the arm64 build PT_REGS_PARM1 to PT_REGS_PARM5, cast to struct
    user_pt_regs, read the argument registers the programs' model gives: the
    member each names lies at the register's place in the memory of the
    context, and the cast is to the first member of struct pt_regs. *)
Theorem arm64_parameters_read_registers c n m r :
  ctx_ok c -> parm n = Some m -> ctx_regs c !! n = Some r ->
  exists off, arm64_offset (pt_regs daemon_build m) = Some off /\
    le_val (slice (Z.to_nat off) 8 (regs_image (ctx_regs c))) = PT_REGS_PARM (S n) c /\
    offset struct_pt_regs ["user_regs"] = 0.
Proof.
  intros Hc Hm Hr. exists (8 * Z.of_nat n). split_and!; [| |reflexivity].
  - unfold parm in Hm. do 5 (destruct n as [|n]; [injection Hm as <-; reflexivity|]). discriminate Hm.
  - replace (Z.to_nat (8 * Z.of_nat n)) with (8 * n)%nat by lia.
    rewrite (slice_regs_image _ _ r (regs_range c Hc) Hr). unfold PT_REGS_PARM. cbn [Nat.sub].
    by rewrite Nat.sub_0_r, Hr.
Qed.

Lemma arm64_parameters_read_registers_witness :
  exists off, arm64_offset (pt_regs daemon_build PARM3) = Some off /\
    le_val (slice (Z.to_nat off) 8 (regs_image [5; 6; 0xffffff8000001000; 8])) = 0xffffff8000001000.
Proof.
  destruct (arm64_parameters_read_registers
    (sim_ctx [5; 6; 0xffffff8000001000; 8] [] 0 0 0 0 0 [] (λ _, 0)) 2 PARM3 0xffffff8000001000
    (sim_ctx_ok _ _ _ _ _ _ _ _ _) eq_refl eq_refl) as (off & E & Hv & _).
  exists off. split; [exact E|exact Hv].
Defined.
