(* ===== verification/BpfRecords.v ===== *)
(** * What the submitted records contain

    Reading back, at the C offsets, the members the BPF programs assign:
    whatever a reservation contained before, the typed view of a submitted
    record is the values that were stored, truncated to the member widths. *)

From S2P Require Import Prelude CLayout Records BpfRuntime BpfCoreRead BpfPrograms.

(** ** Reading assigned members *)

(** Decides closed side conditions on member names. *)
Ltac by_names := first [apply (bool_decide_unpack _)|idtac]; vm_compute; exact I.

(** [(n, v) ∈ l] for a literal list [l]. *)
Ltac in_literal :=
  solve [repeat first [apply list_elem_of_here | apply list_elem_of_further]].

Lemma field_after_stores t ns n v l buf :
  members_ok t ns = true -> bool_decide (Forall (λ n, n ∈ ns) l.*1) ->
  bool_decide (NoDup l.*1) -> (n, v) ∈ l ->
  length buf = Z.to_nat (csize t) ->
  fits (8 * Z.of_nat (member_size t n)) v ->
  get_field t n (stores t l buf) = v.
Proof.
  intros Hok Hl%bool_decide_unpack Hnd%bool_decide_unpack Hin Hbuf Hv.
  rewrite (get_field_stores t ns Hok n v); auto; [by apply wrap_small|].
  apply Forall_forall. intros nv Hnv. apply (proj1 (Forall_forall _ _) Hl).
  apply list_elem_of_In. apply list_elem_of_fmap_2. by apply list_elem_of_In.
Qed.

Lemma length_after_stores t ns l buf :
  members_ok t ns = true -> bool_decide (Forall (λ n, n ∈ ns) l.*1) ->
  length buf = Z.to_nat (csize t) -> length (stores t l buf) = Z.to_nat (csize t).
Proof.
  intros Hok Hl%bool_decide_unpack Hbuf. rewrite (length_stores t ns Hok); auto.
  apply Forall_forall. intros nv Hnv. apply (proj1 (Forall_forall _ _) Hl).
  apply list_elem_of_In. apply list_elem_of_fmap_2. by apply list_elem_of_In.
Qed.

Lemma field_after_bytes t ns n n' bs buf :
  members_ok t ns = true -> bool_decide (n ∈ ns /\ n' ∈ ns /\ n <> n') ->
  length bs = member_size t n' -> length buf = Z.to_nat (csize t) ->
  get_field t n (set_bytes t n' bs buf) = get_field t n buf.
Proof.
  intros Hok (?&?&?)%bool_decide_unpack ??. unfold get_field.
  by rewrite (get_set_bytes_other t ns Hok).
Qed.

Lemma length_get_bytes t ns n buf :
  members_ok t ns = true -> bool_decide (n ∈ ns) -> length buf = Z.to_nat (csize t) ->
  length (get_bytes t n buf) = member_size t n.
Proof.
  intros Hok Hn%bool_decide_unpack Hbuf.
  destruct (members_ok_range t ns Hok n Hn) as (o & k & E & Hle).
  unfold get_bytes, member_size. rewrite E. apply length_slice. lia.
Qed.

(** An assigned member is not disturbed by later stores into a member [n']
    that is not among the assigned ones. *)
Lemma field_before_bytes t ns n n' bs (l : list (string * Z)) buf :
  members_ok t ns = true -> bool_decide (Forall (λ n, n ∈ ns) l.*1) ->
  bool_decide (n' ∈ ns /\ n' ∉ l.*1) -> n ∈ l.*1 ->
  length bs = member_size t n' -> length buf = Z.to_nat (csize t) ->
  get_field t n (set_bytes t n' bs buf) = get_field t n buf.
Proof.
  intros Hok Hl%bool_decide_unpack [Hn' Hnl]%bool_decide_unpack Hn Hbs Hbuf.
  apply (field_after_bytes t ns); [done| |done|done].
  apply bool_decide_pack. split_and!; [|done|congruence].
  by apply (proj1 (list.Forall_forall _ _) Hl).
Qed.

(** [field_read H]: the goal [get_field t n (stores t l buf) = v], where [H]
    is the layout check of [t]. *)
Ltac field_read H :=
  eapply (field_after_stores _ _ _ _ _ _ H);
  [vm_compute; exact I|vm_compute; exact I|in_literal|assumption
  |match goal with Hv : fits _ ?v |- fits _ ?v => exact Hv end].

Section RecordViews.
Context `{K : BpfKernel} `{T : CoreTarget}.

(** *** Cookie sideband *)

Lemma view_cookie_record cookie txid tid e :
  Z.of_nat (length e) = csize binder_cookie_sideband ->
  fits 64 cookie -> fits 64 txid -> fits 32 tid ->
  view_cookie (fill_cookie_record cookie txid tid e) = CookieSideband cookie txid tid.
Proof.
  intros He Hc Ht Htid.
  assert (length e = Z.to_nat (csize binder_cookie_sideband)) by lia.
  unfold view_cookie, fill_cookie_record.
  f_equal; field_read binder_cookie_sideband_ok.
Qed.
(** *** Sideband *)

Lemma view_sideband_record uns cookie did to_pid to_uid e :
  Z.of_nat (length e) = csize binder_sideband_event ->
  fits 8 uns -> fits 64 cookie -> fits 64 did -> fits 32 to_pid -> fits 32 to_uid ->
  view_sideband (fill_sideband_record uns cookie did to_pid to_uid e) =
  SidebandEvent uns cookie did to_pid to_uid.
Proof.
  intros He ?????.
  assert (length e = Z.to_nat (csize binder_sideband_event)) by lia.
  unfold view_sideband, fill_sideband_record.
  f_equal; field_read binder_sideband_event_ok.
Qed.

(** *** Chunk records *)

Record tx_info_ok (ti : tx_info) : Prop := TxInfoOk {
  tio_is_reply : fits 8 (ti_is_reply ti); tio_binder_dev : fits 8 (ti_binder_dev ti);
  tio_pid : fits 32 (ti_pid ti); tio_uid : fits 32 (ti_uid ti);
  tio_code : fits 32 (ti_code ti); tio_flags : fits 32 (ti_flags ti);
  tio_data_size : fits 64 (ti_data_size ti);
  tio_transaction_id : fits 64 (ti_transaction_id ti);
  tio_cookie : fits 64 (ti_cookie ti); tio_to_pid : fits 32 (ti_to_pid ti);
  tio_to_uid : fits 32 (ti_to_uid ti); tio_target_ref : fits 64 (ti_target_ref ti);
  tio_pair_id : fits 64 (ti_pair_id ti) }.

(** The view of chunk [i] of transaction [ti] carrying [data]. *)
Definition chunk_event (ti : tx_info) (i : Z) (data : list Z) : main_event :=
  MainEvent EVT_KIND_MAIN (ti_is_reply ti) (ti_binder_dev ti) TARGET_KIND_UNKNOWN
    (ti_pid ti) (ti_uid ti) (ti_code ti) (ti_flags ti)
    (ti_data_size ti) (ti_transaction_id ti) i (ti_cookie ti)
    (ti_to_pid ti) (ti_to_uid ti) (ti_target_ref ti) (ti_pair_id ti) data.

Lemma main_field ti i bs ev n v :
  Z.of_nat (length ev) = csize binder_trace_event ->
  length bs = member_size binder_trace_event "chunk_data" ->
  (n, v) ∈ main_stores ti i ->
  bool_decide (n ∈ (main_stores ti i).*1) ->
  fits (8 * Z.of_nat (member_size binder_trace_event n)) v ->
  get_field binder_trace_event n
    (set_bytes binder_trace_event "chunk_data" bs
       (stores binder_trace_event (main_stores ti i) ev)) = v.
Proof.
  intros Hlen Hbs Hin Hn Hv. apply bool_decide_unpack in Hn.
  pose proof binder_trace_event_ok as Hok.
  assert (length ev = Z.to_nat (csize binder_trace_event)) by lia.
  rewrite (field_before_bytes _ _ _ _ _ (main_stores ti i) _ Hok).
  - eapply (field_after_stores _ _ _ _ _ _ Hok); [by_names|by_names|done..].
  - by_names.
  - by_names.
  - done.
  - done.
  - eapply length_after_stores; [exact Hok|by_names|done].
Qed.

(** [raw] is the record of chunk [i]: its members are those of [ti], its
    data is what the user read left in some 1024-byte destination. *)
Definition is_chunk (c : probe_ctx) (ti : tx_info) (buffer i : Z) (raw : list Z) : Prop :=
  Z.of_nat (length raw) = csize binder_trace_event /\
  exists dst, length dst = Z.to_nat CHUNK_SIZE /\
    view_main raw = chunk_event ti i
      (uread c (chunk_addr buffer i) (Z.to_nat (probe_read_size (ti_data_size ti) i)) dst).

(** [main_field] at a literal member. *)
Ltac main_read :=
  apply main_field; [assumption|assumption|in_literal|by_names
  |match goal with Hv : fits _ ?v |- fits _ ?v => exact Hv end].

Lemma view_main_record c ti buffer i ev :
  ctx_ok c -> tx_info_ok ti -> fits 64 i ->
  Z.of_nat (length ev) = csize binder_trace_event ->
  is_chunk c ti buffer i (fill_main_record c ti buffer i ev).
Proof.
  intros Hc [] Hi He. pose proof binder_trace_event_ok as Hok.
  assert (length ev = Z.to_nat (csize binder_trace_event)) as Hlen by lia.
  assert (length (stores binder_trace_event (main_stores ti i) ev)
          = Z.to_nat (csize binder_trace_event)) as Hlen'
    by (eapply length_after_stores; [exact Hok|by_names|done]).
  assert (length (get_bytes binder_trace_event "chunk_data"
            (stores binder_trace_event (main_stores ti i) ev))
          = member_size binder_trace_event "chunk_data") as Hdst
    by (eapply length_get_bytes; [exact Hok|by_names|done]).
  unfold is_chunk, fill_main_record. cbv zeta.
  match goal with |- context [set_bytes _ _ ?u _] => assert (Hbs : length u =
    member_size binder_trace_event "chunk_data") by (by rewrite (uread_length c Hc)) end.
  assert ("chunk_data" ∈ names_of binder_trace_event) as Hin by by_names.
  split; [by rewrite (length_set_bytes _ _ Hok), Hlen' by done|].
  eexists. split; [exact Hdst|].
  revert Hbs. generalize (uread c (chunk_addr buffer i)
    (Z.to_nat (probe_read_size (ti_data_size ti) i))
    (get_bytes binder_trace_event "chunk_data"
       (stores binder_trace_event (main_stores ti i) ev))). intros bs Hbs.
  assert (fits 8 EVT_KIND_MAIN) by by_names.
  assert (fits 8 TARGET_KIND_UNKNOWN) by by_names.
  unfold view_main, chunk_event. cbv zeta.
  rewrite (get_set_bytes_same _ _ Hok) by done.
  f_equal; main_read.
Qed.

(** *** Stack records *)

Lemma stack_depth_range uret : uret <= 256 -> -1 <= stack_depth uret <= 32.
Proof.
  intros Hu. unfold stack_depth. bdestr; [lia|].
  assert (uret / 8 <= 32) by (apply Z.div_le_upper_bound; lia).
  assert (0 <= uret / 8) by (apply Z.div_pos; lia).
  unfold s16, signed. rewrite wrap_small by (split; [done|]; change (2 ^ 16) with 65536; lia).
  change (2 ^ (16 - 1)) with 32768. bdestr; lia.
Qed.

Lemma view_stack_record c txid st :
  ctx_ok c -> fits 64 txid ->
  Z.of_nat (length st) = csize stack_trace_event ->
  exists dst kstack, length dst = 256%nat /\
    Z.of_nat (length (fill_stack_record c txid st)) = csize stack_trace_event /\
    get_field stack_trace_event "magic" (fill_stack_record c txid st) = STACK_RECORD_MAGIC /\
    view_stack (fill_stack_record c txid st) =
    StackEvent txid (cur_tgid c) (cur_pid c) 0 (stack_depth (get_stack c dst).1)
      kstack (words 32 (get_stack c dst).2).
Proof.
  intros Hc Ht He. pose proof stack_trace_event_ok as Hok.
  assert (length st = Z.to_nat (csize stack_trace_event)) as Hlen by lia.
  unfold fill_stack_record. cbv zeta.
  unfold bpf_get_current_pid_tgid. rewrite pack_hi by (lia || apply Hc).
  unfold u32. rewrite pack_lo by (lia || apply Hc).
  match goal with |- context [stores _ ?l st] => set (l0 := l) end.
  assert (length (stores stack_trace_event l0 st) = Z.to_nat (csize stack_trace_event)) as Hlen'
    by (eapply length_after_stores; [exact Hok|by_names|done]).
  assert (length (get_bytes stack_trace_event "ustack" (stores stack_trace_event l0 st))
          = 256%nat) as Hdst
    by (eapply length_get_bytes; [exact Hok|by_names|done]).
  exists (get_bytes stack_trace_event "ustack" (stores stack_trace_event l0 st)).
  pose proof (get_stack_length c Hc (get_bytes stack_trace_event "ustack"
    (stores stack_trace_event l0 st))) as Hgl.
  pose proof (get_stack_ret c Hc (get_bytes stack_trace_event "ustack"
    (stores stack_trace_event l0 st))) as Hgr.
  rewrite Hdst in Hgl, Hgr. apply stack_depth_range in Hgr.
  destruct (get_stack c _) as [uret us]; cbn [fst snd] in *.
  assert (Hlen'' : length (set_bytes stack_trace_event "ustack" us
                             (stores stack_trace_event l0 st))
                   = Z.to_nat (csize stack_trace_event)).
  { rewrite (length_set_bytes _ _ Hok); [done|by_names|done|done]. }
  assert (Hf : forall n v, (n, v) ∈ l0 -> n ∈ l0.*1 ->
    fits (8 * Z.of_nat (member_size stack_trace_event n)) v ->
    get_field stack_trace_event n (set_field stack_trace_event "ustack_depth" (stack_depth uret)
      (set_bytes stack_trace_event "ustack" us (stores stack_trace_event l0 st))) = v).
  { intros n v Hin Hn Hv. unfold set_field.
    rewrite (field_before_bytes _ _ _ _ _ l0 _ Hok) by (by_names || done).
    rewrite (field_before_bytes _ _ _ _ _ l0 _ Hok) by (by_names || done).
    eapply (field_after_stores _ _ _ _ _ _ Hok); [by_names|by_names|done..]. }
  pose proof (tgid_range c Hc). pose proof (pid_range c Hc).
  eexists. split; [exact Hdst|]. split; [|split].
  - rewrite (length_set_field _ _ Hok); [rewrite Hlen''; done|by_names|done].
  - apply Hf; [in_literal|by_names|by_names].
  - unfold view_stack. cbv zeta.
    assert (Hk : get_field stack_trace_event "kstack_depth" (set_field stack_trace_event
      "ustack_depth" (stack_depth uret) (set_bytes stack_trace_event "ustack" us
      (stores stack_trace_event l0 st))) = 0) by (apply Hf; [in_literal|by_names|by_names]).
    rewrite Hk. f_equal; try (apply Hf; [in_literal|by_names|done]).
    + unfold set_field, get_field.
      rewrite (get_set_bytes_same _ _ Hok), le_val_bytes by (by_names || done).
      change (signed 16 (wrap 16 (stack_depth uret)) = stack_depth uret).
      apply signed_wrap; [lia|]. change (2 ^ (16 - 1)) with 32768. lia.
    + unfold set_field. rewrite (get_set_bytes_other _ _ Hok) by (by_names || done).
      by rewrite (get_set_bytes_same _ _ Hok) by (by_names || done).
Qed.
End RecordViews.
