(* ===== verification/BpfProofs.v ===== *)
(** * Correctness of the BPF programs

    What each program submits to the ring buffer and leaves in the maps, for
    every kernel that meets the helper documentation. *)

From S2P Require Import Prelude CLayout Records BpfRuntime BpfCoreRead BpfPrograms BpfRecords.

Section Correctness.
Context `{KL : BpfKernelLaws} `{T : CoreTarget}.

(** ** Frames *)

(** Everything but the ring buffer. *)
Definition outside_ring (s : bpf_state) : hmap * hmap * hmap * percpu * clock :=
  (trace_config_map s, pending_map s, tid_to_txid_map s, ringbuf_overflow_map s, kclock s).

Lemma submit_outside b s : outside_ring (submit b s) = outside_ring s.
Proof. done. Qed.

Lemma submit_appends b s : records (submit b s) = records s ++ [b].
Proof. apply submit_records. Qed.

Lemma reserve_outside t s : outside_ring (reserve t s).2 = outside_ring s.
Proof. unfold reserve. by destruct (ringbuf_reserve _ _). Qed.

Lemma reserve_keeps t s : records (reserve t s).2 = records s.
Proof.
  unfold reserve, records. pose proof (reserve_records (trace_event_map s) (csize t)) as H.
  destruct (ringbuf_reserve _ _); apply H.
Qed.

Lemma reserve_size t s b s' :
  cwf t = true -> reserve t s = (Some b, s') -> Z.of_nat (length b) = csize t.
Proof.
  intros Hwf. unfold reserve. destruct (ringbuf_reserve _ _) as [b' r] eqn:E.
  intros [= -> <-]. eapply reserve_length; [|exact E]. by apply cwf_size_nonneg.
Qed.

(** [room k r]: the ring accepts [k] more records of any of the record
    types, whatever is written to them. *)
Fixpoint room (k : nat) (r : ring) : Prop :=
  match k with
  | O => True
  | S k => forall n, 0 <= n <= csize binder_trace_event ->
      exists b r', ringbuf_reserve r n = (Some b, r') /\
                   forall b', room k (ringbuf_submit r' b')
  end.

Lemma room_reserve k t s :
  0 <= csize t <= csize binder_trace_event -> room (S k) (trace_event_map s) ->
  exists b s', reserve t s = (Some b, s') /\
               forall b', room k (trace_event_map (submit b' s')).
Proof.
  intros Ht Hr. destruct (Hr (csize t) Ht) as (b & r' & E & Hk).
  unfold reserve. rewrite E. by eexists _, _.
Qed.

(** ** The current task *)

Section Task.
Context (c : probe_ctx) (Hc : ctx_ok c).

Lemma current_pid_tgid : current_pid c = cur_tgid c.
Proof.
  unfold bpf_get_current_pid_tgid.
  rewrite pack_hi by (lia || apply Hc). apply wrap_small, Hc.
Qed.

Lemma current_tid_pid : current_tid c = cur_pid c.
Proof.
  unfold current_tid, bpf_get_current_pid_tgid.
  change 0xFFFFFFFF with (Z.ones 32).
  rewrite land_ones_wrap, pack_lo by (lia || apply Hc). apply wrap_small, Hc.
Qed.

(** What the programs call the current uid is the upper half of
    bpf_get_current_uid_gid(), the group id. *)
Lemma current_uid_is_gid : current_uid c = cur_gid c.
Proof.
  unfold bpf_get_current_uid_gid.
  rewrite pack_hi by (lia || apply Hc). apply wrap_small, Hc.
Qed.

Lemma kread_fits a n : fits (8 * Z.of_nat n) (le_val (kread c a n)).
Proof.
  pose proof (le_val_fits (kread c a n) (kread_bytes c Hc a n)) as H.
  by rewrite (kread_length c Hc) in H.
Qed.

Lemma core_read_fits n src offs last : fits (8 * Z.of_nat n) (BPF_CORE_READ c n src offs last).
Proof. apply kread_fits. Qed.

Lemma reply_origin_fits r :
  fits 64 (reply_origin c r).1 /\ fits 32 (reply_origin c r).2.
Proof.
  assert (H0 : fits 64 (0, 0).1 /\ fits 32 (0, 0).2) by (split; by apply fits_0).
  unfold reply_origin. repeat (case_match; [exact H0|]).
  split; [by apply wrap_fits|apply (core_read_fits 4)].
Qed.

Lemma binder_dev_range : 0 <= binder_dev_of c <= 3.
Proof. unfold binder_dev_of. repeat case_match; vm_compute; intuition discriminate. Qed.

Lemma tx_info_of_ok txid : fits 64 txid -> tx_info_ok (tx_info_of c txid).
Proof.
  intros Ht. unfold tx_info_of. rewrite current_pid_tgid, current_uid_is_gid.
  pose proof binder_dev_range. pose proof (reply_origin_fits (kprobe_reply c)) as [? _].
  split; cbn [ti_is_reply ti_binder_dev ti_pid ti_uid ti_code ti_flags ti_data_size
    ti_transaction_id ti_cookie ti_to_pid ti_to_uid ti_target_ref ti_pair_id].
  - case_match; [by apply fits_0|by apply fits_1].
  - unfold fits. change (2 ^ 8) with 256. lia.
  - apply Hc.
  - apply Hc.
  - apply (core_read_fits 4).
  - apply (core_read_fits 4).
  - apply (core_read_fits 8).
  - done.
  - by apply fits_0.
  - by apply fits_0.
  - by apply fits_0.
  - apply (core_read_fits 8).
  - done.
Qed.
End Task.
(** ** The chunk loop *)

Section Loop.
Context (c : probe_ctx) (Hc : ctx_ok c) (ti : tx_info) (Hti : tx_info_ok ti).
Context (buffer total : Z).

Lemma chunk_loop_outside fuel i s :
  outside_ring (chunk_loop c ti buffer total fuel i s) = outside_ring s.
Proof.
  revert i s. induction fuel as [|fuel IH]; intros i s; cbn [chunk_loop]; [done|].
  case_match; [done|]. pose proof (reserve_outside binder_trace_event s) as Hr.
  destruct (reserve binder_trace_event s) as [[b|] s']; [|done]. by rewrite IH.
Qed.

(** The records submitted are a prefix of the chunk sequence, and all of
    it when the ring has room. *)
Lemma chunk_loop_records fuel i s :
  0 <= i -> i + Z.of_nat fuel <= 2 ^ 32 ->
  exists recs, records (chunk_loop c ti buffer total fuel i s) = records s ++ recs /\
    (forall j raw, recs !! j = Some raw -> is_chunk c ti buffer (i + Z.of_nat j) raw) /\
    (length recs <= Nat.min fuel (Z.to_nat (total - i)))%nat /\
    (room fuel (trace_event_map s) -> length recs = Nat.min fuel (Z.to_nat (total - i))).
Proof.
  revert i s. induction fuel as [|fuel IH]; intros i s Hi Hf; cbn [chunk_loop].
  { exists []. rewrite app_nil_r. cbn. repeat split; (lia || done). }
  bdestr.
  { exists []. rewrite app_nil_r. cbn [length]. repeat split; (lia || done). }
  destruct (reserve binder_trace_event s) as [ob s'] eqn:E.
  pose proof (reserve_keeps binder_trace_event s) as Hk. rewrite E in Hk. cbn in Hk.
  destruct ob as [b|].
  - destruct (IH (i + 1) (submit (fill_main_record c ti buffer i b) s'))
      as (recs & Hrec & Hch & Hle & Hroom); [lia|lia|].
    exists (fill_main_record c ti buffer i b :: recs).
    rewrite Hrec, submit_appends, Hk, <- app_assoc. cbn [app length]. split; [done|].
    split; [|split; [lia|]].
    + intros [|j] raw Hj; cbn [lookup list_lookup] in Hj.
      * apply (inj Some) in Hj. subst raw. rewrite Z.add_0_r.
        apply view_main_record; [done|done| |by eapply reserve_size; [|exact E]].
        split; [lia|]. pose proof (Z.pow_lt_mono_r 2 32 64). lia.
      * replace (i + Z.of_nat (S j)) with (i + 1 + Z.of_nat j) by lia. auto.
    + intros Hr. destruct (room_reserve fuel binder_trace_event s) as (b' & s'' & E' & Hr');
        [rewrite binder_trace_event_size; lia|done|].
      rewrite E in E'. injection E' as <- <-. rewrite Hroom by apply Hr'. lia.
  - exists []. rewrite app_nil_r. cbn [length]. repeat split; try (lia || done).
    intros Hr. destruct (room_reserve fuel binder_trace_event s) as (b' & s'' & E' & _);
      [rewrite binder_trace_event_size; lia|done|]. by rewrite E in E'.
Qed.
End Loop.
(** ** Chunk arithmetic *)

Lemma total_chunks_small ds :
  0 <= ds <= 2 ^ 42 - CHUNK_SIZE -> total_chunks_of ds = (ds + CHUNK_SIZE - 1) / CHUNK_SIZE.
Proof.
  unfold CHUNK_SIZE. intros Hds. unfold total_chunks_of, u32, u64, CHUNK_SIZE.
  rewrite (wrap_small 64 (ds + 1024)) by (unfold fits; lia).
  rewrite (wrap_small 64) by (unfold fits; lia).
  apply wrap_small. split; [apply Z.div_pos; lia|]. apply Z.div_lt_upper_bound; lia.
Qed.

Lemma chunk_size_small ds i :
  0 <= i < MAX_CHUNKS -> i * CHUNK_SIZE < ds < 2 ^ 64 ->
  probe_read_size ds i = Z.min CHUNK_SIZE (ds - i * CHUNK_SIZE).
Proof.
  unfold MAX_CHUNKS, CHUNK_SIZE. intros Hi Hds. unfold CHUNK_SIZE.
  unfold u32, u64. rewrite (wrap_small 32 (i + 1)) by (unfold fits; lia).
  rewrite (wrap_small 32 ((i + 1) * 1024)) by (unfold fits; lia).
  rewrite (wrap_small 32 (i * 1024)) by (unfold fits; lia).
  destruct (Z.ltb_spec ds ((i + 1) * 1024)).
  - rewrite (wrap_small 64) by (unfold fits; lia). bdestr; [|lia].
    rewrite wrap_small by (unfold fits; lia). lia.
  - cbn. lia.
Qed.

(** Chunk [i] is read from the untagged buffer address plus its offset. *)
Lemma chunk_addr_untagged buffer i :
  0 <= i < MAX_CHUNKS -> wrap 56 buffer + i * CHUNK_SIZE < 2 ^ 56 ->
  chunk_addr buffer i = wrap 56 buffer + i * CHUNK_SIZE.
Proof.
  unfold MAX_CHUNKS, CHUNK_SIZE. intros Hi Ha. unfold chunk_addr, CHUNK_SIZE, u32, u64.
  rewrite (wrap_small 32) by (unfold fits; lia).
  change 0x00FFFFFFFFFFFFFF with (Z.ones 56). rewrite land_ones_wrap by lia.
  unfold wrap in *. change (2 ^ 64) with (2 ^ 56 * 2 ^ 8).
  rewrite Z.rem_mul_r by lia. rewrite (Z.mul_comm (2 ^ 56)), Z.mod_add by lia.
  rewrite Z.mod_mod, <- Zplus_mod_idemp_l by lia.
  pose proof (Z.mod_pos_bound buffer (2 ^ 56)). apply Z.mod_small. lia.
Qed.

(** [reads_user c m a n]: the user memory at [a, a + n) is mapped and holds
    [m] while the probe runs. *)
Definition reads_user (c : probe_ctx) (m : Z -> Z) (a n : Z) : Prop :=
  forall a' k dst, a <= a' -> a' + Z.of_nat k <= a + n -> (k <= length dst)%nat ->
    take k (uread c a' k dst) = mem_bytes m a' k.

(** The data of all chunks, concatenated and cut at the parcel size, is the
    parcel. *)
Lemma chunks_carry_parcel c ti buffer m recs :
  ctx_ok c -> 0 < ti_data_size ti <= MAX_CHUNKS * CHUNK_SIZE ->
  wrap 56 buffer + ti_data_size ti <= 2 ^ 56 ->
  reads_user c m (wrap 56 buffer) (ti_data_size ti) ->
  Z.of_nat (length recs) = total_chunks_of (ti_data_size ti) ->
  (forall j raw, recs !! j = Some raw -> is_chunk c ti buffer (Z.of_nat j) raw) ->
  take (Z.to_nat (ti_data_size ti)) (concat ((ev_chunk_data ∘ view_main) <$> recs)) =
  mem_bytes m (wrap 56 buffer) (Z.to_nat (ti_data_size ti)).
Proof.
  unfold MAX_CHUNKS, CHUNK_SIZE. intros Hc Hds Hb Hm Hlen Hch.
  rewrite total_chunks_small in Hlen by (unfold CHUNK_SIZE; lia). unfold CHUNK_SIZE in Hlen.
  set (ds := ti_data_size ti) in *.
  pose proof (Z.div_mod (ds + 1024 - 1) 1024 ltac:(done)).
  pose proof (Z.mod_pos_bound (ds + 1024 - 1) 1024 ltac:(done)).
  apply (take_concat_chunks m 1024); rewrite ?length_fmap; [lia|lia|lia|].
  intros j cd Hj. rewrite list_lookup_fmap in Hj.
  apply fmap_Some in Hj as (raw & Er & ->).
  assert (j < length recs)%nat by (by eapply lookup_lt_Some).
  destruct (Hch j raw Er) as (_ & dst & Hdst & Hv). unfold compose. rewrite Hv.
  cbn [ev_chunk_data chunk_event].
  split; [rewrite (uread_length c Hc); exact Hdst|].
  fold ds. rewrite chunk_size_small, chunk_addr_untagged by (unfold MAX_CHUNKS, CHUNK_SIZE; lia).
  unfold CHUNK_SIZE. set (k := Z.to_nat (Z.min 1024 (ds - Z.of_nat j * 1024))).
  replace (Nat.min 1024 (Z.to_nat ds - 1024 * j)) with k by lia.
  replace (Z.of_nat (1024 * j)) with (Z.of_nat j * 1024) by lia.
  rewrite <- (Hm _ k dst); [|lia|lia|].
  - destruct (Nat.le_gt_cases 1024 (Z.to_nat ds - 1024 * j)) as [Hge|Hlt].
    + rewrite !take_ge; [done| |]; rewrite (uread_length c Hc), Hdst; unfold CHUNK_SIZE; lia.
    + f_equal. lia.
  - rewrite Hdst. unfold CHUNK_SIZE. lia.
Qed.
End Correctness.
