(* ===== verification/BpfMain.v ===== *)
(** * What the main probe captures

    Theorems about [kprobe_binder_transaction]: a transaction that passes the
    filter leaves one stack record and the complete parcel in the ring, a
    full ring only ever cuts the sequence short, and the other maps are left
    alone. *)

From S2P Require Import Prelude CLayout Records BpfRuntime Vmlinux.
From S2P Require Import SimKernel BpfCoreRead BpfPrograms BpfRecords BpfProofs.

(** ** Room and readability on the concrete kernel *)

Lemma sim_room k r : Z.of_nat k * 1120 <= sim_free r -> room (K := SimKernel) k r.
Proof.
  revert r. induction k as [|k IH]; intros r Hk; cbn [room]; [done|].
  rewrite binder_trace_event_size. intros n Hn.
  assert (8 + align_up n 8 <= 1120).
  { unfold align_up. assert ((n + 8 - 1) / 8 < 140) by (apply Z.div_lt_upper_bound; lia). lia. }
  cbn [ringbuf_reserve SimKernel]. unfold sim_reserve. bdestr; [|lia].
  eexists _, _. split; [done|]. intros b'. apply IH. cbn. lia.
Qed.

Lemma sim_reads_user regs args tgid pid gid uid cpu kmem umem a n :
  reads_user (sim_ctx regs args tgid pid gid uid cpu kmem umem) umem a n.
Proof.
  intros a' k dst _ _ Hk. cbn. unfold sim_uread.
  rewrite Nat.min_l by done. rewrite take_app_le by (rewrite length_mem_bytes; lia).
  rewrite take_ge; [done|]. rewrite length_mem_bytes. lia.
Qed.

Section Main.
Context `{KL : BpfKernelLaws} `{T : CoreTarget}.

(** [raw] is the stack record of transaction [txid]: its depth is the number
    of frames bpf_get_stack returned, or -1, and its frames are the buffer
    bpf_get_stack left. *)
Definition is_stack (c : probe_ctx) (txid : Z) (raw : list Z) : Prop :=
  Z.of_nat (length raw) = csize stack_trace_event /\
  get_field stack_trace_event "magic" raw = STACK_RECORD_MAGIC /\
  exists dst kstack, length dst = 256%nat /\
    view_stack raw = StackEvent txid (cur_tgid c) (cur_pid c) 0
      (stack_depth (get_stack c dst).1) kstack (words 32 (get_stack c dst).2).

Lemma submit_stack_outside c txid s :
  outside_ring (submit_stack_record c txid s) = outside_ring s.
Proof.
  unfold submit_stack_record. pose proof (reserve_outside stack_trace_event s) as H.
  by destruct (reserve _ _) as [[b|] s'].
Qed.

Lemma submit_stack_records c txid s :
  ctx_ok c -> fits 64 txid ->
  exists st, records (submit_stack_record c txid s) = records s ++ st /\
    Forall (is_stack c txid) st /\ (length st <= 1)%nat /\
    forall k, room (S k) (trace_event_map s) ->
      length st = 1%nat /\ room k (trace_event_map (submit_stack_record c txid s)).
Proof.
  intros Hc Ht. unfold submit_stack_record.
  destruct (reserve stack_trace_event s) as [ob s'] eqn:E.
  pose proof (reserve_keeps stack_trace_event s) as Hk. rewrite E in Hk. cbn in Hk.
  assert (Hrr : forall k, room (S k) (trace_event_map s) -> exists b, ob = Some b /\
    forall b', room k (trace_event_map (submit b' s'))).
  { intros k Hr. destruct (room_reserve k stack_trace_event s) as (b & s'' & E' & H');
      [vm_compute; intuition discriminate|done|]. rewrite E in E'. injection E' as -> <-. eauto. }
  destruct ob as [b|].
  - exists [fill_stack_record c txid b]. rewrite submit_appends, Hk. split; [done|].
    split; [|split; [done|]].
    + apply Forall_cons; [|done].
      destruct (view_stack_record c txid b Hc Ht) as (dst & ks & ? & ? & ? & ?);
        [by eapply reserve_size; [|exact E]|]. split; [done|]. split; [done|]. eauto.
    + intros k Hr. destruct (Hrr k Hr) as (? & _ & ?). auto.
  - exists []. rewrite app_nil_r. repeat split; [done|done|cbn; lia|..];
      by destruct (Hrr k H) as (? & ? & _).
Qed.

(** ** The whole program *)

(** The transaction id the program draws: the first reading of the clock. *)
Definition next_txid (s : bpf_state) : Z := (ktime_get_ns (kclock s)).1.

Lemma next_txid_fits s : fits 64 (next_txid s).
Proof. apply ktime_range. Qed.

(** The state after a request or reply that passed the filter has been noted
    in tid_to_txid_map. *)
Definition noted (c : probe_ctx) (s : bpf_state) : bpf_state :=
  let s1 := with_clock s (ktime_get_ns (kclock s)).2 in
  if kprobe_reply c =? 0
  then with_txid s1 (map_update (tid_to_txid_map s1) (current_tid c) (next_txid s)) else s1.

Lemma kprobe_runs c s conf_uid :
  config_uid s = Some conf_uid -> kprobe_tr c <> 0 ->
  filtered_out conf_uid (effective_uid c) = false ->
  kprobe_binder_transaction c s =
  let ti := tx_info_of c (next_txid s) in
  if MAX_CHUNKS <? total_chunks_of (ti_data_size ti) then noted c s
  else chunk_loop c ti (data_buffer c) (total_chunks_of (ti_data_size ti)) (Z.to_nat MAX_CHUNKS) 0
         (submit_stack_record c (next_txid s) (noted c s)).
Proof.
  intros Hcf Htr Hf. unfold kprobe_binder_transaction. rewrite Hcf.
  destruct (Z.eqb_spec (kprobe_tr c) 0); [done|].
  unfold read_clock, noted, next_txid.
  destruct (ktime_get_ns (kclock s)) as [t k]; cbn [fst snd]. by rewrite Hf.
Qed.

Lemma records_noted c s : records (noted c s) = records s.
Proof. unfold noted. by case_match. Qed.

Lemma ring_noted c s : trace_event_map (noted c s) = trace_event_map s.
Proof. unfold noted. by case_match. Qed.

(** What the program submits, whatever the state of the ring: at most one
    stack record, then the chunks 0, 1, ... in order; all of them when the
    ring has room. *)
Lemma kprobe_submits c s conf_uid :
  ctx_ok c -> config_uid s = Some conf_uid -> kprobe_tr c <> 0 ->
  filtered_out conf_uid (effective_uid c) = false ->
  let ti := tx_info_of c (next_txid s) in
  let n := total_chunks_of (ti_data_size ti) in
  n <= MAX_CHUNKS ->
  exists st chunks,
    records (kprobe_binder_transaction c s) = records s ++ st ++ chunks /\
    (length st <= 1)%nat /\ Forall (is_stack c (next_txid s)) st /\
    Z.of_nat (length chunks) <= n /\
    (forall j raw, chunks !! j = Some raw ->
       is_chunk c ti (data_buffer c) (Z.of_nat j) raw) /\
    (room 17 (trace_event_map s) -> length st = 1%nat /\ Z.of_nat (length chunks) = n).
Proof.
  intros Hc Hcf Htr Hf ti n Hn. subst ti n.
  rewrite (kprobe_runs c s conf_uid) by done. cbv zeta.
  destruct (Z.ltb_spec MAX_CHUNKS (total_chunks_of (ti_data_size (tx_info_of c (next_txid s)))));
    [lia|].
  pose proof (next_txid_fits s) as Ht.
  destruct (submit_stack_records c (next_txid s) (noted c s) Hc Ht)
    as (st & Hst & Hsf & Hsl & Hsr).
  destruct (chunk_loop_records c Hc (tx_info_of c (next_txid s)) (tx_info_of_ok c Hc _ Ht)
    (data_buffer c) (total_chunks_of (ti_data_size (tx_info_of c (next_txid s))))
    (Z.to_nat MAX_CHUNKS) 0 (submit_stack_record c (next_txid s) (noted c s)))
    as (chunks & Hch & Hchk & Hle & Hroom); [lia|done|].
  assert (0 <= total_chunks_of (ti_data_size (tx_info_of c (next_txid s)))) by
    (by apply (wrap_fits 32)).
  exists st, chunks. rewrite Hch, Hst, records_noted, <- app_assoc. split; [done|].
  rewrite Z.sub_0_r in *. change (Z.to_nat MAX_CHUNKS) with 16%nat in *.
  change MAX_CHUNKS with 16 in *. split_and!; [done|done|lia|exact Hchk|].
  intros Hr. rewrite ring_noted in Hsr. destruct (Hsr 16%nat Hr) as [? Hr'].
  split; [done|]. rewrite Hroom by done. lia.
Qed.

Lemma noted_frame c s :
  trace_config_map (noted c s) = trace_config_map s /\ pending_map (noted c s) = pending_map s /\
  ringbuf_overflow_map (noted c s) = ringbuf_overflow_map s.
Proof. unfold noted. by case_match. Qed.

Lemma noted_txid c s :
  kprobe_reply c = 0 ->
  map_lookup (tid_to_txid_map (noted c s)) (current_tid c) = Some (next_txid s).
Proof. intros Hr. unfold noted. rewrite Hr. cbn. apply update_same. Qed.

(** Either the guards let the transaction through, or at most the clock
    moves. *)
Lemma kprobe_cases c s :
  (exists conf_uid, config_uid s = Some conf_uid /\ kprobe_tr c <> 0 /\
    filtered_out conf_uid (effective_uid c) = false) \/
  exists k, kprobe_binder_transaction c s = with_clock s k.
Proof.
  assert (Hid : with_clock s (kclock s) = s) by (by destruct s).
  unfold kprobe_binder_transaction.
  destruct (config_uid s) as [cu|] eqn:Hcf; [|eauto].
  destruct (Z.eqb_spec (kprobe_tr c) 0); [eauto|].
  unfold read_clock. destruct (ktime_get_ns (kclock s)) as [t k].
  destruct (filtered_out cu (effective_uid c)) eqn:Hf; [eauto|]. left. eauto.
Qed.

Lemma kprobe_outside c s conf_uid :
  config_uid s = Some conf_uid -> kprobe_tr c <> 0 ->
  filtered_out conf_uid (effective_uid c) = false ->
  outside_ring (kprobe_binder_transaction c s) = outside_ring (noted c s).
Proof.
  intros Hcf Htr Hf. rewrite (kprobe_runs c s conf_uid) by done. cbv zeta. case_match; [done|].
  by rewrite chunk_loop_outside, submit_stack_outside.
Qed.

Lemma kprobe_frame c s :
  pending_map (kprobe_binder_transaction c s) = pending_map s /\
  trace_config_map (kprobe_binder_transaction c s) = trace_config_map s /\
  ringbuf_overflow_map (kprobe_binder_transaction c s) = ringbuf_overflow_map s.
Proof.
  pose proof (noted_frame c s) as (Hn1 & Hn2 & Hn3).
  destruct (kprobe_cases c s) as [(cu & Hcf & Htr & Hf)|[k ->]]; [|done].
  pose proof (kprobe_outside c s cu Hcf Htr Hf) as Ho.
  unfold outside_ring in Ho. split_and!; congruence.
Qed.

End Main.

(** ** Properties *)

(** C24: A transaction that passes the filter, whose parcel is at most 16 KiB
    and readable, and for which the ring has room, leaves exactly one stack
    record followed by ceil(size / 1024) chunk records in order; every chunk
    carries the transaction's identity, and the chunk data concatenated and
    cut at the parcel size are the bytes of the parcel in the sender's
    memory at the untagged buffer address. *)
Theorem kprobe_captures_parcel `{KL : BpfKernelLaws} `{T : CoreTarget} c s m conf_uid :
  ctx_ok c -> config_uid s = Some conf_uid -> kprobe_tr c <> 0 ->
  filtered_out conf_uid (effective_uid c) = false ->
  let ti := tx_info_of c (next_txid s) in
  let ds := ti_data_size ti in
  let addr := wrap 56 (data_buffer c) in
  0 < ds <= MAX_CHUNKS * CHUNK_SIZE -> addr + ds <= 2 ^ 56 ->
  reads_user c m addr ds -> room 17 (trace_event_map s) ->
  exists st chunks,
    records (kprobe_binder_transaction c s) = records s ++ st :: chunks /\
    is_stack c (next_txid s) st /\
    Z.of_nat (length chunks) = (ds + CHUNK_SIZE - 1) / CHUNK_SIZE /\
    (forall j raw, chunks !! j = Some raw ->
       exists data, length data = Z.to_nat CHUNK_SIZE /\
         view_main raw = chunk_event ti (Z.of_nat j) data) /\
    take (Z.to_nat ds) (concat ((ev_chunk_data ∘ view_main) <$> chunks)) =
    mem_bytes m addr (Z.to_nat ds).
Proof.
  intros Hc Hcf Htr Hf ti ds addr Hds Hb Hm Hr.
  assert (total_chunks_of ds = (ds + CHUNK_SIZE - 1) / CHUNK_SIZE) as Htc
    by (apply total_chunks_small; unfold MAX_CHUNKS, CHUNK_SIZE in *; lia).
  assert (total_chunks_of ds <= MAX_CHUNKS) as Hmax.
  { rewrite Htc. unfold MAX_CHUNKS, CHUNK_SIZE in *.
    enough ((ds + 1024 - 1) / 1024 < 17) by lia. apply Z.div_lt_upper_bound; lia. }
  destruct (kprobe_submits c s conf_uid Hc Hcf Htr Hf Hmax)
    as (sts & chunks & Hrec & _ & Hsts & _ & Hchk & Hroom).
  destruct (Hroom Hr) as [Hl1 Hl2]. destruct sts as [|st [|? ?]]; try done.
  exists st, chunks. split; [done|]. split; [by apply Forall_inv in Hsts|].
  split; [by rewrite <- Htc|]. split.
  - intros j raw Hj. destruct (Hchk j raw Hj) as (_ & dst & Hdst & Hv).
    eexists. split; [|exact Hv]. by rewrite (uread_length c Hc).
  - by apply (chunks_carry_parcel c ti (data_buffer c) m chunks).
Qed.

Lemma kprobe_captures_parcel_witness :
  let c := sim_call 0 1500 0xb400007000010000 10123 1201 in
  let s := sim_state 10123 5000 in
  exists st chunks,
    records (kprobe_binder_transaction c s) = st :: chunks /\
    is_stack c 5000 st /\ Z.of_nat (length chunks) = 2 /\
    (forall j raw, chunks !! j = Some raw ->
       exists data, length data = 1024%nat /\
         view_main raw = chunk_event (tx_info_of c 5000) (Z.of_nat j) data) /\
    take 1500 (concat ((ev_chunk_data ∘ view_main) <$> chunks)) =
    mem_bytes (λ a, wrap 8 (a * 7)) 0x7000010000 1500.
Proof.
  intros c s.
  assert (ti_data_size (tx_info_of c (next_txid s)) = 1500) as Eds by (vm_compute; reflexivity).
  assert (wrap 56 (data_buffer c) = 0x7000010000) as Eaddr by (vm_compute; reflexivity).
  pose proof (kprobe_captures_parcel c s (λ a, wrap 8 (a * 7)) 10123) as H.
  cbv zeta in H. rewrite Eds, Eaddr in H.
  apply H; [apply sim_ctx_ok|reflexivity|discriminate|reflexivity|split; vm_compute; congruence
    |vm_compute; congruence|apply sim_reads_user|apply sim_room; vm_compute; congruence].
Defined.

(** Whatever the state of the ring, what the main probe submits for a
    transaction that passes the filter and the size guard is at most one
    stack record followed by an initial segment of the chunk sequence 0, 1,
    2, ...: a reservation failure ends the sequence, it never reorders it or
    leaves a hole; and no reservation failure is counted in
    ringbuf_overflow_map. *)
Theorem kprobe_full_ring_cuts_tail `{KL : BpfKernelLaws} `{T : CoreTarget} c s conf_uid :
  ctx_ok c -> config_uid s = Some conf_uid -> kprobe_tr c <> 0 ->
  filtered_out conf_uid (effective_uid c) = false ->
  let ti := tx_info_of c (next_txid s) in
  total_chunks_of (ti_data_size ti) <= MAX_CHUNKS ->
  exists st chunks,
    records (kprobe_binder_transaction c s) = records s ++ st ++ chunks /\
    (length st <= 1)%nat /\ Forall (is_stack c (next_txid s)) st /\
    Z.of_nat (length chunks) <= total_chunks_of (ti_data_size ti) /\
    (forall j raw, chunks !! j = Some raw -> is_chunk c ti (data_buffer c) (Z.of_nat j) raw) /\
    ringbuf_overflow_map (kprobe_binder_transaction c s) = ringbuf_overflow_map s.
Proof.
  intros Hc Hcf Htr Hf ti Hn.
  destruct (kprobe_submits c s conf_uid Hc Hcf Htr Hf Hn)
    as (st & chunks & ? & ? & ? & ? & ? & _).
  exists st, chunks. split_and!; auto. apply kprobe_frame.
Qed.

(** A ring that holds the stack record and one chunk of a two-chunk parcel. *)
Definition sim_tight_state : bpf_state :=
  with_ring (sim_state 0 5000) (SimRing 1700 []).

Lemma kprobe_full_ring_cuts_tail_witness :
  let c := sim_call 0 1500 0xb400007000010000 10123 1201 in
  length (records (kprobe_binder_transaction c sim_tight_state)) = 2%nat /\
  exists st chunks,
    records (kprobe_binder_transaction c sim_tight_state) = st ++ chunks /\
    (length st <= 1)%nat /\ Forall (is_stack c 5000) st /\ Z.of_nat (length chunks) <= 2.
Proof.
  intros c. split; [vm_compute; reflexivity|].
  destruct (kprobe_full_ring_cuts_tail c sim_tight_state 0) as (st & chunks & H & ? & ? & ? & _);
    [apply sim_ctx_ok|reflexivity|discriminate|reflexivity|vm_compute; congruence|].
  exists st, chunks. split; [exact H|]. split; [done|]. split; [done|].
  replace 2 with (total_chunks_of (ti_data_size (tx_info_of c (next_txid sim_tight_state))));
    [done|vm_compute; reflexivity].
Defined.

Lemma unselected_ignored `{KL : BpfKernelLaws} `{T : CoreTarget} c s :
  match config_uid s with
  | None => True
  | Some conf_uid => kprobe_tr c = 0 \/ filtered_out conf_uid (effective_uid c) = true
  end ->
  records (kprobe_binder_transaction c s) = records s /\
  pending_map (kprobe_binder_transaction c s) = pending_map s /\
  tid_to_txid_map (kprobe_binder_transaction c s) = tid_to_txid_map s.
Proof.
  unfold kprobe_binder_transaction. destruct (config_uid s) as [cu|]; [|done].
  intros H. destruct (Z.eqb_spec (kprobe_tr c) 0); [done|].
  destruct H as [|Hf]; [done|]. unfold read_clock.
  destruct (ktime_get_ns (kclock s)). by rewrite Hf.
Qed.


(** The main probe submits a record, or notes a transaction id, only for
    transactions the configuration asks for: with no configuration, a null
    transaction descriptor, or a uid filter that does not match, records and
    maps are unchanged. *)
Theorem kprobe_ignores_unselected `{KL : BpfKernelLaws} `{T : CoreTarget} c s :
  match config_uid s with
  | None => True
  | Some conf_uid => kprobe_tr c = 0 \/ filtered_out conf_uid (effective_uid c) = true
  end ->
  records (kprobe_binder_transaction c s) = records s /\
  pending_map (kprobe_binder_transaction c s) = pending_map s /\
  tid_to_txid_map (kprobe_binder_transaction c s) = tid_to_txid_map s.
Proof. apply unselected_ignored. Qed.

Lemma kprobe_ignores_unselected_witness :
  let c := sim_call 0 1500 0xb400007000010000 10123 1201 in
  records (kprobe_binder_transaction c (sim_state 10200 5000)) = [].
Proof.
  intros c. destruct (kprobe_ignores_unselected c (sim_state 10200 5000)) as [H _];
    [right; vm_compute; reflexivity|exact H].
Defined.

(** The uid filter of the main probe compares the configured uid with the
    group id of the calling task on a request: a task whose uid is the
    configured one, but whose group id is another, is not traced. *)
Theorem request_filter_compares_gid `{KL : BpfKernelLaws} `{T : CoreTarget} c s conf_uid :
  ctx_ok c -> config_uid s = Some conf_uid -> kprobe_reply c = 0 ->
  conf_uid <> 0 -> cur_uid c = conf_uid -> cur_gid c <> conf_uid ->
  records (kprobe_binder_transaction c s) = records s.
Proof.
  intros Hc Hcf Hr H0 _ Hg. unfold kprobe_binder_transaction. rewrite Hcf.
  case_match; [done|]. unfold read_clock.
  destruct (ktime_get_ns (kclock s)). unfold filtered_out, effective_uid. rewrite Hr.
  rewrite current_uid_is_gid by done. cbn [Z.eqb].
  destruct (Z.eqb_spec conf_uid 0), (Z.eqb_spec conf_uid (cur_gid c)); done || congruence.
Qed.

Lemma request_filter_compares_gid_witness :
  let c := sim_call 0 1500 0xb400007000010000 2000 1201 in
  cur_uid c = 10123 /\ records (kprobe_binder_transaction c (sim_state 10123 5000)) = [].
Proof.
  intros c. split; [reflexivity|].
  apply (request_filter_compares_gid c (sim_state 10123 5000) 10123);
    [apply sim_ctx_ok|reflexivity|reflexivity|lia|reflexivity|vm_compute; congruence].
Defined.

(** A parcel larger than 16 KiB and below 4 TiB is not captured: no
    record is submitted; but for a request the transaction id has been noted
    in tid_to_txid_map before the size check. *)
Theorem kprobe_oversize_not_captured `{KL : BpfKernelLaws} `{T : CoreTarget} c s conf_uid :
  config_uid s = Some conf_uid -> kprobe_tr c <> 0 -> kprobe_reply c = 0 ->
  filtered_out conf_uid (effective_uid c) = false ->
  MAX_CHUNKS * CHUNK_SIZE < ti_data_size (tx_info_of c (next_txid s)) <= 2 ^ 42 - CHUNK_SIZE ->
  records (kprobe_binder_transaction c s) = records s /\
  map_lookup (tid_to_txid_map (kprobe_binder_transaction c s)) (current_tid c) =
    Some (next_txid s).
Proof.
  intros Hcf Htr Hr Hf Hds. rewrite (kprobe_runs c s conf_uid) by done. cbv zeta.
  assert (MAX_CHUNKS < total_chunks_of (ti_data_size (tx_info_of c (next_txid s)))) as Hlt.
  { rewrite total_chunks_small by (unfold MAX_CHUNKS, CHUNK_SIZE in *; lia).
    unfold MAX_CHUNKS, CHUNK_SIZE in *. enough (17 <= (ti_data_size (tx_info_of c
      (next_txid s)) + 1024 - 1) / 1024) by lia. apply Z.div_le_lower_bound; lia. }
  apply Z.ltb_lt in Hlt. rewrite Hlt. split; [apply records_noted|by apply noted_txid].
Qed.

Lemma kprobe_oversize_not_captured_witness :
  let c := sim_call 0 16385 0xb400007000010000 10123 1201 in
  let s := sim_state 10123 5000 in
  records (kprobe_binder_transaction c s) = [] /\
  map_lookup (tid_to_txid_map (kprobe_binder_transaction c s)) 1201 = Some 5000.
Proof.
  intros c s. apply (kprobe_oversize_not_captured c s 10123);
    [reflexivity|discriminate|reflexivity|reflexivity|split; vm_compute; congruence].
Defined.

(** The 32-bit chunk count wraps: a transaction that declares
    2^42 + 1 bytes passes the size guard on the concrete kernel, and is
    submitted as one chunk record that still declares 2^42 + 1 bytes. *)
Theorem kprobe_chunk_count_wraps :
  let c := sim_call 0 (2 ^ 42 + 1) 0xb400007000010000 10123 1201 in
  total_chunks_of (2 ^ 42 + 1) = 1 /\
  exists st chunk,
    records (kprobe_binder_transaction c (sim_state 10123 5000)) = [st; chunk] /\
    ev_data_size (view_main chunk) = 2 ^ 42 + 1.
Proof.
  intros c. split; [reflexivity|].
  exists (nth 0 (records (kprobe_binder_transaction c (sim_state 10123 5000))) []).
  exists (nth 1 (records (kprobe_binder_transaction c (sim_state 10123 5000))) []).
  split; vm_compute; reflexivity.
Qed.
