(* ===== verification/BpfChain.v ===== *)
(** * The cookie bridge and the programs together

    [kprobe_binder_transaction_cookie] announces a cookie for the transaction
    id the main probe noted for the thread; [raw_tp_binder_transaction] picks
    the cookie up once and reports the receiver under it.  Then the three
    programs as steps on the shared maps: what holds in every state reached
    by any interleaving of invocations. *)

From S2P Require Import Prelude CLayout Records BpfRuntime Vmlinux.
From S2P Require Import SimKernel BpfCoreRead BpfPrograms BpfRecords BpfProofs BpfMain.

(** ** Programs as steps *)

Inductive bpf_prog := MainProbe | CookieProbe | RawTp.

Definition run_prog `{K : BpfKernel} `{T : CoreTarget} (p : bpf_prog) (c : probe_ctx)
    (s : bpf_state) : bpf_state :=
  match p with
  | MainProbe => kprobe_binder_transaction c s
  | CookieProbe => kprobe_binder_transaction_cookie c s
  | RawTp => raw_tp_binder_transaction c s
  end.

Inductive bpf_step `{K : BpfKernel} `{T : CoreTarget} : bpf_state -> bpf_state -> Prop :=
| BpfStep p c s : ctx_ok c -> bpf_step s (run_prog p c s).

(** The arguments of the tracepoint *)
Abbreviation tp_reply c := (s32 (default 0 (ctx_args c !! 0%nat))) (only parsing).
Abbreviation tp_transaction c := (default 0 (ctx_args c !! 1%nat)) (only parsing).

Section Chain.
Context `{KL : BpfKernelLaws} `{T : CoreTarget}.

(** ** Cookies *)

Lemma cookie_of_val ts cpu :
  fits 64 ts -> 0 <= cpu -> cookie_of ts cpu = wrap 56 ts * 256 + wrap 8 cpu.
Proof.
  intros Hts Hcpu. unfold cookie_of. change 0xff with (Z.ones 8). rewrite land_ones_wrap by lia.
  assert (u64 (Z.shiftl ts 8) = Z.shiftl (wrap 56 ts) 8) as ->.
  { unfold u64, wrap. rewrite !Z.shiftl_mul_pow2 by lia.
    change (2 ^ 64) with (2 ^ 56 * 2 ^ 8). rewrite Z.mul_mod_distr_r by lia. done. }
  rewrite lor_shiftl_add; auto with btrace.
Qed.

Lemma cookie_of_fits ts cpu : fits 64 ts -> 0 <= cpu -> fits 64 (cookie_of ts cpu).
Proof.
  intros Hts Hcpu. rewrite cookie_of_val by done.
  pose proof (wrap_fits 56 ts ltac:(lia)) as [? ?]. pose proof (wrap_fits 8 cpu ltac:(lia)) as [? ?].
  unfold fits. lia.
Qed.

(** ** Frames of reserve-or-count *)

(** What the cookie probe and the raw tracepoint end with: submit a filled
    record of type [t], or count the failure. *)
Definition submit_or_count (cpu : Z) (t : ctype) (fill : list Z -> list Z) (s : bpf_state)
    : bpf_state :=
  match reserve t s with
  | (None, s) => inc_overflow cpu RB_OVF_SLOT_SIDEBAND s
  | (Some e, s) => submit (fill e) s
  end.

Lemma inc_overflow_frame cpu slot s :
  trace_config_map (inc_overflow cpu slot s) = trace_config_map s /\
  pending_map (inc_overflow cpu slot s) = pending_map s /\
  tid_to_txid_map (inc_overflow cpu slot s) = tid_to_txid_map s /\
  records (inc_overflow cpu slot s) = records s /\
  forall cpu' slot', slot' <> slot ->
    percpu_lookup (ringbuf_overflow_map (inc_overflow cpu slot s)) cpu' slot' =
    percpu_lookup (ringbuf_overflow_map s) cpu' slot'.
Proof.
  unfold inc_overflow. case_match; [|done]. split_and!; try done.
  intros cpu' slot' Hne. cbn. apply store_other. congruence.
Qed.

Lemma soc_frame cpu t fill s :
  trace_config_map (submit_or_count cpu t fill s) = trace_config_map s /\
  pending_map (submit_or_count cpu t fill s) = pending_map s /\
  tid_to_txid_map (submit_or_count cpu t fill s) = tid_to_txid_map s /\
  forall cpu', percpu_lookup (ringbuf_overflow_map (submit_or_count cpu t fill s)) cpu' RB_OVF_SLOT_MAIN =
    percpu_lookup (ringbuf_overflow_map s) cpu' RB_OVF_SLOT_MAIN.
Proof.
  unfold submit_or_count. pose proof (reserve_outside t s) as Ho.
  destruct (reserve t s) as [[e|] s']; unfold outside_ring in Ho; cbn in Ho.
  - split_and!; cbn; intros; congruence.
  - destruct (inc_overflow_frame cpu RB_OVF_SLOT_SIDEBAND s') as (?&?&?&?&Hs).
    split_and!; [congruence..|]. intros cpu'. rewrite Hs by done. congruence.
Qed.

(** One record of the filled type, or none. *)
Lemma soc_records cpu t fill s :
  cwf t = true ->
  exists l, records (submit_or_count cpu t fill s) = records s ++ l /\ (length l <= 1)%nat /\
    Forall (λ raw, exists e, Z.of_nat (length e) = csize t /\ raw = fill e) l /\
    (0 <= csize t <= csize binder_trace_event -> room 1 (trace_event_map s) ->
     length l = 1%nat).
Proof.
  intros Hwf. unfold submit_or_count. pose proof (reserve_keeps t s) as Hk.
  destruct (reserve t s) as [[e|] s'] eqn:E; cbn [snd] in Hk.
  - exists [fill e]. rewrite submit_appends, Hk. split_and!; [done|done| |done].
    apply Forall_cons; [|done]. exists e. split; [by eapply reserve_size|done].
  - exists []. destruct (inc_overflow_frame cpu RB_OVF_SLOT_SIDEBAND s') as (_&_&_&Hr&_).
    rewrite Hr, Hk, app_nil_r. split_and!; [done|cbn; lia|done|].
    intros Ht Hroom. destruct (room_reserve 0 t s Ht Hroom) as (?&?&E'&_). by rewrite E in E'.
Qed.

(** ** The cookie probe *)

Definition next_cookie (c : probe_ctx) (s : bpf_state) : Z :=
  cookie_of (ktime_get_ns (kclock s)).1 (cur_cpu c).

(** The probe runs to its end on a request of a selected task whose
    transaction id has been noted. *)
Lemma cookie_runs c s conf_uid txid :
  config_uid s = Some conf_uid -> kprobe_reply c = 0 ->
  filtered_out conf_uid (current_uid c) = false ->
  map_lookup (tid_to_txid_map s) (current_tid c) = Some txid -> txid <> 0 ->
  next_cookie c s <> 0 ->
  kprobe_binder_transaction_cookie c s =
  submit_or_count (cur_cpu c) binder_cookie_sideband
    (fill_cookie_record (next_cookie c s) txid (current_tid c))
    (with_pending (with_clock s (ktime_get_ns (kclock s)).2)
       (map_update (pending_map s) (current_tid c) (next_cookie c s))).
Proof.
  intros Hcf Hr Hf Ht Ht0 Hck. unfold kprobe_binder_transaction_cookie, next_cookie in *.
  rewrite Hcf, Hr, Hf, Ht. cbn [Z.eqb negb].
  destruct (Z.eqb_spec txid 0); [done|]. unfold read_clock.
  destruct (ktime_get_ns (kclock s)) as [ts k]; cbn [fst snd] in *.
  by destruct (Z.eqb_spec (cookie_of ts (cur_cpu c)) 0).
Qed.

(** Otherwise only the clock can change. *)
Lemma cookie_cases c s :
  (exists conf_uid txid, config_uid s = Some conf_uid /\ kprobe_reply c = 0 /\
    filtered_out conf_uid (current_uid c) = false /\
    map_lookup (tid_to_txid_map s) (current_tid c) = Some txid /\ txid <> 0 /\
    next_cookie c s <> 0) \/
  exists k, kprobe_binder_transaction_cookie c s = with_clock s k.
Proof.
  assert (Hid : with_clock s (kclock s) = s) by (by destruct s).
  unfold kprobe_binder_transaction_cookie, next_cookie.
  destruct (config_uid s) as [cu|] eqn:Hcf; [|eauto].
  destruct (Z.eqb_spec (kprobe_reply c) 0) as [Hr|]; cbn [negb]; [|eauto].
  destruct (filtered_out cu (current_uid c)) eqn:Hf; [eauto|].
  destruct (map_lookup (tid_to_txid_map s) (current_tid c)) as [txid|] eqn:Ht; [|eauto].
  destruct (Z.eqb_spec txid 0) as [|Ht0]; [eauto|].
  unfold read_clock. destruct (ktime_get_ns (kclock s)) as [ts k]; cbn [fst].
  destruct (Z.eqb_spec (cookie_of ts (cur_cpu c)) 0); [eauto|]. left. eauto 10.
Qed.

Lemma cookie_kind cookie txid tid e :
  Z.of_nat (length e) = csize binder_cookie_sideband ->
  get_field binder_cookie_sideband "kind" (fill_cookie_record cookie txid tid e) = EVT_KIND_COOKIE.
Proof.
  intros He. assert (length e = Z.to_nat (csize binder_cookie_sideband)) by lia.
  assert (fits 8 EVT_KIND_COOKIE) by by_names.
  unfold fill_cookie_record. field_read binder_cookie_sideband_ok.
Qed.

Lemma sideband_kind uns cookie did to_pid to_uid e :
  Z.of_nat (length e) = csize binder_sideband_event ->
  get_field binder_sideband_event "kind"
    (fill_sideband_record uns cookie did to_pid to_uid e) = EVT_KIND_SIDEBAND.
Proof.
  intros He. assert (length e = Z.to_nat (csize binder_sideband_event)) by lia.
  assert (fits 8 EVT_KIND_SIDEBAND) by by_names.
  unfold fill_sideband_record. field_read binder_sideband_event_ok.
Qed.

(** [raw] is a cookie record, a sideband record with these contents. *)
Definition is_cookie (v : cookie_sideband) (raw : list Z) : Prop :=
  Z.of_nat (length raw) = csize binder_cookie_sideband /\
  get_field binder_cookie_sideband "kind" raw = EVT_KIND_COOKIE /\ view_cookie raw = v.

Definition is_sideband (v : sideband_event) (raw : list Z) : Prop :=
  Z.of_nat (length raw) = csize binder_sideband_event /\
  get_field binder_sideband_event "kind" raw = EVT_KIND_SIDEBAND /\ view_sideband raw = v.

Lemma fill_cookie_is cookie txid tid e :
  Z.of_nat (length e) = csize binder_cookie_sideband ->
  fits 64 cookie -> fits 64 txid -> fits 32 tid ->
  is_cookie (CookieSideband cookie txid tid) (fill_cookie_record cookie txid tid e).
Proof.
  intros He ???. split_and!; [|by apply cookie_kind|by apply view_cookie_record].
  unfold fill_cookie_record. erewrite (length_after_stores _ _ _ _ binder_cookie_sideband_ok);
    [done|by_names|lia].
Qed.

Lemma fill_sideband_is uns cookie did to_pid to_uid e :
  Z.of_nat (length e) = csize binder_sideband_event ->
  fits 8 uns -> fits 64 cookie -> fits 64 did -> fits 32 to_pid -> fits 32 to_uid ->
  is_sideband (SidebandEvent uns cookie did to_pid to_uid)
    (fill_sideband_record uns cookie did to_pid to_uid e).
Proof.
  intros He ?????. split_and!; [|by apply sideband_kind|by apply view_sideband_record].
  unfold fill_sideband_record. erewrite (length_after_stores _ _ _ _ binder_sideband_event_ok);
    [done|by_names|lia].
Qed.

(** ** The raw tracepoint *)

(** The sideband event of transaction [t] under [cookie]. *)
Definition sideband_of (c : probe_ctx) (cookie : Z) : sideband_event :=
  let '(kernel_debug_id, to_pid, to_uid, unsupported) := sideband_fields c (tp_transaction c) in
  SidebandEvent unsupported cookie kernel_debug_id to_pid to_uid.

Lemma sideband_of_cookie c cookie : sb_cookie (sideband_of c cookie) = cookie.
Proof. unfold sideband_of. by destruct (sideband_fields c _) as [[[]]]. Qed.

Definition fill_sideband (v : sideband_event) (e : list Z) : list Z :=
  fill_sideband_record (sb_to_uid_unsupported v) (sb_cookie v) (sb_kernel_debug_id v)
    (sb_to_pid v) (sb_to_uid v) e.

Lemma raw_tp_runs c s conf_uid cookie :
  config_uid s = Some conf_uid -> tp_reply c = 0 -> tp_transaction c <> 0 ->
  map_lookup (pending_map s) (current_tid c) = Some cookie -> cookie <> 0 ->
  raw_tp_binder_transaction c s =
  submit_or_count (cur_cpu c) binder_sideband_event (fill_sideband (sideband_of c cookie))
    (with_pending s (map_delete (pending_map s) (current_tid c))).
Proof.
  intros Hcf Hr Ht Hp H0. unfold raw_tp_binder_transaction.
  rewrite Hcf, Hr. cbn [Z.eqb negb].
  destruct (Z.eqb_spec (tp_transaction c) 0); [done|]. rewrite Hp.
  destruct (Z.eqb_spec cookie 0); [done|].
  unfold sideband_of, fill_sideband, submit_or_count.
  by destruct (sideband_fields c (tp_transaction c)) as [[[did tp] tu] uns].
Qed.

Lemma raw_tp_cases c s :
  (exists conf_uid cookie, config_uid s = Some conf_uid /\ tp_reply c = 0 /\
    tp_transaction c <> 0 /\ map_lookup (pending_map s) (current_tid c) = Some cookie /\
    cookie <> 0) \/
  raw_tp_binder_transaction c s = s.
Proof.
  unfold raw_tp_binder_transaction.
  destruct (config_uid s) as [cu|]; [|auto].
  destruct (Z.eqb_spec (tp_reply c) 0); cbn [negb]; [|auto].
  destruct (Z.eqb_spec (tp_transaction c) 0); [auto|].
  destruct (map_lookup (pending_map s) (current_tid c)) as [cookie|]; [|auto].
  destruct (Z.eqb_spec cookie 0); [auto|]. left. eauto 10.
Qed.

Lemma sideband_of_is c cookie e :
  ctx_ok c -> fits 64 cookie -> Z.of_nat (length e) = csize binder_sideband_event ->
  is_sideband (sideband_of c cookie) (fill_sideband (sideband_of c cookie) e).
Proof.
  intros Hc Hck He. unfold sideband_of, fill_sideband, sideband_fields.
  assert (fits 8 0) by (by apply fits_0). assert (fits 8 1) by (by apply fits_1).
  assert (fits 32 0) by (by apply fits_0).
  destruct (core_field_exists "binder_proc" "cred");
    (apply fill_sideband_is; cbn [sb_to_uid_unsupported sb_cookie sb_kernel_debug_id sb_to_pid
       sb_to_uid]; first [done | by apply wrap_fits | by apply (core_read_fits c Hc 4)]).
Qed.

(** ** Room left by the main probe *)

Lemma room_mono k r : room (S k) r -> room k r.
Proof.
  revert r. induction k as [|k IH]; intros r Hr; [done|]. intros n Hn.
  destruct (Hr n Hn) as (b & r' & E & Hb). exists b, r'. split; [done|].
  intros b'. exact (IH _ (Hb b')).
Qed.

Lemma room_le j k r : (j <= k)%nat -> room k r -> room j r.
Proof. induction 1; [done|]. intros Hr. by apply IHle, room_mono. Qed.

Lemma chunk_loop_room c ti buffer total fuel i s k :
  room (fuel + k) (trace_event_map s) ->
  room k (trace_event_map (chunk_loop c ti buffer total fuel i s)).
Proof.
  revert i s. induction fuel as [|fuel IH]; intros i s Hr; cbn [chunk_loop]; [done|].
  case_match; [by apply (room_le k (S fuel + k)); [lia|]|].
  destruct (room_reserve (fuel + k) binder_trace_event s) as (b & s' & E & Hb);
    [rewrite binder_trace_event_size; lia|done|]. rewrite E. apply IH, Hb.
Qed.

Lemma kprobe_room c s k :
  ctx_ok c -> room (17 + k) (trace_event_map s) ->
  room k (trace_event_map (kprobe_binder_transaction c s)).
Proof.
  intros Hc Hr. assert (room k (trace_event_map s)) as Hk by (eapply room_le; [|done]; lia).
  destruct (kprobe_cases c s) as [(cu & Hcf & Htr & Hf)|[? ->]]; [|done].
  rewrite (kprobe_runs c s cu) by done. cbv zeta. case_match; [by rewrite ring_noted|].
  apply chunk_loop_room. change (Z.to_nat MAX_CHUNKS) with 16%nat.
  destruct (submit_stack_records c (next_txid s) (noted c s) Hc (next_txid_fits s))
    as (? & _ & _ & _ & Hsr).
  rewrite ring_noted in Hsr. by apply (Hsr (16 + k)%nat).
Qed.

(** ** Invariants of every interleaving *)

Definition probe_record (raw : list Z) : Prop :=
  (Z.of_nat (length raw) = csize stack_trace_event /\
   get_field stack_trace_event "magic" raw = STACK_RECORD_MAGIC) \/
  (Z.of_nat (length raw) = csize binder_trace_event /\
   get_field binder_trace_event "kind" raw = EVT_KIND_MAIN).

Definition typed_record (raw : list Z) : Prop :=
  probe_record raw \/ (exists v, is_cookie v raw) \/ (exists v, is_sideband v raw).

Record bpf_inv (s : bpf_state) : Prop := BpfInv {
  inv_txids : forall k v, map_lookup (tid_to_txid_map s) k = Some v -> fits 64 v;
  inv_cookies : forall k v, map_lookup (pending_map s) k = Some v -> fits 64 v;
  inv_records : Forall typed_record (records s)
}.

Lemma update_values (P : Z -> Prop) m k v :
  (forall k v, map_lookup m k = Some v -> P v) -> P v ->
  forall k' v', map_lookup (map_update m k v) k' = Some v' -> P v'.
Proof.
  intros Hm Hv k' v' Hl. destruct (decide (k' = k)) as [->|Hne].
  - rewrite update_same in Hl. by injection Hl as <-.
  - destruct (update_other m k v k' Hne) as [E|E]; rewrite E in Hl; [eauto|done].
Qed.

Lemma delete_values (P : Z -> Prop) m k :
  (forall k v, map_lookup m k = Some v -> P v) ->
  forall k' v', map_lookup (map_delete m k) k' = Some v' -> P v'.
Proof.
  intros Hm k' v' Hl. destruct (decide (k' = k)) as [->|Hne].
  - by rewrite delete_same in Hl.
  - rewrite delete_other in Hl by done. eauto.
Qed.

Lemma chunk_typed c ti buffer i raw : is_chunk c ti buffer i raw -> probe_record raw.
Proof.
  intros (Hl & dst & _ & Hv). right. split; [done|].
  change (ev_kind (view_main raw) = EVT_KIND_MAIN). by rewrite Hv.
Qed.

Lemma kprobe_records_typed c s :
  ctx_ok c -> exists l, records (kprobe_binder_transaction c s) = records s ++ l /\
    Forall probe_record l.
Proof.
  intros Hc.
  assert (Hid : records (kprobe_binder_transaction c s) = records s ->
    exists l, records (kprobe_binder_transaction c s) = records s ++ l /\ Forall probe_record l)
    by (intros ->; exists []; by rewrite app_nil_r).
  destruct (kprobe_cases c s) as [(cu & Hcf & Htr & Hf)|[? E]]; [|apply Hid; by rewrite E].
  destruct (Z.lt_ge_cases MAX_CHUNKS (total_chunks_of (ti_data_size (tx_info_of c (next_txid s)))))
    as [Hlt|Hge].
  { apply Hid. rewrite (kprobe_runs c s cu) by done. cbv zeta. apply Z.ltb_lt in Hlt.
    by rewrite Hlt, records_noted. }
  destruct (kprobe_submits c s cu Hc Hcf Htr Hf Hge) as (st & ch & Hr & _ & Hst & _ & Hch & _).
  exists (st ++ ch). split; [done|]. apply Forall_app. split.
  - eapply Forall_impl; [|exact Hst]. intros raw (?&?&_). by left.
  - apply list.Forall_lookup. intros j raw Hj. eapply chunk_typed, Hch, Hj.
Qed.

Lemma kprobe_txids c s k v :
  map_lookup (tid_to_txid_map (kprobe_binder_transaction c s)) k = Some v ->
  map_lookup (tid_to_txid_map s) k = Some v \/ v = next_txid s.
Proof.
  destruct (kprobe_cases c s) as [(cu & Hcf & Htr & Hf)|[? ->]]; [|auto].
  assert (tid_to_txid_map (kprobe_binder_transaction c s) = tid_to_txid_map (noted c s)) as ->.
  { pose proof (kprobe_outside c s cu Hcf Htr Hf) as Ho. unfold outside_ring in Ho. congruence. }
  unfold noted. case_match; [|auto]. cbn. intros Hl.
  destruct (decide (k = current_tid c)) as [->|Hne].
  - rewrite update_same in Hl. injection Hl as <-. auto.
  - destruct (update_other (tid_to_txid_map s) (current_tid c) (next_txid s) k Hne) as [E|E];
      rewrite E in Hl; [auto|done].
Qed.

Lemma current_tid_fits c : ctx_ok c -> fits 32 (current_tid c).
Proof. intros Hc. rewrite current_tid_pid by done. apply Hc. Qed.

Lemma next_cookie_fits c s : ctx_ok c -> fits 64 (next_cookie c s).
Proof. intros Hc. apply cookie_of_fits; [apply ktime_range|apply Hc]. Qed.

Lemma main_preserves c s : ctx_ok c -> bpf_inv s -> bpf_inv (kprobe_binder_transaction c s).
Proof.
  intros Hc [Ht Hk Hr]. destruct (kprobe_frame c s) as (Hp & _ & _). split.
  - intros k v [H| ->]%kprobe_txids; [eauto|apply next_txid_fits].
  - rewrite Hp. exact Hk.
  - destruct (kprobe_records_typed c s Hc) as (l & -> & Hl). apply Forall_app. split; [done|].
    eapply Forall_impl; [|exact Hl]. by left.
Qed.

Lemma cookie_preserves c s :
  ctx_ok c -> bpf_inv s -> bpf_inv (kprobe_binder_transaction_cookie c s).
Proof.
  intros Hc [Ht Hk Hr].
  destruct (cookie_cases c s) as [(cu & txid & ? & ? & ? & Htx & ? & ?)|[k ->]]; [|by split].
  rewrite (cookie_runs c s cu txid) by done.
  match goal with |- context [submit_or_count ?a ?b ?f ?x] =>
    destruct (soc_frame a b f x) as (_ & Hp & Htm & _);
    destruct (soc_records a b f x ltac:(done)) as (l & Hl & _ & Hf & _) end.
  split; rewrite ?Hp, ?Htm, ?Hl; cbn.
  - exact Ht.
  - apply (update_values (fits 64)); [exact Hk|by apply next_cookie_fits].
  - apply Forall_app. split; [exact Hr|]. eapply Forall_impl; [|exact Hf].
    intros raw (e & He & ->). right; left. eexists. apply fill_cookie_is; [done|..].
    + by apply next_cookie_fits.
    + eauto.
    + by apply current_tid_fits.
Qed.

Lemma raw_tp_preserves c s : ctx_ok c -> bpf_inv s -> bpf_inv (raw_tp_binder_transaction c s).
Proof.
  intros Hc [Ht Hk Hr].
  destruct (raw_tp_cases c s) as [(cu & ck & ? & ? & ? & Hck & ?)| ->]; [|by split].
  rewrite (raw_tp_runs c s cu ck) by done.
  match goal with |- context [submit_or_count ?a ?b ?f ?x] =>
    destruct (soc_frame a b f x) as (_ & Hp & Htm & _);
    destruct (soc_records a b f x ltac:(done)) as (l & Hl & _ & Hf & _) end.
  split; rewrite ?Hp, ?Htm, ?Hl; cbn.
  - exact Ht.
  - by apply (delete_values (fits 64)).
  - apply Forall_app. split; [exact Hr|]. eapply Forall_impl; [|exact Hf].
    intros raw (e & He & ->). right; right. eexists. apply sideband_of_is; eauto.
Qed.

Lemma step_preserves s s' : bpf_step s s' -> bpf_inv s -> bpf_inv s'.
Proof.
  intros [p c s0 Hc] Hi. destruct p; cbn.
  - by apply main_preserves.
  - by apply cookie_preserves.
  - by apply raw_tp_preserves.
Qed.

Lemma steps_preserve s s' : rtc bpf_step s s' -> bpf_inv s -> bpf_inv s'.
Proof. induction 1; [done|]. eauto using step_preserves. Qed.

(** ** Announcement of cookies *)

(** The first [n] records contain the announcement of [cookie]. *)
Definition announced (l : list (list Z)) (n : nat) (cookie : Z) : Prop :=
  exists i raw v, (i < n)%nat /\ l !! i = Some raw /\ is_cookie v raw /\ cs_cookie v = cookie.

(** Steps in which the cookie probe is not denied its reservation. *)
Inductive lossless_step : bpf_state -> bpf_state -> Prop :=
| LosslessStep p c s : ctx_ok c -> (p = CookieProbe -> room 1 (trace_event_map s)) ->
    lossless_step s (run_prog p c s).

Record announce_inv (s : bpf_state) : Prop := AnnounceInv {
  ann_bpf : bpf_inv s;
  ann_pending : forall tid cookie, map_lookup (pending_map s) tid = Some cookie ->
    announced (records s) (length (records s)) cookie;
  ann_sideband : forall j raw v, records s !! j = Some raw -> is_sideband v raw ->
    announced (records s) j (sb_cookie v)
}.

Lemma announced_app l l' n cookie :
  (n <= length l)%nat -> announced l n cookie -> announced (l ++ l') n cookie.
Proof.
  intros Hn (i & raw & v & Hi & Hl & ?). exists i, raw, v. split; [done|]. split; [|done].
  rewrite lookup_app_l by lia. done.
Qed.

Lemma announced_le l n m cookie : (n <= m)%nat -> announced l n cookie -> announced l m cookie.
Proof. intros Hle (i & raw & v & Hi & ?). exists i, raw, v. split; [lia|done]. Qed.

Lemma cookie_not_sideband v v' raw : is_cookie v raw -> is_sideband v' raw -> False.
Proof.
  intros (_ & Hc & _) (_ & Hs & _).
  change (get_field binder_sideband_event "kind" raw = EVT_KIND_COOKIE) in Hc.
  by rewrite Hc in Hs.
Qed.

(** Appending records that are no sideband records keeps the sideband part. *)
Lemma announce_append l l' :
  (forall j raw v, l !! j = Some raw -> is_sideband v raw -> announced l j (sb_cookie v)) ->
  (forall raw v, raw ∈ l' -> is_sideband v raw -> announced l (length l) (sb_cookie v)) ->
  forall j raw v, (l ++ l') !! j = Some raw -> is_sideband v raw ->
    announced (l ++ l') j (sb_cookie v).
Proof.
  intros Hl Hl' j raw v Hj Hs. destruct (Nat.lt_ge_cases j (length l)) as [Hlt|Hge].
  - rewrite lookup_app_l in Hj by done. apply announced_app; [lia|]. eauto.
  - rewrite lookup_app_r in Hj by done. apply (announced_le _ (length l)); [done|].
    apply announced_app; [done|]. eapply Hl'; [by eapply list_elem_of_lookup_2|done].
Qed.

Lemma cookie_announces c s :
  ctx_ok c -> bpf_inv s -> room 1 (trace_event_map s) ->
  kprobe_binder_transaction_cookie c s = with_clock s (kclock (kprobe_binder_transaction_cookie c s)) \/
  exists txid raw, records (kprobe_binder_transaction_cookie c s) = records s ++ [raw] /\
    map_lookup (tid_to_txid_map s) (current_tid c) = Some txid /\
    is_cookie (CookieSideband (next_cookie c s) txid (current_tid c)) raw /\
    pending_map (kprobe_binder_transaction_cookie c s) =
      map_update (pending_map s) (current_tid c) (next_cookie c s).
Proof.
  intros Hc [Ht Hk _] Hroom.
  destruct (cookie_cases c s) as [(cu & txid & ? & ? & ? & Htx & ? & ?)|[k ->]]; [|by left].
  right. rewrite (cookie_runs c s cu txid) by done.
  match goal with |- context [submit_or_count ?a ?b ?f ?x] =>
    destruct (soc_frame a b f x) as (_ & Hp & _ & _);
    destruct (soc_records a b f x ltac:(done)) as (l & Hl & _ & Hf & Hlen) end.
  specialize (Hlen ltac:(vm_compute; intuition discriminate) Hroom).
  destruct l as [|raw [|]]; try done. apply Forall_inv in Hf as (e & He & ->).
  exists txid. eexists. rewrite Hl, Hp. split_and!; [done|done| |done].
  apply fill_cookie_is; [done|by apply next_cookie_fits|eauto|by apply current_tid_fits].
Qed.

Lemma probe_not_sideband v raw : probe_record raw -> is_sideband v raw -> False.
Proof. intros [[H _]|[H _]] (Hs & _ & _); rewrite Hs in H; by vm_compute in H. Qed.

Lemma main_announce c s :
  ctx_ok c -> announce_inv s -> announce_inv (kprobe_binder_transaction c s).
Proof.
  intros Hc [Hb Hp Hs]. split; [by apply main_preserves|..].
  - destruct (kprobe_frame c s) as (-> & _ & _). intros tid cookie Hl.
    destruct (kprobe_records_typed c s Hc) as (l & -> & _).
    eapply announced_le, announced_app, Hp, Hl; [|done]. rewrite length_app. lia.
  - destruct (kprobe_records_typed c s Hc) as (l & -> & Hl). apply announce_append; [done|].
    intros raw v Hin Hv. destruct (probe_not_sideband v raw); [|done].
    by apply (proj1 (list.Forall_forall _ _) Hl).
Qed.

Lemma cookie_announce c s :
  ctx_ok c -> room 1 (trace_event_map s) -> announce_inv s ->
  announce_inv (kprobe_binder_transaction_cookie c s).
Proof.
  intros Hc Hroom [Hb Hp Hs]. pose proof (cookie_preserves c s Hc Hb).
  destruct (cookie_announces c s Hc Hb Hroom) as [E|(txid & raw & Hr & _ & Hraw & Hpe)].
  { rewrite E in *. by split. }
  split; [done|..]; rewrite Hr.
  - rewrite Hpe, length_app. cbn [length]. intros tid cookie.
    apply (update_values (announced (records s ++ [raw]) (length (records s) + 1))).
    + intros tid' cookie' Hl. eapply announced_le, announced_app, Hp, Hl; [lia|done].
    + exists (length (records s)), raw. eexists. split; [lia|]. split; [|by split].
      by rewrite lookup_app_r, Nat.sub_diag by done.
  - apply announce_append; [done|]. intros raw' v ->%list_elem_of_singleton Hv.
    by destruct (cookie_not_sideband _ _ _ Hraw Hv).
Qed.

Lemma raw_tp_announce c s :
  ctx_ok c -> announce_inv s -> announce_inv (raw_tp_binder_transaction c s).
Proof.
  intros Hc [Hb Hp Hs]. pose proof (raw_tp_preserves c s Hc Hb).
  destruct (raw_tp_cases c s) as [(cu & ck & ? & ? & ? & Hck & ?)|E]; [|by rewrite E in *].
  split; [done|..]; rewrite (raw_tp_runs c s cu ck) by done.
  - match goal with |- context [submit_or_count ?a ?b ?f ?x] =>
      destruct (soc_frame a b f x) as (_ & -> & _ & _);
      destruct (soc_records a b f x ltac:(done)) as (l & -> & _) end.
    cbn. rewrite length_app. intros tid cookie.
    apply (delete_values (announced (records s ++ l) (length (records s) + length l))).
    intros tid' cookie' Hl. eapply announced_le, announced_app, Hp, Hl; [lia|done].
  - match goal with |- context [submit_or_count ?a ?b ?f ?x] =>
      destruct (soc_records a b f x ltac:(done)) as (l & -> & _ & Hf & _) end.
    apply announce_append; [done|]. intros raw v Hin Hv.
    apply (proj1 (list.Forall_forall _ _) Hf) in Hin as (e & He & ->).
    assert (fits 64 ck) by eauto using inv_cookies.
    destruct (sideband_of_is c ck e) as (_ & _ & Hv'); [done..|].
    destruct Hv as (_ & _ & Hv). rewrite Hv' in Hv. subst v.
    replace (sb_cookie (sideband_of c ck)) with ck; [eauto|].
    unfold sideband_of. by destruct (sideband_fields c (tp_transaction c)) as [[[? ?] ?] ?].
Qed.

Lemma lossless_preserves s s' : rtc lossless_step s s' -> announce_inv s -> announce_inv s'.
Proof.
  induction 1 as [|s1 s2 s3 [p c s Hc Hroom] _ IH]; [done|]. intros Hi. apply IH.
  destruct p; cbn; eauto using main_announce, cookie_announce, raw_tp_announce.
Qed.

(** ** One request through the three programs *)

Lemma soc_room cpu t fill s k :
  0 <= csize t <= csize binder_trace_event -> room (S k) (trace_event_map s) ->
  room k (trace_event_map (submit_or_count cpu t fill s)).
Proof.
  intros Ht Hr. destruct (room_reserve k t s Ht Hr) as (b & s' & E & Hk).
  unfold submit_or_count. rewrite E. apply Hk.
Qed.

Lemma cookie_submits c s conf_uid txid k :
  ctx_ok c -> config_uid s = Some conf_uid -> kprobe_reply c = 0 ->
  filtered_out conf_uid (current_uid c) = false ->
  map_lookup (tid_to_txid_map s) (current_tid c) = Some txid -> txid <> 0 -> fits 64 txid ->
  next_cookie c s <> 0 -> room (S k) (trace_event_map s) ->
  exists raw,
    records (kprobe_binder_transaction_cookie c s) = records s ++ [raw] /\
    is_cookie (CookieSideband (next_cookie c s) txid (current_tid c)) raw /\
    map_lookup (pending_map (kprobe_binder_transaction_cookie c s)) (current_tid c) =
      Some (next_cookie c s) /\
    trace_config_map (kprobe_binder_transaction_cookie c s) = trace_config_map s /\
    room k (trace_event_map (kprobe_binder_transaction_cookie c s)).
Proof.
  intros Hc Hcf Hr Hf Ht Ht0 Htf Hck Hroom. rewrite (cookie_runs c s conf_uid txid) by done.
  match goal with |- context [submit_or_count ?a ?b ?f ?x] =>
    destruct (soc_frame a b f x) as (-> & -> & _ & _);
    destruct (soc_records a b f x ltac:(done)) as (l & -> & _ & Hl & Hlen) end.
  assert (0 <= csize binder_cookie_sideband <= csize binder_trace_event) as Hsz
    by (vm_compute; intuition discriminate).
  specialize (Hlen Hsz (room_le 1 (S k) _ ltac:(lia) Hroom)).
  destruct l as [|raw [|]]; try done. apply Forall_inv in Hl as (e & He & ->).
  eexists. split; [done|]. split; [|split; [apply update_same|split; [done|]]].
  - apply fill_cookie_is; [done|by apply next_cookie_fits|done|by apply current_tid_fits].
  - by apply soc_room.
Qed.

Lemma raw_tp_submits c s conf_uid cookie :
  ctx_ok c -> config_uid s = Some conf_uid -> tp_reply c = 0 -> tp_transaction c <> 0 ->
  map_lookup (pending_map s) (current_tid c) = Some cookie -> cookie <> 0 -> fits 64 cookie ->
  room 1 (trace_event_map s) ->
  exists raw, records (raw_tp_binder_transaction c s) = records s ++ [raw] /\
    is_sideband (sideband_of c cookie) raw.
Proof.
  intros Hc Hcf Hr Ht Hp H0 Hck Hroom. rewrite (raw_tp_runs c s conf_uid cookie) by done.
  match goal with |- context [submit_or_count ?a ?b ?f ?x] =>
    destruct (soc_records a b f x ltac:(done)) as (l & -> & _ & Hl & Hlen) end.
  specialize (Hlen ltac:(vm_compute; intuition discriminate) Hroom).
  destruct l as [|raw [|]]; try done. apply Forall_inv in Hl as (e & He & ->).
  eexists. split; [done|]. by apply sideband_of_is.
Qed.

(** The pending cookie is gone, whether or not the report was submitted. *)
Lemma raw_tp_consumes c s conf_uid cookie :
  config_uid s = Some conf_uid -> tp_reply c = 0 -> tp_transaction c <> 0 ->
  map_lookup (pending_map s) (current_tid c) = Some cookie -> cookie <> 0 ->
  map_lookup (pending_map (raw_tp_binder_transaction c s)) (current_tid c) = None.
Proof.
  intros Hcf Hr Ht Hp H0. rewrite (raw_tp_runs c s conf_uid cookie) by done.
  match goal with |- context [submit_or_count ?a ?b ?f ?x] =>
    destruct (soc_frame a b f x) as (_ & -> & _ & _) end.
  apply delete_same.
Qed.

Lemma effective_uid_request c : kprobe_reply c = 0 -> effective_uid c = current_uid c.
Proof. intros Hr. unfold effective_uid. by rewrite Hr. Qed.

(** The filter of a request compares the sender's group id. *)
Lemma request_selected c conf_uid :
  ctx_ok c -> kprobe_reply c = 0 -> filtered_out conf_uid (cur_gid c) = false ->
  filtered_out conf_uid (effective_uid c) = false.
Proof. intros Hc Hr. by rewrite effective_uid_request, current_uid_is_gid. Qed.

Lemma kprobe_notes c s conf_uid :
  config_uid s = Some conf_uid -> kprobe_tr c <> 0 -> kprobe_reply c = 0 ->
  filtered_out conf_uid (effective_uid c) = false ->
  config_uid (kprobe_binder_transaction c s) = Some conf_uid /\
  map_lookup (tid_to_txid_map (kprobe_binder_transaction c s)) (current_tid c) =
    Some (next_txid s).
Proof.
  intros Hcf Htr Hr Hf. pose proof (kprobe_outside c s conf_uid Hcf Htr Hf) as Ho.
  pose proof (noted_frame c s) as (Hn & _ & _). unfold outside_ring in Ho. split.
  - unfold config_uid in *. congruence.
  - rewrite <- (noted_txid c s Hr). f_equal. congruence.
Qed.

(** The records one request leaves when it goes through the three programs. *)
Lemma request_records_any c ct s conf_uid :
  ctx_ok c -> ctx_ok ct -> config_uid s = Some conf_uid -> kprobe_tr c <> 0 ->
  kprobe_reply c = 0 -> filtered_out conf_uid (cur_gid c) = false ->
  tp_reply ct = 0 -> tp_transaction ct <> 0 -> current_tid ct = current_tid c ->
  let ti := tx_info_of c (next_txid s) in
  let n := total_chunks_of (ti_data_size ti) in
  let s1 := kprobe_binder_transaction c s in
  let s3 := raw_tp_binder_transaction ct (kprobe_binder_transaction_cookie c s1) in
  next_txid s <> 0 -> next_cookie c s1 <> 0 -> room 19 (trace_event_map s) ->
  exists sts chunks ck sb,
    records s3 = records s ++ sts ++ chunks ++ [ck; sb] /\
    Forall (is_stack c (next_txid s)) sts /\
    (forall j raw, chunks !! j = Some raw -> is_chunk c ti (data_buffer c) (Z.of_nat j) raw) /\
    (length sts, Z.of_nat (length chunks)) = (if n <=? MAX_CHUNKS then (1%nat, n) else (0%nat, 0)) /\
    is_cookie (CookieSideband (next_cookie c s1) (next_txid s) (current_tid c)) ck /\
    is_sideband (sideband_of ct (next_cookie c s1)) sb /\
    map_lookup (pending_map s3) (current_tid c) = None.
Proof.
  intros Hc Hct Hcf Htr Hr Hg Htr' Htx Htid ti n s1 s3 Ht0 Hck Hroom.
  pose proof (request_selected c conf_uid Hc Hr Hg) as Hf.
  assert (exists sts chunks, records s1 = records s ++ sts ++ chunks /\ Forall (is_stack c (next_txid s)) sts /\
    (forall j raw, chunks !! j = Some raw -> is_chunk c ti (data_buffer c) (Z.of_nat j) raw) /\
    (length sts, Z.of_nat (length chunks)) = (if n <=? MAX_CHUNKS then (1%nat, n) else (0%nat, 0)))
    as (sts & chunks & Hrec & Hst & Hch & Hlen).
  { destruct (Z.leb_spec n MAX_CHUNKS) as [Hn|Hn].
    - destruct (kprobe_submits c s conf_uid Hc Hcf Htr Hf Hn) as (sts & chunks & Hrec & _ & Hst & _ & Hch & Hfull).
      destruct (Hfull (room_le 17 19 _ ltac:(lia) Hroom)) as [Hl1 Hl2]. exists sts, chunks. by rewrite Hl1, Hl2.
    - exists [], []. split_and!; [|by constructor|done|done]. rewrite app_nil_r. unfold s1.
      rewrite (kprobe_runs c s conf_uid) by assumption. cbv zeta. apply Z.ltb_lt in Hn. unfold n, ti in Hn. rewrite Hn. apply records_noted. }
  destruct (kprobe_notes c s conf_uid Hcf Htr Hr Hf) as [Hcf1 Hnote].
  destruct (cookie_submits c s1 conf_uid (next_txid s) 1) as (ck & Hrec2 & Hckv & Hpend & Hcf2 & Hr2);
    [exact Hc|exact Hcf1|exact Hr|by rewrite <- effective_uid_request|exact Hnote|exact Ht0
    |apply next_txid_fits|exact Hck|exact (kprobe_room c s 2 Hc Hroom)|].
  rewrite <- Htid in Hpend. assert (config_uid (kprobe_binder_transaction_cookie c s1) = Some conf_uid)
    as Hcf3 by (unfold config_uid; rewrite Hcf2; exact Hcf1).
  destruct (raw_tp_submits ct (kprobe_binder_transaction_cookie c s1) conf_uid (next_cookie c s1))
    as (sb & Hrec3 & Hsb); [exact Hct|exact Hcf3|exact Htr'|exact Htx|exact Hpend|exact Hck
    |by apply next_cookie_fits|exact Hr2|].
  exists sts, chunks, ck, sb. split.
  { unfold s3. rewrite Hrec3, Hrec2, Hrec, <- !app_assoc. done. }
  split_and!; [exact Hst|exact Hch|exact Hlen|exact Hckv|exact Hsb|].
  rewrite <- Htid. exact (raw_tp_consumes ct _ conf_uid _ Hcf3 Htr' Htx Hpend Hck).
Qed.

(** Those of a request that is captured *)
Lemma request_records c ct s conf_uid :
  ctx_ok c -> ctx_ok ct -> config_uid s = Some conf_uid -> kprobe_tr c <> 0 ->
  kprobe_reply c = 0 -> filtered_out conf_uid (cur_gid c) = false ->
  tp_reply ct = 0 -> tp_transaction ct <> 0 -> current_tid ct = current_tid c ->
  let ti := tx_info_of c (next_txid s) in
  let s1 := kprobe_binder_transaction c s in
  let s3 := raw_tp_binder_transaction ct (kprobe_binder_transaction_cookie c s1) in
  total_chunks_of (ti_data_size ti) <= MAX_CHUNKS ->
  next_txid s <> 0 -> next_cookie c s1 <> 0 -> room 19 (trace_event_map s) ->
  exists st chunks ck sb,
    records s3 = records s ++ st :: chunks ++ [ck; sb] /\
    Z.of_nat (length chunks) = total_chunks_of (ti_data_size ti) /\
    is_stack c (next_txid s) st /\
    (forall j raw, chunks !! j = Some raw -> is_chunk c ti (data_buffer c) (Z.of_nat j) raw) /\
    is_cookie (CookieSideband (next_cookie c s1) (next_txid s) (current_tid c)) ck /\
    is_sideband (sideband_of ct (next_cookie c s1)) sb /\
    map_lookup (pending_map s3) (current_tid c) = None.
Proof.
  intros Hc Hct Hcf Htr Hr Hg Htr' Htx Htid ti s1 s3 Hn Ht0 Hck Hroom.
  destruct (request_records_any c ct s conf_uid Hc Hct Hcf Htr Hr Hg Htr' Htx Htid Ht0 Hck Hroom)
    as (sts & chunks & ck & sb & Hrec & Hst & Hch & Hlen & Hck' & Hsb & Hp).
  fold ti in Hlen. apply Z.leb_le in Hn. rewrite Hn in Hlen. injection Hlen as Hl1 Hl2.
  destruct sts as [|st [|]]; try done. apply Forall_inv in Hst. exists st, chunks, ck, sb. by split_and!.
Qed.

End Chain.

(** ** Properties *)

(** C23: A request of whatever size that passes the filter, run through the main
    probe, the cookie probe and the raw tracepoint on the same thread, with a
    transaction id and a cookie other than zero and with room in the ring,
    leaves one cookie record and one sideband record, in this order: the cookie
    record names the request's transaction id, the sideband record reports the
    receiver under the same cookie, and the cookie is no longer pending.  Before
    them come the stack record and all the chunks under that transaction id if
    the chunk count the program computes is at most 16; otherwise nothing comes
    before them, and what is announced never arrives. *)
Theorem request_bridged `{KL : BpfKernelLaws} `{T : CoreTarget} c ct s conf_uid :
  ctx_ok c -> ctx_ok ct -> config_uid s = Some conf_uid -> kprobe_tr c <> 0 ->
  kprobe_reply c = 0 -> filtered_out conf_uid (cur_gid c) = false ->
  tp_reply ct = 0 -> tp_transaction ct <> 0 -> current_tid ct = current_tid c ->
  let ti := tx_info_of c (next_txid s) in
  let n := total_chunks_of (ti_data_size ti) in
  let s1 := kprobe_binder_transaction c s in
  let s3 := raw_tp_binder_transaction ct (kprobe_binder_transaction_cookie c s1) in
  next_txid s <> 0 -> next_cookie c s1 <> 0 -> room 19 (trace_event_map s) ->
  exists sts chunks ck sb,
    records s3 = records s ++ sts ++ chunks ++ [ck; sb] /\
    Forall (is_stack c (next_txid s)) sts /\
    (forall j raw, chunks !! j = Some raw -> is_chunk c ti (data_buffer c) (Z.of_nat j) raw) /\
    (length sts, Z.of_nat (length chunks)) = (if n <=? MAX_CHUNKS then (1%nat, n) else (0%nat, 0)) /\
    is_cookie (CookieSideband (next_cookie c s1) (next_txid s) (current_tid c)) ck /\
    is_sideband (sideband_of ct (next_cookie c s1)) sb /\
    map_lookup (pending_map s3) (current_tid c) = None.
Proof. apply request_records_any. Qed.

(** A request of 1500 bytes, and one of a byte more than 16 KiB, from a task
    whose group id is not its user id *)
Lemma request_bridged_witness :
  let ct := sim_tracepoint 0 10123 1201 in
  let s := sim_state 2000 5000 in
  let after size :=
    let c := sim_call 0 size 0xb400007000010000 2000 1201 in
    raw_tp_binder_transaction ct (kprobe_binder_transaction_cookie c (kprobe_binder_transaction c s)) in
  (exists st chunks ck sb,
    records (after 1500) = st :: chunks ++ [ck; sb] /\ length chunks = 2%nat /\
    view_cookie ck = CookieSideband 1280259 5000 1201 /\
    view_sideband sb = SidebandEvent 0 1280259 77 1500 1000) /\
  exists ck sb, records (after 16385) = [ck; sb].
Proof.
  intros ct s after.
  split.
  - set (c := sim_call 0 1500 0xb400007000010000 2000 1201).
    assert (next_cookie c (kprobe_binder_transaction c s) = 1280259) as E by (vm_compute; reflexivity).
    destruct (request_bridged c ct s 2000) as (sts & chunks & ck & sb & Hrec & _ & _ & Hlen & Hck & Hsb & _);
      [apply sim_ctx_ok|apply sim_ctx_ok|reflexivity|discriminate|reflexivity|reflexivity|reflexivity
      |discriminate|reflexivity|vm_compute; congruence|vm_compute; congruence
      |apply sim_room; vm_compute; congruence|].
    rewrite E in Hck, Hsb. destruct Hck as (_ & _ & Hck), Hsb as (_ & _ & Hsb).
    assert ((length sts, Z.of_nat (length chunks)) = (1%nat, 2)) as [= Hl1 Hl2]
      by (rewrite Hlen; vm_compute; reflexivity).
    destruct sts as [|st [|]]; [discriminate Hl1| |discriminate Hl1].
    exists st, chunks, ck, sb. split; [exact Hrec|]. split; [lia|]. split; [exact Hck|].
    rewrite Hsb. vm_compute. reflexivity.
  - set (c := sim_call 0 16385 0xb400007000010000 2000 1201).
    destruct (request_bridged c ct s 2000) as (sts & chunks & ck & sb & Hrec & _ & _ & Hlen & _);
      [apply sim_ctx_ok|apply sim_ctx_ok|reflexivity|discriminate|reflexivity|reflexivity|reflexivity
      |discriminate|reflexivity|vm_compute; congruence|vm_compute; congruence
      |apply sim_room; vm_compute; congruence|].
    assert ((length sts, Z.of_nat (length chunks)) = (0%nat, 0)) as [= Hl1 Hl2]
      by (rewrite Hlen; vm_compute; reflexivity).
    destruct sts; [|discriminate Hl1]. destruct chunks; [|discriminate Hl2]. exists ck, sb. exact Hrec.
Defined.

(** Cookies taken at different instants, or at the same instant on
    different CPUs, differ, as long as the clock stays below 2^56 ns and the
    machine has at most 256 CPUs. *)
Theorem cookie_identifies ts cpu ts' cpu' :
  0 <= ts < 2 ^ 56 -> 0 <= ts' < 2 ^ 56 -> 0 <= cpu < 256 -> 0 <= cpu' < 256 ->
  cookie_of ts cpu = cookie_of ts' cpu' -> ts = ts' /\ cpu = cpu'.
Proof.
  intros Ht Ht' Hc Hc'. rewrite !cookie_of_val by (unfold fits; lia).
  rewrite !(wrap_small 56), !(wrap_small 8) by (unfold fits; lia). lia.
Qed.

Lemma cookie_identifies_witness : cookie_of 5000 3 = 1280003 /\ 5000 = 5000 /\ 3 = 3.
Proof.
  split; [reflexivity|]. apply (cookie_identifies 5000 3 5000 3); (lia || reflexivity).
Defined.

(** A pending cookie is reported at most once: whatever becomes of the
    report, a second tracepoint on the same thread finds nothing pending and
    leaves the whole state unchanged. *)
Theorem raw_tp_reports_once `{KL : BpfKernelLaws} `{T : CoreTarget} c c' s conf_uid cookie :
  config_uid s = Some conf_uid -> tp_reply c = 0 -> tp_transaction c <> 0 ->
  map_lookup (pending_map s) (current_tid c) = Some cookie -> cookie <> 0 ->
  current_tid c' = current_tid c ->
  let s' := raw_tp_binder_transaction c s in
  raw_tp_binder_transaction c' s' = s'.
Proof.
  intros Hcf Hr Ht Hp H0 Htid s'. pose proof (raw_tp_consumes c s _ _ Hcf Hr Ht Hp H0) as Hn.
  destruct (raw_tp_cases c' s') as [(? & ? & _ & _ & _ & Hp' & _)|]; [|done].
  rewrite Htid in Hp'. unfold s' in Hp'. by rewrite Hn in Hp'.
Qed.

(** A state with cookie 1280259 pending for thread 1201. *)
Definition sim_pending_state : bpf_state := with_pending (sim_state 10123 5000) [(1201, 1280259)].

Lemma raw_tp_reports_once_witness :
  let c := sim_tracepoint 0 10123 1201 in
  let s' := raw_tp_binder_transaction c sim_pending_state in
  length (records s') = 1%nat /\ raw_tp_binder_transaction c s' = s'.
Proof.
  intros c s'. split; [vm_compute; reflexivity|].
  exact (raw_tp_reports_once c c sim_pending_state 10123 1280259 eq_refl eq_refl
           ltac:(discriminate) eq_refl ltac:(discriminate) eq_refl).
Defined.

(** When the ring refuses the cookie record, the probe submits nothing,
    adds one to the sideband slot of the current CPU and of no other CPU or
    slot, and the cookie stays pending. *)
Theorem cookie_refused_is_counted `{KL : BpfKernelLaws} `{T : CoreTarget} c s conf_uid txid n :
  config_uid s = Some conf_uid -> kprobe_reply c = 0 ->
  filtered_out conf_uid (current_uid c) = false ->
  map_lookup (tid_to_txid_map s) (current_tid c) = Some txid -> txid <> 0 ->
  next_cookie c s <> 0 ->
  (ringbuf_reserve (trace_event_map s) (csize binder_cookie_sideband)).1 = None ->
  percpu_lookup (ringbuf_overflow_map s) (cur_cpu c) RB_OVF_SLOT_SIDEBAND = Some n ->
  let s' := kprobe_binder_transaction_cookie c s in
  records s' = records s /\
  percpu_lookup (ringbuf_overflow_map s') (cur_cpu c) RB_OVF_SLOT_SIDEBAND = Some (u64 (n + 1)) /\
  (forall cpu slot, (cpu, slot) <> (cur_cpu c, RB_OVF_SLOT_SIDEBAND) ->
     percpu_lookup (ringbuf_overflow_map s') cpu slot =
     percpu_lookup (ringbuf_overflow_map s) cpu slot) /\
  map_lookup (pending_map s') (current_tid c) = Some (next_cookie c s).
Proof.
  intros Hcf Hr Hf Ht Ht0 Hck Hres Hn s'. unfold s'.
  rewrite (cookie_runs c s conf_uid txid) by done. unfold submit_or_count.
  match goal with |- context [reserve ?t ?x] =>
    pose proof (reserve_keeps t x) as Hk; pose proof (reserve_outside t x) as Ho;
    assert ((reserve t x).1 = None) as Hno; [|destruct (reserve t x) as [ob s2]] end.
  { unfold reserve. cbn [trace_event_map with_pending with_clock]. by destruct (ringbuf_reserve _ _). }
  cbn in Hno, Hk, Ho. subst ob. unfold outside_ring in Ho. cbn in Ho.
  injection Ho as Hcm Hp Htm Hov Hkc. unfold inc_overflow. rewrite Hov, Hn. cbn.
  rewrite Hp. split_and!; [exact Hk|by eapply store_same|intros; by apply store_other|apply update_same].
Qed.

Definition sim_full_state : bpf_state :=
  with_ring (with_txid (sim_state 10123 5000) [(1201, 5000)]) (SimRing 0 []).

Lemma cookie_refused_is_counted_witness :
  let c := sim_call 0 1500 0xb400007000010000 10123 1201 in
  let s' := kprobe_binder_transaction_cookie c sim_full_state in
  records s' = [] /\ percpu_lookup (ringbuf_overflow_map s') 3 1 = Some 1.
Proof.
  intros c s'.
  destruct (cookie_refused_is_counted c sim_full_state 10123 5000 0) as (Hr & Ho & _);
    [reflexivity|reflexivity|reflexivity|reflexivity|discriminate|vm_compute; congruence
    |reflexivity|reflexivity|]. split; [exact Hr|exact Ho].
Defined.

(** C27: In every state reached from freshly loaded maps by any interleaving
    of the three programs in which the cookie probe gets its reservations,
    every sideband record is preceded in the ring by the cookie record that
    announces its cookie. *)
Theorem sideband_announced_first `{KL : BpfKernelLaws} `{T : CoreTarget} s0 s j raw v :
  (forall k, map_lookup (pending_map s0) k = None) ->
  (forall k, map_lookup (tid_to_txid_map s0) k = None) ->
  records s0 = [] -> rtc lossless_step s0 s ->
  records s !! j = Some raw -> is_sideband v raw -> announced (records s) j (sb_cookie v).
Proof.
  intros Hp Ht Hr Hs. revert j raw v. apply (lossless_preserves s0 s); [done|].
  split; [split|..].
  - intros k v. by rewrite Ht.
  - intros k v. by rewrite Hp.
  - by rewrite Hr.
  - intros tid ck. by rewrite Hp.
  - intros j raw v. by rewrite Hr.
Qed.

Lemma sideband_announced_first_witness :
  let c := sim_call 0 100 0xb400007000010000 10123 1201 in
  let ct := sim_tracepoint 0 10123 1201 in
  let s := run_prog RawTp ct (run_prog CookieProbe c (run_prog MainProbe c (sim_state 10123 5000))) in
  announced (records s) 3 1280259.
Proof.
  intros c ct s.
  apply (sideband_announced_first (sim_state 10123 5000) s 3 (nth 3 (records s) [])
           (SidebandEvent 0 1280259 77 1500 1000)).
  - reflexivity.
  - reflexivity.
  - reflexivity.
  - apply (rtc_l _ _ (run_prog MainProbe c (sim_state 10123 5000))).
    { apply (LosslessStep MainProbe c); [apply sim_ctx_ok|discriminate]. }
    apply (rtc_l _ _ (run_prog CookieProbe c (run_prog MainProbe c (sim_state 10123 5000)))).
    { apply (LosslessStep CookieProbe c); [apply sim_ctx_ok|].
      intros _. apply sim_room. vm_compute. congruence. }
    apply rtc_once, (LosslessStep RawTp ct); [apply sim_ctx_ok|discriminate].
  - vm_compute. reflexivity.
  - unfold is_sideband. split_and!; vm_compute; reflexivity.
Defined.

(** No interleaving of the programs ever changes the main-event slot of
    ringbuf_overflow_map, so main records lost to a full ring are not
    counted there. *)
Theorem main_overflow_never_counted `{KL : BpfKernelLaws} `{T : CoreTarget} s s' cpu :
  rtc bpf_step s s' ->
  percpu_lookup (ringbuf_overflow_map s') cpu RB_OVF_SLOT_MAIN =
  percpu_lookup (ringbuf_overflow_map s) cpu RB_OVF_SLOT_MAIN.
Proof.
  induction 1 as [|s1 s2 s3 [p c s Hc] _ IH]; [done|]. rewrite IH. clear IH.
  destruct p; cbn [run_prog].
  - destruct (kprobe_frame c s) as (_ & _ & H). by rewrite H.
  - destruct (cookie_cases c s) as [(cu & txid & ? & ? & ? & ? & ? & ?)|[k H]]; [|by rewrite H].
    rewrite (cookie_runs c s cu txid) by done.
    by match goal with |- context [submit_or_count ?a ?b ?f ?x] =>
      destruct (soc_frame a b f x) as (_ & _ & _ & ->) end.
  - destruct (raw_tp_cases c s) as [(cu & ck & ? & ? & ? & ? & ?)|H]; [|by rewrite H].
    rewrite (raw_tp_runs c s cu ck) by done.
    by match goal with |- context [submit_or_count ?a ?b ?f ?x] =>
      destruct (soc_frame a b f x) as (_ & _ & _ & ->) end.
Qed.

Lemma main_overflow_never_counted_witness :
  let c := sim_call 0 1500 0xb400007000010000 10123 1201 in
  let s' := run_prog MainProbe c sim_tight_state in
  length (records s') = 2%nat /\ percpu_lookup (ringbuf_overflow_map s') 3 RB_OVF_SLOT_MAIN = Some 0.
Proof.
  intros c s'. split; [vm_compute; reflexivity|].
  exact (main_overflow_never_counted sim_tight_state s' 3
           (rtc_once _ _ (BpfStep MainProbe c sim_tight_state (sim_ctx_ok _ _ _ _ _ _ _ _ _)))).
Defined.

(** A request too large to be captured is still announced: although the
    main probe submits nothing for it, the cookie probe that follows submits
    a cookie record for its transaction id and leaves the cookie pending. *)
Theorem oversize_still_announced `{KL : BpfKernelLaws} `{T : CoreTarget} c s conf_uid :
  ctx_ok c -> config_uid s = Some conf_uid -> kprobe_tr c <> 0 -> kprobe_reply c = 0 ->
  filtered_out conf_uid (effective_uid c) = false ->
  MAX_CHUNKS < total_chunks_of (ti_data_size (tx_info_of c (next_txid s))) ->
  let s1 := kprobe_binder_transaction c s in
  next_txid s <> 0 -> next_cookie c s1 <> 0 -> room 18 (trace_event_map s) ->
  exists raw,
    records (kprobe_binder_transaction_cookie c s1) = records s ++ [raw] /\
    is_cookie (CookieSideband (next_cookie c s1) (next_txid s) (current_tid c)) raw.
Proof.
  intros Hc Hcf Htr Hr Hf Hn s1 Ht0 Hck Hroom.
  destruct (kprobe_notes c s conf_uid Hcf Htr Hr Hf) as [Hcf1 Hnote].
  destruct (cookie_submits c s1 conf_uid (next_txid s) 0) as (ck & Hrec & Hckv & _);
    [exact Hc|exact Hcf1|exact Hr|by rewrite <- effective_uid_request|exact Hnote|exact Ht0
    |apply next_txid_fits|exact Hck|exact (kprobe_room c s 1 Hc Hroom)|].
  exists ck. split; [|exact Hckv]. rewrite Hrec. f_equal. unfold s1.
  rewrite (kprobe_runs c s conf_uid) by assumption. cbv zeta.
  apply Z.ltb_lt in Hn. rewrite Hn. apply records_noted.
Qed.

Lemma oversize_still_announced_witness :
  let c := sim_call 0 16385 0xb400007000010000 10123 1201 in
  let s1 := kprobe_binder_transaction c (sim_state 10123 5000) in
  records s1 = [] /\
  exists raw, records (kprobe_binder_transaction_cookie c s1) = [raw] /\
    view_cookie raw = CookieSideband 1280259 5000 1201.
Proof.
  intros c s1. split; [vm_compute; reflexivity|].
  destruct (oversize_still_announced c (sim_state 10123 5000) 10123) as (raw & Hr & Hck);
    [apply sim_ctx_ok|reflexivity|discriminate|reflexivity|reflexivity|vm_compute; congruence
    |vm_compute; congruence|vm_compute; congruence|apply sim_room; vm_compute; congruence|].
  exists raw. split; [exact Hr|]. destruct Hck as (_ & _ & ->). vm_compute. reflexivity.
Defined.
