(* ===== verification/EndToEnd.v ===== *)
(** * From the probes to the emitted event

    The collector reads what the BPF programs submit: every record a program
    can put into the ring goes to the handler of its own type with the values
    that were stored, and one traced request comes out as one event with the
    sender's parcel and the receiver the tracepoint saw. *)

From S2P Require Import Prelude CLayout Records GoLang Lru Protocol Collector Pairing Reassembly.
From S2P Require Import BpfRuntime Vmlinux SimKernel BpfCoreRead BpfPrograms BpfRecords BpfProofs BpfMain BpfChain.

Section Dispatch.
Context `{SI : SymbolizerI} {BG : Bpf2Go} {BL : Bpf2GoLaws}.

Fixpoint run_records (l : list ((nat -> Z) * bytes)) (c : collector) : option collector :=
  match l with
  | [] => Some c
  | (now, raw) :: l => c ← handleRecord now raw c; run_records l c
  end.

Lemma run_records_app l1 l2 c :
  run_records (l1 ++ l2) c = c' ← run_records l1 c; run_records l2 c'.
Proof.
  revert c. induction l1 as [|[now raw] l1 IH]; intros c; [done|]. cbn [app run_records].
  destruct (handleRecord now raw c); [apply IH|done].
Qed.

Lemma kind_first t raw :
  (forall buf, get_field t "kind" buf = le_val (slice 0 1 buf)) -> 1 <= len raw ->
  exists rest, raw = get_field t "kind" raw :: rest.
Proof.
  intros Ht Hl. rewrite Ht. destruct raw as [|b rest]; [done|]. exists rest.
  change (slice 0 1 (b :: rest)) with [b]. cbn [le_val]. f_equal. lia.
Qed.

(** A first byte that is not 0xEF rules the stack magic out. *)
Lemma not_magic k rest : 0 <= k < 239 -> (le_val (take 8 (k :: rest)) =? StackRecordMagic) = false.
Proof.
  intros Hk. apply Z.eqb_neq. cbn [take firstn le_val]. intros E. apply (f_equal (λ z, z mod 256)) in E.
  rewrite (Z.mul_comm 256), Z.mod_add, Z.mod_small in E by lia.
  change (StackRecordMagic mod 256) with 239 in E. lia.
Qed.

Lemma record_kind now raw c k rest :
  raw = k :: rest -> 0 <= k < 239 ->
  handleRecord now raw c =
  if k =? evtKindMain then
    match read_main raw with Some event => handleEvent now event c | None => Some c end
  else if k =? evtKindSideband then
    match read_sideband raw with Some sb => Some (handleSideband now sb c) | None => Some c end
  else if k =? evtKindCookie then
    match read_cookie raw with Some cs => Some (handleCookieSideband now cs c) | None => Some c end
  else Some c.
Proof.
  intros -> Hk. unfold handleRecord. rewrite not_magic by done. rewrite andb_false_r.
  assert (1 <= len (k :: rest)) by (unfold len; cbn [length]; lia).
  destruct (Z.ltb_spec (len (k :: rest)) 1); [lia|].
  rewrite (index_app [] k rest 0 eq_refl : index (k :: rest) 0 = _). done.
Qed.

Lemma read_full t {A} (view : list Z -> A) rd raw :
  reads_as t view rd -> len raw = csize t -> rd raw = Some (view raw).
Proof. intros Hrd Hl. rewrite Hrd. unfold len in Hl. rewrite Hl, Z.ltb_irrefl. done. Qed.

(** The first byte of each record type is its kind. *)
Lemma main_kind buf : get_field binder_trace_event "kind" buf = le_val (slice 0 1 buf).
Proof. vm_compute. reflexivity. Qed.

Lemma dispatch_main now raw c :
  len raw = csize binder_trace_event -> get_field binder_trace_event "kind" raw = EVT_KIND_MAIN ->
  handleRecord now raw c = handleEvent now (view_main raw) c.
Proof.
  intros Hl Hk.
  assert (1 <= len raw) as Hl1 by (rewrite Hl, binder_trace_event_size; lia).
  destruct (kind_first binder_trace_event raw main_kind Hl1) as [rest E].
  assert (0 <= EVT_KIND_MAIN < 239) as Hr by lia.
  rewrite Hk in E. rewrite (record_kind now raw c _ rest E Hr).
  change (EVT_KIND_MAIN =? evtKindMain) with true. cbv iota.
  by rewrite (read_full _ _ _ raw read_main_layout Hl).
Qed.

Lemma dispatch_sideband now raw c v :
  is_sideband v raw -> handleRecord now raw c = Some (handleSideband now v c).
Proof.
  intros (Hl & Hk & <-). destruct (kind_first binder_sideband_event raw) as [rest E];
    [done|unfold len; by rewrite Hl|].
  rewrite Hk in E. rewrite (record_kind now raw c _ rest E) by done. cbn.
  by rewrite (read_full _ _ _ raw read_sideband_layout Hl).
Qed.

Lemma dispatch_cookie now raw c v :
  is_cookie v raw -> handleRecord now raw c = Some (handleCookieSideband now v c).
Proof.
  intros (Hl & Hk & <-). destruct (kind_first binder_cookie_sideband raw) as [rest E];
    [done|unfold len; by rewrite Hl|].
  rewrite Hk in E. rewrite (record_kind now raw c _ rest E) by done. cbn.
  by rewrite (read_full _ _ _ raw read_cookie_layout Hl).
Qed.

Lemma dispatch_stack now raw c :
  len raw = csize stack_trace_event ->
  get_field stack_trace_event "magic" raw = STACK_RECORD_MAGIC ->
  handleRecord now raw c = Some (handleStackRecord now (view_stack raw) c).
Proof.
  intros Hl Hm. unfold handleRecord. rewrite sizeof_stack_event_c, Hl.
  change (le_val (take 8 raw) = StackRecordMagic) in Hm. rewrite Hm. cbn [Z.ltb Z.leb].
  by rewrite (read_full _ _ _ raw read_stack_layout Hl).
Qed.

End Dispatch.

(** ** One transaction through the collector *)

Section Flow.
Context `{SI : SymbolizerI} {BG : Bpf2Go} {BL : Bpf2GoLaws}.
Context (txid ds t0 : Z) (m0 : txMeta) (d : nat -> bytes) (stv : stack_event).
Context (Hds : 0 < ds <= ChunkSize * MaxChunks) (Hm0 : m_dataSize m0 = ds)
  (Hd : forall i, len (d i) = ChunkSize).
(** The chunk records, in order. *)
Context (chunk_raws : list bytes).
Context (Hlen : length chunk_raws = n_chunks ds).
Context (Hraw : forall j raw, chunk_raws !! j = Some raw ->
  len raw = csize binder_trace_event /\ get_field binder_trace_event "kind" raw = EVT_KIND_MAIN /\
  own txid ds m0 d (view_main raw) j /\ ev_cookie (view_main raw) = 0).

(** The collector has the stack, no cookie, and has otherwise not moved
    since [c0]. *)
Definition waiting (c0 c : collector) : Prop :=
  sm c = sm c0 /\ emitted c = emitted c0 /\ symbolizer c = symbolizer c0 /\ no_cookie txid c /\
  exists t, pendingStack c !! txid = Some (PendingStack stv t) /\ t0 <= t.

Lemma cleanup_rest now c :
  sm (maybeCleanup now c) = sm c /\ emitted (maybeCleanup now c) = emitted c /\
  symbolizer (maybeCleanup now c) = symbolizer c.
Proof. unfold maybeCleanup. by case_match. Qed.

Lemma evict_stack_keeps now c k p :
  pendingStack c !! k = Some p -> now - pendingStackTTL <= ps_receivedNs p ->
  pendingStack (evictStalePendingStack now c) !! k = Some p.
Proof.
  intros Hk Ht. cbn. apply map_lookup_filter_Some. split; [done|]. cbn. lia.
Qed.

Lemma cleanup_no_cookie now c : no_cookie txid c -> no_cookie txid (maybeCleanup now c).
Proof.
  intros [Hc Hb]. split.
  - unfold maybeCleanup. case_match; [done|]. cbn. apply lookup_none.
    apply lookup_none in Hc. cbn. apply map_lookup_filter_None. by left.
  - intros b H%cleanup_buffers_sub. auto.
Qed.

Lemma cleanup_waiting c0 now c :
  in_window t0 now -> waiting c0 c -> waiting c0 (maybeCleanup now c).
Proof.
  intros Hw (Hs & He & Hy & Hn & t & Hp & Ht). unfold waiting.
  destruct (cleanup_rest now c) as (-> & -> & ->).
  split_and!; [done..|by apply cleanup_no_cookie|]. exists t. split; [|done].
  unfold maybeCleanup. case_match; [done|].
  match goal with |- pendingStack (evictStalePendingCookies _ ?x) !! _ = _ =>
    change (pendingStack x !! txid = Some (PendingStack stv t)) end.
  apply evict_stack_keeps; [done|]. specialize (Hw 1%nat). cbn. lia.
Qed.

(** A chunk before the last one. *)
Lemma chunk_waiting c0 now raw j got c :
  in_window t0 now -> chunk_raws !! j = Some raw -> receiving txid ds t0 m0 d got c ->
  waiting c0 c -> is_complete (slots ds d (j :: got)) = false ->
  exists c', handleRecord now raw c = Some c' /\ receiving txid ds t0 m0 d (j :: got) c' /\
    waiting c0 c'.
Proof.
  intros Hw Hj Hr Hwt Hc. destruct (Hraw j raw Hj) as (Hl & Hk & Ho & Hck).
  rewrite dispatch_main by done.
  destruct (own_store txid ds t0 m0 d Hds Hm0 now _ j got c Hw Ho Hr)
    as (buf & c1 & Hb & Hrest & Hf & Hm & Hnc & ->). cbv zeta. rewrite Hc.
  destruct Hwt as (Hs & He & Hy & Hn & Hp). destruct (Hnc Hn Hck) as [Hmc Hpc].
  destruct Hrest as (Hs1 & He1 & Hp1 & Hy1). eexists. split; [done|]. split.
  - unfold receiving. rewrite (cleanup_buffers now _ txid
      (TxBuffer (firstSeenNs buf) (slots ds d (j :: got)) (meta buf)));
      [split_and!; [assumption|reflexivity|assumption]| |].
    + cbn. by rewrite lookup_insert_eq.
    + cbn. specialize (Hw 0%nat). lia.
  - apply cleanup_waiting; [done|]. split_and!; cbn; [congruence..| |by rewrite Hp1].
    destruct Hn as [Hn _]. split; cbn; [by rewrite Hpc|].
    intros b. rewrite lookup_insert_eq. by intros [= <-].
Qed.

(** The chunks up to, but not including, the last one. *)
Lemma chunks_waiting c0 l a got c :
  (forall i x, l !! i = Some x -> chunk_raws !! (a + i)%nat = Some x.2 /\ in_window t0 x.1) ->
  (a + length l < n_chunks ds)%nat -> (forall j, j ∈ got <-> (j < a)%nat) ->
  receiving txid ds t0 m0 d got c -> waiting c0 c ->
  exists got' c', run_records l c = Some c' /\ receiving txid ds t0 m0 d got' c' /\ waiting c0 c' /\
    forall j, j ∈ got' <-> (j < a + length l)%nat.
Proof.
  revert a got c. induction l as [|[now raw] l IH]; intros a got c Hl Ha Hg Hr Hwt.
  { exists got, c. cbn. rewrite Nat.add_0_r. done. }
  cbn [length] in Ha. destruct (Hl 0%nat _ eq_refl) as [Hj Hw]. rewrite Nat.add_0_r in Hj. cbn in Hj, Hw.
  destruct (chunk_waiting c0 now raw a got c Hw Hj Hr Hwt) as (c1 & E & Hr1 & Hw1).
  { apply Bool.not_true_is_false. intros Hc. rewrite slots_complete in Hc.
    specialize (Hc (a + 1)%nat ltac:(lia)). apply elem_of_cons in Hc as [|Hc]; [lia|].
    apply Hg in Hc. lia. }
  cbn [run_records]. rewrite E. cbn [mbind option_bind].
  destruct (IH (S a) (a :: got) c1) as (got' & c' & Hrun & Hr' & Hw' & Hg'); [|lia| |done|done|].
  - intros i x Hi. replace (S a + i)%nat with (a + S i)%nat by lia. by apply Hl.
  - intros j. rewrite elem_of_cons, Hg. lia.
  - exists got', c'. split_and!; [done..|]. intros j. rewrite Hg'. cbn [length]. lia.
Qed.

(** The stack record. *)
Lemma stack_waiting now raw c0 :
  in_window t0 now -> len raw = csize stack_trace_event ->
  get_field stack_trace_event "magic" raw = STACK_RECORD_MAGIC -> view_stack raw = stv ->
  st_transaction_id stv = txid -> no_cookie txid c0 ->
  exists c, handleRecord now raw c0 = Some c /\ transactionBuffers c = transactionBuffers c0 /\
    waiting c0 c.
Proof.
  intros Hw Hl Hm Hv Ht Hn. rewrite dispatch_stack, Hv by done. eexists. split; [done|].
  split; [done|]. split_and!; [done..|]. exists (now 0%nat). split; [|apply Hw].
  apply evict_stack_keeps; cbn.
  - rewrite Ht. apply lookup_insert_eq.
  - pose proof (Hw 0%nat). pose proof (Hw 1%nat). lia.
Qed.

Definition parcel : bytes := take (Z.to_nat ds) (concat (d <$> seq 0 (n_chunks ds))).

(** Stack and chunks, in ring order: the event with its stack is routed
    without a cookie. *)
Lemma parcel_flow now_s raw_s l now_e raw_e c0 :
  in_window t0 now_s -> in_window t0 now_e -> Forall (λ x, in_window t0 x.1) l ->
  len raw_s = csize stack_trace_event ->
  get_field stack_trace_event "magic" raw_s = STACK_RECORD_MAGIC -> view_stack raw_s = stv ->
  st_transaction_id stv = txid -> no_cookie txid c0 -> transactionBuffers c0 !! txid = None ->
  l.*2 ++ [raw_e] = chunk_raws ->
  let ev := with_stack (main_payload (now_e 0%nat) m0 parcel)
              (Some (symbolizeStackEvent stv (symbolizer c0)).1) in
  exists c1, run_records ((now_s, raw_s) :: l ++ [(now_e, raw_e)]) c0 =
    Some (maybeCleanup now_e (with_sm (routeMainEvent ev 0 txid (now_e 0%nat) (sm c0)) c1)) /\
    emitted c1 = emitted c0 /\ transactionBuffers c1 !! txid = None.
Proof.
  intros Hws Hwe Hwl Hsl Hsm Hsv Hst Hnc Hb Hl ev.
  destruct (stack_waiting now_s raw_s c0 Hws Hsl Hsm Hsv Hst Hnc) as (c & E & Hbuf & Hwt).
  assert (Hn : length chunk_raws = S (length l)) by (rewrite <- Hl, length_app, length_fmap; cbn; lia).
  destruct (chunks_waiting c0 l 0 [] c) as (got & c2 & Hrun & Hr & Hwt2 & Hgot);
    [| |intros j; split; [inversion 1|lia]|unfold receiving; by rewrite Hbuf, Hb|done|].
  { intros i x Hi. split; [|by apply (list.Forall_lookup_1 _ _ _ _ Hwl Hi)].
    rewrite <- Hl, lookup_app_l by (rewrite length_fmap; by eapply lookup_lt_Some).
    cbn. by rewrite list_lookup_fmap, Hi. }
  { rewrite <- Hlen, Hn. lia. }
  cbn [run_records]. rewrite E. cbn [mbind option_bind]. rewrite run_records_app, Hrun.
  cbn [mbind option_bind run_records].
  assert (Hj : chunk_raws !! length l = Some raw_e).
  { rewrite <- Hl, lookup_app_r by (by rewrite length_fmap). by rewrite length_fmap, Nat.sub_diag. }
  destruct (Hraw _ _ Hj) as (Hel & Hek & Heo & Hec). rewrite dispatch_main by done.
  destruct (own_store txid ds t0 m0 d Hds Hm0 now_e _ _ got c2 Hwe Heo Hr)
    as (buf & c3 & Hb3 & (Hs3 & He3 & Hp3 & Hy3) & _ & Hm & Hnc3 & ->). cbv zeta.
  destruct Hwt2 as (Hs & He & Hy & Hn2 & t & Hp & _). destruct (Hnc3 Hn2 Hec) as [Hmc _].
  assert (Hc : is_complete (slots ds d (length l :: got)) = true).
  { apply slots_complete. intros k Hk. rewrite <- Hlen, Hn in Hk. apply elem_of_cons.
    rewrite Hgot. lia. }
  rewrite Hc. set (b1 := TxBuffer _ _ _). set (c4 := set_buffers _ c3).
  destruct (finish_routes txid ds m0 d Hds Hm0 Hd now_e b1 c4 _ eq_refl Hc Hm)
    as (c5 & ev' & -> & _ & Hat).
  unfold attach_stack, takePendingStack in Hat. unfold c4 in Hat. cbn [pendingStack set_buffers] in Hat.
  rewrite Hp3, Hp in Hat. cbn [ps_stack symbolizer set_pendingStack set_buffers] in Hat.
  rewrite Hy3, Hy in Hat. unfold ev. destruct (symbolizeStackEvent stv (symbolizer c0)) as [tr y].
  injection Hat as <- <-. cbn [mbind option_bind]. cbn [meta b1]. rewrite Hmc. eexists. split.
  - do 4 f_equal. cbn. by rewrite Hs3, Hs.
  - cbn. split; [congruence|]. apply lookup_delete_eq.
Qed.

End Flow.

Lemma cleanup_absent `{SI : SymbolizerI} now k c :
  transactionBuffers c !! k = None -> transactionBuffers (maybeCleanup now c) !! k = None.
Proof.
  intros Hn. destruct (transactionBuffers (maybeCleanup now c) !! k) eqn:E; [|done].
  apply cleanup_buffers_sub in E. congruence.
Qed.

(** ** Pairing of a SYNC request *)

Section Pair.
Context `{SI : SymbolizerI}.

(** The collector knows nothing of the transaction and the cookie, and its
    tables are below capacity. *)
Record idle_for (txid cookie : Z) (c : collector) : Prop := IdleFor {
  idle_buffer : transactionBuffers c !! txid = None;
  idle_cookie : lru_lookup txid (pendingCookieByTxid c) = None;
  idle_txid : lru_lookup txid (pendingMainByTxid (sm c)) = None;
  idle_main : lru_lookup cookie (pendingMain (sm c)) = None;
  idle_cap_txid : (length (order (pendingMainByTxid (sm c))) < pendingMainCapacity)%nat;
  idle_cap_main : (length (order (pendingMain (sm c))) < pendingMainCapacity)%nat;
  idle_legacy : legacyCookieZeroSyncEmit (sm c) = false;
  idle_oneway : lru_lookup cookie (pendingOneway (sm c)) = None;
  idle_recent : lru_lookup cookie (recentOneway (sm c)) = None;
  idle_cap_oneway : (length (order (pendingOneway (sm c))) < pendingOnewayCapacity)%nat }.

Lemma sync_route ev txid now s :
  IsReply ev = 0 -> isOneway ev = false -> txid <> 0 -> legacyCookieZeroSyncEmit s = false ->
  lru_lookup txid (pendingMainByTxid s) = None ->
  (length (order (pendingMainByTxid s)) < pendingMainCapacity)%nat ->
  exists s', routeMainEvent ev 0 txid now s = ([], s') /\ pendingMain s' = pendingMain s /\
    lru_lookup txid (pendingMainByTxid s') = Some (PendingMain now ev 0).
Proof.
  intros Hr Ho Ht Hleg Hn Hcap. unfold routeMainEvent. rewrite Hr, Ho, Hleg, Hn. cbn [negb Z.eqb orb].
  destruct (Z.eqb_spec txid 0); [done|]. cbn [orb]. unfold push_pendingMainByTxid.
  rewrite evict_noop by (cbn; lia). eexists. split; [done|]. split; [done|]. cbn.
  by rewrite lookup_push, decide_True.
Qed.

(** What the sideband adds to an event that knows neither receiver nor id. *)
Lemma sideband_applied ts pid uid code fl ds rep dev tk tref data st dbg to_pid to_uid uns :
  applySideband (MkEvent ts pid uid code fl ds rep dev tk 0 0 tref 0 data st) dbg to_pid to_uid uns =
  MkEvent ts pid uid code fl ds rep dev tk to_pid (if uns =? 0 then to_uid else 0) tref dbg data st.
Proof.
  unfold applySideband. cbn [PairId ToPid ToUid Z.eqb andb].
  destruct (Z.eqb_spec dbg 0), (Z.eqb_spec to_pid 0), (uns =? 0), (Z.eqb_spec to_uid 0); subst; done.
Qed.

(** A sideband that has waited for more than a second is counted. *)
Lemma orphan_swept now s cookie pe :
  lru_lookup cookie (pendingOneway s) = Some pe -> po_enqueuedNs pe < now - pendingOnewayTTL ->
  exists n, (0 < n)%nat /\
    sidebandOrphan (fails (runSweep now s).2) = u64 (sidebandOrphan (fails s) + Z.of_nat n).
Proof.
  intros Hl Ht. unfold runSweep. set (old := λ pe, po_enqueuedNs pe <? now - pendingOnewayTTL).
  pose proof (expire_gone old _ _ _ Hl ltac:(by apply Z.ltb_lt)) as Hin.
  destruct (lru_expire _ (pendingMain s)), (lru_expire _ (pendingMainByTxid s)).
  destruct (lru_expire old (pendingOneway s)) as [o t3], (lru_expire _ (recentOneway s)).
  exists (length o). split; [|reflexivity]. cbn in Hin. destruct o; [by apply not_elem_of_nil in Hin|cbn; lia].
Qed.

Lemma sync_tail now1 now2 tid txid cookie sb pe c :
  txid <> 0 -> cookie <> 0 -> transactionBuffers c !! txid = None ->
  lru_lookup txid (pendingMainByTxid (sm c)) = Some pe ->
  lru_lookup cookie (pendingMain (sm c)) = None ->
  (length (order (pendingMain (sm c))) < pendingMainCapacity)%nat -> sb_cookie sb = cookie ->
  emitted (handleSideband now2 sb
    (handleCookieSideband now1 (CookieSideband cookie txid tid) c)) =
  emitted c ++ [applySideband (pm_event pe) (sb_kernel_debug_id sb) (sb_to_pid sb) (sb_to_uid sb)
                  (sb_to_uid_unsupported sb)].
Proof.
  intros Ht Hc Hb Hpe Hn Hcap Hsb.
  assert (exists s', handleCookieSideband now1 (CookieSideband cookie txid tid) c = with_sm ([], s') c /\
    lru_lookup cookie (pendingMain s') = Some (PendingMain (pm_enqueuedNs pe) (pm_event pe) cookie))
    as (s' & -> & Hl).
  { unfold handleCookieSideband. cbn [cs_transaction_id_hint cs_cookie].
    destruct (Z.eqb_spec txid 0); [done|]. destruct (Z.eqb_spec cookie 0); [done|]. cbn [orb].
    rewrite Hb, Hpe. unfold reactivate. cbn [pendingMain set_pendingMainByTxid]. rewrite Hn.
    unfold push_pendingMain. cbn [pendingMain set_pendingMainByTxid].
    rewrite evict_noop by (cbn; lia). eexists. split; [done|]. cbn.
    by rewrite lookup_push, decide_True. }
  unfold handleSideband, route_sideband. cbn [sm with_sm snd]. rewrite Hsb, Hl. cbn.
  by rewrite app_nil_r.
Qed.

End Pair.

(** ** The records of one transaction, as the collector sees them *)

Section Records_of.
Context `{K : BpfKernel} `{T : CoreTarget}.
Context (c : probe_ctx) (Hc : ctx_ok c) (ti : tx_info) (buffer : Z) (chunks : list bytes).
Context (Hch : forall j raw, chunks !! j = Some raw -> is_chunk c ti buffer (Z.of_nat j) raw).
Context (Hck : ti_cookie ti = 0).

Definition chunk_bytes (j : nat) : bytes :=
  match chunks !! j with
  | Some raw => ev_chunk_data (view_main raw)
  | None => replicate (Z.to_nat ChunkSize) 0
  end.

Definition ti_meta : txMeta := meta_of (chunk_event ti 0 []).

Lemma chunk_bytes_len j : len (chunk_bytes j) = ChunkSize.
Proof.
  unfold chunk_bytes. destruct (chunks !! j) as [raw|] eqn:E; [|unfold len; by rewrite length_replicate].
  destruct (Hch j raw E) as (_ & dst & Hdst & ->). cbn. unfold len.
  rewrite (uread_length c Hc), Hdst. done.
Qed.

Lemma chunk_own j raw :
  chunks !! j = Some raw -> length chunks = n_chunks (ti_data_size ti) ->
  len raw = csize binder_trace_event /\ get_field binder_trace_event "kind" raw = EVT_KIND_MAIN /\
  own (ti_transaction_id ti) (ti_data_size ti) ti_meta chunk_bytes (view_main raw) j /\
  ev_cookie (view_main raw) = 0.
Proof.
  intros Hj Hn. destruct (Hch j raw Hj) as (Hl & dst & _ & Hv).
  change (get_field binder_trace_event "kind" raw) with (ev_kind (view_main raw)).
  unfold own, chunk_bytes. rewrite Hj, Hv.
  split; [exact Hl|]. split; [reflexivity|]. split; [|exact Hck].
  split; [reflexivity|]. split; [reflexivity|]. split; [|split; [reflexivity|]].
  - rewrite <- Hn. by eapply lookup_lt_Some.
  - unfold ti_meta, meta_of. cbn. by rewrite Hck.
Qed.

Lemma chunk_bytes_concat :
  concat (chunk_bytes <$> seq 0 (length chunks)) = concat ((ev_chunk_data ∘ view_main) <$> chunks).
Proof.
  f_equal. apply list_eq. intros j. rewrite !list_lookup_fmap.
  destruct (chunks !! j) as [raw|] eqn:E.
  - rewrite lookup_seq_lt by (by eapply lookup_lt_Some). cbn. unfold chunk_bytes. by rewrite E.
  - rewrite lookup_seq_ge; [done|]. by apply lookup_ge_None.
Qed.

End Records_of.

(** The probe and the collector split a parcel into the same chunks. *)
Lemma chunk_counts_agree ds :
  0 < ds <= ChunkSize * MaxChunks ->
  total_chunks_of ds = Z.of_nat (n_chunks ds) /\ total_chunks_of ds <= MAX_CHUNKS.
Proof.
  intros Hds. pose proof (n_chunks_range _ Hds) as [Hn _].
  rewrite total_chunks_small by (unfold ChunkSize, MaxChunks, CHUNK_SIZE in *; lia).
  unfold n_chunks in *. unfold CHUNK_SIZE, ChunkSize, MAX_CHUNKS in *. lia.
Qed.

Lemma request_pair_id `{K : BpfKernel} `{T : CoreTarget} c txid :
  kprobe_reply c = 0 -> ti_pair_id (tx_info_of c txid) = 0.
Proof. intros Hr. unfold tx_info_of, reply_origin. cbn [ti_pair_id]. by rewrite Hr. Qed.

Lemma request_is_reply `{K : BpfKernel} `{T : CoreTarget} c txid :
  kprobe_reply c = 0 -> ti_is_reply (tx_info_of c txid) = 0.
Proof. intros Hr. unfold tx_info_of. cbn [ti_is_reply]. by rewrite Hr. Qed.

(** ** The records of one transaction, read in ring order by a collector that
    is idle for it *)

Section Traced.
Context `{K : BpfKernel} `{T : CoreTarget} `{SI : SymbolizerI} {BG : Bpf2Go} {BL : Bpf2GoLaws}.
Context (c : probe_ctx) (ti : tx_info) (buffer t0 : Z) (st : bytes) (chunks : list bytes)
  (time : nat -> nat -> Z) (col : collector) (cookie : Z).
Context (Hc : ctx_ok c) (Hck0 : ti_cookie ti = 0)
  (Hds : 0 < ti_data_size ti <= ChunkSize * MaxChunks) (Ht0 : ti_transaction_id ti <> 0)
  (Hst : is_stack c (ti_transaction_id ti) st) (Hlen : length chunks = n_chunks (ti_data_size ti))
  (Hch : forall j raw, chunks !! j = Some raw -> is_chunk c ti buffer (Z.of_nat j) raw)
  (Hw : forall i, in_window t0 (time i)) (Hidle : idle_for (ti_transaction_id ti) cookie col).

Definition timed (i : nat) (raw : bytes) : (nat -> Z) * bytes := (time i, raw).

(** The event the parcel becomes, before it is paired. *)
Definition traced_event : BinderEventPayload :=
  with_stack (main_payload (time (length chunks) 0%nat) (ti_meta ti)
    (take (Z.to_nat (ti_data_size ti)) (concat ((ev_chunk_data ∘ view_main) <$> chunks))))
    (Some (symbolizeStackEvent (view_stack st) (symbolizer col)).1).

Lemma traced_event_fields m :
  wrap 56 buffer + ti_data_size ti <= 2 ^ 56 ->
  reads_user c m (wrap 56 buffer) (ti_data_size ti) ->
  traced_event = MkEvent (time (length chunks) 0%nat) (ti_pid ti) (ti_uid ti) (ti_code ti) (ti_flags ti)
    (ti_data_size ti) (ti_is_reply ti) (ti_binder_dev ti) TARGET_KIND_UNKNOWN (ti_to_pid ti)
    (ti_to_uid ti) (ti_target_ref ti) (ti_pair_id ti)
    (mem_bytes m (wrap 56 buffer) (Z.to_nat (ti_data_size ti)))
    (Some (symbolizeStackEvent (view_stack st) (symbolizer col)).1).
Proof.
  intros Hb Hm.
  assert (Hl : Z.of_nat (length chunks) = total_chunks_of (ti_data_size ti))
    by (rewrite Hlen; symmetry; by apply chunk_counts_agree).
  unfold traced_event.
  rewrite (chunks_carry_parcel c ti buffer m chunks Hc Hds Hb Hm Hl Hch).
  unfold with_stack.
  cbn [Timestamp Pid Uid Code Flags DataSize IsReply BinderDev TargetKind ToPid ToUid TargetRef PairId
       ParcelData].
  f_equal; try reflexivity. unfold len. rewrite length_mem_bytes, Z2Nat.id by lia. apply wrap_small.
  unfold fits, MaxChunks, ChunkSize in *. lia.
Qed.

Lemma parcel_records_route :
  exists c1,
    run_records (imap timed (st :: chunks)) col =
    Some (maybeCleanup (time (length chunks)) (with_sm (routeMainEvent traced_event 0
      (ti_transaction_id ti) (time (length chunks) 0%nat) (sm col)) c1)) /\
    emitted c1 = emitted col /\ transactionBuffers c1 !! ti_transaction_id ti = None.
Proof.
  destruct Hst as (Hsl & Hsm & dst & ks & _ & Hsv). pose proof (n_chunks_range _ Hds) as [Hn _].
  destruct (exists_last (l := chunks)) as (chunks0 & raw_e & E0).
  { intros ->. cbn in Hlen. lia. }
  assert (El : imap timed (st :: chunks) =
    (time 0%nat, st) :: imap (timed ∘ S) chunks0 ++ [(time (length chunks), raw_e)]).
  { rewrite E0, imap_cons, imap_app, length_app. cbn. rewrite Nat.add_0_r, Nat.add_1_r. reflexivity. }
  rewrite El.
  destruct (parcel_flow (ti_transaction_id ti) (ti_data_size ti) t0 (ti_meta ti) (chunk_bytes chunks)
    (view_stack st) Hds eq_refl (chunk_bytes_len c Hc ti buffer chunks Hch) chunks Hlen
    (λ j raw Hj, chunk_own c ti buffer chunks Hch Hck0 j raw Hj Hlen) (time 0%nat) st
    (imap (timed ∘ S) chunks0) (time (length chunks)) raw_e col) as (c1 & Hrun & Hem & Hbuf);
    [apply Hw|apply Hw| |exact Hsl|exact Hsm|reflexivity|by rewrite Hsv| |apply (idle_buffer _ _ _ Hidle)| |].
  { apply list.Forall_lookup. intros i x. rewrite list_lookup_imap. intros (raw & _ & ->)%fmap_Some.
    apply Hw. }
  { split; [apply (idle_cookie _ _ _ Hidle)|]. intros b. by rewrite (idle_buffer _ _ _ Hidle). }
  { rewrite fmap_imap, E0. f_equal. exact (eq_trans (imap_const id _) (list_fmap_id _)). }
  unfold EndToEnd.parcel in Hrun. rewrite <- Hlen, (chunk_bytes_concat chunks) in Hrun.
  exists c1. split; [exact Hrun|]. split; [exact Hem|exact Hbuf].
Qed.

(** A reply needs no pairing. *)
Lemma reply_records_emit :
  ti_is_reply ti <> 0 ->
  exists col', run_records (imap timed (st :: chunks)) col = Some col' /\
    emitted col' = emitted col ++ [traced_event].
Proof.
  intros Hr. destruct parcel_records_route as (c1 & Hrun & Hem & _). eexists. split; [exact Hrun|].
  rewrite (proj1 (proj2 (cleanup_rest _ _))). unfold routeMainEvent.
  change (IsReply traced_event) with (ti_is_reply ti). destruct (Z.eqb_spec (ti_is_reply ti) 0); [done|].
  cbn [negb emitted with_sm fst]. by rewrite Hem.
Qed.

Context (Hc0 : cookie <> 0) (ck sb : bytes) (tid : Z) (v : sideband_event).
Context (Hck : is_cookie (CookieSideband cookie (ti_transaction_id ti) tid) ck)
  (Hsb : is_sideband v sb) (Hv : sb_cookie v = cookie) (Hr : ti_is_reply ti = 0).

(** The cookie and the sideband record follow the chunks. *)
Lemma request_records_run :
  exists c1, emitted c1 = emitted col /\ transactionBuffers c1 !! ti_transaction_id ti = None /\
    let e := time (length chunks) in
    run_records (imap timed (st :: chunks ++ [ck; sb])) col =
    Some (handleSideband (time (S (S (length chunks)))) v
      (handleCookieSideband (time (S (length chunks))) (CookieSideband cookie (ti_transaction_id ti) tid)
         (maybeCleanup e (with_sm (routeMainEvent traced_event 0 (ti_transaction_id ti) (e 0%nat)
            (sm col)) c1)))).
Proof.
  destruct parcel_records_route as (c1 & Hrun & Hem & Hbuf). exists c1. split; [exact Hem|].
  split; [exact Hbuf|]. change (st :: chunks ++ [ck; sb]) with ((st :: chunks) ++ [ck; sb]).
  rewrite imap_app, run_records_app, Hrun. rewrite !imap_cons. cbn [mbind option_bind imap run_records compose length].
  unfold timed. rewrite Nat.add_0_r, Nat.add_1_r.
  rewrite (dispatch_cookie _ ck _ _ Hck). cbn [mbind option_bind].
  rewrite (dispatch_sideband _ sb _ _ Hsb). reflexivity.
Qed.

(** A SYNC request is emitted with its sideband. *)
Lemma sync_records_emit :
  Z.land (ti_flags ti) txFlagOneWay = 0 ->
  exists col', run_records (imap timed (st :: chunks ++ [ck; sb])) col = Some col' /\
    emitted col' = emitted col ++ [applySideband traced_event (sb_kernel_debug_id v) (sb_to_pid v)
                                     (sb_to_uid v) (sb_to_uid_unsupported v)].
Proof.
  intros Hone. destruct request_records_run as (c1 & Hem & Hbuf & Hrun). eexists. split; [exact Hrun|].
  cbv zeta. set (e := time (length chunks)) in *.
  destruct Hidle as [_ _ Hit Him Hct Hcm Hleg _ _ _].
  destruct (sync_route traced_event (ti_transaction_id ti) (e 0%nat) (sm col)) as (s' & -> & Hpm & Hpt);
    try done.
  { cbn. by rewrite Hone. }
  destruct (cleanup_rest e (with_sm ([], s') c1)) as (Ec & Ee & _).
  rewrite (sync_tail _ _ tid _ cookie v (PendingMain (e 0%nat) traced_event 0) _ Ht0 Hc0
    (cleanup_absent _ _ (with_sm ([], s') c1) Hbuf)); [|rewrite Ec..|exact Hv].
  - rewrite Ee. cbn [emitted with_sm fst pm_event]. by rewrite Hem, app_nil_r.
  - exact Hpt.
  - cbn [sm with_sm snd]. by rewrite Hpm.
  - cbn [sm with_sm snd]. by rewrite Hpm.
Qed.

(** A ONEWAY request is emitted before its cookie is known; its sideband
    then finds no main event. *)
Lemma oneway_records_emit :
  Z.land (ti_flags ti) txFlagOneWay <> 0 ->
  exists col', run_records (imap timed (st :: chunks ++ [ck; sb])) col = Some col' /\
    emitted col' = emitted col ++ [traced_event] /\
    lru_lookup cookie (pendingOneway (sm col')) =
    Some (PendingOneway (time (S (S (length chunks))) 0%nat) (sb_kernel_debug_id v) (sb_to_pid v)
            (sb_to_uid v) (sb_to_uid_unsupported v)).
Proof.
  intros Hone. destruct request_records_run as (c1 & Hem & Hbuf & Hrun). eexists. split; [exact Hrun|].
  cbv zeta. set (e := time (length chunks)) in *.
  destruct Hidle as [_ _ Hit Him _ _ _ Hio Hir Hco].
  assert (routeMainEvent traced_event 0 (ti_transaction_id ti) (e 0%nat) (sm col) =
          ([traced_event], sm col)) as ->.
  { unfold routeMainEvent. change (IsReply traced_event) with (ti_is_reply ti).
    change (Flags traced_event) with (ti_flags ti). rewrite Hr.
    by destruct (Z.eqb_spec (Z.land (ti_flags ti) txFlagOneWay) 0). }
  destruct (cleanup_rest e (with_sm ([traced_event], sm col) c1)) as (Ec & Ee & _).
  pose proof (cleanup_absent e _ (with_sm ([traced_event], sm col) c1) Hbuf) as Hb.
  set (c2 := maybeCleanup _ _) in *. cbn [sm with_sm snd] in Ec.
  assert (handleCookieSideband (time (S (length chunks))) (CookieSideband cookie (ti_transaction_id ti) tid)
            c2 = store_cookie (time (S (length chunks))) (ti_transaction_id ti) cookie c2) as ->.
  { unfold handleCookieSideband. cbn [cs_transaction_id_hint cs_cookie]. rewrite Hb, Ec, Hit.
    by destruct (Z.eqb_spec (ti_transaction_id ti) 0), (Z.eqb_spec cookie 0). }
  unfold handleSideband. change (sm (store_cookie ?a ?b ?d c2)) with (sm c2). rewrite Ec.
  unfold route_sideband. rewrite Hv, Him, Hio, Hir, evict_noop by (cbn; lia).
  cbn [emitted sm with_sm fst snd length]. split_and!.
  - change (emitted (store_cookie ?a ?b ?d c2)) with (emitted c2). rewrite Ee. cbn. by rewrite Hem, app_nil_r.
  - cbn. by rewrite lookup_push, decide_True.
Qed.

End Traced.

(** ** Readers that follow the C layout *)

Definition layout_reader {A} (t : ctype) (view : bytes -> A) (raw : bytes) : option A :=
  if len raw <? csize t then None else Some (view raw).

Definition layout_readers : Bpf2Go := {|
  read_main := layout_reader binder_trace_event view_main;
  read_sideband := layout_reader binder_sideband_event view_sideband;
  read_cookie := layout_reader binder_cookie_sideband view_cookie;
  read_stack := layout_reader stack_trace_event view_stack;
  sizeof_stack_event := csize stack_trace_event
|}.

Lemma layout_readers_laws : @Bpf2GoLaws layout_readers.
Proof. split; [intros raw; reflexivity..|reflexivity]. Qed.

#[local] Existing Instance layout_readers.
#[local] Existing Instance layout_readers_laws.
#[local] Existing Instance no_symbols.

(** ** Properties *)

(** C26: Every record that any interleaving of the three programs puts into
    the ring is dispatched by the collector to the handler of the program
    that submitted it, with the values the program stored: a record of 544
    bytes is a stack record, one of 1112 bytes a chunk, and one of 32 bytes a
    cookie or a sideband record by its first byte. *)
Theorem every_record_dispatched `{KL : BpfKernelLaws} `{T : CoreTarget} `{SI : SymbolizerI}
    {BG : Bpf2Go} {BL : Bpf2GoLaws} s0 s raw now col :
  (forall k, map_lookup (pending_map s0) k = None) ->
  (forall k, map_lookup (tid_to_txid_map s0) k = None) ->
  records s0 = [] -> rtc bpf_step s0 s -> raw ∈ records s ->
  handleRecord now raw col =
  if len raw =? 544 then Some (handleStackRecord now (view_stack raw) col)
  else if len raw =? 1112 then handleEvent now (view_main raw) col
  else if default 0 (head raw) =? EVT_KIND_COOKIE
  then Some (handleCookieSideband now (view_cookie raw) col)
  else Some (handleSideband now (view_sideband raw) col).
Proof.
  intros Hp Ht Hr Hrun Hin.
  assert (Hi : bpf_inv s).
  { apply (steps_preserve s0 s Hrun). split; [|intros k v; by rewrite Hp|by rewrite Hr].
    intros k v. by rewrite Ht. }
  apply (proj1 (list.Forall_forall _ _) (inv_records s Hi)) in Hin.
  destruct Hin as [[[Hl Hm]|[Hl Hk]]|[[v Hv]|[v Hv]]].
  - change (len raw = 544) in Hl. rewrite Hl. cbn [Z.eqb Pos.eqb]. by apply dispatch_stack.
  - change (len raw = 1112) in Hl. rewrite Hl. cbn [Z.eqb Pos.eqb]. by apply dispatch_main.
  - rewrite (dispatch_cookie now raw col v Hv). destruct Hv as (Hl & Hk & <-).
    change (len raw = 32) in Hl. destruct (kind_first binder_cookie_sideband raw) as [rest E];
      [done|by rewrite Hl|]. rewrite Hk in E.
    assert (default 0 (head raw) = EVT_KIND_COOKIE) as -> by (by rewrite E). by rewrite Hl.
  - rewrite (dispatch_sideband now raw col v Hv). destruct Hv as (Hl & Hk & <-).
    change (len raw = 32) in Hl. destruct (kind_first binder_sideband_event raw) as [rest E];
      [done|by rewrite Hl|]. rewrite Hk in E.
    assert (default 0 (head raw) = EVT_KIND_SIDEBAND) as -> by (by rewrite E). by rewrite Hl.
Qed.

Lemma every_record_dispatched_witness :
  let c := sim_call 0 1500 0xb400007000010000 10123 1201 in
  let s := kprobe_binder_transaction c (sim_state 10123 5000) in
  let raw := nth 1 (records s) [] in
  let now := λ _ : nat, 1000 in
  handleRecord now raw (NewEventCollector None) =
  handleEvent now (view_main raw) (NewEventCollector None).
Proof.
  intros c s raw now.
  rewrite (every_record_dispatched (sim_state 10123 5000) s raw now (NewEventCollector None)).
  - assert (len raw = 1112) as -> by (vm_compute; reflexivity). reflexivity.
  - intros k. reflexivity.
  - intros k. reflexivity.
  - reflexivity.
  - apply rtc_once. refine (BpfStep MainProbe c (sim_state 10123 5000) _). apply sim_ctx_ok.
  - apply (list_elem_of_lookup_2 _ 1). vm_compute. reflexivity.
Defined.

(** A traced request and its event *)
Lemma request_emits `{KL : BpfKernelLaws} `{T : CoreTarget} `{SI : SymbolizerI}
    {BG : Bpf2Go} {BL : Bpf2GoLaws} c ct s m conf_uid time t0 col :
  ctx_ok c -> ctx_ok ct -> config_uid s = Some conf_uid -> kprobe_tr c <> 0 ->
  kprobe_reply c = 0 -> filtered_out conf_uid (cur_gid c) = false ->
  tp_reply ct = 0 -> tp_transaction ct <> 0 -> current_tid ct = current_tid c ->
  let ti := tx_info_of c (next_txid s) in
  let ds := ti_data_size ti in
  let addr := wrap 56 (data_buffer c) in
  let s1 := kprobe_binder_transaction c s in
  let s3 := raw_tp_binder_transaction ct (kprobe_binder_transaction_cookie c s1) in
  let v := sideband_of ct (next_cookie c s1) in
  0 < ds <= MAX_CHUNKS * CHUNK_SIZE -> addr + ds <= 2 ^ 56 -> reads_user c m addr ds ->
  Z.land (ti_flags ti) txFlagOneWay = 0 ->
  next_txid s <> 0 -> next_cookie c s1 <> 0 -> room 19 (trace_event_map s) ->
  (forall i, in_window t0 (time i)) -> idle_for (next_txid s) (next_cookie c s1) col ->
  exists news col' st i,
    records s3 = records s ++ news /\ is_stack c (next_txid s) st /\
    run_records (imap (λ i raw, (time i, raw)) news) col = Some col' /\
    emitted col' = emitted col ++
      [MkEvent (time i 0%nat) (current_pid c) (cur_gid c) (ti_code ti) (ti_flags ti) ds 0
         (ti_binder_dev ti) TARGET_KIND_UNKNOWN (sb_to_pid v)
         (if sb_to_uid_unsupported v =? 0 then sb_to_uid v else 0) (ti_target_ref ti)
         (sb_kernel_debug_id v) (mem_bytes m addr (Z.to_nat ds))
         (Some (symbolizeStackEvent (view_stack st) (symbolizer col)).1)].
Proof.
  intros Hc Hct Hcf Htr Hr Hf Htr' Htx Htid ti ds addr s1 s3 v Hds Hb Hm Hone Ht0 Hck Hroom Hw Hidle.
  destruct (chunk_counts_agree ds Hds) as [Hn Hmax].
  destruct (request_records c ct s conf_uid) as (st & chunks & ck & sb & Hrec & Hlen & Hst & Hch & Hckv
    & Hsb & _); try assumption.
  fold ti ds in Hlen. assert (Hl : length chunks = n_chunks ds) by lia.
  pose proof (request_is_reply c (next_txid s) Hr : ti_is_reply ti = 0) as Hti.
  pose proof (request_pair_id c (next_txid s) Hr : ti_pair_id ti = 0) as Hp.
  destruct (sync_records_emit c ti (data_buffer c) t0 st chunks time col (next_cookie c s1) Hc eq_refl
    Hds Ht0 Hst Hl Hch Hw Hidle Hck ck sb (current_tid c) v Hckv Hsb (sideband_of_cookie _ _) Hti Hone)
    as (col' & Hrun & Hem).
  rewrite (traced_event_fields c ti (data_buffer c) st chunks time col Hc Hds Hl Hch m Hb Hm) in Hem.
  exists (st :: chunks ++ [ck; sb]), col', st, (length chunks).
  split; [exact Hrec|]. split; [exact Hst|]. split; [exact Hrun|].
  rewrite Hem, Hti, Hp, (current_uid_is_gid c Hc : ti_uid ti = _). change (ti_to_pid ti) with 0. change (ti_to_uid ti) with 0.
  by rewrite sideband_applied.
Qed.

(** C4: A traced request comes out whole. A SYNC request of a task whose group
    id passes the filter, with a parcel of 1 to 16384 readable bytes, runs the
    three programs in order, with a transaction id and a cookie other than zero
    and with room in the ring. The collector, which holds nothing of this
    transaction, reads the new records within its buffer window. Then it emits
    exactly one new event: the sender's process id, the sender's group id in the
    field that is named uid, the transaction's code, flags and target, the
    parcel as it stands in the sender's memory, its stack, and the receiver and
    debug id the tracepoint saw, paired through the cookie. *)
Theorem traced_request_emitted `{KL : BpfKernelLaws} `{T : CoreTarget} `{SI : SymbolizerI}
    {BG : Bpf2Go} {BL : Bpf2GoLaws} c ct s m conf_uid time t0 col :
  ctx_ok c -> ctx_ok ct -> config_uid s = Some conf_uid -> kprobe_tr c <> 0 ->
  kprobe_reply c = 0 -> filtered_out conf_uid (cur_gid c) = false ->
  tp_reply ct = 0 -> tp_transaction ct <> 0 -> current_tid ct = current_tid c ->
  let ti := tx_info_of c (next_txid s) in
  let ds := ti_data_size ti in
  let addr := wrap 56 (data_buffer c) in
  let s1 := kprobe_binder_transaction c s in
  let s3 := raw_tp_binder_transaction ct (kprobe_binder_transaction_cookie c s1) in
  let v := sideband_of ct (next_cookie c s1) in
  0 < ds <= MAX_CHUNKS * CHUNK_SIZE -> addr + ds <= 2 ^ 56 -> reads_user c m addr ds ->
  Z.land (ti_flags ti) txFlagOneWay = 0 ->
  next_txid s <> 0 -> next_cookie c s1 <> 0 -> room 19 (trace_event_map s) ->
  (forall i, in_window t0 (time i)) -> idle_for (next_txid s) (next_cookie c s1) col ->
  exists news col' st i,
    records s3 = records s ++ news /\ is_stack c (next_txid s) st /\
    run_records (imap (λ i raw, (time i, raw)) news) col = Some col' /\
    emitted col' = emitted col ++
      [MkEvent (time i 0%nat) (current_pid c) (cur_gid c) (ti_code ti) (ti_flags ti) ds 0
         (ti_binder_dev ti) TARGET_KIND_UNKNOWN (sb_to_pid v)
         (if sb_to_uid_unsupported v =? 0 then sb_to_uid v else 0) (ti_target_ref ti)
         (sb_kernel_debug_id v) (mem_bytes m addr (Z.to_nat ds))
         (Some (symbolizeStackEvent (view_stack st) (symbolizer col)).1)].
Proof. exact (request_emits c ct s m conf_uid time t0 col). Qed.

(** The sender has uid 10123 and gid 2000. *)
Lemma traced_request_emitted_witness :
  let c := sim_call 0 1500 0xb400007000010000 2000 1201 in
  let ct := sim_tracepoint 0 10123 1201 in
  let s := sim_state 2000 5000 in
  let s3 := raw_tp_binder_transaction ct
              (kprobe_binder_transaction_cookie c (kprobe_binder_transaction c s)) in
  exists col' trace,
    run_records (imap (λ _ raw, ((λ _ : nat, 1000), raw)) (records s3)) (NewEventCollector None) =
      Some col' /\
    emitted col' =
      [MkEvent 1000 1200 2000 7 0 1500 0 0 0 1500 1000 0 77
         (mem_bytes (λ a, wrap 8 (a * 7)) 0x7000010000 1500) (Some trace)].
Proof.
  intros c ct s s3.
  assert (next_cookie c (kprobe_binder_transaction c s) = 1280259) as E by (vm_compute; reflexivity).
  destruct (traced_request_emitted c ct s (λ a, wrap 8 (a * 7)) 2000 (λ _ _, 1000) 1000
    (NewEventCollector None)) as (news & col' & st & i & Hrec & _ & Hrun & Hem);
    [apply sim_ctx_ok|apply sim_ctx_ok|reflexivity|discriminate|reflexivity|reflexivity|reflexivity
    |discriminate|reflexivity|vm_compute; intuition congruence|vm_compute; congruence
    |apply sim_reads_user|reflexivity|vm_compute; congruence|vm_compute; congruence
    |apply sim_room; vm_compute; congruence
    |intros j k; unfold staleBufferTTL, Second; lia|rewrite E; split; (reflexivity || vm_compute; lia)|].
  exists col', (symbolizeStackEvent (view_stack st) (symbolizer (NewEventCollector None))).1.
  rewrite E in Hem. split.
  - change (records s) with (@nil bytes) in Hrec. cbn [app] in Hrec. unfold s3. rewrite Hrec. exact Hrun.
  - exact Hem.
Defined.

(** A ONEWAY request is emitted at once, whole but without receiver or
    debug id: the cookie is not known yet when its last chunk arrives. Its
    sideband is stored without a main event to meet, and a sweep more than a
    second later counts it as an orphan. *)
Theorem oneway_request_unpaired `{KL : BpfKernelLaws} `{T : CoreTarget} `{SI : SymbolizerI}
    {BG : Bpf2Go} {BL : Bpf2GoLaws} c ct s m conf_uid time t0 col :
  ctx_ok c -> ctx_ok ct -> config_uid s = Some conf_uid -> kprobe_tr c <> 0 ->
  kprobe_reply c = 0 -> filtered_out conf_uid (cur_gid c) = false ->
  tp_reply ct = 0 -> tp_transaction ct <> 0 -> current_tid ct = current_tid c ->
  let ti := tx_info_of c (next_txid s) in
  let ds := ti_data_size ti in
  let addr := wrap 56 (data_buffer c) in
  let s1 := kprobe_binder_transaction c s in
  let s3 := raw_tp_binder_transaction ct (kprobe_binder_transaction_cookie c s1) in
  0 < ds <= MAX_CHUNKS * CHUNK_SIZE -> addr + ds <= 2 ^ 56 -> reads_user c m addr ds ->
  Z.land (ti_flags ti) txFlagOneWay <> 0 ->
  next_txid s <> 0 -> next_cookie c s1 <> 0 -> room 19 (trace_event_map s) ->
  (forall i, in_window t0 (time i)) -> idle_for (next_txid s) (next_cookie c s1) col ->
  exists news col' st i,
    records s3 = records s ++ news /\ is_stack c (next_txid s) st /\
    run_records (imap (λ i raw, (time i, raw)) news) col = Some col' /\
    emitted col' = emitted col ++
      [MkEvent (time i 0%nat) (current_pid c) (cur_gid c) (ti_code ti) (ti_flags ti) ds 0
         (ti_binder_dev ti) TARGET_KIND_UNKNOWN 0 0 (ti_target_ref ti) 0
         (mem_bytes m addr (Z.to_nat ds))
         (Some (symbolizeStackEvent (view_stack st) (symbolizer col)).1)] /\
    forall now, t0 + staleBufferTTL + pendingOnewayTTL < now ->
      exists n, (0 < n)%nat /\
        sidebandOrphan (fails (runSweep now (sm col')).2) =
        u64 (sidebandOrphan (fails (sm col')) + Z.of_nat n).
Proof.
  intros Hc Hct Hcf Htr Hr Hf Htr' Htx Htid ti ds addr s1 s3 Hds Hb Hm Hone Ht0 Hck Hroom Hw Hidle.
  destruct (chunk_counts_agree ds Hds) as [Hn Hmax].
  destruct (request_records c ct s conf_uid) as (st & chunks & ck & sb & Hrec & Hlen & Hst & Hch & Hckv
    & Hsb & _); try assumption.
  fold ti ds in Hlen. assert (Hl : length chunks = n_chunks ds) by lia.
  pose proof (request_is_reply c (next_txid s) Hr : ti_is_reply ti = 0) as Hti.
  pose proof (request_pair_id c (next_txid s) Hr : ti_pair_id ti = 0) as Hp.
  destruct (oneway_records_emit c ti (data_buffer c) t0 st chunks time col (next_cookie c s1) Hc eq_refl
    Hds Ht0 Hst Hl Hch Hw Hidle Hck ck sb (current_tid c) _ Hckv Hsb (sideband_of_cookie _ _) Hti Hone)
    as (col' & Hrun & Hem & Hpend).
  rewrite (traced_event_fields c ti (data_buffer c) st chunks time col Hc Hds Hl Hch m Hb Hm) in Hem.
  exists (st :: chunks ++ [ck; sb]), col', st, (length chunks).
  split; [exact Hrec|]. split; [exact Hst|]. split; [exact Hrun|]. split.
  - by rewrite Hem, Hti, Hp, (current_uid_is_gid c Hc : ti_uid ti = _).
  - intros now Hnow. apply (orphan_swept now (sm col') _ _ Hpend). cbn [po_enqueuedNs].
    pose proof (Hw (S (S (length chunks))) 0%nat). lia.
Qed.

Lemma oneway_request_unpaired_witness :
  let c := sim_transaction 1 0 1500 0xb400007000010000 10123 1201 [] in
  let ct := sim_tracepoint 0 10123 1201 in
  let s := sim_state 10123 5000 in
  let s3 := raw_tp_binder_transaction ct
              (kprobe_binder_transaction_cookie c (kprobe_binder_transaction c s)) in
  exists col' trace n,
    run_records (imap (λ _ raw, ((λ _ : nat, 1000), raw)) (records s3)) (NewEventCollector None) =
      Some col' /\
    emitted col' =
      [MkEvent 1000 1200 10123 7 1 1500 0 0 0 0 0 0 0
         (mem_bytes (λ a, wrap 8 (a * 7)) 0x7000010000 1500) (Some trace)] /\
    (0 < n)%nat /\
    sidebandOrphan (fails (runSweep 10000000000000 (sm col')).2) =
    u64 (sidebandOrphan (fails (sm col')) + Z.of_nat n).
Proof.
  intros c ct s s3.
  assert (next_cookie c (kprobe_binder_transaction c s) = 1280259) as E by (vm_compute; reflexivity).
  destruct (oneway_request_unpaired c ct s (λ a, wrap 8 (a * 7)) 10123 (λ _ _, 1000) 1000
    (NewEventCollector None)) as (news & col' & st & i & Hrec & _ & Hrun & Hem & Hsweep);
    [apply sim_ctx_ok|apply sim_ctx_ok|reflexivity|discriminate|reflexivity|reflexivity|reflexivity
    |discriminate|reflexivity|vm_compute; intuition congruence|vm_compute; congruence
    |apply sim_reads_user|vm_compute; congruence|vm_compute; congruence|vm_compute; congruence
    |apply sim_room; vm_compute; congruence
    |intros j k; unfold staleBufferTTL, Second; lia|rewrite E; split; (reflexivity || vm_compute; lia)|].
  destruct (Hsweep 10000000000000) as (n & Hn & Ho); [vm_compute; reflexivity|].
  exists col', (symbolizeStackEvent (view_stack st) (symbolizer (NewEventCollector None))).1, n. split.
  - change (records s) with (@nil bytes) in Hrec. cbn [app] in Hrec. unfold s3. rewrite Hrec. exact Hrun.
  - split; [exact Hem|]. split; [exact Hn|exact Ho].
Defined.

(** C5: A traced reply comes out whole and paired by itself: with a parcel of
    1 to 16384 readable bytes and room in the ring, the records of the main
    probe alone make the collector emit exactly one event, a reply whose pair
    id is the debug id of the transaction it answers. *)
Theorem traced_reply_emitted `{KL : BpfKernelLaws} `{T : CoreTarget} `{SI : SymbolizerI}
    {BG : Bpf2Go} {BL : Bpf2GoLaws} c s m conf_uid time t0 col :
  ctx_ok c -> config_uid s = Some conf_uid -> kprobe_tr c <> 0 ->
  kprobe_reply c <> 0 -> filtered_out conf_uid (effective_uid c) = false ->
  let ti := tx_info_of c (next_txid s) in
  let ds := ti_data_size ti in
  let addr := wrap 56 (data_buffer c) in
  let s1 := kprobe_binder_transaction c s in
  0 < ds <= MAX_CHUNKS * CHUNK_SIZE -> addr + ds <= 2 ^ 56 -> reads_user c m addr ds ->
  next_txid s <> 0 -> room 17 (trace_event_map s) ->
  (forall i, in_window t0 (time i)) -> idle_for (next_txid s) 0 col ->
  exists news col' st i,
    records s1 = records s ++ news /\ is_stack c (next_txid s) st /\
    run_records (imap (λ i raw, (time i, raw)) news) col = Some col' /\
    emitted col' = emitted col ++
      [MkEvent (time i 0%nat) (current_pid c) (current_uid c) (ti_code ti) (ti_flags ti) ds 1
         (ti_binder_dev ti) TARGET_KIND_UNKNOWN 0 0 (ti_target_ref ti)
         (reply_origin c (kprobe_reply c)).1 (mem_bytes m addr (Z.to_nat ds))
         (Some (symbolizeStackEvent (view_stack st) (symbolizer col)).1)].
Proof.
  intros Hc Hcf Htr Hr Hf ti ds addr s1 Hds Hb Hm Ht0 Hroom Hw Hidle.
  destruct (chunk_counts_agree ds Hds) as [Hn Hmax].
  destruct (kprobe_submits c s conf_uid Hc Hcf Htr Hf Hmax) as (sts & chunks & Hrec & _ & Hst & _ & Hch & Hfull).
  destruct (Hfull Hroom) as [Hl1 Hl2]. destruct sts as [|st [|]]; try discriminate Hl1.
  apply Forall_inv in Hst. fold ti ds in Hl2. assert (Hl : length chunks = n_chunks ds) by lia.
  assert (Hti : ti_is_reply ti = 1)
    by (unfold ti, tx_info_of; cbn [ti_is_reply]; by destruct (Z.eqb_spec (kprobe_reply c) 0)).
  destruct (reply_records_emit c ti (data_buffer c) t0 st chunks time col 0 Hc eq_refl
    Hds Hst Hl Hch Hw Hidle ltac:(lia)) as (col' & Hrun & Hem).
  rewrite (traced_event_fields c ti (data_buffer c) st chunks time col Hc Hds Hl Hch m Hb Hm) in Hem.
  exists (st :: chunks), col', st, (length chunks).
  split; [exact Hrec|]. split; [exact Hst|]. split; [exact Hrun|]. rewrite Hem, Hti. reflexivity.
Qed.

Lemma traced_reply_emitted_witness :
  let c := sim_reply 40 0x7000010000 1000 1301 in
  let s := sim_state 10123 5000 in
  exists col' trace,
    run_records (imap (λ _ raw, ((λ _ : nat, 1000), raw)) (records (kprobe_binder_transaction c s)))
      (NewEventCollector None) = Some col' /\
    emitted col' = [MkEvent 1000 1200 1000 7 0 40 1 0 0 0 0 0 77
                      (mem_bytes (λ a, wrap 8 (a * 7)) 0x7000010000 40) (Some trace)].
Proof.
  intros c s.
  destruct (traced_reply_emitted c s (λ a, wrap 8 (a * 7)) 10123 (λ _ _, 1000) 1000
    (NewEventCollector None)) as (news & col' & st & i & Hrec & _ & Hrun & Hem);
    [apply sim_ctx_ok|reflexivity|discriminate|discriminate|vm_compute; reflexivity
    |vm_compute; intuition congruence|vm_compute; congruence|apply sim_reads_user|vm_compute; congruence
    |apply sim_room; vm_compute; congruence
    |intros j k; unfold staleBufferTTL, Second; lia|split; (reflexivity || vm_compute; lia)|].
  exists col', (symbolizeStackEvent (view_stack st) (symbolizer (NewEventCollector None))).1. split.
  - change (records s) with (@nil bytes) in Hrec. cbn [app] in Hrec. rewrite Hrec. exact Hrun.
  - exact Hem.
Defined.

(** A declared size whose chunk count, cut to 32 bits, is small, while the
    table of all its chunks is beyond what Go allocates *)
Lemma declared_chunks ds :
  fits 64 ds -> 2731 <= ds / 2 ^ 42 -> 0 < ds mod 2 ^ 42 <= MAX_CHUNKS * CHUNK_SIZE ->
  0 < total_chunks_of ds <= MAX_CHUNKS /\ make_chunks (totalChunks ds) = None.
Proof.
  unfold fits, MAX_CHUNKS, CHUNK_SIZE. intros Hd Hq Hr.
  pose proof (Z.div_mod ds (2 ^ 42) ltac:(done)) as Hdm. change (2 ^ 42) with 4398046511104 in *.
  assert (ds / 4398046511104 < 2 ^ 22) as Hlt by (apply Z.div_lt_upper_bound; lia).
  set (q := ds / 4398046511104) in *. set (r := ds mod 4398046511104) in *. change (2 ^ 22) with 4194304 in Hlt.
  assert (u64 (u64 (ds + 1024) - 1) = ds + 1023) as E.
  { unfold u64. rewrite (wrap_small 64 (ds + 1024)) by (unfold fits; lia). rewrite wrap_small; [lia|unfold fits; lia]. }
  assert ((ds + 1023) / 1024 = q * 2 ^ 32 + (r + 1023) / 1024) as Ed.
  { replace (ds + 1023) with (r + 1023 + q * 2 ^ 32 * 1024) by lia. rewrite Z.div_add by done. lia. }
  assert (1 <= (r + 1023) / 1024 <= 16) as Hc by (Z.to_euclidean_division_equations; lia).
  unfold total_chunks_of, make_chunks, totalChunks, CHUNK_SIZE, ChunkSize. rewrite E, Ed. split.
  - unfold u32, wrap. rewrite Z.add_comm, Z_mod_plus_full, Z.mod_small; lia.
  - destruct (Z.leb_spec ((q * 2 ^ 32 + (r + 1023) / 1024) * 24) (2 ^ 48)); [lia|done].
Qed.

(** C40: A traced task can stop the daemon. Every transaction that passes the
    filter and declares a size of at least 2731 * 2^42 bytes whose remainder
    modulo 2^42 is between 1 and 16384 passes the guard of the probe, which cuts
    the chunk count to 32 bits; with room in the ring, the collector, whatever
    it holds of other transactions, computes the count at 64 bits and panics
    while it reads the records. *)
Theorem declared_size_crashes_collector `{KL : BpfKernelLaws} `{T : CoreTarget} `{SI : SymbolizerI}
    {BG : Bpf2Go} {BL : Bpf2GoLaws} c s conf_uid time col :
  ctx_ok c -> config_uid s = Some conf_uid -> kprobe_tr c <> 0 ->
  filtered_out conf_uid (effective_uid c) = false ->
  let ds := ti_data_size (tx_info_of c (next_txid s)) in
  2731 <= ds / 2 ^ 42 -> 0 < ds mod 2 ^ 42 <= MAX_CHUNKS * CHUNK_SIZE ->
  room 17 (trace_event_map s) -> transactionBuffers col !! next_txid s = None ->
  exists news, records (kprobe_binder_transaction c s) = records s ++ news /\
    run_records (imap (λ i raw, (time i, raw)) news) col = None.
Proof.
  intros Hc Hcf Htr Hf ds Hq Hr Hroom Hcol. set (ti := tx_info_of c (next_txid s)) in *.
  assert (fits 64 ds) as Hds by apply (tx_info_of_ok c Hc _ (next_txid_fits s)).
  destruct (declared_chunks ds Hds Hq Hr) as [Hn Hmake].
  destruct (kprobe_submits c s conf_uid Hc Hcf Htr Hf (proj2 Hn)) as (sts & chunks & Hrec & _ & Hst & _ & Hch & Hfull).
  destruct (Hfull Hroom) as [Hl1 Hl2]. fold ti ds in Hl2. destruct sts as [|st [|]]; try discriminate Hl1.
  apply Forall_inv in Hst as (Hl & Hm & _). destruct chunks as [|raw chunks]; [cbn [length] in Hl2; lia|].
  destruct (Hch 0%nat raw eq_refl) as (Hlr & dst & _ & Hv). exists (st :: raw :: chunks). split; [exact Hrec|].
  rewrite !imap_cons. unfold compose at 1. cbn [run_records]. rewrite dispatch_stack by done. cbn [mbind option_bind].
  assert (ev_kind (view_main raw) = EVT_KIND_MAIN) as Hk by (by rewrite Hv).
  rewrite dispatch_main by done. rewrite Hv. unfold handleEvent, open_buffer.
  match goal with |- context [transactionBuffers ?a !! ?b] =>
    replace (transactionBuffers a !! b) with (@None txBuffer) by (symmetry; exact Hcol) end.
  by match goal with |- context [make_chunks ?n] =>
    replace (make_chunks n) with (@None (list (option bytes))) by (symmetry; exact Hmake) end.
Qed.

(** A request that declares 2^55 + 1 bytes *)
Lemma declared_size_crashes_collector_witness :
  run_records
    (imap (λ _ raw, ((λ _ : nat, 0), raw))
       (records (kprobe_binder_transaction (sim_call 0 (2 ^ 55 + 1) 0xb400007000010000 10123 1201)
                  (sim_state 10123 5000))))
    (NewEventCollector None) = None.
Proof.
  set (c := sim_call 0 (2 ^ 55 + 1) 0xb400007000010000 10123 1201). set (s := sim_state 10123 5000).
  destruct (declared_size_crashes_collector c s 10123 (λ _ _, 0) (NewEventCollector None)) as (news & Hrec & Hrun);
    [apply sim_ctx_ok|reflexivity|discriminate|vm_compute; reflexivity|vm_compute; congruence
    |vm_compute; intuition congruence|apply sim_room; vm_compute; congruence|reflexivity|].
  change (records s) with (@nil bytes) in Hrec. cbn [app] in Hrec. rewrite Hrec. exact Hrun.
Defined.
