(* ===== verification/Pipeline.v ===== *)
(** * The whole path: from the probes to the app

    The collector hands every event it emits to the socket client
    (SetEventCallback in Run, daemon.go), whose goroutines and connections run
    beside it.  A [node] is the two together; a handler with its calls of
    onEvent is one step, and so is each step of the client.  Over every
    interleaving the app decodes some of the emitted events, in order and
    unchanged; and a traced request on a connection that holds reaches it. *)

From S2P Require Import Prelude CLayout Records GoLang GoStd Lru Protocol ProtocolProofs Collector Reassembly.
From S2P Require Import BpfRuntime Vmlinux SimKernel BpfCoreRead BpfPrograms BpfRecords BpfProofs BpfMain BpfChain EndToEnd.
From S2P Require Import Client ClientProofs ClientSpec AppWire AppProofs AppSpec.
From S2P Require Import CollectorTypes Symbolizer SymbolCache SymbolLookup Symbolize SymbolNames.

(** ** Nodes *)

Section Node.
Context `{SI : SymbolizerI} {BG : Bpf2Go} {D : Type} (h : Handlers D).

Record node := Node { n_col : collector; n_sys : sys D }.

(** The event callback: SendEvent for each event emitted since *)
Definition eventCallback (c c' : collector) : list action :=
  ASend <$> drop (length (emitted c)) (emitted c').

Inductive node_action :=
| NRecord (now : nat -> Z) (raw : bytes)
| NSweep (now : nat -> Z) (reader : Z -> option (list Z))
| NClient (a : action).

Definition push (c : collector) (n : node) : option node :=
  s ← run_actions h (eventCallback (n_col n) c) (n_sys n); Some (Node c s).

(** A step of the daemon; only the collector calls SendEvent. *)
Definition node_step (a : node_action) (n : node) : option node :=
  match exited (n_sys n) with
  | Some _ => None
  | None =>
      match a with
      | NRecord now raw => c ← handleRecord now raw (n_col n); push c n
      | NSweep now reader => push (sweep_tick now reader (n_col n)) n
      | NClient (ASend _) => None
      | NClient a => s ← step_of h a (n_sys n); Some (Node (n_col n) s)
      end
  end.

Fixpoint run_node (l : list node_action) (n : node) : option node :=
  match l with
  | [] => Some n
  | a :: l => n ← node_step a n; run_node l n
  end.

Definition node_init (y : option sym_state) (token : bytes) (d : D) : node :=
  Node (NewEventCollector y) (sys_init token d).
End Node.
Arguments Node {SI D} _ _.
Arguments n_col {SI D} _.
Arguments n_sys {SI D} _.

(** ** What is emitted stays emitted *)

Section Grows.
Context `{SI : SymbolizerI}.

Definition grows (c c' : collector) : Prop := exists evs, emitted c' = emitted c ++ evs.

Lemma grows_refl c : grows c c.
Proof. exists []. by rewrite app_nil_r. Qed.

Lemma grows_same c c' : emitted c' = emitted c -> grows c c'.
Proof. intros E. exists []. by rewrite app_nil_r. Qed.

Lemma cleanup_emitted now c : emitted (maybeCleanup now c) = emitted c.
Proof. unfold maybeCleanup. by case_match. Qed.

Lemma attach_emitted txid ev c : emitted (attach_stack txid ev c).2 = emitted c.
Proof.
  unfold attach_stack, takePendingStack. destruct (pendingStack c !! txid); [|done].
  by destruct (symbolizeStackEvent _ _).
Qed.

Lemma handleEvent_grows now e c c' : handleEvent now e c = Some c' -> grows c c'.
Proof.
  intros E. unfold handleEvent in E. destruct (open_buffer (now 0%nat) e c) as [[buf c1]|] eqn:Eo; [|done].
  assert (emitted c1 = emitted c) as E1.
  { unfold open_buffer in Eo. destruct (transactionBuffers c !! _); [by simplify_eq|].
    destruct (make_chunks _); [|done]. cbn [mbind option_bind] in Eo. repeat case_match; by simplify_eq. }
  cbn [mbind option_bind] in E. destruct (store_chunk e (chunks buf)) as [cs|]; [|done]. cbn [mbind option_bind] in E.
  destruct (is_complete cs).
  2: { injection E as <-. apply grows_same. by rewrite cleanup_emitted. }
  unfold finish_transaction in E. cbv zeta in E. cbn [chunks meta] in E.
  destruct (_ || _); [injection E as <-; apply grows_same; by rewrite cleanup_emitted|].
  destruct (_ || _); [injection E as <-; apply grows_same; by rewrite cleanup_emitted|].
  destruct (subslice _ _ _) as [parcel|]; [|done]. cbn [mbind option_bind] in E.
  match type of E with context [attach_stack ?t ?ev ?d] =>
    pose proof (attach_emitted t ev d) as Ha; destruct (attach_stack t ev d) as [ev2 c2] end.
  cbn in Ha. injection E as <-. eexists. rewrite cleanup_emitted. cbn. by rewrite Ha, E1.
Qed.

Lemma handleRecord_grows {BG : Bpf2Go} now raw c c' : handleRecord now raw c = Some c' -> grows c c'.
Proof.
  intros E. unfold handleRecord in E. destruct (_ <? _); [injection E as <-; apply grows_refl|].
  destruct (_ && _).
  - destruct (_ <? _); [injection E as <-; apply grows_refl|].
    destruct (read_stack raw); injection E as <-; by apply grows_same.
  - destruct (index raw 0); [|done]. cbn [mbind option_bind] in E.
    destruct (_ =? _).
    { destruct (read_main raw); [by eapply handleEvent_grows|injection E as <-; apply grows_refl]. }
    destruct (_ =? _).
    { destruct (read_sideband raw); injection E as <-; [by eexists|apply grows_refl]. }
    destruct (_ =? _); [|injection E as <-; apply grows_refl].
    destruct (read_cookie raw) as [cs|]; injection E as <-; [|apply grows_refl].
    unfold handleCookieSideband. destruct (_ || _); [apply grows_refl|].
    set (inject := match transactionBuffers c !! _ with Some _ => _ | None => _ end).
    destruct inject; [by apply grows_same|]. destruct (lru_lookup _ _); [by eexists|by apply grows_same].
Qed.

Lemma sweep_grows now reader c : grows c (sweep_tick now reader c).
Proof. eexists. cbn. by rewrite app_nil_r. Qed.
End Grows.

(** ** Accepted events *)

Section Accepted.
Context {D : Type} (h : Handlers D).
Implicit Types s : sys D.

Lemma lose_accepted c s : accepted (lose c s) = accepted s.
Proof. unfold lose. destruct (handleConnectionLoss c (client s)) as [[] cl]; done. Qed.

Lemma write_frame_accepted c t p s : accepted (write_frame c t p s).2 = accepted s.
Proof. unfold write_frame. destruct (wires s !! c) as [w|]; [|done]. by destruct (WriteFrame w t p) as [[] ?]. Qed.

Lemma read_command_accepted c f s s' : read_command h c f s = Some s' -> accepted s' = accepted s.
Proof.
  unfold read_command. case_bool_decide; [|done].
  destruct (handleCommand h f (client s) (daemon s)) as [[[r cl] d]|]; [|done]. cbn [mbind option_bind].
  match goal with |- context [write_frame c ?t ?p ?x] =>
    pose proof (write_frame_accepted c t p x) as E; destruct (write_frame c t p x) as [ok s2] end.
  cbn in E. intros [= <-]. by destruct (reply_shutdown r).
Qed.

Lemma broadcast_accepted s s' : take_event s = Some s' \/ write_event s = Some s' -> accepted s' = accepted s.
Proof.
  intros [E|E].
  - unfold take_event in E. destruct (caster s); try done. destruct (eventChan (client s)); [done|].
    destruct (paused _); [by injection E as <-|]. destruct (conn _); by injection E as <-.
  - unfold write_event in E. destruct (caster s) as [| |c ev|]; try done.
    match type of E with context [write_frame c ?t ?p ?x] =>
      pose proof (write_frame_accepted c t p x) as E1; destruct (write_frame c t p x) as [ok s2] end.
    cbn in E1. destruct ok; injection E as <-; [done|]. by rewrite lose_accepted.
Qed.

Lemma reconnect_accepted j ok s s' :
  check_running j s = Some s' \/ dial_result j ok s = Some s' \/ final_failure j s = Some s' ->
  accepted s' = accepted s.
Proof.
  unfold check_running, dial_result, final_failure. destruct (loops s !! j) as [[i|i|]|]; [..|by intros [?|[?|?]]].
  all: intros [E|[E|E]]; try done.
  - injection E as <-. by destruct (running (client s)).
  - destruct ok; [|by injection E as <-]. destruct (running _); by injection E as <-.
  - destruct (running (client s)); by injection E as <-.
Qed.

Lemma step_accepted a s s' : (forall ev, a <> ASend ev) -> step_of h a s = Some s' -> accepted s' = accepted s.
Proof.
  intros Ha E. unfold step_of in E. destruct (exited s); [done|].
  destruct a as [| |ev|c f|c|c| | | |j|j ok|j|c n].
  - destruct (eventLoopStarted (client s)); by simplify_eq.
  - by simplify_eq.
  - by destruct (Ha ev).
  - by eapply read_command_accepted.
  - destruct (bool_decide _); [|done]. injection E as <-. by rewrite lose_accepted.
  - destruct (_ && _); by simplify_eq.
  - apply broadcast_accepted; by left.
  - apply broadcast_accepted; by right.
  - destruct (caster s); try done. destruct (stopCh _); by simplify_eq.
  - apply (reconnect_accepted j true); by left.
  - apply (reconnect_accepted j ok); right; by left.
  - apply (reconnect_accepted j true); right; by right.
  - destruct (wires s !! c) as [[b [|]]|]; by simplify_eq.
Qed.

(** SendEvent takes an event or drops it. *)
Lemma sends_accepted evs s s' :
  run_actions h (ASend <$> evs) s = Some s' ->
  exists took, accepted s' = accepted s ++ took /\ sublist took evs.
Proof.
  revert s. induction evs as [|ev evs IH]; intros s E.
  { injection E as <-. exists []. by rewrite app_nil_r. }
  rewrite fmap_cons in E. cbn [run_actions] in E. unfold step_of in E. destruct (exited s); [done|].
  cbn [mbind option_bind] in E.
  apply IH in E as (took & E & Hs). cbn [accepted] in E.
  eexists. split; [rewrite E, <- app_assoc; reflexivity|].
  destruct (_ <? _)%nat; [by apply sublist_skip|by apply sublist_cons].
Qed.
End Accepted.

(** ** The invariant of a node *)

Definition action_fits (a : node_action) : Prop :=
  match a with
  | NRecord now raw => clock_ok now /\ is_bytes raw
  | NSweep now _ => clock_ok now
  | NClient _ => True
  end.

Section NodeInvariant.
Context `{SL : SymbolizerLaws} {BG : Bpf2Go} {BL : Bpf2GoLaws} {D : Type} (h : Handlers D) (token : bytes) (d : D).

Record node_inv (n : node (D := D)) : Prop := {
  ni_reach : rtc (client_step h) (sys_init token d) (n_sys n);
  ni_col : col_fits (n_col n);
  ni_accepted : sublist (accepted (n_sys n)) (emitted (n_col n)) }.

Lemma push_inv c n n' :
  node_inv n -> col_fits c -> grows (n_col n) c -> push h c n = Some n' -> node_inv n'.
Proof.
  intros [Hr Hc Ha] Hc' [evs Hg] E. unfold push, eventCallback in E. rewrite Hg, drop_app_length in E.
  destruct (run_actions h (ASend <$> evs) (n_sys n)) as [s|] eqn:Es; [|done]. injection E as <-.
  destruct (sends_accepted h _ _ _ Es) as (took & Et & Hs). split; cbn; [|done|].
  - etransitivity; [exact Hr|]. by eapply run_reachable.
  - rewrite Et, Hg. by apply sublist_app.
Qed.

Lemma step_node_inv a n n' : action_fits a -> node_inv n -> node_step h a n = Some n' -> node_inv n'.
Proof.
  intros Hf I E. unfold node_step in E. destruct (exited (n_sys n)); [done|].
  destruct a as [now raw|now reader|a]; cbn in Hf.
  - destruct Hf as [Hn Hb]. destruct (handleRecord now raw (n_col n)) as [c|] eqn:Eh; [|done].
    eapply push_inv; [exact I| |by eapply handleRecord_grows|exact E].
    eapply handleRecord_fits; eauto. apply I.
  - eapply push_inv; [exact I|apply sweep_fits, I|apply sweep_grows|exact E].
  - assert (exists s, step_of h a (n_sys n) = Some s /\ n' = Node (n_col n) s /\ forall ev, a <> ASend ev)
      as (s & Es & -> & Hs).
    { destruct a; try done; match type of E with context [step_of h ?x ?y] => destruct (step_of h x y) eqn:? end;
        simplify_eq/=; eauto. }
    destruct I as [Hr Hc Ha]. split; cbn; [|done|].
    + eapply rtc_r; [exact Hr|]. by econstructor.
    + by rewrite (step_accepted h a _ _ Hs Es).
Qed.

Lemma run_node_inv l n n' :
  Forall action_fits l -> node_inv n -> run_node h l n = Some n' -> node_inv n'.
Proof.
  intros Hl. revert n. induction Hl as [|a l Ha _ IH]; intros n I E; cbn [run_node] in E; [by injection E as <-|].
  destruct (node_step h a n) as [n1|] eqn:Es; [|done]. eapply IH; [|exact E]. by eapply step_node_inv.
Qed.

Lemma node_init_inv y : sym_opt y -> node_inv (node_init y token d).
Proof. intros Hy. split; [apply rtc_refl|by apply NewEventCollector_fits|done]. Qed.
End NodeInvariant.

(** ** Runs of a node *)

Section Runs.
Context `{SI : SymbolizerI} {BG : Bpf2Go} {D : Type} (h : Handlers D).

Lemma run_node_app l1 l2 (n : node (D := D)) :
  run_node h (l1 ++ l2) n = n1 ← run_node h l1 n; run_node h l2 n1.
Proof.
  revert n. induction l1 as [|a l1 IH]; intros n; [done|]. cbn [app run_node].
  destruct (node_step h a n); [apply IH|done].
Qed.

Lemma run_records_grows l c c' : run_records l c = Some c' -> grows c c'.
Proof.
  revert c. induction l as [|[now raw] l IH]; intros c E; cbn [run_records] in E.
  { injection E as <-. apply grows_refl. }
  destruct (handleRecord now raw c) as [c1|] eqn:Eh; [|done]. apply handleRecord_grows in Eh as [e1 E1].
  apply IH in E as [e2 E2]. exists (e1 ++ e2). by rewrite E2, E1, app_assoc.
Qed.

Lemma sends_alive evs (s s' : sys D) :
  exited s = None -> run_actions h (ASend <$> evs) s = Some s' -> exited s' = None.
Proof.
  revert s. induction evs as [|ev evs IH]; intros s Hx E; [by injection E as <-|].
  rewrite fmap_cons in E. cbn [run_actions] in E. unfold step_of in E. rewrite Hx in E. cbn [mbind option_bind] in E.
  by eapply IH; [|exact E].
Qed.

(** Reading records sends what they make the collector emit. *)
Lemma run_node_records l col col' evs (s s' : sys D) :
  exited s = None -> run_records l col = Some col' -> emitted col' = emitted col ++ evs ->
  run_actions h (ASend <$> evs) s = Some s' ->
  run_node h ((λ p, NRecord p.1 p.2) <$> l) (Node col s) = Some (Node col' s').
Proof.
  revert col evs s. induction l as [|[now raw] l IH]; intros col evs s Hx E Hev Hs; cbn [run_records] in E.
  { injection E as <-. rewrite <- (app_nil_r (emitted col)) in Hev at 1. apply app_inv_head in Hev as <-.
    by injection Hs as <-. }
  destruct (handleRecord now raw col) as [c1|] eqn:Eh; [|done]. cbn [mbind option_bind] in E.
  pose proof (handleRecord_grows _ _ _ _ Eh) as [e1 E1]. pose proof (run_records_grows _ _ _ E) as [e2 E2].
  assert (evs = e1 ++ e2) as ->.
  { rewrite E2, E1, <- app_assoc in Hev. by apply app_inv_head in Hev. }
  rewrite fmap_app, run_actions_app in Hs. destruct (run_actions h (ASend <$> e1) s) as [s1|] eqn:Es1; [|done].
  cbn [mbind option_bind] in Hs. rewrite fmap_cons. cbn [run_node]. unfold node_step. cbn [n_sys fst snd n_col].
  rewrite Hx, Eh. cbn [mbind option_bind]. unfold push, eventCallback. cbn [n_col n_sys].
  rewrite E1, drop_app_length, Es1. cbn [mbind option_bind].
  apply (IH c1 e2 s1); [by eapply sends_alive|done|done|done].
Qed.

Lemma run_node_client l col (s s' : sys D) :
  Forall (λ a, forall ev, a <> ASend ev) l -> run_actions h l s = Some s' ->
  run_node h (NClient <$> l) (Node col s) = Some (Node col s').
Proof.
  intros Hl. revert s. induction Hl as [|a l Ha _ IH]; intros s E; [by injection E as <-|].
  cbn [run_actions] in E. destruct (step_of h a s) as [s1|] eqn:Es; [|done]. cbn [mbind option_bind] in E.
  rewrite fmap_cons. cbn [run_node]. unfold node_step. cbn [n_sys].
  assert (exited s = None) as Hx by (unfold step_of in Es; by destruct (exited s)). rewrite Hx.
  assert (forall b, b = a -> match b with ASend _ => None | _ => s' ← step_of h b s; Some (Node col s') end = Some (Node col s1)) as Hb.
  { intros b ->. destruct a as [| |ev| | | | | | | | | |]; try (by rewrite Es). by destruct (Ha ev). }
  cbn [n_col]. rewrite (Hb a eq_refl). cbn [mbind option_bind]. by apply IH.
Qed.

Lemma run_records_fits `{SL : !SymbolizerLaws} {BL : Bpf2GoLaws} l c c' :
  Forall (λ p, clock_ok p.1 /\ is_bytes p.2) l -> col_fits c -> run_records l c = Some c' -> col_fits c'.
Proof.
  intros Hl. revert c. induction Hl as [|[now raw] l [Hn Hb] _ IH]; intros c Hc E; cbn [run_records] in E.
  { by injection E as <-. }
  destruct (handleRecord now raw c) as [c1|] eqn:Eh; [|done]. eapply IH; [|exact E]. by eapply handleRecord_fits.
Qed.
End Runs.

(** [k] turns of the broadcaster *)
Definition turns (k : nat) : list action := concat (replicate k [ATake; AWrite]).

Lemma turns_not_send k : Forall (λ a, forall ev, a <> ASend ev) (turns k).
Proof. unfold turns. induction k as [|k IH]; cbn; [constructor|]. by repeat (constructor; [done|]). Qed.

(** The frames of a list of events, as the app collects them *)
Lemma event_frames_collected {text} (utf8 : bytes -> text) evs id g :
  Forall sendable evs ->
  let w := concat ((λ ev, frame_bytes (MkFrame MsgTypeBinderEvent (Encode ev))) <$> evs) in
  exists frames, eventFlow (S (length w)) w = (frames, []) /\
    collectEvents utf8 frames (AppState id g) =
      Some ((app_events utf8 id evs).1, AppState (app_events utf8 id evs).2 g).
Proof.
  intros Hs w. set (fr := (λ e, MkFrame MsgTypeBinderEvent (Encode e)) <$> evs).
  assert (w = concat (frame_bytes <$> fr)) as Ew by (unfold w, fr; by rewrite <- list_fmap_compose).
  assert (Forall from_daemon fr) as Hf.
  { apply list.Forall_fmap. eapply list.Forall_impl; [exact Hs|]. intros e He. split; [by left|apply He]. }
  exists (app_frame_of <$> fr). split.
  - rewrite Ew. rewrite <- (app_nil_r (concat _)) at 2. apply eventFlow_frames; [done|apply cut_nil|].
    pose proof (frames_shorter fr). lia.
  - apply collectEvents_frames; [done| |done]. unfold event_payloads, fr. clear. induction evs as [|e evs IH]; [done|].
    rewrite !fmap_cons, filter_cons, decide_True, fmap_cons by done. by f_equal.
Qed.

(** What the app makes of a connection, at any time of the daemon's run *)
Lemma written_collected `{SL : SymbolizerLaws} {BG : Bpf2Go} {BL : Bpf2GoLaws} {D} (h : Handlers D)
    {text} (utf8 : bytes -> text) y token d l n id g :
  sym_opt y -> Forall action_fits l -> run_node h l (node_init y token d) = Some n ->
  sublist (snd <$> delivered (n_sys n)) (emitted (n_col n)) /\
  forall c w, wires (n_sys n) !! c = Some w ->
    exists frames rest,
      eventFlow (S (length (sent w))) (sent w) = (frames, rest) /\ readFrame rest = None /\
      collectEvents utf8 frames (AppState id g) =
        Some ((app_events utf8 id (events_on c (delivered (n_sys n)))).1,
              AppState (app_events utf8 id (events_on c (delivered (n_sys n)))).2 g).
Proof.
  intros Hy Hl E. pose proof (run_node_inv h token d l _ n Hl (node_init_inv h token d y Hy) E) as [Hr Hc Ha].
  assert (Forall sendable (accepted (n_sys n))) as Hs.
  { apply list.Forall_forall. intros e He. apply event_fits_sendable.
    apply (proj1 (list.Forall_forall _ _) (cf_emitted _ Hc)). by eapply sublist_subseteq. }
  destruct (reachable_inv h token d _ Hr) as [_ I]. split.
  - etransitivity; [|exact Ha]. by apply (delivered_accepted sendable _ 0).
  - intros c w Hw. by eapply app_collects_events.
Qed.

(** ** Properties *)

(** C6: Over any interleaving of records of arbitrary bytes, sweeps, commands
    from the app, and breaks and renewals of the connection, the events the
    daemon writes are, over all connections together, some of those the
    collector emitted, in order and none twice; and from each connection,
    wherever it broke, the app decodes exactly the events written to it, with
    the collector's field values, parcel and stack, without moving a guard
    counter or throwing. *)
Theorem app_sees_emitted `{SL : SymbolizerLaws} {BG : Bpf2Go} {BL : Bpf2GoLaws} {D} (h : Handlers D)
    {text} (utf8 : bytes -> text) y token d l n id g :
  sym_opt y -> Forall action_fits l -> run_node h l (node_init y token d) = Some n ->
  let log := delivered (n_sys n) in
  sublist (snd <$> log) (emitted (n_col n)) /\
  forall c w, wires (n_sys n) !! c = Some w ->
    exists frames rest,
      eventFlow (S (length (sent w))) (sent w) = (frames, rest) /\ readFrame rest = None /\
      collectEvents utf8 frames (AppState id g) =
        Some ((app_events utf8 id (events_on c log)).1, AppState (app_events utf8 id (events_on c log)).2 g).
Proof. intros Hy Hl E log. by eapply written_collected. Qed.

(** C1: A traced request reaches the app. A SYNC request of a task whose group
    id passes the filter, with a parcel of 1 to 16384 readable bytes, runs the
    three programs in order, with a transaction id and a cookie other than zero
    and with room in the ring; the collector, which holds nothing of this
    transaction, reads the new records within its buffer window; the client is
    connected and not paused, and its event channel is not full. Once the
    broadcaster has taken its turns, what the app decodes from the bytes added
    to the connection is the events that were waiting, then one event: the
    sender's process id, the sender's group id in the field that is named uid,
    the transaction's code, flags and target, the parcel as it stands in the
    sender's memory, its stack, and the receiver and debug id the tracepoint
    saw. *)
Theorem traced_request_reaches_app `{KL : BpfKernelLaws} `{T : CoreTarget} `{SL : SymbolizerLaws}
    {BG : Bpf2Go} {BL : Bpf2GoLaws} {D} (h : Handlers D) {text} (utf8 : bytes -> text)
    c ct s m conf_uid time t0 col sy cn w id g :
  ctx_ok c -> ctx_ok ct -> config_uid s = Some conf_uid -> kprobe_tr c <> 0 ->
  kprobe_reply c = 0 -> filtered_out conf_uid (cur_gid c) = false ->
  tp_reply ct = 0 -> tp_transaction ct <> 0 -> current_tid ct = current_tid c ->
  let ti := tx_info_of c (next_txid s) in
  let ds := ti_data_size ti in
  let addr := wrap 56 (data_buffer c) in
  let s1 := kprobe_binder_transaction c s in
  let s3 := raw_tp_binder_transaction ct (kprobe_binder_transaction_cookie c s1) in
  let v := sideband_of ct (next_cookie c s1) in
  let queue := eventChan (client sy) in
  0 < ds <= MAX_CHUNKS * CHUNK_SIZE -> addr + ds <= 2 ^ 56 -> reads_user c m addr ds ->
  Z.land (ti_flags ti) txFlagOneWay = 0 ->
  next_txid s <> 0 -> next_cookie c s1 <> 0 -> room 19 (trace_event_map s) ->
  Forall is_bytes (records s3) -> (forall i, in_window t0 (time i) /\ clock_ok (time i)) ->
  idle_for (next_txid s) (next_cookie c s1) col -> col_fits col ->
  ready cn w sy -> (length queue < eventChanCap)%nat -> Forall sendable queue ->
  exists news n w' frames st i,
    records s3 = records s ++ news /\ is_stack c (next_txid s) st /\
    run_node h (imap (λ i raw, NRecord (time i) raw) news ++
                (NClient <$> turns (S (length queue)))) (Node col sy) = Some n /\
    ready cn (w ++ w') (n_sys n) /\ eventFlow (S (length w')) w' = (frames, []) /\
    let evs := queue ++
      [MkEvent (time i 0%nat) (current_pid c) (cur_gid c) (ti_code ti) (ti_flags ti) ds 0
         (ti_binder_dev ti) TARGET_KIND_UNKNOWN (sb_to_pid v)
         (if sb_to_uid_unsupported v =? 0 then sb_to_uid v else 0) (ti_target_ref ti)
         (sb_kernel_debug_id v) (mem_bytes m addr (Z.to_nat ds))
         (Some (symbolizeStackEvent (view_stack st) (symbolizer col)).1)] in
    collectEvents utf8 frames (AppState id g) =
      Some ((app_events utf8 id evs).1, AppState (app_events utf8 id evs).2 g).
Proof.
  intros Hc Hct Hcf Htr Hr Hf Htr' Htx Htid ti ds addr s1 s3 v queue Hds Hb Hm Hone Ht0 Hck Hroom Hbytes Hw Hidle
    Hcol Hrd Hq Hqs.
  destruct (request_emits c ct s m conf_uid time t0 col Hc Hct Hcf Htr Hr Hf Htr' Htx Htid Hds Hb Hm Hone Ht0 Hck
    Hroom (λ i, proj1 (Hw i)) Hidle) as (news & col' & st & i & Hrec & Hst & Hrun & Hem).
  fold ti ds addr s1 s3 v in Hrec, Hem. set (e := MkEvent _ _ _ _ _ _ _ _ _ _ _ _ _ _ _) in Hem.
  assert (col_fits col') as Hcol'.
  { eapply run_records_fits; [|exact Hcol|exact Hrun].
    apply list.Forall_forall. intros p Hp. apply list_elem_of_lookup in Hp as [j Hj].
    rewrite list_lookup_imap in Hj. destruct (news !! j) as [raw|] eqn:Ej; [|done]. injection Hj as <-. cbn.
    split; [apply Hw|]. rewrite Hrec in Hbytes. apply list.Forall_app in Hbytes as [_ Hn].
    by eapply list.Forall_lookup_1 in Hn. }
  assert (Forall sendable (queue ++ [e])) as Hs.
  { apply list.Forall_app. split; [exact Hqs|]. apply list.Forall_singleton, event_fits_sendable.
    pose proof (cf_emitted _ Hcol') as He. rewrite Hem in He. apply list.Forall_app in He as [_ He].
    by apply list.Forall_cons in He as [He _]. }
  destruct (send_ready h cn w sy e Hrd Hq) as (sy1 & Es & R1 & Q1). fold queue in Q1.
  destruct (drain h cn (queue ++ [e]) w sy1 R1 Q1) as (sy2 & Ed & R2 & _).
  { eapply list.Forall_impl; [exact Hs|]. by intros x []. }
  destruct (event_frames_collected utf8 (queue ++ [e]) id g Hs) as (frames & Ef & Ec).
  exists news, (Node col' sy2). eexists _, frames, st, i. split; [exact Hrec|]. split; [exact Hst|].
  split; [|split; [exact R2|split; [exact Ef|exact Ec]]].
  rewrite run_node_app.
  pose proof (run_node_records h _ col col' [e] sy sy1 (rd_exit _ _ _ Hrd) Hrun Hem Es) as En.
  rewrite fmap_imap in En. unfold compose in En. cbn [fst snd] in En. rewrite En. cbn [mbind option_bind].
  apply run_node_client.
  - apply turns_not_send.
  - rewrite <- Ed. unfold turns. do 3 f_equal. rewrite length_app. cbn. lia.
Qed.

(** ** Witnesses

    A device on which process 1200 maps one library; nothing on it changes. *)

Definition device_files : list (bytes * bytes) :=
  [(stat_path 1200, sample_stat "900"); (maps_path 1200, sample_maps)].
Definition device_elfs : list (bytes * elf_File) := [(str "/system/lib64/libbinder.so", sample_elf)].

Definition device : OS := {|
  os_state := unit;
  os_now o := (1000, o);
  os_ReadFile p o := (assoc p device_files, o);
  os_OpenElf p o := (assoc p device_elfs, o) |}.

Lemma assoc_elem {B} k (l : list (bytes * B)) b : assoc k l = Some b -> exists i, snd <$> l !! i = Some b.
Proof.
  induction l as [|[k' b'] l IH]; cbn; [done|]. case_decide.
  - intros [= ->]. by exists O.
  - intros [i E]%IH. by exists (S i).
Qed.

Lemma device_laws : @OSLaws device.
Proof.
  split.
  - intros path o data lines E. apply assoc_elem in E as [[|[|i]] E]; [..|done]; injection E as <-;
      intros [= <-]; apply (bool_decide_unpack (Forall (λ l, Forall (fits 8) l /\ len l <= 8000) _)); by vm_compute.
  - intros path o f E. apply assoc_elem in E as [[|i] E]; [|done]. injection E as <-.
    apply (bool_decide_unpack (Forall (λ s, Forall (fits 8) (sym_Name s) /\ len (sym_Name s) <= 8000) _)).
    by vm_compute.
Qed.

#[local] Existing Instance device.
#[local] Existing Instance device_laws.
#[local] Existing Instance merge_sorting.
#[local] Existing Instance merge_sorting_laws.
#[local] Existing Instance layout_readers.
#[local] Existing Instance layout_readers_laws.

Definition device_symbolizer : option sym_state := Some (NewSymbolizer, tt).

Lemma device_symbolizer_ok : sym_opt device_symbolizer.
Proof. apply (NewSymbolizer_satisfies short_names). constructor. Qed.

(** The records of one request of uid 10123 and gid 2000 *)
Definition sample_records : list bytes :=
  records (raw_tp_binder_transaction (sim_tracepoint 0 10123 1201)
    (kprobe_binder_transaction_cookie (sim_call 0 1500 0xb400007000010000 2000 1201)
       (kprobe_binder_transaction (sim_call 0 1500 0xb400007000010000 2000 1201) (sim_state 2000 5000)))).

Lemma sample_records_bytes : Forall is_bytes sample_records.
Proof. apply (bool_decide_unpack (Forall (Forall (fits 8)) sample_records)). by vm_compute. Qed.

Lemma sample_clock : clock_ok (λ _, 1000).
Proof. intros i. lia. Qed.

Lemma app_sees_emitted_witness :
  let l := NClient AConnect :: ((NRecord (λ _, 1000)) <$> sample_records) ++ (NClient <$> turns 1) in
  exists n w frames rest evs,
    run_node demo_handlers l (node_init device_symbolizer (str "a1b2") tt) = Some n /\
    length (emitted (n_col n)) = 1%nat /\ wires (n_sys n) !! 0%nat = Some w /\
    eventFlow (S (length (sent w))) (sent w) = (frames, rest) /\
    collectEvents id frames (AppState 7 (MkGuards 0 0 0 0)) = Some (evs, AppState 8 (MkGuards 0 0 0 0)) /\
    length evs = 1%nat.
Proof.
  intros l. set (r := run_node demo_handlers l (node_init device_symbolizer (str "a1b2") tt)).
  assert (match r with
          | Some n => (length (emitted (n_col n)) =? 1)%nat &&
              (length (events_on 0 (delivered (n_sys n))) =? 1)%nat &&
              match wires (n_sys n) !! 0%nat with Some _ => true | None => false end
          | None => false
          end = true) as H by (vm_compute; reflexivity).
  destruct r as [n|] eqn:E; [|done]. exists n. apply andb_true_iff in H as [[H1%Nat.eqb_eq H2%Nat.eqb_eq]%andb_true_iff H3].
  destruct (wires (n_sys n) !! 0%nat) as [w|] eqn:Hw; [|done].
  destruct (app_sees_emitted demo_handlers id device_symbolizer (str "a1b2") tt l n 7 (MkGuards 0 0 0 0)
    device_symbolizer_ok) as [_ H].
  { apply Forall_cons; [done|]. apply list.Forall_app. split.
    - apply list.Forall_fmap. eapply list.Forall_impl; [apply sample_records_bytes|].
      intros raw Hr. split; [apply sample_clock|done].
    - by repeat constructor. }
  { exact E. }
  destruct (H 0%nat w Hw) as (frames & rest & F1 & _ & F2).
  destruct (events_on 0 (delivered (n_sys n))) as [|e [|]]; [discriminate H2| |discriminate H2].
  exists w, frames, rest. eexists. split; [reflexivity|]. split; [exact H1|]. split; [reflexivity|].
  split; [exact F1|]. split; [exact F2|reflexivity].
Defined.

(** The sender has uid 10123 and gid 2000. *)
Lemma traced_request_reaches_app_witness :
  exists n w' frames trace,
    run_node demo_handlers
      (imap (λ _ raw, NRecord (λ _, 1000) raw) sample_records ++ (NClient <$> turns 1))
      (Node (NewEventCollector device_symbolizer) (demo [AConnect])) = Some n /\
    ready 0 w' (n_sys n) /\ eventFlow (S (length w')) w' = (frames, []) /\
    collectEvents id frames (AppState 7 (MkGuards 0 0 0 0)) =
      Some ([app_event id 7 (MkEvent 1000 1200 2000 7 0 1500 0 0 0 1500 1000 0 77
               (mem_bytes (λ a, wrap 8 (a * 7)) 0x7000010000 1500) (Some trace))],
            AppState 8 (MkGuards 0 0 0 0)).
Proof.
  set (c := sim_call 0 1500 0xb400007000010000 2000 1201). set (ct := sim_tracepoint 0 10123 1201).
  set (s := sim_state 2000 5000). set (col := NewEventCollector device_symbolizer).
  assert (next_cookie c (kprobe_binder_transaction c s) = 1280259) as E by (vm_compute; reflexivity).
  assert (ready 0 [] (demo [AConnect])) as R by (split; by vm_compute).
  destruct (traced_request_reaches_app demo_handlers id c ct s (λ a, wrap 8 (a * 7)) 2000 (λ _ _, 1000) 1000 col
    (demo [AConnect]) 0 [] 7 (MkGuards 0 0 0 0)) as (news & n & w' & frames & st & i & Hrec & _ & Hrun & Hrd & Hf & Hc);
    [apply sim_ctx_ok|apply sim_ctx_ok|reflexivity|discriminate|reflexivity|reflexivity|reflexivity
    |discriminate|reflexivity|vm_compute; intuition congruence|vm_compute; congruence
    |apply sim_reads_user|reflexivity|vm_compute; congruence|vm_compute; congruence
    |apply sim_room; vm_compute; congruence|apply sample_records_bytes
    |intros j; split; [intros k; unfold staleBufferTTL, Second; lia|apply sample_clock]
    |rewrite E; split; (reflexivity || vm_compute; lia)
    |apply NewEventCollector_fits, device_symbolizer_ok|exact R|vm_compute; lia|constructor|].
  exists n, w', frames, (symbolizeStackEvent (view_stack st) (symbolizer col)).1.
  change (records s) with (@nil bytes) in Hrec. cbn [app] in Hrec.
  rewrite E in Hc.
  assert (sample_records = news) as -> by exact Hrec.
  split; [exact Hrun|]. split; [exact Hrd|]. split; [exact Hf|exact Hc].
Defined.
