(* ===== verification/AppTrace.v ===== *)
(** * From the daemon's events to the app's repository

    What the daemon writes to a connection is what the repository counts,
    keeps and finds again. *)

From S2P Require Import Prelude CLayout Records GoLang GoStd Lru Protocol ProtocolProofs Collector Reassembly.
From S2P Require Import BpfRuntime SimKernel BpfPrograms EndToEnd Client ClientProofs ClientSpec AppWire AppProofs AppSpec.
From S2P Require Import CollectorTypes Symbolizer SymbolCache SymbolLookup Symbolize SymbolNames Pipeline.
From S2P Require Import AppPairer AppParcel AppReply AppTokens AppReplySpec AppEvents AppStore AppStoreSpec AppRepository AppRepositorySpec.

(** ** No event is lost to an exception *)

(** The resolver and the reader of arguments do not throw. *)
Definition quiet (sv : services) : Prop :=
  (forall name code candidates, is_Some (getMethodSignature sv name code candidates)) /\
  (forall parcel types, is_Some (decodeArguments sv parcel types)).

Lemma name_event_total sv w toPackage candidates result :
  quiet sv -> is_Some (name_event sv w toPackage candidates result).
Proof.
  intros [Hs Hd]. unfold name_event. destruct (Hs (dr_interfaceName result) (ke_code w) candidates) as [sg ->].
  destruct (sniffArgumentTypes_total (ke_rawParcel w) 6) as (ts & -> & _).
  assert (is_Some (match sg with
    | None => Some (dr_interfaceName result, match ts with [] => code_text (ke_code w)
        | _ => code_text (ke_code w) ++ str " (" ++ Join (str ", ") ts ++ str ")" end, [], ts)
    | Some s => match sg_paramTypes s with [] => Some (dr_interfaceName result, sg_methodName s, [], [])
        | types => match decodeArguments sv (ke_rawParcel w) types with None => None
                   | Some args => Some (dr_interfaceName result, sg_methodName s, args, @nil bytes) end end end)) as Ha.
  { destruct sg as [s|]; [|done]. destruct (sg_paramTypes s) as [|t types]; [done|].
    by destruct (Hd (ke_rawParcel w) (t :: types)) as [args ->]. }
  destruct (dr_source result); try done; try exact Ha. by destruct (lookupByCode _ _ _) as [[]|].
Qed.

Lemma addEvent_total sv w r : quiet sv -> exists e, (addEvent sv w r).1 = Some e /\ ae_event e = w.
Proof.
  intros Hq. unfold addEvent. destruct (parseEvent _ _ _ _ _ _) as [[e|] p] eqn:Ep.
  - exists e. split; [done|]. by eapply parseEvent_event.
  - exfalso. revert Ep. unfold parseEvent.
    destruct (decodePipeline_total (getMethodSignature sv) (handleLookup sv) w (currentTargetUid r) (matchedAt sv) (pairer r))
      as (res & o & p' & -> & _). 
    match goal with |- context [name_event sv w ?tp ?cs res] => destruct (name_event_total sv w tp cs res Hq) as [[[[i m] a] s] ->] end.
    done.
Qed.

(** Steps of a session that is not cleared, with services that do not throw *)
Definition keeps (o : repo_op) : Prop :=
  match o with Add sv _ => quiet sv | ClearLocked _ => False | _ => True end.

Lemma run_keeps_events isBlank containsIgnoreCase l : forall r evs,
  Forall keeps l ->
  ae_event <$> (run_repository isBlank containsIgnoreCase l (r, evs)).2 = (ae_event <$> evs) ++ given l.
Proof.
  induction l as [|o l IH]; intros r evs Hl; [by rewrite app_nil_r|]. apply list.Forall_cons in Hl as [Ho Hl].
  cbn [run_repository foldl]. destruct (repo_step isBlank containsIgnoreCase (r, evs) o) as [r' evs'] eqn:E.
  unfold run_repository in IH. rewrite (IH r' evs' Hl).
  assert (ae_event <$> evs' = (ae_event <$> evs) ++ given [o]) as ->.
  { destruct o as [sv w| |now| |lookup uid|f| | |i|o]; cbn [repo_step keeps] in *; try done;
      try (injection E as _ <-; by rewrite app_nil_r).
    destruct (addEvent_total sv w r Ho) as (e & Ha & He). destruct (addEvent sv w r) as [oe r1]. cbn [fst] in Ha. subst oe.
    injection E as _ <-. cbn [option_list]. rewrite fmap_app. cbn. by rewrite He. }
  rewrite <- app_assoc. f_equal. by destruct o.
Qed.

(** ** Ids *)

Lemma app_events_ids (utf8 : bytes -> bytes) evs : forall id,
  0 <= id -> id + Z.of_nat (length evs) < 2 ^ 63 ->
  new_ids (app_events utf8 id evs).1 /\ Forall (λ w, id <= ke_id w) (app_events utf8 id evs).1 /\
  length (app_events utf8 id evs).1 = length evs.
Proof.
  induction evs as [|e evs IH]; intros id H0 Hn; [by repeat constructor|]. cbn [app_events length] in *.
  assert (s64 (id + 1) = id + 1) as -> by (apply (signed_small 64); [lia|change (64 - 1) with 63; lia]).
  destruct (IH (id + 1)) as ([Hs Hp] & Hf & Hl); [lia|lia|]. destruct (app_events utf8 (id + 1) evs) as [l id']. cbn [fst] in *.
  assert (ke_id (AppProofs.app_event utf8 id e) = id) as Hid by done. split_and!.
  - split; constructor; try done.
    eapply list.Forall_impl; [exact Hf|]. intros w. rewrite Hid. lia.
  - constructor; [by rewrite Hid|]. eapply list.Forall_impl; [exact Hf|]. cbn. lia.
  - by rewrite <- Hl.
Qed.

(** C3: What the daemon writes is what the app keeps: at any time of the
    daemon's run, over records of arbitrary bytes and connections that break
    anywhere, the events the app reads from a connection, added to the
    repository while the list is published, the filter and the target change and
    the store works, are each parsed, counted once, and, when the store has
    worked off its queue, stored in order with the daemon's values, and found
    by their ids; as long as the method resolver and the reader of arguments do
    not throw and the events are not cleared. *)
Theorem written_events_kept `{SL : SymbolizerLaws} {BG : Bpf2Go} {BL : Bpf2GoLaws} {D} (h : Handlers D)
    (utf8 : bytes -> bytes) y token d l n id g isBlank containsIgnoreCase now c w ops :
  sym_opt y -> Forall action_fits l -> run_node h l (node_init y token d) = Some n ->
  wires (n_sys n) !! c = Some w ->
  let written := events_on c (delivered (n_sys n)) in
  0 <= id -> id + Z.of_nat (length written) < 2 ^ 63 ->
  exists frames rest events st, eventFlow (S (length (sent w))) (sent w) = (frames, rest) /\
    collectEvents utf8 frames (AppState id g) = Some (events, st) /\ events = (app_events utf8 id written).1 /\
    (given ops = events -> Forall keeps ops ->
     let '(r, evs) := run_repository isBlank containsIgnoreCase ops (newRepository now, []) in
     ae_event <$> evs = events /\ eventCount r = s32 (Z.of_nat (length written)) /\
     (drained r ->
      (exists s, coldStore r = Some s /\ ae_event <$> st_db s = events) /\
      forall e, e ∈ evs -> exists e', getEvent (seq_of e) r = Some e' /\ as_stored e' = as_stored e)).
Proof.
  intros Hy Hl E Hw written H0 Hn.
  destruct (written_collected h utf8 y token d l n id g Hy Hl E) as [_ Hc].
  destruct (Hc c w Hw) as (frames & rest & Hf & _ & Hcol). fold written in Hcol.
  destruct (app_events_ids utf8 written id H0 Hn) as (Hids & _ & Hlen).
  exists frames, rest, (app_events utf8 id written).1. eexists. split; [exact Hf|]. split; [exact Hcol|]. split; [done|].
  intros Hg Hk. pose proof (run_repository_inv isBlank containsIgnoreCase ops [] [] _ (newRepository_inv now)) as Hinv.
  pose proof (run_keeps_events isBlank containsIgnoreCase ops (newRepository now) [] Hk) as Hev.
  destruct (run_repository isBlank containsIgnoreCase ops (newRepository now, [])) as [r evs]. cbn [snd fmap list_fmap app] in Hev.
  destruct Hinv as (all & Hinv & Hsub). cbn [app] in *. rewrite Hg in Hev, Hsub. pose proof (increasing_given _ _ Hids Hsub) as Hinc.
  split; [exact Hev|]. pose proof Hinv as [_ Ht Hcnt _ _ _ _ _]. split.
  - rewrite Hcnt, Ht, <- Hlen, <- Hev, length_fmap. done.
  - intros Hdr. split; [|intros e He; by eapply getEvent_finds].
    destruct (drained_db _ _ _ Hinv Hinc Hdr) as (s & Hs & Hdb). exists s. split; [done|].
    rewrite Hdb, <- Hev, <- list_fmap_compose. done.
Qed.

#[local] Existing Instance device.
#[local] Existing Instance device_laws.
#[local] Existing Instance merge_sorting.
#[local] Existing Instance merge_sorting_laws.
#[local] Existing Instance layout_readers.
#[local] Existing Instance layout_readers_laws.

(** The request of the sample records, from the probes to the repository *)
Lemma written_events_kept_witness :
  let l := NClient AConnect :: ((NRecord (λ _, 1000)) <$> sample_records) ++ (NClient <$> turns 1) in
  exists n r evs,
    run_node demo_handlers l (node_init device_symbolizer (str "a1b2") tt) = Some n /\
    let ops := ((λ w, Add (sample_services 1000) w) <$> (app_events id 7 (events_on 0 (delivered (n_sys n)))).1) ++ [MarkDirty; Tick] in
    run_repository (λ _, true) (λ _ _, true) ops (newRepository 0, []) = (r, evs) /\ eventCount r = 1 /\ length evs = 1%nat.
Proof.
  intros l. set (rn := run_node demo_handlers l (node_init device_symbolizer (str "a1b2") tt)).
  assert (match rn with
          | Some n => (length (events_on 0 (delivered (n_sys n))) =? 1)%nat &&
              match wires (n_sys n) !! 0%nat with Some _ => true | None => false end
          | None => false
          end = true) as H by (vm_compute; reflexivity).
  destruct rn as [n|] eqn:E; [|done]. exists n. apply andb_true_iff in H as [H1%Nat.eqb_eq H2].
  destruct (wires (n_sys n) !! 0%nat) as [w|] eqn:Hw; [|done].
  set (ops := ((λ w, Add (sample_services 1000) w) <$> (app_events id 7 (events_on 0 (delivered (n_sys n)))).1) ++ [MarkDirty; Tick]).
  destruct (written_events_kept demo_handlers id device_symbolizer (str "a1b2") tt l n 7 (MkGuards 0 0 0 0) (λ _, true) (λ _ _, true) 0
    0%nat w ops device_symbolizer_ok) as (frames & rest & events & st & _ & _ & Hev & Hk).
  { apply Forall_cons; [done|]. apply list.Forall_app. split.
    - apply list.Forall_fmap. eapply list.Forall_impl; [apply sample_records_bytes|].
      intros raw Hr. split; [apply sample_clock|done].
    - by repeat constructor. }
  { exact E. }
  { exact Hw. }
  { lia. }
  { rewrite H1. done. }
  destruct (run_repository (λ _, true) (λ _ _, true) ops (newRepository 0, [])) as [r evs] eqn:Er. exists r, evs.
  split; [reflexivity|]. split; [exact Er|].
  assert (length (app_events id 7 (events_on 0 (delivered (n_sys n)))).1 = 1%nat) as Hlen.
  { destruct (events_on 0 (delivered (n_sys n))) as [|e [|]]; [discriminate H1|reflexivity|discriminate H1]. }
  destruct Hk as (Hevs & -> & _).
  - rewrite Hev. unfold ops. clear. induction (app_events id 7 (events_on 0 (delivered (n_sys n)))).1 as [|x xs IH]; [done|].
    rewrite fmap_cons. exact (f_equal (cons x) IH).
  - unfold ops. apply list.Forall_app. split; [|by repeat constructor]. apply list.Forall_fmap, list.Forall_true.
    intros x. split; [intros; by eexists|intros; by eexists].
  - split; [by rewrite H1|]. rewrite <- Hlen, <- Hev, <- Hevs. by rewrite length_fmap.
Defined.
