(* ===== verification/PidFile.v ===== *)
(** * The pid file (daemon/daemon.go)

    acquireSingleton and releasePidFile on a file system and a process table,
    and daemons that start, hold the file, release it and die, in any order. *)

From S2P Require Import Prelude GoLang GoStd.

(** ** The operating system *)

(** Files by path, and the live processes: [true] when the daemon may signal
    the process. *)
Record os_world := OsWorld { files : gmap bytes bytes; processes : gmap Z bool }.

Inductive errno := EPERM | ESRCH.

(** kill(pid, 0) *)
Definition Signal0 (w : os_world) (pid : Z) : option errno :=
  match processes w !! pid with
  | Some true => None
  | Some false => Some EPERM
  | None => Some ESRCH
  end.

(** os.WriteFile writes the data, fails to open the file, or fails after part
    of the data. *)
Inductive write_outcome := Written | OpenFailed | Partial (n : nat).

Definition WriteFile (path data : bytes) (o : write_outcome) (w : os_world) : bool * os_world :=
  match o with
  | Written => (true, OsWorld (<[path := data]> (files w)) (processes w))
  | OpenFailed => (false, w)
  | Partial n => (false, OsWorld (<[path := take n data]> (files w)) (processes w))
  end.

Definition Remove (path : bytes) (ok : bool) (w : os_world) : os_world :=
  if ok then OsWorld (delete path (files w)) (processes w) else w.

(** ** The functions of the daemon *)

Definition isProcessAlive (w : os_world) (pid : Z) : bool :=
  if pid <=? 1 then false
  else match Signal0 w pid with None => true | Some EPERM => true | Some ESRCH => false end.

Inductive pid_error := LiveInstance (pid : Z) | PidFileNotWritten.

(** The test of acquireSingleton: the live process the file names *)
Definition live_instance (pidFile : bytes) (w : os_world) : option Z :=
  data ← files w !! pidFile;
  oldPid ← Atoi (TrimSpace data);
  if (1 <? oldPid) && isProcessAlive w oldPid then Some oldPid else None.

Abbreviation pid_line pid := (Itoa pid ++ [10]) (only parsing).

(** Its write *)
Definition write_pid (pidFile : bytes) (self : Z) (o : write_outcome) (w : os_world)
    : option pid_error * os_world :=
  match WriteFile pidFile (pid_line self) o w with
  | (true, w) => (None, w)
  | (false, w) => (Some PidFileNotWritten, w)
  end.

Definition acquireSingleton (pidFile : bytes) (self : Z) (o : write_outcome) (w : os_world)
    : option pid_error * os_world :=
  if bool_decide (pidFile = []) then (None, w)
  else
    match live_instance pidFile w with
    | Some oldPid => (Some (LiveInstance oldPid), w)
    | None => write_pid pidFile self o w
    end.

(** The test of releasePidFile: the file names this process *)
Definition owns_file (pidFile : bytes) (self : Z) (w : os_world) : bool :=
  match files w !! pidFile with
  | None => false
  | Some data =>
      match Atoi (TrimSpace data) with Some owner => owner =? self | None => false end
  end.

Definition releasePidFile (pidFile : bytes) (self : Z) (ok : bool) (w : os_world) : os_world :=
  if bool_decide (pidFile = []) then w
  else if owns_file pidFile self w then Remove pidFile ok w else w.

(** ** Many daemons *)

(** A daemon before acquireSingleton, between its test and its write, with the
    probes attached, between the test and the removal of releasePidFile; any
    other process, and a daemon that has let go of the file. *)
Inductive phase := PStarting | PChecked | PHolding | PReleasing | POther.

Record lock_state := LockState { lk_files : gmap bytes bytes; lk_procs : gmap Z (phase * bool) }.

Definition world_of (st : lock_state) : os_world := OsWorld (lk_files st) (snd <$> lk_procs st).

Inductive lock_action :=
| Spawn (pid : Z) (daemon signallable : bool)
| Acquire (pid : Z) (o : write_outcome)
| TestFile (pid : Z) | WritePid (pid : Z) (o : write_outcome)
| ReleaseTest (pid : Z) | ReleaseRemove (pid : Z) (ok : bool)
| Die (pid : Z).

(** Process [pid] with its permission goes on in phase [ph]; [None]: it exits. *)
Definition go_on (pid : Z) (ph : option phase) (perm : bool) (fs : gmap bytes bytes) (st : lock_state) : lock_state :=
  LockState fs (match ph with Some ph => <[pid := (ph, perm)]> (lk_procs st) | None => delete pid (lk_procs st) end).

Definition lock_step (path : bytes) (a : lock_action) (st : lock_state) : option lock_state :=
  match a with
  | Spawn pid daemon perm =>
      if (1 <? pid) && (pid <? 2 ^ 31) && bool_decide (lk_procs st !! pid = None)
      then Some (go_on pid (Some (if daemon then PStarting else POther)) perm (lk_files st) st) else None
  | Acquire pid o =>
      match lk_procs st !! pid with
      | Some (PStarting, perm) =>
          let '(err, w) := acquireSingleton path pid o (world_of st) in
          Some (go_on pid (match err with None => Some PHolding | Some _ => None end) perm (files w) st)
      | _ => None
      end
  | TestFile pid =>
      match lk_procs st !! pid with
      | Some (PStarting, perm) =>
          Some (go_on pid (match live_instance path (world_of st) with None => Some PChecked | Some _ => None end)
                  perm (lk_files st) st)
      | _ => None
      end
  | WritePid pid o =>
      match lk_procs st !! pid with
      | Some (PChecked, perm) =>
          let '(err, w) := write_pid path pid o (world_of st) in
          Some (go_on pid (match err with None => Some PHolding | Some _ => None end) perm (files w) st)
      | _ => None
      end
  | ReleaseTest pid =>
      match lk_procs st !! pid with
      | Some (PHolding, perm) =>
          Some (go_on pid (Some (if owns_file path pid (world_of st) then PReleasing else POther))
                  perm (lk_files st) st)
      | _ => None
      end
  | ReleaseRemove pid ok =>
      match lk_procs st !! pid with
      | Some (PReleasing, perm) =>
          Some (go_on pid (Some POther) perm (files (Remove path ok (world_of st))) st)
      | _ => None
      end
  | Die pid => Some (go_on pid None false (lk_files st) st)
  end.

Fixpoint run_lock (path : bytes) (l : list lock_action) (st : lock_state) : option lock_state :=
  match l with
  | [] => Some st
  | a :: l => st ← lock_step path a st; run_lock path l st
  end.

(** No other process acts between the test and the write of acquireSingleton. *)
Definition serial (a : lock_action) : bool :=
  match a with TestFile _ | WritePid _ _ => false | _ => true end.

(** ** The file's content *)

Lemma trim_right_line ds : Forall alnum ds -> trim_right (ds ++ [10]) = ds.
Proof.
  induction 1 as [|b ds Hb _ IH]; [done|]. cbn [app trim_right only_space].
  rewrite alnum_no_space by done. by rewrite IH.
Qed.

Lemma TrimSpace_line ds : Forall alnum ds -> ds <> [] -> TrimSpace (ds ++ [10]) = ds.
Proof.
  intros H Hne. unfold TrimSpace. destruct H as [|b ds Hb Hds]; [done|]. cbn [app trim_left].
  rewrite alnum_no_space by done. by apply (trim_right_line (b :: ds)); constructor.
Qed.

Lemma pid_line_read pid : fits 63 pid -> Atoi (TrimSpace (pid_line pid)) = Some pid.
Proof.
  intros H. rewrite <- (Itoa_Atoi pid H). unfold Itoa. unfold fits in H.
  destruct (Z.ltb_spec pid 0); [lia|].
  by rewrite TrimSpace_line; [|apply FormatUint_alnum; lia|apply FormatUint_nonempty].
Qed.

Lemma written_file path pid w :
  fits 63 pid -> files w !! path = Some (pid_line pid) ->
  owns_file path pid w = true /\ (1 < pid -> is_Some (processes w !! pid) -> live_instance path w = Some pid).
Proof.
  intros Hp Hf. unfold owns_file, live_instance. rewrite Hf. cbn [mbind option_bind]. rewrite pid_line_read by done.
  split; [by rewrite Z.eqb_refl|]. intros H1 [b Hb]. cbn [mbind option_bind]. unfold isProcessAlive, Signal0. rewrite Hb.
  destruct (Z.ltb_spec 1 pid), (Z.leb_spec pid 1); try lia. by destruct b.
Qed.

(** ** One daemon at a time *)

Section OneDaemon.
Context (path : bytes).

Definition holder (st : lock_state) (pid : Z) : Prop :=
  exists ph perm, lk_procs st !! pid = Some (ph, perm) /\ (ph = PHolding \/ ph = PReleasing).

(** Pids are in range, and whoever holds the file is named in it. *)
Record lock_inv (st : lock_state) : Prop := {
  li_pid : forall pid x, lk_procs st !! pid = Some x -> 1 < pid < 2 ^ 31;
  li_file : forall pid, holder st pid -> lk_files st !! path = Some (pid_line pid) }.

Lemma lock_inv_pid st pid x : lock_inv st -> lk_procs st !! pid = Some x -> 1 < pid /\ fits 63 pid.
Proof. intros I H. pose proof (li_pid _ I _ _ H). unfold fits. lia. Qed.

(** A holder keeps every other daemon out. *)
Lemma holder_blocks st pid : lock_inv st -> holder st pid -> live_instance path (world_of st) = Some pid.
Proof.
  intros I Hh. pose proof (li_file _ I pid Hh) as Hf. destruct Hh as (ph & perm & H & _).
  destruct (lock_inv_pid _ _ _ I H). eapply written_file; [done|exact Hf|done|].
  cbn. rewrite lookup_fmap, H. by eexists.
Qed.

Lemma go_on_holder pid ph perm fs st q :
  holder (go_on pid ph perm fs st) q ->
  q <> pid /\ holder st q \/ q = pid /\ (ph = Some PHolding \/ ph = Some PReleasing).
Proof.
  intros (p & b & H & Hp). unfold go_on in H. cbn in H. destruct (decide (q = pid)) as [->|Hne]; [right|left].
  - split; [done|]. destruct ph; [|by rewrite lookup_delete_eq in H]. rewrite lookup_insert_eq in H.
    injection H as -> _. destruct Hp as [->| ->]; auto.
  - split; [done|]. exists p, b. destruct ph; [rewrite lookup_insert_ne in H|rewrite lookup_delete_ne in H]; done.
Qed.

Lemma go_on_pids pid ph perm fs st :
  (forall q x, lk_procs st !! q = Some x -> 1 < q < 2 ^ 31) -> 1 < pid < 2 ^ 31 \/ ph = None ->
  forall q x, lk_procs (go_on pid ph perm fs st) !! q = Some x -> 1 < q < 2 ^ 31.
Proof.
  intros H Hp q x. unfold go_on. cbn. destruct (decide (pid = q)) as [->|Hne].
  - destruct ph; [destruct Hp; [done|done]|by rewrite lookup_delete_eq].
  - destruct ph; [rewrite lookup_insert_ne by done|rewrite lookup_delete_ne by done]; apply H.
Qed.

(** A step of a process that holds nothing, on the same files *)
Lemma go_on_inv pid ph perm st :
  lock_inv st -> 1 < pid < 2 ^ 31 \/ ph = None -> (ph <> Some PHolding /\ (ph = Some PReleasing -> holder st pid)) ->
  lock_inv (go_on pid ph perm (lk_files st) st).
Proof.
  intros [Hp Hf] Hpid [Hnh Hr]. split; [by apply go_on_pids|]. cbn.
  intros q [[_ H]|[-> [E|E]]]%go_on_holder; [by apply Hf|done|by apply Hf, Hr].
Qed.

Lemma acquire_inv pid o perm st :
  lock_inv st -> lk_procs st !! pid = Some (PStarting, perm) -> path <> [] ->
  let '(err, w) := acquireSingleton path pid o (world_of st) in
  lock_inv (go_on pid (match err with None => Some PHolding | Some _ => None end) perm (files w) st).
Proof.
  intros I Hs Hne. unfold acquireSingleton. rewrite bool_decide_eq_false_2 by done.
  pose proof (li_pid _ I _ _ Hs) as Hpid.
  destruct (live_instance path (world_of st)) as [p|] eqn:El.
  - apply (go_on_inv pid None); [done|by right|done].
  - assert (forall q, holder st q -> False) as Hno.
    { intros q Hq. pose proof (holder_blocks st q I Hq). congruence. }
    unfold write_pid, WriteFile. destruct o as [| |n]; cbn.
    + split; [apply go_on_pids; [apply I|by left]|]. intros q [[_ H]|[-> _]]%go_on_holder; [by apply Hno in H|].
      cbn. by rewrite lookup_insert_eq.
    + apply (go_on_inv pid None); [done|by right|done].
    + split; [apply go_on_pids; [apply I|by right]|].
      intros q [[_ H]|[_ [?|?]]]%go_on_holder; [by apply Hno in H|done..].
Qed.

Lemma lock_step_inv a st st' :
  path <> [] -> serial a = true -> lock_inv st -> lock_step path a st = Some st' -> lock_inv st'.
Proof.
  intros Hne Ha I H. destruct a as [pid dm perm|pid o|pid|pid o|pid|pid ok|pid]; try done; cbn in H.
  - destruct (Z.ltb_spec 1 pid), (Z.ltb_spec pid (2 ^ 31)); try done. case_bool_decide; [|done]. injection H as <-.
    apply go_on_inv; [done|by left|]. by destruct dm.
  - destruct (lk_procs st !! pid) as [[[] perm]|] eqn:E; try done.
    pose proof (acquire_inv pid o perm st I E Hne) as Hi.
    destruct (acquireSingleton path pid o (world_of st)) as [err w]. by injection H as <-.
  - destruct (lk_procs st !! pid) as [[[] perm]|] eqn:E; try done. injection H as <-.
    apply go_on_inv; [done|left; by eapply li_pid|]. split; [by destruct (owns_file _ _ _)|].
    intros _. exists PHolding, perm. auto.
  - destruct (lk_procs st !! pid) as [[[] perm]|] eqn:E; try done. injection H as <-.
    split; [apply go_on_pids; [apply I|left; by eapply li_pid]|].
    intros q [[Hq Hh]|[_ [?|?]]]%go_on_holder; [|done..]. exfalso. apply Hq.
    assert (holder st pid) as Hp by (exists PReleasing, perm; auto).
    pose proof (holder_blocks st q I Hh). pose proof (holder_blocks st pid I Hp). congruence.
  - injection H as <-. apply (go_on_inv pid None); [done|by right|done].
Qed.

Lemma run_lock_inv l st st' :
  path <> [] -> forallb serial l = true -> lock_inv st -> run_lock path l st = Some st' -> lock_inv st'.
Proof.
  intros Hne. revert st. induction l as [|a l IH]; cbn; intros st Hl I H; [by injection H as <-|].
  apply andb_prop in Hl as [Ha Hl]. destruct (lock_step path a st) as [s1|] eqn:E; [|done].
  eapply IH; [done| |exact H]. by eapply lock_step_inv.
Qed.
End OneDaemon.

(** ** Properties *)

(** C38: As long as no daemon is started between the test and the write of
    another's acquireSingleton, at most one live daemon holds the probes, and
    the pid file names it: whatever the file contained at first, and however
    daemons and other processes start, are killed, release the file or fail to
    write it. *)
Theorem one_daemon_at_a_time path fs l st p q :
  path <> [] -> forallb serial l = true -> run_lock path l (LockState fs ∅) = Some st ->
  holder st p -> holder st q -> p = q /\ lk_files st !! path = Some (pid_line p).
Proof.
  intros Hne Hl Hr Hp Hq. assert (lock_inv path st) as I.
  { eapply run_lock_inv; [done|exact Hl| |exact Hr]. split; cbn; [intros ? ?; by rewrite lookup_empty|].
    intros pid (? & ? & H & _). cbn in H. by rewrite lookup_empty in H. }
  split; [|by apply (li_file _ _ I)].
  pose proof (holder_blocks path st p I Hp). pose proof (holder_blocks path st q I Hq). congruence.
Qed.

Lemma one_daemon_at_a_time_witness :
  let l := [Spawn 4000 false true; Spawn 4100 true true; Acquire 4100 Written; Die 4100; Spawn 4200 true true;
            Acquire 4200 Written; Spawn 4300 true true; Acquire 4300 Written] in
  let st := default (LockState ∅ ∅) (run_lock (str "p") l (LockState {[str "p" := pid_line 3999]} ∅)) in
  lk_files st !! str "p" = Some (pid_line 4200) /\ lk_procs st !! 4300 = None.
Proof.
  intros l st. split; [|by vm_compute].
  apply (one_daemon_at_a_time (str "p") {[str "p" := pid_line 3999]} l st 4200 4200); try by vm_compute.
  all: exists PHolding, true; split; [by vm_compute|by left].
Defined.

(** The test and the write of acquireSingleton are two steps: two daemons
    that both test before either writes both go on to attach their probes,
    although the file names only one of them. *)
Theorem acquire_race path fs p q :
  path <> [] -> 1 < p < 2 ^ 31 -> 1 < q < 2 ^ 31 -> p <> q -> fs !! path = None ->
  exists st,
    run_lock path [Spawn p true true; Spawn q true true; TestFile p; TestFile q; WritePid p Written; WritePid q Written]
      (LockState fs ∅) = Some st /\
    holder st p /\ holder st q /\ lk_files st !! path = Some (pid_line q).
Proof.
  intros Hne Hp Hq Hpq Hf.
  set (ps a b := <[q := (b, true)]> (<[p := (a, true)]> ∅) : gmap Z (phase * bool)).
  assert (forall a b, ps a b !! p = Some (a, true) /\ ps a b !! q = Some (b, true)) as Hl.
  { intros a b. unfold ps. by rewrite lookup_insert_ne, !lookup_insert_eq by done. }
  assert (forall a b c, <[p := (c, true)]> (ps a b) = ps c b) as Up.
  { intros a b c. unfold ps. by rewrite insert_insert_ne, insert_insert_eq by done. }
  assert (forall a b c, <[q := (c, true)]> (ps a b) = ps a c) as Uq.
  { intros a b c. unfold ps. by rewrite insert_insert_eq. }
  assert (forall m, live_instance path (world_of (LockState fs m)) = None) as Hn.
  { intros m. unfold live_instance. cbn. by rewrite Hf. }
  exists (LockState (<[path := pid_line q]> (<[path := pid_line p]> fs)) (ps PHolding PHolding)).
  split; [|split; [|split; [|cbn; by rewrite lookup_insert_eq]]].
  - cbn [run_lock lock_step]. unfold go_on. cbn [lk_procs].
    rewrite !(proj2 (Z.ltb_lt _ _)) by lia. cbn [andb mbind option_bind].
    rewrite bool_decide_eq_true_2 by apply lookup_empty. cbn [mbind option_bind go_on lk_procs lk_files].
    rewrite bool_decide_eq_true_2 by (rewrite lookup_insert_ne; [apply lookup_empty|done]).
    cbn [mbind option_bind lk_procs]. fold (ps PStarting PStarting). rewrite (proj1 (Hl _ _)).
    cbn [mbind option_bind lk_procs]. rewrite Hn, Up. cbn [mbind option_bind lk_procs]. rewrite (proj2 (Hl _ _)).
    cbn [mbind option_bind lk_procs]. rewrite Hn, Uq. cbn [mbind option_bind lk_procs]. rewrite (proj1 (Hl _ _)).
    cbn [write_pid WriteFile mbind option_bind lk_procs files world_of lk_files]. rewrite Up, (proj2 (Hl _ _)).
    cbn [write_pid WriteFile mbind option_bind lk_procs files world_of lk_files]. by rewrite Uq.
  - exists PHolding, true. split; [apply Hl|by left].
  - exists PHolding, true. split; [apply Hl|by left].
Qed.

Lemma acquire_race_witness :
  exists st,
    run_lock (str "p")
      [Spawn 4100 true true; Spawn 4200 true true; TestFile 4100; TestFile 4200; WritePid 4100 Written; WritePid 4200 Written]
      (LockState ∅ ∅) = Some st /\ holder st 4100 /\ holder st 4200 /\ lk_files st !! str "p" = Some (pid_line 4200).
Proof. by apply (acquire_race (str "p") ∅ 4100 4200). Defined.
