(* ===== verification/Daemon.v ===== *)
(** * The daemon's life (daemon/daemon.go, and Start, Stop and SetTargetUid of
    daemon/event_collector.go)

    Starting, the callbacks of the app's commands, and shutting down, on the
    kernel's side of the probes: which programs are attached, and the maps
    they share.  The outcomes of the calls into the operating system are the
    record [startup]; what the kernel does to its list of kprobes and to a map
    on Put are the class [EbpfLib]. *)

From S2P Require Import Prelude GoLang GoStd Protocol ProtocolProofs Records BpfRuntime SimKernel BpfPrograms.
From S2P Require Import Vmlinux BpfMain BpfChain Client PidFile.

(** ** The cilium/ebpf library and the kernel *)

Class EbpfLib `{K : BpfKernel} := {
  (** Map.Put; [None] is an error, and the text of the error *)
  map_put : hmap -> Z -> Z -> option hmap;
  put_error_text : bytes;
  (** the programs on one kprobe, in the order they run, after one more is
      attached *)
  kprobe_insert : bpf_prog -> list bpf_prog -> list bpf_prog
}.

Class EbpfLibLaws `{L : EbpfLib} : Prop := {
  put_updates m k v m' : map_put m k v = Some m' -> m' = map_update m k v;
  (** attaching adds the program and keeps the others *)
  insert_adds p l : kprobe_insert p l ≡ₚ p :: l
}.

#[export] Instance bpf_prog_eq_dec : EqDecision bpf_prog.
Proof. solve_decision. Defined.

(** What the daemon has put into the kernel: the loaded objects with their
    maps, the programs on the kprobe and on the raw tracepoint of
    binder_transaction, and the open ring buffer reader *)
Record kernel `{K : BpfKernel} := Kernel {
  k_objs : option bpf_state;
  k_kprobes : list bpf_prog;
  k_rawtp : list bpf_prog;
  k_reader : bool }.

(** ** The collector's resources *)

(** [objs], [kp], [kpCookie], [rawTp], [rd] and [sweepStop] are not nil, and the two goroutines
    are running. *)
Record collector_life := Life {
  objs : bool; kp : bool; kpCookie : bool; rawTp : bool; rd : bool;
  c_running : bool; targetUid : Z; sweepStop : bool; readLoop_runs : bool; sweepLoop_runs : bool }.

Abbreviation NewEventCollector := (Life false false false false false false 0 false false false) (only parsing).

Inductive daemon_error :=
| PidFileError (e : pid_error) | MemlockError | KprobeError | RawTracepointError | RingbufError
| PutError | ConnectError.

(** The outcome of each call Run makes into the system *)
Record startup `{K : BpfKernel} := Startup {
  so_pidfile : write_outcome;
  so_memlock : bool;
  so_load : option bpf_state;
  so_kpCookie : bool; so_kp : bool; so_rawTp : bool; so_reader : bool;
  so_dial : nat -> option nat;
  so_remove : bool }.

Abbreviation set_started c := (Life (objs c) (kp c) (kpCookie c) (rawTp c) true true (targetUid c) true true true) (only parsing).

Section Daemon.
Context `{L : EbpfLib}.

(** link.Close and Collection.Close *)
Definition detach (p : bpf_prog) (k : kernel) : kernel :=
  Kernel _ (k_objs k) (filter (λ q, q <> p) (k_kprobes k)) (filter (λ q, q <> p) (k_rawtp k)) (k_reader k).
Definition close_objs (k : kernel) : kernel := Kernel _ None (k_kprobes k) (k_rawtp k) (k_reader k).
Definition close_reader (k : kernel) : kernel := Kernel _ (k_objs k) (k_kprobes k) (k_rawtp k) false.

Definition attach_kprobe (p : bpf_prog) (k : kernel) : kernel :=
  Kernel _ (k_objs k) (kprobe_insert p (k_kprobes k)) (k_rawtp k) (k_reader k).
Definition attach_rawtp (p : bpf_prog) (k : kernel) : kernel :=
  Kernel _ (k_objs k) (k_kprobes k) (p :: k_rawtp k) (k_reader k).
Definition open_reader (k : kernel) : kernel := Kernel _ (k_objs k) (k_kprobes k) (k_rawtp k) true.

(** TraceConfigMap.Put(0, uid) *)
Definition put_config (uid : Z) (k : kernel) : option kernel :=
  s ← k_objs k;
  m ← map_put (trace_config_map s) 0 uid;
  Some (Kernel _ (Some (BpfState _ m (pending_map s) (tid_to_txid_map s) (ringbuf_overflow_map s)
                          (trace_event_map s) (kclock s)))
          (k_kprobes k) (k_rawtp k) (k_reader k)).

Definition set_objs b c := Life b (kp c) (kpCookie c) (rawTp c) (rd c) (c_running c) (targetUid c)
  (sweepStop c) (readLoop_runs c) (sweepLoop_runs c).
Definition set_kpCookie c := Life (objs c) (kp c) true (rawTp c) (rd c) (c_running c) (targetUid c)
  (sweepStop c) (readLoop_runs c) (sweepLoop_runs c).
Definition set_kp c := Life (objs c) true (kpCookie c) (rawTp c) (rd c) (c_running c) (targetUid c)
  (sweepStop c) (readLoop_runs c) (sweepLoop_runs c).
Definition set_rawTp c := Life (objs c) (kp c) (kpCookie c) true (rd c) (c_running c) (targetUid c)
  (sweepStop c) (readLoop_runs c) (sweepLoop_runs c).
(** The end of Start: the reader, [running], and the two goroutines *)

(** Start *)
Definition Start (env : startup) (c : collector_life) (k : kernel) : option daemon_error * collector_life * kernel :=
  if negb (so_memlock env) then (Some MemlockError, c, k)
  else
    match so_load env with
    | None => (None, set_objs false c, k)
    | Some s =>
        let c := set_objs true c in
        let k := Kernel _ (Some s) (k_kprobes k) (k_rawtp k) (k_reader k) in
        match put_config 0 k with
        | None => (None, set_objs false c, close_objs k)
        | Some k =>
            if negb (so_kpCookie env) then (Some KprobeError, c, close_objs k)
            else
              let c := set_kpCookie c in
              let k := attach_kprobe CookieProbe k in
              if negb (so_kp env) then (Some KprobeError, c, close_objs (detach CookieProbe k))
              else
                let c := set_kp c in
                let k := attach_kprobe MainProbe k in
                if negb (so_rawTp env)
                then (Some RawTracepointError, c, close_objs (detach MainProbe (detach CookieProbe k)))
                else
                  let c := set_rawTp c in
                  let k := attach_rawtp RawTp k in
                  if negb (so_reader env)
                  then (Some RingbufError, c,
                        close_objs (detach MainProbe (detach CookieProbe (detach RawTp k))))
                  else (None, set_started c, open_reader k)
        end
    end.

(** Stop.  Closing the reader makes readLoop return, and closing sweepStop
    makes sweepLoop return before Stop goes on. *)
Definition Stop (c : collector_life) (k : kernel) : collector_life * kernel :=
  let k := if rd c then close_reader k else k in
  let k := if rawTp c then detach RawTp k else k in
  let k := if kpCookie c then detach CookieProbe k else k in
  let k := if kp c then detach MainProbe k else k in
  let k := if objs c then close_objs k else k in
  (Life (objs c) (kp c) (kpCookie c) (rawTp c) (rd c) false (targetUid c) false
     (if rd c then false else readLoop_runs c) (if sweepStop c then false else sweepLoop_runs c), k).

(** SetTargetUid *)
Definition SetTargetUid (uid : Z) (c : collector_life) (k : kernel) : option daemon_error * collector_life * kernel :=
  let c := Life (objs c) (kp c) (kpCookie c) (rawTp c) (rd c) (c_running c) uid (sweepStop c)
             (readLoop_runs c) (sweepLoop_runs c) in
  if objs c then
    match put_config uid k with
    | None => (Some PutError, c, k)
    | Some k => (None, c, k)
    end
  else (None, c, k).

(** ** The daemon *)

Record DaemonConfig := MkDaemonConfig { PidFile_ : bytes; TargetUid_ : Z; SessionToken_ : bytes }.

Record Daemon := MkDaemon {
  pidFile : bytes;
  d_targetUid : Z;
  d_sessionToken : bytes;
  d_collector : collector_life;
  d_client : SocketClient;
  d_running : bool;
  shutdownOnce : bool }.

(** NewDaemon; the collector and the client are created in Run. *)
Definition NewDaemon (config : DaemonConfig) : Daemon :=
  MkDaemon (PidFile_ config) (TargetUid_ config) (SessionToken_ config) NewEventCollector
    (NewSocketClient []) false false.

(** The machine as the daemon changes it *)
Record machine := Machine { m_os : os_world; m_kernel : kernel }.

(** What Run returns before it waits for a signal *)
Inductive run_result := RunError (e : daemon_error) | RunWaits.

(** releasePidFile, deferred in Run *)
Definition release (d : Daemon) (self : Z) (ok : bool) (m : machine) : machine :=
  Machine (releasePidFile (pidFile d) self ok (m_os m)) (m_kernel m).

(** Run, until waitForSignal *)
Definition Run (self : Z) (env : startup) (d : Daemon) (m : machine) : run_result * Daemon * machine :=
  match acquireSingleton (pidFile d) self (so_pidfile env) (m_os m) with
  | (Some e, os) => (RunError (PidFileError e), d, Machine os (m_kernel m))
  | (None, os) =>
      let fail e c k := (RunError e, MkDaemon (pidFile d) (d_targetUid d) (d_sessionToken d) c
                                       (NewSocketClient (d_sessionToken d)) false (shutdownOnce d),
                         release d self (so_remove env) (Machine os k)) in
      match Start env NewEventCollector (m_kernel m) with
      | (Some e, c, k) => fail e c k
      | (None, c, k) =>
          let '(err, c, k) :=
            if 0 <? d_targetUid d then SetTargetUid (d_targetUid d) c k else (None, c, k) in
          match err with
          | Some e => let '(c, k) := Stop c k in fail e c k
          | None =>
              match connectWithRetry connectRetryCount (so_dial env) 1 with
              | None => let '(c, k) := Stop c k in fail ConnectError c k
              | Some conn =>
                  (RunWaits, MkDaemon (pidFile d) (d_targetUid d) (d_sessionToken d) c
                              (Connected conn (NewSocketClient (d_sessionToken d))) true (shutdownOnce d),
                   Machine os k)
              end
          end
      end
  end.

(** handleSetTarget *)
Definition handleSetTarget (uid : Z) (dm : Daemon * machine) : option daemon_error * (Daemon * machine) :=
  let '(d, m) := dm in
  let '(err, c, k) := SetTargetUid uid (d_collector d) (m_kernel m) in
  (err, (MkDaemon (pidFile d) (d_targetUid d) (d_sessionToken d) c (d_client d) (d_running d) (shutdownOnce d),
         Machine (m_os m) k)).

(** The callbacks Run gives to the client *)
Definition daemon_handlers : Handlers (Daemon * machine) :=
  MkHandlers
    (λ uid dm, let '(err, dm) := handleSetTarget uid dm in ((λ _, put_error_text) <$> err, dm))
    (λ dm, (None, dm))
    (λ dm, (None, dm)).

(** shutdown, which handleShutdown, handleDisconnect and a signal call; [Some]
    is the status the process exits with. *)
Definition shutdown (exitCode : Z) (self : Z) (ok : bool) (d : Daemon) (m : machine)
    : option Z * Daemon * machine :=
  if shutdownOnce d then (None, d, m)
  else if negb (d_running d) then
    (None, MkDaemon (pidFile d) (d_targetUid d) (d_sessionToken d) (d_collector d) (d_client d) false true, m)
  else
    let '(c, k) := Stop (d_collector d) (m_kernel m) in
    let d := MkDaemon (pidFile d) (d_targetUid d) (d_sessionToken d) c (Client.Stop (d_client d)) false true in
    (Some exitCode, d, release d self ok (Machine (m_os m) k)).
End Daemon.

(** ** Proofs *)

Section Proofs.
Context `{KL : BpfKernelLaws} {L : EbpfLib} {LL : EbpfLibLaws} `{T : CoreTarget}.

(** Nothing of the daemon is left in the kernel. *)
Definition clean (k : kernel) : Prop :=
  k_objs k = None /\ k_kprobes k = [] /\ k_rawtp k = [] /\ k_reader k = false.

Definition no_goroutines (c : collector_life) : Prop := readLoop_runs c = false /\ sweepLoop_runs c = false.

(** What the collector has open is in its fields, so that Stop closes it. *)
Record life_inv (c : collector_life) (k : kernel) : Prop := {
  li_objs : objs c = false -> k_objs k = None;
  li_kprobes : forall p, p ∈ k_kprobes k -> p = CookieProbe /\ kpCookie c = true \/ p = MainProbe /\ kp c = true;
  li_rawtp : forall p, p ∈ k_rawtp k -> p = RawTp /\ rawTp c = true;
  li_reader : k_reader k = true -> rd c = true;
  li_readLoop : readLoop_runs c = true -> rd c = true;
  li_sweepLoop : sweepLoop_runs c = true -> sweepStop c = true }.

Lemma put_config_spec uid k k' :
  put_config uid k = Some k' ->
  k_kprobes k' = k_kprobes k /\ k_rawtp k' = k_rawtp k /\ k_reader k' = k_reader k /\
  exists s s', k_objs k = Some s /\ k_objs k' = Some s' /\ config_uid s' = Some uid /\ records s' = records s.
Proof.
  unfold put_config. destruct (k_objs k) as [s|] eqn:E; [|done]. cbn [mbind option_bind].
  destruct (map_put _ _ _) as [m|] eqn:Em; [|done]. intros [= <-]. repeat (split; [done|]).
  eexists s, _. split; [done|]. split; [done|]. unfold config_uid. cbn.
  by rewrite (put_updates _ _ _ _ Em), update_same.
Qed.

Lemma SetTargetUid_inv uid c k :
  life_inv c k -> let '(_, c', k') := SetTargetUid uid c k in life_inv c' k'.
Proof.
  intros [Ho Hk Hr Hd Hl Hs]. unfold SetTargetUid. cbn [objs]. destruct (objs c) eqn:Eo; [|split; cbn; first [done|auto]].
  destruct (put_config uid k) as [k'|] eqn:E; [|split; cbn; first [done|auto]].
  apply put_config_spec in E as (E1 & E2 & E3 & _). split; cbn; rewrite ?E1, ?E2, ?E3; first [done|auto].
Qed.

Lemma detach_kprobes (b : bool) q k p :
  p ∈ k_kprobes (if b then detach q k else k) <-> p ∈ k_kprobes k /\ (b = true -> p <> q).
Proof. destruct b; cbn; [rewrite list_elem_of_filter|]; intuition congruence. Qed.

Lemma detach_rawtp (b : bool) q k p :
  p ∈ k_rawtp (if b then detach q k else k) <-> p ∈ k_rawtp k /\ (b = true -> p <> q).
Proof. destruct b; cbn; [rewrite list_elem_of_filter|]; intuition congruence. Qed.

Lemma close_objs_if (b : bool) k :
  k_kprobes (if b then close_objs k else k) = k_kprobes k /\ k_rawtp (if b then close_objs k else k) = k_rawtp k.
Proof. by destruct b. Qed.

Lemma close_reader_if (b : bool) k :
  k_kprobes (if b then close_reader k else k) = k_kprobes k /\ k_rawtp (if b then close_reader k else k) = k_rawtp k.
Proof. by destruct b. Qed.

Lemma no_elements {A} (l : list A) : (forall x, x ∉ l) -> l = [].
Proof. destruct l as [|x l]; [done|]. intros H. exfalso. apply (H x). left. Qed.

Lemma Stop_clean c k : life_inv c k -> clean (Stop c k).2 /\ no_goroutines (Stop c k).1.
Proof.
  intros [Ho Hk Hr Hd Hl Hs].
  assert (clean (Stop c k).2) as Hc.
  { unfold Stop, clean. cbn [snd]. split; [|split; [|split]].
    - destruct (objs c); [done|]. rewrite <- Ho by done. by destruct (kp c), (kpCookie c), (rawTp c), (rd c).
    - apply no_elements. intros p. rewrite (proj1 (close_objs_if _ _)), !detach_kprobes, (proj1 (close_reader_if _ _)).
      intros (((Hp & _) & H1) & H2). by destruct (Hk p Hp) as [[-> E]|[-> E]]; [apply H1|apply H2].
    - apply no_elements. intros p. rewrite (proj2 (close_objs_if _ _)), !detach_rawtp, (proj2 (close_reader_if _ _)).
      intros (((Hp & H1) & _) & _). destruct (Hr p Hp) as [-> E]. by apply H1.
    - assert (rd c = false -> k_reader k = false) as Hd'
        by (intros E; destruct (k_reader k); [by rewrite Hd in E|done]).
      destruct (rd c); [|rewrite <- Hd' by done]; by destruct (objs c), (kp c), (kpCookie c), (rawTp c). }
  split; [exact Hc|]. unfold no_goroutines, Stop. cbn. split.
  - destruct (rd c); [done|]. destruct (readLoop_runs c); [by discriminate (Hl eq_refl)|done].
  - destruct (sweepStop c); [done|]. destruct (sweepLoop_runs c); [by discriminate (Hs eq_refl)|done].
Qed.

Lemma elem_of_insert p q l : p ∈ kprobe_insert q l <-> p = q \/ p ∈ l.
Proof. by rewrite insert_adds, elem_of_cons. Qed.

(** Start leaves nothing behind when it fails; otherwise Stop can undo it. *)
Lemma Start_spec env k :
  clean k ->
  match Start env NewEventCollector k with
  | (Some _, c, k') => clean k' /\ no_goroutines c
  | (None, c, k') => life_inv c k'
  end.
Proof.
  intros Hc. pose proof Hc as (Ho & Hk & Hr & Hd). unfold Start.
  destruct (so_memlock env); [cbn [negb]|by split].
  destruct (so_load env) as [s|].
  2: { split; cbn; try done; rewrite ?Hk, ?Hr, ?Hd; try done; by intros p ?%not_elem_of_nil. }
  destruct (put_config _ _) as [k1|] eqn:E1.
  2: { split; cbn; try done; rewrite ?Hk, ?Hr, ?Hd; try done; by intros p ?%not_elem_of_nil. }
  apply put_config_spec in E1 as (Pk & Pr & Pd & _). cbn in Pk, Pr, Pd. rewrite Hk in Pk. rewrite Hr in Pr. rewrite Hd in Pd.
  destruct (so_kpCookie env); cbn [negb]; [|by repeat split].
  destruct (so_kp env); cbn [negb].
  2: { split; [|by split]. unfold clean. cbn. rewrite Pr, Pd. split; [done|]. split; [|done].
       apply no_elements. intros p. rewrite list_elem_of_filter, elem_of_insert, Pk, elem_of_nil. tauto. }
  assert (forall p, p ∈ filter (λ q, q <> MainProbe) (filter (λ q, q <> CookieProbe)
             (kprobe_insert MainProbe (kprobe_insert CookieProbe (k_kprobes k1)))) -> False) as Hnone.
  { intros p. rewrite !list_elem_of_filter, !elem_of_insert, Pk, elem_of_nil. tauto. }
  destruct (so_rawTp env); cbn [negb].
  2: { split; [|by split]. unfold clean. cbn. rewrite Pr, Pd. split; [done|]. split; [|done].
       apply no_elements. exact Hnone. }
  destruct (so_reader env); cbn [negb].
  2: { split; [|by split]. unfold clean. cbn. rewrite Pr, Pd. split; [done|]. split; [|done].
       apply no_elements. intros p. rewrite !list_elem_of_filter, !elem_of_insert, Pk, elem_of_nil. tauto. }
  split; cbn; try done; [|intros p; rewrite Pr; intros ->%list_elem_of_singleton; done].
  intros p. rewrite !elem_of_insert, Pk, elem_of_nil. tauto.
Qed.

(** *** The pid file *)

(** The files after a daemon with pid file [pf] has come and gone *)
Definition without_pid (pf : bytes) (fs : gmap bytes bytes) : gmap bytes bytes :=
  if bool_decide (pf = []) then fs else delete pf fs.

Definition with_pid (pf : bytes) (self : Z) (fs : gmap bytes bytes) : gmap bytes bytes :=
  if bool_decide (pf = []) then fs else <[pf := pid_line self]> fs.

Lemma acquire_files pf self o w w' :
  acquireSingleton pf self o w = (None, w') -> files w' = with_pid pf self (files w).
Proof.
  unfold acquireSingleton, with_pid. case_bool_decide; [by intros [= <-]|].
  destruct (live_instance pf w); [done|]. unfold write_pid, WriteFile. by destruct o; intros [= <-].
Qed.

Lemma release_files pf self w fs :
  fits 63 self -> files w = with_pid pf self fs ->
  files (releasePidFile pf self true w) = without_pid pf fs.
Proof.
  intros Hs Hf. unfold releasePidFile, without_pid, with_pid in *. case_bool_decide; [done|].
  destruct (written_file pf self w Hs) as [-> _]; [by rewrite Hf, lookup_insert_eq|].
  cbn. by rewrite Hf, delete_insert_eq.
Qed.

Lemma refused_unchanged pf self o w p w' :
  acquireSingleton pf self o w = (Some (LiveInstance p), w') -> w' = w.
Proof.
  unfold acquireSingleton. case_bool_decide; [done|]. destruct (live_instance pf w); [by intros [= _ <-]|].
  unfold write_pid, WriteFile. by destruct o.
Qed.

Lemma target_inv uid c k :
  life_inv c k ->
  let '(_, c', k') := (if 0 <? uid then SetTargetUid uid c k else (None, c, k)) in life_inv c' k'.
Proof. intros I. destruct (0 <? uid); [by apply SetTargetUid_inv|done]. Qed.

Lemma Start_error env c k e c' k' : Start env c k = (Some e, c', k') -> forall pe, e <> PidFileError pe.
Proof. unfold Start. intros H pe ->. by repeat case_match; simplify_eq. Qed.

Lemma SetTargetUid_error uid c k e c' k' : SetTargetUid uid c k = (Some e, c', k') -> e = PutError.
Proof. unfold SetTargetUid. intros H. by repeat case_match; simplify_eq. Qed.

(** C29: When Run fails, at whatever point, nothing of the daemon is left: no
    program attached, no object loaded, no reader open, no goroutine running,
    no connection; the pid file is as a live instance left it when that is why
    Run failed, and gone when this daemon had written it. *)
Theorem failed_run_leaves_nothing self env cfg m e d m' :
  fits 63 self -> clean (m_kernel m) -> so_remove env = true ->
  Run self env (NewDaemon cfg) m = (RunError e, d, m') ->
  clean (m_kernel m') /\ no_goroutines (d_collector d) /\ conn (d_client d) = None /\
  match e with
  | PidFileError (LiveInstance _) => m' = m
  | PidFileError PidFileNotWritten => m_kernel m' = m_kernel m
  | _ => files (m_os m') = without_pid (PidFile_ cfg) (files (m_os m))
  end.
Proof.
  intros Hself Hc Hrm. unfold Run. cbn [NewDaemon pidFile d_targetUid d_sessionToken shutdownOnce].
  destruct (acquireSingleton _ _ _ _) as [[pe|] os] eqn:Ea.
  { intros [= <- <- <-]. repeat (split; [done|]). destruct pe; [|done].
    apply refused_unchanged in Ea as ->. by destruct m. }
  apply acquire_files in Ea. pose proof (release_files _ _ _ _ Hself Ea) as Hrel.
  pose proof (Start_spec env (m_kernel m) Hc) as HS.
  destruct (Start env NewEventCollector (m_kernel m)) as [[[se|] c] k] eqn:Es.
  { intros [= <- <- <-]. destruct HS as [? ?]. split; [done|]. split; [done|]. split; [done|].
    cbn. rewrite Hrm, Hrel. destruct se; try done. by destruct (Start_error _ _ _ _ _ _ Es e). }
  pose proof (target_inv (TargetUid_ cfg) c k HS) as HT.
  destruct (if 0 <? TargetUid_ cfg then _ else _) as [[[te|] c1] k1] eqn:Et.
  - pose proof (Stop_clean c1 k1 HT) as [H1 H2]. destruct (Stop c1 k1) as [c2 k2]. intros [= <- <- <-].
    assert (te = PutError) as -> by (destruct (0 <? _); [by eapply SetTargetUid_error|done]).
    repeat (split; [done|]). cbn. by rewrite Hrm, Hrel.
  - destruct (connectWithRetry _ _ _); [done|].
    pose proof (Stop_clean c1 k1 HT) as [H1 H2]. destruct (Stop c1 k1) as [c2 k2]. intros [= <- <- <-].
    repeat (split; [done|]). cbn. by rewrite Hrm, Hrel.
Qed.

(** *** Serving *)

(** A daemon that waits for a signal *)
Record serving (self : Z) (fs : gmap bytes bytes) (d : Daemon) (m : machine) : Prop := {
  sv_running : d_running d = true;
  sv_once : shutdownOnce d = false;
  sv_life : life_inv (d_collector d) (m_kernel m);
  sv_files : files (m_os m) = with_pid (pidFile d) self fs }.

Lemma Run_serving self env cfg m d m' :
  clean (m_kernel m) -> Run self env (NewDaemon cfg) m = (RunWaits, d, m') ->
  serving self (files (m_os m)) d m' /\ pidFile d = PidFile_ cfg.
Proof.
  intros Hc. unfold Run. cbn [NewDaemon pidFile d_targetUid d_sessionToken shutdownOnce].
  destruct (acquireSingleton _ _ _ _) as [[pe|] os] eqn:Ea; [done|]. apply acquire_files in Ea.
  pose proof (Start_spec env (m_kernel m) Hc) as HS.
  destruct (Start env NewEventCollector (m_kernel m)) as [[[se|] c] k]; [done|].
  pose proof (target_inv (TargetUid_ cfg) c k HS) as HT.
  destruct (if 0 <? TargetUid_ cfg then _ else _) as [[[te|] c1] k1]; [by destruct (Stop c1 k1)|].
  destruct (connectWithRetry _ _ _); [|by destruct (Stop c1 k1)]. by intros [= <- <-].
Qed.

Lemma handleSetTarget_serving self fs uid d m :
  serving self fs d m ->
  let '(_, (d', m')) := handleSetTarget uid (d, m) in serving self fs d' m' /\ pidFile d' = pidFile d.
Proof.
  intros [H1 H2 H3 H4]. unfold handleSetTarget. pose proof (SetTargetUid_inv uid _ _ H3) as H3'.
  destruct (SetTargetUid uid _ _) as [[err c] k]. by split.
Qed.

Lemma retarget_serving self fs uids : forall d m,
  serving self fs d m ->
  let '(d', m') := foldl (λ dm uid, (handleSetTarget uid dm).2) (d, m) uids in
  serving self fs d' m' /\ pidFile d' = pidFile d.
Proof.
  induction uids as [|uid uids IH]; intros d m H; [done|]. cbn [foldl].
  pose proof (handleSetTarget_serving self fs uid d m H) as Hs.
  destruct (handleSetTarget uid (d, m)) as [err [d1 m1]]. cbn [snd]. destruct Hs as [Hs E].
  specialize (IH d1 m1 Hs). destruct (foldl _ _ _) as [d2 m2]. destruct IH. split; [done|congruence].
Qed.

(** C32: Whatever ends a started daemon (a signal, the app's Shutdown command, or
    the loss of the connection), after any SetTarget commands, shutdown undoes
    everything Run did: programs, objects, reader, goroutines, connection and
    pid file; the process exits with the status of that cause, and a second
    cause does nothing. *)
Theorem shutdown_releases_everything self env cfg m d1 m1 uids code :
  fits 63 self -> clean (m_kernel m) -> Run self env (NewDaemon cfg) m = (RunWaits, d1, m1) ->
  let '(d2, m2) := foldl (λ dm uid, (handleSetTarget uid dm).2) (d1, m1) uids in
  exists d3 m3,
    shutdown code self true d2 m2 = (Some code, d3, m3) /\
    clean (m_kernel m3) /\ no_goroutines (d_collector d3) /\
    conn (d_client d3) = None /\ running (d_client d3) = false /\
    files (m_os m3) = without_pid (PidFile_ cfg) (files (m_os m)) /\
    forall code' ok, shutdown code' self ok d3 m3 = (None, d3, m3).
Proof.
  intros Hself Hc HR. destruct (Run_serving _ _ _ _ _ _ Hc HR) as [Hs Ep].
  pose proof (retarget_serving _ _ uids _ _ Hs) as H2. destruct (foldl _ _ _) as [d2 m2].
  destruct H2 as [[S1 S2 S3 S4] Ep2]. rewrite Ep in Ep2.
  pose proof (Stop_clean _ _ S3) as [C1 C2]. unfold shutdown at 1. rewrite S2, S1. cbn [negb].
  destruct (Stop (d_collector d2) (m_kernel m2)) as [c k]. eexists _, _. split; [done|]. repeat (split; [done|]).
  split; [|done]. cbn. rewrite <- Ep2. apply release_files; [done|]. by rewrite S4.
Qed.

(** *** The probes *)

(** The programs on the kprobe run in turn on one call of binder_transaction. *)
Definition kprobe_chain (k : kernel) (c : probe_ctx) (s : bpf_state) : bpf_state :=
  foldl (λ s p, run_prog p c s) s (k_kprobes k).

(** Start attaches the cookie probe first and the main probe second; on a
    kernel that runs the kprobe attached last first, every call then runs the
    main probe before the cookie probe, the order in which the cookie record
    can name the transaction id of the chunks. *)
Theorem main_probe_runs_first env k c k' x s :
  (forall p l, kprobe_insert p l = p :: l) -> clean k ->
  Start env NewEventCollector k = (None, c, k') -> objs c = true ->
  kprobe_chain k' x s = kprobe_binder_transaction_cookie x (kprobe_binder_transaction x s) /\
  k_rawtp k' = [RawTp] /\ k_reader k' = true.
Proof.
  intros Hlifo (Ho & Hk & Hr & Hd). unfold Start. destruct (so_memlock env); [cbn [negb]|done].
  destruct (so_load env) as [s0|]; [|by intros [= <- <-]].
  destruct (put_config _ _) as [k1|] eqn:E1; [|by intros [= <- <-]].
  apply put_config_spec in E1 as (Pk & Pr & Pd & _). cbn in Pk, Pr, Pd. rewrite Hk in Pk. rewrite Hr in Pr.
  destruct (so_kpCookie env); [cbn [negb]|done]. destruct (so_kp env); [cbn [negb]|done].
  destruct (so_rawTp env); [cbn [negb]|done]. destruct (so_reader env); [cbn [negb]|done].
  intros [= <- <-] _. unfold kprobe_chain. cbn. rewrite !Hlifo, Pk, Pr. done.
Qed.

(** C37: The app's SetTarget reaches the probe. When the acknowledgement comes
    back from a daemon with loaded programs, the configuration the main probe
    reads is the uid of the command, and from then on the probe submits
    nothing for a call whose effective uid the filter excludes; when the answer
    is an error the kernel is unchanged. A daemon whose programs did not load
    acknowledges as well, and nothing is filtered or traced. *)
Theorem set_target_reaches_probe uid cl d m s :
  fits 32 uid -> (objs (d_collector d) = true -> k_objs (m_kernel m) = Some s) ->
  exists r d' m',
    handleCommand daemon_handlers (MkFrame MsgTypeSetTarget (EncodeSetTarget uid)) cl (d, m) = Some (r, cl, (d', m')) /\
    (frame_type (reply_frame r) = MsgTypeAck -> objs (d_collector d) = true ->
       exists s', k_objs (m_kernel m') = Some s' /\ config_uid s' = Some uid /\ records s' = records s /\
         forall x, filtered_out uid (effective_uid x) = true ->
           records (kprobe_binder_transaction x s') = records s') /\
    (frame_type (reply_frame r) = MsgTypeError -> m_kernel m' = m_kernel m) /\
    (objs (d_collector d) = false -> frame_type (reply_frame r) = MsgTypeAck /\ m_kernel m' = m_kernel m).
Proof.
  intros Hu Hs. unfold handleCommand. cbn [frame_type frame_payload]. rewrite Z.eqb_refl.
  rewrite DecodeSetTarget_Encode by done. cbn [mbind option_bind onSetTarget daemon_handlers handleSetTarget].
  unfold SetTargetUid. cbn [objs]. destruct (objs (d_collector d)).
  2: { eexists _, _, _. by repeat split. }
  specialize (Hs eq_refl). destruct (put_config uid (m_kernel m)) as [k|] eqn:E.
  2: { eexists _, _, _. by repeat split. }
  eexists _, _, _. split; [done|]. cbn. split; [|done]. intros _ _.
  apply put_config_spec in E as (_ & _ & _ & s1 & s' & E1 & E2 & E3 & E4). exists s'. split; [done|]. split; [done|].
  split; [congruence|]. intros x Hx. apply unselected_ignored. rewrite E3. by right.
Qed.
End Proofs.

(** ** Witnesses *)

#[local] Instance SimEbpf : EbpfLib (K := SimKernel) := {
  map_put m k v := Some (map_update m k v);
  put_error_text := str "update failed";
  kprobe_insert p l := p :: l }.

#[local] Instance SimEbpfLaws : EbpfLibLaws (L := SimEbpf).
Proof. split; [by intros m k v m' [= <-]|done]. Qed.

Definition sim_machine : machine :=
  Machine (OsWorld {[str "p" := pid_line 3999]} {[4100 := true]}) (Kernel _ None [] [] false).
Definition sim_config : DaemonConfig := MkDaemonConfig (str "p") 10123 (str "a1b2").
(** Everything succeeds, or the ring buffer cannot be opened, or the app does not answer. *)
Definition sim_startup (reader : bool) (dial : nat -> option nat) : startup :=
  Startup _ Written true (Some (sim_state 0 5000)) true true true reader dial true.
Definition third_dial (i : nat) : option nat := if (i =? 3)%nat then Some 0%nat else None.

Lemma sim_machine_clean : clean (m_kernel sim_machine).
Proof. done. Qed.

Lemma failed_run_leaves_nothing_witness :
  let '(r, d, m) := Run 4100 (sim_startup false third_dial) (NewDaemon sim_config) sim_machine in
  r = RunError RingbufError /\ clean (m_kernel m) /\ files (m_os m) = ∅.
Proof.
  destruct (Run 4100 (sim_startup false third_dial) (NewDaemon sim_config) sim_machine) as [[r d] m] eqn:E.
  assert (r = RunError RingbufError) as -> by exact (eq_sym (f_equal (λ x, x.1.1) E)).
  destruct (failed_run_leaves_nothing 4100 (sim_startup false third_dial) sim_config sim_machine RingbufError d m)
    as (H1 & _ & _ & H2); [by vm_compute|apply sim_machine_clean|done|exact E|].
  split; [done|]. split; [exact H1|]. rewrite H2. by vm_compute.
Defined.

Lemma shutdown_releases_everything_witness :
  let '(r, d1, m1) := Run 4100 (sim_startup true third_dial) (NewDaemon sim_config) sim_machine in
  r = RunWaits /\ k_kprobes (m_kernel m1) = [MainProbe; CookieProbe] /\
  exists d3 m3, shutdown 1 4100 true d1 m1 = (Some 1, d3, m3) /\ clean (m_kernel m3) /\ files (m_os m3) = ∅.
Proof.
  destruct (Run 4100 (sim_startup true third_dial) (NewDaemon sim_config) sim_machine) as [[r d1] m1] eqn:E.
  assert (r = RunWaits) as -> by exact (eq_sym (f_equal (λ x, x.1.1) E)).
  split; [done|]. split; [exact (eq_sym (f_equal (λ x, k_kprobes (m_kernel x.2)) E))|].
  destruct (shutdown_releases_everything 4100 (sim_startup true third_dial) sim_config sim_machine d1 m1 [] 1)
    as (d3 & m3 & H1 & H2 & _ & _ & _ & H3 & _); [by vm_compute|apply sim_machine_clean|exact E|].
  exists d3, m3. split; [exact H1|]. split; [exact H2|]. rewrite H3. by vm_compute.
Defined.

Lemma main_probe_runs_first_witness :
  let '(err, c, k) := Start (sim_startup true third_dial) NewEventCollector (m_kernel sim_machine) in
  let x := sim_call 0 1500 0xb400007000010000 10123 1201 in
  kprobe_chain k x (sim_state 10123 5000) =
    kprobe_binder_transaction_cookie x (kprobe_binder_transaction x (sim_state 10123 5000)).
Proof.
  destruct (Start (sim_startup true third_dial) NewEventCollector (m_kernel sim_machine)) as [[err c] k] eqn:E.
  assert (err = None) as -> by exact (eq_sym (f_equal (λ x, x.1.1) E)).
  apply (main_probe_runs_first (sim_startup true third_dial) (m_kernel sim_machine) c k); [done|done|exact E|].
  exact (eq_sym (f_equal (λ x, objs x.1.2) E)).
Defined.

Lemma set_target_reaches_probe_witness :
  let d := MkDaemon [] 0 [] (Life true true true true true true 0 true true true) (NewSocketClient []) true false in
  let m := Machine (OsWorld ∅ ∅) (Kernel _ (Some (sim_state 0 5000)) [MainProbe; CookieProbe] [RawTp] true) in
  exists r d' m' s', handleCommand daemon_handlers (MkFrame MsgTypeSetTarget (EncodeSetTarget 10200)) (NewSocketClient []) (d, m) =
      Some (r, NewSocketClient [], (d', m')) /\
    k_objs (m_kernel m') = Some s' /\ config_uid s' = Some 10200 /\
    records (kprobe_binder_transaction (sim_call 0 1500 0xb400007000010000 10123 1201) s') = [].
Proof.
  intros d m.
  destruct (set_target_reaches_probe 10200 (NewSocketClient []) d m (sim_state 0 5000)) as (r & d' & m' & E & H & _);
    [by vm_compute|done|].
  assert (frame_type (reply_frame r) = MsgTypeAck) as Ha.
  { apply (f_equal (fmap (λ x, frame_type (reply_frame x.1.1)))) in E. by injection E as <-. }
  destruct (H Ha eq_refl) as (s' & H1 & H2 & H3 & H4). exists r, d', m', s'. repeat (split; [done|]).
  rewrite H4; [by rewrite H3|by vm_compute].
Defined.
