(* ===== verification/Session.v ===== *)
(** * The monitoring session of the app

    MonitoringSessionController.kt and the watchdog of MonitoringService.kt.
    An operation of the controller is a coroutine: here a [job], a tree of
    its reads and writes of the controller's fields and of its calls of
    SessionTransport.  [run_job] runs a job to its end, [interleave] takes one
    step of any of several jobs at a time, over any implementation of the
    calls (class [Transport]).  What an implementation promises of the server
    socket, the handshake, the event loop and the daemons is the class
    [TransportLaws], which AppTransportSpec proves of RealSessionTransport.kt.
    A log records the calls and the values the state takes. *)

From S2P Require Import Prelude GoLang GoStd Client.

Inductive MonitoringSessionState :=
  IDLE | STARTING | HANDSHAKING | CONNECTED | PAUSED | RECONNECTING | FAILED | STOPPING.
#[export] Instance MonitoringSessionState_eq_dec : EqDecision MonitoringSessionState.
Proof. solve_decision. Defined.

(** SessionTransport's operations, and the delay between attempts, which
    suspends the coroutine as they do. *)
Inductive SessionTransport :=
  | stopExistingDaemon | disconnectSocket | startServer
  | startDaemon (uid : Z) (sessionToken : bytes)
  | awaitClient
  | handshake (uid : Z) (sessionToken : bytes)
  | preheatClassLoader (packageName : bytes)
  | sendPause | sendResume | sendShutdown
  | startEventLoop | stopEventLoop | clearPreviousEvents | isSocketConnected
  | delay (ms : Z).

#[export] Instance SessionTransport_eq_dec : EqDecision SessionTransport.
Proof. solve_decision. Defined.

(** The controller's fields, and the watchdog's counter of misses *)
Record MonitoringSessionController := MkController {
  mc_state : MonitoringSessionState;
  mc_targetAppName : bytes;
  mc_errorMessage : option bytes;
  mc_sessionToken : bytes;
  mc_targetUid : Z;
  mc_consecutiveMisses : nat }.
Abbreviation newController := (MkController IDLE [] None [] (-1) 0) (only parsing).

Definition with_state (s : MonitoringSessionState) (c : MonitoringSessionController) :=
  MkController s (mc_targetAppName c) (mc_errorMessage c) (mc_sessionToken c) (mc_targetUid c) (mc_consecutiveMisses c).
Definition with_app (a : bytes) (c : MonitoringSessionController) :=
  MkController (mc_state c) a (mc_errorMessage c) (mc_sessionToken c) (mc_targetUid c) (mc_consecutiveMisses c).
Definition with_error (e : option bytes) (c : MonitoringSessionController) :=
  MkController (mc_state c) (mc_targetAppName c) e (mc_sessionToken c) (mc_targetUid c) (mc_consecutiveMisses c).
Definition with_token (t : bytes) (c : MonitoringSessionController) :=
  MkController (mc_state c) (mc_targetAppName c) (mc_errorMessage c) t (mc_targetUid c) (mc_consecutiveMisses c).
Definition with_uid (u : Z) (c : MonitoringSessionController) :=
  MkController (mc_state c) (mc_targetAppName c) (mc_errorMessage c) (mc_sessionToken c) u (mc_consecutiveMisses c).
Definition with_misses (n : nat) (c : MonitoringSessionController) :=
  MkController (mc_state c) (mc_targetAppName c) (mc_errorMessage c) (mc_sessionToken c) (mc_targetUid c) n.

(** ** Jobs *)

Inductive job :=
  | Return
  | Read (k : MonitoringSessionController -> job)
  | Store (f : MonitoringSessionController -> MonitoringSessionController) (k : job)
  | Enter (s : MonitoringSessionState) (k : job)
  | Call (o : SessionTransport) (k : bool -> job)
  | Launch (j : job) (k : job).

(** One call whose answer is not used *)
Definition call (o : SessionTransport) (k : job) : job := Call o (λ _, k).

Abbreviation transition next k := (Enter next k) (only parsing).
Abbreviation fail message k := (Store (with_error (Some message)) (transition FAILED k)) (only parsing).

(** generateSessionToken, on the sixteen bytes SecureRandom gives *)
Abbreviation generateSessionToken random := (random ≫= hex2) (only parsing).

Definition startMonitoring (targetUid : Z) (packageName appName random : bytes) : job :=
  let go :=
    Store (with_app appName) (Store (with_error None) (Store (with_uid targetUid) (
    transition STARTING (
    call clearPreviousEvents (
    call disconnectSocket (call stopExistingDaemon (
    Call startServer (λ ok, if negb ok then fail (str "TCP Server 启动失败") Return else
    let token := generateSessionToken random in
    Store (with_token token) (Read (λ c,
    Call (startDaemon targetUid (mc_sessionToken c)) (λ ok, if negb ok
      then fail (str "btrace 启动失败,请检查 Root 权限") (call disconnectSocket Return) else
    Call awaitClient (λ ok, if negb ok
      then fail (str "TCP 连接失败") (call disconnectSocket (call stopExistingDaemon Return)) else
    transition HANDSHAKING (Read (λ c,
    Call (handshake targetUid (mc_sessionToken c)) (λ ok, if negb ok
      then fail (str "与 btrace 握手失败") (call disconnectSocket (call stopExistingDaemon Return)) else
    call (preheatClassLoader packageName) (
    call startEventLoop (
    transition CONNECTED Return))))))))))))))))) in
  Read (λ c, if decide (mc_state c = IDLE) then go else
  Read (λ c, if decide (mc_state c = FAILED) then go else Return)).

Definition pause : job :=
  Read (λ c, if decide (mc_state c = CONNECTED)
    then Call sendPause (λ ok, if ok then transition PAUSED Return else Return) else Return).

Definition resume : job :=
  Read (λ c, if decide (mc_state c = PAUSED)
    then Call sendResume (λ ok, if ok then transition CONNECTED Return else Return) else Return).

Definition stop : job :=
  Read (λ c, if decide (mc_state c = IDLE) then Return else
  transition STOPPING (
  call sendShutdown (call stopEventLoop (call disconnectSocket (call stopExistingDaemon (
  Store (with_app []) (Store (with_uid (-1)) (Store (with_token []) (
  transition IDLE Return))))))))).

Definition enterReconnecting (k : job) : job :=
  let go := transition RECONNECTING k in
  Read (λ c, if decide (mc_state c = CONNECTED) then go else
  Read (λ c, if decide (mc_state c = PAUSED) then go else k)).

(** The body of repeat, [n] rounds to go; [&&] stops at the first false. *)
Fixpoint reconnect_rounds (n : nat) (intervalMs : Z) : job :=
  match n with
  | O => fail (str "自动重连失败") Return
  | S n =>
      let again := call (delay intervalMs) (reconnect_rounds n intervalMs) in
      call disconnectSocket (
      Call startServer (λ ok, if negb ok then again else
      Read (λ c, Call (startDaemon (mc_targetUid c) (mc_sessionToken c)) (λ ok, if negb ok then again else
      Call awaitClient (λ ok, if negb ok then again else
      Read (λ c, Call (handshake (mc_targetUid c) (mc_sessionToken c)) (λ ok, if negb ok then again else
      call startEventLoop (transition CONNECTED Return))))))))
  end.

Definition attemptReconnect (maxAttempts intervalMs : Z) : job :=
  Read (λ c, if decide (mc_state c = RECONNECTING)
    then reconnect_rounds (Z.to_nat maxAttempts) intervalMs else Return).

Abbreviation reset := (Read (λ c, if decide (mc_state c = FAILED)
    then transition IDLE (Store (with_error None) Return) else Return)) (only parsing).

(** The callback of startEventLoop *)
Abbreviation onError msg := (Store (with_error (Some msg)) Return) (only parsing).

(** One round of the loop of startWatchdog *)
Definition watchdog_round : job :=
  call (delay 10000) (
  Read (λ c, if negb (bool_decide (mc_state c = CONNECTED)) then Store (with_misses 0) Return else
  Call isSocketConnected (λ alive, if alive then Store (with_misses 0) Return else
  Store (λ c, with_misses (S (mc_consecutiveMisses c)) c) (
  Read (λ c, if (3 <=? mc_consecutiveMisses c)%nat
    then enterReconnecting (Launch (attemptReconnect 3 5000) (Store (with_misses 0) Return))
    else Return))))).

(** ** The transport *)

(** An implementation of the calls: the answer, [None] for an exception, and
    what becomes of the world *)
Class Transport (W : Type) := perform : SessionTransport -> W -> option bool * W.

(** What can be seen of the world: whether the server socket is open; the uid
    and the token a client has acknowledged since it was opened; whether the
    event loop runs; the daemons that run, each with the uid and the token it
    was started with *)
Record link := MkLink {
  lk_server : bool; lk_acked : option (Z * bytes); lk_loop : bool; lk_daemons : list (Z * bytes) }.

(** What a call changes.  The event loop may end once the server is closed, and
    daemons at any time; one is started only by startDaemon, which may start one
    whatever it answers; stopExistingDaemon has ended all if it answers true,
    which its callers do not look at. *)
Definition link_step (o : SessionTransport) (answer : bool) (l l' : link) : Prop :=
  let same_socket := lk_server l' = lk_server l /\ lk_acked l' = lk_acked l in
  let same_loop := (lk_server l = true -> lk_loop l' = lk_loop l) /\ (lk_loop l = false -> lk_loop l' = false) in
  let no_more := lk_daemons l' ⊆ lk_daemons l in
  match o with
  | stopExistingDaemon => same_socket /\ same_loop /\ no_more /\ (answer = true -> lk_daemons l' = [])
  | disconnectSocket => lk_server l' = false /\ lk_acked l' = None /\ same_loop /\ no_more
  | startServer => lk_server l' = answer /\ lk_acked l' = None /\ same_loop /\ no_more
  | startDaemon u t => same_socket /\ same_loop /\ (u < 2 ^ 31 /\ Forall alnum t -> lk_daemons l' ⊆ (u, t) :: lk_daemons l)
  | handshake u t =>
      lk_server l' = lk_server l /\ lk_acked l' = (if answer then Some (u, t) else lk_acked l) /\ same_loop /\ no_more
  | startEventLoop => same_socket /\ lk_loop l' = true /\ no_more
  | stopEventLoop => same_socket /\ lk_loop l' = false /\ no_more
  | _ => same_socket /\ same_loop /\ no_more
  end.

Class TransportLaws (W : Type) `{Transport W} := {
  view : W -> link;
  perform_law o w : match perform o w with (Some answer, w') => link_step o answer (view w) (view w') | (None, _) => False end }.

(** ** Running jobs *)

Inductive session_event := Called (o : SessionTransport) (answer : bool) | Entered (s : MonitoringSessionState).

#[export] Instance session_event_eq_dec : EqDecision session_event.
Proof. solve_decision. Defined.

(** The log has the newest event first. *)
Record session (W : Type) := MkSession {
  se_ctl : MonitoringSessionController; se_world : W; se_log : list session_event }.
Arguments MkSession {W}.
Arguments se_ctl {W}.
Arguments se_world {W}.
Arguments se_log {W}.

Definition newSession {W} (w : W) : session W := MkSession newController w [].

(** What the user, the service and the event loop can ask for *)
Inductive session_action :=
  | StartMonitoring (targetUid : Z) (packageName appName random : bytes)
  | Pause | Resume | StopMonitoring | EnterReconnecting
  | AttemptReconnect (maxAttempts intervalMs : Z)
  | Reset | OnError (msg : bytes) | WatchdogRound.

Definition job_of (a : session_action) : job :=
  match a with
  | StartMonitoring u p n r => startMonitoring u p n r
  | Pause => pause
  | Resume => resume
  | StopMonitoring => stop
  | EnterReconnecting => enterReconnecting Return
  | AttemptReconnect n ms => attemptReconnect n ms
  | Reset => reset
  | OnError m => onError m
  | WatchdogRound => watchdog_round
  end.

Section Run.
Context {W : Type} `{Transport W}.
Implicit Types se : session W.

(** One step of a job, which an exception ends: what is left of it, the job it launches, the session *)
Definition job_step (j : job) (se : session W) : job * option job * session W :=
  match j with
  | Return => (Return, None, se)
  | Read k => (k (se_ctl se), None, se)
  | Store f k => (k, None, MkSession (f (se_ctl se)) (se_world se) (se_log se))
  | Enter s k => (k, None, MkSession (with_state s (se_ctl se)) (se_world se) (Entered s :: se_log se))
  | Call o k =>
      match perform o (se_world se) with
      | (Some answer, w) => (k answer, None, MkSession (se_ctl se) w (Called o answer :: se_log se))
      | (None, w) => (Return, None, MkSession (se_ctl se) w (se_log se))
      end
  | Launch j k => (k, Some j, se)
  end.

(** To the end; a launched job runs after the one that launches it. *)
Fixpoint run_job (j : job) (se : session W) : session W :=
  match j with
  | Return => se
  | Read k => run_job (k (se_ctl se)) se
  | Store f k => run_job k (MkSession (f (se_ctl se)) (se_world se) (se_log se))
  | Enter s k => run_job k (MkSession (with_state s (se_ctl se)) (se_world se) (Entered s :: se_log se))
  | Call o k =>
      match perform o (se_world se) with
      | (Some answer, w) => run_job (k answer) (MkSession (se_ctl se) w (Called o answer :: se_log se))
      | (None, w) => MkSession (se_ctl se) w (se_log se)
      end
  | Launch j k => run_job j (run_job k se)
  end.

(** Several jobs at once: a schedule says which one takes the next step. *)
Fixpoint interleave (schedule : list nat) (jobs : list job) (se : session W) : list job * session W :=
  match schedule with
  | [] => (jobs, se)
  | i :: schedule =>
      match jobs !! i with
      | None => interleave schedule jobs se
      | Some j =>
          let '(j, launched, se) := job_step j se in
          interleave schedule (<[i := j]> jobs ++ option_list launched) se
      end
  end.

(** One action after the other *)
Definition run_session (acts : list session_action) (se : session W) : session W :=
  foldl (λ se a, run_job (job_of a) se) se acts.
End Run.

(** ** What a log says *)

Fixpoint state_of (log : list session_event) : MonitoringSessionState :=
  match log with
  | [] => IDLE
  | Entered s :: _ => s
  | Called _ _ :: log => state_of log
  end.

(** The arrows of the diagram in MonitoringSessionState.kt: any state leads to
    STOPPING. *)
Definition diagram_arrow (s t : MonitoringSessionState) : bool :=
  match s, t with
  | IDLE, STARTING | STARTING, FAILED | STARTING, HANDSHAKING
  | HANDSHAKING, FAILED | HANDSHAKING, CONNECTED
  | CONNECTED, PAUSED | PAUSED, CONNECTED
  | CONNECTED, RECONNECTING | RECONNECTING, FAILED | RECONNECTING, CONNECTED
  | STOPPING, IDLE | FAILED, IDLE
  | _, STOPPING => true
  | _, _ => false
  end.

(** The two arrows the diagram does not have: a failed session is started again
    without a reset, and a paused one loses its connection. *)
Definition extra_arrow (s t : MonitoringSessionState) : bool :=
  match s, t with FAILED, STARTING | PAUSED, RECONNECTING => true | _, _ => false end.

Fixpoint follows (arrow : MonitoringSessionState -> MonitoringSessionState -> bool) (log : list session_event) : bool :=
  match log with
  | [] => true
  | Entered s :: log => arrow (state_of log) s && follows arrow log
  | Called _ _ :: log => follows arrow log
  end.

Definition session_arrow (s t : MonitoringSessionState) : bool := diagram_arrow s t || extra_arrow s t.

(** What a session that is watched needs, for one uid and one token *)
Definition live (uid : Z) (token : bytes) (l : link) : Prop :=
  lk_server l = true /\ lk_acked l = Some (uid, token) /\ lk_loop l = true.
(** The socket is closed. *)
Definition down (l : link) : Prop := lk_server l = false /\ lk_acked l = None.

(** The answers of stopExistingDaemon in a log *)
Definition stops (log : list session_event) : list bool :=
  omap (λ e, match e with Called stopExistingDaemon b => Some b | _ => None end) log.

(** ** The invariant between actions *)

Definition resting (s : MonitoringSessionState) : bool :=
  match s with STARTING | HANDSHAKING | STOPPING => false | _ => true end.

Definition watching (s : MonitoringSessionState) : bool :=
  match s with CONNECTED | PAUSED => true | _ => false end.

Section Laws.
Context {W : Type} `{TransportLaws W}.
Implicit Types se : session W.

Record session_ok (se : session W) : Prop := {
  ok_state : state_of (se_log se) = mc_state (se_ctl se);
  ok_follows : follows session_arrow (se_log se) = true;
  ok_resting : resting (mc_state (se_ctl se)) = true;
  ok_live : watching (mc_state (se_ctl se)) = true ->
    live (mc_targetUid (se_ctl se)) (mc_sessionToken (se_ctl se)) (view (se_world se)) }.

(** Runs the calls of a job, whatever they answer, and keeps what they change. *)
Ltac run_on :=
  cbn [run_job se_ctl se_world se_log mc_state mc_targetUid mc_sessionToken mc_consecutiveMisses call
       with_state with_app with_error with_token with_uid with_misses negb].
Ltac run_calls :=
  run_on;
  repeat (match goal with
          | |- context [perform ?o ?w] =>
              let L := fresh "L" in pose proof (perform_law o w) as L; destruct (perform o w) as [[?|] ?]; [cbn [link_step] in L|destruct L]
          | |- context [if ?b then _ else _] => is_var b; destruct b
          | |- context [if negb ?b then _ else _] => is_var b; destruct b
          end; run_on).

(** What the calls of a job have changed, taken together *)
Ltac links :=
  repeat match goal with H : _ /\ _ |- _ => destruct H end;
  repeat match goal with H : ?a = ?b -> _ = _ |- _ => specialize (H ltac:(congruence)) end; congruence.

(** A log that grew by known events *)
Ltac grown_log :=
  cbn; rewrite ?andb_true_r, ?orb_true_r;
  try match goal with H : state_of ?l = ?s |- _ => rewrite ?H end;
  try match goal with H : follows _ ?l = true |- _ => rewrite ?H end;
  cbn; try done.

Lemma sub_nil {A} (l : list A) : l ⊆ [] -> l = [].
Proof. destruct l as [|x l]; [done|]. intros Hx. destruct (not_elem_of_nil x). apply Hx. by left. Qed.

(** The events a log has grown by *)
Ltac prefix_of L :=
  lazymatch L with
  | ?e :: ?L => let r := prefix_of L in constr:(e :: r)
  | _ => constr:(@nil session_event)
  end.
Ltac give_prefix :=
  lazymatch goal with |- exists new, ?L = new ++ _ /\ @?Q new => let r := prefix_of L in exists r; split; [reflexivity|]; cbv beta end.

(** An event of a log that is written out *)
Ltac member := first [apply list_elem_of_here|apply list_elem_of_further; member].
Ltac in_steps H := repeat (apply elem_of_cons in H as [->|H]); [..|by apply not_elem_of_nil in H].

Lemma newSession_ok w : session_ok (newSession w).
Proof. by split. Qed.

(** What a start leaves: a session that is watched, or one that failed at one
    of four calls, with the socket closed.  If the daemons that were found, and
    where it is asked for the one that was started, could be stopped, none is
    left, unless it is the call to start one that failed. *)
Definition start_result (u : Z) (token : bytes) (log : list session_event) (se : session W) : Prop :=
  exists new, se_log se = new ++ log /\
  let steps := [startServer; startDaemon u token; awaitClient; handshake u token] in
  (mc_state (se_ctl se) = CONNECTED /\ (forall o, o ∈ steps -> Called o true ∈ new) \/
   mc_state (se_ctl se) = FAILED /\ down (view (se_world se)) /\ (exists o, o ∈ steps /\ Called o false ∈ new) /\
   (u < 2 ^ 31 /\ Forall alnum token -> Forall (eq true) (stops new) -> lk_daemons (view (se_world se)) ⊆ [(u, token)] /\
      (Called (startDaemon u token) false ∉ new -> lk_daemons (view (se_world se)) = []))).

(** No more daemons than before, through several calls *)
Ltac no_more :=
  repeat match goal with H : _ /\ _ |- _ => destruct H end;
  repeat match goal with
         | H : ?a < ?b /\ Forall alnum ?t -> _, Ha : ?a < ?b, Ht : Forall alnum ?t |- _ => specialize (H (conj Ha Ht))
         | H : ?b = true -> lk_daemons _ = [] |- _ => specialize (H ltac:(first [done|congruence])); rewrite H in *
         | H : lk_daemons ?w ⊆ [] |- _ => apply sub_nil in H; rewrite H in *
         end;
  first [done|apply list_subseteq_nil|etransitivity; eassumption].

Lemma token_alnum r : is_bytes r -> Forall alnum (generateSessionToken r).
Proof.
  induction 1 as [|b r Hb _ IH]; [constructor|]. cbn. apply Forall_app. split; [|done]. unfold hex2.
  apply Forall_app. split; [|apply FormatUint_alnum; unfold fits in Hb; lia].
  apply Forall_replicate. unfold alnum. lia.
Qed.

Lemma start_runs u p a r c w log :
  session_ok (MkSession c w log) -> mc_state c = IDLE \/ mc_state c = FAILED ->
  let se := run_job (startMonitoring u p a r) (MkSession c w log) in
  session_ok se /\ start_result u (generateSessionToken r) log se.
Proof.
  intros [Hs Hf _ _] Hc. cbn [se_ctl se_log] in Hs, Hf. unfold startMonitoring, start_result.
  cbn [run_job se_ctl]. destruct (decide (mc_state c = IDLE)) as [E|E];
    [|cbn [run_job se_ctl]; destruct (decide (mc_state c = FAILED)) as [E'|E']; [|destruct Hc; done]].
  all: run_calls; (split; [split; rewrite ?E, ?E' in *; grown_log; try (intros _; split_and!; links)|]).
  all: cbn [se_log se_ctl se_world mc_state with_state]; give_prefix.
  all: first [left; split; [done|intros o Ho; in_steps Ho; member] | right; split; [done|]; split; [split; links|]].
  all: split; [first [by exists startServer; split; member|by exists (startDaemon u (generateSessionToken r)); split; member
    |by exists awaitClient; split; member|by exists (handshake u (generateSessionToken r)); split; member]|].
  all: cbn; intros Hal Hst; repeat (apply list.Forall_cons in Hst as [<- Hst]); split; [no_more|intros Hn; first [no_more|destruct Hn; member]].
Qed.

Lemma stop_runs c w log :
  session_ok (MkSession c w log) -> mc_state c <> IDLE ->
  let se := run_job stop (MkSession c w log) in
  session_ok se /\ mc_state (se_ctl se) = IDLE /\ down (view (se_world se)) /\ lk_loop (view (se_world se)) = false /\
  exists new, se_log se = new ++ log /\ (true ∈ stops new -> lk_daemons (view (se_world se)) = []).
Proof.
  intros [Hs Hf Hr _] Hc. cbn [se_ctl se_log] in *. unfold stop. cbn [run_job se_ctl].
  rewrite decide_False by done. run_calls. split; [split; grown_log; by destruct (mc_state c)|].
  split; [done|]. split; [split; links|]. split; [links|]. cbn [se_log]. give_prefix. cbn.
  intros Hst%list_elem_of_singleton. subst. no_more.
Qed.

Lemma reconnect_runs n ms c w log :
  state_of log = RECONNECTING -> mc_state c = RECONNECTING -> follows session_arrow log = true ->
  session_ok (run_job (reconnect_rounds n ms) (MkSession c w log)).
Proof.
  revert w log. induction n as [|n IH]; intros w log Hl Hc Hf; cbn [reconnect_rounds]; run_calls.
  1,2: split; grown_log; intros _; split_and!; links.
  all: apply IH; done.
Qed.

Lemma attempt_ok n ms c w log :
  session_ok (MkSession c w log) -> session_ok (run_job (attemptReconnect n ms) (MkSession c w log)).
Proof.
  intros Hok. unfold attemptReconnect. cbn [run_job se_ctl].
  destruct (decide (mc_state c = RECONNECTING)) as [E|E]; [|done].
  destruct Hok as [Hs Hf _ _]. cbn [se_ctl se_log] in *. apply reconnect_runs; congruence.
Qed.

(** A change of the fields that neither the state nor the link depends on *)
Lemma ok_fields c c' w log :
  mc_state c' = mc_state c -> mc_targetUid c' = mc_targetUid c -> mc_sessionToken c' = mc_sessionToken c ->
  session_ok (MkSession c w log) -> session_ok (MkSession c' w log).
Proof. intros E1 E2 E3 [Hs Hf Hr Hl]. cbn in *. split; cbn; rewrite ?E1, ?E2, ?E3; done. Qed.

(** A call that changes nothing of what a session needs *)
Lemma ok_called o b c w w' log :
  lk_server (view w') = lk_server (view w) -> lk_acked (view w') = lk_acked (view w) ->
  (lk_server (view w) = true -> lk_loop (view w') = lk_loop (view w)) ->
  session_ok (MkSession c w log) -> session_ok (MkSession c w' (Called o b :: log)).
Proof.
  intros E1 E2 E3 [Hs Hf Hr Hl]. split; cbn in *; [done..|]. intros (H1 & H2 & H3)%Hl. unfold live. rewrite E1, E2, E3; auto.
Qed.

Lemma enter_ok k c w log :
  (forall c w log, session_ok (MkSession c w log) -> session_ok (run_job k (MkSession c w log))) ->
  session_ok (MkSession c w log) -> session_ok (run_job (enterReconnecting k) (MkSession c w log)).
Proof.
  intros Hk Hok. unfold enterReconnecting. cbn [run_job se_ctl].
  destruct (decide (mc_state c = CONNECTED)) as [E|E];
    [|cbn [run_job se_ctl]; destruct (decide (mc_state c = PAUSED)) as [E'|E']; [|by apply Hk]].
  all: cbn [run_job]; apply Hk; destruct Hok as [Hs Hf _ _]; split; cbn in *; rewrite ?Hs, ?E, ?E', ?Hf; done.
Qed.

Lemma watchdog_ok c w log :
  session_ok (MkSession c w log) -> session_ok (run_job watchdog_round (MkSession c w log)).
Proof.
  intros Hok. unfold watchdog_round. cbn [call run_job se_ctl se_world se_log].
  pose proof (perform_law (delay 10000) w) as L. destruct (perform (delay 10000) w) as [[b|] w1]; [cbn [link_step] in L|destruct L].
  apply (ok_called (delay 10000) b c w w1) in Hok; [|by destruct L as [[? ?] [[? ?] ?]]..].
  destruct (negb _); [by eapply ok_fields, Hok|]. cbn [run_job se_ctl se_world se_log].
  pose proof (perform_law isSocketConnected w1) as L1. destruct (perform isSocketConnected w1) as [[alive|] w2]; [cbn [link_step] in L1|destruct L1].
  apply (ok_called isSocketConnected alive c w1 w2) in Hok; [|by destruct L1 as [[? ?] [[? ?] ?]]..].
  destruct alive; [by eapply ok_fields, Hok|]. cbn [run_job se_ctl se_world se_log].
  apply (ok_fields c (with_misses (S (mc_consecutiveMisses c)) c)) in Hok; [|done..].
  destruct (3 <=? _)%nat; [|exact Hok]. apply enter_ok; [|exact Hok].
  intros c' w' l' Hok'. cbn [run_job se_ctl se_world se_log]. apply attempt_ok. by eapply ok_fields, Hok'.
Qed.

(** A command that is sent in one state and leads to another *)
Lemma command_ok o s t c w log :
  watching s = true -> watching t = true -> session_arrow s t = true -> (o = sendPause \/ o = sendResume) ->
  session_ok (MkSession c w log) ->
  session_ok (run_job (Read (λ c, if decide (mc_state c = s)
    then Call o (λ ok, if ok then transition t Return else Return) else Return)) (MkSession c w log)).
Proof.
  intros Hws Hwt Ha Ho Hok. pose proof Hok as [Hs Hf _ Hl]. cbn [run_job se_ctl se_log se_world] in *.
  destruct (decide _) as [E|E]; [|done]. rewrite E in *. specialize (Hl Hws). unfold live in *.
  destruct Ho as [-> | ->]; run_calls; split; cbn; rewrite ?E, ?Hs, ?Hf, ?Ha; try done; try (by destruct s); try (by destruct t);
    intros _; split_and!; links.
Qed.

Lemma reset_ok c w log :
  session_ok (MkSession c w log) -> session_ok (run_job reset (MkSession c w log)).
Proof.
  intros Hok. pose proof Hok as [Hs Hf _ _]. cbn [run_job se_ctl se_log] in *.
  destruct (decide _) as [E|E]; [|done]. run_calls. split; cbn; rewrite ?Hs, ?E, ?Hf; done.
Qed.

(** Every action keeps the invariant, whatever its calls are answered. *)
Lemma action_ok a se : session_ok se -> session_ok (run_job (job_of a) se).
Proof.
  destruct se as [c w log]. intros Hok. destruct a; cbn [job_of].
  - destruct (decide (mc_state c = IDLE \/ mc_state c = FAILED)) as [E|E]; [by apply start_runs|].
    unfold startMonitoring. cbn [run_job se_ctl]. rewrite decide_False by tauto.
    cbn [run_job se_ctl]. by rewrite decide_False by tauto.
  - apply command_ok; auto.
  - apply command_ok; auto.
  - destruct (decide (mc_state c = IDLE)) as [E|E]; [|by apply stop_runs].
    unfold stop. cbn [run_job se_ctl]. by rewrite decide_True.
  - by apply enter_ok.
  - by apply attempt_ok.
  - by apply reset_ok.
  - by eapply ok_fields, Hok.
  - by apply watchdog_ok.
Qed.

Lemma run_session_ok acts w : session_ok (run_session acts (newSession w)).
Proof.
  unfold run_session. generalize (newSession_ok w). generalize (newSession w).
  induction acts as [|a acts IH]; intros se Hok; [done|]. cbn [foldl]. by apply IH, action_ok.
Qed.
End Laws.

(** ** Requests that overlap, and a reconnect that fails *)

(** A transport whose answers are given *)
#[local] Instance scripted : Transport (list bool) := λ _ answers, (Some (default true (head answers)), tail answers).

(** A stop that runs while a start is between STARTING and its first call
    does not stop it: both jobs end, the session is connected after the stop
    has made it idle, which the diagram does not allow, and its name and uid
    are gone, so that a reconnect would ask for uid -1. *)
Theorem stop_during_start u p a r :
  let schedule := replicate 5 0%nat ++ replicate 10 1%nat ++ replicate 14 0%nat in
  let '(jobs, se) := interleave schedule [startMonitoring u p a r; stop] (newSession []) in
  jobs = [Return; Return] /\
  se_ctl se = MkController CONNECTED [] None (generateSessionToken r) (-1) 0 /\
  follows session_arrow (se_log se) = false.
Proof. cbv -[generateSessionToken Z.to_nat]. auto. Qed.
