(* ===== verification/AppDaemon.v ===== *)
(** * The daemon as the app manages it

    root/RootManager.kt and root/BTraceManager.kt: finding, installing, starting
    and stopping the daemon with commands of a root shell.  What the device makes
    of a command is the class [Device]; what is known of it is [DeviceLaws].  A
    suspending function is an [act], a function of the manager that may throw. *)

From S2P Require Import Prelude GoLang GoStd.

(** ** Kotlin *)

(** Char.isWhitespace *)
Definition kt_isWhitespace (c : Z) : bool :=
  (9 <=? c) && (c <=? 13) || (28 <=? c) && (c <=? 32) || (8192 <=? c) && (c <=? 8202) ||
  bool_decide (c ∈ [160; 5760; 8232; 8233; 8239; 8287; 12288]).

Fixpoint trimStart (s : bytes) : bytes :=
  match s with c :: t => if kt_isWhitespace c then trimStart t else s | [] => [] end.
Definition kt_trim (s : bytes) : bytes := reverse (trimStart (reverse (trimStart s))).

(** substringBefore *)
Fixpoint substringBefore (delimiter : Z) (s : bytes) : bytes :=
  match s with c :: t => if c =? delimiter then [] else c :: substringBefore delimiter t | [] => [] end.

(** lineSequence().firstOrNull() *)
Fixpoint firstLine (s : bytes) : bytes :=
  match s with c :: t => if (c =? 10) || (c =? 13) then [] else c :: firstLine t | [] => [] end.

(** toIntOrNull of a text of decimal digits only; null of any other *)
Definition pid_number (token : bytes) : option Z :=
  if forallb (λ c, (48 <=? c) && (c <=? 57)) token
  then n ← ParseUint token 10; if n <? 2 ^ 31 then Some n else None else None.

(** File.getParent *)
Definition parent (path : bytes) : option bytes :=
  match LastIndexByte 47 path with
  | Some O => if (1 <? length path)%nat then Some (str "/") else None
  | i => (λ i, take i path) <$> i
  end.

(** ** The device *)

(** libsu's Shell.Result *)
Record shell_result := MkResult { sr_code : Z; sr_out : list bytes; sr_err : list bytes }.
Abbreviation isSuccess r := (sr_code r =? 0) (only parsing).

(** A su process: it ended, it was killed after the time given, or it could not
    be started or read. *)
Inductive su_result := SuExited (code : Z) (output : bytes) | SuTimeout (output : bytes) | SuThrew.

(** [build_shell] is Shell.Builder.build and isRoot, [None] when it throws;
    [stage_asset] copies the asset btrace into the cache directory, [Some false]
    when there is no such asset. *)
Class Device (D : Type) := {
  build_shell : D -> option bool * D;
  shell_exec : bytes -> D -> shell_result * D;
  su_exec : bytes -> Z -> D -> su_result * D;
  stage_asset : D -> option bool * D;
  cacheDir : bytes }.

Abbreviation DEFAULT_BTRACE_PATH := (str "/data/local/tmp/btrace") (only parsing).
Abbreviation DEFAULT_LISTEN_ADDR := (str "127.0.0.1:47291") (only parsing).
Abbreviation PID_FILE := (str "/data/local/tmp/btrace.pid") (only parsing).
Abbreviation launchLog := (str "/data/local/tmp/btrace.daemon.log") (only parsing).

Definition shellPathPrefix : bytes :=
  str "export PATH=/sbin:/system/sbin:/system/bin:/system/xbin:/product/bin:/vendor/bin:$PATH; ".

(** The commands for the root shell; [path] is where the daemon is installed. *)
Inductive command :=
  | TestInstalled | ListInstalled
  | MakeDir (dir : bytes) | CopyAndChmod (tempFile : bytes) | CopyOnly (tempFile : bytes) | ChmodOnly
  | KillZero (pid : Z) | Kill (pid : Z) | PkillAll
  | CatPidFile | RemovePidFile
  | Pidof | Pgrep | PsAwk.

Definition quoted (s : bytes) : bytes := str "'" ++ s ++ str "'".

Definition command_text (path : bytes) (c : command) : bytes :=
  match c with
  | TestInstalled => str "test -x " ++ quoted path
  | ListInstalled => str "ls -la " ++ quoted path
  | MakeDir dir => str "mkdir -p " ++ quoted dir
  | CopyAndChmod tempFile =>
      str "cp " ++ quoted tempFile ++ str " " ++ quoted path ++ str " && chmod 755 " ++ quoted path
  | CopyOnly tempFile => str "cp " ++ quoted tempFile ++ str " " ++ quoted path
  | ChmodOnly => str "chmod 755 " ++ quoted path
  | KillZero pid => str "kill -0 " ++ Itoa pid
  | Kill pid => str "kill " ++ Itoa pid
  | PkillAll => str "pkill -f " ++ quoted DEFAULT_BTRACE_PATH ++ str " ; pkill -x btrace"
  | CatPidFile => str "cat " ++ quoted PID_FILE
  | RemovePidFile => str "rm -f " ++ quoted PID_FILE
  | Pidof => str "pidof btrace"
  | Pgrep => str "pgrep -f " ++ quoted DEFAULT_BTRACE_PATH
  | PsAwk => str "ps -A -o PID,NAME | awk '$2==" ++ [34] ++ str "btrace" ++ [34] ++ str "{print $1}'"
  end.

(** The commands for a su process of their own *)
Inductive su_command := LaunchDaemon (listenAddr : bytes) (targetUid : Z) (sessionToken : bytes) | CatPid | TailLog.

Definition su_text (path : bytes) (c : su_command) : bytes :=
  match c with
  | LaunchDaemon listenAddr targetUid sessionToken =>
      let tokenArg := match sessionToken with [] => [] | _ => str " -t " ++ quoted sessionToken end in
      shellPathPrefix ++ str " { nohup " ++ path ++ str " -l " ++ quoted listenAddr ++ str " -u " ++ Itoa targetUid ++
      tokenArg ++ str " " ++ str "</dev/null >" ++ quoted launchLog ++ str " 2>&1 & } 2>/dev/null"
  | CatPid => str "cat " ++ quoted PID_FILE ++ str " 2>/dev/null"
  | TailLog => str "tail -n 40 " ++ quoted launchLog ++ str " 2>/dev/null"
  end.

(** ** The managers *)

(** BTraceManager's field, RootManager's (whether there is an instance), and the
    device *)
Record manager (D : Type) := MkManager { lastStartedPid : Z; shellInstance : bool; device : D }.
Arguments MkManager {D}.
Arguments lastStartedPid {D}.
Arguments shellInstance {D}.
Arguments device {D}.

Definition add_pid (pids : list Z) (line : bytes) : list Z :=
  let token := substringBefore 9 (substringBefore 32 (kt_trim line)) in
  match token with
  | [] => pids
  | _ =>
      match pid_number token with
      | Some n => if (1 <? n) && negb (bool_decide (n ∈ pids)) then pids ++ [n] else pids
      | None => pids
      end
  end.
Definition parsePidsStrict (lines : list bytes) : list Z := foldl add_pid [] lines.

Section Manager.
Context {D : Type} `{Device D}.
Implicit Types m : manager D.

(** [None] is an exception; what was changed before it stays changed. *)
Definition act (A : Type) := manager D -> option A * manager D.
Definition ret {A} (a : A) : act A := λ m, (Some a, m).
Definition bind {A B} (x : act A) (k : A -> act B) : act B :=
  λ m, match x m with (Some a, m) => k a m | (None, m) => (None, m) end.
Definition catch {A} (x : act A) (h : A) : act A :=
  λ m, match x m with (Some a, m) => (Some a, m) | (None, m) => (Some h, m) end.
Notation "'let!' x := y 'in' k" := (bind y (λ x, k)) (at level 10, x name, y at level 100, k at level 200).

Definition on_device {A} (f : D -> A * D) : act A :=
  λ m, let '(a, d) := f (device m) in (Some a, MkManager (lastStartedPid m) (shellInstance m) d).
Definition get_last : act Z := λ m, (Some (lastStartedPid m), m).
Definition set_last (pid : Z) : act unit := λ m, (Some tt, MkManager pid (shellInstance m) (device m)).

(** RootManager *)
Definition getShell : act unit := λ m,
  if shellInstance m then (Some tt, m)
  else
    let '(root, d) := build_shell (device m) in
    match root with
    | Some true => (Some tt, MkManager (lastStartedPid m) true d)
    | _ => (None, MkManager (lastStartedPid m) false d)
    end.

Definition checkRoot : act bool := catch (let! _ := getShell in ret true) false.

Definition executeInGlobalMountNamespace (text : bytes) : act shell_result :=
  let! _ := getShell in on_device (shell_exec text).

Definition cleanup : act unit := λ m, (Some tt, MkManager (lastStartedPid m) false (device m)).

(** BTraceManager *)
Abbreviation execWithPath path c := (executeInGlobalMountNamespace (shellPathPrefix ++ command_text path c)) (only parsing).

Definition execStandaloneRoot (text : bytes) (timeoutMs : Z) : act (Z * bytes) :=
  let! r := on_device (su_exec text timeoutMs) in
  ret (match r with SuExited code output => (code, output) | SuTimeout output => (-1, output) | SuThrew => (-1, []) end).

Abbreviation parseFirstPid lines := (default (-1) (head (parsePidsStrict lines))) (only parsing).

Definition isPidAlive (pid : Z) : act bool :=
  if pid <=? 1 then ret false
  else let! result := execWithPath DEFAULT_BTRACE_PATH (KillZero pid) in ret (isSuccess result).

Definition getPidFromPidFile : act Z :=
  let! result := execWithPath DEFAULT_BTRACE_PATH CatPidFile in ret (parseFirstPid (sr_out result ++ sr_err result)).

Definition cleanupStalePidFile : act unit :=
  let! filePid := getPidFromPidFile in
  if 1 <? filePid then
    let! alive := isPidAlive filePid in
    if negb alive then let! _ := execWithPath DEFAULT_BTRACE_PATH RemovePidFile in ret tt else ret tt
  else ret tt.

Fixpoint query_with (commands : list command) : act (list Z) :=
  match commands with
  | [] => ret []
  | c :: commands =>
      let! result := execWithPath DEFAULT_BTRACE_PATH c in
      match parsePidsStrict (sr_out result ++ sr_err result) with
      | [] => query_with commands
      | pids => ret pids
      end
  end.
Abbreviation queryBTracePids := (query_with [Pidof; Pgrep; PsAwk]) (only parsing).

Definition isBTraceRunning : act bool := catch (
  let! last := get_last in
  let! alive := isPidAlive last in
  if alive then ret true else
  let! filePid := getPidFromPidFile in
  let! alive := isPidAlive filePid in
  if alive then let! _ := set_last filePid in ret true else
  let! pids := queryBTracePids in
  ret (match pids with [] => false | _ => true end)) false.

(** lastStartedPid is read again for the result. *)
Definition getBTracePid : act Z := catch (
  let! last := get_last in
  let! alive := isPidAlive last in
  if alive then get_last else
  let! filePid := getPidFromPidFile in
  let! alive := isPidAlive filePid in
  if alive then let! _ := set_last filePid in ret filePid else
  let! pids := queryBTracePids in
  ret (default (-1) (head pids))) (-1).

Definition throw_if_none {A} (x : option A) : act A := λ m, (x, m).

Definition extractBTrace (targetPath : bytes) : act bool := catch (
  let! staged := on_device stage_asset in
  let! found := throw_if_none staged in
  if negb found then ret false else
  let tempFile := cacheDir ++ str "/btrace_temp" in
  let! _ := match parent targetPath with
            | Some targetDir => let! _ := execWithPath targetPath (MakeDir targetDir) in ret tt
            | None => ret tt
            end in
  let! copyResult := execWithPath targetPath (CopyAndChmod tempFile) in
  let! _ := (if isSuccess copyResult then ret tt else
    let! cpResult := execWithPath targetPath (CopyOnly tempFile) in
    if isSuccess cpResult then let! _ := execWithPath targetPath ChmodOnly in ret tt else ret tt) in
  ret (isSuccess copyResult)) false.

Definition isBTraceInstalled (btracePath : bytes) : act bool := catch (
  let! result := execWithPath btracePath TestInstalled in
  let! _ := (if isSuccess result then ret tt else let! _ := execWithPath btracePath ListInstalled in ret tt) in
  ret (isSuccess result)) false.

Definition startBTrace (btracePath listenAddr : bytes) (targetUid : Z) (sessionToken : bytes) : act bool :=
  if targetUid <=? 0 then ret false else catch (
  let! isInstalledBefore := isBTraceInstalled btracePath in
  let! extracted := extractBTrace btracePath in
  let! launch := execStandaloneRoot (su_text btracePath (LaunchDaemon listenAddr targetUid sessionToken)) 3000 in
  if negb (launch.1 =? 0) then ret false else
  let! cat := execStandaloneRoot (su_text btracePath CatPid) 1500 in
  let launchedPid := default (-1) (pid_number (firstLine (kt_trim cat.2))) in
  let! alive := (if 1 <? launchedPid then isPidAlive launchedPid else ret false) in
  if alive then let! _ := set_last launchedPid in ret true else
  let! log := execStandaloneRoot (su_text btracePath TailLog) 1500 in
  isBTraceRunning) false.

(** The end of stopBTrace, once the signal is sent *)
Definition confirmStopped : act bool :=
  let! running := isBTraceRunning in
  let stopped := negb running in
  let! _ := set_last (-1) in
  let! _ := cleanupStalePidFile in
  let! _ := (if stopped then let! _ := execWithPath DEFAULT_BTRACE_PATH RemovePidFile in ret tt else ret tt) in
  ret stopped.

Definition stopBTrace : act bool := catch (
  let! pid := getBTracePid in
  let! _ := execWithPath DEFAULT_BTRACE_PATH (if 1 <? pid then Kill pid else PkillAll) in
  confirmStopped) false.
End Manager.
Arguments act D A : clear implicits.

(** ** What is known of a device *)

(** [daemons]: the daemons that run, each with the uid and the token it was
    started with.  A daemon may end during any command, none but the launch
    starts one, and that at most the one it names.  If one runs when pidof
    ends, it has printed its pid, alone on the first line or before others. *)
Class DeviceLaws (D : Type) `{Device D} := {
  daemons : D -> list (Z * bytes);
  build_law d : daemons (build_shell d).2 ⊆ daemons d;
  stage_law d : daemons (stage_asset d).2 ⊆ daemons d;
  shell_law c d : daemons (shell_exec (shellPathPrefix ++ command_text DEFAULT_BTRACE_PATH c) d).2 ⊆ daemons d;
  su_law c ms d : (c = CatPid \/ c = TailLog) -> daemons (su_exec (su_text DEFAULT_BTRACE_PATH c) ms d).2 ⊆ daemons d;
  launch_law uid token ms d : 0 < uid < 2 ^ 31 -> Forall alnum token ->
    daemons (su_exec (su_text DEFAULT_BTRACE_PATH (LaunchDaemon DEFAULT_LISTEN_ADDR uid token)) ms d).2 ⊆ (uid, token) :: daemons d;
  pidof_law d :
    let '(r, d') := shell_exec (shellPathPrefix ++ command_text DEFAULT_BTRACE_PATH Pidof) d in
    daemons d' <> [] -> exists pid rest lines,
      1 < pid < 2 ^ 31 /\ default 32 (head rest) = 32 /\ sr_out r = (Itoa pid ++ rest) :: lines }.

(** *** Pids *)

Lemma alnum_not_space c : alnum c -> kt_isWhitespace c = false.
Proof.
  unfold alnum, kt_isWhitespace. intros Hc. rewrite bool_decide_eq_false_2.
  - repeat (bdestr; try lia); done.
  - intros Hin. repeat (apply elem_of_cons in Hin as [->|Hin]; [lia|]). by apply not_elem_of_nil in Hin.
Qed.

Lemma trimStart_app s t : exists n, trimStart (s ++ t) = drop n s ++ (if decide (n = length s) then trimStart t else t).
Proof.
  induction s as [|c s [n IH]]; cbn [app trimStart length]; [by exists O|].
  destruct (kt_isWhitespace c).
  - exists (S n). rewrite IH. cbn [drop]. f_equal. by destruct (decide (n = _)), (decide (S n = _)); try lia.
  - exists O. by rewrite decide_False.
Qed.

Lemma trimStart_alnum ds s : Forall alnum ds -> ds <> [] -> trimStart (ds ++ s) = ds ++ s.
Proof. destruct 1 as [|c ds Hc Hds]; [done|]. intros _. cbn [app trimStart]. by rewrite alnum_not_space. Qed.

(** Digits at the start of a line stay there. *)
Lemma kt_trim_digits ds s : Forall alnum ds -> ds <> [] -> exists s', s' `prefix_of` s /\ kt_trim (ds ++ s) = ds ++ s'.
Proof.
  intros Hds Hne. unfold kt_trim. rewrite trimStart_alnum, reverse_app by done.
  destruct (trimStart_app (reverse s) (reverse ds)) as [n ->].
  assert (trimStart (reverse ds) = reverse ds) as ->.
  { rewrite <- (app_nil_r (reverse ds)). apply trimStart_alnum; [by rewrite Forall_reverse|].
    intros E. apply Hne. by apply (f_equal reverse) in E; rewrite reverse_involutive in E. }
  exists (reverse (drop n (reverse s))). split.
  - exists (reverse (take n (reverse s))). by rewrite <- reverse_app, take_drop, reverse_involutive.
  - destruct (decide _); by rewrite reverse_app, reverse_involutive.
Qed.

Lemma substringBefore_digits c ds s :
  Forall alnum ds -> c < 48 -> default c (head s) = c -> substringBefore c (ds ++ s) = ds.
Proof.
  intros Hds Hc Hs. induction Hds as [|b ds Hb _ IH]; cbn [app substringBefore].
  - destruct s as [|d s]; [done|]. cbn in *. by rewrite Hs, Z.eqb_refl.
  - rewrite IH. unfold alnum in Hb. bdestr; [lia|done].
Qed.

Lemma Itoa_digits n : 0 <= n -> forallb (λ c, (48 <=? c) && (c <=? 57)) (Itoa n) = true.
Proof.
  intros Hn. unfold Itoa. bdestr; [lia|]. unfold FormatUint. generalize (S (Z.to_nat (Z.log2 n))) as fuel.
  assert (forallb (λ c, (48 <=? c) && (c <=? 57)) [] = true) as Hacc by done. revert Hacc. generalize (@nil Z) as acc.
  intros acc Hacc fuel. clear H. revert n Hn acc Hacc. induction fuel as [|fuel IH]; intros n Hn acc Hacc; [done|]. cbn [format_digits].
  pose proof (Z.mod_pos_bound n 10 ltac:(lia)).
  assert (forallb (λ c, (48 <=? c) && (c <=? 57)) (digit_char (n mod 10) :: acc) = true).
  { cbn [forallb]. rewrite Hacc. unfold digit_char. repeat (bdestr; try lia); done. }
  destruct (n / 10 =? 0); [done|]. apply IH; [apply Z.div_pos; lia|done].
Qed.

Lemma pid_number_Itoa n : 0 <= n < 2 ^ 31 -> pid_number (Itoa n) = Some n.
Proof.
  intros Hn. unfold pid_number. rewrite Itoa_digits by lia. unfold Itoa. bdestr; [lia|].
  rewrite ParseUint_FormatUint by (unfold fits; lia). cbn [mbind option_bind]. bdestr; [done|lia].
Qed.

Lemma parsePids_grow pids lines x : x ∈ pids -> x ∈ foldl add_pid pids lines.
Proof.
  revert pids. induction lines as [|l lines IH]; intros pids Hx; [done|]. cbn [foldl]. apply IH. unfold add_pid.
  destruct (substringBefore _ _); [done|]. destruct (pid_number _); [|done]. destruct (_ && _); [|done].
  apply elem_of_app. by left.
Qed.

(** A line that starts with a pid is parsed. *)
Lemma parsePids_line pid rest lines :
  1 < pid < 2 ^ 31 -> default 32 (head rest) = 32 -> parsePidsStrict ((Itoa pid ++ rest) :: lines) <> [].
Proof.
  intros Hp Hr. assert (Forall alnum (Itoa pid)) as Hds.
  { unfold Itoa. bdestr; [lia|]. apply FormatUint_alnum; lia. }
  assert (Itoa pid <> []) as Hne by (unfold Itoa; bdestr; [done|apply FormatUint_nonempty]).
  destruct (kt_trim_digits (Itoa pid) rest Hds Hne) as (s' & Hs' & Ht).
  unfold parsePidsStrict. cbn [foldl]. unfold add_pid at 2. rewrite Ht, substringBefore_digits; [|done|lia|].
  - rewrite <- (app_nil_r (Itoa pid)), substringBefore_digits, pid_number_Itoa by (done || lia).
    destruct (Itoa pid) as [|c ds] eqn:E; [done|]. bdestr; [|lia]. cbn [andb negb].
    rewrite bool_decide_eq_false_2 by apply not_elem_of_nil. cbn [negb].
    intros Hnil. eapply (not_elem_of_nil pid). rewrite <- Hnil. apply parsePids_grow. by left.
  - destruct s' as [|c s']; [done|]. destruct Hs' as [k ->]. done.
Qed.

(** *** Daemons *)

Create HintDb daemons.

Section Laws.
Context {D : Type} `{DeviceLaws D}.
Implicit Types m : manager D.

(** What an action may do to the daemons: start none but those of [new] *)
Definition starts {A} (new : list (Z * bytes)) (x : act D A) : Prop :=
  forall m, daemons (device (x m).2) ⊆ new ++ daemons (device m).

Lemma starts_none {A} l (x : act D A) : (forall m, daemons (device (x m).2) ⊆ daemons (device m)) -> starts l x.
Proof. intros Hx m d Hd. apply elem_of_app. right. by apply (Hx m). Qed.

Lemma starts_ret {A} l (a : A) : starts l (ret a).
Proof. by apply starts_none. Qed.

Lemma starts_bind {A B} l (x : act D A) (k : A -> act D B) :
  starts l x -> (forall a, starts l (k a)) -> starts l (bind x k).
Proof.
  intros Hx Hk m d. unfold bind. specialize (Hx m). destruct (x m) as [[a|] m1]; cbn [snd] in *; [|apply Hx].
  intros [Hd|Hd%Hx]%Hk%elem_of_app; [apply elem_of_app; by left|done].
Qed.

Lemma starts_catch {A} l (x : act D A) h : starts l x -> starts l (catch x h).
Proof. intros Hx m. specialize (Hx m). unfold catch. by destruct (x m) as [[a|] m1]. Qed.

Lemma starts_shell l c : starts l (executeInGlobalMountNamespace (shellPathPrefix ++ command_text DEFAULT_BTRACE_PATH c)).
Proof.
  apply starts_bind; intros; apply starts_none; intros m.
  - unfold getShell. destruct (shellInstance m); [done|]. pose proof (build_law (device m)) as Hb.
    destruct (build_shell (device m)) as [[[]|] d]; done.
  - unfold on_device. pose proof (shell_law c (device m)) as Hs. by destruct (shell_exec _ _).
Qed.

Lemma starts_su l c ms : (c = CatPid \/ c = TailLog) -> starts l (execStandaloneRoot (su_text DEFAULT_BTRACE_PATH c) ms).
Proof.
  intros Hc. apply starts_bind; intros; [|apply starts_ret]. apply starts_none. intros m. unfold on_device.
  pose proof (su_law c ms (device m) Hc) as Hs. by destruct (su_exec _ _ _).
Qed.

Lemma starts_launch u t ms : 0 < u < 2 ^ 31 -> Forall alnum t ->
  starts [(u, t)] (execStandaloneRoot (su_text DEFAULT_BTRACE_PATH (LaunchDaemon DEFAULT_LISTEN_ADDR u t)) ms).
Proof.
  intros Hu Ht. apply starts_bind; intros; [|apply starts_ret]. intros m. unfold on_device.
  pose proof (launch_law u t ms (device m) Hu Ht) as Hs. by destruct (su_exec _ _ _).
Qed.

Lemma starts_stage l : starts l (on_device stage_asset).
Proof. apply starts_none. intros m. unfold on_device. pose proof (stage_law (device m)) as Hs. by destruct (stage_asset _). Qed.

Lemma starts_last l : starts l get_last.
Proof. by apply starts_none. Qed.
Lemma starts_set l pid : starts l (set_last pid).
Proof. by apply starts_none. Qed.
Lemma starts_throw {A} l (x : option A) : starts l (throw_if_none x).
Proof. by apply starts_none. Qed.

#[local] Hint Resolve starts_ret starts_shell starts_su starts_launch starts_stage starts_last starts_set starts_throw : daemons.
Local Ltac starting :=
  repeat first
    [ solve [auto with daemons] | apply starts_catch | apply starts_bind; [|intros ?] | match goal with |- starts _ (if ?b then _ else _) => destruct b end
    | match goal with |- starts _ (match ?o with Some _ => _ | None => _ end) => destruct o end ].

Lemma starts_alive l pid : starts l (isPidAlive pid).
Proof. unfold isPidAlive. starting. Qed.
#[local] Hint Resolve starts_alive : daemons.

Lemma starts_query l cs : starts l (query_with cs).
Proof. induction cs as [|c cs IH]; cbn [query_with]; starting. destruct (parsePidsStrict _); starting. Qed.
#[local] Hint Resolve starts_query : daemons.

Lemma starts_running l : starts l isBTraceRunning.
Proof. unfold isBTraceRunning, getPidFromPidFile. starting. Qed.
#[local] Hint Resolve starts_running : daemons.

Lemma starts_pid l : starts l getBTracePid.
Proof. unfold getBTracePid, getPidFromPidFile. starting. Qed.
#[local] Hint Resolve starts_pid : daemons.

(** Starting the daemon starts at most that daemon, whatever it answers. *)
Lemma startBTrace_starts u t :
  u < 2 ^ 31 -> Forall alnum t -> starts [(u, t)] (startBTrace DEFAULT_BTRACE_PATH DEFAULT_LISTEN_ADDR u t).
Proof.
  intros Hu Ht. unfold startBTrace, isBTraceInstalled, extractBTrace. destruct (Z.leb_spec u 0); [starting|]. starting.
Qed.

Lemma stopBTrace_starts l : starts l stopBTrace.
Proof.
  unfold stopBTrace, confirmStopped, cleanupStalePidFile, getPidFromPidFile.
  starting.
Qed.
(** With a shell nothing is thrown: what an action gives, and the shell stays. *)
Definition gives {A} (m : manager D) (x : act D A) (Q : A -> manager D -> Prop) : Prop :=
  exists a m', x m = (Some a, m') /\ shellInstance m' = true /\ Q a m'.

Lemma gives_ret {A} m (a : A) (Q : A -> manager D -> Prop) : shellInstance m = true -> Q a m -> gives m (ret a) Q.
Proof. intros. by exists a, m. Qed.

Lemma gives_bind {A B} m (x : act D A) (k : A -> act D B) Q :
  gives m x (λ a m, gives m (k a) Q) -> gives m (bind x k) Q.
Proof. intros (a & m1 & E & _ & b & m2 & E' & Hs & HQ). exists b, m2. unfold bind. by rewrite E. Qed.

Lemma gives_mono {A} m (x : act D A) (Q Q' : A -> manager D -> Prop) :
  gives m x Q -> (forall a m', shellInstance m' = true -> Q a m' -> Q' a m') -> gives m x Q'.
Proof. intros (a & m1 & E & Hs & HQ) HQ'. exists a, m1. auto. Qed.

Lemma gives_catch {A} m (x : act D A) h Q : gives m x Q -> gives m (catch x h) Q.
Proof. intros (a & m1 & E & Hs & HQ). exists a, m1. unfold catch. by rewrite E. Qed.

Lemma gives_set m pid (Q : unit -> manager D -> Prop) :
  shellInstance m = true -> Q tt (MkManager pid true (device m)) -> gives m (set_last pid) Q.
Proof. intros Hs HQ. eexists _, _. split; [unfold set_last; by rewrite Hs|done]. Qed.

(** A command runs; in particular pidof finds what runs. *)
Lemma gives_shell m c (Q : shell_result -> manager D -> Prop) :
  shellInstance m = true ->
  (forall r m', shellInstance m' = true -> daemons (device m') ⊆ daemons (device m) ->
    (c = Pidof -> parsePidsStrict (sr_out r ++ sr_err r) = [] -> daemons (device m') = []) -> Q r m') ->
  gives m (executeInGlobalMountNamespace (shellPathPrefix ++ command_text DEFAULT_BTRACE_PATH c)) Q.
Proof.
  intros Hm HQ. unfold executeInGlobalMountNamespace. apply gives_bind. exists tt, m. unfold getShell at 1. rewrite Hm.
  split_and!; [done..|]. unfold gives, on_device. pose proof (shell_law c (device m)) as Hs.
  assert (c = Pidof -> let '(r, d') := shell_exec (shellPathPrefix ++ command_text DEFAULT_BTRACE_PATH c) (device m) in
    parsePidsStrict (sr_out r ++ sr_err r) = [] -> daemons d' = []) as Hp.
  { intros ->. pose proof (pidof_law (device m)) as L. destruct (shell_exec _ _) as [r d]. intros Hnil.
    destruct (decide (daemons d = [])) as [|Hd]; [done|]. destruct (L Hd) as (pid & rest & lines & H1 & H2 & E).
    rewrite E in Hnil. by destruct (parsePids_line pid rest (lines ++ sr_err r)). }
  destruct (shell_exec _ _) as [r d]. cbn [snd] in Hs. eexists _, _. split_and!; [done..|]. by apply HQ.
Qed.

(** No daemon runs when none is found. *)
Lemma gives_query m :
  shellInstance m = true -> gives m (query_with [Pidof; Pgrep; PsAwk]) (λ pids m', pids = [] -> daemons (device m') = []).
Proof.
  intros Hm. cbn [query_with]. apply gives_bind, gives_shell; [done|]. intros r m1 Hm1 _ Hp.
  specialize (Hp eq_refl). destruct (parsePidsStrict _) as [|pid pids]; [specialize (Hp eq_refl)|by apply gives_ret].
  apply gives_bind, gives_shell; [done|]. intros r2 m2 Hm2 H2 _. rewrite Hp in H2. apply list_nil_subseteq in H2.
  destruct (parsePidsStrict _); [|by apply gives_ret].
  apply gives_bind, gives_shell; [done|]. intros r3 m3 Hm3 H3 _. rewrite H2 in H3. apply list_nil_subseteq in H3.
  by destruct (parsePidsStrict _); apply gives_ret.
Qed.

Lemma gives_alive m pid : shellInstance m = true -> gives m (isPidAlive pid) (λ _ _, True).
Proof.
  intros Hm. unfold isPidAlive. destruct (_ <=? _); [by apply gives_ret|].
  apply gives_bind, gives_shell; [done|]. intros. by apply gives_ret.
Qed.

Lemma gives_running m :
  shellInstance m = true -> gives m isBTraceRunning (λ running m', running = false -> daemons (device m') = []).
Proof.
  intros Hm. unfold isBTraceRunning, getPidFromPidFile. apply gives_catch, gives_bind. exists (lastStartedPid m), m.
  split_and!; [done..|]. apply gives_bind. eapply gives_mono; [by apply gives_alive|]. intros [] m1 Hm1 _; [by apply gives_ret|].
  apply gives_bind, gives_bind, gives_shell; [done|]. intros r m2 Hm2 _ _. apply gives_ret; [done|].
  apply gives_bind. eapply gives_mono; [by apply gives_alive|]. intros [] m3 Hm3 _.
  - apply gives_bind, gives_set; [done|]. by apply gives_ret.
  - apply gives_bind. eapply gives_mono; [by apply gives_query|]. intros pids m4 Hm4 Hp. apply gives_ret; [done|].
    destruct pids; [auto|done].
Qed.

Lemma answers_catch {A} (x : act D A) h m : exists a m', catch x h m = (Some a, m').
Proof. unfold catch. destruct (x m) as [[a|] m']; eauto. Qed.

(** A command runs, or there is no shell and it throws. *)
Lemma shell_or_throw m c :
  (exists m', executeInGlobalMountNamespace (shellPathPrefix ++ command_text DEFAULT_BTRACE_PATH c) m = (None, m')) \/
  gives m (executeInGlobalMountNamespace (shellPathPrefix ++ command_text DEFAULT_BTRACE_PATH c)) (λ _ _, True).
Proof.
  unfold executeInGlobalMountNamespace, gives, bind at 1 2, getShell, on_device.
  destruct (shellInstance m) eqn:Hm; [|destruct (build_shell (device m)) as [[[]|] d]]; [right|right|left|left]; [..|eauto|eauto].
  all: cbn [device lastStartedPid shellInstance]; destruct (shell_exec _ _); rewrite ?Hm; eauto.
Qed.

Lemma gives_cleanup m : shellInstance m = true -> gives m cleanupStalePidFile (λ _ _, True).
Proof.
  intros Hm. unfold cleanupStalePidFile, getPidFromPidFile. apply gives_bind, gives_bind, gives_shell; [done|]. intros r m1 Hm1 _ _.
  apply gives_ret; [done|]. destruct (1 <? _); [|by apply gives_ret].
  apply gives_bind. eapply gives_mono; [by apply gives_alive|]. intros [] m2 Hm2 _; [by apply gives_ret|].
  apply gives_bind, gives_shell; [done|]. intros. by apply gives_ret.
Qed.

(** What no daemon runs after stays so. *)
Lemma gives_none {A} m (x : act D A) (Q : A -> manager D -> Prop) :
  starts [] x -> gives m x Q -> gives m x (λ a m', Q a m' /\ (daemons (device m) = [] -> daemons (device m') = [])).
Proof.
  intros Hx (a & m' & E & Hs & HQ). exists a, m'. split_and!; [done..|]. intros Hd. specialize (Hx m).
  rewrite E, Hd in Hx. by apply list_nil_subseteq in Hx.
Qed.

Lemma gives_stopped m : shellInstance m = true -> gives m confirmStopped (λ b m', b = true -> daemons (device m') = []).
Proof.
  intros Hm. unfold confirmStopped. apply gives_bind. eapply gives_mono; [by apply gives_running|]. intros running m1 Hm1 Hr.
  apply gives_bind, gives_set; [done|]. apply gives_bind. eapply gives_mono.
  { apply gives_none; [unfold cleanupStalePidFile, getPidFromPidFile; starting|by apply gives_cleanup]. }
  intros _ m2 Hm2 [_ Hd]. cbn [device] in Hd. destruct running; cbn [negb].
  - apply gives_bind, gives_ret; [done|]. by apply gives_ret.
  - apply gives_bind, gives_bind, gives_shell; [done|]. intros r m3 Hm3 H3 _. apply gives_ret; [done|]. apply gives_ret; [done|].
    intros _. rewrite Hd in H3 by auto. by apply list_nil_subseteq in H3.
Qed.

(** Stopping answers, and no daemon runs if it answers true. *)
Lemma stopBTrace_stops m :
  exists b m', stopBTrace m = (Some b, m') /\ (b = true -> daemons (device m') = []).
Proof.
  unfold stopBTrace, catch, bind at 1. destruct (answers_catch _ (-1) m : exists pid m1, getBTracePid m = (Some pid, m1)) as (pid & m1 & ->).
  unfold bind. destruct (shell_or_throw m1 (if 1 <? pid then Kill pid else PkillAll)) as [[m2 E2]|(r & m2 & E2 & Hm2 & _)].
  - rewrite E2. by exists false, m2.
  - rewrite E2. destruct (gives_stopped m2 Hm2) as (b & m' & -> & _ & Hb). by exists b, m'.
Qed.

Lemma startBTrace_answers path addr u t m : exists b m', startBTrace path addr u t m = (Some b, m').
Proof. unfold startBTrace. destruct (u <=? 0); [by exists false, m|]. apply answers_catch. Qed.
End Laws.
