(* ===== verification/AppTransport.v ===== *)
(** * The app's transport

    service/RealSessionTransport.kt, and of data/SocketClient.kt the server
    socket, its one client and the coroutines of the event loop.  What the
    network does, and which rounds of those coroutines come before a call, is
    the class [Network].  [perform_real] implements the calls of Session. *)

From S2P Require Import Prelude GoLang GoStd AppWire Session AppDaemon.

Abbreviation MSG_PAUSE := 0x02%Z (only parsing).
Abbreviation MSG_RESUME := 0x03%Z (only parsing).
Abbreviation MSG_SHUTDOWN := 0x04%Z (only parsing).
Abbreviation MSG_PING := 0x05%Z (only parsing).

(** ** SocketClient *)

(** Its fields; of a socket or a stream, whether it is there *)
Record SocketClient := MkClient {
  sc_serverSocket : bool; sc_serverRunning : bool;
  sc_socket : bool; sc_input : bool; sc_output : bool; sc_isConnected : bool }.

(** accept and what follows it: no client, or an exception, before the fields are
    touched; an exception when a stream is opened (whether the first could be);
    a client *)
Inductive accept_result := NoClient | NoStreams (input : bool) | Accepted.

(** A round of the event loop, of a cancelled loop that has not noticed, or of
    the heartbeat *)
Inductive background := LoopRound | StaleRound | HeartbeatRound.

(** [net_receive] is what can be read from the client from now on, [net_expired]
    whether a deadline has passed before the i-th read. *)
Class Network (N : Type) := {
  net_bind : bytes -> Z -> N -> bool * N;
  net_accept : Z -> N -> accept_result * N;
  net_close : N -> N;
  net_writer :: Writer N;
  net_receive : N -> bytes * N;
  net_expired : N -> nat -> bool;
  net_background : N -> list background * N }.

Section Transport.
Context {D N : Type} `{Device D} `{Network N} (utf8 : bytes -> bytes).

Definition closeClientLocked (c : SocketClient) (n : N) : SocketClient * N :=
  (MkClient (sc_serverSocket c) (sc_serverRunning c) false false false false,
   if sc_socket c then net_close n else n).

Definition disconnect (c : SocketClient) (n : N) : SocketClient * N :=
  let '(c', n) := closeClientLocked c n in
  (MkClient false false (sc_socket c') (sc_input c') (sc_output c') (sc_isConnected c'),
   if sc_serverSocket c then net_close n else n).

Definition client_startServer (host : bytes) (port : Z) (c : SocketClient) (n : N) : bool * SocketClient * N :=
  let '(c, n) := disconnect c n in
  let '(bound, n) := net_bind host port n in
  if bound then (true, MkClient true true (sc_socket c) (sc_input c) (sc_output c) (sc_isConnected c), n) else (false, c, n).

Definition awaitClientInternal (timeoutMs : Z) (c : SocketClient) (n : N) : bool * SocketClient * N :=
  if negb (sc_serverRunning c) || negb (sc_serverSocket c) then (false, c, n)
  else
    match net_accept timeoutMs n with
    | (NoClient, n) => (false, c, n)
    | (NoStreams input, n) =>
        let '(c, n) := closeClientLocked c n in
        (false, MkClient (sc_serverSocket c) (sc_serverRunning c) true input false false, n)
    | (Accepted, n) =>
        let '(c, n) := closeClientLocked c n in
        (true, MkClient (sc_serverSocket c) (sc_serverRunning c) true true true true, n)
    end.

(** writeFrame on the client, if there is one *)
Definition send_frame (type : Z) (payload : bytes) (c : SocketClient) (n : N) : bool * N :=
  if negb (sc_output c) then (false, n) else writeFrame type payload n.

(** sendSetTargetAndAwaitAck on the client *)
Definition client_handshake (uid : Z) (expectedSessionToken : bytes) (c : SocketClient) (n : N) : option bool * N :=
  let '(ok, n) := send_frame MSG_SET_TARGET (setTargetPayload uid) c n in
  if negb ok then (Some false, n)
  else
    let '(input, n) := net_receive n in
    let input := if sc_input c then input else [] in
    (awaitAck utf8 (S (length input)) (net_expired n) 0 expectedSessionToken input, n).

(** ** RealSessionTransport *)

(** The SocketClient; whether the event loop and the heartbeat have been started
    and run; the loops that were cancelled and still run; the counters of
    BinderEvent; the managers; the network.  [ph_acked] is what the last
    handshake that succeeded since the server was started was for. *)
Record phone := MkPhone {
  ph_client : SocketClient; ph_eventJob : bool; ph_heartbeatJob : bool; ph_stale : nat; ph_app : app_state;
  ph_manager : manager D; ph_net : N; ph_acked : option (Z * bytes) }.

Definition with_client (c : SocketClient) (n : N) (p : phone) : phone :=
  MkPhone c (ph_eventJob p) (ph_heartbeatJob p) (ph_stale p) (ph_app p) (ph_manager p) n (ph_acked p).
Definition with_jobs (event heartbeat : bool) (stale : nat) (app : app_state) (p : phone) : phone :=
  MkPhone (ph_client p) event heartbeat stale app (ph_manager p) (ph_net p) (ph_acked p).
Definition with_manager (m : manager D) (p : phone) : phone :=
  MkPhone (ph_client p) (ph_eventJob p) (ph_heartbeatJob p) (ph_stale p) (ph_app p) m (ph_net p) (ph_acked p).
Definition with_acked (a : option (Z * bytes)) (p : phone) : phone :=
  MkPhone (ph_client p) (ph_eventJob p) (ph_heartbeatJob p) (ph_stale p) (ph_app p) (ph_manager p) (ph_net p) a.

(** The collector of startEventLoop on one frame: whether it returns, and the
    counters; the event itself goes to the repository. *)
Definition collect_frame (frame : kt_Frame) (app : app_state) : bool * app_state :=
  if kf_type frame =? MSG_BINDER_EVENT then
    match fromPayload utf8 (kf_payload frame) app with Some (_, app) => (true, app) | None => (false, app) end
  else (true, app).

(** One round of the loop of eventFlow, with its collector unless it was
    cancelled: whether it goes on *)
Definition eventFlow_round (cancelled : bool) (p : phone) : bool * phone :=
  if negb (sc_serverRunning (ph_client p)) then (false, p)
  else
    let '(ok, c, n) :=
      if sc_isConnected (ph_client p) then (true, ph_client p, ph_net p)
      else awaitClientInternal 6000 (ph_client p) (ph_net p) in
    if negb ok then (true, with_client c n p)
    else
      let '(input, n) := net_receive n in
      match (if sc_input c then readFrame input else None) with
      | None => let '(c, n) := closeClientLocked c n in (true, with_client c n p)
      | Some (frame, _) =>
          let p := with_client c n p in
          if cancelled then (false, p)
          else
            let '(ok, app) := collect_frame frame (ph_app p) in
            (ok, with_jobs (ph_eventJob p) (ph_heartbeatJob p) (ph_stale p) app p)
      end.

Definition background_step (b : background) (p : phone) : phone :=
  match b with
  | LoopRound =>
      if ph_eventJob p then
        let '(goes_on, p) := eventFlow_round false p in with_jobs goes_on (ph_heartbeatJob p) (ph_stale p) (ph_app p) p
      else p
  | StaleRound =>
      match ph_stale p with
      | O => p
      | S k =>
          let '(goes_on, p) := eventFlow_round true p in
          with_jobs (ph_eventJob p) (ph_heartbeatJob p) (if goes_on then S k else k) (ph_app p) p
      end
  | HeartbeatRound =>
      if ph_heartbeatJob p && sc_isConnected (ph_client p)
      then with_client (ph_client p) (send_frame MSG_PING [] (ph_client p) (ph_net p)).2 p else p
  end.

Definition background_rounds (p : phone) : phone :=
  let '(rounds, n) := net_background (ph_net p) in foldl (λ p b, background_step b p) (with_client (ph_client p) n p) rounds.

(** The jobs that a cancellation leaves to notice it *)
Abbreviation cancelled_jobs p := (if ph_eventJob p then S (ph_stale p) else ph_stale p) (only parsing).

Definition on_manager (x : act D bool) (p : phone) : option bool * phone :=
  let '(answer, m) := x (ph_manager p) in (answer, with_manager m p).

Definition send_command (type : Z) (p : phone) : option bool * phone :=
  let '(ok, n) := send_frame type [] (ph_client p) (ph_net p) in (Some ok, with_client (ph_client p) n p).

(** The calls.  What stopBTrace answers is dropped by stopExistingDaemon, and
    kept here.  preheatClassLoader and clearPreviousEvents concern the resolver
    and the repository. *)
Definition perform_call (o : SessionTransport) (p : phone) : option bool * phone :=
  match o with
  | stopExistingDaemon => on_manager stopBTrace p
  | disconnectSocket =>
      let '(c, n) := disconnect (ph_client p) (ph_net p) in (Some true, with_acked None (with_client c n p))
  | startServer =>
      let '(ok, c, n) := client_startServer (str "127.0.0.1") 47291 (ph_client p) (ph_net p) in
      (Some ok, with_acked None (with_client c n p))
  | startDaemon uid token => on_manager (startBTrace DEFAULT_BTRACE_PATH DEFAULT_LISTEN_ADDR uid token) p
  | awaitClient =>
      let '(ok, c, n) := awaitClientInternal 5000 (ph_client p) (ph_net p) in (Some ok, with_client c n p)
  | handshake uid token =>
      let '(answer, n) := client_handshake uid token (ph_client p) (ph_net p) in
      let p := with_client (ph_client p) n p in
      (answer, match answer with Some true => with_acked (Some (uid, token)) p | _ => p end)
  | sendPause => send_command MSG_PAUSE p
  | sendResume => send_command MSG_RESUME p
  | sendShutdown => send_command MSG_SHUTDOWN p
  | startEventLoop => (Some true, with_jobs true true (cancelled_jobs p) (ph_app p) p)
  | stopEventLoop => (Some true, with_jobs false false (cancelled_jobs p) (ph_app p) p)
  | isSocketConnected => (Some (sc_isConnected (ph_client p)), p)
  | preheatClassLoader _ | clearPreviousEvents | delay _ => (Some true, p)
  end.

Definition perform_real : Transport phone := λ o p, perform_call o (background_rounds p).
End Transport.
Arguments phone D N : clear implicits.
