(* ===== verification/AppTransportSpec.v ===== *)
(** * The session over the app's own transport

    What RealSessionTransport keeps ([real_laws]), so that the theorems of Session
    hold of it, on every device and network that meet their laws; a simulated
    device and network. *)

From S2P Require Import Prelude GoLang GoStd Protocol AppWire Client Session AppDaemon AppTransport.

(** What a client sends is an acknowledgement whose length field does not
    overflow, and events that declare a size a payload can have: on others the
    app throws ([declared_size_throws] in AppSpec). *)
Class NetworkLaws (N : Type) `{Network N} (utf8 : bytes -> bytes) := {
  ack_law n expired token :
    awaitAck utf8 (S (length (net_receive n).1)) expired 0 token (net_receive n).1 <> None;
  event_law n frame rest app :
    readFrame (net_receive n).1 = Some (frame, rest) -> kf_type frame = MSG_BINDER_EVENT ->
    fromPayload utf8 (kf_payload frame) app <> None }.

Section Real.
Context {D N : Type} `{DeviceLaws D} {HN : Network N} (utf8 : bytes -> bytes) `{!NetworkLaws N utf8}.
Implicit Types p : phone D N.

Definition server_open (c : SocketClient) : bool := sc_serverSocket c && sc_serverRunning c.

Definition phone_link p : link :=
  MkLink (server_open (ph_client p)) (ph_acked p) (ph_eventJob p) (daemons (device (ph_manager p))).

(** What happens beside the calls: the socket and the daemons are as they were,
    and the loop too unless the server is closed. *)
Definition undisturbed p p' : Prop :=
  server_open (ph_client p') = server_open (ph_client p) /\ ph_acked p' = ph_acked p /\
  ph_manager p' = ph_manager p /\
  (server_open (ph_client p) = true -> ph_eventJob p' = ph_eventJob p) /\
  (ph_eventJob p = false -> ph_eventJob p' = false).

Lemma undisturbed_trans p1 p2 p3 : undisturbed p1 p2 -> undisturbed p2 p3 -> undisturbed p1 p3.
Proof.
  intros (A1 & A2 & A3 & A4 & A5) (B1 & B2 & B3 & B4 & B5). split_and!; try congruence; [|auto].
  intros Ho. rewrite B4, A4; congruence.
Qed.

Lemma close_open (c : SocketClient) (n : N) : server_open (closeClientLocked c n).1 = server_open c.
Proof. done. Qed.

Lemma await_open ms (c : SocketClient) (n : N) : server_open (awaitClientInternal ms c n).1.2 = server_open c.
Proof. unfold awaitClientInternal. destruct (_ || _); [done|]. by destruct (net_accept ms n) as [[] ?]. Qed.

Lemma round_open cancelled p :
  let '(goes_on, p') := eventFlow_round utf8 cancelled p in
  server_open (ph_client p') = server_open (ph_client p) /\ ph_acked p' = ph_acked p /\ ph_manager p' = ph_manager p /\
  ph_eventJob p' = ph_eventJob p /\ (cancelled = false -> server_open (ph_client p) = true -> goes_on = true).
Proof.
  unfold eventFlow_round. destruct (sc_serverRunning (ph_client p)) eqn:Hrun; cbn [negb].
  2: { split_and!; [done..|]. intros _. unfold server_open. by rewrite Hrun, andb_false_r. }
  set (x := if sc_isConnected (ph_client p) then _ else _).
  assert (server_open x.1.2 = server_open (ph_client p)) as Hx by (unfold x; destruct (sc_isConnected _); [done|apply await_open]).
  destruct x as [[ok c] n]. cbn [fst snd] in Hx. destruct ok; cbn [negb]; [|by split_and!].
  pose proof (λ frame rest app, event_law n frame rest app) as Hev. destruct (net_receive n) as [input n']. cbn [fst] in Hev.
  destruct (sc_input c); [|by split_and!]. destruct (readFrame input) as [[frame rest]|]; [|by split_and!].
  destruct cancelled; [by split_and!|]. unfold collect_frame. destruct (Z.eqb_spec (kf_type frame) MSG_BINDER_EVENT) as [E|E]; [|by split_and!].
  specialize (Hev frame rest (ph_app (with_client c n' p)) eq_refl E).
  by destruct (fromPayload utf8 (kf_payload frame) _) as [[? ?]|]; [split_and!|].
Qed.

Lemma background_undisturbed b p : undisturbed p (background_step utf8 b p).
Proof.
  unfold undisturbed. destruct b; cbn [background_step].
  - destruct (ph_eventJob p) eqn:Hj; [|by split_and!]. pose proof (round_open false p) as Hr.
    destruct (eventFlow_round utf8 false p) as [g p']. destruct Hr as (H1 & H2 & H3 & H4 & H5). cbn. split_and!; auto. done.
  - destruct (ph_stale p); [by split_and!|]. pose proof (round_open true p) as Hr.
    destruct (eventFlow_round utf8 true p) as [g p']. destruct Hr as (H1 & H2 & H3 & H4 & H5). cbn. rewrite H4. by split_and!.
  - by destruct (_ && _); split_and!.
Qed.

Lemma undisturbed_client c n p : server_open c = server_open (ph_client p) -> undisturbed p (with_client c n p).
Proof. by repeat split. Qed.

Lemma rounds_undisturbed p : undisturbed p (background_rounds utf8 p).
Proof.
  unfold background_rounds. destruct (net_background (ph_net p)) as [rounds n].
  apply (undisturbed_trans _ (with_client (ph_client p) n p)); [by apply undisturbed_client|].
  generalize (with_client (ph_client p) n p). induction rounds as [|b rounds IH]; intros p'; [by repeat split|].
  cbn [foldl]. eapply undisturbed_trans; [apply background_undisturbed|apply IH].
Qed.

(** A call that leaves the socket, the loop and the daemons alone *)
Lemma quiet_law o answer p0 p :
  undisturbed p0 p -> (match o with
    | awaitClient | preheatClassLoader _ | sendPause | sendResume | sendShutdown | clearPreviousEvents | isSocketConnected | delay _ => True
    | _ => False end) -> link_step o answer (phone_link p0) (phone_link p).
Proof.
  intros (H1 & H2 & H3 & H4 & H5) Ho. unfold phone_link. destruct o; try done; cbn; rewrite H1, H2, H3; by split_and!.
Qed.

Lemma stop_law p0 p :
  undisturbed p0 p ->
  match on_manager stopBTrace p with
  | (Some answer, p') => link_step stopExistingDaemon answer (phone_link p0) (phone_link p') | (None, _) => False end.
Proof.
  intros (H1 & H2 & H3 & H4 & H5). unfold on_manager. destruct (stopBTrace_stops (ph_manager p)) as (b & m' & E & Hb).
  pose proof (stopBTrace_starts [] (ph_manager p)) as Hs. rewrite E in *. cbn [snd app] in Hs. unfold phone_link. cbn.
  rewrite H3 in Hs. split_and!; auto.
Qed.

Lemma start_law u t p0 p :
  undisturbed p0 p ->
  match on_manager (startBTrace DEFAULT_BTRACE_PATH DEFAULT_LISTEN_ADDR u t) p with
  | (Some answer, p') => link_step (startDaemon u t) answer (phone_link p0) (phone_link p') | (None, _) => False end.
Proof.
  intros (H1 & H2 & H3 & H4 & H5). unfold on_manager.
  destruct (startBTrace_answers DEFAULT_BTRACE_PATH DEFAULT_LISTEN_ADDR u t (ph_manager p)) as (b & m' & E).
  rewrite E. unfold phone_link. cbn. split_and!; [auto..|]. intros [Hu Ht].
  pose proof (startBTrace_starts u t Hu Ht (ph_manager p)) as Hs. rewrite E, H3 in Hs. apply Hs.
Qed.

Lemma handshake_law u t p0 p :
  undisturbed p0 p ->
  match perform_call utf8 (handshake u t) p with
  | (Some answer, p') => link_step (handshake u t) answer (phone_link p0) (phone_link p') | (None, _) => False end.
Proof.
  intros (H1 & H2 & H3 & H4 & H5). cbn [perform_call]. unfold client_handshake.
  destruct (send_frame _ _ _ _) as [ok n]. destruct ok; cbn [negb].
  2: { unfold phone_link. cbn. rewrite H1, H2, H3. by split_and!. }
  pose proof (λ expired, ack_law n expired t) as Hack. destruct (net_receive n) as [input n']. cbn [fst] in Hack.
  assert (awaitAck utf8 (S (length (if sc_input (ph_client p) then input else []))) (net_expired n') 0 t
    (if sc_input (ph_client p) then input else []) <> None) as Hn.
  { destruct (sc_input _); [apply Hack|]. cbn. by destruct (net_expired n' 0). }
  destruct (awaitAck _ _ _ _ _ _) as [[]|]; [..|done]; unfold phone_link; cbn; rewrite ?H1, ?H2, ?H3; by split_and!.
Qed.

Lemma send_law o type p0 p :
  undisturbed p0 p -> (o = sendPause \/ o = sendResume \/ o = sendShutdown) ->
  match send_command type p with
  | (Some answer, p') => link_step o answer (phone_link p0) (phone_link p') | (None, _) => False end.
Proof.
  intros Hu Ho. unfold send_command. destruct (send_frame _ _ _ _) as [ok n].
  apply quiet_law; [|by destruct Ho as [->|[-> | ->]]]. eapply undisturbed_trans; [done|]. by apply undisturbed_client.
Qed.

Lemma real_law o p :
  match perform_real utf8 o p with (Some answer, p') => link_step o answer (phone_link p) (phone_link p') | (None, _) => False end.
Proof.
  unfold perform_real. pose proof (rounds_undisturbed p) as Hu.
  generalize dependent (background_rounds utf8 p). intros p' Hu. pose proof Hu as (H1 & H2 & H3 & H4 & H5).
  destruct o; try (by apply stop_law); try (by apply start_law); try (by apply handshake_law); cbn [perform_call];
    try (by apply quiet_law); try (apply send_law; auto).
  - unfold phone_link. cbn. rewrite H3. by split_and!.
  - unfold client_startServer. destruct (disconnect _ _) as [c n] eqn:E. destruct (net_bind _ _ _) as [[] n'].
    + unfold phone_link. cbn. rewrite H3. by split_and!.
    + injection E as <- <-. unfold phone_link. cbn. rewrite H3. by split_and!.
  - pose proof (await_open 5000 (ph_client p') (ph_net p')) as Ha. destruct (awaitClientInternal _ _ _) as [[ok c] n].
    apply quiet_law; [|done]. eapply undisturbed_trans; [done|]. by apply undisturbed_client.
  - unfold phone_link. cbn. rewrite H1, H2, H3. by split_and!.
  - unfold phone_link. cbn. rewrite H1, H2, H3. by split_and!.
Qed.

#[local] Instance real : Transport (phone D N) := perform_real utf8.

(** RealSessionTransport keeps what Session needs of a transport. *)
#[local] Instance real_laws : TransportLaws (phone D N) := {| view := phone_link; perform_law := real_law |}.

(** C33: whatever the user, the watchdog and the event loop ask for, one request
    after the other, and whatever the device and the network do: the states the
    session goes through are joined by arrows of the diagram of
    MonitoringSessionState.kt, or lead from FAILED to STARTING or from PAUSED to
    RECONNECTING; between requests the session is never STARTING, HANDSHAKING or
    STOPPING; and whenever it is CONNECTED or PAUSED, the server socket is open,
    the event loop runs, and since the socket was opened a client has
    acknowledged the uid of the session with its token (the event loop takes the
    next client, if it loses this one, without a handshake).  Assumed: daemons are
    started by this app only, and nothing a client sends makes the app throw. *)
Theorem session_live acts p :
  let se := run_session acts (newSession p) in
  let c := se_ctl se in
  follows session_arrow (se_log se) = true /\ state_of (se_log se) = mc_state c /\ resting (mc_state c) = true /\
  (mc_state c = CONNECTED \/ mc_state c = PAUSED ->
   server_open (ph_client (se_world se)) = true /\ ph_eventJob (se_world se) = true /\
   ph_acked (se_world se) = Some (mc_targetUid c, mc_sessionToken c)).
Proof.
  cbv zeta. destruct (run_session_ok acts p) as [Hs Hf Hr Hl]. split_and!; [done..|]. intros Hc.
  destruct Hl as (H1 & H2 & H3); [by destruct Hc as [-> | ->]|done].
Qed.

End Real.

(** ** A simulated phone *)

Definition sim_random : bytes := seqZ 1 16.
Definition sim_token : bytes := generateSessionToken sim_random.

(** A rooted device: the daemons, and whether su is slow to return *)
Record sim_device := SimDevice { sd_daemons : list (Z * bytes); sd_slow : bool }.

Definition sim_shell (text : bytes) (d : sim_device) : shell_result * sim_device :=
  let runs c := bool_decide (text = shellPathPrefix ++ command_text DEFAULT_BTRACE_PATH c) in
  let lines := match sd_daemons d with [] => [] | _ => [str "4242"] end in
  let code := match sd_daemons d with [] => 1 | _ => 0 end in
  if runs Pidof || runs CatPidFile then (MkResult code lines [], d)
  else if runs (KillZero 4242) then (MkResult code [] [], d)
  else if runs (Kill 4242) || runs PkillAll then (MkResult code [] [], SimDevice [] (sd_slow d))
  else (MkResult 0 [] [], d).

Definition sim_launch : bytes := su_text DEFAULT_BTRACE_PATH (LaunchDaemon DEFAULT_LISTEN_ADDR 10123 sim_token).

Definition sim_su (text : bytes) (ms : Z) (d : sim_device) : su_result * sim_device :=
  if bool_decide (text = sim_launch) then
    (if sd_slow d then SuTimeout [] else SuExited 0 [],
     SimDevice (match sd_daemons d with [] => [(10123, sim_token)] | l => l end) (sd_slow d))
  else if bool_decide (text = su_text DEFAULT_BTRACE_PATH CatPid) then (SuExited 0 (str "4242" ++ [10]), d)
  else (SuExited 1 [], d).

#[export] Instance sim_device_ops : Device sim_device := {
  build_shell d := (Some true, d); shell_exec := sim_shell; su_exec := sim_su;
  stage_asset d := (Some true, d); cacheDir := str "/data/user/0/com.btrace.viewer/cache" }.

(** A launch command names one uid and one token. *)
Lemma su_text_inj u t u' t' :
  0 < u < 2 ^ 31 -> 0 < u' < 2 ^ 31 ->
  su_text DEFAULT_BTRACE_PATH (LaunchDaemon DEFAULT_LISTEN_ADDR u t) = su_text DEFAULT_BTRACE_PATH (LaunchDaemon DEFAULT_LISTEN_ADDR u' t') ->
  (u, t) = (u', t').
Proof.
  intros Hu Hu'. cbn [su_text]. intros E. do 6 apply app_inv_head in E.
  assert (forall v, 0 < v < 2 ^ 31 -> Forall alnum (Itoa v)) as Hd.
  { intros v Hv. unfold Itoa. destruct (Z.ltb_spec v 0); [lia|]. apply FormatUint_alnum; lia. }
  assert (u = u') as ->.
  { pose proof (f_equal (substringBefore 32) E) as E'.
    rewrite !substringBefore_digits in E' by (auto; try lia; by destruct t, t').
    apply Itoa_inj in E'; [done|unfold fits; lia..]. }
  apply app_inv_head, app_inv_tail in E. destruct t, t'; try done. cbn in E. injection E as -> E. apply app_inv_tail in E. by subst.
Qed.

#[export] Instance sim_device_laws : DeviceLaws sim_device.
Proof.
  refine {| daemons := sd_daemons |}.
  - done.
  - done.
  - intros c d. cbn [shell_exec sim_device_ops]. unfold sim_shell.
    destruct (_ || _); [done|]. destruct (bool_decide _); [done|]. destruct (_ || _); [apply list_subseteq_nil|done].
  - intros c ms d Hc. cbn [su_exec sim_device_ops]. unfold sim_su. rewrite bool_decide_eq_false_2.
    + by case_match.
    + by destruct Hc as [-> | ->]; vm_compute.
  - intros u t ms d Hu Ht. cbn [su_exec sim_device_ops]. unfold sim_su. case_bool_decide as E.
    + apply su_text_inj in E; [|done|lia]. rewrite E. cbn. destruct (sd_daemons d); [done|]. intros x Hx. by right.
    + case_match; cbn; intros x Hx; by right.
  - intros d. cbn [shell_exec sim_device_ops]. unfold sim_shell. rewrite bool_decide_eq_true_2 by done. cbn [orb].
    destruct (sd_daemons d) eqn:E; [done|]. intros _. exists 4242, [], []. by split_and!.
Defined.

(** A network on which the daemon answers: the outcomes of the next accepts, and
    what happens beside the next calls *)
Record sim_net := SimNet { sn_accepts : list bool; sn_background : list (list background) }.

Definition sim_ack : bytes :=
  let message := str "session=" ++ sim_token ++ str ";" in
  let payload := [1] ++ be_bytes 4 (len message) ++ message in
  [0xBD; MSG_ACK] ++ be_bytes 4 (len payload) ++ payload.

#[export] Instance sim_net_ops : Network sim_net := {
  net_bind _ _ n := (true, n);
  net_accept _ n := (if default true (head (sn_accepts n)) then Accepted else NoClient, SimNet (tail (sn_accepts n)) (sn_background n));
  net_close n := n;
  net_writer := {| write n _ := (true, n) |};
  net_receive n := (sim_ack, n);
  net_expired _ _ := false;
  net_background n := (default [] (head (sn_background n)), SimNet (sn_accepts n) (tail (sn_background n))) }.

Lemma sim_ack_frame : readFrame sim_ack = Some (KtFrameMsg MSG_ACK (drop 6 sim_ack), []).
Proof. by vm_compute. Qed.

#[export] Instance sim_net_laws : NetworkLaws sim_net id.
Proof.
  split.
  - intros n expired token. cbn [net_receive sim_net_ops fst awaitAck]. destruct (expired 0%nat); [done|].
    rewrite sim_ack_frame. cbn [kf_type kf_payload Z.eqb Pos.eqb].
    assert (parseAckMessage id (drop 6 sim_ack) = Some (str "session=" ++ sim_token ++ str ";")) as -> by by vm_compute.
    cbn [mbind option_bind]. repeat (case_match; try done).
  - intros n frame rest app E. cbn [net_receive sim_net_ops fst] in E. rewrite sim_ack_frame in E. by injection E as <- <-.
Qed.

Definition sim_phone (slow : bool) (accepts : list bool) (rounds : list (list background)) : phone sim_device sim_net :=
  MkPhone (MkClient false false false false false false) false false 0 (AppState 0 (MkGuards 0 0 0 0))
    (MkManager (-1) false (SimDevice [] slow)) (SimNet accepts rounds) None.

(** The session is connected, also after a pause, a lost connection and a
    reconnect at the second attempt, with rounds of the event loop in between. *)
Lemma session_live_witness :
  let acts := [StartMonitoring 10123 (str "com.example.app") (str "Example") sim_random; Pause; EnterReconnecting; AttemptReconnect 3 5000] in
  let p := sim_phone false [true; false; true] (replicate 30 [LoopRound; StaleRound; HeartbeatRound]) in
  let se := run_session (H := real id) acts (newSession p) in
  mc_state (se_ctl se) = CONNECTED /\ follows diagram_arrow (se_log se) = false /\ ph_acked (se_world se) = Some (10123, sim_token).
Proof.
  cbv zeta. set (acts := [_; _; _; _]). set (p := sim_phone _ _ _).
  destruct (session_live id acts p) as (_ & _ & _ & Hl). assert (mc_state (se_ctl (run_session (H := real id) acts (newSession p))) = CONNECTED) as E by by vm_compute.
  destruct (Hl (or_introl E)) as (_ & _ & ->). rewrite E. split_and!; by vm_compute.
Defined.

(** The answers of stopExistingDaemon since a log *)
Lemma stops_since new log log' l : log' = new ++ log -> stops log' = l ++ stops log -> stops new = l.
Proof. intros -> E. unfold stops in *. rewrite omap_app in E. by apply app_inv_tail in E. Qed.


(** ** What is left behind *)

(** When su does not return in time the daemon it has launched runs, the start
    fails, and after a reset a stop does nothing about the daemon. *)
Theorem slow_start_leaves_daemon :
  let acts := [StartMonitoring 10123 (str "com.example.app") (str "Example") sim_random; Reset; StopMonitoring] in
  let se := run_session (H := real id) acts (newSession (sim_phone true [] [])) in
  mc_state (se_ctl se) = IDLE /\ server_open (ph_client (se_world se)) = false /\
  sd_daemons (device (ph_manager (se_world se))) = [(10123, sim_token)].
Proof. by vm_compute. Qed.

(** A reconnect that fails leaves the server socket open, the daemon and the
    heartbeat running, and after a reset a stop does nothing about them. *)
Theorem failed_reconnect_leaves_daemon :
  let acts := [StartMonitoring 10123 (str "com.example.app") (str "Example") sim_random; EnterReconnecting; AttemptReconnect 3 5000;
               Reset; StopMonitoring] in
  let se := run_session (H := real id) acts (newSession (sim_phone false [true; false; false; false] [])) in
  mc_state (se_ctl se) = IDLE /\ server_open (ph_client (se_world se)) = true /\ ph_heartbeatJob (se_world se) = true /\
  sd_daemons (device (ph_manager (se_world se))) = [(10123, sim_token)].
Proof. by vm_compute. Qed.
